(* ===== verification/_CoqProject ===== *)
-Q . S2P
Prelude.v
Riscv.v
Memory.v
Machine.v
Spinlock.v
Kalloc.v
Vm.v
PageTable.v
VmWalk.v
VmMap.v
VmUser.v
VmCow.v
VmCopy.v
VmFree.v
VmSample.v
VmSpec.v
Kernel.v
Klock.v
KSample.v
Cstring.v
Printf.v
Proc.v
Sched.v
ProcSpec.v
Sleeplock.v
SleepSpec.v
Bio.v
Lru.v
BioSpec.v
FsSample.v
BcacheSpec.v
Log.v
LogSpec.v
Fs.v
LogSafe.v
Uart.v
Console.v
Pipe.v
File.v
ProcFs.v
Syscall.v
Exec.v
Sysfile.v
Virtio.v
Trap.v
Boot.v
SchedSpec.v
User.v
Ulib.v
Grep.v
Uprogs.v
Sh.v
ShSpec.v
Umalloc.v
UmallocSpec.v
Mkfs.v
MkfsSpec.v
FsRead.v
Inodes.v
FsPath.v
FsMkfs.v
FsWrite.v
FsFile.v
FileWrite.v
Asm.v
AsmSpec.v
Hart.v
Utest.v
Grind.v
Utests.v
UtestsFile.v
UtestsDir.v
Usertests.v
