(* ===== verification/Prelude.v ===== *)
(** * xv6_redefined: a verification development

    The program is a small Unix-like kernel for RISC-V with its disk-image
    builder and user programs (C and a little assembly): a page allocator with
    reference counts, Sv39 page tables with copy-on-write fork, processes with
    five compile-time schedulers, sleep and wakeup, a buffer cache over a
    virtio disk, a redo log, an inode file system, pipes, a console, system
    calls with tracing, and program loading.

    ** How the code is modelled

    A kernel function is a Rocq function in the monad [M S A] of this file: it
    maps a state to a result, which is [Ret a s], [Panic msg s] (a call of
    panic), [Ub what s] (something C leaves undefined: a wild address, an
    index out of an array, a division by zero), [Spin s] (an acquire that
    would wait for another hart), [Swtch s k] (the thread gives up the CPU;
    [k] is the rest of the thread as a function of the state it finds when it
    runs again) or [Fuel s]. Loops over a table are folds; other loops are
    [while], which allows 2^64 iterations, more than any loop on a 64-bit
    counter makes, so running out of fuel is never the reason a theorem holds:
    [wp m Q s] says that [m] returns, and the theorems are stated with it or
    with equations [m s = Ret ...]. C integers are [Z] with the wrap-around
    written out ([u64], [u32], [s32], ...).

    Memory is a map from addresses to bytes; page tables, the free list of
    pages and the virtio rings live in it as bytes. Structures of the tables
    ([proc], [buf], [inode], [file], ...) are records, pointers into a table
    are indices. The conditional compilation on the scheduler is the class
    [Config]; link-time addresses are the classes [KernelImage], [TrapImage],
    [VirtioImage], [StartImage]; the driver below the buffer cache is the
    class [BlockDevice], and what the cache relies on is the class [Disk].

    A user program is a function in the monad [U W A] of User: the world [W]
    stands for what is outside of it and the class [OS] has the system calls
    it makes; a program returns, exits or does something undefined. What the
    theorems on programs need of the calls is the class [Stream] (a descriptor
    to read and one to write) or [Brk] (sbrk). The test programs also use raw
    addresses: the class [Process] has the loads and stores of the process and
    the calls that take a pointer it makes up, the class [Alarm] what a program
    with an alarm handler relies on; [ProcTable] and [Harness] are what the
    theorems on [forktest] and on the driver of [usertests] need. The image
    builder runs on the host over a map of sectors, in the kernel's monad.

    Assembly is a list of instructions run by an interpreter ([run] of Asm) on
    the registers, control registers and memory of a hart; each fetch, load and
    store goes through the Sv39 translation of [satp] in byte memory, so code
    that changes [satp] under its own feet is checked to go on. A run ends at a
    jump out of the code ([Goto]), [sret], [mret] or [ecall].

    ** Files

    - Prelude: integers, bits, the monad, [wp] and its rules.
    - Riscv: [kernel/riscv.h], [memlayout.h], [param.h].
    - Memory, Machine: byte memory with the loops of [kernel/string.c], harts,
      locks, checked accesses.
    - Spinlock: [kernel/spinlock.c], and the atomic steps of several harts
      contending for a lock.
    - Kalloc: [kernel/kalloc.c].
    - Vm: [kernel/vm.c] and [cowalloc] of [kernel/trap.c]. PageTable, VmWalk,
      VmMap, VmUser, VmCow, VmCopy, VmFree: the tree a page table is, and
      lemmas on each function. VmSample: a sample address space. VmSpec: the
      theorems on address spaces.
    - Kernel: the state above the allocator. Klock: critical sections. KSample:
      a kernel at rest.
    - Cstring, Printf: [kernel/string.c] on C strings, [kernel/printf.c].
    - Proc, Sched: [kernel/proc.c]. ProcSpec: theorems on wakeup, kill, the
      scheduler passes and priorities.
    - Sleeplock: [kernel/sleeplock.c]. SleepSpec: a thread of the file system
      and its sleep locks.
    - Bio: [kernel/bio.c]. Lru: the list of buffers. BioSpec: the invariant of
      the cache. FsSample: a sample disk and cache. BcacheSpec: the theorems.
    - Log: [kernel/log.c]. LogSpec: the block writes of each function.
      LogSafe: recovery, commit and crash safety.
    - SchedSpec: the passes of the schedulers driven by processes, the MLFQ
      bookkeeping.
    - Fs, File, Pipe, ProcFs, Exec, Sysfile: [kernel/fs.c], [file.c], [pipe.c],
      the functions of [proc.c] that use the file system ([fork], [exit],
      [userinit], [forkret]), [exec.c], [sysfile.c].
    - Uart, Console, Virtio: [kernel/uart.c], [console.c], [virtio_disk.c].
    - Syscall, Trap, Boot: [kernel/syscall.c] and [sysproc.c], [trap.c] and
      [plic.c], [main.c] and [start.c].
    - User, Ulib: [user/user.h], [ulib.c], [printf.c]. Grep, Uprogs: [grep.c]
      and the small programs. Sh: [sh.c]; ShSpec: its grammar. Umalloc:
      [umalloc.c]; UmallocSpec: the heap it keeps.
    - Mkfs: [mkfs/mkfs.c]. MkfsSpec: the image it builds.
    - FsRead: [bmap] and [readi] on the content of the disk. Inodes: the inode
      table as a multiset of references. FsPath: [dirlookup] and [namex].
      FsMkfs: the kernel started on an image of mkfs. FsWrite: [balloc] and the
      allocating [bmap] inside a transaction. FsFile: [writei] and [iupdate].
      FileWrite: [filewrite] from user memory, and its crashes.
    - Asm: the RISC-V instructions in use, and [kernel/trampoline.S],
      [kernelvec.S], [swtch.S], [entry.S], [user/initcode.S] and the stubs that
      [user/usys.pl] writes. AsmSpec: what each of them does. Hart: the inline
      assembly of [kernel/riscv.h], and [start.c] on the registers of a hart.
    - Utest: the operations test programs share. Grind: [user/grind.c]. Utests:
      [forktest.c], [stressfs.c], [schedulertest.c], [cowtest.c],
      [alarmtest.c]. UtestsFile, UtestsDir, Usertests: [usertests.c], its tests
      in the order of the file, then its tables, driver and [main].

    ** What the theorems show

    - Page allocator: boot frees exactly the pages of RAM; any allowed
      sequence of operations refines an abstract allocator; errors panic.
    - Locks: mutual exclusion for any interleaving of any number of harts;
      interrupt nesting.
    - Address spaces: what walk, mappages, uvmunmap, uvmalloc, uvmfree,
      uvmcopy, cowalloc, copyin and copyout do to the mapping, to the pages
      and to their reference counts, on success and on failure.
    - Processes: wakeup and kill; every runnable process runs within a pass of
      the round-robin scheduler; the MLFQ fields stay consistent; where FCFS
      and the priority computation go wrong.
    - Buffer cache: it refines a map of blocks over the disk; replacement is
      least recently used.
    - Log: the recovery procedure installs a committed log, and transactions
      are atomic under crashes at any block write, recovery included; the
      reservation of [begin_op] is one block short.
    - File system: path resolution refines a walk over the directories on the
      disk and keeps the reference counts; the kernel started on an image that
      mkfs built reads every file back byte for byte; [filewrite] stores the
      bytes of the process in the file and touches no other file, and after a
      crash at any point and recovery the file has the bytes up to the end of one
      of its chunks.
    - mkfs: the image has every file, in disjoint blocks, and the bitmap of
      the blocks in use.
    - User programs: the library's number and memory functions; grep prints
      the lines its pattern matches; the shell parses exactly its grammar;
      malloc and free keep live blocks disjoint.
    - Assembly and boot: a trap from user space saves and restores all 31
      registers across the two switches of page table; a trap in the kernel is
      transparent; [swtch] resumes a thread where it was suspended; every hart
      boots onto its own stack with a timer whose interrupts are transparent;
      the array [initcode] is [initcode.S] assembled, but for the alignment of
      its [argv]; each stub of [usys.pl] makes the call of its name.
    - Test programs: the generator of grind is Park and Miller's and a
      permutation; [forktest] tells a bounded process table from one that is
      not; the driver of [usertests] reports a failure exactly when a test
      failed.

    Theorems whose hypotheses are invariants have a witness: a sample state,
    built from the static data of the kernel, on which they are applied.

    ** What is not modelled

    Between C and assembly: the C functions run on the state of Kernel, the
    assembly on a hart, and the two meet in the layouts of the trapframe and of
    the context and in the outcome [Swtch]; no theorem runs both on one state.
    Control registers are separate cells: that [sstatus] and [sie] are views of
    [mstatus] and [mie], and what the hardware does on a trap before the first
    instruction, is not modelled. Translations are not cached, so fences of the
    page tables do nothing, and memory fences neither: steps of harts are
    sequentially consistent. The disk, UART and interrupt hardware beyond the
    registers and memory the drivers touch. The RAM disk, which is not built
    and does not match [struct buf]. The prototypes of [kernel/defs.h], which
    have nothing to execute. *)

From stdpp Require Export base gmap sets list strings numbers option.
From Stdlib Require Export ZArith Lia.

#[global] Set Default Proof Using "Type".
#[export] Set Default Goal Selector "!".

Open Scope Z_scope.

(** ** Machine integers

    A C integer is a [Z] kept in the range of its type; the wrap-around of an
    operation is written out with one of these functions. *)

Definition u64 (x : Z) : Z := x mod 2 ^ 64.
Definition u32 (x : Z) : Z := x mod 2 ^ 32.
Definition u16 (x : Z) : Z := x mod 2 ^ 16.
Definition u8 (x : Z) : Z := x mod 2 ^ 8.
(** Two's complement reading of the low 32, 16 and 8 bits. *)
Definition s32 (x : Z) : Z := (x + 2 ^ 31) mod 2 ^ 32 - 2 ^ 31.
Definition s16 (x : Z) : Z := (x + 2 ^ 15) mod 2 ^ 16 - 2 ^ 15.

(** [b2z] is the value of a C comparison, [nz] the truth of a C scalar. *)
Definition b2z (b : bool) : Z := if b then 1 else 0.
Definition nz (x : Z) : bool := negb (x =? 0).
(** [bit x f] is the C condition [x & f]. *)
Definition bit (x f : Z) : bool := nz (Z.land x f).

Lemma u64_small x : 0 <= x < 2 ^ 64 -> u64 x = x.
Proof. apply Z.mod_small. Qed.
Lemma u32_small x : 0 <= x < 2 ^ 32 -> u32 x = x.
Proof. apply Z.mod_small. Qed.
Lemma u8_small x : 0 <= x < 2 ^ 8 -> u8 x = x.
Proof. apply Z.mod_small. Qed.
Lemma u64_range x : 0 <= u64 x < 2 ^ 64.
Proof. apply Z.mod_pos_bound. lia. Qed.
Lemma u32_range x : 0 <= u32 x < 2 ^ 32.
Proof. apply Z.mod_pos_bound. lia. Qed.
Lemma u8_range x : 0 <= u8 x < 2 ^ 8.
Proof. apply Z.mod_pos_bound. lia. Qed.
Lemma s32_range x : - 2 ^ 31 <= s32 x < 2 ^ 31.
Proof. unfold s32. pose proof (Z.mod_pos_bound (x + 2 ^ 31) (2 ^ 32)). lia. Qed.
Lemma s32_small x : - 2 ^ 31 <= x < 2 ^ 31 -> s32 x = x.
Proof. intros. unfold s32. rewrite Z.mod_small; lia. Qed.
Lemma u32_idemp x : u32 (u32 x) = u32 x.
Proof. apply u32_small, u32_range. Qed.

(** ** Bits *)

Lemma land_ones_mod x n : 0 <= n -> Z.land x (Z.ones n) = x mod 2 ^ n.
Proof. apply Z.land_ones. Qed.

(** Clearing the [n] low bits, written in C as [x & ~(2^n - 1)]. *)
Lemma land_clear_low x n : 0 <= n -> Z.land x (- 2 ^ n) = x - x mod 2 ^ n.
Proof.
  intros Hn. replace (- 2 ^ n) with (Z.lnot (Z.ones n)).
  2: { unfold Z.lnot. rewrite Z.ones_equiv. lia. }
  rewrite <- Z.ldiff_land, Z.ldiff_ones_r, Z.shiftl_mul_pow2, Z.shiftr_div_pow2 by lia.
  rewrite Z.mod_eq by lia. lia.
Qed.

Lemma lor_shiftl_add x f n :
  0 <= n -> 0 <= f < 2 ^ n -> Z.lor (Z.shiftl x n) f = x * 2 ^ n + f.
Proof.
  intros Hn Hf. rewrite <- Z.shiftl_mul_pow2 by lia.
  assert (Hz : Z.land (Z.shiftl x n) f = 0).
  { destruct (decide (f = 0)) as [->|]; [by rewrite Z.land_0_r|].
    apply Z.bits_inj'. intros i Hi.
    rewrite Z.land_spec, Z.bits_0, Z.shiftl_spec by lia.
    destruct (decide (i < n)) as [Hlt|Hge].
    - rewrite Z.testbit_neg_r by lia. done.
    - rewrite (Z.bits_above_log2 f); [apply andb_false_r| lia|].
      apply Z.lt_le_trans with n; [|lia].
      apply Z.log2_lt_pow2; lia. }
  pose proof (Z.add_lor_land (Z.shiftl x n) f). lia.
Qed.

Lemma mul_add_mod a b c : 0 <= b < c -> (a * c + b) mod c = b.
Proof. intros. rewrite Z.add_comm, Z_mod_plus_full. by apply Z.mod_small. Qed.
Lemma mul_add_div a b c : 0 <= b < c -> (a * c + b) / c = a.
Proof. intros. rewrite Z.div_add_l by lia. rewrite (Z.div_small b); lia. Qed.

(** Reducing the size tests of the code to propositions. *)
Ltac zbool :=
  repeat match goal with
  | H : (_ =? _) = true |- _ => apply Z.eqb_eq in H
  | H : (_ =? _) = false |- _ => apply Z.eqb_neq in H
  | H : (_ <? _) = true |- _ => apply Z.ltb_lt in H
  | H : (_ <? _) = false |- _ => apply Z.ltb_ge in H
  | H : (_ <=? _) = true |- _ => apply Z.leb_le in H
  | H : (_ <=? _) = false |- _ => apply Z.leb_gt in H
  | H : _ && _ = true |- _ => apply andb_true_iff in H as [? ?]
  | H : _ || _ = false |- _ => apply orb_false_iff in H as [? ?]
  | H : negb _ = true |- _ => apply negb_true_iff in H
  | H : negb _ = false |- _ => apply negb_false_iff in H
  end.

(** Case analysis on the integer comparison that blocks the goal. *)
Ltac zcase :=
  match goal with
  | |- context [?a =? ?b] => destruct (Z.eqb_spec a b)
  | |- context [?a <? ?b] => destruct (Z.ltb_spec a b)
  | |- context [?a <=? ?b] => destruct (Z.leb_spec a b)
  end; try lia; simpl.

(** [lia] with division and remainder by constants. *)
Ltac dlia := Z.div_mod_to_equations; lia.

Create HintDb xv6.

(** ** The kernel monad

    A kernel function is a map from the state it starts in to a result: it
    returns, panics, does something C leaves undefined, spins on a lock that
    another hart holds, gives up the CPU (with the rest of its work as a
    function of the state it will find when it runs again), or exceeds the
    iteration bound of a [while] loop. *)

Inductive res (S A : Type) : Type :=
| Ret (a : A) (s : S)
| Panic (msg : string) (s : S)
| Ub (what : string) (s : S)
| Spin (s : S)
| Swtch (s : S) (k : S -> res S A)
| Fuel (s : S).
Arguments Ret {S A} a s.
Arguments Panic {S A} msg s.
Arguments Ub {S A} what s.
Arguments Spin {S A} s.
Arguments Swtch {S A} s k.
Arguments Fuel {S A} s.

Definition M (S A : Type) : Type := S -> res S A.

Fixpoint rbind {S A B} (r : res S A) (f : A -> M S B) : res S B :=
  match r with
  | Ret a s => f a s
  | Panic msg s => Panic msg s
  | Ub w s => Ub w s
  | Spin s => Spin s
  | Swtch s k => Swtch s (fun s' => rbind (k s') f)
  | Fuel s => Fuel s
  end.

Definition ret {S A} (a : A) : M S A := fun s => Ret a s.
Definition bind {S A B} (m : M S A) (f : A -> M S B) : M S B := fun s => rbind (m s) f.
Definition panic {S A} (msg : string) : M S A := fun s => Panic msg s.
Definition undef {S A} (what : string) : M S A := fun s => Ub what s.
Definition gets {S A} (f : S -> A) : M S A := fun s => Ret (f s) s.
Definition modify {S} (f : S -> S) : M S unit := fun s => Ret tt (f s).
Definition swtch_away {S} : M S unit := fun s => Swtch s (fun s' => Ret tt s').

Declare Scope kern_scope.
Delimit Scope kern_scope with kern.
Bind Scope kern_scope with M.
Notation "'let!' x := m 'in' k" := (bind m (fun x => k))
  (at level 10, x pattern, m at level 100, k at level 200,
   format "'[v' 'let!'  x  :=  m  'in' '/' k ']'") : kern_scope.
Notation "'do!' m 'in' k" := (bind m (fun _ => k))
  (at level 10, m at level 100, k at level 200,
   format "'[v' 'do!'  m  'in' '/' k ']'") : kern_scope.
Open Scope kern_scope.

(** [when c m] is [if (c) m;]. *)
Definition when {S} (c : bool) (m : M S unit) : M S unit := if c then m else ret tt.

(** A [for] loop over a list of indices, with an accumulator; the body
    continues with [inl] and leaves the loop with [inr]. *)
Fixpoint for_each {S A B R} (xs : list A) (acc : B) (body : A -> B -> M S (B + R))
    : M S (B + R) :=
  match xs with
  | [] => ret (inl acc)
  | x :: xs' =>
      let! r := body x acc in
      match r with
      | inl acc' => for_each xs' acc' body
      | inr e => ret (inr e)
      end
  end.

(** The same with neither accumulator nor early exit. *)
Fixpoint for_all {S A} (xs : list A) (body : A -> M S unit) : M S unit :=
  match xs with
  | [] => ret tt
  | x :: xs' => do! body x in for_all xs' body
  end.

(** An unbounded loop. [doubled d] runs up to [2 ^ d] iterations; [while]
    allows [2 ^ 64], more than any loop on a 64-bit counter can make. *)
Fixpoint doubled {S L A} (d : nat) (body : L -> M S (L + A)) (l : L) : M S (L + A) :=
  match d with
  | O => body l
  | Datatypes.S d' =>
      let! r := doubled d' body l in
      match r with
      | inl l' => doubled d' body l'
      | inr a => ret (inr a)
      end
  end.

Definition while {S L A} (body : L -> M S (L + A)) (l : L) : M S A :=
  let! r := doubled 64 body l in
  match r with inr a => ret a | inl _ => fun s => Fuel s end.

(** Running a computation on a component of a larger state. *)
Fixpoint rzoom {S T A} (get : T -> S) (put : S -> T -> T) (t : T) (r : res S A) : res T A :=
  match r with
  | Ret a s => Ret a (put s t)
  | Panic msg s => Panic msg (put s t)
  | Ub w s => Ub w (put s t)
  | Spin s => Spin (put s t)
  | Swtch s k => Swtch (put s t) (fun t' => rzoom get put t' (k (get t')))
  | Fuel s => Fuel (put s t)
  end.
Definition zoom {S T A} (get : T -> S) (put : S -> T -> T) (m : M S A) : M T A :=
  fun t => rzoom get put t (m (get t)).

(** ** Reasoning about kernel functions

    [wp m Q s]: run from [s], [m] returns (so it neither panics, nor is
    undefined, nor blocks, nor exceeds a loop bound) and [Q] holds of its
    value and final state. *)

Definition wp {S A} (m : M S A) (Q : A -> S -> Prop) (s : S) : Prop :=
  match m s with Ret a s' => Q a s' | _ => False end.

Section wp.
Context {S : Type}.

Lemma wp_ret {A} (a : A) Q (s : S) : Q a s -> wp (ret a) Q s.
Proof. done. Qed.
Lemma wp_gets {A} (f : S -> A) Q s : Q (f s) s -> wp (gets f) Q s.
Proof. done. Qed.
Lemma wp_modify (f : S -> S) Q s : Q tt (f s) -> wp (modify f) Q s.
Proof. done. Qed.
Lemma wp_bind {A B} (m : M S A) (f : A -> M S B) Q s :
  wp m (fun a s' => wp (f a) Q s') s -> wp (bind m f) Q s.
Proof. unfold wp, bind. by destruct (m s). Qed.
Lemma wp_bind_inv {A B} (m : M S A) (f : A -> M S B) Q s :
  wp (bind m f) Q s -> wp m (fun a s' => wp (f a) Q s') s.
Proof. unfold wp, bind. by destruct (m s). Qed.
Lemma wp_conseq {A} (m : M S A) (Q Q' : A -> S -> Prop) s :
  wp m Q s -> (forall a s', Q a s' -> Q' a s') -> wp m Q' s.
Proof. unfold wp. destruct (m s); naive_solver. Qed.
Lemma wp_eq {A} (m : M S A) Q s a s' : m s = Ret a s' -> Q a s' -> wp m Q s.
Proof. unfold wp. by intros ->. Qed.
Lemma wp_inv {A} (m : M S A) Q s : wp m Q s -> exists a s', m s = Ret a s' /\ Q a s'.
Proof. unfold wp. destruct (m s); naive_solver. Qed.
Lemma bind_ret {A B} (m : M S A) (f : A -> M S B) s a s' :
  m s = Ret a s' -> bind m f s = f a s'.
Proof. unfold bind. by intros ->. Qed.
Lemma bind_panic {A B} (m : M S A) (f : A -> M S B) s msg s' :
  m s = Panic msg s' -> bind m f s = Panic msg s'.
Proof. unfold bind. by intros ->. Qed.
Lemma bind_assoc {A B C} (m : M S A) (f : A -> M S B) (g : B -> M S C) s :
  (forall s1 k, m s <> Swtch s1 k) ->
  bind (bind m f) g s = bind m (fun a => bind (f a) g) s.
Proof. unfold bind. destruct (m s); simpl; try done. intros H. by destruct (H s0 k). Qed.

Lemma wp_for_each {A B R} (body : A -> B -> M S (B + R)) (I : list A -> B -> S -> Prop) Q :
  (forall x xs b s, I (x :: xs) b s ->
     wp (body x b) (fun r s' => match r with inl b' => I xs b' s' | inr _ => Q r s' end) s) ->
  (forall b s, I [] b s -> Q (inl b) s) ->
  forall xs b s, I xs b s -> wp (for_each xs b body) Q s.
Proof.
  intros Hb Hd xs. induction xs as [|x xs IH]; intros b s Hi; simpl.
  - apply wp_ret. auto.
  - apply wp_bind. eapply wp_conseq; [by apply Hb|].
    intros [b'|r] s'; simpl; intros H; [by apply IH|by apply wp_ret].
Qed.

Lemma wp_for_all {A} (body : A -> M S unit) (I : list A -> S -> Prop) (Q : unit -> S -> Prop) :
  (forall x xs s, I (x :: xs) s -> wp (body x) (fun _ s' => I xs s') s) ->
  (forall s, I [] s -> Q tt s) ->
  forall xs s, I xs s -> wp (for_all xs body) Q s.
Proof.
  intros Hb Hd xs. induction xs as [|x xs IH]; intros s Hi; simpl.
  - apply wp_ret. auto.
  - apply wp_bind. eapply wp_conseq; [by apply Hb|]. intros ? s' H. by apply IH.
Qed.

(** [doubled d] is total when a measure below [2 ^ d] decreases. *)
Lemma wp_doubled {L A} (body : L -> M S (L + A)) (I : L -> S -> Prop) (mu : L -> Z) Q d :
  (forall l s, I l s -> wp (body l) (fun r s' =>
      match r with inl l' => I l' s' /\ 0 <= mu l' < mu l | inr a => Q a s' end) s) ->
  forall l s, I l s -> 0 <= mu l ->
  wp (doubled d body l) (fun r s' =>
      match r with
      | inl l' => I l' s' /\ 0 <= mu l' /\ mu l' + 2 ^ Z.of_nat d <= mu l
      | inr a => Q a s'
      end) s.
Proof.
  intros Hb. induction d as [|d IH]; intros l s Hi Hmu; cbn [doubled].
  - eapply wp_conseq; [by apply Hb|]. intros [l'|a] s'; [|done].
    simpl. intros [? ?]. split_and!; [done|lia|lia].
  - apply wp_bind. eapply wp_conseq; [by apply IH|].
    intros [l'|a] s'; [|done]. intros (Hi' & Hm & Hd).
    eapply wp_conseq; [by apply IH|].
    intros [l''|a] s''; [|done]. intros (? & ? & ?).
    rewrite Nat2Z.inj_succ, Z.pow_succ_r by lia. split_and!; [done|lia|lia].
Qed.

Lemma wp_while {L A} (body : L -> M S (L + A)) (I : L -> S -> Prop) (mu : L -> Z) Q l s :
  (forall l s, I l s -> wp (body l) (fun r s' =>
      match r with inl l' => I l' s' /\ 0 <= mu l' < mu l | inr a => Q a s' end) s) ->
  I l s -> 0 <= mu l < 2 ^ 64 -> wp (while body l) Q s.
Proof.
  intros Hb Hi Hmu. apply wp_bind. eapply wp_conseq; [apply (wp_doubled body I mu Q 64); auto; lia|].
  intros [l'|a] s'; [|done]. intros (_ & ? & ?). simpl in *. lia.
Qed.

(** The same with the measure on a ghost value, when the loop variable does
    not determine how far the loop has come. *)
Lemma wp_doubled_ghost {G L A} (body : L -> M S (L + A)) (I : G -> L -> S -> Prop) (mu : G -> Z) Q d :
  (forall g l s, I g l s -> wp (body l) (fun r s' =>
      match r with inl l' => exists g', I g' l' s' /\ 0 <= mu g' < mu g | inr a => Q a s' end) s) ->
  forall g l s, I g l s -> 0 <= mu g ->
  wp (doubled d body l) (fun r s' =>
      match r with
      | inl l' => exists g', I g' l' s' /\ 0 <= mu g' /\ mu g' + 2 ^ Z.of_nat d <= mu g
      | inr a => Q a s'
      end) s.
Proof.
  intros Hb. induction d as [|d IH]; intros g l s Hi Hmu; cbn [doubled].
  - eapply wp_conseq; [by eapply Hb|]. intros [l'|a] s'; [|done].
    simpl. intros (g' & ? & ?). exists g'. split_and!; [done|lia|lia].
  - apply wp_bind. eapply wp_conseq; [by eapply IH|].
    intros [l'|a] s'; [|done]. intros (g' & Hi' & Hm & Hd).
    eapply wp_conseq; [by eapply IH|].
    intros [l''|a] s''; [|done]. intros (g'' & ? & ? & ?).
    rewrite Nat2Z.inj_succ, Z.pow_succ_r by lia. exists g''. split_and!; [done|lia|lia].
Qed.

Lemma wp_while_ghost {G L A} (body : L -> M S (L + A)) (I : G -> L -> S -> Prop) (mu : G -> Z) Q g l s :
  (forall g l s, I g l s -> wp (body l) (fun r s' =>
      match r with inl l' => exists g', I g' l' s' /\ 0 <= mu g' < mu g | inr a => Q a s' end) s) ->
  I g l s -> 0 <= mu g < 2 ^ 64 -> wp (while body l) Q s.
Proof.
  intros Hb Hi Hmu. apply wp_bind. eapply wp_conseq; [eapply (wp_doubled_ghost body I mu Q 64); [done|done|lia]|].
  intros [l'|a] s'; [|done]. intros (g' & _ & ? & ?). simpl in *. lia.
Qed.

Lemma for_all_app {A} (l1 l2 : list A) (body : A -> M S unit) s s' : for_all l1 body s = Ret tt s' -> for_all (l1 ++ l2) body s = for_all l2 body s'.
Proof.
  revert s. induction l1 as [|x l1 IH]; intros s; simpl; [by intros [= ->]|]. unfold bind. destruct (body x s) as [[] s1| | | | |]; simpl; try done. apply IH.
Qed.

(** A loop whose first iteration leaves it. *)
Lemma while_stop {L A} (body : L -> M S (L + A)) l s a s' :
  body l s = Ret (inr a) s' -> while body l s = Ret a s'.
Proof.
  intros E. unfold while. assert (Hd : doubled 64 body l s = Ret (inr a) s').
  { generalize 64%nat. intros d. induction d as [|d IH]; [done|]. cbn [doubled]. by erewrite bind_ret by exact IH. }
  by erewrite bind_ret by exact Hd.
Qed.
End wp.

(** Step through the monadic structure of a [wp] goal. *)
Ltac wp_step :=
  match goal with
  | |- wp (bind _ _) _ _ => apply wp_bind
  | |- wp (ret _) _ _ => apply wp_ret
  | |- wp (gets _) _ _ => apply wp_gets
  | |- wp (modify _) _ _ => apply wp_modify
  | |- wp (when true _) _ _ => unfold when
  | |- wp (when false _) _ _ => unfold when
  end; cbv beta.
Ltac wp_steps := repeat wp_step.
