(* ===== verification/Riscv.v ===== *)
(** * Constants and address arithmetic

    The macros of [kernel/riscv.h] that the page-table code is written with,
    the memory layout of [kernel/memlayout.h] and the limits of
    [kernel/param.h], with the facts about them that the components share:
    page rounding, the encoding of page-table entries and the split of a
    virtual address into three 9-bit indices and an offset. *)

From S2P Require Import Prelude.

(** ** [kernel/riscv.h] *)

Definition PGSIZE : Z := 4096.
#[global] Arguments PGSIZE : simpl never.
Definition PGSHIFT : Z := 12.

Definition PGROUNDUP (sz : Z) : Z := Z.land (u64 (sz + PGSIZE - 1)) (Z.lnot (PGSIZE - 1)).
Definition PGROUNDDOWN (a : Z) : Z := Z.land a (Z.lnot (PGSIZE - 1)).

Definition PTE_V : Z := Z.shiftl 1 0.
Definition PTE_R : Z := Z.shiftl 1 1.
Definition PTE_W : Z := Z.shiftl 1 2.
Definition PTE_X : Z := Z.shiftl 1 3.
Definition PTE_U : Z := Z.shiftl 1 4.
Definition PTE_C : Z := Z.shiftl 1 8.

Definition PA2PTE (pa : Z) : Z := u64 (Z.shiftl (Z.shiftr pa 12) 10).
Definition PTE2PA (pte : Z) : Z := u64 (Z.shiftl (Z.shiftr pte 10) 12).
Definition PTE_FLAGS (pte : Z) : Z := Z.land pte 0x3FF.

Definition PXMASK : Z := 0x1FF.
Definition PXSHIFT (level : Z) : Z := PGSHIFT + 9 * level.
Definition PX (level va : Z) : Z := Z.land (Z.shiftr va (PXSHIFT level)) PXMASK.

Definition MAXVA : Z := Z.shiftl 1 (9 + 9 + 9 + 12 - 1).

Definition SATP_SV39 : Z := Z.shiftl 8 60.
Definition MAKE_SATP (pagetable : Z) : Z := Z.lor SATP_SV39 (Z.shiftr pagetable 12).

Definition SSTATUS_SPP : Z := Z.shiftl 1 8.
Definition SSTATUS_SPIE : Z := Z.shiftl 1 5.
Definition SSTATUS_SIE : Z := Z.shiftl 1 1.

(** ** [kernel/memlayout.h] *)

Definition UART0 : Z := 0x10000000.
Definition UART0_IRQ : Z := 10.
Definition VIRTIO0 : Z := 0x10001000.
Definition VIRTIO0_IRQ : Z := 1.
Definition PLIC : Z := 0x0c000000.
Definition KERNBASE : Z := 0x80000000.
Definition PHYSTOP : Z := KERNBASE + 128 * 1024 * 1024.
Definition TRAMPOLINE : Z := MAXVA - PGSIZE.
Definition KSTACK (p : Z) : Z := TRAMPOLINE - (p + 1) * 2 * PGSIZE.
Definition TRAPFRAME : Z := TRAMPOLINE - PGSIZE.

(** ** [kernel/param.h] *)

Definition NPROC : nat := 64.
Definition NCPU : nat := 8.
Definition NOFILE : nat := 16.
Definition NFILE : nat := 100.
Definition NINODE : nat := 50.
Definition NDEV : Z := 10.
Definition ROOTDEV : Z := 1.
Definition MAXARG : Z := 32.
Definition MAXOPBLOCKS : Z := 10.
Definition LOGSIZE : Z := MAXOPBLOCKS * 3.
Definition NBUF : nat := 30.
Definition FSSIZE : Z := 2000.
Definition MAXPATH : Z := 128.

(** ** What the linker and the assembler provide

    Addresses the sources declare [extern]; [kernel_sym] gives them the values
    of the checked-in symbol table [kernel/kernel.sym]. *)

Class KernelImage := {
  kend : Z;               (* end[]: first address after the kernel *)
  etext : Z;              (* etext[] *)
  trampoline : Z;         (* trampoline[] *)
  kend_range : KERNBASE <= kend < PHYSTOP;
  etext_range : KERNBASE < etext < PHYSTOP;
  etext_aligned : etext mod PGSIZE = 0;
  trampoline_range : KERNBASE <= trampoline < PHYSTOP;
  trampoline_aligned : trampoline mod PGSIZE = 0
}.

Program Definition kernel_sym : KernelImage := {|
  kend := 0x802442c8;
  etext := 0x80008000;
  trampoline := 0x80007000
|}.
Solve All Obligations with by unfold KERNBASE, PHYSTOP, PGSIZE; vm_compute.

(** ** Facts *)

Lemma PGSIZE_pow : PGSIZE = 2 ^ 12.
Proof. done. Qed.
Lemma MAXVA_pow : MAXVA = 2 ^ 38.
Proof. done. Qed.

Definition page_aligned (a : Z) : Prop := a mod PGSIZE = 0.

Lemma PGROUNDDOWN_eq a : PGROUNDDOWN a = a - a mod PGSIZE.
Proof.
  unfold PGROUNDDOWN. replace (Z.lnot (PGSIZE - 1)) with (- 2 ^ 12) by done.
  by rewrite land_clear_low.
Qed.

Lemma PGROUNDUP_eq a :
  0 <= a < 2 ^ 64 - PGSIZE -> PGROUNDUP a = (a + PGSIZE - 1) / PGSIZE * PGSIZE.
Proof.
  intros Ha. unfold PGROUNDUP. replace (Z.lnot (PGSIZE - 1)) with (- 2 ^ 12) by done.
  rewrite land_clear_low by lia. rewrite u64_small by (unfold PGSIZE in *; lia).
  rewrite (Z.mod_eq _ (2 ^ 12)) by lia. change (2 ^ 12) with PGSIZE. lia.
Qed.

Lemma PGROUNDDOWN_aligned a : page_aligned (PGROUNDDOWN a).
Proof.
  unfold page_aligned. rewrite PGROUNDDOWN_eq.
  replace (a - a mod PGSIZE) with ((a / PGSIZE) * PGSIZE).
  - apply Z_mod_mult.
  - rewrite (Z.mod_eq a PGSIZE) by done. lia.
Qed.

Lemma PGROUNDDOWN_id a : page_aligned a -> PGROUNDDOWN a = a.
Proof. unfold page_aligned. rewrite PGROUNDDOWN_eq. lia. Qed.
Lemma PGROUNDDOWN_bounds a : PGROUNDDOWN a <= a < PGROUNDDOWN a + PGSIZE.
Proof.
  rewrite PGROUNDDOWN_eq. pose proof (Z.mod_pos_bound a PGSIZE). unfold PGSIZE in *. lia.
Qed.

(** A page-table entry made of an aligned physical address and ten flag bits
    is the page number shifted by ten plus the flags. *)
Lemma PA2PTE_eq pa : 0 <= pa < 2 ^ 56 -> PA2PTE pa = pa / PGSIZE * 1024.
Proof.
  intros H. unfold PA2PTE. rewrite Z.shiftr_div_pow2, Z.shiftl_mul_pow2 by lia.
  change (2 ^ 12) with PGSIZE. change (2 ^ 10) with 1024. apply u64_small.
  unfold PGSIZE. pose proof (Z.div_lt_upper_bound pa 4096 (2 ^ 44)).
  pose proof (Z.div_pos pa 4096). lia.
Qed.

Lemma mk_pte_eq pa f :
  0 <= pa < 2 ^ 56 -> 0 <= f < 1024 -> Z.lor (PA2PTE pa) f = pa / PGSIZE * 1024 + f.
Proof.
  intros H Hf. rewrite PA2PTE_eq by done.
  change 1024 with (2 ^ 10). rewrite <- Z.shiftl_mul_pow2 by lia.
  rewrite lor_shiftl_add by lia. by rewrite Z.shiftl_mul_pow2.
Qed.

Lemma PTE2PA_mk pa f :
  0 <= pa < 2 ^ 56 -> page_aligned pa -> 0 <= f < 1024 ->
  PTE2PA (Z.lor (PA2PTE pa) f) = pa.
Proof.
  intros H Ha Hf. rewrite mk_pte_eq by done. unfold PTE2PA.
  rewrite Z.shiftr_div_pow2, Z.shiftl_mul_pow2 by lia.
  change (2 ^ 10) with 1024. rewrite mul_add_div by lia.
  unfold page_aligned in Ha. change (2 ^ 12) with PGSIZE.
  replace (pa / PGSIZE * PGSIZE) with pa by (rewrite (Z.div_mod pa PGSIZE) at 1; unfold PGSIZE in *; lia).
  apply u64_small. lia.
Qed.

Lemma PTE_FLAGS_mk pa f :
  0 <= pa < 2 ^ 56 -> 0 <= f < 1024 -> PTE_FLAGS (Z.lor (PA2PTE pa) f) = f.
Proof.
  intros H Hf. rewrite mk_pte_eq by done. unfold PTE_FLAGS.
  change 0x3FF with (Z.ones 10). rewrite Z.land_ones by lia. by apply mul_add_mod.
Qed.

Lemma mk_pte_range pa f :
  0 <= pa < 2 ^ 56 -> 0 <= f < 1024 -> 0 <= Z.lor (PA2PTE pa) f < 2 ^ 64.
Proof.
  intros H Hf. rewrite mk_pte_eq by done.
  pose proof (Z.div_lt_upper_bound pa PGSIZE (2 ^ 44)).
  pose proof (Z.div_pos pa PGSIZE). unfold PGSIZE in *. lia.
Qed.

(** A flag below the ten flag bits is read off [PTE_FLAGS]. *)
Lemma land_PTE_FLAGS pte m : Z.land m 0x3FF = m -> Z.land (PTE_FLAGS pte) m = Z.land pte m.
Proof.
  intros Hm. unfold PTE_FLAGS. rewrite <- Z.land_assoc, (Z.land_comm 0x3FF), Hm. done.
Qed.

Lemma PX_eq level va : 0 <= level -> PX level va = va / 2 ^ (12 + 9 * level) mod 512.
Proof.
  intros. unfold PX, PXSHIFT, PXMASK, PGSHIFT. change 0x1FF with (Z.ones 9).
  rewrite Z.shiftr_div_pow2, Z.land_ones by lia. done.
Qed.

Lemma PX_range level va : 0 <= level -> 0 <= PX level va < 512.
Proof. intros. rewrite PX_eq by done. apply Z.mod_pos_bound. lia. Qed.

(** The three indices determine the page of an address below [MAXVA]. *)
Lemma PX_split va :
  0 <= va < MAXVA ->
  va = PX 2 va * 2 ^ 30 + PX 1 va * 2 ^ 21 + PX 0 va * 2 ^ 12 + va mod PGSIZE.
Proof.
  rewrite MAXVA_pow. intros Hva. rewrite !PX_eq by lia.
  change (12 + 9 * 2) with 30. change (12 + 9 * 1) with 21. change (12 + 9 * 0) with 12.
  unfold PGSIZE.
  assert (H2 : va / 2 ^ 30 mod 512 = va / 2 ^ 30).
  { apply Z.mod_small. split; [apply Z.div_pos; lia|]. apply Z.div_lt_upper_bound; lia. }
  rewrite H2.
  replace (va / 2 ^ 30) with (va / 2 ^ 21 / 512) by (rewrite Z.div_div by lia; done).
  replace (va / 2 ^ 21) with (va / 2 ^ 12 / 512) by (rewrite Z.div_div by lia; done).
  change (2 ^ 12) with 4096.
  pose proof (Z.div_mod va 4096). pose proof (Z.div_mod (va / 4096) 512).
  pose proof (Z.div_mod (va / 4096 / 512) 512). lia.
Qed.

Lemma PX_inj va va' :
  0 <= va < MAXVA -> 0 <= va' < MAXVA -> page_aligned va -> page_aligned va' ->
  PX 2 va = PX 2 va' -> PX 1 va = PX 1 va' -> PX 0 va = PX 0 va' -> va = va'.
Proof.
  unfold page_aligned. intros Hv Hv' Ha Ha' H2 H1 H0.
  rewrite (PX_split va), (PX_split va') by done. lia.
Qed.
