(* ===== verification/Memory.v ===== *)
(** * Byte memory

    Physical memory as a finite map from addresses to bytes, with the
    little-endian accesses of the machine and the byte loops of
    [kernel/string.c] that fill and move memory. Two memories that agree on
    every byte are equivalent ([≡ₘ]); every reader respects the equivalence. *)

From S2P Require Import Prelude.

Abbreviation memory := (gmap Z Z).

Definition mget (m : memory) (a : Z) : Z := u8 (default 0 (m !! a)).
Definition mset (m : memory) (a v : Z) : memory := <[a := u8 v]> m.

(** Little-endian integers of [n] bytes. *)
Fixpoint load_le (m : memory) (a : Z) (n : nat) : Z :=
  match n with
  | O => 0
  | S n' => mget m a + 256 * load_le m (a + 1) n'
  end.
Fixpoint store_le (m : memory) (a : Z) (n : nat) (v : Z) : memory :=
  match n with
  | O => m
  | S n' => store_le (mset m a v) (a + 1) n' (v / 256)
  end.

Definition load64 (m : memory) (a : Z) : Z := load_le m a 8.
Definition store64 (m : memory) (a v : Z) : memory := store_le m a 8 v.
Definition load32 (m : memory) (a : Z) : Z := load_le m a 4.
Definition store32 (m : memory) (a v : Z) : memory := store_le m a 4 v.

(** The bytes [a, a+n) as a list, and storing a list of bytes. *)
Fixpoint load_bytes (m : memory) (a : Z) (n : nat) : list Z :=
  match n with
  | O => []
  | S n' => mget m a :: load_bytes m (a + 1) n'
  end.
Fixpoint store_bytes (m : memory) (a : Z) (bs : list Z) : memory :=
  match bs with
  | [] => m
  | b :: bs' => store_bytes (mset m a b) (a + 1) bs'
  end.

(** [memset]'s loop. *)
Fixpoint mem_fill (m : memory) (dst : Z) (n : nat) (c : Z) : memory :=
  match n with
  | O => m
  | S n' => mem_fill (mset m dst c) (dst + 1) n' c
  end.

(** [memmove]'s loops: [while(n-- > 0) *d++ = *s++] and
    [while(n-- > 0) *--d = *--s]. *)
Fixpoint copy_up (m : memory) (d s : Z) (n : nat) : memory :=
  match n with
  | O => m
  | S n' => copy_up (mset m d (mget m s)) (d + 1) (s + 1) n'
  end.
Fixpoint copy_down (m : memory) (d s : Z) (n : nat) : memory :=
  match n with
  | O => m
  | S n' => copy_down (mset m (d - 1) (mget m (s - 1))) (d - 1) (s - 1) n'
  end.
Definition mem_move (m : memory) (dst src : Z) (n : nat) : memory :=
  if (src <? dst) && (dst <? src + Z.of_nat n)
  then copy_down m (dst + Z.of_nat n) (src + Z.of_nat n) n
  else copy_up m dst src n.

(** ** Single bytes *)

Lemma mget_range m a : 0 <= mget m a < 256.
Proof. apply u8_range. Qed.

Lemma mget_mset m a v b : mget (mset m a v) b = if decide (a = b) then u8 v else mget m b.
Proof.
  unfold mget, mset. rewrite lookup_insert. case_decide; simpl; [|done].
  apply u8_small, u8_range.
Qed.
Lemma mget_mset_eq m a v : mget (mset m a v) a = u8 v.
Proof. rewrite mget_mset. by rewrite decide_True. Qed.
Lemma mget_mset_ne m a v b : a <> b -> mget (mset m a v) b = mget m b.
Proof. intros. rewrite mget_mset. by rewrite decide_False. Qed.
Lemma u8_mget m a : u8 (mget m a) = mget m a.
Proof. apply u8_small, mget_range. Qed.

(** Memories equal at every address. *)
Definition mem_equiv (m m' : memory) : Prop := forall a, mget m a = mget m' a.
Infix "≡ₘ" := mem_equiv (at level 70).

#[export] Instance mem_equiv_equivalence : Equivalence mem_equiv.
Proof.
  split.
  - by intros ??.
  - by intros ????.
  - intros ??? H1 H2 a. by rewrite H1.
Qed.
#[export] Instance mget_proper : Proper (mem_equiv ==> eq ==> eq) mget.
Proof. intros m m' H a ? <-. apply H. Qed.
#[export] Instance mset_proper : Proper (mem_equiv ==> eq ==> eq ==> mem_equiv) mset.
Proof. intros m m' H a ? <- v ? <- b. rewrite !mget_mset. by rewrite H. Qed.

(** Agreement on an address range. *)
Definition agree_on (a : Z) (n : nat) (m m' : memory) : Prop :=
  forall b, a <= b < a + Z.of_nat n -> mget m b = mget m' b.

Lemma agree_on_tail a n m m' :
  agree_on a (S n) m m' -> mget m a = mget m' a /\ agree_on (a + 1) n m m'.
Proof. intros H. split; [apply H; lia|]. intros b ?. apply H. lia. Qed.

(** ** Integers *)

Lemma load_le_ext m m' a n : agree_on a n m m' -> load_le m a n = load_le m' a n.
Proof.
  revert a. induction n as [|n IH]; intros a H; [done|].
  apply agree_on_tail in H as [H1 H2]. simpl. rewrite H1. by rewrite (IH _ H2).
Qed.
#[export] Instance load_le_proper : Proper (mem_equiv ==> eq ==> eq ==> eq) load_le.
Proof. intros m m' H a ? <- n ? <-. apply load_le_ext. by intros ??. Qed.

Lemma load_le_range m a n : 0 <= load_le m a n < 256 ^ Z.of_nat n.
Proof.
  revert a. induction n as [|n IH]; intros a; [done|].
  rewrite Nat2Z.inj_succ, Z.pow_succ_r by lia. cbn [load_le].
  pose proof (mget_range m a). specialize (IH (a + 1)). lia.
Qed.
Lemma load64_range m a : 0 <= load64 m a < 2 ^ 64.
Proof. apply (load_le_range m a 8). Qed.

Lemma mget_store_le m a n v b :
  mget (store_le m a n v) b =
  if decide (a <= b < a + Z.of_nat n) then u8 (v / 256 ^ (b - a)) else mget m b.
Proof.
  revert m a v. induction n as [|n IH]; intros m a v; cbn [store_le].
  - by rewrite decide_False by lia.
  - rewrite IH. destruct (decide (a = b)) as [->|Hne].
    + rewrite decide_False, decide_True, mget_mset_eq by lia.
      rewrite Z.sub_diag. by rewrite Z.div_1_r.
    + case_decide; case_decide; try lia; [|by rewrite mget_mset_ne].
      rewrite Z.div_div by lia. do 2 f_equal.
      rewrite <- Z.pow_succ_r by lia. f_equal. lia.
Qed.
Lemma mget_store_le_ne m a n v b :
  ~ (a <= b < a + Z.of_nat n) -> mget (store_le m a n v) b = mget m b.
Proof. intros. rewrite mget_store_le. by rewrite decide_False. Qed.

Lemma load_store_le m a n v : load_le (store_le m a n v) a n = v mod 256 ^ Z.of_nat n.
Proof.
  revert m a v. induction n as [|n IH]; intros m a v; cbn [store_le load_le].
  - by rewrite Z.mod_1_r.
  - rewrite mget_store_le_ne, mget_mset_eq by lia. rewrite IH.
    rewrite Nat2Z.inj_succ, Z.pow_succ_r by lia.
    unfold u8. change (2 ^ 8) with 256.
    rewrite Z.rem_mul_r by lia. lia.
Qed.
Lemma load_store_le_ne m a n v b k :
  b + Z.of_nat k <= a \/ a + Z.of_nat n <= b ->
  load_le (store_le m a n v) b k = load_le m b k.
Proof. intros H. apply load_le_ext. intros c Hc. apply mget_store_le_ne. lia. Qed.

Lemma load_store64 m a v : load64 (store64 m a v) a = u64 v.
Proof. apply (load_store_le m a 8 v). Qed.
Lemma load_store64_ne m a v b :
  b + 8 <= a \/ a + 8 <= b -> load64 (store64 m a v) b = load64 m b.
Proof. intros. by apply load_store_le_ne. Qed.
Lemma mget_store64_ne m a v b : ~ (a <= b < a + 8) -> mget (store64 m a v) b = mget m b.
Proof. intros. by apply mget_store_le_ne. Qed.

(** ** Byte lists *)

Lemma length_load_bytes m a n : length (load_bytes m a n) = n.
Proof. revert a. induction n; intros; simpl; auto. Qed.

Lemma load_bytes_ext m m' a n : agree_on a n m m' -> load_bytes m a n = load_bytes m' a n.
Proof.
  revert a. induction n as [|n IH]; intros a H; [done|].
  apply agree_on_tail in H as [H1 H2]. simpl. rewrite H1. by rewrite (IH _ H2).
Qed.

Lemma load_bytes_app m a n k :
  load_bytes m a (n + k) = load_bytes m a n ++ load_bytes m (a + Z.of_nat n) k.
Proof.
  revert a. induction n as [|n IH]; intros a; simpl.
  - f_equal. lia.
  - rewrite IH. do 3 f_equal. lia.
Qed.

Lemma load_bytes_lookup m a n i :
  (i < n)%nat -> load_bytes m a n !! i = Some (mget m (a + Z.of_nat i)).
Proof.
  revert a i. induction n as [|n IH]; intros a i Hi; [lia|].
  destruct i as [|i]; simpl; [do 2 f_equal; lia|].
  rewrite IH by lia. do 2 f_equal. lia.
Qed.

Lemma mget_store_bytes m a bs b :
  mget (store_bytes m a bs) b =
  if decide (a <= b < a + Z.of_nat (length bs))
  then u8 (default 0 (bs !! Z.to_nat (b - a))) else mget m b.
Proof.
  revert m a. induction bs as [|v bs IH]; intros m a; cbn [store_bytes length].
  - by rewrite decide_False by lia.
  - rewrite IH. destruct (decide (a = b)) as [->|Hne].
    + rewrite decide_False, decide_True, mget_mset_eq by lia. by rewrite Z.sub_diag.
    + case_decide; case_decide; try lia; [|by rewrite mget_mset_ne].
      replace (Z.to_nat (b - a)) with (S (Z.to_nat (b - (a + 1)))) by lia. done.
Qed.

Lemma load_store_bytes m a bs :
  Forall (fun b => 0 <= b < 256) bs -> load_bytes (store_bytes m a bs) a (length bs) = bs.
Proof.
  intros Hb. apply list_eq. intros i. destruct (decide (i < length bs)%nat) as [Hi|Hi].
  - rewrite load_bytes_lookup by done. rewrite mget_store_bytes, decide_True by lia.
    replace (Z.to_nat (a + Z.of_nat i - a)) with i by lia.
    destruct (lookup_lt_is_Some_2 bs i Hi) as [v Hv]. rewrite Hv. simpl. f_equal.
    apply u8_small. by eapply Forall_lookup_1 in Hb.
  - rewrite !lookup_ge_None_2; [done|lia|]. rewrite length_load_bytes. lia.
Qed.

(** ** [memset] and [memmove] *)

Lemma mget_fill m d n c b :
  mget (mem_fill m d n c) b = if decide (d <= b < d + Z.of_nat n) then u8 c else mget m b.
Proof.
  revert m d. induction n as [|n IH]; intros m d; cbn [mem_fill].
  - by rewrite decide_False by lia.
  - rewrite IH, mget_mset. repeat case_decide; try lia; done.
Qed.

Lemma mget_copy_up m d s n b :
  d <= s \/ s + Z.of_nat n <= d ->
  mget (copy_up m d s n) b =
  if decide (d <= b < d + Z.of_nat n) then mget m (s + (b - d)) else mget m b.
Proof.
  revert m d s. induction n as [|n IH]; intros m d s H; cbn [copy_up].
  - by rewrite decide_False by lia.
  - rewrite IH by lia. rewrite !mget_mset.
    destruct (decide (d + 1 <= b < d + 1 + Z.of_nat n)) as [Hin|Hout].
    + rewrite (decide_True (P := d <= b < _)) by lia. rewrite decide_False by lia.
      f_equal. lia.
    + destruct (decide (d = b)) as [->|].
      * rewrite decide_True by lia. rewrite u8_mget. f_equal. lia.
      * by rewrite decide_False by lia.
Qed.

Lemma mget_copy_down m d s n b :
  s <= d \/ d <= s - Z.of_nat n ->
  mget (copy_down m d s n) b =
  if decide (d - Z.of_nat n <= b < d) then mget m (s + (b - d)) else mget m b.
Proof.
  revert m d s. induction n as [|n IH]; intros m d s H; cbn [copy_down].
  - by rewrite decide_False by lia.
  - rewrite IH by lia. rewrite !mget_mset.
    destruct (decide (d - 1 - Z.of_nat n <= b < d - 1)) as [Hin|Hout].
    + rewrite (decide_True (P := _ <= b < d)) by lia. rewrite decide_False by lia.
      f_equal. lia.
    + destruct (decide (d - 1 = b)) as [<-|].
      * rewrite decide_True by lia. rewrite u8_mget. f_equal. lia.
      * by rewrite decide_False by lia.
Qed.

(** Whatever the overlap, [memmove] leaves in the destination the bytes the
    source held before the call. *)
Lemma mget_move m d s n b :
  mget (mem_move m d s n) b =
  if decide (d <= b < d + Z.of_nat n) then mget m (s + (b - d)) else mget m b.
Proof.
  unfold mem_move. destruct ((s <? d) && (d <? s + Z.of_nat n)) eqn:E; zbool.
  - rewrite mget_copy_down by lia.
    destruct (decide (d <= b < d + Z.of_nat n)).
    + rewrite decide_True by lia. f_equal. lia.
    + by rewrite decide_False by lia.
  - apply mget_copy_up. apply andb_false_iff in E as [E|E]; zbool; lia.
Qed.

Create Rewrite HintDb mget.
#[export] Hint Rewrite mget_mset mget_store_le mget_store_bytes mget_fill mget_move : mget.

Lemma load_le_fill0 m a n k b :
  a <= b -> b + Z.of_nat k <= a + Z.of_nat n -> load_le (mem_fill m a n 0) b k = 0.
Proof.
  revert b. induction k as [|k IH]; intros b H1 H2; [done|]. cbn [load_le].
  rewrite IH by lia. rewrite mget_fill, decide_True by lia. done.
Qed.

Lemma load_bytes_move m d s n :
  load_bytes (mem_move m d s n) d n = load_bytes m s n.
Proof.
  apply list_eq. intros i. destruct (decide (i < n)%nat).
  - rewrite !load_bytes_lookup by done. f_equal. rewrite mget_move, decide_True by lia.
    f_equal. lia.
  - by rewrite !lookup_ge_None_2 by (rewrite length_load_bytes; lia).
Qed.

(** Symbolic execution never unrolls the byte loops. *)
#[global] Arguments load_le : simpl never.
#[global] Arguments store_le : simpl never.
#[global] Arguments load_bytes : simpl never.
#[global] Arguments store_bytes : simpl never.
#[global] Arguments mem_fill : simpl never.
#[global] Arguments mem_move : simpl never.
#[global] Opaque mem_fill mem_move load_le store_le.
