(* ===== verification/Machine.v ===== *)
(** * The machine state

    What the code below the process layer reads and writes: the harts with
    their per-CPU records ([struct cpu] of [kernel/proc.h] and the interrupt
    enable bit of [sstatus]), the spinlocks ([struct spinlock] of
    [kernel/spinlock.h]), the byte memory, and the two globals of
    [kernel/kalloc.c] ([kmem.freelist] and [refcnt.count]). *)

From S2P Require Import Prelude Riscv Memory.

(** The spinlocks of the kernel. *)
Inductive lockid : Type :=
| LkKmem | LkPid | LkWait | LkTicks | LkBcache | LkLog | LkItable | LkFtable
| LkCons | LkUart | LkPr | LkVdisk
| LkProc (i : nat)          (* proc[i].lock *)
| LkPipe (pi : Z)           (* pi->lock *)
| LkBuf (i : nat)           (* bcache.buf[i].lock.lk *)
| LkInode (i : nat).        (* itable.inode[i].lock.lk *)

#[export] Instance lockid_eq_dec : EqDecision lockid.
Proof. solve_decision. Defined.

Definition lockid_code (l : lockid) : nat * Z :=
  match l with
  | LkKmem => (0%nat, 0) | LkPid => (0%nat, 1) | LkWait => (0%nat, 2)
  | LkTicks => (0%nat, 3) | LkBcache => (0%nat, 4) | LkLog => (0%nat, 5)
  | LkItable => (0%nat, 6) | LkFtable => (0%nat, 7) | LkCons => (0%nat, 8)
  | LkUart => (0%nat, 9) | LkPr => (0%nat, 10) | LkVdisk => (0%nat, 11)
  | LkProc i => (1%nat, Z.of_nat i) | LkPipe pi => (2%nat, pi)
  | LkBuf i => (3%nat, Z.of_nat i) | LkInode i => (4%nat, Z.of_nat i)
  end.
Definition lockid_decode (c : nat * Z) : option lockid :=
  match c with
  | (0%nat, 0) => Some LkKmem | (0%nat, 1) => Some LkPid | (0%nat, 2) => Some LkWait
  | (0%nat, 3) => Some LkTicks | (0%nat, 4) => Some LkBcache | (0%nat, 5) => Some LkLog
  | (0%nat, 6) => Some LkItable | (0%nat, 7) => Some LkFtable | (0%nat, 8) => Some LkCons
  | (0%nat, 9) => Some LkUart | (0%nat, 10) => Some LkPr | (0%nat, 11) => Some LkVdisk
  | (1%nat, z) => Some (LkProc (Z.to_nat z)) | (2%nat, z) => Some (LkPipe z)
  | (3%nat, z) => Some (LkBuf (Z.to_nat z)) | (4%nat, z) => Some (LkInode (Z.to_nat z))
  | _ => None
  end.
#[export] Program Instance lockid_countable : Countable lockid :=
  inj_countable lockid_code lockid_decode _.
Next Obligation. intros []; simpl; rewrite ?Nat2Z.id; done. Qed.

(** [struct spinlock]: [lk_cpu] is the hart of [lk->cpu], [None] for 0. *)
Record spinlock := mk_spinlock { locked : bool; lk_cpu : option Z }.
(** [struct cpu]: [c_proc] is the index of [c->proc] in [proc[]]; [sie] is
    the hart's interrupt-enable bit in [sstatus]. *)
Record cpu := mk_cpu { c_proc : option nat; noff : Z; intena : bool; sie : bool }.

Definition unlocked : spinlock := mk_spinlock false None.
Definition held_by (h : Z) : spinlock := mk_spinlock true (Some h).
Definition cpu0 : cpu := mk_cpu None 0 false false.

Record machine := mk_machine {
  tp : Z;                            (* the hart running this code *)
  cpus : gmap Z cpu;                 (* cpus[NCPU] *)
  locks : gmap lockid spinlock;
  mem : memory;
  freelist : Z;                      (* kmem.freelist, 0 when empty *)
  count : gmap Z Z                   (* refcnt.count[PHYSTOP / PGSIZE] *)
}.

Definition set_cpus f (s : machine) :=
  mk_machine (tp s) (f (cpus s)) (locks s) (mem s) (freelist s) (count s).
Definition set_locks f (s : machine) :=
  mk_machine (tp s) (cpus s) (f (locks s)) (mem s) (freelist s) (count s).
Definition set_mem f (s : machine) :=
  mk_machine (tp s) (cpus s) (locks s) (f (mem s)) (freelist s) (count s).
Definition set_freelist x (s : machine) :=
  mk_machine (tp s) (cpus s) (locks s) (mem s) x (count s).
Definition set_count f (s : machine) :=
  mk_machine (tp s) (cpus s) (locks s) (mem s) (freelist s) (f (count s)).

Definition cpu_of (s : machine) : cpu := default cpu0 (cpus s !! tp s).
Definition upd_cpu (f : cpu -> cpu) (s : machine) : machine :=
  set_cpus (fun cs => <[tp s := f (cpu_of s)]> cs) s.

Lemma cpu_of_upd f s : cpu_of (upd_cpu f s) = f (cpu_of s).
Proof. unfold cpu_of, upd_cpu. simpl. by rewrite lookup_insert_eq. Qed.
Lemma upd_cpu_upd f g s : upd_cpu f (upd_cpu g s) = upd_cpu (fun c => f (g c)) s.
Proof.
  unfold upd_cpu at 1. rewrite cpu_of_upd. unfold upd_cpu, set_cpus; simpl.
  by rewrite insert_insert_eq.
Qed.

Lemma upd_cpu_ext f g s : f (cpu_of s) = g (cpu_of s) -> upd_cpu f s = upd_cpu g s.
Proof. intros H. unfold upd_cpu. by rewrite H. Qed.

(** ** Checked accesses

    The kernel runs on a direct map of RAM, [KERNBASE, PHYSTOP); an access
    outside it faults, and a model run that makes one is undefined. *)

Definition in_ram (a n : Z) : bool := (KERNBASE <=? a) && (a + n <=? PHYSTOP).

Definition ld64 (a : Z) : M machine Z :=
  fun s => if in_ram a 8 then Ret (load64 (mem s) a) s else Ub "load" s.
Definition st64 (a v : Z) : M machine unit :=
  fun s => if in_ram a 8 then Ret tt (set_mem (fun m => store64 m a v) s) else Ub "store" s.

(** [memset], [memmove] of [kernel/string.c] on the memory of the machine;
    with [n == 0] neither touches memory. *)
Definition memset (dst c n : Z) : M machine unit :=
  fun s => if (n =? 0) || in_ram dst n
           then Ret tt (set_mem (fun m => mem_fill m dst (Z.to_nat n) c) s)
           else Ub "memset" s.
Definition memmove (dst src n : Z) : M machine unit :=
  fun s => if (n =? 0) || (in_ram dst n && in_ram src n)
           then Ret tt (set_mem (fun m => mem_move m dst src (Z.to_nat n)) s)
           else Ub "memmove" s.

Lemma in_ram_true a n : KERNBASE <= a -> a + n <= PHYSTOP -> in_ram a n = true.
Proof. intros. unfold in_ram. apply andb_true_iff. lia. Qed.

Section access.
Context (Q : Z -> machine -> Prop) (R : unit -> machine -> Prop) (s : machine).

Lemma wp_ld64 a :
  KERNBASE <= a -> a + 8 <= PHYSTOP -> Q (load64 (mem s) a) s -> wp (ld64 a) Q s.
Proof. intros. unfold wp, ld64. by rewrite in_ram_true. Qed.
Lemma wp_st64 a v :
  KERNBASE <= a -> a + 8 <= PHYSTOP -> R tt (set_mem (fun m => store64 m a v) s) ->
  wp (st64 a v) R s.
Proof. intros. unfold wp, st64. by rewrite in_ram_true. Qed.
Lemma wp_memset d c n :
  KERNBASE <= d -> d + n <= PHYSTOP ->
  R tt (set_mem (fun m => mem_fill m d (Z.to_nat n) c) s) -> wp (memset d c n) R s.
Proof. intros. unfold wp, memset. rewrite in_ram_true by done. by rewrite orb_true_r. Qed.
Lemma wp_memmove d src n :
  KERNBASE <= d -> d + n <= PHYSTOP -> KERNBASE <= src -> src + n <= PHYSTOP ->
  R tt (set_mem (fun m => mem_move m d src (Z.to_nat n)) s) -> wp (memmove d src n) R s.
Proof.
  intros. unfold wp, memmove. rewrite !in_ram_true by done. by rewrite orb_true_r.
Qed.
End access.
