(* ===== verification/Spinlock.v ===== *)
(** * Spinlocks ([kernel/spinlock.c])

    [acquire] and [release] with the interrupt nesting of [push_off] and
    [pop_off], on one hart; and, below, the atomic steps of several harts
    that contend for one lock, with mutual exclusion as an invariant. *)

From S2P Require Import Prelude Riscv Memory Machine.

(** ** The operations *)

Definition cpuid : M machine Z := gets tp.
Definition mycpu : M machine cpu := gets cpu_of.
Definition set_mycpu (f : cpu -> cpu) : M machine unit := modify (upd_cpu f).

Definition with_sie b (c : cpu) := mk_cpu (c_proc c) (noff c) (intena c) b.
Definition with_intena b (c : cpu) := mk_cpu (c_proc c) (noff c) b (sie c).
Definition with_noff n (c : cpu) := mk_cpu (c_proc c) n (intena c) (sie c).
Definition with_proc p (c : cpu) := mk_cpu p (noff c) (intena c) (sie c).

Definition intr_get : M machine bool := gets (fun s => sie (cpu_of s)).
Definition intr_on : M machine unit := set_mycpu (with_sie true).
Definition intr_off : M machine unit := set_mycpu (with_sie false).

Definition push_off : M machine unit :=
  let! old := intr_get in
  do! intr_off in
  let! c := mycpu in
  do! when (noff c =? 0) (set_mycpu (with_intena old)) in
  set_mycpu (fun c => with_noff (noff c + 1) c).

Definition pop_off : M machine unit :=
  let! on := intr_get in
  if on then panic "pop_off - interruptible" else
  let! c := mycpu in
  if noff c <? 1 then panic "pop_off" else
  do! set_mycpu (fun c => with_noff (noff c - 1) c) in
  let! c := mycpu in
  when ((noff c =? 0) && intena c) intr_on.

(** An uninitialised static lock is all zeroes, that is, free. *)
Definition lock_of (s : machine) (lk : lockid) : spinlock := default unlocked (locks s !! lk).

Definition initlock (lk : lockid) : M machine unit :=
  modify (set_locks (<[lk := unlocked]>)).

Definition holding (lk : lockid) : M machine bool :=
  gets (fun s => locked (lock_of s lk) && bool_decide (lk_cpu (lock_of s lk) = Some (tp s))).

(** [__sync_lock_test_and_set(&lk->locked, 1) != 0] repeats until the lock is
    free: with no other hart running, a held lock is never freed. *)
Definition test_and_set (lk : lockid) : M machine unit := fun s =>
  if locked (lock_of s lk) then Spin s
  else Ret tt (set_locks (<[lk := mk_spinlock true (lk_cpu (lock_of s lk))]>) s).

(** [lk->cpu = c], and [__sync_lock_release(&lk->locked)]. *)
Definition set_lk_cpu (lk : lockid) (c : option Z) : M machine unit :=
  modify (fun s => set_locks (<[lk := mk_spinlock (locked (lock_of s lk)) c]>) s).
Definition lock_release (lk : lockid) : M machine unit :=
  modify (fun s => set_locks (<[lk := mk_spinlock false (lk_cpu (lock_of s lk))]>) s).

Definition acquire (lk : lockid) : M machine unit :=
  do! push_off in
  let! h := holding lk in
  if h then panic "acquire" else
  do! test_and_set lk in
  let! id := cpuid in
  set_lk_cpu lk (Some id).

Definition release (lk : lockid) : M machine unit :=
  let! h := holding lk in
  if negb h then panic "release" else
  do! set_lk_cpu lk None in
  do! lock_release lk in
  pop_off.

(** ** What they do *)

(** Interrupts are off whenever a [push_off] is outstanding. *)
Definition cpu_ok (s : machine) : Prop :=
  0 <= noff (cpu_of s) /\ (0 < noff (cpu_of s) -> sie (cpu_of s) = false).

Definition free (s : machine) (lk : lockid) : Prop := locks s !! lk = Some unlocked.
Definition held (s : machine) (lk : lockid) : Prop := locks s !! lk = Some (held_by (tp s)).

Definition pushed_cpu (c : cpu) : cpu :=
  mk_cpu (c_proc c) (noff c + 1) (if noff c =? 0 then sie c else intena c) false.
Definition popped_cpu (c : cpu) : cpu :=
  mk_cpu (c_proc c) (noff c - 1) (intena c) ((noff c =? 1) && intena c).
(** The trace a matched pair leaves: [intena] records the interrupt state. *)
Definition touch_cpu (c : cpu) : cpu :=
  mk_cpu (c_proc c) (noff c) (if noff c =? 0 then sie c else intena c) (sie c).
Definition touch : machine -> machine := upd_cpu touch_cpu.

Definition acquired (lk : lockid) (s : machine) : machine :=
  set_locks (<[lk := held_by (tp s)]>) (upd_cpu pushed_cpu s).

Lemma push_off_eq s : push_off s = Ret tt (upd_cpu pushed_cpu s).
Proof.
  unfold push_off, intr_get, intr_off, mycpu, set_mycpu, bind, gets, modify; simpl.
  rewrite !cpu_of_upd. simpl.
  destruct (noff (cpu_of s) =? 0) eqn:E; simpl; rewrite !upd_cpu_upd; f_equal;
    apply upd_cpu_ext; unfold pushed_cpu; by rewrite E.
Qed.

Lemma pop_off_eq s :
  sie (cpu_of s) = false -> 1 <= noff (cpu_of s) -> pop_off s = Ret tt (upd_cpu popped_cpu s).
Proof.
  intros Hs Hn. unfold pop_off, intr_get, mycpu, set_mycpu, bind, gets, modify; simpl.
  rewrite Hs. simpl. destruct (Z.ltb_spec (noff (cpu_of s)) 1); [lia|]. simpl.
  rewrite !cpu_of_upd. simpl. unfold when, intr_on, set_mycpu, modify.
  replace (noff (cpu_of s) - 1 =? 0) with (noff (cpu_of s) =? 1) by (repeat zcase; done).
  destruct ((noff (cpu_of s) =? 1) && intena (cpu_of s)) eqn:E; simpl;
    rewrite ?upd_cpu_upd; unfold ret; f_equal; apply upd_cpu_ext;
    unfold popped_cpu, with_noff, with_sie; simpl; by rewrite E, ?Hs.
Qed.

Lemma acquire_eq lk s : free s lk -> acquire lk s = Ret tt (acquired lk s).
Proof.
  intros Hf. unfold acquire, bind. rewrite push_off_eq. cbn [rbind].
  unfold holding, gets, test_and_set, lock_of, cpuid, modify. unfold free in Hf. simpl.
  rewrite Hf. simpl. rewrite Hf. simpl. unfold set_lk_cpu, modify, lock_of. simpl.
  rewrite lookup_insert_eq. f_equal. unfold set_locks, acquired, upd_cpu, set_cpus. simpl.
  by rewrite insert_insert_eq.
Qed.

(** Releasing a lock taken from [s] after work that left harts and locks
    alone gives back the harts and locks of [s], up to [touch]. *)
Lemma release_eq lk s s' :
  free s lk -> cpu_ok s ->
  tp s' = tp s -> cpus s' = cpus (acquired lk s) -> locks s' = locks (acquired lk s) ->
  release lk s' = Ret tt (set_cpus (fun _ => cpus (touch s)) (set_locks (fun _ => locks s) s')).
Proof.
  intros Hf [Hn Hs] Htp Hc Hl.
  assert (Hlk : lock_of s' lk = held_by (tp s)).
  { unfold lock_of. rewrite Hl. unfold acquired. simpl. by rewrite lookup_insert_eq. }
  unfold release, holding, bind, gets. rewrite Hlk. simpl. rewrite Htp.
  rewrite bool_decide_eq_true_2 by done.
  unfold set_lk_cpu, lock_release, modify. cbn [negb]. cbv beta. rewrite Hlk. unfold lock_of. simpl.
  rewrite lookup_insert_eq. simpl.
  assert (Hcpu : cpu_of s' = pushed_cpu (cpu_of s)).
  { unfold cpu_of. rewrite Htp, Hc. unfold acquired. simpl.
    by rewrite lookup_insert_eq. }
  rewrite pop_off_eq.
  - f_equal. unfold upd_cpu, set_cpus, set_locks. simpl.
    unfold cpu_of at 1. simpl. change (default cpu0 (cpus s' !! tp s')) with (cpu_of s').
    rewrite Hcpu, Htp, Hc, Hl. unfold acquired. simpl. f_equal.
    + rewrite insert_insert_eq. f_equal. unfold touch_cpu, popped_cpu, pushed_cpu. simpl.
      f_equal; [lia|]. repeat zcase; [done|]. symmetry. rewrite Hs by lia. done.
    + rewrite !insert_insert_eq. apply insert_id. done.
  - unfold cpu_of. simpl. change (default cpu0 (cpus s' !! tp s')) with (cpu_of s').
    by rewrite Hcpu.
  - unfold cpu_of. simpl. change (default cpu0 (cpus s' !! tp s')) with (cpu_of s').
    rewrite Hcpu. simpl. lia.
Qed.

Lemma cpu_ok_touch s : cpu_ok s -> cpu_ok (touch s).
Proof. unfold cpu_ok, touch. by rewrite cpu_of_upd. Qed.
Lemma touch_cpu_idemp c : touch_cpu (touch_cpu c) = touch_cpu c.
Proof. unfold touch_cpu. simpl. by zcase. Qed.
Lemma touch_idemp s : touch (touch s) = touch s.
Proof. unfold touch. rewrite upd_cpu_upd. unfold upd_cpu. by rewrite touch_cpu_idemp. Qed.

(** Reduce the fields of an updated machine before comparing them: comparing
    the machines themselves would compare their memories. *)
Ltac mcbn :=
  cbn [tp cpus locks mem freelist count set_cpus set_locks set_mem set_freelist set_count
       upd_cpu acquired touch].
Ltac msubst := repeat match goal with x := _ : machine |- _ => subst x end.
Ltac mrefl := msubst; mcbn; reflexivity.
(** An equation between machines, field by field. *)
Ltac meq :=
  msubst; unfold set_cpus, set_locks, set_mem, set_freelist, set_count, acquired, touch, upd_cpu;
  mcbn; f_equal; reflexivity.

Section critical_section.
Context (lk : lockid) (s : machine).

Lemma wp_acquire Q : free s lk -> Q tt (acquired lk s) -> wp (acquire lk) Q s.
Proof. intros. eapply wp_eq; [by apply acquire_eq|done]. Qed.
Lemma wp_release s' Q :
  free s lk -> cpu_ok s ->
  tp s' = tp s -> cpus s' = cpus (acquired lk s) -> locks s' = locks (acquired lk s) ->
  Q tt (set_cpus (fun _ => cpus (touch s)) (set_locks (fun _ => locks s) s')) ->
  wp (release lk) Q s'.
Proof. intros. eapply wp_eq; [by apply release_eq|done]. Qed.

Lemma acquire_held : held s lk -> acquire lk s = Panic "acquire" (upd_cpu pushed_cpu s).
Proof.
  unfold held. intros Hh. unfold acquire, bind. rewrite push_off_eq. cbn [rbind].
  unfold holding, gets, lock_of. simpl. rewrite Hh. simpl.
  by rewrite bool_decide_eq_true_2.
Qed.
Lemma release_not_held : lock_of s lk <> held_by (tp s) -> release lk s = Panic "release" s.
Proof.
  intros Hn. unfold release, holding, bind, gets. simpl.
  destruct (lock_of s lk) as [[] c]; simpl; [|done].
  case_bool_decide as Hc; [|done]. destruct Hn. by rewrite Hc.
Qed.
End critical_section.

Ltac wp_acquire := apply wp_acquire; [done|].
(** [wp_release lk s]: leave the critical section entered in state [s]. *)
Ltac wp_release lk s := apply (wp_release lk s); [try done|try done|mrefl|mrefl|mrefl|].

(** ** Several harts

    The machine is shared; a step runs one of the atomic actions of [acquire]
    or [release] on behalf of a hart [h] (with [tp] holding [h]), and [pc]
    says how far each hart is. *)

Module Smp.

Inductive pc : Type := Out | Want | Got | In | Leaving.
#[export] Instance pc_eq_dec : EqDecision pc.
Proof. solve_decision. Defined.

Definition as_hart (h : Z) (s : machine) : machine :=
  mk_machine h (cpus s) (locks s) (mem s) (freelist s) (count s).

Record sys := mk_sys { shared : machine; pcs : gmap Z pc }.
Definition pc_of (c : sys) (h : Z) : pc := default Out (pcs c !! h).
Definition goto (h : Z) (p : pc) (s : machine) (c : sys) : sys := mk_sys s (<[h := p]> (pcs c)).

Inductive step (lk : lockid) : sys -> sys -> Prop :=
| step_call c h s1 s2 :
    pc_of c h = Out ->
    push_off (as_hart h (shared c)) = Ret tt s1 -> holding lk s1 = Ret false s2 ->
    step lk c (goto h Want s2 c)
| step_tas c h s1 :
    pc_of c h = Want -> test_and_set lk (as_hart h (shared c)) = Ret tt s1 ->
    step lk c (goto h Got s1 c)
| step_own c h s1 :
    pc_of c h = Got -> set_lk_cpu lk (Some h) (as_hart h (shared c)) = Ret tt s1 ->
    step lk c (goto h In s1 c)
| step_work c h s1 :
    pc_of c h = In -> locks s1 !! lk = locks (shared c) !! lk ->
    step lk c (goto h In s1 c)
| step_disown c h s1 s2 :
    pc_of c h = In -> holding lk (as_hart h (shared c)) = Ret true s1 ->
    set_lk_cpu lk None s1 = Ret tt s2 -> step lk c (goto h Leaving s2 c)
| step_free c h s1 s2 :
    pc_of c h = Leaving -> lock_release lk (as_hart h (shared c)) = Ret tt s1 ->
    pop_off s1 = Ret tt s2 -> step lk c (goto h Out s2 c).

Definition initial (lk : lockid) (c : sys) : Prop := free (shared c) lk /\ pcs c = ∅.

(** The hart that owns the lock word, if any. *)
Definition owns (p : pc) : bool :=
  match p with Got | In | Leaving => true | Out | Want => false end.
Definition owner (c : sys) (h : Z) : Prop := owns (pc_of c h) = true.

Record inv (lk : lockid) (c : sys) : Prop := mk_inv {
  inv_locked h : owner c h -> locked (lock_of (shared c) lk) = true;
  inv_one h h' : owner c h -> owner c h' -> h = h';
  inv_cpu h : pc_of c h = In <-> lk_cpu (lock_of (shared c) lk) = Some h
}.

Lemma pc_of_goto c h p s h' :
  pc_of (goto h p s c) h' = if decide (h = h') then p else pc_of c h'.
Proof. unfold pc_of, goto. simpl. rewrite lookup_insert. by case_decide. Qed.

Lemma lock_of_set lk l s : lock_of (set_locks (<[lk := l]>) s) lk = l.
Proof. unfold lock_of. simpl. by rewrite lookup_insert_eq. Qed.

Lemma pop_off_locks s s' u : pop_off s = Ret u s' -> locks s' = locks s.
Proof.
  unfold pop_off, bind, intr_get, mycpu, set_mycpu, gets, modify. simpl.
  destruct (sie (cpu_of s)); [done|]. destruct (noff (cpu_of s) <? 1); [done|]. simpl.
  unfold when, intr_on, set_mycpu, modify. case_match; intros [=]; by subst.
Qed.

Lemma owner_goto c h p s h' :
  owner (goto h p s c) h' <-> if decide (h = h') then owns p = true else owner c h'.
Proof. unfold owner. rewrite pc_of_goto. by case_decide. Qed.

(** Moving a hart between program counters of the same kind, with the lock
    word unchanged. *)
Lemma inv_goto_same lk c h p s :
  inv lk c -> owns p = owns (pc_of c h) -> (p = In <-> pc_of c h = In) ->
  lock_of s lk = lock_of (shared c) lk -> inv lk (goto h p s c).
Proof.
  intros [Hl H1 Hc] Ho Hp EL.
  assert (Hown : forall h', owner (goto h p s c) h' <-> owner c h').
  { intros h'. rewrite owner_goto. unfold owner. case_decide; subst; [|done]. by rewrite Ho. }
  split; cbn [shared goto]; rewrite ?EL.
  - intros h'. rewrite Hown. apply Hl.
  - intros h' h''. rewrite !Hown. apply H1.
  - intros h'. rewrite pc_of_goto. case_decide; subst; [|done]. rewrite Hp. apply Hc.
Qed.

(** A hart takes the free lock word. *)
Lemma inv_goto_got lk c h s :
  inv lk c -> pc_of c h = Want -> locked (lock_of (shared c) lk) = false ->
  lock_of s lk = mk_spinlock true (lk_cpu (lock_of (shared c) lk)) -> inv lk (goto h Got s c).
Proof.
  intros [Hl H1 Hc] Hp EL Es.
  assert (Hno : forall h', ~ owner c h') by (intros h' Ho; rewrite (Hl h' Ho) in EL; done).
  split; cbn [shared goto]; rewrite ?Es; simpl.
  - done.
  - intros h' h''. rewrite !owner_goto. repeat case_decide; subst; try done; intros; exfalso; eapply Hno; eassumption.
  - intros h'. rewrite pc_of_goto, <- Hc. case_decide; subst; [|done]. by rewrite Hp.
Qed.

(** The owner moves on, recording [c'] in [lk->cpu]. *)
Lemma inv_goto_owner lk c h p s o :
  inv lk c -> owner c h -> owns p = true -> o = (if decide (p = In) then Some h else None) ->
  lock_of s lk = mk_spinlock (locked (lock_of (shared c) lk)) o -> inv lk (goto h p s c).
Proof.
  intros [Hl H1 Hc] Ho Hp -> Es. split; cbn [shared goto]; rewrite ?Es; simpl.
  - intros _ _. by apply (Hl h).
  - intros h' h''. rewrite !owner_goto. repeat case_decide; subst; auto.
  - intros h'. rewrite pc_of_goto. destruct (decide (h = h')) as [<-|Hne].
    + case_decide; subst; done.
    + split.
      * intros Hin. destruct Hne. apply H1; [done|]. unfold owner. by rewrite Hin.
      * case_decide; congruence.
Qed.

(** The owner leaves. *)
Lemma inv_goto_out lk c h s :
  inv lk c -> pc_of c h = Leaving ->
  lock_of s lk = mk_spinlock false (lk_cpu (lock_of (shared c) lk)) -> inv lk (goto h Out s c).
Proof.
  intros [Hl H1 Hc] Hp Es.
  assert (Hno : forall h', h <> h' -> ~ owner c h').
  { intros h' Hne Ho. apply Hne, H1; [|done]. unfold owner. by rewrite Hp. }
  split; cbn [shared goto]; rewrite ?Es; simpl.
  - intros h'. rewrite owner_goto. case_decide; [done|]. intros. by destruct (Hno h').
  - intros h' h''. rewrite !owner_goto. repeat case_decide; subst; try done; intros; exfalso; eapply Hno; eassumption.
  - intros h'. rewrite pc_of_goto, <- Hc. case_decide; subst; [|done]. by rewrite Hp.
Qed.

Lemma inv_step lk c c' : inv lk c -> step lk c c' -> inv lk c'.
Proof.
  intros Hi Hs.
  destruct Hs as [c h s1 s2 Hp E1 E2|c h s1 Hp E|c h s1 Hp E|c h s1 Hp E|c h s1 s2 Hp E1 E2|c h s1 s2 Hp E1 E2].
  - rewrite push_off_eq in E1. injection E1 as <-. unfold holding, gets in E2.
    injection E2 as _ <-. apply inv_goto_same; rewrite ?Hp; done.
  - unfold test_and_set in E. destruct (locked _) eqn:EL in E; [done|]. injection E as <-.
    apply inv_goto_got; auto. by rewrite lock_of_set.
  - unfold set_lk_cpu, modify in E. injection E as <-.
    eapply inv_goto_owner; [done| |done|done|by rewrite lock_of_set]. unfold owner. by rewrite Hp.
  - apply inv_goto_same; rewrite ?Hp; [done..|]. unfold lock_of. by rewrite E.
  - unfold holding, gets in E1. injection E1 as _ <-. unfold set_lk_cpu, modify in E2. injection E2 as <-.
    eapply inv_goto_owner; [done| |done|done|by rewrite lock_of_set]. unfold owner. by rewrite Hp.
  - unfold lock_release, modify in E1. injection E1 as <-. apply pop_off_locks in E2.
    apply inv_goto_out; [done|done|]. unfold lock_of. rewrite E2. simpl. by rewrite lookup_insert_eq.
Qed.

Lemma inv_reachable lk c c' : initial lk c -> rtc (step lk) c c' -> inv lk c'.
Proof.
  intros [Hf Hp] Hr.
  assert (Hi : inv lk c).
  { assert (Ho : forall h, pc_of c h = Out) by (intros h; unfold pc_of; by rewrite Hp).
    unfold free in Hf. split; unfold owner, lock_of; rewrite ?Hf; simpl.
    - intros h. by rewrite Ho.
    - intros h h'. by rewrite Ho.
    - intros h. by rewrite Ho. }
  clear Hf Hp. induction Hr; eauto using inv_step.
Qed.

End Smp.

(** ** Up to the trace of matched [push_off] and [pop_off]

    Same hart, same locks, and the same per-CPU records once [intena] is
    forgotten where it means nothing. *)

Definition hart_eq (s s' : machine) : Prop :=
  tp s' = tp s /\ locks s' = locks s /\ cpus (touch s') = cpus (touch s).

#[export] Instance hart_eq_equivalence : Equivalence hart_eq.
Proof.
  split.
  - by intros ?.
  - intros ?? (?&?&?); done.
  - intros ??? (?&?&?) (?&?&?). split_and!; congruence.
Qed.

Lemma hart_eq_touch s : hart_eq s (touch s).
Proof. split_and!; [done..|]. by rewrite touch_idemp. Qed.

Lemma hart_eq_cpu s s' : hart_eq s s' -> touch_cpu (cpu_of s') = touch_cpu (cpu_of s).
Proof.
  intros (Ht & _ & Hc). apply (f_equal (fun m => m !! tp s)) in Hc.
  unfold touch, upd_cpu in Hc. simpl in Hc. rewrite Ht, !lookup_insert_eq in Hc. congruence.
Qed.

(** [ready s lk]: this hart can take [lk]. *)
Definition ready (s : machine) (lk : lockid) : Prop := free s lk /\ cpu_ok s.

Lemma ready_hart_eq s s' lk : hart_eq s s' -> ready s lk -> ready s' lk.
Proof.
  intros H [Hf [Hn Hs]]. pose proof (hart_eq_cpu _ _ H) as Hc. destruct H as (Ht & Hl & _).
  unfold ready, free, cpu_ok. rewrite Hl. split; [done|].
  unfold touch_cpu in Hc. injection Hc as H1 H2 H3 H4. by rewrite H2, H4.
Qed.
#[export] Instance ready_proper : Proper (hart_eq ==> eq ==> iff) ready.
Proof. intros s s' H lk ? <-. split; apply ready_hart_eq; [done|by symmetry]. Qed.

(** ** Properties *)


Fixpoint times (n : nat) (m : M machine unit) : M machine unit :=
  match n with O => ret tt | S n' => do! m in times n' m end.

Lemma push_off_times n s :
  exists s', times n push_off s = Ret tt s' /\ tp s' = tp s /\ locks s' = locks s /\
    noff (cpu_of s') = noff (cpu_of s) + Z.of_nat n /\ c_proc (cpu_of s') = c_proc (cpu_of s) /\
    (0 <= noff (cpu_of s) -> (0 < n)%nat -> sie (cpu_of s') = false /\
       intena (cpu_of s') = intena (touch_cpu (cpu_of s))) /\
    (n = 0%nat -> s' = s) /\ (forall h, h <> tp s -> cpus s' !! h = cpus s !! h).
Proof.
  revert s. induction n as [|n IH]; intros s; simpl.
  - exists s. split_and!; try done; lia.
  - unfold bind. rewrite push_off_eq. simpl. destruct (IH (upd_cpu pushed_cpu s))
      as (s' & E & Ht & Hl & Hn & Hp & Hi & H0 & Hcp). exists s'. rewrite cpu_of_upd in *. simpl in *.
    split_and!; try done; [lia| |].
    + intros Hpos _. destruct n as [|n].
      * rewrite (H0 eq_refl), cpu_of_upd. done.
      * destruct Hi as [-> ->]; [lia|lia|]. split; [done|]. destruct (Z.eqb_spec (noff (cpu_of s) + 1) 0); [lia|done].
    + intros h Hh. rewrite Hcp by done. by rewrite lookup_insert_ne.
Qed.

Lemma pop_off_times n s :
  (0 < n)%nat -> Z.of_nat n <= noff (cpu_of s) -> sie (cpu_of s) = false ->
  exists s', times n pop_off s = Ret tt s' /\ tp s' = tp s /\ locks s' = locks s /\
    cpu_of s' = mk_cpu (c_proc (cpu_of s)) (noff (cpu_of s) - Z.of_nat n) (intena (cpu_of s))
                  ((noff (cpu_of s) =? Z.of_nat n) && intena (cpu_of s)) /\
    (forall h, h <> tp s -> cpus s' !! h = cpus s !! h).
Proof.
  revert s. induction n as [|n IH]; intros s Hn Hle Hs; [lia|]. cbn [times]. unfold bind.
  rewrite pop_off_eq by (done || lia). cbn [rbind]. destruct n as [|n].
  - eexists. split; [done|]. split_and!; try done.
    + rewrite cpu_of_upd. done.
    + intros h Hh. simpl. by rewrite lookup_insert_ne.
  - destruct (IH (upd_cpu popped_cpu s)) as (s' & E & Ht & Hl & Hc & Hcp).
    + lia.
    + rewrite cpu_of_upd. simpl. lia.
    + rewrite cpu_of_upd. simpl. destruct (Z.eqb_spec (noff (cpu_of s)) 1); [lia|done].
    + exists s'. split; [exact E|]. rewrite cpu_of_upd in Hc. split_and!; try done.
      * rewrite Hc. unfold popped_cpu. simpl. f_equal; [lia|]. f_equal. repeat zcase; done.
      * intros h Hh. rewrite Hcp by done. simpl. by rewrite lookup_insert_ne.
Qed.

(** Interrupts stay off from the first of [n] nested [push_off]s until
    the last of the matching [pop_off]s, which puts the interrupt state and
    the nesting depth back to what they were, leaving every other hart's
    record and every lock alone. *)
Theorem push_pop_off_nest n s :
  cpu_ok s -> (0 < n)%nat ->
  exists s1 s2, times n push_off s = Ret tt s1 /\ sie (cpu_of s1) = false /\
    times n pop_off s1 = Ret tt s2 /\ hart_eq s s2 /\
    sie (cpu_of s2) = sie (cpu_of s) /\ noff (cpu_of s2) = noff (cpu_of s).
Proof.
  intros [Hn Hs] Hpos. destruct (push_off_times n s) as (s1 & E1 & Ht1 & Hl1 & Hn1 & Hp1 & Hi1 & _ & Hc1).
  destruct (Hi1 Hn Hpos) as [Hsie Hin].
  destruct (pop_off_times n s1) as (s2 & E2 & Ht2 & Hl2 & Hc2 & Hcp2); [done|lia|done|].
  assert (Hcpu : cpu_of s2 = touch_cpu (cpu_of s)).
  { rewrite Hc2, Hp1, Hn1, Hin. unfold touch_cpu. simpl. f_equal; [lia|].
    repeat zcase; try done. by rewrite Hs by lia. }
  exists s1, s2. split_and!; try done.
  - split_and!; [congruence|congruence|]. apply map_eq. intros h. unfold touch, upd_cpu. simpl.
    rewrite Hcpu, Ht2, Ht1, touch_cpu_idemp. destruct (decide (h = tp s)) as [->|Hne].
    + by rewrite !lookup_insert_eq.
    + rewrite !lookup_insert_ne by done. rewrite Hcp2 by congruence. by rewrite Hc1.
  - by rewrite Hcpu.
  - by rewrite Hcpu.
Qed.

Module SpinlockSample.
(** Two harts; hart 1 runs [acquire] while hart 0 has not called it. *)
Definition s0 : machine := mk_machine 0 {[0 := mk_cpu None 0 false true; 1 := mk_cpu None 0 false true]}
  {[LkKmem := unlocked]} ∅ 0 ∅.
Definition c0 : Smp.sys := Smp.mk_sys s0 ∅.
Definition got (m : M machine unit) (s : machine) : machine := match m s with Ret _ s' => s' | _ => s end.
Definition c1 : Smp.sys := Smp.goto 1 Smp.Want (got push_off (Smp.as_hart 1 s0)) c0.
Definition c2 : Smp.sys := Smp.goto 1 Smp.Got (got (test_and_set LkKmem) (Smp.as_hart 1 (Smp.shared c1))) c1.
Definition c3 : Smp.sys := Smp.goto 1 Smp.In (got (set_lk_cpu LkKmem (Some 1)) (Smp.as_hart 1 (Smp.shared c2))) c2.

Lemma c0_c3 : rtc (Smp.step LkKmem) c0 c3.
Proof.
  apply (rtc_l _ c0 c1 c3).
  { eapply Smp.step_call; [reflexivity|vm_compute; reflexivity|vm_compute; reflexivity]. }
  apply (rtc_l _ c1 c2 c3); [apply Smp.step_tas; [reflexivity|vm_compute; reflexivity]|].
  apply (rtc_l _ c2 c3 c3); [apply Smp.step_own; [reflexivity|vm_compute; reflexivity]|reflexivity].
Defined.


Lemma push_pop_off_nest_witness :
  exists s1 s2, times 3 push_off s0 = Ret tt s1 /\ sie (cpu_of s1) = false /\
    times 3 pop_off s1 = Ret tt s2 /\ hart_eq s0 s2 /\
    sie (cpu_of s2) = sie (cpu_of s0) /\ noff (cpu_of s2) = noff (cpu_of s0).
Proof. apply (push_pop_off_nest 3 s0); [vm_compute; split; [discriminate|done]|lia]. Defined.
End SpinlockSample.
