(* ===== verification/Kalloc.v ===== *)
(** * The physical page allocator ([kernel/kalloc.c])

    [kmem.freelist] is a list threaded through the free pages themselves
    (the first eight bytes of a free page point to the next one);
    [refcnt.count] counts the references to each page, which copy-on-write
    [fork] shares. *)

From S2P Require Import Prelude Riscv Memory Machine Spinlock.

Section kalloc.
Context {KI : KernelImage}.

(** ** The code *)

(** [refcnt.count[pn]], an [int] array of [PHYSTOP / PGSIZE] entries. *)
Definition count_ix (pn : Z) : bool := (0 <=? pn) && (pn <? PHYSTOP / PGSIZE).
Definition rd_count (pn : Z) : M machine Z := fun s =>
  if count_ix pn then Ret (default 0 (count s !! pn)) s else Ub "refcnt.count" s.
Definition wr_count (pn v : Z) : M machine unit := fun s =>
  if count_ix pn then Ret tt (set_count (<[pn := s32 v]>) s) else Ub "refcnt.count" s.

(** [int pn = (uint64)pa / PGSIZE] *)
Definition page_no (pa : Z) : Z := s32 (pa / PGSIZE).

Definition krefincr (pa : Z) : M machine unit :=
  do! acquire LkKmem in
  let pn := page_no pa in
  if PHYSTOP <? pa then panic "Physical Address limit exceeded" else
  let! c := rd_count pn in
  do! wr_count pn (c + 1) in
  release LkKmem.

Definition krefdecr (pa : Z) : M machine unit :=
  do! acquire LkKmem in
  let pn := page_no pa in
  if PHYSTOP <? pa then panic "Physical Address limit exceeded" else
  let! c := rd_count pn in
  do! wr_count pn (c - 1) in
  release LkKmem.

Definition kfree (pa : Z) : M machine unit :=
  if negb (pa mod PGSIZE =? 0) || (pa <? kend) || (PHYSTOP <=? pa) then panic "kfree" else
  do! acquire LkKmem in
  let pn := page_no pa in
  let! c := rd_count pn in
  if c <? 1 then do! release LkKmem in panic "kfree_decr" else
  do! wr_count pn (c - 1) in
  let! c := rd_count pn in
  if 0 <? c then release LkKmem else
  do! release LkKmem in
  (* fill with junk to catch dangling refs *)
  do! memset pa 1 PGSIZE in
  do! acquire LkKmem in
  let! next := gets freelist in
  do! st64 pa next in
  do! modify (set_freelist pa) in
  release LkKmem.

Definition kalloc : M machine Z :=
  do! acquire LkKmem in
  let! r := gets freelist in
  let! ok :=
    (if negb (r =? 0) then
       let pn := page_no r in
       let! c := rd_count pn in
       if 0 <? c then ret false else
       do! wr_count pn 1 in
       let! next := ld64 r in
       do! modify (set_freelist next) in
       ret true
     else ret true) in
  do! release LkKmem in
  if negb ok then ret 0 else
  do! when (negb (r =? 0)) (memset r 5 PGSIZE) in
  ret r.

Definition freerange (pa_start pa_end : Z) : M machine unit :=
  while (fun p : Z =>
    if p + PGSIZE <=? pa_end then
      do! wr_count (page_no p) 1 in
      do! kfree p in
      ret (inl (p + PGSIZE))
    else ret (inr tt)) (PGROUNDUP pa_start).

Definition kinit : M machine unit :=
  do! initlock LkKmem in
  freerange kend PHYSTOP.

(** ** Pages *)

Definition kpage (p : Z) : Prop := page_aligned p /\ kend <= p < PHYSTOP.
Definition in_page (p a : Z) : Prop := p <= a < p + PGSIZE.
(** The reference count of the page at [p]. *)
Definition refs (s : machine) (p : Z) : Z := default 0 (count s !! (p / PGSIZE)).

Lemma kpage_bounds p : kpage p -> KERNBASE <= p /\ p + PGSIZE <= PHYSTOP /\ p <> 0.
Proof.
  intros [Ha Hb]. pose proof kend_range. unfold page_aligned in Ha.
  unfold PHYSTOP, KERNBASE, PGSIZE in *. dlia.
Qed.
Lemma kpage_no p : kpage p -> page_no p = p / PGSIZE /\ count_ix (p / PGSIZE) = true.
Proof.
  intros Hp. pose proof (kpage_bounds p Hp) as (?&?&?).
  assert (0 <= p / PGSIZE < PHYSTOP / PGSIZE).
  { unfold PHYSTOP, KERNBASE, PGSIZE in *. dlia. }
  unfold page_no, count_ix. split.
  - apply s32_small. unfold PHYSTOP, KERNBASE, PGSIZE in *. dlia.
  - apply andb_true_iff. lia.
Qed.
Lemma kpage_no_inj p q : kpage p -> kpage q -> p / PGSIZE = q / PGSIZE -> p = q.
Proof.
  intros [Hp _] [Hq _] H. unfold page_aligned in *.
  rewrite (Z.div_mod p PGSIZE), (Z.div_mod q PGSIZE) by done. lia.
Qed.
Lemma kpage_disj p q a : kpage p -> kpage q -> in_page p a -> in_page q a -> p = q.
Proof.
  unfold in_page. intros Hp Hq Hap Haq. apply kpage_no_inj; [done..|].
  destruct Hp as [Hp _], Hq as [Hq _]. unfold page_aligned, PGSIZE in *. dlia.
Qed.

(** ** The free list *)

Fixpoint freelist_at (m : memory) (r : Z) (l : list Z) : Prop :=
  match l with
  | [] => r = 0
  | p :: l' => r = p /\ freelist_at m (load64 m p) l'
  end.

(** The allocator's invariant, with the free pages in list order: each is a
    page of the allocator's range, none occurs twice, and none is referenced. *)
Record kmem_ok (s : machine) (l : list Z) : Prop := mk_kmem_ok {
  ko_list : freelist_at (mem s) (freelist s) l;
  ko_nodup : NoDup l;
  ko_pages : Forall kpage l;
  ko_unref : Forall (fun p => refs s p = 0) l
}.

Lemma freelist_at_ext m m' r l :
  (forall p, p ∈ l -> load64 m p = load64 m' p) -> freelist_at m r l -> freelist_at m' r l.
Proof.
  revert r. induction l as [|p l IH]; intros r H; simpl; [done|].
  intros [-> Hl]. split; [done|]. rewrite <- H by set_solver.
  apply IH; [|done]. intros q ?. apply H. set_solver.
Qed.

Lemma freelist_at_fun m r l l' : Forall kpage l -> Forall kpage l' ->
  freelist_at m r l -> freelist_at m r l' -> l = l'.
Proof.
  revert r l'. induction l as [|p l IH]; intros r [|q l'] Hl Hl'; simpl.
  - done.
  - intros -> [<- _]. inversion Hl' as [|?? Hk]. by destruct (kpage_bounds 0 Hk) as (_&_&?).
  - intros [-> _] ->. inversion Hl as [|?? Hk]. by destruct (kpage_bounds 0 Hk) as (_&_&?).
  - intros [-> H1] [-> H2]. f_equal. inversion Hl; inversion Hl'; subst. eauto.
Qed.

(** Changes that keep away from the free pages and their counts keep the
    invariant. *)
Lemma kmem_ok_frame s s' l :
  kmem_ok s l -> freelist s' = freelist s ->
  (forall p a, p ∈ l -> in_page p a -> mget (mem s') a = mget (mem s) a) ->
  (forall p, p ∈ l -> refs s' p = refs s p) ->
  kmem_ok s' l.
Proof.
  intros [Hl Hn Hp Hu] Hf Hm Hr. split; [|done..|].
  - rewrite Hf. eapply freelist_at_ext; [|done]. intros p Hin. apply load_le_ext.
    intros a Ha. symmetry. apply (Hm p); [done|]. unfold in_page, PGSIZE. lia.
  - apply Forall_forall. intros p Hin%list_elem_of_In. rewrite Hr by done.
    eapply Forall_forall in Hu; [done|by apply list_elem_of_In].
Qed.

(** ** The operations under the invariant *)

Lemma wp_rd_count pn Q s :
  count_ix pn = true -> Q (default 0 (count s !! pn)) s -> wp (rd_count pn) Q s.
Proof. unfold wp, rd_count. by intros ->. Qed.
Lemma wp_wr_count pn v Q s :
  count_ix pn = true -> Q tt (set_count (<[pn := s32 v]>) s) -> wp (wr_count pn v) Q s.
Proof. unfold wp, wr_count. by intros ->. Qed.

(** The state after the first free page [p] has been handed out. *)
Definition kalloc_state (p : Z) (s : machine) : machine :=
  set_mem (fun m => mem_fill m p (Z.to_nat PGSIZE) 5)
    (set_freelist (load64 (mem s) p) (set_count (<[p / PGSIZE := 1]>) (touch s))).

Lemma kalloc_cons s p l :
  kmem_ok s (p :: l) -> ready s LkKmem -> kalloc s = Ret p (kalloc_state p s).
Proof.
  intros [[Hfl Hl] _ Hpg Hun] [Hf Hc].
  inversion Hpg as [|?? Hp _]; subst. inversion Hun as [|?? Hr _]; subst.
  destruct (kpage_bounds _ Hp) as (Hb1 & Hb2 & Hnz). destruct (kpage_no _ Hp) as [Hpn Hix].
  enough (H : wp kalloc (fun r s' => r = freelist s /\ s' = kalloc_state (freelist s) s) s).
  { apply wp_inv in H as (? & ? & -> & -> & ->). done. }
  unfold kalloc. wp_steps. wp_acquire. wp_steps.
  change (freelist (acquired LkKmem s)) with (freelist s).
  destruct (Z.eqb_spec (freelist s) 0); [done|]. simpl. rewrite Hpn. wp_steps.
  apply wp_rd_count; [done|]. change (default 0 _) with (refs s (freelist s)). rewrite Hr. simpl.
  wp_steps. apply wp_wr_count; [done|]. wp_steps.
  apply wp_ld64; [lia|unfold PGSIZE in *; lia|]. wp_steps. simpl.
  wp_release LkKmem s. simpl.
  wp_steps. apply wp_memset; [lia|lia|]. wp_steps. split; [done|]. unfold kalloc_state. meq.
Qed.

Lemma kalloc_nil s : kmem_ok s [] -> ready s LkKmem -> kalloc s = Ret 0 (touch s).
Proof.
  intros [Hfl _ _ _] [Hf Hc]. simpl in Hfl.
  enough (H : wp kalloc (fun r s' => r = 0 /\ s' = touch s) s).
  { apply wp_inv in H as (? & ? & -> & -> & ->). done. }
  unfold kalloc. wp_steps. wp_acquire. wp_steps.
  change (freelist (acquired LkKmem s)) with (freelist s). rewrite Hfl. simpl. wp_steps.
  wp_release LkKmem s. simpl. wp_steps. done.
Qed.

Lemma kalloc_state_ok s p l : kmem_ok s (p :: l) -> kmem_ok (kalloc_state p s) l.
Proof.
  intros [[Hfl Hl] Hnd Hpg Hun]. inversion Hnd as [|?? Hni Hnd']; subst.
  inversion Hpg as [|?? Hp Hpg']; subst. inversion Hun as [|?? Hr Hun']; subst.
  apply (kmem_ok_frame (set_freelist (load64 (mem s) (freelist s)) s)).
  - split; done.
  - done.
  - intros q a Hq Ha. simpl. rewrite mget_fill, decide_False; [done|].
    intros Ha'. destruct Hni. rewrite list.Forall_forall in Hpg'.
    by rewrite (kpage_disj (freelist s) q a); auto.
  - intros q Hq. unfold refs. simpl. rewrite lookup_insert_ne; [done|].
    intros E. destruct Hni. rewrite list.Forall_forall in Hpg'.
    rewrite (kpage_no_inj (freelist s) q); auto.
Qed.

(** Dropping one of several references. *)
Definition unref_state (p : Z) (s : machine) : machine :=
  set_count (<[p / PGSIZE := refs s p - 1]>) (touch s).
(** Dropping the last one puts the page, filled with ones, on the list. *)
Definition kfree_state (p : Z) (s : machine) : machine :=
  set_freelist p
    (set_mem (fun m => store64 (mem_fill m p (Z.to_nat PGSIZE) 1) p (freelist s))
       (set_count (<[p / PGSIZE := 0]>) (touch s))).

Definition int_range (c : Z) : Prop := - 2 ^ 31 <= c < 2 ^ 31.

Lemma kpage_guard p :
  kpage p -> negb (p mod PGSIZE =? 0) || (p <? kend) || (PHYSTOP <=? p) = false.
Proof. intros [Ha Hb]. unfold page_aligned in Ha. rewrite Ha. simpl. repeat zcase; done. Qed.

Lemma kfree_shared s p :
  kpage p -> ready s LkKmem -> 1 < refs s p -> int_range (refs s p) ->
  kfree p s = Ret tt (unref_state p s).
Proof.
  intros Hp [Hf Hc] Hr Hi. destruct (kpage_no _ Hp) as [Hpn Hix].
  enough (H : wp (kfree p) (fun _ s' => s' = unref_state p s) s).
  { apply wp_inv in H as ([] & ? & -> & ->). done. }
  unfold kfree. rewrite kpage_guard by done. wp_steps. wp_acquire.
  rewrite Hpn. wp_steps. apply wp_rd_count; [done|].
  change (default 0 _) with (refs s p). destruct (Z.ltb_spec (refs s p) 1); [lia|]. wp_steps.
  apply wp_wr_count; [done|]. wp_steps. apply wp_rd_count; [done|]. simpl.
  rewrite lookup_insert_eq. simpl. rewrite s32_small by (unfold int_range in Hi; lia).
  destruct (Z.ltb_spec 0 (refs s p - 1)); [|lia].
  wp_release LkKmem s. reflexivity.
Qed.

Lemma kfree_last s p :
  kpage p -> ready s LkKmem -> refs s p = 1 -> kfree p s = Ret tt (kfree_state p s).
Proof.
  intros Hp [Hf Hc] Hr. destruct (kpage_no _ Hp) as [Hpn Hix].
  destruct (kpage_bounds _ Hp) as (Hb1 & Hb2 & Hnz).
  enough (H : wp (kfree p) (fun _ s' => s' = kfree_state p s) s).
  { apply wp_inv in H as ([] & ? & -> & ->). done. }
  unfold kfree. rewrite kpage_guard by done. wp_steps. wp_acquire.
  rewrite Hpn. wp_steps. apply wp_rd_count; [done|].
  change (default 0 _) with (refs s p). rewrite Hr. simpl. wp_steps.
  apply wp_wr_count; [done|]. wp_steps. apply wp_rd_count; [done|]. simpl.
  rewrite lookup_insert_eq. simpl. change (s32 0) with 0. simpl. wp_steps.
  wp_release LkKmem s. wp_steps.
  apply wp_memset; [lia|lia|]. wp_steps.
  set (s1 := set_mem (fun m => mem_fill m p (Z.to_nat PGSIZE) 1)
               (set_count (<[p / PGSIZE := 0]>) (touch s))).
  match goal with |- wp _ _ ?st => change st with s1 end.
  wp_acquire. wp_steps. apply wp_st64; [lia|unfold PGSIZE in *; lia|]. wp_steps.
  wp_release LkKmem s1.
  { unfold cpu_ok. change (cpu_of s1) with (cpu_of (touch s)). by apply (cpu_ok_touch s). }
  change (cpus (touch s1)) with (cpus (touch (touch s))). rewrite touch_idemp.
  unfold kfree_state. meq.
Qed.

Lemma kfree_state_ok s p l :
  kpage p -> kmem_ok s l -> refs s p <> 0 -> kmem_ok (kfree_state p s) (p :: l).
Proof.
  intros Hp [Hl Hnd Hpg Hun] Hr.
  assert (Hni : p ∉ l).
  { intros Hin. rewrite list.Forall_forall in Hun. by apply Hr, Hun. }
  rewrite list.Forall_forall in Hpg.
  split.
  - simpl. split; [done|]. rewrite load_store64.
    assert (Hfl : u64 (freelist s) = freelist s).
    { apply u64_small. destruct l as [|q l]; simpl in Hl; [lia|]. destruct Hl as [-> _].
      destruct (kpage_bounds q (Hpg q ltac:(set_solver))) as (?&?&?).
      unfold PHYSTOP, KERNBASE, PGSIZE in *. lia. }
    rewrite Hfl. eapply freelist_at_ext; [|done]. intros q Hq. apply load_le_ext.
    intros a Ha. rewrite mget_store64_ne, mget_fill, decide_False; [done| |].
    + intros Ha'. destruct Hni. rewrite (kpage_disj p q a); auto; unfold in_page, PGSIZE in *; lia.
    + intros Ha'. destruct Hni. rewrite (kpage_disj p q a); auto; unfold in_page, PGSIZE in *; lia.
  - by constructor.
  - constructor; [done|]. by rewrite list.Forall_forall.
  - constructor.
    + unfold refs. simpl. by rewrite lookup_insert_eq.
    + rewrite list.Forall_forall in Hun |- *. intros q Hq. unfold refs. simpl.
      rewrite lookup_insert_ne; [by apply Hun|]. intros E. destruct Hni.
      rewrite (kpage_no_inj p q); auto.
Qed.

Lemma unref_state_ok s p l :
  kpage p -> kmem_ok s l -> refs s p <> 0 -> kmem_ok (unref_state p s) l.
Proof.
  intros Hp Hk Hr. apply (kmem_ok_frame s); [done|done|done|].
  intros q Hq. unfold refs. simpl. rewrite lookup_insert_ne; [done|]. intros E. destruct Hr.
  rewrite (kpage_no_inj p q); [| done | | done].
  - destruct Hk as [_ _ _ Hun]. by rewrite list.Forall_forall in Hun; apply Hun.
  - destruct Hk as [_ _ Hpg _]. by rewrite list.Forall_forall in Hpg; apply Hpg.
Qed.

(** ** References *)

Definition krefset_state (p c : Z) (s : machine) : machine :=
  set_count (<[p / PGSIZE := c]>) (touch s).

Lemma krefincr_eq s p :
  kpage p -> ready s LkKmem -> int_range (refs s p + 1) ->
  krefincr p s = Ret tt (krefset_state p (refs s p + 1) s).
Proof.
  intros Hp [Hf Hc] Hi. destruct (kpage_no _ Hp) as [Hpn Hix].
  enough (H : wp (krefincr p) (fun _ s' => s' = krefset_state p (refs s p + 1) s) s).
  { apply wp_inv in H as ([] & ? & -> & ->). done. }
  unfold krefincr. wp_steps. wp_acquire. destruct (Z.ltb_spec PHYSTOP p).
  { destruct Hp as [_ ?]. lia. }
  rewrite Hpn. wp_steps. apply wp_rd_count; [done|]. wp_steps. apply wp_wr_count; [done|].
  wp_release LkKmem s. change (default 0 _) with (refs s p). rewrite s32_small by done.
  unfold krefset_state. meq.
Qed.

Lemma krefdecr_eq s p :
  kpage p -> ready s LkKmem -> int_range (refs s p - 1) ->
  krefdecr p s = Ret tt (krefset_state p (refs s p - 1) s).
Proof.
  intros Hp [Hf Hc] Hi. destruct (kpage_no _ Hp) as [Hpn Hix].
  enough (H : wp (krefdecr p) (fun _ s' => s' = krefset_state p (refs s p - 1) s) s).
  { apply wp_inv in H as ([] & ? & -> & ->). done. }
  unfold krefdecr. wp_steps. wp_acquire. destruct (Z.ltb_spec PHYSTOP p).
  { destruct Hp as [_ ?]. lia. }
  rewrite Hpn. wp_steps. apply wp_rd_count; [done|]. wp_steps. apply wp_wr_count; [done|].
  wp_release LkKmem s. change (default 0 _) with (refs s p). rewrite s32_small by done.
  unfold krefset_state. meq.
Qed.

Lemma refs_set_count p c s q :
  kpage p -> kpage q ->
  refs (set_count (<[p / PGSIZE := c]>) s) q = if decide (p = q) then c else refs s q.
Proof.
  intros Hp Hq. unfold refs. simpl. rewrite lookup_insert.
  destruct (decide (p = q)) as [->|Hne]; [by rewrite decide_True|].
  rewrite decide_False; [done|]. intros E. by apply Hne, kpage_no_inj.
Qed.

Lemma kmem_ok_not_free s l p : kmem_ok s l -> refs s p <> 0 -> p ∉ l.
Proof. intros [_ _ _ Hu] Hr Hin. rewrite list.Forall_forall in Hu. by apply Hr, Hu. Qed.

Lemma kmem_ok_page s l p : kmem_ok s l -> p ∈ l -> kpage p.
Proof. intros [_ _ Hp _] Hin. rewrite list.Forall_forall in Hp. auto. Qed.

Lemma krefset_state_ok s p c l :
  kpage p -> kmem_ok s l -> p ∉ l -> kmem_ok (krefset_state p c s) l.
Proof.
  intros Hp Hk Hni. apply (kmem_ok_frame s); [done|done|done|].
  intros q Hq. unfold krefset_state. rewrite refs_set_count; [|done|by eapply kmem_ok_page].
  rewrite decide_False by (by intros ->). done.
Qed.

(** ** What the allocator promises

    The rest of the kernel relies on the following, for some invariant of
    the machine and the list of pages it can still obtain. *)

(** Only page [p] was written and only its reference count changed. *)
Definition page_effect (p : Z) (s s' : machine) : Prop :=
  hart_eq s s' /\
  (forall a, ~ in_page p a -> mget (mem s') a = mget (mem s) a) /\
  (forall q, kpage q -> q <> p -> refs s' q = refs s q).

Class PageAllocator (alloc : M machine Z) (dealloc : Z -> M machine unit)
    (inv : machine -> list Z -> Prop) : Prop := {
  alloc_page s p l :
    inv s (p :: l) -> ready s LkKmem ->
    exists s', alloc s = Ret p s' /\ inv s' l /\ page_effect p s s' /\ refs s' p = 1;
  alloc_none s :
    inv s [] -> ready s LkKmem -> exists s', alloc s = Ret 0 s' /\ inv s' [] /\
      hart_eq s s' /\ mem s' = mem s /\ count s' = count s;
  dealloc_shared s p l :
    inv s l -> kpage p -> ready s LkKmem -> 1 < refs s p -> int_range (refs s p) ->
    exists s', dealloc p s = Ret tt s' /\ inv s' l /\ page_effect p s s' /\
      mem s' = mem s /\ refs s' p = refs s p - 1;
  dealloc_last s p l :
    inv s l -> kpage p -> ready s LkKmem -> refs s p = 1 ->
    exists s', dealloc p s = Ret tt s' /\ inv s' (p :: l) /\ page_effect p s s' /\ refs s' p = 0;
  alloc_inv_pages s l : inv s l -> NoDup l /\ forall p, p ∈ l -> kpage p /\ refs s p = 0;
  alloc_frame s s' l :
    inv s l -> freelist s' = freelist s ->
    (forall p a, p ∈ l -> in_page p a -> mget (mem s') a = mget (mem s) a) ->
    (forall p, p ∈ l -> refs s' p = refs s p) -> inv s' l
}.

#[export] Instance kalloc_allocator : PageAllocator kalloc kfree kmem_ok.
Proof.
  split.
  - intros s p l Hk Hr. exists (kalloc_state p s).
    assert (Hp : kpage p) by (eapply kmem_ok_page; [done|set_solver]).
    split_and!; [by eapply kalloc_cons|by eapply kalloc_state_ok| |].
    + split_and!; [apply (hart_eq_touch s)| |].
      * intros a Ha. unfold kalloc_state. mcbn. rewrite mget_fill, decide_False; [done|].
        by unfold in_page in Ha.
      * intros q Hq Hne. change (refs (kalloc_state p s) q) with
          (refs (set_count (<[p / PGSIZE := 1]>) s) q).
        rewrite refs_set_count by done. by rewrite decide_False.
    + unfold refs, kalloc_state. mcbn. by rewrite lookup_insert_eq.
  - intros s Hk Hr. exists (touch s). split_and!; [by apply kalloc_nil| |apply hart_eq_touch|done|done].
    by apply (kmem_ok_frame s).
  - intros s p l Hk Hp Hr H1 Hi. exists (unref_state p s).
    split_and!; [by apply kfree_shared|apply unref_state_ok; [done..|lia]| |done|].
    + split_and!; [apply (hart_eq_touch s)|done|]. intros q Hq Hne.
      change (refs (unref_state p s) q) with (refs (set_count (<[p / PGSIZE := refs s p - 1]>) s) q).
      rewrite refs_set_count by done. by rewrite decide_False.
    + unfold refs at 1, unref_state. mcbn. by rewrite lookup_insert_eq.
  - intros s p l Hk Hp Hr H1. exists (kfree_state p s).
    split_and!; [by apply kfree_last|apply kfree_state_ok; [done..|lia]| |].
    + split_and!; [apply (hart_eq_touch s)| |].
      * intros a Ha. unfold in_page, PGSIZE in Ha. unfold kfree_state. mcbn.
        rewrite mget_store64_ne, mget_fill, decide_False; [done| |lia]. done.
      * intros q Hq Hne. change (refs (kfree_state p s) q) with
          (refs (set_count (<[p / PGSIZE := 0]>) s) q).
        rewrite refs_set_count by done. by rewrite decide_False.
    + unfold refs, kfree_state. mcbn. by rewrite lookup_insert_eq.
  - intros s l Hk. split; [by destruct Hk|]. intros p Hp. split; [by eapply kmem_ok_page|].
    destruct Hk as [_ _ _ Hu]. rewrite list.Forall_forall in Hu. auto.
  - apply kmem_ok_frame.
Qed.

(** ** Building the free list *)

(** [l] holds exactly the pages from [PGROUNDUP kend] up to [p]. *)
Definition pages_upto (p : Z) (l : list Z) : Prop :=
  forall q, q ∈ l <-> page_aligned q /\ PGROUNDUP kend <= q < p.

Lemma PGROUNDUP_kend :
  PGROUNDUP kend = (kend + PGSIZE - 1) / PGSIZE * PGSIZE /\ page_aligned (PGROUNDUP kend) /\
  kend <= PGROUNDUP kend <= PHYSTOP.
Proof.
  pose proof kend_range as Hk. rewrite PGROUNDUP_eq; [|unfold PHYSTOP, KERNBASE, PGSIZE in *; lia].
  split_and!; [done|apply Z_mod_mult|unfold PGSIZE; dlia|].
  unfold PHYSTOP, KERNBASE, PGSIZE in *. dlia.
Qed.

Lemma kpage_iff q : kpage q <-> page_aligned q /\ PGROUNDUP kend <= q < PHYSTOP.
Proof.
  destruct PGROUNDUP_kend as (He & Ha & Hb). unfold kpage. split; intros [Hq ?]; split; try done; [|lia].
  rewrite He. unfold page_aligned, PGSIZE in *. dlia.
Qed.

Lemma freerange_step s l p :
  kmem_ok s l -> ready s LkKmem -> kpage p -> p ∉ l ->
  wp (do! wr_count (page_no p) 1 in kfree p) (fun _ s' => kmem_ok s' (p :: l) /\ hart_eq s s') s.
Proof.
  intros Hk Hr Hp Hni. destruct (kpage_no _ Hp) as [Hpn Hix]. rewrite Hpn.
  wp_steps. apply wp_wr_count; [done|]. change (s32 1) with 1.
  set (s1 := set_count (<[p / PGSIZE := 1]>) s).
  assert (Hk1 : kmem_ok s1 l).
  { apply (kmem_ok_frame s); [done|done|done|]. intros q Hq. subst s1.
    rewrite refs_set_count; [|done|by eapply kmem_ok_page]. by rewrite decide_False by (by intros ->). }
  assert (Hr1 : refs s1 p = 1) by (unfold refs; simpl; by rewrite lookup_insert_eq).
  destruct (dealloc_last (PageAllocator := kalloc_allocator) s1 p l) as (s' & E & Hk' & [Hh _] & _);
    [done..|]. eapply wp_eq; [exact E|]. split; [done|]. by transitivity s1.
Qed.

Lemma freerange_ok s :
  kmem_ok s [] -> ready s LkKmem ->
  wp (freerange kend PHYSTOP)
     (fun _ s' => (exists l, kmem_ok s' l /\ forall q, q ∈ l <-> kpage q) /\ hart_eq s s') s.
Proof.
  intros Hk Hr. destruct PGROUNDUP_kend as (He & Ha & Hb).
  unfold freerange. apply (wp_while _ (fun p s' => page_aligned p /\ PGROUNDUP kend <= p <= PHYSTOP /\
           hart_eq s s' /\ exists l, kmem_ok s' l /\ pages_upto p l) (fun p => PHYSTOP - p)).
  - intros p s1 (Hp & Hpb & Hh & l & Hk1 & Hl).
    destruct (Z.leb_spec (p + PGSIZE) PHYSTOP).
    + assert (Hkp : kpage p) by (apply kpage_iff; unfold PGSIZE in *; split; [done|lia]).
      assert (Hr1 : ready s1 LkKmem) by (by eapply ready_hart_eq).
      pose proof (freerange_step s1 l p Hk1 Hr1 Hkp ltac:(intros [_ ?]%Hl; lia)) as Hs.
      apply wp_bind_inv in Hs. wp_steps. eapply wp_conseq; [exact Hs|].
      intros u2 s2 Hs2. wp_steps. eapply wp_conseq; [exact Hs2|].
      intros _ s3 [Hk2 Hh2]. wp_steps.
      split; [|unfold PGSIZE in *; lia]. unfold page_aligned, PGSIZE in *.
      split_and!; [dlia|lia|lia|by transitivity s1|]. exists (p :: l). split; [done|].
      intros q. rewrite elem_of_cons, (Hl q). unfold page_aligned, PGSIZE. split.
      * intros [->|[??]]; split; try done; lia.
      * intros [Hq ?]. destruct (decide (q = p)); [by left|right]. split; [done|]. dlia.
    + apply wp_ret. split; [|done]. exists l. split; [done|]. intros q. rewrite (Hl q), kpage_iff.
      assert (p = PHYSTOP); [|by subst].
      unfold page_aligned, PHYSTOP, KERNBASE, PGSIZE in *. dlia.
  - split_and!; [done|lia|lia|done|]. exists []. split; [done|]. intros q. split; [set_solver|lia].
  - unfold PHYSTOP, KERNBASE in *. pose proof kend_range. unfold PHYSTOP, KERNBASE in *. lia.
Qed.

(** ** An abstract allocator, and the implementation of it

    The specification: a list of free pages and a reference count for every
    page, with no linked list, no memory and no lock. *)

Record astate := mk_astate { a_free : list Z; a_refs : gmap Z Z }.
Definition a_cnt (a : astate) (p : Z) : Z := default 0 (a_refs a !! p).

Inductive aop := AAlloc | AFree (p : Z) | AIncr (p : Z) | ADecr (p : Z).

(** [None] is an operation the specification does not allow. *)
Definition arun (o : aop) (a : astate) : option (Z * astate) :=
  match o with
  | AAlloc =>
      match a_free a with
      | [] => Some (0, a)
      | p :: l => Some (p, mk_astate l (<[p := 1]> (a_refs a)))
      end
  | AFree p =>
      if decide (1 < a_cnt a p) then Some (0, mk_astate (a_free a) (<[p := a_cnt a p - 1]> (a_refs a)))
      else if decide (a_cnt a p = 1) then Some (0, mk_astate (p :: a_free a) (<[p := 0]> (a_refs a)))
      else None
  | AIncr p =>
      if decide (1 <= a_cnt a p < 2 ^ 31 - 1)
      then Some (0, mk_astate (a_free a) (<[p := a_cnt a p + 1]> (a_refs a))) else None
  | ADecr p =>
      if decide (1 < a_cnt a p)
      then Some (0, mk_astate (a_free a) (<[p := a_cnt a p - 1]> (a_refs a))) else None
  end.
Fixpoint aruns (os : list aop) (a : astate) : option (list Z * astate) :=
  match os with
  | [] => Some ([], a)
  | o :: os' =>
      match arun o a with
      | Some (r, a') =>
          match aruns os' a' with Some (rs, a'') => Some (r :: rs, a'') | None => None end
      | None => None
      end
  end.

(** The same operation on the machine. *)
Definition crun (o : aop) : M machine Z :=
  match o with
  | AAlloc => kalloc
  | AFree p => do! kfree p in ret 0
  | AIncr p => do! krefincr p in ret 0
  | ADecr p => do! krefdecr p in ret 0
  end.
Fixpoint cruns (os : list aop) : M machine (list Z) :=
  match os with
  | [] => ret []
  | o :: os' => let! r := crun o in let! rs := cruns os' in ret (r :: rs)
  end.

Record refines (s : machine) (a : astate) : Prop := mk_refines {
  rf_ok : kmem_ok s (a_free a);
  rf_ready : ready s LkKmem;
  rf_refs p : kpage p -> refs s p = a_cnt a p;
  rf_pages p : a_cnt a p <> 0 -> kpage p;
  rf_int p : a_cnt a p < 2 ^ 31
}.

Lemma a_cnt_insert l p c a q :
  a_cnt (mk_astate l (<[p := c]> (a_refs a))) q = if decide (p = q) then c else a_cnt a q.
Proof. unfold a_cnt. simpl. rewrite lookup_insert. by case_decide. Qed.

(** One page's count moved from [a] to [c], and the free list to [l']. *)
Lemma refines_update s s' a p c l' :
  refines s a -> kpage p -> c < 2 ^ 31 -> kmem_ok s' l' -> hart_eq s s' ->
  (forall q, kpage q -> refs s' q = if decide (p = q) then c else refs s q) ->
  refines s' (mk_astate l' (<[p := c]> (a_refs a))).
Proof.
  intros [Hk Hr Hc Hp Hi] Hkp Hlt Hk' Hh Hrefs. split.
  - done.
  - by rewrite <- Hh.
  - intros q Hq. rewrite Hrefs, a_cnt_insert by done. case_decide; auto.
  - intros q. rewrite a_cnt_insert. case_decide; subst; auto.
  - intros q. rewrite a_cnt_insert. case_decide; auto.
Qed.

Lemma page_effect_refs p c s s' :
  page_effect p s s' -> refs s' p = c -> forall q, kpage q ->
  refs s' q = if decide (p = q) then c else refs s q.
Proof. intros (_ & _ & H) <- q Hq. case_decide; subst; auto. Qed.

Lemma crun_refines s a o r a' :
  refines s a -> arun o a = Some (r, a') -> exists s', crun o s = Ret r s' /\ refines s' a'.
Proof.
  intros Hrf Ho. pose proof Hrf as [Hk Hr Hc Hp Hi].
  destruct o as [|p|p|p]; simpl in Ho |- *.
  - destruct (a_free a) as [|p l] eqn:El; injection Ho as <- <-.
    + destruct (alloc_none (PageAllocator := kalloc_allocator) s) as (s' & E & Hk' & Hh & Hm & Hcn); [done..|].
      exists s'. split; [done|]. split; rewrite ?El; auto; [by rewrite <- Hh|].
      intros q Hq. rewrite <- Hc by done. unfold refs. by rewrite Hcn.
    + destruct (alloc_page (PageAllocator := kalloc_allocator) s p l) as (s' & E & Hk' & Hpe & H1); [done..|].
      exists s'. split; [done|]. eapply refines_update; [done| |done|done|apply Hpe|].
      * eapply (kmem_ok_page s (p :: l)); [done|left].
      * by apply page_effect_refs.
  - case_decide as H1; [|case_decide as H2]; simplify_eq.
    + assert (Hkp : kpage p) by (apply Hp; lia). rewrite <- Hc in H1 by done.
      specialize (Hi p). rewrite <- Hc in Hi by done.
      destruct (dealloc_shared (PageAllocator := kalloc_allocator) s p (a_free a))
        as (s' & E & Hk' & Hpe & Hm & Hrf'); [done..|unfold int_range; lia|].
      exists s'. unfold bind. rewrite E. split; [done|].
      eapply refines_update; [done|done| |done|apply Hpe|]; rewrite <- Hc by done; [lia|].
      by apply page_effect_refs.
    + assert (Hkp : kpage p) by (apply Hp; lia). rewrite <- Hc in H2 by done.
      destruct (dealloc_last (PageAllocator := kalloc_allocator) s p (a_free a))
        as (s' & E & Hk' & Hpe & Hrf'); [done..|].
      exists s'. unfold bind. rewrite E. split; [done|].
      eapply refines_update; [done|done|done|done|apply Hpe|]. by apply page_effect_refs.
  - case_decide as H1; simplify_eq. assert (Hkp : kpage p) by (apply Hp; lia).
    rewrite <- Hc in H1 by done. unfold bind. rewrite krefincr_eq; [|done..|unfold int_range; lia].
    eexists. split; [done|]. rewrite <- Hc by done.
    eapply refines_update; [done|done|lia| |apply (hart_eq_touch s)|].
    + apply krefset_state_ok; [done|done|]. eapply kmem_ok_not_free; [done|lia].
    + intros q Hq. unfold krefset_state. by rewrite refs_set_count.
  - case_decide as H1; simplify_eq. assert (Hkp : kpage p) by (apply Hp; lia).
    pose proof (Hi p) as Hip. rewrite <- Hc in Hip by done.
    rewrite <- Hc in H1 by done. unfold bind. rewrite krefdecr_eq; [|done..|unfold int_range; lia].
    eexists. split; [done|]. rewrite <- Hc by done.
    eapply refines_update; [done|done|lia| |apply (hart_eq_touch s)|].
    + apply krefset_state_ok; [done|done|]. eapply kmem_ok_not_free; [done|lia].
    + intros q Hq. unfold krefset_state. by rewrite refs_set_count.
Qed.

(** ** Properties *)

(** [C9] Booting the allocator terminates and leaves every whole page between
    [end] and [PHYSTOP], and nothing else, on the free list, unreferenced and
    without repetition, with the allocator's lock free again. *)
Theorem kinit_frees_all_pages s :
  freelist s = 0 -> cpu_ok s ->
  exists s' l, kinit s = Ret tt s' /\ kmem_ok s' l /\ (forall q, q ∈ l <-> kpage q) /\
    ready s' LkKmem.
Proof.
  intros Hf Hc. set (s1 := set_locks (<[LkKmem := unlocked]>) s).
  assert (Hr1 : ready s1 LkKmem) by (split; [apply lookup_insert_eq|done]).
  assert (Hk1 : kmem_ok s1 []) by (by repeat constructor).
  pose proof (freerange_ok s1 Hk1 Hr1) as H.
  apply wp_inv in H as ([] & s' & E & (l & Hk & Hl) & Hh).
  exists s', l. split_and!; [exact E|done|done|by eapply ready_hart_eq].
Qed.

(** [C10] Every sequence of [kalloc], [kfree], [krefincr] and [krefdecr] calls
    that the abstract allocator allows runs on the machine without panic or
    undefined behaviour, with the same results, and ends in a machine that
    implements the abstract allocator's final state. *)
Theorem kalloc_implements_spec os s a rs a' :
  refines s a -> aruns os a = Some (rs, a') ->
  exists s', cruns os s = Ret rs s' /\ refines s' a'.
Proof.
  revert s a rs a'. induction os as [|o os IH]; intros s a rs a' Hrf; simpl.
  - intros [= <- <-]. eauto.
  - destruct (arun o a) as [[r a1]|] eqn:E1; [|done].
    destruct (aruns os a1) as [[rs1 a2]|] eqn:E2; [|done]. intros [= <- <-].
    destruct (crun_refines s a o r a1) as (s1 & E & Hrf1); [done..|].
    destruct (IH s1 a1 rs1 a2) as (s2 & E' & Hrf2); [done..|].
    exists s2. unfold bind. by rewrite E; simpl; rewrite E'.
Qed.

(** Freeing a page just allocated puts it back: the free list and every
    reference count are as before the allocation, and no page but this one
    was written. *)
Theorem kalloc_kfree_roundtrip s p l :
  kmem_ok s (p :: l) -> ready s LkKmem ->
  exists s', (let! q := kalloc in do! kfree q in ret q) s = Ret p s' /\
    kmem_ok s' (p :: l) /\ hart_eq s s' /\
    (forall q, kpage q -> refs s' q = refs s q) /\
    (forall a, ~ in_page p a -> mget (mem s') a = mget (mem s) a).
Proof.
  intros Hk Hr.
  assert (Hp : kpage p) by (apply (kmem_ok_page s (p :: l)); [done|left]).
  assert (H0 : refs s p = 0).
  { destruct Hk as [_ _ _ Hu]. by inversion Hu. }
  destruct (alloc_page (PageAllocator := kalloc_allocator) s p l) as (s1 & E1 & Hk1 & (Hh1 & Hm1 & Hc1) & R1);
    [done..|].
  destruct (dealloc_last (PageAllocator := kalloc_allocator) s1 p l) as (s2 & E2 & Hk2 & (Hh2 & Hm2 & Hc2) & R2);
    [done|done|by eapply ready_hart_eq|done|].
  exists s2. split_and!; [|done|by transitivity s1| |].
  - unfold bind. by rewrite E1; simpl; rewrite E2.
  - intros q Hq. destruct (decide (q = p)) as [->|]; [by rewrite R2, H0|]. by rewrite Hc2, Hc1.
  - intros a Ha. by rewrite Hm2, Hm1.
Qed.

(** [kfree] refuses what was never handed out: an address that is not a
    page of the allocator's range panics, and so does a page with no
    reference left, so a double free never reaches the free list. *)
Theorem kfree_rejects s p :
  (~ kpage p -> 0 <= p -> kfree p s = Panic "kfree" s) /\
  (kpage p -> ready s LkKmem -> refs s p < 1 ->
   exists s', kfree p s = Panic "kfree_decr" s' /\ freelist s' = freelist s /\
     mem s' = mem s /\ count s' = count s).
Proof.
  split.
  - intros Hp H0. unfold kfree. replace (negb _ || _ || _) with true; [done|].
    symmetry. apply not_false_iff_true. intros E. zbool.
    apply Hp. split; [done|]. lia.
  - intros Hp [Hf Hc] Hr. destruct (kpage_no _ Hp) as [Hpn Hix].
    eexists. unfold kfree. rewrite kpage_guard by done.
    erewrite bind_ret by (by apply acquire_eq). rewrite Hpn.
    erewrite bind_ret by (unfold rd_count; by rewrite Hix).
    change (default 0 _) with (refs s p). destruct (Z.ltb_spec (refs s p) 1); [|lia].
    erewrite bind_ret by (apply (release_eq LkKmem s); [done|done|mrefl|mrefl|mrefl]).
    split; [reflexivity|]. done.
Qed.

(** [C23] The bound of [krefincr] is off by one: at the address [PHYSTOP], which
    its guard lets through, it indexes one past the end of [refcnt.count]. *)
Theorem krefincr_phystop_out_of_bounds s :
  ready s LkKmem -> krefincr PHYSTOP s = Ub "refcnt.count" (acquired LkKmem s).
Proof.
  intros [Hf _]. unfold krefincr. erewrite bind_ret by (by apply acquire_eq).
  replace (PHYSTOP <? PHYSTOP) with false by done. unfold bind, rd_count.
  by replace (count_ix (page_no PHYSTOP)) with false by (vm_compute; done).
Qed.
End kalloc.

(** ** Witnesses *)

Module KallocSample.

#[local] Existing Instance kernel_sym.

(** Two free pages, one hart, all locks free. *)
Definition p1 : Z := 0x80245000.
Definition p2 : Z := 0x80246000.
Definition zeroed : machine := mk_machine 0 ∅ {[LkKmem := unlocked]} ∅ 0 ∅.
Definition two_pages : machine := mk_machine 0 ∅ {[LkKmem := unlocked]} (store64 ∅ p1 p2) p1 ∅.

Lemma zeroed_ready : ready zeroed LkKmem.
Proof. by split. Defined.
Lemma two_pages_ready : ready two_pages LkKmem.
Proof. by split. Defined.
Lemma two_pages_ok : kmem_ok two_pages [p1; p2].
Proof.
  split; [vm_compute; done|apply (bool_decide_unpack _); vm_compute; done| |].
  - repeat constructor; vm_compute; done.
  - repeat constructor.
Defined.
Lemma two_pages_refines : refines two_pages (mk_astate [p1; p2] ∅).
Proof.
  split; [exact two_pages_ok|exact two_pages_ready|done|done|done].
Defined.

Lemma kinit_frees_all_pages_witness :
  exists s' l, kinit zeroed = Ret tt s' /\ kmem_ok s' l /\ (forall q, q ∈ l <-> kpage q) /\
    ready s' LkKmem.
Proof. apply (kinit_frees_all_pages zeroed); [done|by apply zeroed_ready]. Defined.

Lemma kalloc_implements_spec_witness :
  exists s', cruns [AAlloc; AIncr p1; AAlloc; ADecr p1; AAlloc; AFree p2; AAlloc] two_pages
    = Ret [p1; 0; p2; 0; 0; 0; p2] s' /\
    refines s' (mk_astate [] (<[p2 := 1]> (<[p2 := 0]> (<[p1 := 1]> (<[p2 := 1]> (<[p1 := 2]> (<[p1 := 1]> ∅))))))).
Proof.
  apply (kalloc_implements_spec _ two_pages (mk_astate [p1; p2] ∅)).
  - exact two_pages_refines.
  - vm_compute. reflexivity.
Defined.

Lemma kfree_rejects_witness :
  kfree 0x80245008 two_pages = Panic "kfree" two_pages /\
  exists s', kfree p1 two_pages = Panic "kfree_decr" s' /\ freelist s' = freelist two_pages /\
     mem s' = mem two_pages /\ count s' = count two_pages.
Proof.
  split.
  - apply (kfree_rejects two_pages 0x80245008); [|vm_compute; done].
    intros [Ha _]. vm_compute in Ha. done.
  - apply (kfree_rejects two_pages p1); [|exact two_pages_ready|vm_compute; done].
    apply (kmem_ok_page two_pages [p1; p2]); [exact two_pages_ok|left].
Defined.

Lemma krefincr_phystop_out_of_bounds_witness :
  krefincr PHYSTOP zeroed = Ub "refcnt.count" (acquired LkKmem zeroed).
Proof. apply (krefincr_phystop_out_of_bounds zeroed), zeroed_ready. Defined.
End KallocSample.
