(* ===== verification/Vm.v ===== *)
(** * Virtual memory ([kernel/vm.c], [cowalloc] of [kernel/trap.c])

    Sv39 page tables in byte memory: a table is a page of 512 eight-byte
    entries, and every function reads and writes them through [ld64] and
    [st64]. A [pagetable_t] is the physical address of its root page and a
    [pte_t *] the address of an entry; 0 is the null pointer of both.

    A kernel buffer that a function copies to or from user memory is a list
    of bytes: [copyout] takes the bytes it copies and [copyin], [copyinstr]
    return, beside their result, the bytes they left in the buffer. *)

From S2P Require Import Prelude Riscv Memory Machine Spinlock Kalloc.

Section vm.
Context {KI : KernelImage}.

(** ** Walking *)

Fixpoint walk_levels (levels : list Z) (pagetable va : Z) (alloc : bool) : M machine Z :=
  match levels with
  | [] => ret (pagetable + 8 * PX 0 va)
  | level :: rest =>
      let pte := pagetable + 8 * PX level va in
      let! v := ld64 pte in
      if bit v PTE_V then walk_levels rest (PTE2PA v) va alloc
      else if negb alloc then ret 0
      else
        let! pg := kalloc in
        if pg =? 0 then ret 0 else
        do! memset pg 0 PGSIZE in
        do! st64 pte (Z.lor (PA2PTE pg) PTE_V) in
        walk_levels rest pg va alloc
  end.

(** [for (int level = 2; level > 0; level--)] *)
Definition walk (pagetable va : Z) (alloc : bool) : M machine Z :=
  if MAXVA <=? va then panic "walk" else walk_levels [2; 1] pagetable va alloc.

Definition walkaddr (pagetable va : Z) : M machine Z :=
  if MAXVA <=? va then ret 0 else
  let! pte := walk pagetable va false in
  if pte =? 0 then ret 0 else
  let! v := ld64 pte in
  if negb (bit v PTE_V) then ret 0 else
  if negb (bit v PTE_U) then ret 0 else
  ret (PTE2PA v).

(** ** Mapping and unmapping *)

Definition mappages (pagetable va size pa perm : Z) : M machine Z :=
  if size =? 0 then panic "mappages: size" else
  let last := PGROUNDDOWN (u64 (va + size - 1)) in
  while (fun st : Z * Z =>
    let '(a, pa) := st in
    let! pte := walk pagetable a true in
    if pte =? 0 then ret (inr (-1)) else
    let! v := ld64 pte in
    if bit v PTE_V then panic "mappages: remap" else
    do! st64 pte (Z.lor (Z.lor (PA2PTE pa) perm) PTE_V) in
    if a =? last then ret (inr 0) else
    ret (inl (u64 (a + PGSIZE), u64 (pa + PGSIZE))))
  (PGROUNDDOWN va, pa).

Definition kvmmap (kpgtbl va pa sz perm : Z) : M machine unit :=
  let! r := mappages kpgtbl va sz pa perm in
  if negb (r =? 0) then panic "kvmmap" else ret tt.

Definition uvmunmap (pagetable va npages : Z) (do_free : bool) : M machine unit :=
  if negb (va mod PGSIZE =? 0) then panic "uvmunmap: not aligned" else
  while (fun a : Z =>
    if a <? u64 (va + u64 (npages * PGSIZE)) then
      let! pte := walk pagetable a false in
      if pte =? 0 then panic "uvmunmap: walk" else
      let! v := ld64 pte in
      if negb (bit v PTE_V) then panic "uvmunmap: not mapped" else
      if PTE_FLAGS v =? PTE_V then panic "uvmunmap: not a leaf" else
      do! when do_free (kfree (PTE2PA v)) in
      do! st64 pte 0 in
      ret (inl (u64 (a + PGSIZE)))
    else ret (inr tt)) va.

(** ** User address spaces *)

Definition uvmcreate : M machine Z :=
  let! pagetable := kalloc in
  if pagetable =? 0 then ret 0 else
  do! memset pagetable 0 PGSIZE in
  ret pagetable.

(** [memmove] from a kernel object outside the page allocator's memory. *)
Definition copy_in (dst : Z) (bs : list Z) : M machine unit := fun s =>
  if in_ram dst (Z.of_nat (length bs))
  then Ret tt (set_mem (fun m => store_bytes m dst bs) s) else Ub "memmove" s.
(** The bytes a kernel object receives from memory. *)
Definition copy_out (src n : Z) : M machine (list Z) := fun s =>
  if in_ram src n then Ret (load_bytes (mem s) src (Z.to_nat n)) s else Ub "memmove" s.

Definition uvmfirst (pagetable : Z) (src : list Z) : M machine unit :=
  if PGSIZE <=? Z.of_nat (length src) then panic "uvmfirst: more than a page" else
  let! mem := kalloc in
  do! memset mem 0 PGSIZE in
  let! _ := mappages pagetable 0 PGSIZE mem (Z.lor (Z.lor (Z.lor PTE_W PTE_R) PTE_X) PTE_U) in
  copy_in mem src.

Definition uvmdealloc (pagetable oldsz newsz : Z) : M machine Z :=
  if oldsz <=? newsz then ret oldsz else
  do! when (PGROUNDUP newsz <? PGROUNDUP oldsz)
        (let npages := s32 ((PGROUNDUP oldsz - PGROUNDUP newsz) / PGSIZE) in
         uvmunmap pagetable (PGROUNDUP newsz) (u64 npages) true) in
  ret newsz.

Definition uvmalloc (pagetable oldsz newsz xperm : Z) : M machine Z :=
  if newsz <? oldsz then ret oldsz else
  let oldsz := PGROUNDUP oldsz in
  while (fun a : Z =>
    if a <? newsz then
      let! mem := kalloc in
      if mem =? 0 then
        do! uvmdealloc pagetable a oldsz in ret (inr 0)
      else
      do! memset mem 0 PGSIZE in
      let! r := mappages pagetable a PGSIZE mem (Z.lor (Z.lor PTE_R PTE_U) xperm) in
      if negb (r =? 0) then
        do! kfree mem in
        do! uvmdealloc pagetable a oldsz in ret (inr 0)
      else ret (inl (u64 (a + PGSIZE)))
    else ret (inr newsz)) oldsz.

(** The recursion follows the page-table tree; [depth] bounds it. *)
Fixpoint freewalk_at (depth : nat) (pagetable : Z) : M machine unit :=
  match depth with
  | O => fun s => Fuel s
  | S depth' =>
      do! for_all (seqZ 0 512) (fun i =>
        let! pte := ld64 (pagetable + 8 * i) in
        if bit pte PTE_V && negb (bit pte (Z.lor (Z.lor PTE_R PTE_W) PTE_X)) then
          do! freewalk_at depth' (PTE2PA pte) in
          st64 (pagetable + 8 * i) 0
        else if bit pte PTE_V then panic "freewalk: leaf"
        else ret tt) in
      kfree pagetable
  end.
(** Three levels. *)
Definition freewalk (pagetable : Z) : M machine unit := freewalk_at 3 pagetable.

Definition uvmfree (pagetable sz : Z) : M machine unit :=
  do! when (0 <? sz) (uvmunmap pagetable 0 (PGROUNDUP sz / PGSIZE) true) in
  freewalk pagetable.

Definition uvmcopy (old new sz : Z) : M machine Z :=
  while (fun i : Z =>
    if i <? sz then
      let! pte := walk old i false in
      if pte =? 0 then panic "uvmcopy: pte should exist" else
      let! v := ld64 pte in
      if negb (bit v PTE_V) then panic "uvmcopy: page not present" else
      let pa := PTE2PA v in
      let flags := PTE_FLAGS v in
      let flags := if bit flags PTE_W then Z.land (Z.lor flags PTE_C) (Z.lnot PTE_W) else flags in
      let flags := Z.lor flags PTE_C in
      do! krefincr pa in
      let! r := mappages new i PGSIZE pa flags in
      if negb (r =? 0) then
        do! uvmunmap new 0 (i / PGSIZE) true in
        ret (inr (-1))
      else ret (inl (u64 (i + PGSIZE)))
    else ret (inr 0)) 0.

Definition uvmclear (pagetable va : Z) : M machine unit :=
  let! pte := walk pagetable va false in
  if pte =? 0 then panic "uvmclear" else
  let! v := ld64 pte in
  st64 pte (Z.land v (Z.lnot PTE_U)).

(** ** Copy on write ([kernel/trap.c]) *)

Definition cowalloc (pagetable va : Z) : M machine Z :=
  if va =? 0 then ret (-1) else
  if MAXVA <=? va then ret (-1) else
  let! pte := walk pagetable va false in
  if pte =? 0 then ret (-1) else
  let! v := ld64 pte in
  if negb (bit v PTE_U) || negb (bit v PTE_V) then ret (-1) else
  let pa := PTE2PA v in
  if pa =? 0 then ret (-1) else
  if bit v PTE_C then
    let! ka := kalloc in
    if ka =? 0 then ret (-1) else
    do! memmove ka pa PGSIZE in
    do! st64 pte (Z.lor (Z.lor (Z.lor (Z.lor (Z.lor (PA2PTE ka) PTE_U) PTE_V) PTE_W) PTE_X) PTE_R) in
    let! v' := ld64 pte in
    do! st64 pte (Z.land v' (Z.lnot PTE_C)) in
    do! krefdecr pa in
    ret 0
  else ret 0.

(** ** Copying between the kernel and user space *)

Definition copyout (pagetable dstva : Z) (src : list Z) : M machine Z :=
  while (fun st : Z * list Z =>
    let '(dstva, src) := st in
    let len := Z.of_nat (length src) in
    if 0 <? len then
      let va0 := PGROUNDDOWN dstva in
      if MAXVA <? va0 then ret (inr (-1)) else
      let! c := cowalloc pagetable va0 in
      if c <? 0 then ret (inr (-1)) else
      let! pa0 := walkaddr pagetable va0 in
      if pa0 =? 0 then ret (inr (-1)) else
      let n := PGSIZE - (dstva - va0) in
      let n := if len <? n then len else n in
      do! copy_in (pa0 + (dstva - va0)) (take (Z.to_nat n) src) in
      ret (inl (u64 (va0 + PGSIZE), drop (Z.to_nat n) src))
    else ret (inr 0)) (dstva, src).

(** Result and the bytes written to [dst]. *)
Definition copyin (pagetable srcva len : Z) : M machine (Z * list Z) :=
  while (fun st : Z * Z * list Z =>
    let '(srcva, len, dst) := st in
    if 0 <? len then
      let va0 := PGROUNDDOWN srcva in
      let! pa0 := walkaddr pagetable va0 in
      if pa0 =? 0 then ret (inr (-1, dst)) else
      let n := PGSIZE - (srcva - va0) in
      let n := if len <? n then len else n in
      let! bs := copy_out (pa0 + (srcva - va0)) n in
      ret (inl (u64 (va0 + PGSIZE), len - n, dst ++ bs))
    else ret (inr (0, dst))) (srcva, len, []).

(** The inner loop: copy up to [n] bytes from [p], stopping after a NUL;
    [true] when one was found. *)
Fixpoint copy_str (n : nat) (p : Z) (dst : list Z) : M machine (bool * list Z) :=
  match n with
  | O => ret (false, dst)
  | S n' =>
      let! b := copy_out p 1 in
      match b with
      | [c] => if c =? 0 then ret (true, dst ++ [0]) else copy_str n' (p + 1) (dst ++ [c])
      | _ => undef "copyinstr"
      end
  end.

Definition copyinstr (pagetable srcva max : Z) : M machine (Z * list Z) :=
  while (fun st : Z * Z * list Z =>
    let '(srcva, max, dst) := st in
    if 0 <? max then
      let va0 := PGROUNDDOWN srcva in
      let! pa0 := walkaddr pagetable va0 in
      if pa0 =? 0 then ret (inr (-1, dst)) else
      let n := PGSIZE - (srcva - va0) in
      let n := if max <? n then max else n in
      let! r := copy_str (Z.to_nat n) (pa0 + (srcva - va0)) dst in
      let '(got_null, dst) := r in
      if got_null : bool then ret (inr (0, dst)) else
      ret (inl (u64 (va0 + PGSIZE), max - n, dst))
    else ret (inr (-1, dst))) (srcva, max, []).

(** ** The kernel's own page table *)

(** [proc_mapstacks] of [kernel/proc.c]. *)
Definition proc_mapstacks (kpgtbl : Z) : M machine unit :=
  for_all (seqZ 0 (Z.of_nat NPROC)) (fun p =>
    let! pa := kalloc in
    if pa =? 0 then panic "kalloc" else
    kvmmap kpgtbl (KSTACK p) pa PGSIZE (Z.lor PTE_R PTE_W)).

Definition kvmmake : M machine Z :=
  let! kpgtbl := kalloc in
  do! memset kpgtbl 0 PGSIZE in
  do! kvmmap kpgtbl UART0 UART0 PGSIZE (Z.lor PTE_R PTE_W) in
  do! kvmmap kpgtbl VIRTIO0 VIRTIO0 PGSIZE (Z.lor PTE_R PTE_W) in
  do! kvmmap kpgtbl PLIC PLIC 0x400000 (Z.lor PTE_R PTE_W) in
  do! kvmmap kpgtbl KERNBASE KERNBASE (etext - KERNBASE) (Z.lor PTE_R PTE_X) in
  do! kvmmap kpgtbl etext etext (PHYSTOP - etext) (Z.lor PTE_R PTE_W) in
  do! kvmmap kpgtbl TRAMPOLINE trampoline PGSIZE (Z.lor PTE_R PTE_X) in
  do! proc_mapstacks kpgtbl in
  ret kpgtbl.
End vm.
