(* ===== verification/PageTable.v ===== *)
(** * Page tables as trees

    The byte memory of an Sv39 page table is described by the tree of its
    pages: the root, the second-level tables by root index, and the last
    level by the pair of indices. [pt_ok m T] says that the memory [m] holds
    the tree [T]; [pte_at m T va] is the entry that maps [va]. [walk] is
    proved to return the address of that entry, growing the tree where it
    may, and every store through it changes one entry only. The proofs use
    what the page allocator promises ([PageAllocator]), not its code. *)

From S2P Require Import Prelude Riscv Memory Machine Spinlock Kalloc Vm.

Record ptree := mk_ptree {
  pt_root : Z;
  pt_l1 : gmap Z Z;          (* second-level tables, by PX(2, va) *)
  pt_l0 : gmap (Z * Z) Z     (* last-level tables, by PX(2, va), PX(1, va) *)
}.

Definition pt_page (T : ptree) (p : Z) : Prop :=
  p = pt_root T \/ (exists i, pt_l1 T !! i = Some p) \/ (exists ij, pt_l0 T !! ij = Some p).

(** Entry [k] of the table at [p]. *)
Definition ent (m : memory) (p k : Z) : Z := load64 m (p + 8 * k).
(** An inner entry points to the table below it, or is zero. *)
Definition inner (o : option Z) : Z := match o with Some q => Z.lor (PA2PTE q) PTE_V | None => 0 end.

Definition idx (i : Z) : Prop := 0 <= i < 512.

Section tree.
Context {KI : KernelImage}.

Record pt_ok (m : memory) (T : ptree) : Prop := mk_pt_ok {
  po_page p : pt_page T p -> kpage p;
  po_root1 i : pt_l1 T !! i <> Some (pt_root T);
  po_root0 ij : pt_l0 T !! ij <> Some (pt_root T);
  po_10 i ij q : pt_l1 T !! i = Some q -> pt_l0 T !! ij <> Some q;
  po_inj1 i i' q : pt_l1 T !! i = Some q -> pt_l1 T !! i' = Some q -> i = i';
  po_inj0 ij ij' q : pt_l0 T !! ij = Some q -> pt_l0 T !! ij' = Some q -> ij = ij';
  po_dom1 i q : pt_l1 T !! i = Some q -> idx i;
  po_dom0 i j q : pt_l0 T !! (i, j) = Some q -> is_Some (pt_l1 T !! i) /\ idx j;
  po_ent2 i : idx i -> ent m (pt_root T) i = inner (pt_l1 T !! i);
  po_ent1 i q j : pt_l1 T !! i = Some q -> idx j -> ent m q j = inner (pt_l0 T !! (i, j))
}.

(** The address of the entry that maps [va], and the entry. *)
Definition pt_slot (T : ptree) (va : Z) : option Z :=
  (fun q => q + 8 * PX 0 va) <$> pt_l0 T !! (PX 2 va, PX 1 va).
Definition pte_at (m : memory) (T : ptree) (va : Z) : Z :=
  match pt_l0 T !! (PX 2 va, PX 1 va) with Some q => ent m q (PX 0 va) | None => 0 end.

(** ** Entries in memory *)

Lemma slot_in_page p k a : idx k -> p + 8 * k <= a < p + 8 * k + 8 -> in_page p a.
Proof. unfold idx, in_page, PGSIZE. lia. Qed.

Lemma ent_ext m m' p k :
  idx k -> (forall a, in_page p a -> mget m' a = mget m a) -> ent m' p k = ent m p k.
Proof. intros Hk H. apply load_le_ext. intros a Ha. apply H. eapply slot_in_page; [done|lia]. Qed.

Lemma ent_store_eq m p k v : ent (store64 m (p + 8 * k) v) p k = u64 v.
Proof. apply load_store64. Qed.

Lemma ent_store_ne m p k v q j :
  kpage p -> kpage q -> idx k -> idx j -> (p, k) <> (q, j) ->
  ent (store64 m (p + 8 * k) v) q j = ent m q j.
Proof.
  intros [Hp _] [Hq _] Hk Hj Hne. apply load_store64_ne. unfold page_aligned, idx, PGSIZE in *.
  destruct (decide (p = q)) as [->|]; [|dlia]. assert (k <> j) by congruence. lia.
Qed.

Lemma ent_fill0 m p k : idx k -> ent (mem_fill m p (Z.to_nat PGSIZE) 0) p k = 0.
Proof. intros Hk. apply load_le_fill0; unfold idx, PGSIZE in *; lia. Qed.

Lemma ent_fill_ne m p c q k :
  kpage p -> kpage q -> p <> q -> idx k ->
  ent (mem_fill m p (Z.to_nat PGSIZE) c) q k = ent m q k.
Proof.
  intros Hp Hq Hne Hk. apply ent_ext; [done|]. intros a Ha. rewrite mget_fill, decide_False; [done|].
  intros Ha'. apply Hne. by eapply kpage_disj.
Qed.

Lemma kpage_pa p : kpage p -> 0 <= p < 2 ^ 56 /\ page_aligned p.
Proof.
  intros Hp. destruct (kpage_bounds p Hp) as (?&?&?). destruct Hp. split; [|done].
  unfold PHYSTOP, KERNBASE, PGSIZE in *. lia.
Qed.

Lemma inner_some p : kpage p ->
  bit (inner (Some p)) PTE_V = true /\ PTE2PA (inner (Some p)) = p /\
  u64 (Z.lor (PA2PTE p) PTE_V) = inner (Some p) /\ PTE_FLAGS (inner (Some p)) = PTE_V.
Proof.
  intros [Hp Ha]%kpage_pa. unfold inner. split_and!.
  - unfold bit. rewrite <- (land_PTE_FLAGS _ PTE_V), PTE_FLAGS_mk by done. done.
  - by apply PTE2PA_mk.
  - by apply u64_small, mk_pte_range.
  - by apply PTE_FLAGS_mk.
Qed.

(** ** The entry of an address *)

Lemma PX_idx level va : 0 <= level -> idx (PX level va).
Proof. apply PX_range. Qed.
#[local] Hint Extern 1 (idx (PX _ _)) => (apply PX_idx; lia) : core.

(** Two addresses have the same entry exactly when they are on one page. *)
Definition same_page (va va' : Z) : Prop := va / PGSIZE = va' / PGSIZE.
#[export] Instance same_page_dec va va' : Decision (same_page va va').
Proof. unfold same_page. apply _. Defined.

Lemma same_page_PX va va' :
  0 <= va < MAXVA -> 0 <= va' < MAXVA ->
  same_page va va' <-> (PX 2 va, PX 1 va) = (PX 2 va', PX 1 va') /\ PX 0 va = PX 0 va'.
Proof.
  intros Hva Hva'. split.
  - unfold same_page. intros E. rewrite !PX_eq by lia. unfold PGSIZE in E.
    assert (H : forall n, 0 <= n -> va / 2 ^ (12 + n) = va' / 2 ^ (12 + n)).
    { intros n Hn. rewrite Z.pow_add_r by lia. change (2 ^ 12) with 4096.
      rewrite <- !Z.div_div by lia. by rewrite E. }
    rewrite !H by lia. done.
  - intros [[= E2 E1] E0]. pose proof (PX_split va Hva). pose proof (PX_split va' Hva').
    unfold same_page. unfold PGSIZE in *. rewrite E2, E1, E0 in *. dlia.
Qed.

Lemma same_page_aligned va va' :
  page_aligned va -> page_aligned va' -> same_page va va' <-> va = va'.
Proof.
  unfold same_page, page_aligned. intros H1 H2. split; [|by intros ->]. intros E.
  rewrite (Z.div_mod va PGSIZE), (Z.div_mod va' PGSIZE) by done. lia.
Qed.

Lemma pte_at_page m T va va' :
  0 <= va < MAXVA -> 0 <= va' < MAXVA -> same_page va va' -> pte_at m T va = pte_at m T va'.
Proof. intros H1 H2 [E1 E0]%same_page_PX; [|done..]. unfold pte_at. by rewrite E1, E0. Qed.

Lemma pt_slot_ent m T va a : pt_slot T va = Some a -> pte_at m T va = load64 m a.
Proof. unfold pt_slot, pte_at. intros (q & -> & ->)%fmap_Some. done. Qed.

Lemma pt_slot_page m T va a :
  pt_ok m T -> pt_slot T va = Some a ->
  exists q, kpage q /\ a = q + 8 * PX 0 va /\ pt_l0 T !! (PX 2 va, PX 1 va) = Some q /\
    KERNBASE <= a /\ a + 8 <= PHYSTOP /\ a <> 0.
Proof.
  intros Hok (q & Hq & ->)%fmap_Some. assert (Hk : kpage q).
  { apply (po_page _ _ Hok). right; right; eauto. }
  exists q. destruct (kpage_bounds q Hk) as (?&?&?). pose proof (PX_range 0 va).
  unfold PHYSTOP, KERNBASE, PGSIZE in *. split_and!; [done..|lia|lia|lia].
Qed.

(** ** Changes of memory and of the tree *)

(** Memory that agrees on the pages of the tree holds the same tree. *)
Lemma pt_ok_ext m m' T :
  pt_ok m T -> (forall p a, pt_page T p -> in_page p a -> mget m' a = mget m a) ->
  pt_ok m' T /\ forall va, pte_at m' T va = pte_at m T va.
Proof.
  intros Hok Hm. assert (He : forall p k, pt_page T p -> idx k -> ent m' p k = ent m p k).
  { intros p k Hp Hk. apply ent_ext; [done|]. eauto. }
  split.
  - destruct Hok. split; try done.
    + intros i Hi. rewrite He; [auto|by left|done].
    + intros i q j Hq Hj. rewrite He; [eauto|right; left; eauto|done].
  - intros va. unfold pte_at. destruct (pt_l0 T !! _) as [q|] eqn:E; [|done].
    apply He; [right; right; eauto|auto].
Qed.

(** Storing an entry of the last level. *)
Lemma pt_ok_set m T va a v :
  pt_ok m T -> pt_slot T va = Some a -> 0 <= va < MAXVA ->
  pt_ok (store64 m a v) T /\
  forall va', 0 <= va' < MAXVA ->
    pte_at (store64 m a v) T va' = if decide (same_page va va') then u64 v else pte_at m T va'.
Proof.
  intros Hok Hs Hva. destruct (pt_slot_page _ _ _ _ Hok Hs) as (q & Hq & -> & Hl & _).
  pose proof (PX_idx 0 va ltac:(lia)) as H0.
  split.
  - pose proof Hok as [Hp ? ? ? ? ? ? ? ? ?]. split; try done.
    + intros i Hi. rewrite ent_store_ne; [auto|done|apply Hp; by left|done|done|]. congruence.
    + intros i q' j Hq' Hj. rewrite ent_store_ne; [eauto|done|apply Hp; right; left; eauto|done|done|].
      intros [= -> _]. naive_solver.
  - intros va' Hva'. unfold pte_at. case_decide as Hsp.
    + apply same_page_PX in Hsp as [E1 E0]; [|done..]. rewrite <- E1, <- E0, Hl.
      apply ent_store_eq.
    + destruct (pt_l0 T !! (PX 2 va', PX 1 va')) as [q'|] eqn:E; [|done].
      apply ent_store_ne; [done|apply (po_page _ _ Hok); right; right; eauto|auto|auto|].
      intros [= <- E0]. apply Hsp, same_page_PX; [done..|]. split; [|done].
      by eapply (po_inj0 _ _ Hok).
Qed.

(** *** Growing the tree by one table *)

Definition grow1 (i q : Z) (T : ptree) : ptree := mk_ptree (pt_root T) (<[i := q]> (pt_l1 T)) (pt_l0 T).
Definition grow0 (i j q : Z) (T : ptree) : ptree :=
  mk_ptree (pt_root T) (pt_l1 T) (<[(i, j) := q]> (pt_l0 T)).

Lemma pt_page_grow1 i q T p : pt_l1 T !! i = None -> pt_page (grow1 i q T) p <-> p = q \/ pt_page T p.
Proof.
  intros Hn. unfold pt_page, grow1. simpl. split.
  - intros [?|[[k Hk]|?]]; [auto| |auto]. apply lookup_insert_Some in Hk. naive_solver.
  - intros [->|[?|[[k Hk]|?]]]; [|auto| |auto].
    + right; left. exists i. by rewrite lookup_insert_eq.
    + right; left. exists k. rewrite lookup_insert_ne; [done|]. congruence.
Qed.
Lemma pt_page_grow0 i j q T p :
  pt_l0 T !! (i, j) = None -> pt_page (grow0 i j q T) p <-> p = q \/ pt_page T p.
Proof.
  intros Hn. unfold pt_page, grow0. simpl. split.
  - intros [?|[?|[k Hk]]]; [auto|auto|]. apply lookup_insert_Some in Hk. naive_solver.
  - intros [->|[?|[?|[k Hk]]]]; [|auto|auto|].
    + right; right. exists (i, j). by rewrite lookup_insert_eq.
    + right; right. exists k. rewrite lookup_insert_ne; [done|]. congruence.
Qed.

(** The memory after a new, zeroed table [q] is hung at entry [k] of [p]. *)
Definition hang (m : memory) (p k q : Z) : memory :=
  store64 (mem_fill m q (Z.to_nat PGSIZE) 0) (p + 8 * k) (Z.lor (PA2PTE q) PTE_V).

Lemma ent_hang m p k q r j :
  kpage p -> kpage q -> kpage r -> p <> q -> idx k -> idx j ->
  ent (hang m p k q) r j =
  if decide ((r, j) = (p, k)) then inner (Some q) else if decide (r = q) then 0 else ent m r j.
Proof.
  intros Hp Hq Hr Hne Hk Hj. unfold hang. case_decide as E1.
  - injection E1 as -> ->. rewrite ent_store_eq. by apply inner_some.
  - rewrite ent_store_ne; [|done..|congruence]. case_decide as E2.
    + subst. by apply ent_fill0.
    + by apply ent_fill_ne.
Qed.

Lemma mget_hang m p k q a :
  idx k -> ~ in_page p a -> ~ in_page q a -> mget (hang m p k q) a = mget m a.
Proof.
  intros Hk Hp Hq. unfold hang. rewrite mget_store64_ne, mget_fill, decide_False; [done| |].
  - by unfold in_page in Hq.
  - intros Ha. apply Hp. by eapply slot_in_page.
Qed.

Lemma pt_ok_grow1 m T i q :
  pt_ok m T -> idx i -> pt_l1 T !! i = None -> kpage q -> ~ pt_page T q ->
  pt_ok (hang m (pt_root T) i q) (grow1 i q T) /\
  forall va, pte_at (hang m (pt_root T) i q) (grow1 i q T) va = pte_at m T va.
Proof.
  intros Hok Hi Hn Hq Hnew. pose proof Hok as [Hp Hr1 Hr0 H10 Hi1 Hi0 Hd1 Hd0 He2 He1].
  assert (Hroot : kpage (pt_root T)) by (apply Hp; by left).
  assert (Hqr : pt_root T <> q) by (intros E; apply Hnew; by left).
  assert (Hq1 : forall k, pt_l1 T !! k <> Some q) by (intros k E; apply Hnew; right; left; eauto).
  assert (Hq0 : forall k, pt_l0 T !! k <> Some q) by (intros k E; apply Hnew; right; right; eauto).
  assert (Hl0 : forall j, pt_l0 T !! (i, j) = None).
  { intros j. destruct (pt_l0 T !! (i, j)) eqn:E; [|done]. apply Hd0 in E as [[? ?] _]. congruence. }
  split; [split|]; simpl.
  - intros p [->|?]%pt_page_grow1; auto.
  - intros k [[_ ?]|[_ ?]]%lookup_insert_Some; naive_solver.
  - done.
  - intros k kj r [[_ <-]|[_ ?]]%lookup_insert_Some; naive_solver.
  - intros k k' r [[<- <-]|[Hne H1]]%lookup_insert_Some [[<- ?]|[Hne' H2]]%lookup_insert_Some;
      subst; naive_solver.
  - done.
  - intros k r [[<- _]|[_ ?]]%lookup_insert_Some; eauto.
  - intros k j r H. destruct (Hd0 k j r H) as [[? ?] ?]. split; [|done].
    rewrite lookup_insert_ne; [eauto|]. congruence.
  - intros k Hk. rewrite ent_hang by done. rewrite lookup_insert. case_decide as E1.
    + injection E1 as ->. by rewrite decide_True.
    + rewrite (decide_False (P := i = k)) by congruence. rewrite decide_False by done. auto.
  - intros k r j Hr Hj. assert (Hkr : kpage r).
    { apply lookup_insert_Some in Hr as [[_ <-]|[_ ?]]; [done|]. apply Hp. right; left; eauto. }
    rewrite ent_hang by done. rewrite decide_False.
    2: { intros [= -> ->]. apply lookup_insert_Some in Hr as [[_ ?]|[_ ?]]; naive_solver. }
    apply lookup_insert_Some in Hr as [[<- <-]|[Hne Hr]].
    + rewrite decide_True by done. by rewrite Hl0.
    + rewrite decide_False by (intros ->; naive_solver). eauto.
  - intros va. unfold pte_at. simpl. destruct (pt_l0 T !! _) as [r|] eqn:E; [|done].
    rewrite ent_hang; auto; [|apply Hp; right; right; eauto].
    rewrite decide_False by (intros [= -> ?]; naive_solver).
    rewrite decide_False by (intros ->; naive_solver). done.
Qed.

Lemma pt_ok_grow0 m T i j p q :
  pt_ok m T -> idx j -> pt_l1 T !! i = Some p -> pt_l0 T !! (i, j) = None -> kpage q -> ~ pt_page T q ->
  pt_ok (hang m p j q) (grow0 i j q T) /\
  forall va, pte_at (hang m p j q) (grow0 i j q T) va = pte_at m T va.
Proof.
  intros Hok Hj Hp1 Hn Hq Hnew. pose proof Hok as [Hp Hr1 Hr0 H10 Hi1 Hi0 Hd1 Hd0 He2 He1].
  assert (Hroot : kpage (pt_root T)) by (apply Hp; by left).
  assert (Hkp : kpage p) by (apply Hp; right; left; eauto).
  assert (Hqr : pt_root T <> q) by (intros E; apply Hnew; by left).
  assert (Hq1 : forall k, pt_l1 T !! k <> Some q) by (intros k E; apply Hnew; right; left; eauto).
  assert (Hq0 : forall k, pt_l0 T !! k <> Some q) by (intros k E; apply Hnew; right; right; eauto).
  assert (Hpq : p <> q) by (intros ->; naive_solver).
  split; [split|]; simpl.
  - intros r [->|?]%pt_page_grow0; auto.
  - done.
  - intros k [[_ ?]|[_ ?]]%lookup_insert_Some; naive_solver.
  - intros k kj r H [[_ <-]|[_ ?]]%lookup_insert_Some; naive_solver.
  - done.
  - intros k k' r [[<- <-]|[Hne H1]]%lookup_insert_Some [[<- ?]|[Hne' H2]]%lookup_insert_Some;
      subst; naive_solver.
  - done.
  - intros k k' r [[[= <- <-] _]|[_ ?]]%lookup_insert_Some; eauto.
  - intros k Hk. rewrite ent_hang by done.
    rewrite decide_False by congruence. rewrite decide_False by done. auto.
  - intros k r j' Hr Hj'. assert (Hkr : kpage r) by (apply Hp; right; left; eauto).
    rewrite ent_hang by done. rewrite lookup_insert. case_decide as E1.
    + injection E1 as -> ->. assert (k = i) as -> by eauto. by rewrite decide_True.
    + rewrite (decide_False (P := r = q)) by (intros ->; naive_solver).
      rewrite decide_False; [eauto|]. intros [= <- <-]. congruence.
  - intros va. unfold pte_at. simpl. rewrite lookup_insert. case_decide as E1.
    + rewrite <- E1, Hn. rewrite ent_hang; auto.
      rewrite decide_False by (intros [= <- _]; naive_solver). by rewrite decide_True.
    + destruct (pt_l0 T !! (PX 2 va, PX 1 va)) as [r|] eqn:E; [|done].
      rewrite ent_hang; auto; [|apply Hp; right; right; eauto].
      rewrite decide_False by (intros [= -> ?]; naive_solver).
      rewrite decide_False by (intros ->; naive_solver). done.
Qed.
End tree.
#[export] Hint Extern 1 (idx (PX _ _)) => (apply PX_idx; lia) : core.
#[global] Opaque hang.
