(* ===== verification/VmWalk.v ===== *)
(** * Walking and editing a page table

    [walk] with and without allocation, and the one-page effects of
    [mappages], [uvmunmap] and [walkaddr], on machines that hold a page-table
    tree ([PageTable]) and an allocator that keeps its promise
    ([PageAllocator] of [Kalloc]). *)

From S2P Require Import Prelude Riscv Memory Machine Spinlock Kalloc Vm PageTable.

Section walk.
Context {KI : KernelImage} {inv : machine -> list Z -> Prop} {PA : PageAllocator kalloc kfree inv}.

(** The machine holds the tree, and owns each of its pages. *)
Definition vm_ok (s : machine) (T : ptree) : Prop :=
  pt_ok (mem s) T /\ forall p, pt_page T p -> refs s p = 1.

Lemma vm_ok_kpage s T p : vm_ok s T -> pt_page T p -> kpage p.
Proof. intros [Hok _]. apply Hok. Qed.

Lemma vm_ok_not_free s l T p : inv s l -> vm_ok s T -> pt_page T p -> p ∉ l.
Proof using PA.
  intros Hi [_ Hr] Hp Hin. destruct (alloc_inv_pages (PageAllocator := PA) s l Hi) as [_ H].
  destruct (H p Hin) as [_ H0]. specialize (Hr p Hp). lia.
Qed.

(** Changes away from the pages of the tree. *)
Lemma vm_ok_frame s s' T :
  vm_ok s T -> (forall p, pt_page T p -> refs s' p = refs s p) ->
  (forall p a, pt_page T p -> in_page p a -> mget (mem s') a = mget (mem s) a) ->
  vm_ok s' T /\ forall va, pte_at (mem s') T va = pte_at (mem s) T va.
Proof.
  intros [Hok Hr] Hr' Hm. destruct (pt_ok_ext _ (mem s') _ Hok Hm) as [Hok' He].
  split; [split; [done|]|done]. intros p Hp. by rewrite Hr'; auto.
Qed.

Lemma wp_slot_ld s T va a (Q : Z -> machine -> Prop) :
  vm_ok s T -> pt_slot T va = Some a -> Q (pte_at (mem s) T va) s -> wp (ld64 a) Q s.
Proof.
  intros [Hok _] Hs HQ. destruct (pt_slot_page _ _ _ _ Hok Hs) as (q & ? & ? & ? & ? & ? & _).
  apply wp_ld64; [done|done|]. by rewrite <- (pt_slot_ent _ T va a).
Qed.

Lemma ent_addr p k : kpage p -> idx k -> KERNBASE <= p + 8 * k /\ p + 8 * k + 8 <= PHYSTOP.
Proof. intros (?&?&?)%kpage_bounds Hk. unfold idx, PGSIZE in *. lia. Qed.

Lemma ld64_ent s p k : kpage p -> idx k -> ld64 (p + 8 * k) s = Ret (ent (mem s) p k) s.
Proof. intros Hp Hk. destruct (ent_addr p k Hp Hk). unfold ld64. by rewrite in_ram_true. Qed.

Lemma inner_none_bit : bit (inner None) PTE_V = false.
Proof. done. Qed.

(** ** Lookup *)

(** [walk] without allocation finds the slot, or returns null when a table
    on the way is missing, and changes nothing. *)
Lemma walk_lookup s T va :
  vm_ok s T -> 0 <= va < MAXVA -> walk (pt_root T) va false s = Ret (default 0 (pt_slot T va)) s.
Proof.
  intros [Hok _] Hva. unfold walk. destruct (Z.leb_spec MAXVA va); [lia|]. cbn [walk_levels].
  unfold bind at 1. rewrite ld64_ent; [|apply (po_page _ _ Hok); by left|auto]. simpl.
  rewrite (po_ent2 _ _ Hok) by auto. unfold pt_slot.
  destruct (pt_l1 T !! PX 2 va) as [p|] eqn:E1.
  2: { rewrite inner_none_bit. simpl. destruct (pt_l0 T !! _) eqn:E0; [|done].
       apply (po_dom0 _ _ Hok) in E0 as [[? ?] _]. congruence. }
  assert (Hp : kpage p) by (apply (po_page _ _ Hok); right; left; eauto).
  destruct (inner_some p Hp) as (-> & -> & _).
  unfold bind at 1. rewrite ld64_ent by auto. simpl. rewrite (po_ent1 _ _ Hok _ _ _ E1) by auto.
  destruct (pt_l0 T !! _) as [q|] eqn:E0; [|done].
  assert (Hq : kpage q) by (apply (po_page _ _ Hok); right; right; eauto).
  by destruct (inner_some q Hq) as (-> & -> & _).
Qed.

(** ** Growth *)

(** [T'] extends [T] with pages taken from the allocator, and nothing but the
    pages of [T'] changed. *)
Record grows (s : machine) (l : list Z) (T : ptree) (s' : machine) (l' : list Z) (T' : ptree) : Prop := {
  gr_inv : inv s' l';
  gr_hart : hart_eq s s';
  gr_ok : vm_ok s' T';
  gr_root : pt_root T' = pt_root T;
  gr_sub1 : pt_l1 T ⊆ pt_l1 T';
  gr_sub0 : pt_l0 T ⊆ pt_l0 T';
  gr_pages p : pt_page T' p -> pt_page T p \/ p ∈ l /\ p ∉ l';
  gr_free : exists k, l = k ++ l';
  gr_none q : q ∈ l -> q ∈ l' \/ pt_page T' q;
  gr_mem a : (forall p, pt_page T' p -> ~ in_page p a) -> mget (mem s') a = mget (mem s) a;
  gr_refs q : kpage q -> (q ∈ l -> q ∈ l') -> refs s' q = refs s q
}.
(** The same mappings. *)
Definition same_ptes (s : machine) (T : ptree) (s' : machine) (T' : ptree) : Prop :=
  forall va, pte_at (mem s') T' va = pte_at (mem s) T va.

Lemma pt_page_sub T T' p :
  pt_root T' = pt_root T -> pt_l1 T ⊆ pt_l1 T' -> pt_l0 T ⊆ pt_l0 T' -> pt_page T p -> pt_page T' p.
Proof.
  intros Hr H1 H0 [->|[[i Hi]|[ij Hi]]].
  - by left.
  - right; left. exists i. by eapply lookup_weaken.
  - right; right. exists ij. by eapply lookup_weaken.
Qed.

Lemma grows_refl s l T : inv s l -> vm_ok s T -> grows s l T s l T.
Proof using PA. intros. split; auto; try done. by exists []. Qed.

Lemma grows_trans s1 l1 T1 s2 l2 T2 s3 l3 T3 :
  NoDup l1 -> grows s1 l1 T1 s2 l2 T2 -> grows s2 l2 T2 s3 l3 T3 -> grows s1 l1 T1 s3 l3 T3.
Proof using PA.
  intros Hnd [? ? Hk2 ? ? ? Hp2 [k2 E2] Hn2 Hm2 Hr2] [? ? ? Hroot ? ? Hp3 [k3 E3] Hn3 Hm3 Hr3].
  assert (H32 : forall q, q ∈ l3 -> q ∈ l2) by (rewrite E3; set_solver).
  assert (H21 : forall q, q ∈ l2 -> q ∈ l1) by (rewrite E2; set_solver).
  split; try done.
  - by transitivity s2.
  - congruence.
  - by etrans.
  - by etrans.
  - intros p Hp. destruct (Hp3 p Hp) as [Hp'|[? ?]]; [|set_solver].
    destruct (Hp2 p Hp') as [?|[? ?]]; [by left|]. right. split; [done|]. auto.
  - exists (k2 ++ k3). by rewrite E2, E3, app_assoc.
  - intros q Hq. destruct (Hn2 q Hq) as [?|?]; [auto|]. right.
    eapply pt_page_sub; [| | |done]; done.
  - intros a Ha. rewrite Hm3 by done. apply Hm2. intros p Hp. apply Ha.
    eapply pt_page_sub; [| | |done]; done.
  - intros q Hq Hin. rewrite Hr3, Hr2; auto.
Qed.

(** The allocation branch of [walk] at entry [k] of the table [p]. *)
Lemma alloc_table {A} s l q p k T (F : M machine A) (K : Z -> M machine A) :
  inv s (q :: l) -> ready s LkKmem -> vm_ok s T -> pt_page T p -> idx k ->
  exists s' m1,
    bind kalloc (fun pg => if pg =? 0 then F else
      do! memset pg 0 PGSIZE in
      do! st64 (p + 8 * k) (Z.lor (PA2PTE pg) PTE_V) in K pg) s = K q s' /\
    inv s' l /\ hart_eq s s' /\ kpage q /\ ~ pt_page T q /\ refs s' q = 1 /\
    (forall r, kpage r -> r <> q -> refs s' r = refs s r) /\
    mem s' ≡ₘ hang m1 p k q /\ (forall a, ~ in_page q a -> mget m1 a = mget (mem s) a).
Proof using PA.
  intros Hi Hr Hvm Hp Hk. destruct (alloc_inv_pages (PageAllocator := PA) _ _ Hi) as [Hnd Hl].
  destruct (Hl q) as [Hq _]; [left|].
  assert (Hqp : ~ pt_page T q) by (intros HT; eapply vm_ok_not_free; [exact Hi|done|done|left]).
  destruct (alloc_page (PageAllocator := PA) s q l Hi Hr) as (s1 & E1 & Hi1 & (Hh1 & Hm1 & Hr1) & H1).
  destruct (kpage_bounds q Hq) as (Hb1 & Hb2 & Hb3).
  assert (Hkp : kpage p) by (by eapply vm_ok_kpage).
  destruct (ent_addr p k Hkp Hk) as [Ha1 Ha2].
  exists (set_mem (fun m => hang m p k q) s1), (mem s1). split_and!; try done.
  - unfold bind at 1. rewrite E1. simpl. destruct (Z.eqb_spec q 0); [done|].
    unfold bind, memset. rewrite in_ram_true, orb_true_r by done. simpl.
    unfold st64. rewrite in_ram_true by done. reflexivity.
  - eapply (alloc_frame (PageAllocator := PA)); [exact Hi1|done| |done].
    intros r a Hrl Ha.
    assert (Hnp : p ∉ l).
    { eapply not_elem_of_cons. eapply (vm_ok_not_free s); [exact Hi|done|done]. }
    assert (Hqr : r <> q) by (intros ->; by inversion Hnd).
    assert (Hkr : kpage r) by (apply Hl; by right).
    apply mget_hang; [done| |].
    + intros Hap. apply Hnp. by rewrite (kpage_disj p r a).
    + intros Haq. apply Hqr. by eapply kpage_disj.
Qed.

(** Hanging a fresh table extends the tree. *)
Lemma grows_hang s l q T s' m1 p k T' :
  inv s (q :: l) -> vm_ok s T -> kpage q -> ~ pt_page T q ->
  inv s' l -> hart_eq s s' -> refs s' q = 1 ->
  (forall r, kpage r -> r <> q -> refs s' r = refs s r) ->
  mem s' ≡ₘ hang m1 p k q -> (forall a, ~ in_page q a -> mget m1 a = mget (mem s) a) ->
  pt_page T p -> idx k ->
  pt_ok (mem s') T' -> (forall va, pte_at (mem s') T' va = pte_at m1 T va) ->
  pt_root T' = pt_root T -> pt_l1 T ⊆ pt_l1 T' -> pt_l0 T ⊆ pt_l0 T' ->
  (forall r, pt_page T' r <-> r = q \/ pt_page T r) ->
  grows s (q :: l) T s' l T' /\ same_ptes s T s' T'.
Proof using PA.
  intros Hi Hvm Hq Hnew Hi' Hh Hrq Hr Hm Hm1 Hp Hk Hok' Hpte Hroot Hs1 Hs0 Hpg.
  destruct (alloc_inv_pages (PageAllocator := PA) _ _ Hi) as [Hnd _].
  assert (Hin : forall r a, pt_page T r -> in_page r a -> mget m1 a = mget (mem s) a).
  { intros r a Hr' Ha. apply Hm1. intros Haq. apply Hnew.
    rewrite (kpage_disj q r a); [done..|by eapply vm_ok_kpage|done|done]. }
  split.
  2: { intros va. rewrite Hpte. by apply pt_ok_ext; [apply Hvm|]. }
  split; try assumption.
  - split; [done|]. intros r [->|HT]%Hpg; [done|]. rewrite Hr.
    + by apply Hvm.
    + by eapply vm_ok_kpage.
    + by intros ->.
  - intros r [->|?]%Hpg; [|by left]. right. split; [left|]. by inversion Hnd.
  - by exists [q].
  - intros r [->|?]%elem_of_cons; [right|by left]. apply Hpg. by left.
  - intros a Ha. assert (Haq : ~ in_page q a) by (apply Ha, Hpg; by left).
    rewrite (Hm a), mget_hang; [by apply Hm1|done|apply Ha, Hpg; by right|done].
  - intros r Hkr Hl. apply Hr; [done|]. intros ->. inversion Hnd. apply H1, Hl. left.
Qed.

(** ** [walk] with allocation *)

Lemma pt_ok_m1 s T m1 q :
  vm_ok s T -> kpage q -> ~ pt_page T q ->
  (forall a, ~ in_page q a -> mget m1 a = mget (mem s) a) -> pt_ok m1 T.
Proof.
  intros Hvm Hq Hnew Hm1. apply (pt_ok_ext (mem s)); [apply Hvm|].
  intros r a Hr Ha. apply Hm1. intros Haq. apply Hnew.
  rewrite (kpage_disj q r a); [done..|by eapply vm_ok_kpage|done|done].
Qed.

Lemma grows_none s T s' :
  inv s' [] -> vm_ok s T -> hart_eq s s' -> mem s' = mem s -> count s' = count s ->
  grows s [] T s' [] T /\ same_ptes s T s' T.
Proof using PA.
  intros Hi Hvm Hh Hm Hc. assert (Hr : forall q, refs s' q = refs s q) by (intros; unfold refs; by rewrite Hc).
  split; [|by intros va; rewrite Hm]. split; try done; try (by intros; rewrite Hm); auto.
  - split; [rewrite Hm; apply Hvm|]. intros p Hp. rewrite Hr. by apply Hvm.
  - by exists [].
Qed.

(** The result of a walk that may allocate: the slot in the grown tree, or
    null when the allocator ran out. *)
Definition walked (T' : ptree) (l' : list Z) (va r : Z) : Prop :=
  (r = 0 /\ l' = []) \/ (r <> 0 /\ pt_slot T' va = Some r).

Lemma walked_slot m T l va q :
  pt_ok m T -> pt_l0 T !! (PX 2 va, PX 1 va) = Some q -> walked T l va (q + 8 * PX 0 va).
Proof.
  intros Hok Hq. right. assert (Hs : pt_slot T va = Some (q + 8 * PX 0 va)).
  { unfold pt_slot. by rewrite Hq. }
  destruct (pt_slot_page _ _ _ _ Hok Hs) as (? & _ & _ & _ & _ & _ & ?). done.
Qed.

Lemma walk1_alloc s l T va p :
  inv s l -> ready s LkKmem -> vm_ok s T -> pt_l1 T !! PX 2 va = Some p ->
  exists r s' l' T', walk_levels [1] p va true s = Ret r s' /\ grows s l T s' l' T' /\
    same_ptes s T s' T' /\ walked T' l' va r.
Proof using PA.
  intros Hi Hr Hvm E1. pose proof Hvm as [Hok _]. cbn [walk_levels].
  assert (Hpp : pt_page T p) by (right; left; eauto).
  unfold bind at 1. rewrite ld64_ent; [|by eapply vm_ok_kpage|auto]. simpl.
  rewrite (po_ent1 _ _ Hok _ _ _ E1) by auto.
  destruct (pt_l0 T !! (PX 2 va, PX 1 va)) as [q|] eqn:E0.
  - assert (Hq : kpage q) by (eapply vm_ok_kpage; [done|right; right; eauto]).
    destruct (inner_some q Hq) as (-> & -> & _). do 4 eexists. split; [done|].
    split_and!; [by apply grows_refl|done|]. by eapply walked_slot.
  - rewrite inner_none_bit. simpl. destruct l as [|q l].
    + destruct (alloc_none (PageAllocator := PA) s Hi Hr) as (s1 & E & Hi1 & Hh & Hm & Hc).
      unfold bind. rewrite E. simpl. do 4 eexists. split; [done|].
      apply and_assoc. split; [by apply grows_none|by left].
    + destruct (alloc_table s l q p (PX 1 va) T (ret 0) (fun pg => ret (pg + 8 * PX 0 va)))
        as (s1 & m1 & -> & Hi1 & Hh & Hq & Hnew & Hrq & Hrr & Hm & Hm1); [done..|auto|].
      destruct (pt_ok_grow0 m1 T (PX 2 va) (PX 1 va) p q) as [Hok1 Hpte1]; auto.
      { by eapply pt_ok_m1. }
      destruct (pt_ok_ext _ (mem s1) _ Hok1) as [Hok2 Hpte2]; [intros; apply Hm|].
      do 4 eexists. split; [done|]. apply and_assoc. split.
      * eapply (grows_hang s l q T s1 m1 p (PX 1 va) (grow0 (PX 2 va) (PX 1 va) q T)); try done; auto.
        -- intros va'. by rewrite Hpte2.
        -- by apply insert_subseteq.
        -- intros r. by apply pt_page_grow0.
      * eapply walked_slot; [done|]. apply lookup_insert_eq.
Qed.

Lemma walk_levels_cons level rest pagetable va alloc :
  walk_levels (level :: rest) pagetable va alloc =
  let! v := ld64 (pagetable + 8 * PX level va) in
  if bit v PTE_V then walk_levels rest (PTE2PA v) va alloc
  else if negb alloc then ret 0
  else
    let! pg := kalloc in
    if pg =? 0 then ret 0 else
    do! memset pg 0 PGSIZE in
    do! st64 (pagetable + 8 * PX level va) (Z.lor (PA2PTE pg) PTE_V) in
    walk_levels rest pg va alloc.
Proof. done. Qed.

Lemma walk_alloc s l T va :
  inv s l -> ready s LkKmem -> vm_ok s T -> 0 <= va < MAXVA ->
  exists r s' l' T', walk (pt_root T) va true s = Ret r s' /\ grows s l T s' l' T' /\
    same_ptes s T s' T' /\ walked T' l' va r.
Proof using PA.
  intros Hi Hr Hvm Hva. pose proof Hvm as [Hok _]. unfold walk.
  destruct (Z.leb_spec MAXVA va); [lia|]. rewrite walk_levels_cons.
  assert (Hpp : pt_page T (pt_root T)) by (by left).
  unfold bind at 1. rewrite ld64_ent; [|by eapply vm_ok_kpage|auto]. cbn [rbind].
  rewrite (po_ent2 _ _ Hok) by auto.
  destruct (pt_l1 T !! PX 2 va) as [q|] eqn:E1.
  - assert (Hq : kpage q) by (eapply vm_ok_kpage; [done|right; left; eauto]).
    destruct (inner_some q Hq) as (-> & -> & _). by apply walk1_alloc.
  - rewrite inner_none_bit. cbn [negb]. destruct l as [|q l].
    + destruct (alloc_none (PageAllocator := PA) s Hi Hr) as (s1 & E & Hi1 & Hh & Hm & Hc).
      unfold bind. rewrite E. simpl. do 4 eexists. split; [done|].
      apply and_assoc. split; [by apply grows_none|by left].
    + destruct (alloc_table s l q (pt_root T) (PX 2 va) T (ret 0) (fun pg => walk_levels [1] pg va true))
        as (s1 & m1 & -> & Hi1 & Hh & Hq & Hnew & Hrq & Hrr & Hm & Hm1); [done..|auto|].
      destruct (pt_ok_grow1 m1 T (PX 2 va) q) as [Hok1 Hpte1]; auto.
      { by eapply pt_ok_m1. }
      destruct (pt_ok_ext _ (mem s1) _ Hok1) as [Hok2 Hpte2]; [intros; apply Hm|].
      assert (grows s (q :: l) T s1 l (grow1 (PX 2 va) q T) /\
              same_ptes s T s1 (grow1 (PX 2 va) q T)) as [Hg Hsp].
      { eapply (grows_hang s l q T s1 m1 (pt_root T) (PX 2 va)); try done; auto.
        - intros va'. by rewrite Hpte2.
        - by apply insert_subseteq.
        - intros r. by apply pt_page_grow1. }
      destruct (walk1_alloc s1 l (grow1 (PX 2 va) q T) va q) as (r & s2 & l2 & T2 & E2 & Hg2 & Hsp2 & Hw).
      * done.
      * by rewrite <- Hh.
      * apply Hg.
      * apply lookup_insert_eq.
      * exists r, s2, l2, T2. split_and!; [done| |by intros va'; rewrite Hsp2|done].
        eapply grows_trans; [|done|done]. by apply (alloc_inv_pages (PageAllocator := PA) s).
Qed.

(** ** Storing an entry *)

Lemma grows_set s l T va a v :
  inv s l -> vm_ok s T -> pt_slot T va = Some a -> 0 <= va < MAXVA ->
  let s' := set_mem (fun m => store64 m a v) s in
  st64 a v s = Ret tt s' /\ grows s l T s' l T /\
  forall va', 0 <= va' < MAXVA ->
    pte_at (mem s') T va' = if decide (same_page va va') then u64 v else pte_at (mem s) T va'.
Proof using PA.
  intros Hi Hvm Hs Hva s'. destruct (pt_slot_page _ _ _ _ (proj1 Hvm) Hs) as (q & Hq & Ha & Hl & ? & ? & _).
  destruct (pt_ok_set _ _ _ _ v (proj1 Hvm) Hs Hva) as [Hok' Hpte].
  assert (Hpq : pt_page T q) by (right; right; eauto).
  assert (Hm : forall b, ~ in_page q b -> mget (mem s') b = mget (mem s) b).
  { intros b Hb. apply mget_store64_ne. intros ?. apply Hb. subst a.
    eapply (slot_in_page _ (PX 0 va)); [auto|lia]. }
  split_and!; [|split|done]; try done.
  - unfold st64. by rewrite in_ram_true.
  - eapply (alloc_frame (PageAllocator := PA)); [exact Hi|done| |done].
    intros p b Hp Hb. apply Hm. intros Hb'. eapply vm_ok_not_free; [exact Hi|done|exact Hpq|].
    rewrite (kpage_disj q p b); try done. by apply (alloc_inv_pages (PageAllocator := PA) s l Hi).
  - split; [done|]. apply Hvm.
  - auto.
  - by exists [].
  - auto.
  - intros b Hb. apply Hm. auto.
Qed.
End walk.
