(* ===== verification/VmMap.v ===== *)
(** * Mapping and unmapping ranges of pages

    [mappages], [walkaddr] and [uvmunmap] on a page-table tree: which entries
    they change, what they cost the allocator, and that unmapping undoes
    mapping. *)

From S2P Require Import Prelude Riscv Memory Machine Spinlock Kalloc Vm PageTable VmWalk.

(** The entry [mappages] writes. *)
Definition mk_pte (pa perm : Z) : Z := Z.lor (Z.lor (PA2PTE pa) perm) PTE_V.

(** Between [s, T] and [s', T'], the entries of the pages in [lo, hi) became
    those given by [f], and the others stayed. *)
Definition remapped (lo hi : Z) (f : Z -> Z) (s : machine) (T : ptree) (s' : machine) (T' : ptree) : Prop :=
  forall va, 0 <= va < MAXVA ->
    pte_at (mem s') T' va =
    if decide (lo <= va < hi) then f (PGROUNDDOWN va) else pte_at (mem s) T va.

Lemma remapped_refl lo f s T : remapped lo lo f s T s T.
Proof. intros va Hva. rewrite decide_False by lia. done. Qed.

Lemma remapped_same lo hi f s T s1 T1 s2 T2 :
  remapped lo hi f s T s1 T1 -> same_ptes s1 T1 s2 T2 -> remapped lo hi f s T s2 T2.
Proof. intros H Hs va Hva. by rewrite Hs, H. Qed.

Lemma same_page_range a va : page_aligned a -> same_page a va <-> a <= va < a + PGSIZE.
Proof. unfold same_page, page_aligned, PGSIZE. intros Ha. split; intros; dlia. Qed.

(** One more page. *)
Lemma remapped_step lo a f s T s1 T1 s2 T2 :
  page_aligned a -> lo <= a ->
  remapped lo a f s T s1 T1 ->
  (forall va, 0 <= va < MAXVA -> pte_at (mem s2) T2 va =
     if decide (same_page a va) then f a else pte_at (mem s1) T1 va) ->
  remapped lo (a + PGSIZE) f s T s2 T2.
Proof.
  intros Ha Hle H1 H2 va Hva. rewrite H2, H1 by done.
  pose proof (same_page_range a va Ha) as Hsp.
  destruct (decide (same_page a va)) as [Hs|Hs]; rewrite Hsp in Hs.
  - rewrite decide_True by lia. f_equal. rewrite PGROUNDDOWN_eq.
    unfold page_aligned, PGSIZE in *. clear -Hs Ha. dlia.
  - unfold PGSIZE in *. repeat case_decide; try done; lia.
Qed.

Section map.
Context {KI : KernelImage} {inv : machine -> list Z -> Prop} {PA : PageAllocator kalloc kfree inv}.
Notation grows := (grows (inv := inv)).

(** What is mapped in a grown machine was mapped before. *)
Lemma wp_map_page {R} s l T a v (F K : M machine R) Q :
  inv s l -> ready s LkKmem -> vm_ok s T -> 0 <= a < MAXVA -> bit (pte_at (mem s) T a) PTE_V = false ->
  (forall s' T', grows s l T s' [] T' -> same_ptes s T s' T' -> wp F Q s') ->
  (forall s' l' T', grows s l T s' l' T' ->
     (forall va, 0 <= va < MAXVA -> pte_at (mem s') T' va =
        if decide (same_page a va) then u64 v else pte_at (mem s) T va) -> wp K Q s') ->
  wp (let! pte := walk (pt_root T) a true in
      if pte =? 0 then F else
      let! x := ld64 pte in
      if bit x PTE_V then panic "mappages: remap" else
      do! st64 pte v in K) Q s.
Proof using PA.
  intros Hi Hr Hvm Ha Hv HF HK. apply wp_bind.
  destruct (walk_alloc s l T a Hi Hr Hvm Ha) as (r & s1 & l1 & T1 & E & Hg & Hsp & Hw).
  eapply wp_eq; [exact E|]. destruct Hw as [[-> ->]|[Hnz Hs]].
  - simpl. eauto.
  - destruct (Z.eqb_spec r 0); [done|]. apply wp_bind.
    eapply wp_slot_ld; [apply Hg|done|]. rewrite Hsp, Hv. apply wp_bind.
    destruct (grows_set s1 l1 T1 a r v) as (Est & Hg2 & Hpte); [apply Hg|apply Hg|done..|].
    eapply wp_eq; [exact Est|]. eapply HK.
    + eapply grows_trans; [|exact Hg|exact Hg2]. by apply (alloc_inv_pages (PageAllocator := PA) s).
    + intros va Hva. rewrite Hpte by done. case_decide; [done|]. apply Hsp.
Qed.

(** [mappages] maps the pages of [va, va + size) to consecutive physical
    pages; when the allocator runs out of page-table pages it stops with -1,
    the pages before [hi] mapped. *)
Lemma mappages_ok s l T va size pa perm :
  inv s l -> ready s LkKmem -> vm_ok s T ->
  0 <= va -> 0 < size -> va + size <= MAXVA -> 0 <= pa -> pa + size < 2 ^ 56 ->
  (forall va', PGROUNDDOWN va <= va' < va + size -> bit (pte_at (mem s) T va') PTE_V = false) ->
  exists r s' l' T' hi,
    mappages (pt_root T) va size pa perm s = Ret r s' /\ grows s l T s' l' T' /\
    remapped (PGROUNDDOWN va) hi (fun p => u64 (mk_pte (pa + (p - PGROUNDDOWN va)) perm)) s T s' T' /\
    ((r = 0 /\ hi = PGROUNDDOWN (va + size - 1) + PGSIZE) \/
     (r = -1 /\ l' = [] /\ page_aligned hi /\ PGROUNDDOWN va <= hi <= PGROUNDDOWN (va + size - 1))).
Proof using PA.
  intros Hi Hr Hvm Hva Hsz Hmax Hpa Hpa2 Hfree.
  set (a0 := PGROUNDDOWN va). set (last := PGROUNDDOWN (va + size - 1)).
  set (f := fun p => u64 (mk_pte (pa + (p - a0)) perm)).
  pose proof (PGROUNDDOWN_aligned va : page_aligned a0) as Ha0.
  pose proof (PGROUNDDOWN_aligned (va + size - 1) : page_aligned last) as Hlast.
  pose proof (PGROUNDDOWN_bounds va : a0 <= va < a0 + PGSIZE).
  pose proof (PGROUNDDOWN_bounds (va + size - 1) : last <= _ < last + PGSIZE).
  pose proof MAXVA_pow as HM.
  enough (Hwp : wp (mappages (pt_root T) va size pa perm) (fun r s' => exists l' T' hi,
            grows s l T s' l' T' /\ remapped a0 hi f s T s' T' /\
            ((r = 0 /\ hi = last + PGSIZE) \/ (r = -1 /\ l' = [] /\ page_aligned hi /\ a0 <= hi <= last))) s).
  { apply wp_inv in Hwp as (r & s' & E & l' & T' & hi & H'). exists r, s', l', T', hi. split; done. }
  unfold mappages. destruct (Z.eqb_spec size 0); [lia|].
  rewrite (u64_small (va + size - 1)) by lia. fold a0 last.
  apply (wp_while _ (fun '(a, pa') s1 => exists l1 T1, page_aligned a /\ a0 <= a <= last /\ pa' = pa + (a - a0) /\
           grows s l T s1 l1 T1 /\ remapped a0 a f s T s1 T1) (fun '(a, _) => last - a)).
  - intros [a pa'] s1 (l1 & T1 & Ha & Hab & -> & Hg & Hrm).
    assert (Hge : 0 <= a0) by (unfold page_aligned, PGSIZE in *; dlia).
    assert (pt_root T1 = pt_root T) as <- by apply Hg.
    apply (wp_map_page s1 l1); [apply Hg| |apply Hg|lia| | |].
    + eapply ready_hart_eq; [|done]. apply Hg.
    + rewrite Hrm by lia. rewrite decide_False by lia. apply Hfree. lia.
    + intros s2 T2 Hg2 Hsp. apply wp_ret. exists [], T2, a.
      split_and!; [|by eapply remapped_same|right; split_and!; [done..|lia|lia]].
      eapply grows_trans; [|exact Hg|exact Hg2]. by apply (alloc_inv_pages (PageAllocator := PA) s).
    + intros s2 l2 T2 Hg2 Hpte.
      assert (Hg' : grows s l T s2 l2 T2).
      { eapply grows_trans; [|exact Hg|exact Hg2]. by apply (alloc_inv_pages (PageAllocator := PA) s). }
      assert (Hrm' : remapped a0 (a + PGSIZE) f s T s2 T2) by (eapply remapped_step; try done; lia).
      destruct (Z.eqb_spec a last).
      * subst a. apply wp_ret. exists l2, T2, (last + PGSIZE). split_and!; [done|done|]. by left.
      * apply wp_ret. assert (a + PGSIZE <= last) by (unfold page_aligned, PGSIZE in *; dlia).
        rewrite !u64_small by (unfold PGSIZE in *; lia). split; [|unfold PGSIZE in *; lia].
        exists l2, T2. unfold page_aligned, PGSIZE in *. split_and!; [dlia|lia|lia|lia|done|done].
  - exists l, T. split_and!; [done|lia|unfold page_aligned, PGSIZE in *; dlia|lia|by apply grows_refl|].
    apply remapped_refl.
  - unfold page_aligned, PGSIZE in *. dlia.
Qed.

(** ** User pages *)

Definition pa_at (s : machine) (T : ptree) (va : Z) : Z := PTE2PA (pte_at (mem s) T va).

(** [va] is mapped by a leaf entry to a page that the table holds a
    reference to. *)
Record upage (s : machine) (T : ptree) (va : Z) : Prop := {
  up_valid : bit (pte_at (mem s) T va) PTE_V = true;
  up_leaf : PTE_FLAGS (pte_at (mem s) T va) <> PTE_V;
  up_kpage : kpage (pa_at s T va);
  up_tree : ~ pt_page T (pa_at s T va);
  up_refs : 1 <= refs s (pa_at s T va);
  up_int : int_range (refs s (pa_at s T va))
}.

(** The virtual pages of [lo, hi). *)
Definition vpage (lo hi va : Z) : Prop := page_aligned va /\ lo <= va < hi.

(** Every page of [lo, hi) is a user page, and no two are the same memory. *)
Record uspace (s : machine) (T : ptree) (lo hi : Z) : Prop := {
  us_page va : vpage lo hi va -> upage s T va;
  us_inj va va' : vpage lo hi va -> vpage lo hi va' -> pa_at s T va = pa_at s T va' -> va = va'
}.

Lemma upage_slot s T va :
  upage s T va -> exists a, pt_slot T va = Some a.
Proof.
  intros [Hv _ _ _ _ _]. unfold pte_at in Hv. unfold pt_slot.
  destruct (pt_l0 T !! _); [by eexists|done].
Qed.

(** Dropping a reference to a page. *)
Lemma kfree_page s l p :
  inv s l -> ready s LkKmem -> kpage p -> 1 <= refs s p -> int_range (refs s p) ->
  exists s' l', kfree p s = Ret tt s' /\ inv s' l' /\ page_effect p s s' /\
    refs s' p = refs s p - 1 /\ (forall q, q ∈ l' <-> q ∈ l \/ q = p /\ refs s p = 1) /\
    (refs s p <> 1 -> mem s' = mem s).
Proof using PA.
  intros Hi Hr Hp H1 Hint. destruct (decide (refs s p = 1)) as [E|E].
  - destruct (dealloc_last (PageAllocator := PA) s p l) as (s' & Ek & Hi' & He & H0); [done..|].
    exists s', (p :: l). split_and!; try done; [lia|]. intros q. set_solver.
  - destruct (dealloc_shared (PageAllocator := PA) s p l) as (s' & Ek & Hi' & He & Hm & H0); [done..|lia|done|].
    exists s', l. split_and!; try done. intros q. naive_solver.
Qed.

(** The machine after the references held by the pages of [lo, hi) were
    dropped and their entries cleared. *)
Record unmapped (lo hi : Z) (s : machine) (l : list Z) (T : ptree) (s' : machine) (l' : list Z) : Prop := {
  um_inv : inv s' l';
  um_hart : hart_eq s s';
  um_ok : vm_ok s' T;
  um_pte : remapped lo hi (fun _ => 0) s T s' T;
  um_refs va : vpage lo hi va -> refs s' (pa_at s T va) = refs s (pa_at s T va) - 1;
  um_refs_ne q : kpage q -> (forall va, vpage lo hi va -> q <> pa_at s T va) -> refs s' q = refs s q;
  um_free q : q ∈ l' <-> q ∈ l \/ exists va, vpage lo hi va /\ q = pa_at s T va /\ refs s q = 1;
  um_mem a : (forall p, pt_page T p -> ~ in_page p a) ->
    (forall va, vpage lo hi va -> refs s (pa_at s T va) = 1 -> ~ in_page (pa_at s T va) a) ->
    mget (mem s') a = mget (mem s) a
}.

Lemma unmapped_refl lo s l T : inv s l -> vm_ok s T -> unmapped lo lo s l T s l.
Proof using PA.
  intros. assert (Hno : forall va, ~ vpage lo lo va) by (intros va [_ ?]; lia).
  split; try done.
  - apply remapped_refl.
  - intros va Hv. by apply Hno in Hv.
  - intros q. split; [by left|]. intros [?|(va & Hv & _)]; [done|]. by apply Hno in Hv.
Qed.

Lemma vpage_step lo a va :
  page_aligned a -> lo <= a -> vpage lo (a + PGSIZE) va <-> vpage lo a va \/ va = a.
Proof.
  unfold vpage, page_aligned, PGSIZE. intros Ha Hle. split.
  - intros [Hva ?]. destruct (decide (va = a)); [by right|left]. split; [done|]. dlia.
  - intros [[? ?]| ->]; split; try done; lia.
Qed.

(** One iteration of [uvmunmap] on a user page. *)
Definition unmap1 (pagetable a : Z) : M machine unit :=
  let! pte := walk pagetable a false in
  if pte =? 0 then panic "uvmunmap: walk" else
  let! v := ld64 pte in
  if negb (bit v PTE_V) then panic "uvmunmap: not mapped" else
  if PTE_FLAGS v =? PTE_V then panic "uvmunmap: not a leaf" else
  do! when true (kfree (PTE2PA v)) in
  st64 pte 0.

Lemma unmap1_ok s l T a :
  inv s l -> ready s LkKmem -> vm_ok s T -> upage s T a -> 0 <= a < MAXVA ->
  exists s' l', unmap1 (pt_root T) a s = Ret tt s' /\ inv s' l' /\ hart_eq s s' /\ vm_ok s' T /\
    (forall va, 0 <= va < MAXVA -> pte_at (mem s') T va =
       if decide (same_page a va) then 0 else pte_at (mem s) T va) /\
    refs s' (pa_at s T a) = refs s (pa_at s T a) - 1 /\
    (forall q, kpage q -> q <> pa_at s T a -> refs s' q = refs s q) /\
    (forall q, q ∈ l' <-> q ∈ l \/ q = pa_at s T a /\ refs s q = 1) /\
    (forall b, (forall p, pt_page T p -> ~ in_page p b) ->
       (refs s (pa_at s T a) = 1 -> ~ in_page (pa_at s T a) b) -> mget (mem s') b = mget (mem s) b).
Proof using PA.
  intros Hi Hr Hvm Hup Ha. destruct (upage_slot _ _ _ Hup) as [r Hs].
  destruct Hup as [Hv Hl Hk Ht H1 Hint].
  destruct (pt_slot_page _ _ _ _ (proj1 Hvm) Hs) as (q & Hq & _ & _ & _ & _ & Hnz).
  set (p := pa_at s T a) in *.
  destruct (kfree_page s l p) as (s2 & l2 & Ek & Hi2 & (Hh & Hm & Hrr) & Hrp & Hfree & Hmem); [done..|].
  destruct (vm_ok_frame s s2 T Hvm) as [Hvm2 Hpte2].
  { intros x Hx. apply Hrr; [by eapply vm_ok_kpage|]. by intros ->. }
  { intros x b Hx Hb. apply Hm. intros Hb'. apply Ht.
    rewrite (kpage_disj p x b); [done..|by eapply vm_ok_kpage|done|done]. }
  destruct (grows_set s2 l2 T a r 0) as (Est & Hg & Hpte3); [done..|].
  eexists _, l2. split.
  { unfold unmap1, bind. rewrite walk_lookup, Hs by done. simpl. destruct (Z.eqb_spec r 0); [done|].
    assert (ld64 r s = Ret (pte_at (mem s) T a) s) as ->.
    { enough (H : wp (ld64 r) (fun v s' => v = pte_at (mem s) T a /\ s' = s) s).
      { by apply wp_inv in H as (? & ? & ? & -> & ->). }
      by eapply wp_slot_ld. }
    simpl. rewrite Hv. simpl. destruct (Z.eqb_spec (PTE_FLAGS (pte_at (mem s) T a)) PTE_V); [done|].
    simpl. unfold pa_at in p. fold p. rewrite Ek. simpl. exact Est. }
  split_and!; [apply Hg|by etrans; [|apply Hg]|apply Hg| |done|done| |].
  - intros va Hva. rewrite Hpte3 by done. case_decide; [done|]. apply Hpte2.
  - intros x. rewrite Hfree. naive_solver.
  - intros b HbT Hb1. rewrite (gr_mem _ _ _ _ _ _ Hg) by done.
    destruct (decide (refs s p = 1)); [apply Hm; auto|by rewrite Hmem].
Qed.

Lemma unmap1_bind {R} pagetable a (K : M machine R) s s' :
  unmap1 pagetable a s = Ret tt s' ->
  (let! pte := walk pagetable a false in
   if pte =? 0 then panic "uvmunmap: walk" else
   let! v := ld64 pte in
   if negb (bit v PTE_V) then panic "uvmunmap: not mapped" else
   if PTE_FLAGS v =? PTE_V then panic "uvmunmap: not a leaf" else
   do! when true (kfree (PTE2PA v)) in
   do! st64 pte 0 in K) s = K s'.
Proof.
  unfold unmap1, bind. destruct (walk pagetable a false s) as [pte s1| | | | |]; simpl; try done.
  destruct (pte =? 0); [done|]. destruct (ld64 pte s1) as [v s2| | | | |]; simpl; try done.
  destruct (bit v PTE_V); [simpl|done]. destruct (PTE_FLAGS v =? PTE_V); [done|].
  destruct (kfree (PTE2PA v) s2) as [[] s3| | | | |]; simpl; try done. by intros ->.
Qed.

Lemma unmapped_step lo hi a s l T s1 l1 :
  uspace s T lo hi -> vpage lo hi a -> 0 <= lo -> hi <= MAXVA -> ready s LkKmem ->
  unmapped lo a s l T s1 l1 ->
  exists s2 l2, unmap1 (pt_root T) a s1 = Ret tt s2 /\ unmapped lo (a + PGSIZE) s l T s2 l2.
Proof using PA.
  intros [Hup Hinj] Ha Hlo Hhi Hr [Hi1 Hh1 Hvm1 Hpte1 Hrf1 Hne1 Hfr1 Hm1]. pose proof Ha as [Haa Hab].
  assert (Hin : forall va, vpage lo a va -> vpage lo hi va /\ va <> a).
  { intros va [? ?]. split; [split; [done|lia]|lia]. }
  assert (Epte : pte_at (mem s1) T a = pte_at (mem s) T a).
  { rewrite Hpte1 by lia. by rewrite decide_False by lia. }
  assert (Epa : pa_at s1 T a = pa_at s T a) by (unfold pa_at; by rewrite Epte).
  assert (Hne : forall va, vpage lo a va -> pa_at s T a <> pa_at s T va).
  { intros va [Hva Hd]%Hin E. apply Hd. symmetry. by apply Hinj. }
  destruct (Hup a Ha) as [Hv Hl Hk Ht H1 Hint].
  assert (Erf : refs s1 (pa_at s T a) = refs s (pa_at s T a)) by (by apply Hne1).
  destruct (unmap1_ok s1 l1 T a) as (s2 & l2 & E & Hi2 & Hh2 & Hvm2 & Hpte2 & Hrp & Hrq & Hfr2 & Hm2).
  { done. } { by rewrite <- Hh1. } { done. } { split; rewrite ?Epte, ?Epa, ?Erf; done. } { lia. }
  rewrite Epa in *. rewrite Erf in *. exists s2, l2. split; [done|].
  assert (Hvs : forall va, vpage lo (a + PGSIZE) va <-> vpage lo a va \/ va = a).
  { intros va. apply vpage_step; [done|lia]. }
  split; try done.
  - by transitivity s1.
  - eapply remapped_step; try done. lia.
  - intros va [Hva| ->]%Hvs; [|done]. rewrite Hrq, Hrf1; [done|done|apply Hup, Hin, Hva|].
    intros E'. by apply (Hne va).
  - intros q Hq Hqn. rewrite Hrq, Hne1; [done|done| |done|].
    + intros va Hva. apply Hqn, Hvs. by left.
    + apply Hqn, Hvs. by right.
  - intros q. rewrite Hfr2, Hfr1. setoid_rewrite Hvs. split.
    + intros [[?|(va & ? & ? & ?)]|[-> ?]]; [by left|right..]; [exists va; auto|].
      exists a. rewrite <- Erf. auto.
    + intros [?|(va & [?| ->] & -> & ?)]; [by left; left|left; right; eauto|right]. by rewrite Erf.
  - intros b HbT Hb. rewrite Hm2, Hm1; [done|done| |done|].
    + intros va Hva. apply Hb, Hvs. by left.
    + apply Hb, Hvs. by right.
Qed.

(** [uvmunmap] with [do_free] drops the reference of every page of the range
    and clears its entry. *)
Lemma uvmunmap_ok s l T va n :
  inv s l -> ready s LkKmem -> vm_ok s T -> page_aligned va -> 0 <= va -> 0 <= n ->
  va + n * PGSIZE <= MAXVA -> uspace s T va (va + n * PGSIZE) ->
  exists s' l', uvmunmap (pt_root T) va n true s = Ret tt s' /\
    unmapped va (va + n * PGSIZE) s l T s' l'.
Proof using PA.
  intros Hi Hr Hvm Hal Hva Hn Hmax Hus. set (hi := va + n * PGSIZE) in *. pose proof MAXVA_pow.
  enough (Hwp : wp (uvmunmap (pt_root T) va n true) (fun _ s' => exists l', unmapped va hi s l T s' l') s).
  { apply wp_inv in Hwp as ([] & s' & E & l' & H'). eauto. }
  unfold uvmunmap. unfold page_aligned in Hal. rewrite Hal. simpl.
  assert (0 <= n * PGSIZE) by (unfold PGSIZE; lia).
  rewrite (u64_small (n * PGSIZE)) by lia. fold hi. rewrite (u64_small hi) by lia.
  apply (wp_while _ (fun a s1 => page_aligned a /\ va <= a <= hi /\ exists l1, unmapped va a s l T s1 l1)
           (fun a => hi - a)).
  - intros a s1 (Ha & Hab & l1 & Hu). destruct (Z.ltb_spec a hi).
    + destruct (unmapped_step va hi a s l T s1 l1) as (s2 & l2 & E & Hu2); try done; [split; [done|lia]|].
      eapply wp_eq; [exact (unmap1_bind _ _ (ret _) _ _ E)|].
      assert (a + PGSIZE <= hi) by (unfold hi, page_aligned, PGSIZE in *; dlia).
      rewrite u64_small by (unfold PGSIZE in *; lia). unfold page_aligned, PGSIZE in *.
      split; [|lia]. split_and!; [dlia|lia|lia|eauto].
    + apply wp_ret. assert (a = hi) as <- by lia. eauto.
  - split_and!; [done|lia|lia|]. exists l. by apply unmapped_refl.
  - lia.
Qed.
End map.
