(* ===== verification/VmUser.v ===== *)
(** * Growing and shrinking a user address space

    [uvmalloc] and [uvmdealloc]: a successful [uvmalloc] maps fresh zeroed
    pages over the new range and touches nothing else; a failed one gives
    back every page it took except the page tables it added to the tree. *)

From S2P Require Import Prelude Riscv Memory Machine Spinlock Kalloc Vm PageTable VmWalk VmMap.

Section user.
Context {KI : KernelImage} {inv : machine -> list Z -> Prop} {PA : PageAllocator kalloc kfree inv}.
Notation grows := (grows (inv := inv)).

(** ** Footprints

    From [s] to [s'] only pages of the tree [T] and pages that were free
    changed, and the pages still free were free before. *)
Record reach (s : machine) (l : list Z) (T : ptree) (s' : machine) (l' : list Z) (T' : ptree) : Prop := {
  rc_inv : inv s' l';
  rc_hart : hart_eq s s';
  rc_ok : vm_ok s' T';
  rc_root : pt_root T' = pt_root T;
  rc_sub1 : pt_l1 T ⊆ pt_l1 T';
  rc_sub0 : pt_l0 T ⊆ pt_l0 T';
  rc_free q : q ∈ l' -> q ∈ l;
  rc_pages p : pt_page T' p -> pt_page T p \/ p ∈ l;
  rc_refs q : kpage q -> q ∉ l -> refs s' q = refs s q;
  rc_mem a : (forall p, pt_page T p -> ~ in_page p a) -> (forall p, p ∈ l -> ~ in_page p a) ->
    mget (mem s') a = mget (mem s) a
}.

Lemma grows_reach s l T s' l' T' : grows s l T s' l' T' -> reach s l T s' l' T'.
Proof using PA.
  intros [Hi Hh Hok Hroot H1 H0 Hpg [k ->] _ Hm Hr]. split; try done.
  - set_solver.
  - intros p Hp. destruct (Hpg p Hp) as [?|[? _]]; auto.
  - intros q Hq Hql. apply Hr; [done|]. done.
  - intros a HT Hl. apply Hm. intros p [Hp|[Hp _]]%Hpg; auto.
Qed.

Lemma reach_refl s l T : inv s l -> vm_ok s T -> reach s l T s l T.
Proof using PA. intros. apply grows_reach. by apply grows_refl. Qed.

Lemma reach_trans s1 l1 T1 s2 l2 T2 s3 l3 T3 :
  reach s1 l1 T1 s2 l2 T2 -> reach s2 l2 T2 s3 l3 T3 -> reach s1 l1 T1 s3 l3 T3.
Proof using PA.
  intros [? ? ? ? ? ? Hf2 Hp2 Hr2 Hm2] [? ? ? Hroot ? ? Hf3 Hp3 Hr3 Hm3]. split; try done.
  - by transitivity s2.
  - congruence.
  - by etrans.
  - by etrans.
  - auto.
  - intros p [?|?]%Hp3; auto.
  - intros q Hq Hl. rewrite Hr3, Hr2; auto.
  - intros a HT Hl. rewrite Hm3, Hm2; auto. intros p [?|?]%Hp2; auto.
Qed.

Lemma reach_pages s l T s' l' T' p : reach s l T s' l' T' -> pt_page T p -> pt_page T' p.
Proof using PA. intros H. eapply pt_page_sub; apply H. Qed.

(** An effect on one of the pages that were free at the start. *)
Lemma reach_effect s l T s1 l1 T1 s2 l2 p :
  reach s l T s1 l1 T1 -> page_effect p s1 s2 -> inv s2 l2 -> (forall q, q ∈ l2 -> q ∈ l1 \/ q = p) ->
  p ∈ l -> kpage p -> ~ pt_page T1 p ->
  reach s l T s2 l2 T1 /\ same_ptes s1 T1 s2 T1.
Proof using PA.
  intros [? ? Hvm ? ? ? Hf Hpg Hr Hm] (Hh2 & Hm2 & Hr2) Hi2 Hl2 Hp Hkp HT.
  destruct (vm_ok_frame s1 s2 T1 Hvm) as [Hvm' Hpte].
  { intros x Hx. apply Hr2; [by eapply vm_ok_kpage|]. by intros ->. }
  { intros x b Hx Hb. apply Hm2. intros Hb'. apply HT.
    rewrite (kpage_disj p x b); [done..|by eapply vm_ok_kpage|done|done]. }
  split; [|done]. split; try done.
  - by transitivity s1.
  - intros q [?| ->]%Hl2; auto.
  - intros q Hq Hql. rewrite Hr2, Hr; try done. by intros ->.
  - intros a HaT Hal. rewrite Hm2, Hm; auto.
Qed.

(** Taking a page from the allocator. *)
Lemma alloc_reach s p l T :
  inv s (p :: l) -> ready s LkKmem -> vm_ok s T ->
  exists s', kalloc s = Ret p s' /\ reach s (p :: l) T s' l T /\ same_ptes s T s' T /\
    refs s' p = 1 /\ kpage p /\ ~ pt_page T p /\ p ∉ l.
Proof using PA.
  intros Hi Hr Hvm. destruct (alloc_inv_pages (PageAllocator := PA) _ _ Hi) as [Hnd Hl].
  destruct (alloc_page (PageAllocator := PA) s p l Hi Hr) as (s' & E & Hi' & He & H1).
  assert (Hp : kpage p) by (apply Hl; left).
  assert (HT : ~ pt_page T p) by (intros HT; eapply vm_ok_not_free; [exact Hi|done|done|left]).
  destruct (reach_effect s (p :: l) T s (p :: l) T s' l p) as [Hrc Hsp]; try done.
  - by apply reach_refl.
  - set_solver.
  - left.
  - exists s'. split_and!; try done. by inversion Hnd.
Qed.

(** Writing one such page. *)
Lemma write_reach s l T s1 l1 T1 p (f : memory -> memory) :
  reach s l T s1 l1 T1 -> p ∈ l -> kpage p -> ~ pt_page T1 p -> p ∉ l1 ->
  (forall m a, ~ in_page p a -> mget (f m) a = mget m a) ->
  reach s l T (set_mem f s1) l1 T1 /\ same_ptes s1 T1 (set_mem f s1) T1.
Proof using PA.
  intros Hrc Hp Hkp HT Hl Hf. eapply reach_effect; try done; auto.
  - split_and!; try done. intros a Ha. by apply Hf.
  - eapply (alloc_frame (PageAllocator := PA)); [apply Hrc|done| |done].
    intros x b Hx Hb. apply Hf. intros Hb'. apply Hl.
    rewrite (kpage_disj p x b); [done..| |done|done].
    eapply (alloc_inv_pages (PageAllocator := PA) s1 l1); [apply Hrc|done].
Qed.

(** A page that is neither free nor in the tree keeps its content and its
    references. *)
Lemma reach_keeps s l T s' l' T' p :
  inv s l -> vm_ok s T -> reach s l T s' l' T' -> kpage p -> p ∉ l -> ~ pt_page T p ->
  p ∉ l' /\ ~ pt_page T' p /\ refs s' p = refs s p /\
  forall b, in_page p b -> mget (mem s') b = mget (mem s) b.
Proof using PA.
  intros Hi Hvm Hrc Hp Hl HT. split_and!.
  - intros ?. by apply Hl, Hrc.
  - by intros [?|?]%(rc_pages _ _ _ _ _ _ Hrc).
  - by apply Hrc.
  - intros b Hb. apply Hrc; intros x Hx Hb'.
    + apply HT. rewrite (kpage_disj p x b); try done. by eapply vm_ok_kpage.
    + apply Hl. rewrite (kpage_disj p x b); try done.
      by apply (alloc_inv_pages (PageAllocator := PA) s l Hi).
Qed.

(** ** [uvmalloc] *)

(** The pages of [lo, a) are fresh, zeroed and mapped with [perm]; the other
    entries are those of [s, T]; and no page was lost. *)
Record extended (lo a perm : Z) (s : machine) (l : list Z) (T : ptree)
    (s' : machine) (l' : list Z) (T' : ptree) : Prop := {
  ex_reach : reach s l T s' l' T';
  ex_keep va : 0 <= va < MAXVA -> ~ (lo <= va < a) -> pte_at (mem s') T' va = pte_at (mem s) T va;
  ex_map va : vpage lo a va -> let p := pa_at s' T' va in
    pte_at (mem s') T' va = mk_pte p perm /\ p ∈ l /\ p ∉ l' /\ kpage p /\ ~ pt_page T' p /\
    refs s' p = 1 /\ forall b, in_page p b -> mget (mem s') b = 0;
  ex_inj va va' : vpage lo a va -> vpage lo a va' -> pa_at s' T' va = pa_at s' T' va' -> va = va';
  ex_none q : q ∈ l -> q ∈ l' \/ pt_page T' q \/ exists va, vpage lo a va /\ q = pa_at s' T' va
}.

Lemma extended_refl lo perm s l T : inv s l -> vm_ok s T -> extended lo lo perm s l T s l T.
Proof using PA.
  intros. assert (Hno : forall va, ~ vpage lo lo va) by (intros va [_ ?]; lia).
  split; auto; try (by intros ? []%Hno); try (by intros ? ? []%Hno). by apply reach_refl.
Qed.

(** Changes within the free pages that keep the mappings, and lose none. *)
Lemma extended_frame lo a perm s l T s1 l1 T1 s2 l2 T2 :
  0 <= lo -> a <= MAXVA ->
  extended lo a perm s l T s1 l1 T1 -> reach s1 l1 T1 s2 l2 T2 ->
  (forall va, 0 <= va < MAXVA -> pte_at (mem s2) T2 va = pte_at (mem s1) T1 va) ->
  (forall q, q ∈ l1 -> q ∈ l2 \/ pt_page T2 q) ->
  extended lo a perm s l T s2 l2 T2.
Proof using PA.
  intros Hlo Ha [Hrc Hk Hmp Hij Hno] Hrc2 Hsp Hlost.
  assert (Hin : forall va, vpage lo a va -> 0 <= va < MAXVA) by (intros va [_ ?]; lia).
  assert (Epa : forall va, vpage lo a va -> pa_at s2 T2 va = pa_at s1 T1 va).
  { intros va Hva. unfold pa_at. by rewrite Hsp by auto. }
  split.
  - by eapply reach_trans.
  - intros va Hva Hn. by rewrite Hsp, Hk by done.
  - intros va Hva p. subst p. rewrite Epa, Hsp by auto. destruct (Hmp va Hva) as (? & ? & Hn & Hkp & HnT & Hr & Hz).
    destruct (reach_keeps _ _ _ _ _ _ _ (rc_inv _ _ _ _ _ _ Hrc) (rc_ok _ _ _ _ _ _ Hrc) Hrc2 Hkp Hn HnT)
      as (? & ? & -> & Hc).
    split_and!; try done. intros b Hb. rewrite Hc by done. auto.
  - intros va va' Hv Hv'. rewrite !Epa by done. by apply Hij.
  - intros q Hq. destruct (Hno q Hq) as [Hq1|[HqT|(va & Hv & ->)]].
    + destruct (Hlost q Hq1); auto.
    + right; left. by eapply reach_pages.
    + right; right. exists va. by rewrite Epa by done.
Qed.

Lemma mk_pte_facts p perm : kpage p -> 0 <= perm < 1024 ->
  mk_pte p perm = Z.lor (PA2PTE p) (Z.lor perm PTE_V) /\ 0 <= Z.lor perm PTE_V < 1024.
Proof.
  intros Hp Hperm. unfold mk_pte. split; [by rewrite Z.lor_assoc|].
  change 1024 with (2 ^ 10). split; [apply Z.lor_nonneg; split; [lia|done]|].
  assert (Z.lor perm PTE_V < 2 ^ 10); [|done].
  destruct (decide (perm = 0)) as [->|]; [done|].
  apply Z.log2_lt_cancel. rewrite Z.log2_lor by (done || lia). rewrite Z.log2_pow2 by done.
  apply Z.max_lub_lt; [|done]. apply Z.log2_lt_pow2; lia.
Qed.

Lemma mk_pte_pa p perm : kpage p -> 0 <= perm < 1024 ->
  PTE2PA (mk_pte p perm) = p /\ u64 (mk_pte p perm) = mk_pte p perm /\
  PTE_FLAGS (mk_pte p perm) = Z.lor perm PTE_V.
Proof.
  intros Hp Hperm. destruct (mk_pte_facts p perm Hp Hperm) as [-> ?]. destruct (kpage_pa p Hp).
  split_and!; [by apply PTE2PA_mk|by apply u64_small, mk_pte_range|by apply PTE_FLAGS_mk].
Qed.

Lemma extended_map lo a perm s l T s1 l1 T1 s2 l2 T2 m :
  0 <= lo -> page_aligned a -> lo <= a -> a + PGSIZE <= MAXVA -> 0 <= perm < 1024 ->
  extended lo a perm s l T s1 l1 T1 -> reach s1 l1 T1 s2 l2 T2 ->
  (forall va, 0 <= va < MAXVA -> pte_at (mem s2) T2 va =
     if decide (same_page a va) then mk_pte m perm else pte_at (mem s1) T1 va) ->
  m ∈ l1 -> m ∉ l2 -> kpage m -> ~ pt_page T2 m -> refs s2 m = 1 ->
  (forall b, in_page m b -> mget (mem s2) b = 0) ->
  (forall q, q ∈ l1 -> q = m \/ q ∈ l2 \/ pt_page T2 q) ->
  extended lo (a + PGSIZE) perm s l T s2 l2 T2.
Proof using PA.
  intros Hlo Hal Hle Hmax Hperm [Hrc Hk Hmp Hij Hno] Hrc2 Hpte Hm Hml Hkm HmT Hrm Hz Hlost.
  destruct (mk_pte_pa m perm Hkm Hperm) as (Hpa & _ & _).
  assert (Hr : forall va, vpage lo a va -> 0 <= va < MAXVA /\ ~ same_page a va).
  { intros va [Hva Hb]. split; [unfold PGSIZE in *; lia|]. rewrite same_page_aligned by done. lia. }
  assert (Epa : forall va, vpage lo a va -> pa_at s2 T2 va = pa_at s1 T1 va).
  { intros va [Hva Hs]%Hr. unfold pa_at. rewrite Hpte by done. by rewrite decide_False. }
  assert (Ea : pte_at (mem s2) T2 a = mk_pte m perm).
  { rewrite Hpte by (unfold PGSIZE in *; lia). by rewrite decide_True. }
  assert (Epm : pa_at s2 T2 a = m) by (unfold pa_at; by rewrite Ea).
  assert (Hvs : forall va, vpage lo (a + PGSIZE) va <-> vpage lo a va \/ va = a) by (intros; by apply vpage_step).
  split.
  - by eapply reach_trans.
  - intros va Hva Hn. rewrite Hpte, Hk by (try done; unfold PGSIZE in *; lia). apply decide_False.
    unfold same_page, page_aligned, PGSIZE in *. intros E. apply Hn. clear -Hal E Hle. dlia.
  - intros va [Hva| ->]%Hvs; cbv zeta.
    + rewrite Epa by done. destruct (Hr va Hva) as [Hvr Hs]. rewrite Hpte by done. rewrite decide_False by done.
      destruct (Hmp va Hva) as (? & ? & Hn & Hkp & HnT & Hrf & Hzz).
      destruct (reach_keeps _ _ _ _ _ _ _ (rc_inv _ _ _ _ _ _ Hrc) (rc_ok _ _ _ _ _ _ Hrc) Hrc2 Hkp Hn HnT)
        as (? & ? & -> & Hc).
      split_and!; try done. intros b Hb. rewrite Hc by done. auto.
    + rewrite Epm. split_and!; try done. by apply Hrc.
  - assert (Hne : forall va, vpage lo a va -> pa_at s1 T1 va <> m).
    { intros va Hva E. destruct (Hmp va Hva) as (_ & _ & Hn & _). apply Hn. by rewrite E. }
    intros va va' [Hva| ->]%Hvs [Hva'| ->]%Hvs; rewrite ?Epm, ?Epa by done; [by apply Hij| | |done].
    + intros E. by apply Hne in E.
    + intros E. by destruct (Hne va').
  - intros q Hq. destruct (Hno q Hq) as [Hq1|[HqT|(va & Hv & ->)]].
    + destruct (Hlost q Hq1) as [->|[?|?]]; auto. right; right. exists a. rewrite Hvs. auto.
    + right; left. by eapply reach_pages.
    + right; right. exists va. rewrite Hvs, Epa by done. auto.
Qed.

(** Every page taken was given back or is a page table of the tree, and the
    mappings are those of [s, T]. *)
Record released (s : machine) (l : list Z) (T : ptree) (s' : machine) (l' : list Z) (T' : ptree) : Prop := {
  rl_reach : reach s l T s' l' T';
  rl_pte va : 0 <= va < MAXVA -> pte_at (mem s') T' va = pte_at (mem s) T va;
  rl_none q : q ∈ l -> q ∈ l' \/ pt_page T' q
}.

Lemma PGROUNDUP_id a : page_aligned a -> 0 <= a <= MAXVA -> PGROUNDUP a = a.
Proof.
  unfold page_aligned. intros Ha Hb. rewrite MAXVA_pow in Hb.
  rewrite PGROUNDUP_eq; unfold PGSIZE in *; [dlia|lia].
Qed.

Lemma extended_uspace lo a perm s l T s' l' T' :
  0 <= perm < 1024 -> Z.lor perm PTE_V <> PTE_V ->
  extended lo a perm s l T s' l' T' -> uspace s' T' lo a.
Proof using PA.
  intros Hperm Hleaf [Hrc Hk Hmp Hij Hno]. split; [|done]. intros va Hva.
  destruct (Hmp va Hva) as (E & _ & _ & Hkp & HT & Hr & _).
  destruct (mk_pte_pa _ perm Hkp Hperm) as (_ & _ & Hfl).
  split; rewrite ?E; try done.
  - unfold bit. rewrite <- (land_PTE_FLAGS _ PTE_V), Hfl by done. unfold nz.
    destruct (Z.eqb_spec (Z.land (Z.lor perm PTE_V) PTE_V) 0) as [E0|]; [|done].
    apply (f_equal (fun z => Z.testbit z 0)) in E0.
    rewrite Z.land_spec, Z.lor_spec, orb_true_r in E0. done.
  - by rewrite Hfl.
  - by rewrite Hr.
  - rewrite Hr. done.
Qed.

Lemma extended_dealloc lo a perm s l T s1 l1 T1 :
  page_aligned lo -> page_aligned a -> 0 <= lo <= a -> a <= MAXVA ->
  0 <= perm < 1024 -> Z.lor perm PTE_V <> PTE_V -> ready s1 LkKmem ->
  (forall va, lo <= va < a -> pte_at (mem s) T va = 0) ->
  extended lo a perm s l T s1 l1 T1 ->
  exists r s2 l2, uvmdealloc (pt_root T) a lo s1 = Ret r s2 /\ released s l T s2 l2 T1.
Proof using PA.
  intros Hlo Ha Hle Hmax Hperm Hleaf Hr Hzero Hex.
  pose proof (extended_uspace _ _ _ _ _ _ _ _ _ Hperm Hleaf Hex) as Hus.
  destruct Hex as [Hrc Hk Hmp Hij Hno]. unfold uvmdealloc. destruct (Z.leb_spec a lo).
  - assert (a = lo) as -> by lia. do 3 eexists. split; [done|]. split; [done| |].
    + intros va Hva. apply Hk; [done|lia].
    + intros q Hq. destruct (Hno q Hq) as [?|[?|(va & [_ ?] & _)]]; auto. lia.
  - rewrite !PGROUNDUP_id by (done || lia). destruct (Z.ltb_spec lo a); [|lia].
    assert (Hn : s32 ((a - lo) / PGSIZE) = (a - lo) / PGSIZE).
    { apply s32_small. rewrite MAXVA_pow in Hmax. unfold PGSIZE. dlia. }
    rewrite Hn. assert (Hn' : u64 ((a - lo) / PGSIZE) = (a - lo) / PGSIZE).
    { apply u64_small. rewrite MAXVA_pow in Hmax. unfold PGSIZE. dlia. }
    rewrite Hn'. assert (Ea : lo + (a - lo) / PGSIZE * PGSIZE = a).
    { unfold page_aligned, PGSIZE in *. dlia. }
    destruct (uvmunmap_ok s1 l1 T1 lo ((a - lo) / PGSIZE)) as (s2 & l2 & E & Hum);
      rewrite ?Ea; [apply Hrc|done|apply Hrc|done|lia|unfold PGSIZE; dlia|done|done|].
    rewrite Ea, (rc_root _ _ _ _ _ _ Hrc) in *. destruct Hum as [Hi2 Hh2 Hvm2 Hp2 Hrf2 Hrn2 Hf2 Hm2].
    exists lo, s2, l2. split; [unfold bind, when; by rewrite E|]. split.
    + destruct Hrc as [? ? ? ? ? ? Hf1 Hpg1 Hr1 Hm1]. split; try done.
      * by transitivity s1.
      * intros q [?|(va & Hva & -> & _)]%Hf2; [auto|]. by apply Hmp.
      * intros q Hq Hql. rewrite Hrn2, Hr1; try done. intros va Hva ->. by apply Hql, Hmp.
      * intros b HbT Hbl. rewrite Hm2, Hm1; try done.
        -- intros p [?|?]%Hpg1; auto.
        -- intros va Hva _. by apply Hbl, Hmp.
    + intros va Hva. rewrite Hp2 by done. case_decide; [by rewrite Hzero|]. by apply Hk.
    + intros q Hq. destruct (Hno q Hq) as [Hq1|[?|(va & Hv & ->)]]; [left; apply Hf2; auto|auto|left].
      apply Hf2. right. exists va. split_and!; try done. by apply Hmp.
Qed.

(** The page allocated and mapped by one iteration of [uvmalloc]. *)
Lemma uvmalloc_map s p l T a perm :
  inv s (p :: l) -> ready s LkKmem -> vm_ok s T -> page_aligned a -> 0 <= a -> a + PGSIZE <= MAXVA ->
  0 <= perm < 1024 ->
  (forall va, a <= va < a + PGSIZE -> pte_at (mem s) T va = 0) ->
  exists s2 r s3 l3 T3,
    kalloc s = Ret p s2 /\
    (do! memset p 0 PGSIZE in mappages (pt_root T) a PGSIZE p perm) s2 = Ret r s3 /\
    reach s (p :: l) T s3 l3 T3 /\ kpage p /\ p ∉ l3 /\ ~ pt_page T3 p /\ refs s3 p = 1 /\
    (forall q, q ∈ l -> q ∈ l3 \/ pt_page T3 q) /\
    ((r = 0 /\ (forall b, in_page p b -> mget (mem s3) b = 0) /\
      forall va, 0 <= va < MAXVA -> pte_at (mem s3) T3 va =
        if decide (same_page a va) then mk_pte p perm else pte_at (mem s) T va) \/
     (r = -1 /\ forall va, 0 <= va < MAXVA -> pte_at (mem s3) T3 va = pte_at (mem s) T va)).
Proof using PA.
  intros Hi Hr Hvm Ha Ha0 Hmax Hperm Hz.
  destruct (alloc_reach s p l T) as (s1 & E1 & Hrc1 & Hsp1 & Hr1 & Hp & HT & Hl); [done..|].
  destruct (kpage_bounds p Hp) as (Hb1 & Hb2 & Hb3). destruct (kpage_pa p Hp) as [Hpa _].
  set (f := fun m => mem_fill m p (Z.to_nat PGSIZE) 0).
  destruct (write_reach s (p :: l) T s1 l T p f) as [Hrc2 Hsp2]; try done; [left| |].
  { intros m b Hb. unfold f. rewrite mget_fill, decide_False; [done|by unfold in_page in Hb]. }
  set (s2 := set_mem f s1) in *.
  assert (EG : PGROUNDDOWN a = a) by (by apply PGROUNDDOWN_id).
  assert (EG2 : PGROUNDDOWN (a + PGSIZE - 1) = a).
  { rewrite PGROUNDDOWN_eq. unfold page_aligned, PGSIZE in *. dlia. }
  destruct (mappages_ok s2 l T a PGSIZE p perm) as (r & s3 & l3 & T3 & hi & E3 & Hg & Hrm & Hcase);
    try done; try apply Hrc2; try (unfold PHYSTOP, KERNBASE, PGSIZE in *; lia).
  { eapply ready_hart_eq; [apply Hrc2|done]. }
  { intros va Hva. rewrite EG in Hva. by rewrite Hsp2, Hsp1, Hz. }
  rewrite EG, ?EG2 in *. pose proof (grows_reach _ _ _ _ _ _ Hg) as Hrc3.
  destruct (reach_keeps _ _ _ _ _ _ p (rc_inv _ _ _ _ _ _ Hrc2) (rc_ok _ _ _ _ _ _ Hrc2) Hrc3 Hp Hl HT)
    as (Hl3 & HT3 & Hr3 & Hc3).
  exists s1, r, s3, l3, T3. split_and!; try done.
  - unfold bind, memset. rewrite in_ram_true, orb_true_r by done. exact E3.
  - by eapply reach_trans.
  - by rewrite Hr3.
  - apply Hg.
  - destruct Hcase as [[-> ->]|(-> & _ & _ & ?)]; [left|right]; split_and!; try done.
    + intros b Hb. rewrite Hc3 by done. unfold s2, f. mcbn. rewrite mget_fill. by rewrite decide_True.
    + intros va Hva. rewrite Hrm by done. destruct (mk_pte_pa p perm) as (_ & Hu & _); [done..|].
      rewrite Hsp2, Hsp1. pose proof (same_page_range a va Ha) as Hsr.
      repeat case_decide; try done; try tauto.
      assert (PGROUNDDOWN va = a) as ->.
      { rewrite PGROUNDDOWN_eq. unfold page_aligned, PGSIZE in *. dlia. }
      by rewrite Z.sub_diag, Z.add_0_r.
    + intros va Hva. rewrite Hrm by done. rewrite decide_False by lia. by rewrite Hsp2, Hsp1.
Qed.

(** The failure exits of [uvmalloc] give back what it took. *)
Lemma uvmalloc_fail lo a perm s l T s1 l1 T1 (P : Z + Z -> machine -> Prop) :
  page_aligned lo -> page_aligned a -> 0 <= lo <= a -> a <= MAXVA ->
  0 <= perm < 1024 -> Z.lor perm PTE_V <> PTE_V -> ready s LkKmem ->
  (forall va, lo <= va < a -> pte_at (mem s) T va = 0) ->
  extended lo a perm s l T s1 l1 T1 ->
  (forall s2 l2, released s l T s2 l2 T1 -> P (inr 0) s2) ->
  wp (do! uvmdealloc (pt_root T) a lo in ret (inr 0)) P s1.
Proof using PA.
  intros Hlo Ha Hle Hmax Hperm Hleaf Hr Hz Hex HP. pose proof (ex_reach _ _ _ _ _ _ _ _ _ Hex) as Hrc.
  destruct (extended_dealloc lo a perm s l T s1 l1 T1) as (r & s2 & l2 & E & Hrl); try done.
  { eapply ready_hart_eq; [apply Hrc|done]. }
  wp_steps. eapply wp_eq; [exact E|]. apply wp_ret. eauto.
Qed.

(** [uvmalloc] maps fresh zeroed pages over the new range and returns the new
    size, or undoes its work and returns 0. *)
Lemma uvmalloc_ok s l T oldsz newsz xperm :
  let perm := Z.lor (Z.lor PTE_R PTE_U) xperm in
  inv s l -> ready s LkKmem -> vm_ok s T -> 0 <= oldsz <= newsz -> newsz <= MAXVA - PGSIZE ->
  0 <= perm < 1024 ->
  (forall va, PGROUNDUP oldsz <= va < PGROUNDUP newsz -> pte_at (mem s) T va = 0) ->
  exists r s' l' T', uvmalloc (pt_root T) oldsz newsz xperm s = Ret r s' /\
    ((r = newsz /\ extended (PGROUNDUP oldsz) (PGROUNDUP newsz) perm s l T s' l' T') \/
     (r = 0 /\ released s l T s' l' T')).
Proof using PA.
  intros perm Hi Hr Hvm Hsz Hmax Hperm Hz. rewrite MAXVA_pow in Hmax. pose proof MAXVA_pow as HM.
  assert (Hleaf : Z.lor perm PTE_V <> PTE_V).
  { intros E. apply (f_equal (fun z => Z.testbit z 1)) in E. unfold perm in E.
    rewrite !Z.lor_spec in E. done. }
  assert (Hlo : PGROUNDUP oldsz = (oldsz + PGSIZE - 1) / PGSIZE * PGSIZE)
    by (apply PGROUNDUP_eq; unfold PGSIZE in *; lia).
  assert (Hhi : PGROUNDUP newsz = (newsz + PGSIZE - 1) / PGSIZE * PGSIZE)
    by (apply PGROUNDUP_eq; unfold PGSIZE in *; lia).
  set (lo := PGROUNDUP oldsz) in *. set (hi := PGROUNDUP newsz) in *.
  assert (Hb : 0 <= lo <= hi /\ hi <= MAXVA /\ page_aligned lo /\ page_aligned hi /\ newsz <= hi < newsz + PGSIZE).
  { rewrite Hlo, Hhi, HM. unfold page_aligned, PGSIZE in *. split_and!; dlia. }
  destruct Hb as (Hb1 & Hb2 & Hb3 & Hb4 & Hb5).
  enough (Hwp : wp (uvmalloc (pt_root T) oldsz newsz xperm) (fun r s' => exists l' T',
     (r = newsz /\ extended lo hi perm s l T s' l' T') \/ (r = 0 /\ released s l T s' l' T')) s).
  { apply wp_inv in Hwp as (r & s' & E & l' & T' & H'). eauto 10. }
  unfold uvmalloc. destruct (Z.ltb_spec newsz oldsz); [lia|]. fold lo perm.
  apply (wp_while _ (fun a s1 => page_aligned a /\ lo <= a <= hi /\ exists l1 T1, extended lo a perm s l T s1 l1 T1)
           (fun a => hi - a)); [|split_and!; [done|lia|lia|]; exists l, T; by apply extended_refl|lia].
  intros a s1 (Ha & Hab & l1 & T1 & Hex). destruct (Z.ltb_spec a newsz).
  2: { apply wp_ret. assert (a = hi) as -> by (unfold page_aligned, PGSIZE in *; dlia). eauto 10. }
  assert (Hah : a + PGSIZE <= hi) by (unfold page_aligned, PGSIZE in *; dlia).
  pose proof (ex_reach _ _ _ _ _ _ _ _ _ Hex) as Hrc.
  assert (Hr1 : ready s1 LkKmem) by (eapply ready_hart_eq; [apply Hrc|done]).
  destruct l1 as [|p l1].
  - destruct (alloc_none (PageAllocator := PA) s1) as (s2 & E & Hi2 & Hh2 & Hm2 & Hc2); [apply Hrc|done|].
    wp_steps. eapply wp_eq; [exact E|]. simpl.
    destruct (grows_none s1 T1 s2) as [Hg Hsp]; try done; [apply Hrc|].
    eapply (uvmalloc_fail lo a perm s l T s2 []); try done; [lia|lia|intros va Hva; apply Hz; lia| |].
    + eapply extended_frame; [| |exact Hex|by apply grows_reach|done|]; [lia|lia|set_solver].
    + eauto 10.
  - destruct (uvmalloc_map s1 p l1 T1 a perm)
      as (s2 & r & s3 & l3 & T3 & E2 & E3 & Hrc3 & Hp & Hp3 & HpT & Hp1 & Hlost & Hcase);
      try done; try apply Hrc; [lia|lia| |].
    { intros va Hva. rewrite (ex_keep _ _ _ _ _ _ _ _ _ Hex); [apply Hz|..]; lia. }
    wp_steps. eapply wp_eq; [exact E2|]. destruct (Z.eqb_spec p 0).
    { by destruct (kpage_bounds p Hp) as (_ & _ & ?). }
    rewrite (rc_root _ _ _ _ _ _ Hrc) in E3.
    pose proof (wp_eq _ (fun r' s' => r' = r /\ s' = s3) _ _ _ E3 (conj eq_refl eq_refl)) as W.
    apply wp_bind_inv in W. wp_steps. eapply wp_conseq; [exact W|]. intros u2 s2' W2. wp_steps.
    eapply wp_conseq; [exact W2|]. intros r' s' [-> ->].
    clear E2 E3 W W2. destruct Hcase as [(-> & Hzero & Hpte)|(-> & Hpte)]; simpl.
    + apply wp_ret. rewrite u64_small by (unfold PGSIZE in *; lia). split; [|unfold PGSIZE in *; lia].
      split_and!; [unfold page_aligned, PGSIZE in *; dlia|unfold PGSIZE in *; lia|done|].
      exists l3, T3. eapply extended_map; try exact Hex; try done; [lia..|left|].
      intros q [->|?]%elem_of_cons; auto.
    + wp_steps. destruct (kfree_page s3 l3 p) as (s4 & l4 & E4 & Hi4 & He4 & Hr4 & Hf4 & _); try done.
      { apply Hrc3. } { eapply ready_hart_eq; [apply Hrc3|done]. } { lia. } { by rewrite Hp1. }
      eapply wp_eq; [exact E4|].
      destruct (reach_effect s1 (p :: l1) T1 s3 l3 T3 s4 l4 p) as [Hrc4 Hsp4]; try done.
      { intros q [?|[? _]]%Hf4; auto. } { left. }
      eapply (uvmalloc_fail lo a perm s l T s4 l4 T3); try done; [lia|lia|intros va Hva; apply Hz; lia| |eauto 10].
      eapply extended_frame; [| |exact Hex|exact Hrc4| |]; [lia|lia| |].
      * intros va Hva. by rewrite Hsp4, Hpte.
      * intros q [->|Hq]%elem_of_cons; [left; apply Hf4; auto|].
        destruct (Hlost q Hq); [left; apply Hf4; auto|auto].
Qed.
End user.
