(* ===== verification/VmCow.v ===== *)
(** * Copy-on-write sharing ([uvmcopy] of [kernel/vm.c], [cowalloc] of
    [kernel/trap.c])

    [uvmcopy] gives the child the parent's pages; [cowalloc] gives a process a
    private copy of a page marked copy-on-write. *)

From S2P Require Import Prelude Riscv Memory Machine Spinlock Kalloc Vm PageTable VmWalk VmMap VmUser.

(** The permissions [uvmcopy] gives the child. *)
Definition cow_flags (pte : Z) : Z :=
  let flags := PTE_FLAGS pte in
  let flags := if bit flags PTE_W then Z.land (Z.lor flags PTE_C) (Z.lnot PTE_W) else flags in
  Z.lor flags PTE_C.

Lemma flags_closed x : Z.land x 1023 = x -> 0 <= x < 1024.
Proof.
  intros <-. change 1023 with (Z.ones 10). rewrite Z.land_ones by lia. apply Z.mod_pos_bound. lia.
Qed.

Lemma cow_flags_range pte : 0 <= cow_flags pte < 1024.
Proof.
  apply flags_closed. unfold cow_flags. rewrite Z.land_lor_distr_l. change (Z.land PTE_C 1023) with PTE_C. f_equal.
  assert (Hf : Z.land (PTE_FLAGS pte) 1023 = PTE_FLAGS pte).
  { unfold PTE_FLAGS. by rewrite <- Z.land_assoc. }
  case_match; [|done].
  rewrite <- Z.land_assoc, (Z.land_comm (Z.lnot _)), Z.land_assoc, Z.land_lor_distr_l, Hf. done.
Qed.

Lemma cow_flags_spec pte :
  bit (cow_flags pte) PTE_C = true /\ bit (cow_flags pte) PTE_W = false /\
  Z.lor (cow_flags pte) PTE_V <> PTE_V.
Proof.
  unfold cow_flags, bit. split_and!.
  - unfold nz. apply negb_true_iff, Z.eqb_neq. intros E. apply (f_equal (fun z => Z.testbit z 8)) in E.
    rewrite Z.land_spec, Z.lor_spec in E. change (Z.testbit PTE_C 8) with true in E.
    by rewrite orb_true_r in E.
  - rewrite Z.land_lor_distr_l. change (Z.land PTE_C PTE_W) with 0. rewrite Z.lor_0_r.
    destruct (nz (Z.land (PTE_FLAGS pte) PTE_W)) eqn:E; [|done].
    rewrite <- Z.land_assoc. change (Z.land (Z.lnot PTE_W) PTE_W) with 0. by rewrite Z.land_0_r.
  - intros E. apply (f_equal (fun z => Z.testbit z 8)) in E. rewrite !Z.lor_spec in E.
    change (Z.testbit PTE_C 8) with true in E. by rewrite orb_true_r in E.
Qed.

(** Reading the entry that maps a present page. *)
Lemma walk_present `{KernelImage} s T va :
  vm_ok s T -> 0 <= va < MAXVA -> bit (pte_at (mem s) T va) PTE_V = true ->
  exists a, pt_slot T va = Some a /\ walk (pt_root T) va false s = Ret a s /\ a <> 0 /\
    ld64 a s = Ret (pte_at (mem s) T va) s.
Proof.
  intros Hvm Hva Hv. unfold pte_at in Hv. destruct (pt_slot T va) as [a|] eqn:Hs.
  2: { unfold pt_slot in Hs. by destruct (pt_l0 T !! _). }
  exists a. destruct (pt_slot_page _ _ _ _ (proj1 Hvm) Hs) as (q & _ & _ & _ & ? & ? & Hnz).
  split_and!; [done| |done|].
  - by rewrite walk_lookup, Hs.
  - unfold ld64. rewrite in_ram_true by done. by rewrite (pt_slot_ent _ T va a).
Qed.

(** Whether some page below [a] has the image [q]. *)
Lemma vpage_search a (f : Z -> Z) q :
  page_aligned a -> (exists va, vpage 0 a va /\ q = f va) \/ (forall va, vpage 0 a va -> q <> f va).
Proof.
  intros Ha. destruct (decide (Exists (fun k => q = f (k * PGSIZE)) (seqZ 0 (a / PGSIZE)))) as [H|H].
  - left. apply list.Exists_exists in H as (k & Hk & ->). exists (k * PGSIZE). split; [|done].
    apply elem_of_seqZ in Hk. unfold vpage, page_aligned, PGSIZE in *. split; dlia.
  - right. intros va [Hva Hb] ->. apply H, list.Exists_exists. exists (va / PGSIZE). split.
    + apply elem_of_seqZ. unfold page_aligned, PGSIZE in *. dlia.
    + f_equal. unfold page_aligned, PGSIZE in *. dlia.
Qed.

Section cow.
Context {KI : KernelImage} {inv : machine -> list Z -> Prop} {PA : PageAllocator kalloc kfree inv}.
Notation grows := (grows (inv := inv)).

(** Taking one more reference to a page that is not free. *)
Lemma krefincr_inv s l p :
  inv s l -> ready s LkKmem -> kpage p -> 1 <= refs s p -> refs s p < 2 ^ 31 - 1 ->
  exists s', krefincr p s = Ret tt s' /\ inv s' l /\ hart_eq s s' /\ mem s' = mem s /\
    refs s' p = refs s p + 1 /\ (forall q, kpage q -> q <> p -> refs s' q = refs s q).
Proof using PA.
  intros Hi Hr Hp H1 Hmax. destruct (alloc_inv_pages (PageAllocator := PA) s l Hi) as [_ Hl].
  exists (krefset_state p (refs s p + 1) s).
  assert (Hrq : forall q, kpage q -> q <> p -> refs (krefset_state p (refs s p + 1) s) q = refs s q).
  { intros q Hq Hne. unfold krefset_state. rewrite refs_set_count by done. by rewrite decide_False. }
  split_and!.
  - apply krefincr_eq; [done|done|unfold int_range; lia].
  - apply (alloc_frame (PageAllocator := PA) s); [done|done|done|].
    intros q Hq. destruct (Hl q Hq) as [Hkq H0]. apply Hrq; [done|]. intros ->. lia.
  - apply (hart_eq_touch s).
  - done.
  - unfold krefset_state. rewrite refs_set_count by done. by rewrite decide_True.
  - done.
Qed.

(** Dropping a reference without looking whether it was the last. *)
Lemma krefdecr_inv s l p :
  inv s l -> ready s LkKmem -> kpage p -> 1 <= refs s p -> int_range (refs s p) ->
  exists s', krefdecr p s = Ret tt s' /\ inv s' l /\ hart_eq s s' /\ mem s' = mem s /\
    refs s' p = refs s p - 1 /\ (forall q, kpage q -> q <> p -> refs s' q = refs s q).
Proof using PA.
  intros Hi Hr Hp H1 Hint. destruct (alloc_inv_pages (PageAllocator := PA) s l Hi) as [_ Hl].
  exists (krefset_state p (refs s p - 1) s).
  assert (Hrq : forall q, kpage q -> q <> p -> refs (krefset_state p (refs s p - 1) s) q = refs s q).
  { intros q Hq Hne. unfold krefset_state. rewrite refs_set_count by done. by rewrite decide_False. }
  split_and!.
  - apply krefdecr_eq; [done|done|unfold int_range in *; lia].
  - apply (alloc_frame (PageAllocator := PA) s); [done|done|done|].
    intros q Hq. destruct (Hl q Hq) as [Hkq H0]. apply Hrq; [done|]. intros ->. lia.
  - apply (hart_eq_touch s).
  - done.
  - unfold krefset_state. rewrite refs_set_count by done. by rewrite decide_True.
  - done.
Qed.

(** ** [uvmcopy] *)

Section uvmcopy.
Context (s : machine) (l : list Z) (T Tn : ptree) (hi : Z).

(** A parent with its pages mapped below [hi], and a child's table with
    nothing mapped there. *)
Record forkable : Prop := mk_forkable {
  fk_inv : inv s l;
  fk_ready : ready s LkKmem;
  fk_old : vm_ok s T;
  fk_new : vm_ok s Tn;
  fk_disj p : pt_page T p -> ~ pt_page Tn p;
  fk_hi : page_aligned hi /\ 0 <= hi <= MAXVA;
  fk_space : uspace s T 0 hi;
  fk_tree va : vpage 0 hi va -> ~ pt_page Tn (pa_at s T va);
  fk_max va : vpage 0 hi va -> refs s (pa_at s T va) < 2 ^ 31 - 1;
  fk_zero va : 0 <= va < hi -> pte_at (mem s) Tn va = 0
}.

(** The child's entry for the parent's page at [p]. *)
Definition cow_pte (p : Z) : Z := mk_pte (pa_at s T p) (cow_flags (pte_at (mem s) T p)).

(** The pages below [a] are shared: the child's entries map the parent's
    pages, without write permission and marked copy-on-write; the pages in
    [P] have one more reference; the parent's entries and the content of
    every page are as they were. *)
Record shared (a : Z) (P : Z -> Prop) (s' : machine) (l' : list Z) (T' : ptree) : Prop := {
  sh_inv : inv s' l';
  sh_hart : hart_eq s s';
  sh_ok : vm_ok s' T';
  sh_root : pt_root T' = pt_root Tn;
  sh_old : vm_ok s' T;
  sh_pte_old va : pte_at (mem s') T va = pte_at (mem s) T va;
  sh_free q : q ∈ l' -> q ∈ l;
  sh_none q : q ∈ l -> q ∈ l' \/ pt_page T' q;
  sh_pages p : pt_page T' p -> pt_page Tn p \/ p ∈ l;
  sh_pte : remapped 0 a cow_pte s Tn s' T';
  sh_refs va : vpage 0 hi va -> P va -> refs s' (pa_at s T va) = refs s (pa_at s T va) + 1;
  sh_refs_ne q : kpage q -> q ∉ l -> (forall va, vpage 0 hi va -> P va -> q <> pa_at s T va) ->
    refs s' q = refs s q;
  sh_mem b : (forall p, pt_page T' p -> ~ in_page p b) -> mget (mem s') b = mget (mem s) b
}.

Lemma shared_refl : forkable -> shared 0 (fun va => va < 0) s l Tn.
Proof using PA.
  intros [Hi Hr Ho Hn Hd Hhi Hus Ht Hm Hz]. split; auto; try done.
  - apply remapped_refl.
  - intros va [_ ?] ?. lia.
Qed.

(** A page of the parent is a page of neither tree, nor free. *)
Lemma user_page_fresh a P s1 l1 T1 va :
  forkable -> shared a P s1 l1 T1 -> vpage 0 hi va ->
  upage s T va /\ ~ pt_page T (pa_at s T va) /\ ~ pt_page T1 (pa_at s T va) /\ pa_at s T va ∉ l /\
  1 <= refs s (pa_at s T va) /\ kpage (pa_at s T va).
Proof using PA.
  intros [Hi Hr Ho Hn Hd Hhi [Hup _] Ht Hm Hz] Hsh Hva. pose proof (Hup va Hva) as Hp.
  pose proof Hp as [Hv Hlf Hk HT H1 Hint].
  assert (Hl : pa_at s T va ∉ l).
  { intros Hl. apply (alloc_inv_pages (PageAllocator := PA) s l Hi) in Hl as [_ ?]. lia. }
  split_and!; try done. intros [?|?]%(sh_pages _ _ _ _ _ Hsh); [by eapply Ht|done].
Qed.

(** [krefincr] of the page at [a]. *)
Lemma shared_incr a s1 l1 T1 :
  forkable -> vpage 0 hi a -> shared a (fun va => va < a) s1 l1 T1 ->
  exists s2, krefincr (pa_at s T a) s1 = Ret tt s2 /\ shared a (fun va => va < a + PGSIZE) s2 l1 T1.
Proof using PA.
  intros Hfk Ha Hsh. destruct (user_page_fresh _ _ _ _ _ a Hfk Hsh Ha) as (Hup & HpT & HpT1 & Hpl & H1 & Hk).
  pose proof Hfk as [Hi Hr Ho Hn Hd Hhi [_ Hinj] Ht Hm Hz].
  pose proof Hsh as [Hi1 Hh1 Hok1 Hroot Hold Hpo Hf Hno Hpg Hpte Hrf Hrn Hmem].
  set (p := pa_at s T a) in *.
  assert (E : refs s1 p = refs s p).
  { apply Hrn; [done|done|]. intros va Hva Hlt Epa. enough (a = va) by lia. by apply Hinj. }
  destruct (krefincr_inv s1 l1 p) as (s2 & Ek & Hi2 & Hh2 & Hm2 & Hp2 & Hq2); try done.
  { by rewrite <- Hh1. } { by rewrite E. } { rewrite E. by apply Hm. }
  exists s2. split; [done|].
  destruct (vm_ok_frame s1 s2 T1 Hok1) as [Hok2 Hpt2].
  { intros q Hq. apply Hq2; [by apply (vm_ok_kpage s1 T1)|]. by intros ->. } { by rewrite Hm2. }
  destruct (vm_ok_frame s1 s2 T Hold) as [Hold2 Hpo2].
  { intros q Hq. apply Hq2; [by apply (vm_ok_kpage s1 T)|]. by intros ->. } { by rewrite Hm2. }
  assert (Hsplit : forall va, vpage 0 hi va -> va < a + PGSIZE -> va < a \/ va = a).
  { intros va [Hva _] Hlt. destruct Ha as [Ha _]. unfold page_aligned, PGSIZE in *. dlia. }
  split; try done.
  - by transitivity s1.
  - intros va. by rewrite Hpo2.
  - by eapply remapped_same.
  - intros va Hva Hlt. destruct (Hsplit va Hva Hlt) as [Hlt'| ->]; [|by fold p; rewrite Hp2, E].
    rewrite Hq2, Hrf; try done; [apply (user_page_fresh _ _ _ _ _ va Hfk Hsh Hva)|].
    intros Epa. enough (va = a) by lia. by apply Hinj.
  - intros q Hq Hql Hne. rewrite Hq2, Hrn; try done.
    + intros va Hva Hlt. apply Hne; [done|]. unfold PGSIZE. lia.
    + apply Hne; [done|]. unfold PGSIZE. lia.
  - intros b Hb. rewrite Hm2. auto.
Qed.

(** Page tables added to the child's tree. *)
Lemma shared_grows a a' P s1 l1 T1 s2 l2 T2 :
  forkable -> shared a P s1 l1 T1 -> grows s1 l1 T1 s2 l2 T2 -> remapped 0 a' cow_pte s Tn s2 T2 ->
  shared a' P s2 l2 T2.
Proof using PA.
  intros Hfk Hsh Hg Hrm. pose proof Hfk as [Hi Hr Ho Hn Hd Hhi _ Ht Hm Hz].
  pose proof Hsh as [Hi1 Hh1 Hok1 Hroot Hold Hpo Hf Hno Hpg Hpte Hrf Hrn Hmem].
  pose proof Hg as [Hi2 Hh2 Hok2 Hroot2 Hs1 Hs0 Hpg2 [k El] Hno2 Hm2 Hrf2].
  assert (Hl21 : forall q, q ∈ l2 -> q ∈ l1) by (rewrite El; set_solver).
  assert (Hsub : forall p, pt_page T1 p -> pt_page T2 p) by (intros p; by apply pt_page_sub).
  assert (Hfresh : forall q, pt_page T q -> q ∉ l /\ ~ pt_page T2 q).
  { intros q Hq. assert (Hql : q ∉ l) by (by apply (vm_ok_not_free s l T)). split; [done|].
    intros [[?|?]%Hpg|[? _]]%Hpg2; [by eapply Hd|done|auto]. }
  destruct (vm_ok_frame s1 s2 T Hold) as [Hold2 Hpo2].
  { intros q Hq. destruct (Hfresh q Hq) as [Hql _]. apply Hrf2; [by apply (vm_ok_kpage s1 T)|]. intros ?. by destruct Hql; auto. }
  { intros q b Hq Hb. apply Hm2. intros x Hx Hb'. apply (Hfresh q Hq).
    rewrite (kpage_disj q x b); try done; [by apply (vm_ok_kpage s1 T)|by apply (vm_ok_kpage s2 T2)]. }
  split; try done.
  - by transitivity s1.
  - congruence.
  - intros va. by rewrite Hpo2.
  - auto.
  - intros q Hq. destruct (Hno q Hq) as [?|?]; auto.
  - intros p [?|[? _]]%Hpg2; auto.
  - intros va Hva HP. destruct (user_page_fresh _ _ _ _ _ va Hfk Hsh Hva) as (_ & _ & _ & Hpl & _ & Hk).
    rewrite Hrf2, Hrf; try done. intros ?. destruct Hpl. auto.
  - intros q Hq Hql Hne. rewrite Hrf2, Hrn; try done. intros ?. destruct Hql. auto.
  - intros b Hb. rewrite Hm2, Hmem; auto.
Qed.

Lemma cow_pte_facts va : kpage (pa_at s T va) ->
  u64 (cow_pte va) = cow_pte va /\ PTE2PA (cow_pte va) = pa_at s T va /\
  PTE_FLAGS (cow_pte va) = Z.lor (cow_flags (pte_at (mem s) T va)) PTE_V.
Proof.
  intros Hk. destruct (mk_pte_pa (pa_at s T va) (cow_flags (pte_at (mem s) T va)) Hk) as (? & ? & ?); [|done].
  apply cow_flags_range.
Qed.

(** Mapping the page at [a] in the child. *)
Lemma shared_map a P s1 l1 T1 :
  forkable -> vpage 0 hi a -> shared a P s1 l1 T1 ->
  exists r s2 l2 T2,
    mappages (pt_root Tn) a PGSIZE (pa_at s T a) (cow_flags (pte_at (mem s) T a)) s1 = Ret r s2 /\
    (r = 0 /\ shared (a + PGSIZE) P s2 l2 T2 \/ r = -1 /\ shared a P s2 l2 T2).
Proof using PA.
  intros Hfk Ha Hsh. destruct (user_page_fresh _ _ _ _ _ a Hfk Hsh Ha) as (Hup & HpT & HpT1 & Hpl & H1 & Hk).
  pose proof Hfk as [_ Hr _ _ _ [Hal Hmax] _ _ _ Hz]. destruct Ha as [Haa Hab].
  assert (Hpmax : a + PGSIZE <= MAXVA) by (unfold page_aligned, PGSIZE in *; dlia).
  destruct (kpage_pa _ Hk) as [Hpa _]. destruct (kpage_bounds _ Hk) as (_ & Hpb & _).
  assert (EG : PGROUNDDOWN a = a) by (by apply PGROUNDDOWN_id).
  assert (EG2 : PGROUNDDOWN (a + PGSIZE - 1) = a).
  { rewrite PGROUNDDOWN_eq. unfold page_aligned, PGSIZE in *. dlia. }
  pose proof Hsh as [Hi1 Hh1 Hok1 Hroot _ _ _ _ _ Hpte _ _ _].
  destruct (mappages_ok s1 l1 T1 a PGSIZE (pa_at s T a) (cow_flags (pte_at (mem s) T a)))
    as (r & s2 & l2 & T2 & h & E & Hg & Hrm & Hcase);
    try done; try (unfold PHYSTOP, KERNBASE, PGSIZE in *; lia).
  { by rewrite <- Hh1. }
  { intros va Hva. rewrite EG in Hva. rewrite Hpte by lia. rewrite decide_False by lia.
    rewrite Hz; [done|]. unfold page_aligned, PGSIZE in *. clear -Hva Hal Hab Haa. dlia. }
  rewrite EG, ?EG2, Hroot in *. exists r, s2, l2, T2. split; [done|].
  destruct Hcase as [[-> ->]|(-> & _ & _ & ?)]; [left|right]; (split; [done|]); eapply shared_grows; try done.
  - eapply remapped_step; try done; [lia|]. intros va Hva. rewrite Hrm by done.
    pose proof (same_page_range a va Haa) as Hsr. repeat case_decide; try done; try tauto.
    assert (PGROUNDDOWN va = a) as ->.
    { rewrite PGROUNDDOWN_eq. unfold page_aligned, PGSIZE in *. dlia. }
    rewrite Z.sub_diag, Z.add_0_r. by apply cow_pte_facts.
  - intros va Hva. rewrite Hrm by done. rewrite decide_False by lia. by apply Hpte.
Qed.

Lemma shared_entry a P s1 l1 T1 va :
  forkable -> a <= hi -> shared a P s1 l1 T1 -> vpage 0 a va ->
  pte_at (mem s1) T1 va = cow_pte va /\ pa_at s1 T1 va = pa_at s T va /\ vpage 0 hi va.
Proof using PA.
  intros Hfk Hle Hsh [Hal Hab]. assert (Hva : vpage 0 hi va) by (split; [done|lia]).
  destruct (user_page_fresh _ _ _ _ _ va Hfk Hsh Hva) as (_ & _ & _ & _ & _ & Hk).
  destruct (fk_hi Hfk). assert (E : pte_at (mem s1) T1 va = cow_pte va).
  { rewrite (sh_pte _ _ _ _ _ Hsh) by lia. rewrite decide_True by lia. by rewrite PGROUNDDOWN_id. }
  split_and!; [done| |done]. unfold pa_at at 1. rewrite E. by apply cow_pte_facts.
Qed.

(** The pages the child shares make up its address space. *)
Lemma shared_uspace a (P : Z -> Prop) s1 l1 T1 :
  forkable -> a <= hi -> (forall va, va < a -> P va) -> shared a P s1 l1 T1 -> uspace s1 T1 0 a.
Proof using PA.
  intros Hfk Hle HP Hsh. split.
  - intros va Hva. destruct (shared_entry _ _ _ _ _ _ Hfk Hle Hsh Hva) as (E & Epa & Hva').
    destruct (user_page_fresh _ _ _ _ _ va Hfk Hsh Hva') as (_ & _ & HT1 & _ & H1 & Hk).
    destruct (cow_pte_facts va Hk) as (_ & _ & Hfl).
    pose proof (fk_max Hfk va Hva') as Hmax.
    assert (Hrf : refs s1 (pa_at s T va) = refs s (pa_at s T va) + 1).
    { apply Hsh; [done|]. apply HP, Hva. }
    split; rewrite ?E, ?Epa, ?Hrf; try done.
    + unfold bit. rewrite <- (land_PTE_FLAGS _ PTE_V), Hfl by done.
      rewrite Z.land_lor_distr_l. unfold nz. apply negb_true_iff, Z.eqb_neq. intros E0.
      apply (f_equal (fun z => Z.testbit z 0)) in E0. rewrite Z.lor_spec in E0.
      change (Z.testbit (Z.land PTE_V PTE_V) 0) with true in E0. by rewrite orb_true_r in E0.
    + rewrite Hfl. apply cow_flags_spec.
    + lia.
    + unfold int_range. lia.
  - intros va va' Hva Hva'. destruct (shared_entry _ _ _ _ _ _ Hfk Hle Hsh Hva) as (_ & -> & ?).
    destruct (shared_entry _ _ _ _ _ _ Hfk Hle Hsh Hva') as (_ & -> & ?). by apply (fk_space Hfk).
Qed.

(** The error exit drops the references of the pages already mapped, but not
    the one taken to the page at [a]. *)
Lemma shared_undo a s1 l1 T1 :
  forkable -> vpage 0 hi a -> shared a (fun va => va < a + PGSIZE) s1 l1 T1 ->
  exists s2 l2, uvmunmap (pt_root Tn) 0 (a / PGSIZE) true s1 = Ret tt s2 /\
    shared 0 (fun va => va = a) s2 l2 T1.
Proof using PA.
  intros Hfk Ha Hsh. pose proof Ha as [Haa Hab]. pose proof (fk_hi Hfk) as [Hal Hmax].
  assert (Hus : uspace s1 T1 0 a).
  { eapply shared_uspace; try done; [lia|]. unfold PGSIZE. simpl. lia. }
  assert (En : 0 + a / PGSIZE * PGSIZE = a) by (unfold page_aligned, PGSIZE in *; dlia).
  pose proof Hsh as [Hi1 Hh1 Hok1 Hroot Hold Hpo Hf Hno Hpg Hpte Hrf Hrn Hmem].
  destruct (uvmunmap_ok s1 l1 T1 0 (a / PGSIZE)) as (s2 & l2 & E & Hum); rewrite ?En; try done.
  { rewrite <- Hh1. apply Hfk. } { unfold PGSIZE. dlia. } { lia. }
  rewrite En, Hroot in *. exists s2, l2. split; [done|].
  destruct Hum as [Hi2 Hh2 Hok2 Hp2 Hrf2 Hrn2 Hfr2 Hm2].
  assert (Hent : forall va, vpage 0 a va -> pa_at s1 T1 va = pa_at s T va /\ vpage 0 hi va /\
            2 <= refs s1 (pa_at s T va)).
  { intros va Hva. destruct (shared_entry a _ _ _ _ va Hfk ltac:(lia) Hsh Hva) as (_ & ? & Hva').
    destruct (user_page_fresh _ _ _ _ _ va Hfk Hsh Hva') as (_ & _ & _ & _ & ? & _).
    split_and!; [done|done|]. rewrite Hrf; [lia|done|]. destruct Hva. unfold PGSIZE. lia. }
  assert (Hfree : forall q, q ∈ l2 <-> q ∈ l1).
  { intros q. rewrite Hfr2. split; [|auto]. intros [?|(va & Hva & -> & H1)]; [done|].
    destruct (Hent va Hva) as (Epa & _ & ?). rewrite Epa in H1. lia. }
  assert (Hm2' : forall b, (forall p, pt_page T1 p -> ~ in_page p b) -> mget (mem s2) b = mget (mem s1) b).
  { intros b Hb. apply Hm2; [done|]. intros va Hva H1. destruct (Hent va Hva) as (Epa & _ & ?).
    rewrite Epa in H1. lia. }
  destruct (vm_ok_frame s1 s2 T Hold) as [Hold2 Hpo2].
  { intros q Hq. apply Hrn2; [by apply (vm_ok_kpage s1 T)|]. intros va Hva ->.
    destruct (Hent va Hva) as (Epa & Hva' & _). rewrite Epa in Hq.
    destruct (user_page_fresh _ _ _ _ _ va Hfk Hsh Hva') as (_ & ? & _). done. }
  { intros q b Hq Hb. apply Hm2'. intros x Hx Hb'.
    assert (x = q) as -> by (apply (kpage_disj x q b); try done; [by apply (vm_ok_kpage s1 T1)|by apply (vm_ok_kpage s1 T)]).
    destruct (Hpg q Hx); [by eapply (fk_disj Hfk)|].
    eapply (vm_ok_not_free s l T q); [apply Hfk|apply Hfk|done|done]. }
  pose proof (us_inj _ _ _ _ (fk_space Hfk)) as Hinj.
  split; try done.
  - by transitivity s1.
  - intros va. by rewrite Hpo2.
  - intros q Hq. by apply Hf, Hfree.
  - intros q Hq. rewrite Hfree. auto.
  - intros va Hva. rewrite decide_False by lia. rewrite Hp2, Hpte by done.
    repeat case_decide; try done. symmetry. apply (fk_zero Hfk). lia.
  - intros va Hva ->. rewrite Hrn2, Hrf; try done; [unfold PGSIZE; lia|by apply (user_page_fresh _ _ _ _ _ a Hfk Hsh)|].
    intros va Hva2. destruct (Hent va Hva2) as (-> & Hva' & _). intros E'.
    assert (a = va) as -> by (by apply Hinj). destruct Hva2. lia.
  - intros q Hq Hql Hne. destruct (vpage_search a (pa_at s1 T1) q Haa) as [(va & Hva & ->)|Hn].
    + rewrite Hrf2 by done. destruct (Hent va Hva) as (-> & Hva' & _).
      rewrite Hrf; [lia|done|]. destruct Hva. unfold PGSIZE. lia.
    + rewrite Hrn2, Hrn; auto. intros va Hva Hlt. destruct (decide (va = a)) as [->|Hd]; [by apply Hne|].
      assert (Hva' : vpage 0 a va).
      { destruct Hva as [Hal' ?]. split; [done|]. unfold page_aligned, PGSIZE in *. dlia. }
      destruct (Hent va Hva') as (<- & _). auto.
  - intros b Hb. rewrite Hm2', Hmem; auto.
Qed.

(** One iteration on the page at [a]. *)
Lemma shared_step a s1 l1 T1 (Q : Z + Z -> machine -> Prop) :
  forkable -> vpage 0 hi a -> shared a (fun va => va < a) s1 l1 T1 ->
  (forall s2 l2 T2, shared (a + PGSIZE) (fun va => va < a + PGSIZE) s2 l2 T2 -> Q (inl (a + PGSIZE)) s2) ->
  (forall s2 l2 T2, shared 0 (fun va => va = a) s2 l2 T2 -> Q (inr (-1)) s2) ->
  wp (let! pte := walk (pt_root T) a false in
      if pte =? 0 then panic "uvmcopy: pte should exist" else
      let! v := ld64 pte in
      if negb (bit v PTE_V) then panic "uvmcopy: page not present" else
      let pa := PTE2PA v in
      let flags := PTE_FLAGS v in
      let flags := if bit flags PTE_W then Z.land (Z.lor flags PTE_C) (Z.lnot PTE_W) else flags in
      let flags := Z.lor flags PTE_C in
      do! krefincr pa in
      let! r := mappages (pt_root Tn) a PGSIZE pa flags in
      if negb (r =? 0) then
        do! uvmunmap (pt_root Tn) 0 (a / PGSIZE) true in
        ret (inr (-1))
      else ret (inl (u64 (a + PGSIZE)))) Q s1.
Proof using PA.
  intros Hfk Ha Hsh Hok Herr.
  destruct (user_page_fresh _ _ _ _ _ a Hfk Hsh Ha) as ([Hv _ _ _ _ _] & _).
  pose proof (fk_hi Hfk) as [Hal Hmax]. pose proof Ha as [Haa Hab]. pose proof MAXVA_pow.
  destruct (walk_present s1 T a) as (r & _ & Ew & Hnz & El).
  { apply Hsh. } { lia. } { by rewrite (sh_pte_old _ _ _ _ _ Hsh). }
  wp_steps. eapply wp_eq; [exact Ew|]. destruct (Z.eqb_spec r 0); [done|].
  wp_steps. eapply wp_eq; [exact El|]. rewrite (sh_pte_old _ _ _ _ _ Hsh), Hv. cbv zeta. cbn [negb].
  change (PTE2PA (pte_at (mem s) T a)) with (pa_at s T a).
  change (Z.lor (if bit (PTE_FLAGS (pte_at (mem s) T a)) PTE_W then _ else _) PTE_C)
    with (cow_flags (pte_at (mem s) T a)).
  destruct (shared_incr a s1 l1 T1 Hfk Ha Hsh) as (s2 & E2 & Hsh2).
  wp_steps. eapply wp_eq; [exact E2|].
  destruct (shared_map a _ s2 l1 T1 Hfk Ha Hsh2) as (r' & s3 & l3 & T3 & E3 & Hcase).
  wp_steps. eapply wp_eq; [exact E3|]. clear E2 E3 Ew El.
  destruct Hcase as [[-> Hsh3]|[-> Hsh3]]; cbn [negb Z.eqb].
  - apply wp_ret. rewrite u64_small by (unfold PGSIZE in *; lia). eauto.
  - destruct (shared_undo a s3 l3 T3 Hfk Ha Hsh3) as (s4 & l4 & E4 & Hsh4).
    wp_steps. eapply wp_eq; [exact E4|]. apply wp_ret. eauto.
Qed.

(** [uvmcopy] shares every page of the parent with the child, or, when a page
    table for the child cannot be allocated, fails with the reference to one
    page not given back. *)
Lemma uvmcopy_ok sz :
  forkable -> 0 <= sz <= MAXVA -> hi = PGROUNDUP sz ->
  exists r s' l' T', uvmcopy (pt_root T) (pt_root Tn) sz s = Ret r s' /\
    ((r = 0 /\ shared hi (fun va => va < hi) s' l' T') \/
     (r = -1 /\ exists a, vpage 0 hi a /\ shared 0 (fun va => va = a) s' l' T')).
Proof using PA.
  intros Hfk Hsz Ehi. pose proof (fk_hi Hfk) as [Hal Hmax]. pose proof MAXVA_pow as HM.
  assert (Hb : sz <= hi < sz + PGSIZE).
  { rewrite Ehi, PGROUNDUP_eq by (unfold PGSIZE; lia). unfold PGSIZE. dlia. }
  enough (Hwp : wp (uvmcopy (pt_root T) (pt_root Tn) sz) (fun r s' => exists l' T',
     (r = 0 /\ shared hi (fun va => va < hi) s' l' T') \/
     (r = -1 /\ exists a, vpage 0 hi a /\ shared 0 (fun va => va = a) s' l' T')) s).
  { apply wp_inv in Hwp as (r & s' & E & l' & T' & H'). eauto 10. }
  unfold uvmcopy.
  apply (wp_while _ (fun a s1 => page_aligned a /\ 0 <= a <= hi /\ exists l1 T1, shared a (fun va => va < a) s1 l1 T1)
           (fun a => hi - a)); [|split_and!; [done|lia|lia|]; exists l, Tn; by apply shared_refl|lia].
  intros a s1 (Ha & Hab & l1 & T1 & Hsh). destruct (Z.ltb_spec a sz).
  - assert (Hva : vpage 0 hi a) by (split; [done|lia]).
    assert (a + PGSIZE <= hi) by (unfold page_aligned, PGSIZE in *; dlia).
    apply (shared_step a s1 l1 T1); try done.
    + intros s2 l2 T2 Hsh2. unfold PGSIZE in *. split; [|lia]. unfold page_aligned, PGSIZE in *.
      split_and!; [dlia|lia|lia|eauto].
    + eauto 10.
  - apply wp_ret. assert (a = hi) as -> by (unfold page_aligned, PGSIZE in *; dlia). eauto 10.
Qed.
End uvmcopy.

(** ** [cowalloc] *)

(** The entry [cowalloc] installs. *)
Definition private_pte (p : Z) : Z :=
  mk_pte p (Z.lor (Z.lor (Z.lor PTE_U PTE_W) PTE_X) PTE_R).

Lemma private_pte_eq p : kpage p ->
  let v := Z.lor (Z.lor (Z.lor (Z.lor (Z.lor (PA2PTE p) PTE_U) PTE_V) PTE_W) PTE_X) PTE_R in
  v = private_pte p /\ u64 v = v /\ Z.land v (Z.lnot PTE_C) = v.
Proof.
  intros Hp v. assert (E : v = private_pte p).
  { unfold v, private_pte, mk_pte. rewrite <- !Z.lor_assoc. f_equal. }
  destruct (mk_pte_pa p (Z.lor (Z.lor (Z.lor PTE_U PTE_W) PTE_X) PTE_R) Hp) as (_ & Hu & Hf); [done|].
  fold (private_pte p) in Hu, Hf. split_and!; [done|by rewrite E|].
  apply Z.bits_inj'. intros i Hi. rewrite Z.land_spec, Z.lnot_spec by done.
  destruct (decide (i = 8)) as [->|Hne].
  - assert (H8 : Z.testbit (PTE_FLAGS v) 8 = false) by (by rewrite E, Hf).
    unfold PTE_FLAGS in H8. rewrite Z.land_spec, andb_true_r in H8. by rewrite H8.
  - unfold PTE_C. rewrite Z.shiftl_spec by done.
    replace (Z.testbit 1 (i - 8)) with false; [by rewrite andb_true_r|].
    destruct (decide (i < 8)); [by rewrite Z.testbit_neg_r by lia|].
    symmetry. apply Z.bits_above_log2; [lia|]. simpl. lia.
Qed.

(** The page of [va] is now the private page [p], a copy of the page it was
    before; only that page, that entry and the two reference counts changed. *)
Record private (p va : Z) (s : machine) (l : list Z) (T : ptree) (s' : machine) (l' : list Z) : Prop := {
  pv_inv : inv s' l';
  pv_hart : hart_eq s s';
  pv_ok : vm_ok s' T;
  pv_pte va' : 0 <= va' < MAXVA ->
    pte_at (mem s') T va' = if decide (same_page va va') then private_pte p else pte_at (mem s) T va';
  pv_copy b : 0 <= b < PGSIZE -> mget (mem s') (p + b) = mget (mem s) (pa_at s T va + b);
  pv_mem b : (forall q, pt_page T q -> ~ in_page q b) -> ~ in_page p b -> mget (mem s') b = mget (mem s) b;
  pv_new : kpage p /\ ~ pt_page T p /\ p ∉ l' /\ p <> pa_at s T va /\ refs s' p = 1;
  pv_refs : refs s' (pa_at s T va) = refs s (pa_at s T va) - 1;
  pv_refs_ne q : kpage q -> q <> p -> q <> pa_at s T va -> refs s' q = refs s q
}.

(** Replacing the entry of [va], as [cowalloc] does in two stores. *)
Lemma install_private {R} s l T va a p (K : M machine R) :
  inv s l -> vm_ok s T -> pt_slot T va = Some a -> 0 <= va < MAXVA -> kpage p ->
  let v := Z.lor (Z.lor (Z.lor (Z.lor (Z.lor (PA2PTE p) PTE_U) PTE_V) PTE_W) PTE_X) PTE_R in
  exists s', (do! st64 a v in let! v' := ld64 a in do! st64 a (Z.land v' (Z.lnot PTE_C)) in K) s = K s' /\
    grows s l T s' l T /\
    (forall va', 0 <= va' < MAXVA ->
       pte_at (mem s') T va' = if decide (same_page va va') then private_pte p else pte_at (mem s) T va').
Proof using PA.
  intros Hi Hvm Hs Hva Hp v. destruct (private_pte_eq p Hp) as (Ev & Hu & Hland). fold v in Ev, Hu, Hland.
  destruct (grows_set s l T va a v) as (Est & Hg & Hpte); [done..|].
  set (s1 := set_mem _ s) in *.
  destruct (grows_set s1 l T va a v) as (Est2 & Hg2 & Hpte2); [apply Hg|apply Hg|done..|].
  destruct (pt_slot_page _ _ _ _ (proj1 Hvm) Hs) as (q & _ & _ & _ & ? & ? & _).
  eexists. split_and!.
  - unfold bind. rewrite Est. cbn [rbind]. unfold ld64. rewrite in_ram_true by done. cbn [rbind].
    rewrite <- (pt_slot_ent _ T va a) by done. rewrite Hpte by done. rewrite decide_True by done.
    rewrite Hu, Hland, Est2. reflexivity.
  - eapply grows_trans; [by apply (alloc_inv_pages (PageAllocator := PA) s)|exact Hg|exact Hg2].
  - intros va' Hva'. rewrite Hpte2, Hpte, Hu, Ev by done. by case_decide.
Qed.

Lemma cowalloc_copy s p l T va :
  inv s (p :: l) -> ready s LkKmem -> vm_ok s T -> 0 < va < MAXVA -> upage s T va ->
  bit (pte_at (mem s) T va) PTE_U = true -> bit (pte_at (mem s) T va) PTE_C = true ->
  exists s', cowalloc (pt_root T) va s = Ret 0 s' /\ private p va s (p :: l) T s' l.
Proof using PA.
  intros Hi Hr Hvm Hva Hup HU HC. pose proof Hup as [Hv Hlf Hk HT H1 Hint].
  destruct (walk_present s T va) as (a & Hs & Ew & Hnz & El); try done; [lia|].
  destruct (alloc_reach s p l T) as (s1 & E1 & Hrc1 & Hsp1 & Hr1 & Hp & HpT & Hpl); [done..|].
  assert (He : page_effect p s s1).
  { destruct (alloc_page (PageAllocator := PA) s p l Hi Hr) as (s1' & E1' & _ & He & _).
    rewrite E1 in E1'. by injection E1' as <-. }
  set (pa := pa_at s T va) in *.
  assert (Hpal : pa ∉ p :: l).
  { intros Hin. apply (alloc_inv_pages (PageAllocator := PA) _ _ Hi) in Hin as [_ ?]. lia. }
  assert (Hpp : p <> pa) by set_solver.
  destruct (kpage_bounds p Hp) as (Hb1 & Hb2 & Hb3). destruct (kpage_bounds pa Hk) as (Hc1 & Hc2 & Hc3).
  destruct (reach_keeps _ _ _ _ _ _ pa Hi Hvm Hrc1 Hk Hpal HT) as (Hpal1 & _ & Hrpa & Hmpa).
  set (f := fun m => mem_move m p pa (Z.to_nat PGSIZE)).
  destruct (write_reach s (p :: l) T s1 l T p f) as [Hrc2 Hsp2]; try done; [left| |].
  { intros m b Hb. unfold f. rewrite mget_move, decide_False; [done|by unfold in_page in Hb]. }
  set (s2 := set_mem f s1) in *.
  destruct (install_private s2 l T va a p (do! krefdecr pa in ret 0)) as (s3 & E3 & Hg3 & Hpte3);
    [apply Hrc2|apply Hrc2|done|lia|done|].
  assert (Hr3 : forall q, kpage q -> refs s3 q = refs s1 q).
  { intros q Hq. rewrite (gr_refs _ _ _ _ _ _ Hg3); done. }
  destruct (krefdecr_inv s3 l pa) as (s4 & E4 & Hi4 & Hh4 & Hm4 & Hp4 & Hq4);
    [apply Hg3| |done|by rewrite Hr3, Hrpa..|].
  { rewrite <- (gr_hart _ _ _ _ _ _ Hg3). eapply ready_hart_eq; [apply Hrc2|done]. }
  destruct (vm_ok_frame s3 s4 T) as [Hok4 Hpt4]; [apply Hg3| |by rewrite Hm4|].
  { intros q Hq. apply Hq4; [by apply (vm_ok_kpage s T)|]. by intros ->. }
  exists s4. split.
  - unfold cowalloc. destruct (Z.eqb_spec va 0); [lia|]. destruct (Z.leb_spec MAXVA va); [lia|].
    unfold bind at 1. rewrite Ew. cbn [rbind]. destruct (Z.eqb_spec a 0); [done|].
    unfold bind at 1. rewrite El. cbn [rbind]. rewrite HU, Hv, HC. cbn [negb orb]. cbv zeta.
    change (PTE2PA (pte_at (mem s) T va)) with pa. destruct (Z.eqb_spec pa 0); [done|].
    unfold bind at 1. rewrite E1. cbn [rbind]. destruct (Z.eqb_spec p 0); [done|].
    erewrite bind_ret by (unfold memmove; rewrite !in_ram_true by done; rewrite orb_true_r; reflexivity).
    etransitivity; [exact E3|]. unfold bind. by rewrite E4.
  - clear E1 E3 E4 Ew El. split; try done.
    + etransitivity; [apply Hrc2|]. etransitivity; [apply Hg3|done].
    + intros va' Hva'. rewrite Hpt4, Hpte3 by done. case_decide; [done|]. by rewrite Hsp2, Hsp1.
    + intros b Hb. assert (HinP : in_page p (p + b)) by (unfold in_page; lia).
      rewrite Hm4, (gr_mem _ _ _ _ _ _ Hg3).
      2: { intros q Hq Hb'. apply HpT. rewrite (kpage_disj p q (p + b)); try done. by apply (vm_ok_kpage s T). }
      unfold s2, f. mcbn. rewrite mget_move, decide_True by (unfold PGSIZE in *; lia).
      rewrite Hmpa by (unfold in_page; lia). f_equal. lia.
    + intros b HbT Hbp. rewrite Hm4, (gr_mem _ _ _ _ _ _ Hg3) by done.
      unfold s2, f. mcbn. rewrite mget_move, decide_False by (by unfold in_page in Hbp).
      by apply He.
    + split_and!; try done. by rewrite Hq4, Hr3.
    + fold pa. by rewrite Hp4, Hr3, Hrpa.
    + intros q Hq Hqp Hqpa. rewrite Hq4, Hr3 by done. by apply He.
Qed.

(** A page that is not copy-on-write is left alone. *)
Lemma cowalloc_noop s T va :
  vm_ok s T -> 0 < va < MAXVA -> upage s T va -> bit (pte_at (mem s) T va) PTE_U = true ->
  bit (pte_at (mem s) T va) PTE_C = false -> cowalloc (pt_root T) va s = Ret 0 s.
Proof.
  intros Hvm Hva [Hv _ Hk _ _ _] HU HC. destruct (walk_present s T va) as (a & Hs & Ew & Hnz & El); try done; [lia|].
  unfold cowalloc. destruct (Z.eqb_spec va 0); [lia|]. destruct (Z.leb_spec MAXVA va); [lia|].
  unfold bind. rewrite Ew. cbn [rbind]. destruct (Z.eqb_spec a 0); [done|]. rewrite El. cbn [rbind].
  rewrite HU, Hv, HC. cbn [negb orb]. cbv zeta. change (PTE2PA (pte_at (mem s) T va)) with (pa_at s T va).
  destruct (kpage_bounds _ Hk) as (_ & _ & ?). by destruct (Z.eqb_spec (pa_at s T va) 0).
Qed.

(** With no page left the copy fails and nothing changes. *)
Lemma cowalloc_none s T va :
  inv s [] -> ready s LkKmem -> vm_ok s T -> 0 < va < MAXVA -> upage s T va ->
  bit (pte_at (mem s) T va) PTE_U = true -> bit (pte_at (mem s) T va) PTE_C = true ->
  exists s', cowalloc (pt_root T) va s = Ret (-1) s' /\ inv s' [] /\ hart_eq s s' /\ mem s' = mem s /\
    count s' = count s.
Proof using PA.
  intros Hi Hr Hvm Hva [Hv _ Hk _ _ _] HU HC. destruct (walk_present s T va) as (a & Hs & Ew & Hnz & El); try done; [lia|].
  destruct (alloc_none (PageAllocator := PA) s Hi Hr) as (s' & E & H'). exists s'. split; [|done].
  unfold cowalloc. destruct (Z.eqb_spec va 0); [lia|]. destruct (Z.leb_spec MAXVA va); [lia|].
  unfold bind. rewrite Ew. cbn [rbind]. destruct (Z.eqb_spec a 0); [done|]. rewrite El. cbn [rbind].
  rewrite HU, Hv, HC. cbn [negb orb]. cbv zeta. change (PTE2PA (pte_at (mem s) T va)) with (pa_at s T va).
  destruct (kpage_bounds _ Hk) as (_ & _ & ?). destruct (Z.eqb_spec (pa_at s T va) 0); [done|].
  by rewrite E.
Qed.
End cow.
