(* ===== verification/VmCopy.v ===== *)
(** * Copying between the kernel and user memory

    [walkaddr], [copyin], [copyinstr] and [copyout] of [kernel/vm.c] on the
    bytes a process sees: byte [va] of a process is the byte its page table
    maps [va] to. [copyout] breaks copy-on-write sharing before it stores, so
    a page shared with another process keeps its content. *)

From S2P Require Import Prelude Riscv Memory Machine Spinlock Kalloc Vm PageTable VmWalk VmMap VmUser VmCow.

(** The physical address of [va], and the byte there. *)
Definition user_addr `{KernelImage} (s : machine) (T : ptree) (va : Z) : Z :=
  pa_at s T (PGROUNDDOWN va) + (va - PGROUNDDOWN va).
Definition ubyte `{KernelImage} (s : machine) (T : ptree) (va : Z) : Z := mget (mem s) (user_addr s T va).
Definition ubytes `{KernelImage} (s : machine) (T : ptree) (va n : Z) : list Z :=
  (fun i => ubyte s T (va + i)) <$> seqZ 0 n.

(** A page the user may read. *)
Definition readable `{KernelImage} (s : machine) (T : ptree) (va : Z) : bool :=
  bit (pte_at (mem s) T va) PTE_V && bit (pte_at (mem s) T va) PTE_U.

(** Chunks of a page. *)
Lemma PGROUNDDOWN_page va a : page_aligned a -> a <= va < a + PGSIZE -> PGROUNDDOWN va = a.
Proof. intros Ha Hb. rewrite PGROUNDDOWN_eq. unfold page_aligned, PGSIZE in *. dlia. Qed.

Lemma load_bytes_map m a n : load_bytes m a n = (fun i => mget m (a + i)) <$> seqZ 0 (Z.of_nat n).
Proof.
  apply list_eq. intros i. rewrite list_lookup_fmap. destruct (decide (i < n)%nat) as [Hi|Hi].
  - rewrite load_bytes_lookup by done. rewrite lookup_seqZ_lt by lia. simpl. done.
  - rewrite !lookup_ge_None_2; [done|rewrite length_seqZ; lia|]. rewrite length_load_bytes. lia.
Qed.

Section copy.
Context {KI : KernelImage}.

(** [walkaddr] finds the page of a readable address and nothing else. *)
Lemma walkaddr_ok s T va :
  vm_ok s T -> 0 <= va < MAXVA ->
  walkaddr (pt_root T) va s = Ret (if readable s T va then pa_at s T va else 0) s.
Proof.
  intros Hvm Hva. unfold walkaddr, readable. destruct (Z.leb_spec MAXVA va); [lia|].
  destruct (bit (pte_at (mem s) T va) PTE_V) eqn:Hv.
  - destruct (walk_present s T va) as (a & _ & Ew & Hnz & El); try done.
    unfold bind. rewrite Ew. cbn [rbind]. destruct (Z.eqb_spec a 0); [done|]. rewrite El. cbn [rbind].
    rewrite Hv. cbn [negb andb]. by destruct (bit (pte_at (mem s) T va) PTE_U).
  - unfold bind. rewrite walk_lookup by done. cbn [rbind]. destruct (pt_slot T va) as [a|] eqn:Hs; [|done].
    destruct (pt_slot_page _ _ _ _ (proj1 Hvm) Hs) as (q & _ & _ & _ & ? & ? & Hnz).
    simpl. destruct (Z.eqb_spec a 0); [done|]. unfold ld64. rewrite in_ram_true by done. cbn [rbind].
    rewrite <- (pt_slot_ent _ T va a) by done. by rewrite Hv.
Qed.

Lemma ubytes_app s T va n k : 0 <= n -> 0 <= k -> ubytes s T va (n + k) = ubytes s T va n ++ ubytes s T (va + n) k.
Proof.
  intros Hn Hk. unfold ubytes. rewrite seqZ_app by lia. rewrite fmap_app. f_equal.
  apply list_eq. intros i. rewrite !list_lookup_fmap. destruct (decide (Z.of_nat i < k)).
  - rewrite !lookup_seqZ_lt by lia. simpl. do 2 f_equal. lia.
  - rewrite !lookup_seqZ_ge by lia. done.
Qed.

(** The bytes of a process on one page are consecutive in memory. *)
Lemma ubytes_chunk s T va a n :
  page_aligned a -> a <= va -> 0 <= n -> va + n <= a + PGSIZE ->
  ubytes s T va n = load_bytes (mem s) (pa_at s T a + (va - a)) (Z.to_nat n).
Proof.
  intros Ha H1 Hn H2. rewrite load_bytes_map, Z2Nat.id by done. unfold ubytes.
  apply list_fmap_ext. intros i x Hx. apply lookup_seqZ in Hx as [-> Hx].
  unfold ubyte, user_addr. rewrite (PGROUNDDOWN_page _ a) by (done || lia). f_equal. lia.
Qed.

(** ** [copyin] *)

Lemma copyin_ok s T va n :
  vm_ok s T -> 0 <= va -> 0 < n -> va + n <= MAXVA ->
  (forall a, vpage (PGROUNDDOWN va) (va + n) a -> readable s T a = true -> kpage (pa_at s T a)) ->
  exists r bs, copyin (pt_root T) va n s = Ret (r, bs) s /\
    ((r = 0 /\ bs = ubytes s T va n /\ forall a, vpage (PGROUNDDOWN va) (va + n) a -> readable s T a = true) \/
     (r = -1 /\ exists a, vpage (PGROUNDDOWN va) (va + n) a /\ readable s T a = false)).
Proof.
  intros Hvm Hva Hn Hmax Hk. pose proof MAXVA_pow as HM. set (lo := PGROUNDDOWN va) in *.
  pose proof (PGROUNDDOWN_bounds va : lo <= va < lo + PGSIZE) as Hlo.
  pose proof (PGROUNDDOWN_aligned va : page_aligned lo) as Hal.
  assert (Hlo0 : 0 <= lo) by (unfold page_aligned, PGSIZE in *; dlia).
  enough (Hwp : wp (copyin (pt_root T) va n) (fun rb s' => s' = s /\
     ((rb.1 = 0 /\ rb.2 = ubytes s T va n /\ forall a, vpage lo (va + n) a -> readable s T a = true) \/
     (rb.1 = -1 /\ exists a, vpage lo (va + n) a /\ readable s T a = false))) s).
  { apply wp_inv in Hwp as ([r bs] & s' & E & -> & H'). eauto. }
  unfold copyin.
  apply (wp_while _ (fun '(src, len, dst) s' => s' = s /\ va <= src < 2 ^ 40 /\ len = Z.max 0 (va + n - src) /\
           dst = ubytes s T va (n - len) /\ (src = va \/ page_aligned src) /\
           forall a, vpage lo (va + n) a -> a < PGROUNDDOWN src -> readable s T a = true)
         (fun '(src, len, dst) => len)); [|split_and!|]; try done; try lia.
  2: { by rewrite Z.sub_diag. }
  2: { fold lo. intros a [_ ?] ?. lia. }
  intros [[src len] dst] s' (-> & Hsrc & Hlen & -> & Hcase & Hread).
  set (va0 := PGROUNDDOWN src) in *.
  pose proof (PGROUNDDOWN_bounds src : va0 <= src < va0 + PGSIZE) as Hb0.
  pose proof (PGROUNDDOWN_aligned src : page_aligned va0) as Hal0.
  assert (Hlv : lo <= va0) by (unfold page_aligned, PGSIZE in *; dlia).
  destruct (Z.ltb_spec 0 len) as [Hpos|Hz].
  2: { apply wp_ret. split; [done|]. left. split_and!; [done| |].
       - simpl. f_equal. lia.
       - intros a Ha. apply Hread; [done|]. destruct Hcase as [->|Hs]; [lia|].
         unfold va0. rewrite PGROUNDDOWN_id by done. destruct Ha. lia. }
  assert (Hvp : vpage lo (va + n) va0) by (split; [done|lia]).
  wp_steps. eapply wp_eq; [apply walkaddr_ok; [done|lia]|].
  destruct (readable s T va0) eqn:Hr.
  2: { simpl. apply wp_ret. split; [done|]. right. eauto. }
  destruct (kpage_bounds _ (Hk va0 Hvp Hr)) as (Hp1 & Hp2 & Hp3).
  destruct (Z.eqb_spec (pa_at s T va0) 0); [done|].
  set (k := if len <? PGSIZE - (src - va0) then len else PGSIZE - (src - va0)).
  assert (Hkb : 0 < k <= len /\ src + k <= va0 + PGSIZE /\ len - k = Z.max 0 (va + n - (va0 + PGSIZE))).
  { unfold k. destruct (Z.ltb_spec len (PGSIZE - (src - va0))); lia. }
  wp_steps. eapply wp_eq; [unfold copy_out; rewrite in_ram_true by lia; reflexivity|].
  wp_steps. rewrite u64_small by (unfold PGSIZE in *; lia).
  split; [|lia]. split_and!; try done; [lia|unfold PGSIZE in *; lia|lia| |right|].
  - rewrite <- ubytes_chunk by (done || lia). replace (n - (len - k)) with ((n - len) + k) by lia.
    rewrite ubytes_app by lia. do 2 f_equal. lia.
  - unfold page_aligned, PGSIZE in *. dlia.
  - intros a Ha Hlt. destruct (decide (a = va0)) as [->|Hne]; [done|]. apply Hread; [done|].
    rewrite PGROUNDDOWN_id in Hlt by (unfold page_aligned, PGSIZE in *; dlia).
    destruct Ha as [Ha _]. unfold page_aligned, PGSIZE in *. clear -Ha Hal0 Hne Hlt. dlia.
Qed.
End copy.

(** ** [copyout] *)

Section copyout.
Context {KI : KernelImage} {inv : machine -> list Z -> Prop} {PA : PageAllocator kalloc kfree inv}.
Context (T : ptree) (lo hi : Z).

Definition is_cow (s : machine) (va : Z) : bool := bit (pte_at (mem s) T va) PTE_C.

(** The entry of a page is as before, or was copy-on-write and now maps a
    page that was free. *)
Definition kept_or_private (s : machine) (l : list Z) (s' : machine) (va : Z) : Prop :=
  pte_at (mem s') T va = pte_at (mem s) T va \/
  is_cow s va = true /\ is_cow s' va = false /\ pa_at s' T va ∈ l /\ readable s' T va = true.

(** From [s] to [s'] the process's bytes outside [W] did not change, nor did
    any page but free ones, page tables, and pages with bytes in [W] that
    were mapped without copy-on-write. *)
Record wrote (W : Z -> Prop) (s : machine) (l : list Z) (s' : machine) (l' : list Z) : Prop := {
  wr_inv : inv s' l';
  wr_hart : hart_eq s s';
  wr_ok : vm_ok s' T;
  wr_space : uspace s' T lo hi;
  wr_free q : q ∈ l' -> q ∈ l;
  wr_page va : vpage lo hi va -> kept_or_private s l s' va;
  wr_bytes va : lo <= va < hi -> ~ W va -> ubyte s' T va = ubyte s T va;
  wr_iso q b : kpage q -> q ∉ l -> ~ pt_page T q -> in_page q b ->
    (forall va, vpage lo hi va -> is_cow s va = false -> (exists x, W x /\ same_page va x) -> q <> pa_at s T va) ->
    mget (mem s') b = mget (mem s) b
}.

Lemma wrote_refl s l : inv s l -> vm_ok s T -> uspace s T lo hi -> wrote (fun _ => False) s l s l.
Proof. intros. split; auto; try done. by left. Qed.

Lemma wrote_trans W1 W2 s1 l1 s2 l2 s3 l3 :
  wrote W1 s1 l1 s2 l2 -> wrote W2 s2 l2 s3 l3 -> wrote (fun va => W1 va \/ W2 va) s1 l1 s3 l3.
Proof.
  intros [Hi1 Hh1 Ho1 Hs1 Hf1 Hp1 Hb1 Hq1] [Hi2 Hh2 Ho2 Hs2 Hf2 Hp2 Hb2 Hq2]. split; try done.
  - by transitivity s2.
  - auto.
  - intros va Hva. destruct (Hp1 va Hva) as [E1|(C1 & C2 & Hpa & Hrd)], (Hp2 va Hva) as [E2|(C1' & C2' & Hpa' & Hrd')].
    + left. congruence.
    + right. unfold is_cow in *. rewrite E1 in *. auto.
    + right. unfold is_cow, readable, pa_at in *. rewrite E2. auto.
    + congruence.
  - intros va Hva Hn. rewrite Hb2, Hb1; tauto.
  - intros q b Hq Hql HqT Hb Hne. rewrite (Hq2 q), (Hq1 q); try done; auto.
    + intros va Hva Hc (x & Hx & Hsp). eauto.
    + intros va Hva Hc (x & Hx & Hsp). destruct (Hp1 va Hva) as [E1|(_ & _ & Hpa & _)].
      * unfold pa_at. rewrite E1. apply Hne; [done| |eauto]. unfold is_cow in *. by rewrite <- E1.
      * by intros ->.
Qed.

Lemma wrote_weaken (W W' : Z -> Prop) s l s' l' :
  (forall va, W va -> W' va) -> wrote W s l s' l' -> wrote W' s l s' l'.
Proof.
  intros Hw [Hi1 Hh1 Ho1 Hs1 Hf1 Hp1 Hb1 Hq1]. split; try done.
  - intros va Hva Hn. apply Hb1; auto.
  - intros q b Hq Hql HqT Hb Hne. apply (Hq1 q); try done. intros va Hva Hc (x & Hx & Hsp). eauto.
Qed.

Lemma uspace_frame s s' :
  uspace s T lo hi ->
  (forall va, vpage lo hi va -> pte_at (mem s') T va = pte_at (mem s) T va) ->
  (forall va, vpage lo hi va -> refs s' (pa_at s T va) = refs s (pa_at s T va)) -> uspace s' T lo hi.
Proof.
  intros [Hup Hinj] Hp Hr. assert (Epa : forall va, vpage lo hi va -> pa_at s' T va = pa_at s T va).
  { intros va Hva. unfold pa_at. by rewrite Hp. }
  split.
  - intros va Hva. destruct (Hup va Hva). split; rewrite ?Hp, ?Epa, ?Hr by done; done.
  - intros va va' Hv Hv'. rewrite !Epa by done. by apply Hinj.
Qed.

Context (Hbounds : page_aligned lo /\ page_aligned hi /\ 0 <= lo /\ hi <= MAXVA).

(** The physical page of an address of the space. *)
Lemma page_of va : lo <= va < hi -> vpage lo hi (PGROUNDDOWN va) /\ 0 <= va < MAXVA /\
  0 <= PGROUNDDOWN va < MAXVA /\ 0 <= va - PGROUNDDOWN va < PGSIZE.
Proof using Hbounds.
  intros Hva. destruct Hbounds as (Hl & Hh & Hl0 & Hh0). pose proof (PGROUNDDOWN_aligned va).
  pose proof (PGROUNDDOWN_bounds va). unfold vpage, page_aligned, PGSIZE in *. split_and!; try done; dlia.
Qed.


Lemma is_cow_private s' p va : kpage p -> pte_at (mem s') T va = private_pte p ->
  is_cow s' va = false /\ readable s' T va = true /\ pa_at s' T va = p /\
  bit (pte_at (mem s') T va) PTE_V = true /\ PTE_FLAGS (pte_at (mem s') T va) <> PTE_V.
Proof.
  intros Hp E. destruct (mk_pte_pa p (Z.lor (Z.lor (Z.lor PTE_U PTE_W) PTE_X) PTE_R) Hp) as (Hpa & _ & Hf); [done|].
  fold (private_pte p) in Hpa, Hf. unfold is_cow, readable, pa_at, bit. rewrite E, Hf.
  rewrite <- (land_PTE_FLAGS _ PTE_C), <- (land_PTE_FLAGS _ PTE_V), <- (land_PTE_FLAGS _ PTE_U) by done.
  rewrite Hf. done.
Qed.

(** [cowalloc] on a page of the space. *)
Lemma private_wrote p a s l s' l' :
  inv s l -> uspace s T lo hi -> vpage lo hi a -> p ∈ l -> (forall q, q ∈ l' -> q ∈ l) -> vm_ok s T ->
  is_cow s a = true -> private (inv := inv) p a s l T s' l' -> wrote (fun _ => False) s l s' l'.
Proof using PA Hbounds.
  intros Hi Hus Ha Hpl Hsub Hvm HC [Hi' Hh' Hok' Hpte Hcopy Hmem (Hkp & HpT & Hpl' & Hpne & Hr1) Hrf Hrn].
  pose proof Hus as [Hup Hinj]. destruct (alloc_inv_pages (PageAllocator := PA) s l Hi) as [_ Hl].
  destruct Hbounds as (Hbl & Hbh & Hl0 & Hh0).
  assert (Hnl : forall va, vpage lo hi va -> pa_at s T va ∉ l).
  { intros va Hva Hin. destruct (Hl _ Hin). destruct (Hup va Hva). lia. }
  assert (Hpa : forall va, vpage lo hi va -> va <> a -> pte_at (mem s') T va = pte_at (mem s) T va).
  { intros va Hva Hne. rewrite Hpte by (destruct Hva; lia). rewrite decide_False; [done|].
    destruct Ha, Hva. rewrite same_page_aligned by done. congruence. }
  assert (Hpta : pte_at (mem s') T a = private_pte p).
  { rewrite Hpte by (destruct Ha; lia). by rewrite decide_True. }
  destruct (is_cow_private s' p a Hkp Hpta) as (Hc' & Hrd & Epa & HV & Hlf).
  split; try done.
  - split.
    + intros va Hva. destruct (decide (va = a)) as [->|Hne].
      * split; rewrite ?Epa; try done; [by rewrite Hr1|rewrite Hr1; done].
      * destruct (Hup va Hva) as [? ? ? ? ? ?].
        assert (E : refs s' (pa_at s T va) = refs s (pa_at s T va)).
        { apply Hrn; [done|intros Eq; by apply (Hnl va Hva); rewrite Eq|]. intros Eq. by apply Hne, Hinj. }
        split; unfold pa_at in *; rewrite ?(Hpa va), ?E by done; done.
    + intros va va' Hv Hv' E. destruct (decide (va = a)) as [->|Hn], (decide (va' = a)) as [->|Hn']; try done.
      * rewrite Epa in E. unfold pa_at in E. rewrite Hpa in E by done. destruct (Hnl va' Hv'). unfold pa_at. by rewrite <- E.
      * rewrite Epa in E. unfold pa_at in E. rewrite Hpa in E by done. destruct (Hnl va Hv). unfold pa_at. by rewrite E.
      * unfold pa_at in E. rewrite !Hpa in E by done. by apply Hinj.
  - intros va Hva. destruct (decide (va = a)) as [->|Hne]; [|by left; apply Hpa].
    right. split_and!; try done. by rewrite Epa.
  - intros va Hva _. destruct (page_of va Hva) as (Hvp & _ & _ & Hoff). unfold ubyte, user_addr.
    destruct (decide (PGROUNDDOWN va = a)) as [Ea|Hne].
    + rewrite Ea in *. rewrite Epa. by apply Hcopy.
    + unfold pa_at. rewrite Hpa by done. fold (pa_at s T (PGROUNDDOWN va)).
      destruct (Hup _ Hvp) as [_ _ Hk HnT _ _]. apply Hmem.
      * intros q Hq Hb. apply HnT. rewrite (kpage_disj (pa_at s T (PGROUNDDOWN va)) q (pa_at s T (PGROUNDDOWN va) + (va - PGROUNDDOWN va))); try done.
        -- by apply (vm_ok_kpage s T).
        -- unfold in_page. lia.
      * intros Hb. apply (Hnl _ Hvp). rewrite (kpage_disj (pa_at s T (PGROUNDDOWN va)) p (pa_at s T (PGROUNDDOWN va) + (va - PGROUNDDOWN va))); try done.
        unfold in_page. lia.
  - intros q b Hq Hql HqT Hb _. apply Hmem.
    + intros x Hx Hb'. apply HqT. rewrite (kpage_disj q x b); try done. by apply (vm_ok_kpage s T).
    + intros Hb'. apply Hql. by rewrite (kpage_disj q p b).
Qed.

(** Storing bytes in one page of the space. *)
Lemma store_wrote s l a dst bs :
  inv s l -> vm_ok s T -> uspace s T lo hi -> vpage lo hi a -> is_cow s a = false ->
  a <= dst -> dst + Z.of_nat (length bs) <= a + PGSIZE ->
  let s' := set_mem (fun m => store_bytes m (pa_at s T a + (dst - a)) bs) s in
  wrote (fun va => dst <= va < dst + Z.of_nat (length bs)) s l s' l /\
  forall va, dst <= va < dst + Z.of_nat (length bs) ->
    ubyte s' T va = u8 (default 0 (bs !! Z.to_nat (va - dst))).
Proof using PA Hbounds.
  intros Hi Hvm Hus Ha Hc Hd1 Hd2 s'. pose proof Hus as [Hup Hinj]. destruct Ha as [Hal Hab].
  destruct (Hup a) as [_ _ Hk HnT H1 _]; [done|]. set (pa := pa_at s T a) in *.
  assert (Hm : forall b, ~ in_page pa b -> mget (mem s') b = mget (mem s) b).
  { intros b Hb. unfold s'. mcbn. rewrite mget_store_bytes, decide_False; [done|].
    intros ?. apply Hb. unfold in_page. lia. }
  destruct (alloc_inv_pages (PageAllocator := PA) s l Hi) as [_ Hl].
  destruct (vm_ok_frame s s' T Hvm) as [Hok' Hpte].
  { done. }
  { intros x b Hx Hb. apply Hm. intros Hb'. apply HnT. rewrite (kpage_disj pa x b); try done.
    by apply (vm_ok_kpage s T). }
  assert (Epa : forall va, pa_at s' T va = pa_at s T va) by (intros va; unfold pa_at; by rewrite Hpte).
  split; [split; try done|].
  - apply (alloc_frame (PageAllocator := PA) s); try done. intros x b Hx Hb. apply Hm. intros Hb'.
    destruct (Hl x Hx) as [Hkx H0]. assert (x = pa) as -> by (by eapply kpage_disj). lia.
  - apply (uspace_frame s); auto.
  - left. apply Hpte.
  - intros va Hva Hn. destruct (page_of va Hva) as (Hvp & _ & _ & Hoff). unfold ubyte, user_addr. rewrite Epa.
    destruct (decide (PGROUNDDOWN va = a)) as [E|Hne].
    + rewrite E in *. unfold s'. mcbn. rewrite mget_store_bytes, decide_False; [done|]. fold pa. lia.
    + apply Hm. intros Hb. apply Hne, Hinj; [done|done|].
      destruct (Hup _ Hvp) as [_ _ Hk' _ _ _]. eapply kpage_disj; [done|done| |done]. unfold in_page. lia.
  - intros q b Hq Hql HqT Hb Hne. destruct (decide (q = pa)) as [->|Hqp].
    + destruct bs as [|v bs]; [done|]. exfalso. apply (Hne a); [done|done|exists dst|done].
      split; [simpl length; lia|]. unfold same_page, page_aligned, PGSIZE in *. simpl length in *. dlia.
    + apply Hm. intros Hb'. by apply Hqp, (kpage_disj q pa b).
  - intros va Hva. unfold ubyte, user_addr. rewrite Epa.
    rewrite (PGROUNDDOWN_page va a) by (done || lia). fold pa. unfold s'. mcbn.
    rewrite mget_store_bytes, decide_True by lia. do 4 f_equal. lia.
Qed.

(** The first part of an iteration: after it the page of [a] is not shared
    copy-on-write. *)
Lemma copyout_cow s l a :
  inv s l -> ready s LkKmem -> vm_ok s T -> uspace s T lo hi -> vpage lo hi a -> 0 < a -> readable s T a = true ->
  exists c s' l', cowalloc (pt_root T) a s = Ret c s' /\ wrote (fun _ => False) s l s' l' /\
    (c = 0 /\ is_cow s' a = false /\ readable s' T a = true \/ c = -1 /\ l' = []).
Proof using PA Hbounds.
  intros Hi Hr Hvm Hus Ha H0 Hrd. pose proof (us_page _ _ _ _ Hus a Ha) as Hup.
  destruct Hbounds as (_ & _ & _ & Hmax). assert (Hva : 0 < a < MAXVA) by (destruct Ha; lia).
  pose proof Hrd as HU. unfold readable in HU. apply andb_true_iff in HU as [_ HU].
  destruct (is_cow s a) eqn:HC; unfold is_cow in HC.
  - destruct l as [|p l].
    + destruct (cowalloc_none s T a) as (s' & E & Hi' & Hh' & Hm' & Hc'); try done.
      exists (-1), s', []. split_and!; [done| |by right].
      assert (Hr' : forall q, refs s' q = refs s q) by (intros q; unfold refs; by rewrite Hc').
      destruct (vm_ok_frame s s' T Hvm) as [Hok' Hpte]; [done|by rewrite Hm'|].
      split; try done.
      * by apply (uspace_frame s).
      * intros va Hva'. left. apply Hpte.
      * intros va Hva' _. unfold ubyte, user_addr, pa_at. by rewrite Hpte, Hm'.
      * intros. by rewrite Hm'.
    + destruct (cowalloc_copy s p l T a) as (s' & E & Hpv); try done.
      exists 0, s', l. pose proof Hpv as [_ _ _ Hpte _ _ (Hkp & _) _ _].
      assert (Hpta : pte_at (mem s') T a = private_pte p).
      { rewrite Hpte by lia. by rewrite decide_True. }
      destruct (is_cow_private s' p a Hkp Hpta) as (Hc' & Hrd' & _).
      split_and!; [done| |by left]. eapply private_wrote; try done; [left|set_solver].
  - exists 0, s, l. split_and!; [by apply cowalloc_noop|by apply wrote_refl|by left].
Qed.

Lemma copyout_page {R} s l a dst bs (F K : M machine R) Q :
  inv s l -> ready s LkKmem -> vm_ok s T -> uspace s T lo hi -> vpage lo hi a -> 0 < a -> readable s T a = true ->
  a <= dst -> dst + Z.of_nat (length bs) <= a + PGSIZE ->
  (forall s' l', wrote (fun va => dst <= va < dst + Z.of_nat (length bs)) s l s' l' ->
     (forall va, dst <= va < dst + Z.of_nat (length bs) ->
        ubyte s' T va = u8 (default 0 (bs !! Z.to_nat (va - dst)))) -> wp K Q s') ->
  (forall s', wrote (fun _ => False) s l s' [] -> wp F Q s') ->
  wp (let! c := cowalloc (pt_root T) a in
      if c <? 0 then F else
      let! pa0 := walkaddr (pt_root T) a in
      if pa0 =? 0 then F else
      do! copy_in (pa0 + (dst - a)) bs in K) Q s.
Proof using PA Hbounds.
  intros Hi Hr Hvm Hus Ha H0 Hrd Hd1 Hd2 HK HF.
  destruct (copyout_cow s l a) as (c & s' & l' & E & Hw & Hcase); try done.
  wp_steps. eapply wp_eq; [exact E|]. destruct Hcase as [(-> & Hc & Hrd')|[-> ->]]; [|by apply HF].
  simpl. wp_steps. eapply wp_eq; [apply walkaddr_ok; [apply Hw|]|].
  { destruct Hbounds, Ha. lia. }
  rewrite Hrd'. destruct (us_page _ _ _ _ (wr_space _ _ _ _ _ Hw) a Ha) as [_ _ Hk _ _ _].
  destruct (kpage_bounds _ Hk) as (? & ? & ?). destruct (Z.eqb_spec (pa_at s' T a) 0); [done|].
  destruct (store_wrote s' l' a dst bs) as [Hw2 Hb2]; try done; try apply Hw.
  wp_steps. eapply wp_eq; [unfold copy_in; rewrite in_ram_true by lia; reflexivity|].
  eapply HK; [|exact Hb2]. eapply wrote_weaken; [|eapply wrote_trans; [exact Hw|exact Hw2]].
  intros va [[]|?]. done.
Qed.

(** [copyout] writes the bytes of the kernel into the process's memory, or
    runs out of pages and stops after the first [k] of them. *)
Lemma copyout_ok s l dst bs :
  let n := Z.of_nat (length bs) in
  inv s l -> ready s LkKmem -> vm_ok s T -> uspace s T lo hi -> PGSIZE <= lo -> lo <= dst -> dst + n <= hi ->
  (forall a, vpage (PGROUNDDOWN dst) (dst + n) a -> readable s T a = true) ->
  exists r s' l' k, copyout (pt_root T) dst bs s = Ret r s' /\
    wrote (fun va => dst <= va < dst + k) s l s' l' /\
    (forall va, dst <= va < dst + k -> ubyte s' T va = u8 (default 0 (bs !! Z.to_nat (va - dst)))) /\
    (r = 0 /\ k = n \/ r = -1 /\ 0 <= k < n /\ l' = []).
Proof using PA Hbounds.
  intros n Hi Hr Hvm Hus Hpg Hlo Hhi Hrd. pose proof MAXVA_pow as HM. destruct Hbounds as (Hbl & Hbh & Hb0 & Hb1).
  enough (Hwp : wp (copyout (pt_root T) dst bs) (fun r s' => exists l' k,
    wrote (fun va => dst <= va < dst + k) s l s' l' /\
    (forall va, dst <= va < dst + k -> ubyte s' T va = u8 (default 0 (bs !! Z.to_nat (va - dst)))) /\
    (r = 0 /\ k = n \/ r = -1 /\ 0 <= k < n /\ l' = [])) s).
  { apply wp_inv in Hwp as (r & s' & E & l' & k & H'). eauto 10. }
  unfold copyout.
  apply (wp_while _ (fun '(d, rest) s1 => exists l1 k, dst <= d < 2 ^ 40 /\ 0 <= k <= n /\ rest = drop (Z.to_nat k) bs /\
           n - k = Z.max 0 (dst + n - d) /\ (d = dst /\ k = 0 \/ page_aligned d) /\
           wrote (fun va => dst <= va < dst + k) s l s1 l1 /\
           (forall va, dst <= va < dst + k -> ubyte s1 T va = u8 (default 0 (bs !! Z.to_nat (va - dst)))))
         (fun '(d, rest) => Z.of_nat (length rest))).
  2: { exists l, 0. split_and!; try done; try lia.
       eapply wrote_weaken; [|by apply wrote_refl]. done. }
  2: lia.
  intros [d rest] s1 (l1 & k & Hd & Hk & -> & Hnk & Hcase & Hw & Hb).
  rewrite length_drop. destruct (Z.ltb_spec 0 (Z.of_nat (length bs - Z.to_nat k))) as [Hpos|Hz].
  2: { apply wp_ret. exists l1, k. split_and!; [done|done|]. left. split; [done|]. lia. }
  assert (Edk : d = dst + k) by lia. clear Hnk.
  set (va0 := PGROUNDDOWN d).
  pose proof (PGROUNDDOWN_bounds d : va0 <= d < va0 + PGSIZE) as Hv1.
  pose proof (PGROUNDDOWN_aligned d : page_aligned va0) as Hv2.
  pose proof (PGROUNDDOWN_bounds dst) as Hv3. pose proof (PGROUNDDOWN_aligned dst) as Hv4.
  assert (Hvlo : PGROUNDDOWN dst <= va0 /\ lo <= va0).
  { unfold page_aligned, PGSIZE in *. clear -Hv1 Hv2 Hv3 Hv4 Hbl Hd Hlo. split; dlia. }
  assert (Hvp : vpage lo hi va0) by (split; [done|lia]).
  destruct (Z.ltb_spec MAXVA va0); [lia|].
  set (m := if Z.of_nat (length bs - Z.to_nat k) <? PGSIZE - (d - va0)
            then Z.of_nat (length bs - Z.to_nat k) else PGSIZE - (d - va0)).
  assert (Hm : 0 < m /\ m <= n - k /\ d + m <= va0 + PGSIZE /\ n - (k + m) = Z.max 0 (dst + n - (va0 + PGSIZE))).
  { unfold m. destruct (Z.ltb_spec (Z.of_nat (length bs - Z.to_nat k)) (PGSIZE - (d - va0))); lia. }
  assert (Hlen : Z.of_nat (length (take (Z.to_nat m) (drop (Z.to_nat k) bs))) = m).
  { rewrite length_take, length_drop. lia. }
  assert (Hrd1 : readable s1 T va0 = true).
  { destruct (wr_page _ _ _ _ _ Hw va0 Hvp) as [E|(_ & _ & _ & ?)]; [|done].
    unfold readable. rewrite E. apply Hrd. split; [done|lia]. }
  apply (copyout_page s1 l1 va0 d); try done; try apply Hw; try (rewrite ?Hlen; lia).
  { eapply ready_hart_eq; [apply Hw|done]. }
  - intros s2 l2 Hw2 Hb2. rewrite Hlen in Hw2, Hb2. apply wp_ret. rewrite u64_small by (unfold PGSIZE in *; lia).
    rewrite drop_drop, <- Z2Nat.inj_add by lia. rewrite !length_drop. split; [|lia].
    exists l2, (k + m). split_and!; try done; try (unfold PGSIZE in *; lia).
    + right. unfold page_aligned, PGSIZE in *. dlia.
    + eapply wrote_weaken; [|eapply wrote_trans; [exact Hw|exact Hw2]]. intros va. simpl. lia.
    + intros va Hva. destruct (decide (va < d)) as [Hlt|Hge].
      * rewrite (wr_bytes _ _ _ _ _ Hw2) by lia. apply Hb. lia.
      * rewrite Hb2 by lia. rewrite lookup_take_lt by lia. rewrite lookup_drop.
        do 3 f_equal. lia.
  - intros s2 Hw2. apply wp_ret. exists [], k. split_and!; [|intros va Hva|right; split_and!; [done|lia|lia|done]].
    + eapply wrote_weaken; [|eapply wrote_trans; [exact Hw|exact Hw2]]. intros va. simpl. tauto.
    + rewrite (wr_bytes _ _ _ _ _ Hw2); [auto|lia|tauto].
Qed.
End copyout.
