(* ===== verification/VmFree.v ===== *)
(** * Tearing an address space down ([freewalk], [uvmfree] of [kernel/vm.c])

    [freewalk] gives every page of an empty page-table tree back to the
    allocator; [uvmfree] first drops the references to the user pages. *)

From S2P Require Import Prelude Riscv Memory Machine Spinlock Kalloc Vm PageTable VmWalk VmMap VmUser VmCow.

Section free.
Context {KI : KernelImage} {inv : machine -> list Z -> Prop} {PA : PageAllocator kalloc kfree inv}.

(** From [s] to [s'] exactly the pages in [D] were freed, and only they and
    the page [w] were written. *)
Record freed (D : Z -> Prop) (w : Z) (s : machine) (l : list Z) (s' : machine) (l' : list Z) : Prop := {
  fd_inv : inv s' l';
  fd_hart : hart_eq s s';
  fd_refs q : kpage q -> ~ D q -> refs s' q = refs s q;
  fd_free q : q ∈ l' <-> q ∈ l \/ D q;
  fd_mem b : (forall p, D p -> ~ in_page p b) -> ~ in_page w b -> mget (mem s') b = mget (mem s) b
}.

(** [freewalk] at [p] frees exactly [D], from every state that agrees with
    [s] on [D]. *)
Definition frees (s : machine) (depth : nat) (p : Z) (D : Z -> Prop) : Prop :=
  forall s1 l1, inv s1 l1 -> ready s1 LkKmem ->
    (forall q, D q -> refs s1 q = refs s q) ->
    (forall q b, D q -> in_page q b -> mget (mem s1) b = mget (mem s) b) ->
    exists s2 l2, freewalk_at depth p s1 = Ret tt s2 /\ freed D p s1 l1 s2 l2.

Lemma frees_iff s depth p D D' : (forall q, D q <-> D' q) -> frees s depth p D -> frees s depth p D'.
Proof.
  intros HD Hf s1 l1 Hi Hr Ha Hm. destruct (Hf s1 l1 Hi Hr) as (s2 & l2 & E & [Hi2 Hh2 Hrf2 Hfr2 Hm2]).
  - intros q Hq. by apply Ha, HD.
  - intros q b Hq. by apply Hm, HD.
  - exists s2, l2. split; [done|]. split; try done.
    + intros q Hq Hn. apply Hrf2; [done|]. by rewrite HD.
    + intros q. by rewrite Hfr2, HD.
    + intros b Hn Hw. apply Hm2; [|done]. intros x Hx. by apply Hn, HD.
Qed.

(** The loop body of [freewalk] at entry [i]. *)
Definition freewalk_entry (depth : nat) (p i : Z) : M machine unit :=
  let! pte := ld64 (p + 8 * i) in
  if bit pte PTE_V && negb (bit pte (Z.lor (Z.lor PTE_R PTE_W) PTE_X)) then
    do! freewalk_at depth (PTE2PA pte) in
    st64 (p + 8 * i) 0
  else if bit pte PTE_V then panic "freewalk: leaf"
  else ret tt.

Lemma inner_not_leaf q : kpage q -> bit (inner (Some q)) (Z.lor (Z.lor PTE_R PTE_W) PTE_X) = false.
Proof.
  intros Hq. destruct (inner_some q Hq) as (_ & _ & _ & Hf). unfold bit.
  rewrite <- (land_PTE_FLAGS _ (Z.lor (Z.lor PTE_R PTE_W) PTE_X)) by done. by rewrite Hf.
Qed.

Section level.
Context (s : machine) (depth : nat) (p : Z) (c : Z -> option Z) (D : Z -> Z -> Prop).
Context (Hp : kpage p) (Hent : forall i, idx i -> ent (mem s) p i = inner (c i)).
Context (Hsub : forall i q, idx i -> c i = Some q -> kpage q /\ frees s depth q (D i) /\ D i q).
Context (Hkp : forall i q, D i q -> kpage q) (Hnone : forall i q, c i = None -> ~ D i q).
Context (Hpd : forall i, ~ D i p) (Hdisj : forall i j q, D i q -> D j q -> i = j).
Context (Hidx : forall i q, D i q -> idx i).

(** The subtrees of the entries below [i]. *)
Definition below (i q : Z) : Prop := exists j, 0 <= j < i /\ D j q.

Lemma freewalk_entry_ok s0 l0 i s1 l1 :
  ready s0 LkKmem -> idx i -> freed (below i) p s0 l0 s1 l1 ->
  (forall i q, D i q -> refs s0 q = refs s q) ->
  (forall i q b, D i q -> in_page q b -> mget (mem s0) b = mget (mem s) b) ->
  (forall k, i <= k -> idx k -> ent (mem s1) p k = inner (c k)) -> p ∉ l1 ->
  exists s2 l2, freewalk_entry depth p i s1 = Ret tt s2 /\ freed (below (i + 1)) p s0 l0 s2 l2 /\
    (forall k, i + 1 <= k -> idx k -> ent (mem s2) p k = inner (c k)) /\ p ∉ l2.
Proof using PA Hp Hent Hsub Hkp Hnone Hpd Hdisj.
  intros Hr Hi [Hi1 Hh1 Hrf Hfr Hm] Hs0 Hm0 Hk Hpl. unfold freewalk_entry, bind. rewrite ld64_ent by done. cbn [rbind].
  rewrite Hk by (done || lia).
  assert (Hb : forall q, below (i + 1) q <-> below i q \/ D i q).
  { intros q. unfold below. split.
    - intros (j & Hj & HD). destruct (decide (j = i)) as [->|]; [by right|left]. exists j. split; [lia|done].
    - intros [(j & Hj & HD)|HD]; [exists j; split; [lia|done]|exists i; split; [unfold idx in Hi; lia|done]]. }
  destruct (c i) as [q|] eqn:Ec.
  - destruct (Hsub i q Hi Ec) as (Hq & Hfs & Hiq). destruct (inner_some q Hq) as (-> & -> & _).
    rewrite inner_not_leaf by done. cbn [negb andb].
    assert (Hnb : forall x, D i x -> ~ below i x).
    { intros x Hx (j & Hj & HD). rewrite (Hdisj i j x) in Hj by done. lia. }
    destruct (Hfs s1 l1) as (s2 & l2 & E & [Hi2 Hh2 Hrf2 Hfr2 Hm2]).
    + done.
    + by rewrite <- Hh1.
    + intros x Hx. rewrite Hrf, (Hs0 i); eauto.
    + intros x b Hx Hb'. rewrite Hm; [by eapply Hm0| |].
      * intros y (j & Hj & Hy) Hb2. assert (x = y) as -> by (eapply kpage_disj; eauto).
        apply (Hnb y Hx). by exists j.
      * intros Hb2. apply (Hpd i). assert (p = x) as -> by (eapply kpage_disj; eauto). done.
    + rewrite E. cbn [rbind]. destruct (ent_addr p i Hp Hi) as [Ha1 Ha2].
      unfold st64. rewrite in_ram_true by done. eexists _, l2. split; [done|].
      set (s3 := set_mem _ s2).
      assert (Hm3 : forall b, ~ in_page p b -> mget (mem s3) b = mget (mem s2) b).
      { intros b Hnb'. unfold s3. mcbn. apply mget_store64_ne. intros ?. apply Hnb'. by eapply slot_in_page. }
      assert (Hpl2 : p ∉ l2) by (rewrite Hfr2; intros [?|?]; [done|by eapply Hpd]).
      split_and!.
      * split.
        -- apply (alloc_frame (PageAllocator := PA) s2); try done. intros x b Hx Hb'. apply Hm3. intros Hb2.
           apply Hpl2. destruct (alloc_inv_pages (PageAllocator := PA) s2 l2 Hi2) as [_ Hl2].
           by rewrite (kpage_disj p x b); try done; apply Hl2.
        -- by transitivity s1; [|transitivity s2].
        -- intros x Hx Hnx. rewrite Hb in Hnx. change (refs s3 x) with (refs s2 x). rewrite Hrf2, Hrf; tauto.
        -- intros x. rewrite Hfr2, Hfr, Hb. tauto.
        -- intros b Hnb' Hpb. rewrite Hm3, Hm2, Hm; try done.
           ++ intros x Hx. apply Hnb', Hb. by left.
           ++ intros x Hx. apply Hnb', Hb. by right.
           ++ apply Hnb', Hb. by right.
      * intros k Hik Hkx. unfold s3. mcbn. rewrite ent_store_ne by (try done; intros [=]; lia).
        rewrite <- (Hk k) by (done || lia). apply ent_ext; [done|]. intros b Hpb. apply Hm2.
        -- intros x Hx Hb'. apply (Hpd i). assert (p = x) as -> by (eapply kpage_disj; eauto). done.
        -- intros Hb'. apply (Hpd i). assert (p = q) as -> by (eapply kpage_disj; eauto). done.
      * done.
  - simpl. exists s1, l1. split_and!; [done| |intros; apply Hk; [lia|done]|done].
    assert (Hb' : forall q, below (i + 1) q <-> below i q).
    { intros q. rewrite Hb. split; [|auto]. intros [?|HD]; [done|]. by apply Hnone in HD. }
    split; try done.
    + intros q Hq Hn. apply Hrf; [done|]. by rewrite <- Hb'.
    + intros q. rewrite Hfr. by rewrite Hb'.
    + intros b Hn Hpb. apply Hm; [|done]. intros x Hx. apply Hn. by rewrite Hb'.
Qed.

Lemma freewalk_level : refs s p = 1 -> frees s (S depth) p (fun q => q = p \/ exists i, idx i /\ D i q).
Proof using PA Hp Hent Hsub Hkp Hnone Hpd Hdisj Hidx.
  intros Hrp s1 l1 Hi1 Hr1 Hag Ham. set (DD := fun q => q = p \/ exists i, idx i /\ D i q) in *.
  assert (HDD : forall i q, D i q -> DD q) by (intros i q Hq; right; eauto).
  assert (Hpl : p ∉ l1).
  { intros Hin. apply (alloc_inv_pages (PageAllocator := PA) s1 l1 Hi1) in Hin as [_ H0].
    rewrite (Hag p), Hrp in H0 by (by left). lia. }
  assert (Hloop : wp (for_all (seqZ 0 512) (freewalk_entry depth p)) (fun _ s2 => exists l2,
            freed (below 512) p s1 l1 s2 l2 /\ p ∉ l2) s1).
  { apply (wp_for_all _ (fun xs st => exists i l, xs = seqZ i (512 - i) /\ 0 <= i <= 512 /\
        freed (below i) p s1 l1 st l /\ (forall k, i <= k -> idx k -> ent (mem st) p k = inner (c k)) /\ p ∉ l)).
    - intros x xs st (i & l & Exs & Hib & Hfd & Hk & Hl). destruct (decide (i = 512)) as [->|Hne]; [done|].
      rewrite seqZ_cons in Exs by lia. injection Exs as -> ->.
      destruct (freewalk_entry_ok s1 l1 i st l) as (s2 & l2 & E & Hfd2 & Hk2 & Hl2); try done.
      { unfold idx. lia. }
      { intros j q Hq. apply Hag. eauto. }
      { intros j q b Hq. apply Ham. eauto. }
      eapply wp_eq; [exact E|]. exists (i + 1), l2. split_and!; try done; try lia. f_equal; lia.
    - intros st (i & l & Exs & Hib & Hfd & _ & Hl).
      destruct (decide (i = 512)) as [->|Hne]; [eauto|]. by rewrite seqZ_cons in Exs by lia.
    - exists 0, l1. split_and!; try done; try lia.
      + split; try done.
        * intros q. split; [auto|]. intros [?|(j & ? & _)]; [done|lia].
      + intros k _ Hkx. rewrite <- Hent by done. apply ent_ext; [done|]. intros b Hb. apply (Ham p); [by left|done]. }
  apply wp_inv in Hloop as ([] & s2 & E & l2 & [Hi2 Hh2 Hrf2 Hfr2 Hm2] & Hl2).
  assert (Hb : forall q, below 512 q <-> exists i, idx i /\ D i q) by done.
  destruct (dealloc_last (PageAllocator := PA) s2 p l2) as (s3 & Ek & Hi3 & (Hh3 & Hm3 & Hr3) & _); try done.
  { by rewrite <- Hh2. }
  { rewrite Hrf2, Hag; try done; [by left|]. intros (i & _ & HD). by eapply Hpd. }
  exists s3, (p :: l2). split.
  { cbn [freewalk_at]. unfold bind at 1.
    change (for_all (seqZ 0 512) _ s1) with (for_all (seqZ 0 512) (freewalk_entry depth p) s1). by rewrite E. }
  split; try done.
  - by transitivity s2.
  - intros q Hq Hn. rewrite Hr3, Hrf2; try done.
    + intros HD. apply Hn. right. by apply Hb.
    + intros ->. apply Hn. by left.
  - intros q. rewrite elem_of_cons, Hfr2, Hb. unfold DD. tauto.
  - intros b Hn Hpb. rewrite Hm3, Hm2; try done. intros x Hx. apply Hn. right. by apply Hb.
Qed.
End level.

(** ** The tree *)

(** No leaf of the tree is mapped. *)
Definition no_leaves (m : memory) (T : ptree) : Prop :=
  forall ij q k, pt_l0 T !! ij = Some q -> idx k -> ent m q k = 0.

Lemma freewalk_ok s l T :
  inv s l -> ready s LkKmem -> vm_ok s T -> no_leaves (mem s) T ->
  exists s' l', freewalk (pt_root T) s = Ret tt s' /\ freed (pt_page T) (pt_root T) s l s' l'.
Proof using PA.
  intros Hi Hr [Hok Hrf] Hnl. pose proof Hok as [Hpg Hr1 Hr0 H10 Hi1 Hi0 Hd1 Hd0 He2 He1].
  assert (HL0 : forall ij q, pt_l0 T !! ij = Some q -> frees s 1 q (fun x => x = q)).
  { intros ij q Hq. assert (HT : pt_page T q) by (right; right; eauto).
    eapply frees_iff; [|apply (freewalk_level s 0 q (fun _ => None) (fun _ _ => False)); try done; auto].
    - intros x. naive_solver.
    - intros i Hix. by apply (Hnl ij). }
  assert (HL1 : forall i p, pt_l1 T !! i = Some p ->
            frees s 2 p (fun x => x = p \/ exists j, idx j /\ pt_l0 T !! (i, j) = Some x)).
  { intros i p Hip. assert (HT : pt_page T p) by (right; left; eauto).
    apply (freewalk_level s 1 p (fun j => pt_l0 T !! (i, j)) (fun j x => pt_l0 T !! (i, j) = Some x)).
    - by apply Hpg.
    - intros j Hj. by apply He1.
    - intros j q Hj Hq. split_and!; [apply Hpg; right; right; eauto| |done].
      eapply frees_iff; [|by eapply HL0]. intros x. naive_solver.
    - intros j q Hq. apply Hpg. right; right; eauto.
    - congruence.
    - naive_solver.
    - intros j j' q Hj Hj'. by injection (Hi0 _ _ _ Hj Hj').
    - intros j q Hq. by apply (Hd0 i j q).
    - by apply Hrf. }
  set (D := fun i x => exists p, pt_l1 T !! i = Some p /\ (x = p \/ exists j, idx j /\ pt_l0 T !! (i, j) = Some x)).
  assert (HD : forall q, pt_page T q <-> q = pt_root T \/ exists i, idx i /\ D i q).
  { intros q. unfold D. split.
    - intros [->|[[i Hq]|[[i j] Hq]]]; [by left|right; exists i..].
      + split; [by eapply Hd1|eauto].
      + destruct (Hd0 i j q Hq) as [[p Hp] Hj]. split; [by eapply Hd1|]. exists p. split; [done|]. right. eauto.
    - intros [->|(i & _ & p & Hp & [->|(j & _ & Hq)])]; [by left|right; left; eauto|right; right; eauto]. }
  assert (HR : frees s 3 (pt_root T) (pt_page T)).
  { eapply frees_iff; [intros q; symmetry; apply HD|].
    apply (freewalk_level s 2 (pt_root T) (fun i => pt_l1 T !! i) D).
    - apply Hpg. by left.
    - done.
    - intros i q Hix Hq. split_and!; [apply Hpg; right; left; eauto| |exists q; auto].
      eapply frees_iff; [|by eapply HL1]. intros x. unfold D. naive_solver.
    - intros i q Hq. apply Hpg, HD. right. exists i. split; [|done]. destruct Hq as (p & Hp & _). eauto.
    - intros i q Hn (p & Hp & _). congruence.
    - intros i (p & Hp & [Eq|(j & _ & Hq)]); naive_solver.
    - intros i i' q (p & Hp & [->|(j & _ & Hq)]) (p' & Hp' & [Eq|(j' & _ & Hq')]);
        [subst; by eapply Hi1|by destruct (H10 _ _ _ Hp Hq')|subst; by destruct (H10 _ _ _ Hp' Hq)|].
      by injection (Hi0 _ _ _ Hq Hq').
    - intros i q (p & Hp & _). eauto.
    - apply Hrf. by left. }
  by apply HR.
Qed.

(** ** [uvmfree] *)

Lemma PX_of i j k : 0 <= i < 256 -> idx j -> idx k ->
  exists va, 0 <= va < MAXVA /\ PX 2 va = i /\ PX 1 va = j /\ PX 0 va = k.
Proof.
  unfold idx. intros Hi Hj Hk. exists (i * 2 ^ 30 + j * 2 ^ 21 + k * 2 ^ 12). rewrite MAXVA_pow, !PX_eq by lia.
  change (12 + 9 * 2) with 30. change (12 + 9 * 1) with 21. change (12 + 9 * 0) with 12.
  change (2 ^ 30) with 1073741824. change (2 ^ 21) with 2097152. change (2 ^ 12) with 4096.
  change (2 ^ 38) with 274877906944. split_and!; dlia.
Qed.

(** The user half of the root table: only there can [walk] hang a table. *)
Definition user_half (T : ptree) : Prop := forall i q, pt_l1 T !! i = Some q -> i < 256.

Lemma no_leaves_ptes m T :
  pt_ok m T -> user_half T -> (forall va, 0 <= va < MAXVA -> pte_at m T va = 0) -> no_leaves m T.
Proof.
  intros Hok Hh Hz [i j] q k Hq Hk. destruct (po_dom0 _ _ Hok i j q Hq) as [[p Hp] Hj].
  pose proof (po_dom1 _ _ Hok i p Hp) as Hi. specialize (Hh i p Hp). unfold idx in Hi.
  destruct (PX_of i j k) as (va & Hva & E2 & E1 & E0); [lia|done|done|].
  specialize (Hz _ Hva). unfold pte_at in Hz. by rewrite E2, E1, E0, Hq in Hz.
Qed.

(** The address space is gone: its tables and the user pages it held the last
    reference to are free, the other user pages lost one reference. *)
Record torn_down (T : ptree) (hi : Z) (s : machine) (l : list Z) (s' : machine) (l' : list Z) : Prop := {
  td_inv : inv s' l';
  td_hart : hart_eq s s';
  td_free q : q ∈ l' <-> q ∈ l \/ pt_page T q \/ exists va, vpage 0 hi va /\ q = pa_at s T va /\ refs s q = 1;
  td_refs va : vpage 0 hi va -> refs s' (pa_at s T va) = refs s (pa_at s T va) - 1;
  td_refs_ne q : kpage q -> ~ pt_page T q -> (forall va, vpage 0 hi va -> q <> pa_at s T va) -> refs s' q = refs s q;
  td_mem b : (forall p, pt_page T p -> ~ in_page p b) ->
    (forall va, vpage 0 hi va -> refs s (pa_at s T va) = 1 -> ~ in_page (pa_at s T va) b) ->
    mget (mem s') b = mget (mem s) b
}.

Lemma uvmfree_ok s l T sz hi :
  inv s l -> ready s LkKmem -> vm_ok s T -> user_half T -> 0 <= sz <= MAXVA -> hi = PGROUNDUP sz -> hi <= MAXVA ->
  uspace s T 0 hi -> (forall va, hi <= va < MAXVA -> pte_at (mem s) T va = 0) ->
  exists s' l', uvmfree (pt_root T) sz s = Ret tt s' /\ torn_down T hi s l s' l'.
Proof using PA.
  intros Hi Hr Hvm Hh Hsz Ehi Hmax Hus Hz. pose proof MAXVA_pow as HM.
  assert (Ehi' : hi = (sz + PGSIZE - 1) / PGSIZE * PGSIZE).
  { rewrite Ehi. apply PGROUNDUP_eq. unfold PGSIZE. lia. }
  assert (En : 0 + PGROUNDUP sz / PGSIZE * PGSIZE = hi).
  { rewrite <- Ehi, Ehi', Z.div_mul by done. lia. }
  assert (Hum : exists s1 l1, when (0 <? sz) (uvmunmap (pt_root T) 0 (PGROUNDUP sz / PGSIZE) true) s = Ret tt s1 /\
            unmapped (inv := inv) 0 hi s l T s1 l1).
  { unfold when. destruct (Z.ltb_spec 0 sz).
    - rewrite <- En. apply uvmunmap_ok; rewrite ?En; try done. rewrite <- Ehi, Ehi', Z.div_mul by done. unfold PGSIZE. dlia.
    - exists s, l. split; [done|]. assert (hi = 0) as -> by (rewrite Ehi'; unfold PGSIZE in *; dlia). by apply unmapped_refl. }
  destruct Hum as (s1 & l1 & E1 & [Hi1 Hh1 Hok1 Hpte Hrf1 Hrn1 Hfr1 Hm1]).
  destruct (freewalk_ok s1 l1 T) as (s2 & l2 & E2 & [Hi2 Hh2 Hrf2 Hfr2 Hm2]); try done.
  { by rewrite <- Hh1. }
  { apply no_leaves_ptes; [apply Hok1|done|]. intros va Hva. rewrite Hpte by done. case_decide; [done|]. apply Hz. lia. }
  exists s2, l2. split; [unfold uvmfree, bind; rewrite E1; exact E2|]. destruct Hus as [Hup _].
  split; try done.
  - by transitivity s1.
  - intros q. rewrite Hfr2, Hfr1. tauto.
  - intros va Hva. destruct (Hup va Hva). rewrite Hrf2, Hrf1; done.
  - intros q Hq HqT Hne. rewrite Hrf2, Hrn1; done.
  - intros b HbT Hb. rewrite Hm2, Hm1; try done. apply HbT. by left.
Qed.
End free.
