(* ===== verification/VmSample.v ===== *)
(** * A sample address space

    A machine with a parent page table that maps four pages, an empty child
    table and a short free list, and a decision procedure for page-table
    trees. The witnesses of the virtual-memory properties run on it. *)

From S2P Require Import Prelude Riscv Memory Machine Spinlock Kalloc Vm PageTable VmWalk VmMap.

(** ** Deciding that a memory holds a tree *)

Definition kpageb `{KernelImage} (p : Z) : bool := (p mod PGSIZE =? 0) && (kend <=? p) && (p <? PHYSTOP).

Definition tree_pages (T : ptree) : list Z :=
  pt_root T :: ((map_to_list (pt_l1 T)).*2 ++ (map_to_list (pt_l0 T)).*2).

Definition pt_check `{KernelImage} (m : memory) (T : ptree) : bool :=
  forallb kpageb (tree_pages T) && bool_decide (NoDup (tree_pages T)) &&
  forallb (fun i => ent m (pt_root T) i =? inner (pt_l1 T !! i)) (seqZ 0 512) &&
  forallb (fun '(i, q) => (0 <=? i) && (i <? 512) &&
    forallb (fun j => ent m q j =? inner (pt_l0 T !! (i, j))) (seqZ 0 512)) (map_to_list (pt_l1 T)) &&
  forallb (fun '((i, j), q) => bool_decide (is_Some (pt_l1 T !! i)) && (0 <=? j) && (j <? 512)) (map_to_list (pt_l0 T)).

Section check.
Context `{KernelImage}.

Lemma kpageb_ok p : kpageb p = true -> kpage p.
Proof. unfold kpageb. intros Hp. zbool. split; [done|lia]. Qed.

Lemma tree_pages_spec T p : pt_page T p <-> p ∈ tree_pages T.
Proof.
  unfold tree_pages, pt_page. rewrite elem_of_cons, elem_of_app, !list_elem_of_fmap. split.
  - intros [->|[[i Hi]|[ij Hij]]]; [by left|right; left|right; right].
    + exists (i, p). split; [done|]. by apply elem_of_map_to_list.
    + exists (ij, p). split; [done|]. by apply elem_of_map_to_list.
  - intros [->|[([i q] & -> & Hi%elem_of_map_to_list)|([ij q] & -> & Hi%elem_of_map_to_list)]]; eauto.
Qed.

(** No page occurs twice among the values of a map whose values are distinct. *)
Lemma values_inj `{Countable K} (m : gmap K Z) i j q :
  NoDup (map_to_list m).*2 -> m !! i = Some q -> m !! j = Some q -> i = j.
Proof.
  intros Hnd Hi Hj. apply elem_of_map_to_list, list_elem_of_lookup in Hi as [a Ha].
  apply elem_of_map_to_list, list_elem_of_lookup in Hj as [b Hb].
  assert (a = b) as ->; [|congruence].
  eapply NoDup_lookup; [exact Hnd| |]; rewrite list_lookup_fmap; [by rewrite Ha|by rewrite Hb].
Qed.

Lemma pt_check_ok m T : pt_check m T = true -> pt_ok m T.
Proof.
  unfold pt_check. rewrite !andb_true_iff, !forallb_forall, bool_decide_eq_true. setoid_rewrite <- list_elem_of_In.
  intros [[[[Hp Hnd] H2] H1] H0]. unfold tree_pages in Hnd.
  inversion Hnd as [|? ? Hroot Hnd']. subst. apply list.NoDup_app in Hnd' as (Hnd1 & Hdisj & Hnd0).
  assert (Hv1 : forall i q, pt_l1 T !! i = Some q -> q ∈ (map_to_list (pt_l1 T)).*2).
  { intros i q Hi. apply list_elem_of_fmap. exists (i, q). split; [done|]. by apply elem_of_map_to_list. }
  assert (Hv0 : forall ij q, pt_l0 T !! ij = Some q -> q ∈ (map_to_list (pt_l0 T)).*2).
  { intros ij q Hi. apply list_elem_of_fmap. exists (ij, q). split; [done|]. by apply elem_of_map_to_list. }
  assert (Hd1 : forall i q, pt_l1 T !! i = Some q -> idx i /\ forall j, idx j -> ent m q j = inner (pt_l0 T !! (i, j))).
  { intros i q Hi. specialize (H1 (i, q) (proj2 (elem_of_map_to_list _ _ _) Hi)). cbv beta match in H1.
    rewrite !andb_true_iff, forallb_forall in H1. destruct H1 as [[? ?] He]. zbool. split; [unfold idx; lia|].
    intros j Hj. apply Z.eqb_eq, He, list_elem_of_In, elem_of_seqZ. unfold idx in Hj. lia. }
  split.
  - intros p Hq. apply kpageb_ok, Hp. by apply tree_pages_spec.
  - intros i Hi. apply Hroot, elem_of_app. left. eauto.
  - intros ij Hi. apply Hroot, elem_of_app. right. eauto.
  - intros i ij q Hi Hij. eapply Hdisj; eauto.
  - intros i i' q. by apply values_inj.
  - intros i i' q. by apply values_inj.
  - intros i q Hi. by apply (Hd1 i q).
  - intros i j q Hij. specialize (H0 (i, j, q) (proj2 (elem_of_map_to_list _ _ _) Hij)). cbv beta match in H0.
    rewrite !andb_true_iff, bool_decide_eq_true in H0. destruct H0 as [[? ?] ?]. zbool. split; [done|unfold idx; lia].
  - intros i Hi. apply Z.eqb_eq, H2, elem_of_seqZ. unfold idx in Hi. lia.
  - intros i q j Hi Hj. by apply (Hd1 i q).
Qed.
End check.

(** ** The machine *)

Module VmSample.
#[export] Existing Instance kernel_sym.

Definition pg (i : Z) : Z := 0x80250000 + i * PGSIZE.
(** The parent's tables, the child's root, four user pages, four free pages. *)
Definition root := pg 0.
Definition tab1 := pg 1.
Definition tab0 := pg 2.
Definition croot := pg 3.
Definition user (i : Z) : Z := pg (4 + i).
Definition free_pages : list Z := [pg 8; pg 9; pg 10; pg 11].

Definition uflags (i : Z) : Z :=
  Z.lor (Z.lor PTE_U PTE_R) (if i <? 2 then PTE_W else PTE_C).
(** Pages 0 and 1 writable, pages 2 and 3 copy-on-write. *)
Definition tables : memory :=
  store64 (store64 (store64 (store64 (store64 (store64 ∅
    root (inner (Some tab1))) tab1 (inner (Some tab0)))
    tab0 (mk_pte (user 0) (uflags 0))) (tab0 + 8) (mk_pte (user 1) (uflags 1)))
    (tab0 + 16) (mk_pte (user 2) (uflags 2))) (tab0 + 24) (mk_pte (user 3) (uflags 3)).
Definition with_free : memory :=
  store64 (store64 (store64 tables (pg 8) (pg 9)) (pg 9) (pg 10)) (pg 10) (pg 11).
Definition counts : gmap Z Z :=
  list_to_map (((fun i => (pg i / PGSIZE, if i =? 6 then 2 else 1)) <$> seqZ 0 8)).

Definition parent : machine := mk_machine 0 ∅ {[LkKmem := unlocked]} with_free (pg 8) counts.
(** The same with no free page. *)
Definition starved : machine := mk_machine 0 ∅ {[LkKmem := unlocked]} tables 0 counts.

Definition T : ptree := mk_ptree root {[0 := tab1]} {[(0, 0) := tab0]}.
Definition Tc : ptree := mk_ptree croot ∅ ∅.
Definition top : Z := 4 * PGSIZE.

Lemma ready_parent : ready parent LkKmem.
Proof. by split. Qed.
Lemma ready_starved : ready starved LkKmem.
Proof. by split. Qed.

Lemma kmem_parent : kmem_ok parent free_pages.
Proof.
  split; [vm_compute; done|apply (bool_decide_unpack _); vm_compute; done| |].
  - repeat constructor; vm_compute; done.
  - repeat constructor.
Qed.
Lemma kmem_starved : kmem_ok starved [].
Proof. split; [vm_compute; done|constructor..]. Qed.

Definition refs1 (s : machine) (T : ptree) : bool := forallb (fun p => refs s p =? 1) (tree_pages T).
Lemma vm_check s T : pt_check (mem s) T = true -> refs1 s T = true -> vm_ok s T.
Proof.
  intros Hc Hr. split; [by apply pt_check_ok|]. intros p Hp%tree_pages_spec.
  unfold refs1 in Hr. rewrite forallb_forall in Hr. apply Z.eqb_eq, Hr. by apply list_elem_of_In.
Qed.

Lemma vm_parent : vm_ok parent T.
Proof. apply vm_check; vm_compute; reflexivity. Qed.
Lemma vm_child : vm_ok parent Tc.
Proof. apply vm_check; vm_compute; reflexivity. Qed.
Lemma vm_starved : vm_ok starved T.
Proof. apply vm_check; vm_compute; reflexivity. Qed.
Lemma vm_starved_child : vm_ok starved Tc.
Proof. apply vm_check; vm_compute; reflexivity. Qed.

(** The four pages. *)
Lemma vpage_top va : vpage 0 top va -> va = 0 \/ va = PGSIZE \/ va = 2 * PGSIZE \/ va = 3 * PGSIZE.
Proof. unfold vpage, page_aligned, top, PGSIZE. intros [? ?]. dlia. Qed.

Definition upage_check (s : machine) (T : ptree) (va : Z) : bool :=
  bit (pte_at (mem s) T va) PTE_V && negb (PTE_FLAGS (pte_at (mem s) T va) =? PTE_V) &&
  kpageb (pa_at s T va) && bool_decide (pa_at s T va ∉ tree_pages T) &&
  (1 <=? refs s (pa_at s T va)) && (refs s (pa_at s T va) <? 2 ^ 31).
Lemma upage_check_ok s T va : upage_check s T va = true -> upage s T va.
Proof.
  unfold upage_check. rewrite !andb_true_iff, bool_decide_eq_true. intros [[[[[? ?] ?] Hn] ?] ?]. zbool.
  split; try done; [by apply kpageb_ok|by rewrite tree_pages_spec|unfold int_range; lia].
Qed.

Lemma space_parent : uspace parent T 0 top.
Proof.
  split.
  - intros va [->|[->|[->| ->]]]%vpage_top; apply upage_check_ok; vm_compute; reflexivity.
  - intros va va' [->|[->|[->| ->]]]%vpage_top [->|[->|[->| ->]]]%vpage_top; vm_compute; done.
Qed.
Lemma space_starved : uspace starved T 0 top.
Proof.
  split.
  - intros va [->|[->|[->| ->]]]%vpage_top; apply upage_check_ok; vm_compute; reflexivity.
  - intros va va' [->|[->|[->| ->]]]%vpage_top [->|[->|[->| ->]]]%vpage_top; vm_compute; done.
Qed.
End VmSample.
