(* ===== verification/VmSpec.v ===== *)
(** * What the virtual-memory code guarantees

    The properties of [kernel/vm.c] and of [cowalloc], for the page allocator
    of [kernel/kalloc.c], and runs of them on the sample address space. *)

From S2P Require Import Prelude Riscv Memory Machine Spinlock Kalloc Vm PageTable VmWalk VmMap VmUser VmCow VmCopy VmFree VmSample.

Section spec.
Context {KI : KernelImage}.

(** [C25] [walk] finds the entry that maps an address and changes nothing; with
    [alloc] it adds the missing tables from the free list and returns the
    entry's address in the grown tree, every mapping as before, or returns
    null only when the free list is empty. *)
Theorem walk_finds_entry s l T va :
  kmem_ok s l -> ready s LkKmem -> vm_ok s T -> 0 <= va < MAXVA ->
  walk (pt_root T) va false s = Ret (default 0 (pt_slot T va)) s /\
  exists r s' l' T', walk (pt_root T) va true s = Ret r s' /\ grows (inv := kmem_ok) s l T s' l' T' /\
    same_ptes s T s' T' /\ ((r = 0 /\ l' = []) \/ (r <> 0 /\ pt_slot T' va = Some r)).
Proof. intros. split; [by apply walk_lookup|]. by apply walk_alloc. Qed.

(** [mappages] maps each page of [va, va + size) to the next physical page
    with the given permissions and no other page, or returns -1 because no
    page-table page is left, with a prefix of the pages mapped. *)
Theorem mappages_maps s l T va size pa perm :
  kmem_ok s l -> ready s LkKmem -> vm_ok s T ->
  0 <= va -> 0 < size -> va + size <= MAXVA -> 0 <= pa -> pa + size < 2 ^ 56 ->
  (forall va', PGROUNDDOWN va <= va' < va + size -> bit (pte_at (mem s) T va') PTE_V = false) ->
  exists r s' l' T' hi,
    mappages (pt_root T) va size pa perm s = Ret r s' /\ grows (inv := kmem_ok) s l T s' l' T' /\
    remapped (PGROUNDDOWN va) hi (fun p => u64 (mk_pte (pa + (p - PGROUNDDOWN va)) perm)) s T s' T' /\
    ((r = 0 /\ hi = PGROUNDDOWN (va + size - 1) + PGSIZE) \/
     (r = -1 /\ l' = [] /\ page_aligned hi /\ PGROUNDDOWN va <= hi <= PGROUNDDOWN (va + size - 1))).
Proof. apply mappages_ok. Qed.

(** [C26] [uvmunmap] with [do_free] clears the entry of every page of the range
    and drops its reference: a page is freed exactly when that was the last
    one, and no other page, entry or count changes. *)
Theorem uvmunmap_frees s l T va n :
  kmem_ok s l -> ready s LkKmem -> vm_ok s T -> page_aligned va -> 0 <= va -> 0 <= n ->
  va + n * PGSIZE <= MAXVA -> uspace s T va (va + n * PGSIZE) ->
  exists s' l', uvmunmap (pt_root T) va n true s = Ret tt s' /\
    unmapped (inv := kmem_ok) va (va + n * PGSIZE) s l T s' l'.
Proof. apply uvmunmap_ok. Qed.


(** [C28] [uvmfree] gives back the whole address space: every page of the page
    table and every user page with no other reference ends on the free list,
    shared user pages lose one reference, and nothing else changes. *)
Theorem uvmfree_frees_everything s l T sz :
  kmem_ok s l -> ready s LkKmem -> vm_ok s T -> user_half T -> 0 <= sz <= MAXVA -> PGROUNDUP sz <= MAXVA ->
  uspace s T 0 (PGROUNDUP sz) -> (forall va, PGROUNDUP sz <= va < MAXVA -> pte_at (mem s) T va = 0) ->
  exists s' l', uvmfree (pt_root T) sz s = Ret tt s' /\ torn_down (inv := kmem_ok) T (PGROUNDUP sz) s l s' l'.
Proof. intros. by apply uvmfree_ok. Qed.

(** [C29] [uvmcopy] shares every page of the parent: on success the child maps
    each of them, copy-on-write and without write permission, with one more
    reference; a failure leaves the child's mappings as they were; either way
    the parent's mappings and the content of every user page are unchanged. *)
Theorem uvmcopy_shares s l T Tn sz :
  forkable (inv := kmem_ok) s l T Tn (PGROUNDUP sz) -> 0 <= sz <= MAXVA ->
  exists r s' l' T', uvmcopy (pt_root T) (pt_root Tn) sz s = Ret r s' /\
    ((r = 0 /\ shared (inv := kmem_ok) s l T Tn (PGROUNDUP sz) (PGROUNDUP sz) (fun va => va < PGROUNDUP sz) s' l' T') \/
     (r = -1 /\ exists a, vpage 0 (PGROUNDUP sz) a /\
        shared (inv := kmem_ok) s l T Tn (PGROUNDUP sz) 0 (fun va => va = a) s' l' T')).
Proof. intros. by apply uvmcopy_ok. Qed.

(** [C30] [uvmcopy] does not write-protect the parent: after a successful copy a
    page the parent could write is mapped by the child to the same memory
    while the parent's entry still has [PTE_W], so the parent's stores show
    up in the child. *)
Theorem uvmcopy_parent_keeps_write s l T Tn sz s' va :
  forkable (inv := kmem_ok) s l T Tn (PGROUNDUP sz) -> 0 <= sz <= MAXVA ->
  uvmcopy (pt_root T) (pt_root Tn) sz s = Ret 0 s' ->
  vpage 0 (PGROUNDUP sz) va -> bit (pte_at (mem s) T va) PTE_W = true ->
  bit (pte_at (mem s') T va) PTE_W = true /\
  exists T', vm_ok s' T' /\ pt_root T' = pt_root Tn /\ pa_at s' T' va = pa_at s' T va.
Proof.
  intros Hfk Hsz E Hva HW. destruct (uvmcopy_ok s l T Tn _ sz Hfk Hsz eq_refl) as (r & s2 & l2 & T2 & E2 & Hc).
  rewrite E in E2. injection E2 as <- <-. destruct Hc as [[_ Hsh]|[? _]]; [|done].
  pose proof (sh_pte_old _ _ _ _ _ _ _ _ _ _ Hsh va) as Epte. rewrite Epte. split; [done|]. exists T2.
  split_and!; [apply Hsh|apply Hsh|]. rewrite (proj1 (proj2 (shared_entry _ _ _ _ _ _ _ _ _ _ va Hfk (Z.le_refl _) Hsh Hva))).
  unfold pa_at. by rewrite Epte.
Qed.

(** [C31] When [uvmcopy] fails it keeps the reference it took to the page it
    could not map: that page's count is one too high and no page table
    accounts for it. *)
Theorem uvmcopy_failure_leaks_reference s l T Tn sz s' :
  forkable (inv := kmem_ok) s l T Tn (PGROUNDUP sz) -> 0 <= sz <= MAXVA ->
  uvmcopy (pt_root T) (pt_root Tn) sz s = Ret (-1) s' ->
  exists a T', vpage 0 (PGROUNDUP sz) a /\ refs s' (pa_at s T a) = refs s (pa_at s T a) + 1 /\
    vm_ok s' T' /\ pt_root T' = pt_root Tn /\
    (forall va, 0 <= va < MAXVA -> pte_at (mem s') T' va = pte_at (mem s) Tn va) /\
    (forall va, pte_at (mem s') T va = pte_at (mem s) T va).
Proof.
  intros Hfk Hsz E. destruct (uvmcopy_ok s l T Tn _ sz Hfk Hsz eq_refl) as (r & s2 & l2 & T2 & E2 & Hc).
  rewrite E in E2. injection E2 as <- <-. destruct Hc as [[? _]|(_ & a & Ha & Hsh)]; [done|].
  exists a, T2. split_and!; [done|by apply Hsh|apply Hsh|apply Hsh| |apply Hsh].
  intros va Hva. rewrite (sh_pte _ _ _ _ _ _ _ _ _ _ Hsh) by done. by rewrite decide_False by lia.
Qed.

(** [C32] A write to a copy-on-write page gets a private copy: [cowalloc] maps
    the faulting address to a fresh page with the same content, writable,
    leaves the shared page's content alone and drops one of its references;
    a page that is not copy-on-write is not touched, and with no page left
    it fails and nothing changes. *)
Theorem cowalloc_makes_private s l T va :
  kmem_ok s l -> ready s LkKmem -> vm_ok s T -> 0 < va < MAXVA -> upage s T va ->
  bit (pte_at (mem s) T va) PTE_U = true ->
  if bit (pte_at (mem s) T va) PTE_C then
    match l with
    | p :: l' => exists s', cowalloc (pt_root T) va s = Ret 0 s' /\ private (inv := kmem_ok) p va s l T s' l'
    | [] => exists s', cowalloc (pt_root T) va s = Ret (-1) s' /\ mem s' = mem s /\ count s' = count s
    end
  else cowalloc (pt_root T) va s = Ret 0 s.
Proof.
  intros Hk Hr Hvm Hva Hup HU. destruct (bit (pte_at (mem s) T va) PTE_C) eqn:HC; [|by apply cowalloc_noop].
  destruct l as [|p l]; [|by apply cowalloc_copy].
  destruct (cowalloc_none s T va) as (s' & E & _ & _ & ? & ?); eauto.
Qed.

(** [C33] The page a process is the last to share is lost: when [cowalloc] copies
    a page with a single reference, the old page ends with no reference and
    not on the free list, so it is never allocated again. *)
Theorem cowalloc_loses_last_page s p l T va :
  kmem_ok s (p :: l) -> ready s LkKmem -> vm_ok s T -> 0 < va < MAXVA -> upage s T va ->
  bit (pte_at (mem s) T va) PTE_U = true -> bit (pte_at (mem s) T va) PTE_C = true ->
  refs s (pa_at s T va) = 1 ->
  exists s', cowalloc (pt_root T) va s = Ret 0 s' /\ kmem_ok s' l /\
    refs s' (pa_at s T va) = 0 /\ pa_at s T va ∉ l.
Proof.
  intros Hk Hr Hvm Hva Hup HU HC H1. destruct (cowalloc_copy s p l T va) as (s' & E & Hpv); try done.
  exists s'. split_and!; [done|apply Hpv|rewrite (pv_refs _ _ _ _ _ _ _ Hpv); lia|].
  intros Hin. destruct Hk as [_ _ _ Hu]. rewrite list.Forall_forall in Hu.
  rewrite (Hu (pa_at s T va)) in H1; [done|by right].
Qed.


(** [copyin] reads exactly the process's bytes and changes nothing; it
    fails exactly when some page of the range is not a present user page. *)
Theorem copyin_reads s T va n :
  vm_ok s T -> 0 <= va -> 0 < n -> va + n <= MAXVA ->
  (forall a, vpage (PGROUNDDOWN va) (va + n) a -> readable s T a = true -> kpage (pa_at s T a)) ->
  exists r bs, copyin (pt_root T) va n s = Ret (r, bs) s /\
    ((r = 0 /\ bs = ubytes s T va n /\ forall a, vpage (PGROUNDDOWN va) (va + n) a -> readable s T a = true) \/
     (r = -1 /\ exists a, vpage (PGROUNDDOWN va) (va + n) a /\ readable s T a = false)).
Proof. apply copyin_ok. Qed.

(** Bytes copied out to a process and copied in again from the same
    addresses come back unchanged, across page boundaries and whatever part
    of the range was shared copy-on-write. *)
Theorem copyout_copyin_roundtrip s l T lo hi dst bs :
  page_aligned lo /\ page_aligned hi /\ 0 <= lo /\ hi <= MAXVA ->
  kmem_ok s l -> ready s LkKmem -> vm_ok s T -> uspace s T lo hi -> PGSIZE <= lo -> lo <= dst ->
  dst + Z.of_nat (length bs) <= hi -> bs <> [] -> Forall (fun b => 0 <= b < 256) bs ->
  (forall a, vpage (PGROUNDDOWN dst) (dst + Z.of_nat (length bs)) a -> readable s T a = true) ->
  exists r s', copyout (pt_root T) dst bs s = Ret r s' /\
    (r = 0 -> copyin (pt_root T) dst (Z.of_nat (length bs)) s' = Ret (0, bs) s').
Proof.
  intros Hb Hk Hr Hvm Hus Hlo1 Hlo Hhi Hne Hby Hrd.
  destruct (copyout_ok T lo hi Hb s l dst bs) as (r & s' & l' & k & E & Hw & Hbytes & Hcase); try done.
  exists r, s'. split; [done|]. intros ->. destruct Hcase as [[_ ->]|[? _]]; [|done].
  destruct Hb as (Hb1 & Hb2 & Hb3 & Hb4). assert (Hpos : 0 < Z.of_nat (length bs)) by (destruct bs; [done|simpl; lia]).
  assert (Hin : forall a, vpage (PGROUNDDOWN dst) (dst + Z.of_nat (length bs)) a -> vpage lo hi a).
  { intros a [Ha Hab]. split; [done|]. pose proof (PGROUNDDOWN_bounds dst). pose proof (PGROUNDDOWN_aligned dst).
    unfold page_aligned, PGSIZE in *. dlia. }
  assert (Hrd' : forall a, vpage (PGROUNDDOWN dst) (dst + Z.of_nat (length bs)) a -> readable s' T a = true).
  { intros a Ha. destruct (wr_page _ _ _ _ _ _ _ _ Hw a (Hin a Ha)) as [Ep|(_ & _ & _ & ?)]; [|done].
    unfold readable. rewrite Ep. by apply Hrd. }
  destruct (copyin_ok s' T dst (Z.of_nat (length bs))) as (r & bs' & E' & Hc); try done; try lia.
  { apply Hw. } { intros a Ha _. by apply (us_page _ _ _ _ (wr_space _ _ _ _ _ _ _ _ Hw) a), Hin. }
  rewrite E'. destruct Hc as [(-> & -> & _)|(_ & a & Ha & Hf)]; [|by rewrite Hrd' in Hf].
  do 2 f_equal. apply list_eq. intros i. unfold ubytes. rewrite list_lookup_fmap.
  destruct (decide (i < length bs)%nat) as [Hi|Hi].
  - rewrite lookup_seqZ_lt by lia. simpl. rewrite Hbytes by lia.
    replace (Z.to_nat (dst + (0 + Z.of_nat i) - dst)) with i by lia.
    destruct (lookup_lt_is_Some_2 bs i Hi) as [v Hv]. rewrite Hv. simpl. f_equal.
    apply u8_small. by eapply Forall_lookup_1 in Hby.
  - rewrite lookup_seqZ_ge by lia. by rewrite lookup_ge_None_2 by lia.
Qed.

(** [C35] Nothing can be copied out to the first page of a process, mapped and
    writable or not: [cowalloc] rejects the address 0, and [copyout] calls it
    with the start of the page. *)
Theorem copyout_first_page_fails pagetable dst bs s :
  0 <= dst < PGSIZE -> bs <> [] -> copyout pagetable dst bs s = Ret (-1) s.
Proof.
  intros Hd Hne. enough (H : wp (copyout pagetable dst bs) (fun r s' => r = -1 /\ s' = s) s).
  { by apply wp_inv in H as (? & ? & -> & -> & ->). }
  unfold copyout. apply (wp_while _ (fun st s' => st = (dst, bs) /\ s' = s) (fun _ => 0)); [|done|lia].
  intros ? ? [-> ->]. destruct bs as [|b bs]; [done|].
  destruct (Z.ltb_spec 0 (Z.of_nat (length (b :: bs)))); [|simpl in *; lia].
  rewrite (PGROUNDDOWN_page dst 0) by done. done.
Qed.
End spec.

(** ** Witnesses *)

Module VmSpecSample.
Import VmSample.

Lemma forkable_parent : forkable (inv := kmem_ok) parent free_pages T Tc top.
Proof.
  split.
  - exact kmem_parent.
  - exact ready_parent.
  - exact vm_parent.
  - exact vm_child.
  - intros p Hp Hc. apply tree_pages_spec in Hp, Hc.
    assert (Hd : bool_decide (Forall (fun q => q ∉ tree_pages Tc) (tree_pages T)) = true) by (vm_compute; done).
    apply bool_decide_eq_true in Hd. rewrite list.Forall_forall in Hd. by apply (Hd p).
  - split; [done|]. rewrite MAXVA_pow. unfold top, PGSIZE. lia.
  - exact space_parent.
  - intros va Hva Hc. apply tree_pages_spec in Hc. revert Hc.
    destruct (vpage_top va Hva) as [->|[->|[->| ->]]]; apply (bool_decide_unpack _); vm_compute; done.
  - intros va Hva. destruct (vpage_top va Hva) as [->|[->|[->| ->]]]; vm_compute; done.
  - done.
Qed.

Lemma forkable_starved : forkable (inv := kmem_ok) starved [] T Tc top.
Proof.
  split.
  - exact kmem_starved.
  - exact ready_starved.
  - exact vm_starved.
  - exact vm_starved_child.
  - intros p Hp Hc. apply tree_pages_spec in Hp, Hc.
    assert (Hd : bool_decide (Forall (fun q => q ∉ tree_pages Tc) (tree_pages T)) = true) by (vm_compute; done).
    apply bool_decide_eq_true in Hd. rewrite list.Forall_forall in Hd. by apply (Hd p).
  - split; [done|]. rewrite MAXVA_pow. unfold top, PGSIZE. lia.
  - exact space_starved.
  - intros va Hva Hc. apply tree_pages_spec in Hc. revert Hc.
    destruct (vpage_top va Hva) as [->|[->|[->| ->]]]; apply (bool_decide_unpack _); vm_compute; done.
  - intros va Hva. destruct (vpage_top va Hva) as [->|[->|[->| ->]]]; vm_compute; done.
  - done.
Qed.

(** The result of a run, and the state it ends in. *)
Definition final {A} (m : M machine A) (s : machine) : machine :=
  match m s with Ret _ s' => s' | _ => s end.
Definition returns (m : M machine Z) (s : machine) (r : Z) : bool :=
  match m s with Ret r' _ => r' =? r | _ => false end.
Lemma returns_final m s r : returns m s r = true -> m s = Ret r (final m s).
Proof. unfold returns, final. destruct (m s); try done. by intros ->%Z.eqb_eq. Qed.

Lemma walk_finds_entry_witness :
  walk root 0x1008 false parent = Ret (tab0 + 8) parent /\
  exists r s' l' T', walk root 0x40000000 true parent = Ret r s' /\ grows (inv := kmem_ok) parent free_pages T s' l' T' /\
    same_ptes parent T s' T' /\ ((r = 0 /\ l' = []) \/ (r <> 0 /\ pt_slot T' 0x40000000 = Some r)).
Proof.
  split.
  - apply (walk_finds_entry parent free_pages T 0x1008);
      [exact kmem_parent|exact ready_parent|exact vm_parent|vm_compute; done].
  - apply (walk_finds_entry parent free_pages T 0x40000000);
      [exact kmem_parent|exact ready_parent|exact vm_parent|vm_compute; done].
Defined.

Lemma mappages_maps_witness :
  exists r s' l' T' hi,
    mappages root 0x10000 0x2000 0x10000000 (Z.lor PTE_R PTE_W) parent = Ret r s' /\
    grows (inv := kmem_ok) parent free_pages T s' l' T' /\
    remapped (PGROUNDDOWN 0x10000) hi (fun p => u64 (mk_pte (0x10000000 + (p - PGROUNDDOWN 0x10000)) (Z.lor PTE_R PTE_W)))
      parent T s' T' /\
    ((r = 0 /\ hi = PGROUNDDOWN (0x10000 + 0x2000 - 1) + PGSIZE) \/
     (r = -1 /\ l' = [] /\ page_aligned hi /\ PGROUNDDOWN 0x10000 <= hi <= PGROUNDDOWN (0x10000 + 0x2000 - 1))).
Proof.
  apply (mappages_maps parent free_pages T 0x10000 0x2000 0x10000000 (Z.lor PTE_R PTE_W));
    [exact kmem_parent|exact ready_parent|exact vm_parent|vm_compute; done..|].
  intros va Hva. change (PGROUNDDOWN 0x10000) with 0x10000 in Hva.
  destruct (decide (va < 0x11000)).
  - rewrite (pte_at_page _ _ va 0x10000); [vm_compute; done|..]; rewrite ?MAXVA_pow; try lia.
    unfold same_page, PGSIZE. dlia.
  - rewrite (pte_at_page _ _ va 0x11000); [vm_compute; done|..]; rewrite ?MAXVA_pow; try lia.
    unfold same_page, PGSIZE. dlia.
Defined.

Lemma uvmunmap_frees_witness :
  exists s' l', uvmunmap root 0 4 true parent = Ret tt s' /\
    unmapped (inv := kmem_ok) 0 (0 + 4 * PGSIZE) parent free_pages T s' l'.
Proof.
  apply (uvmunmap_frees parent free_pages T 0 4);
    [exact kmem_parent|exact ready_parent|exact vm_parent|vm_compute; done..|exact space_parent].
Defined.

(** Above the sample's pages nothing is mapped. *)
Lemma parent_unmapped va : top <= va < MAXVA -> pte_at (mem parent) T va = 0.
Proof.
  intros Hva. unfold top, PGSIZE in Hva. unfold pte_at.
  destruct (pt_l0 T !! (PX 2 va, PX 1 va)) as [q|] eqn:E; [|done].
  unfold T in E. cbn [pt_l0] in E. apply lookup_singleton_Some in E as [[= E2 E1] <-].
  pose proof (PX_split va ltac:(lia)) as Hs. rewrite <- E2, <- E1 in Hs. unfold PGSIZE in Hs.
  pose proof (PX_range 0 va ltac:(lia)).
  assert (Hc : forallb (fun k => ent (mem parent) tab0 k =? 0) (seqZ 4 508) = true) by (vm_compute; done).
  rewrite forallb_forall in Hc. apply Z.eqb_eq, Hc, list_elem_of_In, elem_of_seqZ. dlia.
Qed.


Lemma uvmfree_frees_everything_witness :
  exists s' l', uvmfree root top parent = Ret tt s' /\ torn_down (inv := kmem_ok) T top parent free_pages s' l'.
Proof.
  apply (uvmfree_frees_everything parent free_pages T top);
    [exact kmem_parent|exact ready_parent|exact vm_parent| |vm_compute; done..|exact space_parent|exact parent_unmapped].
  intros i q Hi. unfold T in Hi. cbn [pt_l1] in Hi. apply lookup_singleton_Some in Hi as [<- _]. lia.
Defined.

Lemma uvmcopy_shares_witness :
  exists r s' l' T', uvmcopy root croot top parent = Ret r s' /\
    ((r = 0 /\ shared (inv := kmem_ok) parent free_pages T Tc top top (fun va => va < top) s' l' T') \/
     (r = -1 /\ exists a, vpage 0 top a /\ shared (inv := kmem_ok) parent free_pages T Tc top 0 (fun va => va = a) s' l' T')).
Proof.
  apply (uvmcopy_shares parent free_pages T Tc top); [exact forkable_parent|vm_compute; done].
Defined.

Lemma uvmcopy_parent_keeps_write_witness :
  let s' := final (uvmcopy root croot top) parent in
  bit (pte_at (mem s') T 0x1000) PTE_W = true /\
  exists T', vm_ok s' T' /\ pt_root T' = croot /\ pa_at s' T' 0x1000 = pa_at s' T 0x1000.
Proof.
  apply (uvmcopy_parent_keeps_write parent free_pages T Tc top (final (uvmcopy root croot top) parent) 0x1000);
    [exact forkable_parent|vm_compute; done|apply returns_final; vm_compute; reflexivity|vm_compute; done|vm_compute; done].
Defined.

Lemma uvmcopy_failure_leaks_reference_witness :
  let s' := final (uvmcopy root croot top) starved in
  exists a T', vpage 0 top a /\ refs s' (pa_at starved T a) = refs starved (pa_at starved T a) + 1 /\
    vm_ok s' T' /\ pt_root T' = croot /\
    (forall va, 0 <= va < MAXVA -> pte_at (mem s') T' va = pte_at (mem starved) Tc va) /\
    (forall va, pte_at (mem s') T va = pte_at (mem starved) T va).
Proof.
  apply (uvmcopy_failure_leaks_reference starved [] T Tc top (final (uvmcopy root croot top) starved));
    [exact forkable_starved|vm_compute; done|apply returns_final; vm_compute; reflexivity].
Defined.

Lemma cowalloc_makes_private_witness :
  exists s', cowalloc root 0x2000 parent = Ret 0 s' /\
    private (inv := kmem_ok) (pg 8) 0x2000 parent free_pages T s' [pg 9; pg 10; pg 11].
Proof.
  apply (cowalloc_makes_private parent free_pages T 0x2000);
    [exact kmem_parent|exact ready_parent|exact vm_parent|vm_compute; done| |vm_compute; done].
  apply (us_page _ _ _ _ space_parent). vm_compute. done.
Defined.

Lemma cowalloc_loses_last_page_witness :
  exists s', cowalloc root 0x3000 parent = Ret 0 s' /\ kmem_ok s' [pg 9; pg 10; pg 11] /\
    refs s' (pa_at parent T 0x3000) = 0 /\ pa_at parent T 0x3000 ∉ [pg 9; pg 10; pg 11].
Proof.
  apply (cowalloc_loses_last_page parent (pg 8) [pg 9; pg 10; pg 11] T 0x3000);
    [exact kmem_parent|exact ready_parent|exact vm_parent|vm_compute; done| |vm_compute; done..].
  apply (us_page _ _ _ _ space_parent). vm_compute. done.
Defined.

(** The pages above the first. *)
Lemma upper_pages : uspace parent T 0x1000 top.
Proof.
  destruct space_parent as [Hp Hi]. split.
  - intros va [? ?]. apply Hp. split; [done|lia].
  - intros va va' [? ?] [? ?]. apply Hi; (split; [done|lia]).
Qed.
Lemma upper_readable a : vpage 0 top a -> readable parent T a = true.
Proof. intros [->|[->|[->| ->]]]%vpage_top; vm_compute; done. Qed.


Lemma copyin_reads_witness :
  exists r bs, copyin root 0x2ffe 4 parent = Ret (r, bs) parent /\
    ((r = 0 /\ bs = ubytes parent T 0x2ffe 4 /\
      forall a, vpage (PGROUNDDOWN 0x2ffe) (0x2ffe + 4) a -> readable parent T a = true) \/
     (r = -1 /\ exists a, vpage (PGROUNDDOWN 0x2ffe) (0x2ffe + 4) a /\ readable parent T a = false)).
Proof.
  apply (copyin_reads parent T 0x2ffe 4); [exact vm_parent|vm_compute; done..|].
  intros a Ha _. apply (us_page _ _ _ _ space_parent). destruct Ha as [? Ha]. split; [done|].
  change (PGROUNDDOWN 0x2ffe) with 0x2000 in Ha. unfold top, PGSIZE. lia.
Defined.

Lemma copyout_copyin_roundtrip_witness :
  exists r s', copyout root 0x1ffe [1; 2; 3; 4] parent = Ret r s' /\
    (r = 0 -> copyin root 0x1ffe 4 s' = Ret (0, [1; 2; 3; 4]) s').
Proof.
  apply (copyout_copyin_roundtrip parent free_pages T 0x1000 top 0x1ffe [1; 2; 3; 4]);
    [vm_compute; done|exact kmem_parent|exact ready_parent|exact vm_parent|exact upper_pages|vm_compute; done..
    |repeat constructor; lia|].
  intros a Ha. apply upper_readable. destruct Ha as [? Ha]. split; [done|].
  change (PGROUNDDOWN 0x1ffe) with 0x1000 in Ha. cbn in Ha. unfold top, PGSIZE. lia.
Defined.

Lemma copyout_first_page_fails_witness : copyout root 0x10 [1; 2] parent = Ret (-1) parent.
Proof. apply (copyout_first_page_fails root 0x10 [1; 2] parent); [vm_compute; done|done]. Defined.
End VmSpecSample.
