(* ===== verification/Kernel.v ===== *)
(** * The kernel's state

    The globals of the kernel above the page allocator: the process table
    ([kernel/proc.h], [kernel/proc.c]), the buffer cache ([kernel/bio.c]),
    the log ([kernel/log.c]), the inode and file tables ([kernel/fs.c],
    [kernel/file.c]), pipes, the console and the UART, and the registers of
    the hart and of the devices that the code reads and writes. Each C
    structure is a record with its fields; for every field [x] there is an
    update function [upd_x]. A pointer into one of the tables is an index,
    with [option] where the code tests it against 0. *)

From S2P Require Import Prelude Riscv Memory Machine Spinlock.

(** ** Processes *)

Inductive procstate := UNUSED | USED | SLEEPING | RUNNABLE | RUNNING | ZOMBIE.
#[export] Instance procstate_eq_dec : EqDecision procstate.
Proof. solve_decision. Defined.

(** What a process sleeps on: the address passed to [sleep]. *)
Inductive channel :=
| ChNone                  (* 0 *)
| ChProc (i : nat)        (* a struct proc, in wait() *)
| ChTicks                 (* &ticks *)
| ChBuf (i : nat)         (* a struct buf, in virtio_disk_rw() *)
| ChBufLock (i : nat)     (* &b->lock *)
| ChInodeLock (i : nat)   (* &ip->lock *)
| ChLog                   (* &log *)
| ChPipeR (pi : Z)        (* &pi->nread *)
| ChPipeW (pi : Z)        (* &pi->nwrite *)
| ChConsR                 (* &cons.r *)
| ChUartTx                (* &uart_tx_r *)
| ChVdisk.                (* &disk.free[0] *)
#[export] Instance channel_eq_dec : EqDecision channel.
Proof. solve_decision. Defined.

(** [struct context]: where [swtch] resumes the process. *)
Inductive context := CtxZero | CtxForkret (sp : Z) | CtxSaved.

Record proc := mk_proc {
  p_mask : Z;   (* mask for trace syscall *)
  p_state : procstate;
  p_chan : channel;
  p_killed : Z;
  p_xstate : Z;
  p_pid : Z;
  p_parent : option nat;
  p_kstack : Z;
  p_sz : Z;
  p_pagetable : Z;
  p_trapframe : Z;
  p_context : context;
  p_ofile : list (option nat);   (* ofile[NOFILE] *)
  p_cwd : option nat;
  p_name : list Z;   (* name[16] *)
  p_alarm_handler : Z;
  p_handler : Z;
  p_checkifAlarmOn : Z;
  p_sigticks : Z;
  p_maxticks : Z;
  p_tickets : Z;
  p_time_spent : Z;
  p_time_avail : Z;
  p_ctime : Z;
  p_creationTime : Z;
  p_runTime : Z;
  p_endTime : Z;
  p_totalSleep : Z;
  p_sleepTimePrev : Z;
  p_sleepStartTime : Z;
  p_runTimePrev : Z;
  p_countTimeCalled : Z;
  p_sprior : Z;
  p_dprior : Z;
  p_niceness : Z;
  p_priority_level : Z;
  p_ass_ticks : Z;
  p_wait_time : Z;
  p_ticks_elapsed : Z;
  p_queue_ticks : list Z   (* queue_ticks[5] *)
}.
Definition upd_p_mask (f : Z -> Z) (r : proc) : proc :=
  mk_proc (f (p_mask r)) (p_state r) (p_chan r) (p_killed r) (p_xstate r) (p_pid r) (p_parent r)
  (p_kstack r) (p_sz r) (p_pagetable r) (p_trapframe r) (p_context r) (p_ofile r) (p_cwd r)
  (p_name r) (p_alarm_handler r) (p_handler r) (p_checkifAlarmOn r) (p_sigticks r) (p_maxticks r)
  (p_tickets r) (p_time_spent r) (p_time_avail r) (p_ctime r) (p_creationTime r) (p_runTime r)
  (p_endTime r) (p_totalSleep r) (p_sleepTimePrev r) (p_sleepStartTime r) (p_runTimePrev r)
  (p_countTimeCalled r) (p_sprior r) (p_dprior r) (p_niceness r) (p_priority_level r) (p_ass_ticks
  r) (p_wait_time r) (p_ticks_elapsed r) (p_queue_ticks r).
Definition upd_p_state (f : procstate -> procstate) (r : proc) : proc :=
  mk_proc (p_mask r) (f (p_state r)) (p_chan r) (p_killed r) (p_xstate r) (p_pid r) (p_parent r)
  (p_kstack r) (p_sz r) (p_pagetable r) (p_trapframe r) (p_context r) (p_ofile r) (p_cwd r)
  (p_name r) (p_alarm_handler r) (p_handler r) (p_checkifAlarmOn r) (p_sigticks r) (p_maxticks r)
  (p_tickets r) (p_time_spent r) (p_time_avail r) (p_ctime r) (p_creationTime r) (p_runTime r)
  (p_endTime r) (p_totalSleep r) (p_sleepTimePrev r) (p_sleepStartTime r) (p_runTimePrev r)
  (p_countTimeCalled r) (p_sprior r) (p_dprior r) (p_niceness r) (p_priority_level r) (p_ass_ticks
  r) (p_wait_time r) (p_ticks_elapsed r) (p_queue_ticks r).
Definition upd_p_chan (f : channel -> channel) (r : proc) : proc :=
  mk_proc (p_mask r) (p_state r) (f (p_chan r)) (p_killed r) (p_xstate r) (p_pid r) (p_parent r)
  (p_kstack r) (p_sz r) (p_pagetable r) (p_trapframe r) (p_context r) (p_ofile r) (p_cwd r)
  (p_name r) (p_alarm_handler r) (p_handler r) (p_checkifAlarmOn r) (p_sigticks r) (p_maxticks r)
  (p_tickets r) (p_time_spent r) (p_time_avail r) (p_ctime r) (p_creationTime r) (p_runTime r)
  (p_endTime r) (p_totalSleep r) (p_sleepTimePrev r) (p_sleepStartTime r) (p_runTimePrev r)
  (p_countTimeCalled r) (p_sprior r) (p_dprior r) (p_niceness r) (p_priority_level r) (p_ass_ticks
  r) (p_wait_time r) (p_ticks_elapsed r) (p_queue_ticks r).
Definition upd_p_killed (f : Z -> Z) (r : proc) : proc :=
  mk_proc (p_mask r) (p_state r) (p_chan r) (f (p_killed r)) (p_xstate r) (p_pid r) (p_parent r)
  (p_kstack r) (p_sz r) (p_pagetable r) (p_trapframe r) (p_context r) (p_ofile r) (p_cwd r)
  (p_name r) (p_alarm_handler r) (p_handler r) (p_checkifAlarmOn r) (p_sigticks r) (p_maxticks r)
  (p_tickets r) (p_time_spent r) (p_time_avail r) (p_ctime r) (p_creationTime r) (p_runTime r)
  (p_endTime r) (p_totalSleep r) (p_sleepTimePrev r) (p_sleepStartTime r) (p_runTimePrev r)
  (p_countTimeCalled r) (p_sprior r) (p_dprior r) (p_niceness r) (p_priority_level r) (p_ass_ticks
  r) (p_wait_time r) (p_ticks_elapsed r) (p_queue_ticks r).
Definition upd_p_xstate (f : Z -> Z) (r : proc) : proc :=
  mk_proc (p_mask r) (p_state r) (p_chan r) (p_killed r) (f (p_xstate r)) (p_pid r) (p_parent r)
  (p_kstack r) (p_sz r) (p_pagetable r) (p_trapframe r) (p_context r) (p_ofile r) (p_cwd r)
  (p_name r) (p_alarm_handler r) (p_handler r) (p_checkifAlarmOn r) (p_sigticks r) (p_maxticks r)
  (p_tickets r) (p_time_spent r) (p_time_avail r) (p_ctime r) (p_creationTime r) (p_runTime r)
  (p_endTime r) (p_totalSleep r) (p_sleepTimePrev r) (p_sleepStartTime r) (p_runTimePrev r)
  (p_countTimeCalled r) (p_sprior r) (p_dprior r) (p_niceness r) (p_priority_level r) (p_ass_ticks
  r) (p_wait_time r) (p_ticks_elapsed r) (p_queue_ticks r).
Definition upd_p_pid (f : Z -> Z) (r : proc) : proc :=
  mk_proc (p_mask r) (p_state r) (p_chan r) (p_killed r) (p_xstate r) (f (p_pid r)) (p_parent r)
  (p_kstack r) (p_sz r) (p_pagetable r) (p_trapframe r) (p_context r) (p_ofile r) (p_cwd r)
  (p_name r) (p_alarm_handler r) (p_handler r) (p_checkifAlarmOn r) (p_sigticks r) (p_maxticks r)
  (p_tickets r) (p_time_spent r) (p_time_avail r) (p_ctime r) (p_creationTime r) (p_runTime r)
  (p_endTime r) (p_totalSleep r) (p_sleepTimePrev r) (p_sleepStartTime r) (p_runTimePrev r)
  (p_countTimeCalled r) (p_sprior r) (p_dprior r) (p_niceness r) (p_priority_level r) (p_ass_ticks
  r) (p_wait_time r) (p_ticks_elapsed r) (p_queue_ticks r).
Definition upd_p_parent (f : option nat -> option nat) (r : proc) : proc :=
  mk_proc (p_mask r) (p_state r) (p_chan r) (p_killed r) (p_xstate r) (p_pid r) (f (p_parent r))
  (p_kstack r) (p_sz r) (p_pagetable r) (p_trapframe r) (p_context r) (p_ofile r) (p_cwd r)
  (p_name r) (p_alarm_handler r) (p_handler r) (p_checkifAlarmOn r) (p_sigticks r) (p_maxticks r)
  (p_tickets r) (p_time_spent r) (p_time_avail r) (p_ctime r) (p_creationTime r) (p_runTime r)
  (p_endTime r) (p_totalSleep r) (p_sleepTimePrev r) (p_sleepStartTime r) (p_runTimePrev r)
  (p_countTimeCalled r) (p_sprior r) (p_dprior r) (p_niceness r) (p_priority_level r) (p_ass_ticks
  r) (p_wait_time r) (p_ticks_elapsed r) (p_queue_ticks r).
Definition upd_p_kstack (f : Z -> Z) (r : proc) : proc :=
  mk_proc (p_mask r) (p_state r) (p_chan r) (p_killed r) (p_xstate r) (p_pid r) (p_parent r) (f
  (p_kstack r)) (p_sz r) (p_pagetable r) (p_trapframe r) (p_context r) (p_ofile r) (p_cwd r)
  (p_name r) (p_alarm_handler r) (p_handler r) (p_checkifAlarmOn r) (p_sigticks r) (p_maxticks r)
  (p_tickets r) (p_time_spent r) (p_time_avail r) (p_ctime r) (p_creationTime r) (p_runTime r)
  (p_endTime r) (p_totalSleep r) (p_sleepTimePrev r) (p_sleepStartTime r) (p_runTimePrev r)
  (p_countTimeCalled r) (p_sprior r) (p_dprior r) (p_niceness r) (p_priority_level r) (p_ass_ticks
  r) (p_wait_time r) (p_ticks_elapsed r) (p_queue_ticks r).
Definition upd_p_sz (f : Z -> Z) (r : proc) : proc :=
  mk_proc (p_mask r) (p_state r) (p_chan r) (p_killed r) (p_xstate r) (p_pid r) (p_parent r)
  (p_kstack r) (f (p_sz r)) (p_pagetable r) (p_trapframe r) (p_context r) (p_ofile r) (p_cwd r)
  (p_name r) (p_alarm_handler r) (p_handler r) (p_checkifAlarmOn r) (p_sigticks r) (p_maxticks r)
  (p_tickets r) (p_time_spent r) (p_time_avail r) (p_ctime r) (p_creationTime r) (p_runTime r)
  (p_endTime r) (p_totalSleep r) (p_sleepTimePrev r) (p_sleepStartTime r) (p_runTimePrev r)
  (p_countTimeCalled r) (p_sprior r) (p_dprior r) (p_niceness r) (p_priority_level r) (p_ass_ticks
  r) (p_wait_time r) (p_ticks_elapsed r) (p_queue_ticks r).
Definition upd_p_pagetable (f : Z -> Z) (r : proc) : proc :=
  mk_proc (p_mask r) (p_state r) (p_chan r) (p_killed r) (p_xstate r) (p_pid r) (p_parent r)
  (p_kstack r) (p_sz r) (f (p_pagetable r)) (p_trapframe r) (p_context r) (p_ofile r) (p_cwd r)
  (p_name r) (p_alarm_handler r) (p_handler r) (p_checkifAlarmOn r) (p_sigticks r) (p_maxticks r)
  (p_tickets r) (p_time_spent r) (p_time_avail r) (p_ctime r) (p_creationTime r) (p_runTime r)
  (p_endTime r) (p_totalSleep r) (p_sleepTimePrev r) (p_sleepStartTime r) (p_runTimePrev r)
  (p_countTimeCalled r) (p_sprior r) (p_dprior r) (p_niceness r) (p_priority_level r) (p_ass_ticks
  r) (p_wait_time r) (p_ticks_elapsed r) (p_queue_ticks r).
Definition upd_p_trapframe (f : Z -> Z) (r : proc) : proc :=
  mk_proc (p_mask r) (p_state r) (p_chan r) (p_killed r) (p_xstate r) (p_pid r) (p_parent r)
  (p_kstack r) (p_sz r) (p_pagetable r) (f (p_trapframe r)) (p_context r) (p_ofile r) (p_cwd r)
  (p_name r) (p_alarm_handler r) (p_handler r) (p_checkifAlarmOn r) (p_sigticks r) (p_maxticks r)
  (p_tickets r) (p_time_spent r) (p_time_avail r) (p_ctime r) (p_creationTime r) (p_runTime r)
  (p_endTime r) (p_totalSleep r) (p_sleepTimePrev r) (p_sleepStartTime r) (p_runTimePrev r)
  (p_countTimeCalled r) (p_sprior r) (p_dprior r) (p_niceness r) (p_priority_level r) (p_ass_ticks
  r) (p_wait_time r) (p_ticks_elapsed r) (p_queue_ticks r).
Definition upd_p_context (f : context -> context) (r : proc) : proc :=
  mk_proc (p_mask r) (p_state r) (p_chan r) (p_killed r) (p_xstate r) (p_pid r) (p_parent r)
  (p_kstack r) (p_sz r) (p_pagetable r) (p_trapframe r) (f (p_context r)) (p_ofile r) (p_cwd r)
  (p_name r) (p_alarm_handler r) (p_handler r) (p_checkifAlarmOn r) (p_sigticks r) (p_maxticks r)
  (p_tickets r) (p_time_spent r) (p_time_avail r) (p_ctime r) (p_creationTime r) (p_runTime r)
  (p_endTime r) (p_totalSleep r) (p_sleepTimePrev r) (p_sleepStartTime r) (p_runTimePrev r)
  (p_countTimeCalled r) (p_sprior r) (p_dprior r) (p_niceness r) (p_priority_level r) (p_ass_ticks
  r) (p_wait_time r) (p_ticks_elapsed r) (p_queue_ticks r).
Definition upd_p_ofile (f : list (option nat) -> list (option nat)) (r : proc) : proc :=
  mk_proc (p_mask r) (p_state r) (p_chan r) (p_killed r) (p_xstate r) (p_pid r) (p_parent r)
  (p_kstack r) (p_sz r) (p_pagetable r) (p_trapframe r) (p_context r) (f (p_ofile r)) (p_cwd r)
  (p_name r) (p_alarm_handler r) (p_handler r) (p_checkifAlarmOn r) (p_sigticks r) (p_maxticks r)
  (p_tickets r) (p_time_spent r) (p_time_avail r) (p_ctime r) (p_creationTime r) (p_runTime r)
  (p_endTime r) (p_totalSleep r) (p_sleepTimePrev r) (p_sleepStartTime r) (p_runTimePrev r)
  (p_countTimeCalled r) (p_sprior r) (p_dprior r) (p_niceness r) (p_priority_level r) (p_ass_ticks
  r) (p_wait_time r) (p_ticks_elapsed r) (p_queue_ticks r).
Definition upd_p_cwd (f : option nat -> option nat) (r : proc) : proc :=
  mk_proc (p_mask r) (p_state r) (p_chan r) (p_killed r) (p_xstate r) (p_pid r) (p_parent r)
  (p_kstack r) (p_sz r) (p_pagetable r) (p_trapframe r) (p_context r) (p_ofile r) (f (p_cwd r))
  (p_name r) (p_alarm_handler r) (p_handler r) (p_checkifAlarmOn r) (p_sigticks r) (p_maxticks r)
  (p_tickets r) (p_time_spent r) (p_time_avail r) (p_ctime r) (p_creationTime r) (p_runTime r)
  (p_endTime r) (p_totalSleep r) (p_sleepTimePrev r) (p_sleepStartTime r) (p_runTimePrev r)
  (p_countTimeCalled r) (p_sprior r) (p_dprior r) (p_niceness r) (p_priority_level r) (p_ass_ticks
  r) (p_wait_time r) (p_ticks_elapsed r) (p_queue_ticks r).
Definition upd_p_name (f : list Z -> list Z) (r : proc) : proc :=
  mk_proc (p_mask r) (p_state r) (p_chan r) (p_killed r) (p_xstate r) (p_pid r) (p_parent r)
  (p_kstack r) (p_sz r) (p_pagetable r) (p_trapframe r) (p_context r) (p_ofile r) (p_cwd r) (f
  (p_name r)) (p_alarm_handler r) (p_handler r) (p_checkifAlarmOn r) (p_sigticks r) (p_maxticks r)
  (p_tickets r) (p_time_spent r) (p_time_avail r) (p_ctime r) (p_creationTime r) (p_runTime r)
  (p_endTime r) (p_totalSleep r) (p_sleepTimePrev r) (p_sleepStartTime r) (p_runTimePrev r)
  (p_countTimeCalled r) (p_sprior r) (p_dprior r) (p_niceness r) (p_priority_level r) (p_ass_ticks
  r) (p_wait_time r) (p_ticks_elapsed r) (p_queue_ticks r).
Definition upd_p_alarm_handler (f : Z -> Z) (r : proc) : proc :=
  mk_proc (p_mask r) (p_state r) (p_chan r) (p_killed r) (p_xstate r) (p_pid r) (p_parent r)
  (p_kstack r) (p_sz r) (p_pagetable r) (p_trapframe r) (p_context r) (p_ofile r) (p_cwd r)
  (p_name r) (f (p_alarm_handler r)) (p_handler r) (p_checkifAlarmOn r) (p_sigticks r) (p_maxticks
  r) (p_tickets r) (p_time_spent r) (p_time_avail r) (p_ctime r) (p_creationTime r) (p_runTime r)
  (p_endTime r) (p_totalSleep r) (p_sleepTimePrev r) (p_sleepStartTime r) (p_runTimePrev r)
  (p_countTimeCalled r) (p_sprior r) (p_dprior r) (p_niceness r) (p_priority_level r) (p_ass_ticks
  r) (p_wait_time r) (p_ticks_elapsed r) (p_queue_ticks r).
Definition upd_p_handler (f : Z -> Z) (r : proc) : proc :=
  mk_proc (p_mask r) (p_state r) (p_chan r) (p_killed r) (p_xstate r) (p_pid r) (p_parent r)
  (p_kstack r) (p_sz r) (p_pagetable r) (p_trapframe r) (p_context r) (p_ofile r) (p_cwd r)
  (p_name r) (p_alarm_handler r) (f (p_handler r)) (p_checkifAlarmOn r) (p_sigticks r) (p_maxticks
  r) (p_tickets r) (p_time_spent r) (p_time_avail r) (p_ctime r) (p_creationTime r) (p_runTime r)
  (p_endTime r) (p_totalSleep r) (p_sleepTimePrev r) (p_sleepStartTime r) (p_runTimePrev r)
  (p_countTimeCalled r) (p_sprior r) (p_dprior r) (p_niceness r) (p_priority_level r) (p_ass_ticks
  r) (p_wait_time r) (p_ticks_elapsed r) (p_queue_ticks r).
Definition upd_p_checkifAlarmOn (f : Z -> Z) (r : proc) : proc :=
  mk_proc (p_mask r) (p_state r) (p_chan r) (p_killed r) (p_xstate r) (p_pid r) (p_parent r)
  (p_kstack r) (p_sz r) (p_pagetable r) (p_trapframe r) (p_context r) (p_ofile r) (p_cwd r)
  (p_name r) (p_alarm_handler r) (p_handler r) (f (p_checkifAlarmOn r)) (p_sigticks r) (p_maxticks
  r) (p_tickets r) (p_time_spent r) (p_time_avail r) (p_ctime r) (p_creationTime r) (p_runTime r)
  (p_endTime r) (p_totalSleep r) (p_sleepTimePrev r) (p_sleepStartTime r) (p_runTimePrev r)
  (p_countTimeCalled r) (p_sprior r) (p_dprior r) (p_niceness r) (p_priority_level r) (p_ass_ticks
  r) (p_wait_time r) (p_ticks_elapsed r) (p_queue_ticks r).
Definition upd_p_sigticks (f : Z -> Z) (r : proc) : proc :=
  mk_proc (p_mask r) (p_state r) (p_chan r) (p_killed r) (p_xstate r) (p_pid r) (p_parent r)
  (p_kstack r) (p_sz r) (p_pagetable r) (p_trapframe r) (p_context r) (p_ofile r) (p_cwd r)
  (p_name r) (p_alarm_handler r) (p_handler r) (p_checkifAlarmOn r) (f (p_sigticks r)) (p_maxticks
  r) (p_tickets r) (p_time_spent r) (p_time_avail r) (p_ctime r) (p_creationTime r) (p_runTime r)
  (p_endTime r) (p_totalSleep r) (p_sleepTimePrev r) (p_sleepStartTime r) (p_runTimePrev r)
  (p_countTimeCalled r) (p_sprior r) (p_dprior r) (p_niceness r) (p_priority_level r) (p_ass_ticks
  r) (p_wait_time r) (p_ticks_elapsed r) (p_queue_ticks r).
Definition upd_p_maxticks (f : Z -> Z) (r : proc) : proc :=
  mk_proc (p_mask r) (p_state r) (p_chan r) (p_killed r) (p_xstate r) (p_pid r) (p_parent r)
  (p_kstack r) (p_sz r) (p_pagetable r) (p_trapframe r) (p_context r) (p_ofile r) (p_cwd r)
  (p_name r) (p_alarm_handler r) (p_handler r) (p_checkifAlarmOn r) (p_sigticks r) (f (p_maxticks
  r)) (p_tickets r) (p_time_spent r) (p_time_avail r) (p_ctime r) (p_creationTime r) (p_runTime r)
  (p_endTime r) (p_totalSleep r) (p_sleepTimePrev r) (p_sleepStartTime r) (p_runTimePrev r)
  (p_countTimeCalled r) (p_sprior r) (p_dprior r) (p_niceness r) (p_priority_level r) (p_ass_ticks
  r) (p_wait_time r) (p_ticks_elapsed r) (p_queue_ticks r).
Definition upd_p_tickets (f : Z -> Z) (r : proc) : proc :=
  mk_proc (p_mask r) (p_state r) (p_chan r) (p_killed r) (p_xstate r) (p_pid r) (p_parent r)
  (p_kstack r) (p_sz r) (p_pagetable r) (p_trapframe r) (p_context r) (p_ofile r) (p_cwd r)
  (p_name r) (p_alarm_handler r) (p_handler r) (p_checkifAlarmOn r) (p_sigticks r) (p_maxticks r)
  (f (p_tickets r)) (p_time_spent r) (p_time_avail r) (p_ctime r) (p_creationTime r) (p_runTime r)
  (p_endTime r) (p_totalSleep r) (p_sleepTimePrev r) (p_sleepStartTime r) (p_runTimePrev r)
  (p_countTimeCalled r) (p_sprior r) (p_dprior r) (p_niceness r) (p_priority_level r) (p_ass_ticks
  r) (p_wait_time r) (p_ticks_elapsed r) (p_queue_ticks r).
Definition upd_p_time_spent (f : Z -> Z) (r : proc) : proc :=
  mk_proc (p_mask r) (p_state r) (p_chan r) (p_killed r) (p_xstate r) (p_pid r) (p_parent r)
  (p_kstack r) (p_sz r) (p_pagetable r) (p_trapframe r) (p_context r) (p_ofile r) (p_cwd r)
  (p_name r) (p_alarm_handler r) (p_handler r) (p_checkifAlarmOn r) (p_sigticks r) (p_maxticks r)
  (p_tickets r) (f (p_time_spent r)) (p_time_avail r) (p_ctime r) (p_creationTime r) (p_runTime r)
  (p_endTime r) (p_totalSleep r) (p_sleepTimePrev r) (p_sleepStartTime r) (p_runTimePrev r)
  (p_countTimeCalled r) (p_sprior r) (p_dprior r) (p_niceness r) (p_priority_level r) (p_ass_ticks
  r) (p_wait_time r) (p_ticks_elapsed r) (p_queue_ticks r).
Definition upd_p_time_avail (f : Z -> Z) (r : proc) : proc :=
  mk_proc (p_mask r) (p_state r) (p_chan r) (p_killed r) (p_xstate r) (p_pid r) (p_parent r)
  (p_kstack r) (p_sz r) (p_pagetable r) (p_trapframe r) (p_context r) (p_ofile r) (p_cwd r)
  (p_name r) (p_alarm_handler r) (p_handler r) (p_checkifAlarmOn r) (p_sigticks r) (p_maxticks r)
  (p_tickets r) (p_time_spent r) (f (p_time_avail r)) (p_ctime r) (p_creationTime r) (p_runTime r)
  (p_endTime r) (p_totalSleep r) (p_sleepTimePrev r) (p_sleepStartTime r) (p_runTimePrev r)
  (p_countTimeCalled r) (p_sprior r) (p_dprior r) (p_niceness r) (p_priority_level r) (p_ass_ticks
  r) (p_wait_time r) (p_ticks_elapsed r) (p_queue_ticks r).
Definition upd_p_ctime (f : Z -> Z) (r : proc) : proc :=
  mk_proc (p_mask r) (p_state r) (p_chan r) (p_killed r) (p_xstate r) (p_pid r) (p_parent r)
  (p_kstack r) (p_sz r) (p_pagetable r) (p_trapframe r) (p_context r) (p_ofile r) (p_cwd r)
  (p_name r) (p_alarm_handler r) (p_handler r) (p_checkifAlarmOn r) (p_sigticks r) (p_maxticks r)
  (p_tickets r) (p_time_spent r) (p_time_avail r) (f (p_ctime r)) (p_creationTime r) (p_runTime r)
  (p_endTime r) (p_totalSleep r) (p_sleepTimePrev r) (p_sleepStartTime r) (p_runTimePrev r)
  (p_countTimeCalled r) (p_sprior r) (p_dprior r) (p_niceness r) (p_priority_level r) (p_ass_ticks
  r) (p_wait_time r) (p_ticks_elapsed r) (p_queue_ticks r).
Definition upd_p_creationTime (f : Z -> Z) (r : proc) : proc :=
  mk_proc (p_mask r) (p_state r) (p_chan r) (p_killed r) (p_xstate r) (p_pid r) (p_parent r)
  (p_kstack r) (p_sz r) (p_pagetable r) (p_trapframe r) (p_context r) (p_ofile r) (p_cwd r)
  (p_name r) (p_alarm_handler r) (p_handler r) (p_checkifAlarmOn r) (p_sigticks r) (p_maxticks r)
  (p_tickets r) (p_time_spent r) (p_time_avail r) (p_ctime r) (f (p_creationTime r)) (p_runTime r)
  (p_endTime r) (p_totalSleep r) (p_sleepTimePrev r) (p_sleepStartTime r) (p_runTimePrev r)
  (p_countTimeCalled r) (p_sprior r) (p_dprior r) (p_niceness r) (p_priority_level r) (p_ass_ticks
  r) (p_wait_time r) (p_ticks_elapsed r) (p_queue_ticks r).
Definition upd_p_runTime (f : Z -> Z) (r : proc) : proc :=
  mk_proc (p_mask r) (p_state r) (p_chan r) (p_killed r) (p_xstate r) (p_pid r) (p_parent r)
  (p_kstack r) (p_sz r) (p_pagetable r) (p_trapframe r) (p_context r) (p_ofile r) (p_cwd r)
  (p_name r) (p_alarm_handler r) (p_handler r) (p_checkifAlarmOn r) (p_sigticks r) (p_maxticks r)
  (p_tickets r) (p_time_spent r) (p_time_avail r) (p_ctime r) (p_creationTime r) (f (p_runTime r))
  (p_endTime r) (p_totalSleep r) (p_sleepTimePrev r) (p_sleepStartTime r) (p_runTimePrev r)
  (p_countTimeCalled r) (p_sprior r) (p_dprior r) (p_niceness r) (p_priority_level r) (p_ass_ticks
  r) (p_wait_time r) (p_ticks_elapsed r) (p_queue_ticks r).
Definition upd_p_endTime (f : Z -> Z) (r : proc) : proc :=
  mk_proc (p_mask r) (p_state r) (p_chan r) (p_killed r) (p_xstate r) (p_pid r) (p_parent r)
  (p_kstack r) (p_sz r) (p_pagetable r) (p_trapframe r) (p_context r) (p_ofile r) (p_cwd r)
  (p_name r) (p_alarm_handler r) (p_handler r) (p_checkifAlarmOn r) (p_sigticks r) (p_maxticks r)
  (p_tickets r) (p_time_spent r) (p_time_avail r) (p_ctime r) (p_creationTime r) (p_runTime r) (f
  (p_endTime r)) (p_totalSleep r) (p_sleepTimePrev r) (p_sleepStartTime r) (p_runTimePrev r)
  (p_countTimeCalled r) (p_sprior r) (p_dprior r) (p_niceness r) (p_priority_level r) (p_ass_ticks
  r) (p_wait_time r) (p_ticks_elapsed r) (p_queue_ticks r).
Definition upd_p_totalSleep (f : Z -> Z) (r : proc) : proc :=
  mk_proc (p_mask r) (p_state r) (p_chan r) (p_killed r) (p_xstate r) (p_pid r) (p_parent r)
  (p_kstack r) (p_sz r) (p_pagetable r) (p_trapframe r) (p_context r) (p_ofile r) (p_cwd r)
  (p_name r) (p_alarm_handler r) (p_handler r) (p_checkifAlarmOn r) (p_sigticks r) (p_maxticks r)
  (p_tickets r) (p_time_spent r) (p_time_avail r) (p_ctime r) (p_creationTime r) (p_runTime r)
  (p_endTime r) (f (p_totalSleep r)) (p_sleepTimePrev r) (p_sleepStartTime r) (p_runTimePrev r)
  (p_countTimeCalled r) (p_sprior r) (p_dprior r) (p_niceness r) (p_priority_level r) (p_ass_ticks
  r) (p_wait_time r) (p_ticks_elapsed r) (p_queue_ticks r).
Definition upd_p_sleepTimePrev (f : Z -> Z) (r : proc) : proc :=
  mk_proc (p_mask r) (p_state r) (p_chan r) (p_killed r) (p_xstate r) (p_pid r) (p_parent r)
  (p_kstack r) (p_sz r) (p_pagetable r) (p_trapframe r) (p_context r) (p_ofile r) (p_cwd r)
  (p_name r) (p_alarm_handler r) (p_handler r) (p_checkifAlarmOn r) (p_sigticks r) (p_maxticks r)
  (p_tickets r) (p_time_spent r) (p_time_avail r) (p_ctime r) (p_creationTime r) (p_runTime r)
  (p_endTime r) (p_totalSleep r) (f (p_sleepTimePrev r)) (p_sleepStartTime r) (p_runTimePrev r)
  (p_countTimeCalled r) (p_sprior r) (p_dprior r) (p_niceness r) (p_priority_level r) (p_ass_ticks
  r) (p_wait_time r) (p_ticks_elapsed r) (p_queue_ticks r).
Definition upd_p_sleepStartTime (f : Z -> Z) (r : proc) : proc :=
  mk_proc (p_mask r) (p_state r) (p_chan r) (p_killed r) (p_xstate r) (p_pid r) (p_parent r)
  (p_kstack r) (p_sz r) (p_pagetable r) (p_trapframe r) (p_context r) (p_ofile r) (p_cwd r)
  (p_name r) (p_alarm_handler r) (p_handler r) (p_checkifAlarmOn r) (p_sigticks r) (p_maxticks r)
  (p_tickets r) (p_time_spent r) (p_time_avail r) (p_ctime r) (p_creationTime r) (p_runTime r)
  (p_endTime r) (p_totalSleep r) (p_sleepTimePrev r) (f (p_sleepStartTime r)) (p_runTimePrev r)
  (p_countTimeCalled r) (p_sprior r) (p_dprior r) (p_niceness r) (p_priority_level r) (p_ass_ticks
  r) (p_wait_time r) (p_ticks_elapsed r) (p_queue_ticks r).
Definition upd_p_runTimePrev (f : Z -> Z) (r : proc) : proc :=
  mk_proc (p_mask r) (p_state r) (p_chan r) (p_killed r) (p_xstate r) (p_pid r) (p_parent r)
  (p_kstack r) (p_sz r) (p_pagetable r) (p_trapframe r) (p_context r) (p_ofile r) (p_cwd r)
  (p_name r) (p_alarm_handler r) (p_handler r) (p_checkifAlarmOn r) (p_sigticks r) (p_maxticks r)
  (p_tickets r) (p_time_spent r) (p_time_avail r) (p_ctime r) (p_creationTime r) (p_runTime r)
  (p_endTime r) (p_totalSleep r) (p_sleepTimePrev r) (p_sleepStartTime r) (f (p_runTimePrev r))
  (p_countTimeCalled r) (p_sprior r) (p_dprior r) (p_niceness r) (p_priority_level r) (p_ass_ticks
  r) (p_wait_time r) (p_ticks_elapsed r) (p_queue_ticks r).
Definition upd_p_countTimeCalled (f : Z -> Z) (r : proc) : proc :=
  mk_proc (p_mask r) (p_state r) (p_chan r) (p_killed r) (p_xstate r) (p_pid r) (p_parent r)
  (p_kstack r) (p_sz r) (p_pagetable r) (p_trapframe r) (p_context r) (p_ofile r) (p_cwd r)
  (p_name r) (p_alarm_handler r) (p_handler r) (p_checkifAlarmOn r) (p_sigticks r) (p_maxticks r)
  (p_tickets r) (p_time_spent r) (p_time_avail r) (p_ctime r) (p_creationTime r) (p_runTime r)
  (p_endTime r) (p_totalSleep r) (p_sleepTimePrev r) (p_sleepStartTime r) (p_runTimePrev r) (f
  (p_countTimeCalled r)) (p_sprior r) (p_dprior r) (p_niceness r) (p_priority_level r)
  (p_ass_ticks r) (p_wait_time r) (p_ticks_elapsed r) (p_queue_ticks r).
Definition upd_p_sprior (f : Z -> Z) (r : proc) : proc :=
  mk_proc (p_mask r) (p_state r) (p_chan r) (p_killed r) (p_xstate r) (p_pid r) (p_parent r)
  (p_kstack r) (p_sz r) (p_pagetable r) (p_trapframe r) (p_context r) (p_ofile r) (p_cwd r)
  (p_name r) (p_alarm_handler r) (p_handler r) (p_checkifAlarmOn r) (p_sigticks r) (p_maxticks r)
  (p_tickets r) (p_time_spent r) (p_time_avail r) (p_ctime r) (p_creationTime r) (p_runTime r)
  (p_endTime r) (p_totalSleep r) (p_sleepTimePrev r) (p_sleepStartTime r) (p_runTimePrev r)
  (p_countTimeCalled r) (f (p_sprior r)) (p_dprior r) (p_niceness r) (p_priority_level r)
  (p_ass_ticks r) (p_wait_time r) (p_ticks_elapsed r) (p_queue_ticks r).
Definition upd_p_dprior (f : Z -> Z) (r : proc) : proc :=
  mk_proc (p_mask r) (p_state r) (p_chan r) (p_killed r) (p_xstate r) (p_pid r) (p_parent r)
  (p_kstack r) (p_sz r) (p_pagetable r) (p_trapframe r) (p_context r) (p_ofile r) (p_cwd r)
  (p_name r) (p_alarm_handler r) (p_handler r) (p_checkifAlarmOn r) (p_sigticks r) (p_maxticks r)
  (p_tickets r) (p_time_spent r) (p_time_avail r) (p_ctime r) (p_creationTime r) (p_runTime r)
  (p_endTime r) (p_totalSleep r) (p_sleepTimePrev r) (p_sleepStartTime r) (p_runTimePrev r)
  (p_countTimeCalled r) (p_sprior r) (f (p_dprior r)) (p_niceness r) (p_priority_level r)
  (p_ass_ticks r) (p_wait_time r) (p_ticks_elapsed r) (p_queue_ticks r).
Definition upd_p_niceness (f : Z -> Z) (r : proc) : proc :=
  mk_proc (p_mask r) (p_state r) (p_chan r) (p_killed r) (p_xstate r) (p_pid r) (p_parent r)
  (p_kstack r) (p_sz r) (p_pagetable r) (p_trapframe r) (p_context r) (p_ofile r) (p_cwd r)
  (p_name r) (p_alarm_handler r) (p_handler r) (p_checkifAlarmOn r) (p_sigticks r) (p_maxticks r)
  (p_tickets r) (p_time_spent r) (p_time_avail r) (p_ctime r) (p_creationTime r) (p_runTime r)
  (p_endTime r) (p_totalSleep r) (p_sleepTimePrev r) (p_sleepStartTime r) (p_runTimePrev r)
  (p_countTimeCalled r) (p_sprior r) (p_dprior r) (f (p_niceness r)) (p_priority_level r)
  (p_ass_ticks r) (p_wait_time r) (p_ticks_elapsed r) (p_queue_ticks r).
Definition upd_p_priority_level (f : Z -> Z) (r : proc) : proc :=
  mk_proc (p_mask r) (p_state r) (p_chan r) (p_killed r) (p_xstate r) (p_pid r) (p_parent r)
  (p_kstack r) (p_sz r) (p_pagetable r) (p_trapframe r) (p_context r) (p_ofile r) (p_cwd r)
  (p_name r) (p_alarm_handler r) (p_handler r) (p_checkifAlarmOn r) (p_sigticks r) (p_maxticks r)
  (p_tickets r) (p_time_spent r) (p_time_avail r) (p_ctime r) (p_creationTime r) (p_runTime r)
  (p_endTime r) (p_totalSleep r) (p_sleepTimePrev r) (p_sleepStartTime r) (p_runTimePrev r)
  (p_countTimeCalled r) (p_sprior r) (p_dprior r) (p_niceness r) (f (p_priority_level r))
  (p_ass_ticks r) (p_wait_time r) (p_ticks_elapsed r) (p_queue_ticks r).
Definition upd_p_ass_ticks (f : Z -> Z) (r : proc) : proc :=
  mk_proc (p_mask r) (p_state r) (p_chan r) (p_killed r) (p_xstate r) (p_pid r) (p_parent r)
  (p_kstack r) (p_sz r) (p_pagetable r) (p_trapframe r) (p_context r) (p_ofile r) (p_cwd r)
  (p_name r) (p_alarm_handler r) (p_handler r) (p_checkifAlarmOn r) (p_sigticks r) (p_maxticks r)
  (p_tickets r) (p_time_spent r) (p_time_avail r) (p_ctime r) (p_creationTime r) (p_runTime r)
  (p_endTime r) (p_totalSleep r) (p_sleepTimePrev r) (p_sleepStartTime r) (p_runTimePrev r)
  (p_countTimeCalled r) (p_sprior r) (p_dprior r) (p_niceness r) (p_priority_level r) (f
  (p_ass_ticks r)) (p_wait_time r) (p_ticks_elapsed r) (p_queue_ticks r).
Definition upd_p_wait_time (f : Z -> Z) (r : proc) : proc :=
  mk_proc (p_mask r) (p_state r) (p_chan r) (p_killed r) (p_xstate r) (p_pid r) (p_parent r)
  (p_kstack r) (p_sz r) (p_pagetable r) (p_trapframe r) (p_context r) (p_ofile r) (p_cwd r)
  (p_name r) (p_alarm_handler r) (p_handler r) (p_checkifAlarmOn r) (p_sigticks r) (p_maxticks r)
  (p_tickets r) (p_time_spent r) (p_time_avail r) (p_ctime r) (p_creationTime r) (p_runTime r)
  (p_endTime r) (p_totalSleep r) (p_sleepTimePrev r) (p_sleepStartTime r) (p_runTimePrev r)
  (p_countTimeCalled r) (p_sprior r) (p_dprior r) (p_niceness r) (p_priority_level r) (p_ass_ticks
  r) (f (p_wait_time r)) (p_ticks_elapsed r) (p_queue_ticks r).
Definition upd_p_ticks_elapsed (f : Z -> Z) (r : proc) : proc :=
  mk_proc (p_mask r) (p_state r) (p_chan r) (p_killed r) (p_xstate r) (p_pid r) (p_parent r)
  (p_kstack r) (p_sz r) (p_pagetable r) (p_trapframe r) (p_context r) (p_ofile r) (p_cwd r)
  (p_name r) (p_alarm_handler r) (p_handler r) (p_checkifAlarmOn r) (p_sigticks r) (p_maxticks r)
  (p_tickets r) (p_time_spent r) (p_time_avail r) (p_ctime r) (p_creationTime r) (p_runTime r)
  (p_endTime r) (p_totalSleep r) (p_sleepTimePrev r) (p_sleepStartTime r) (p_runTimePrev r)
  (p_countTimeCalled r) (p_sprior r) (p_dprior r) (p_niceness r) (p_priority_level r) (p_ass_ticks
  r) (p_wait_time r) (f (p_ticks_elapsed r)) (p_queue_ticks r).
Definition upd_p_queue_ticks (f : list Z -> list Z) (r : proc) : proc :=
  mk_proc (p_mask r) (p_state r) (p_chan r) (p_killed r) (p_xstate r) (p_pid r) (p_parent r)
  (p_kstack r) (p_sz r) (p_pagetable r) (p_trapframe r) (p_context r) (p_ofile r) (p_cwd r)
  (p_name r) (p_alarm_handler r) (p_handler r) (p_checkifAlarmOn r) (p_sigticks r) (p_maxticks r)
  (p_tickets r) (p_time_spent r) (p_time_avail r) (p_ctime r) (p_creationTime r) (p_runTime r)
  (p_endTime r) (p_totalSleep r) (p_sleepTimePrev r) (p_sleepStartTime r) (p_runTimePrev r)
  (p_countTimeCalled r) (p_sprior r) (p_dprior r) (p_niceness r) (p_priority_level r) (p_ass_ticks
  r) (p_wait_time r) (p_ticks_elapsed r) (f (p_queue_ticks r)).


(** A process as the C runtime starts with: all bytes zero. *)
Definition proc0 : proc :=
  mk_proc 0 UNUSED ChNone 0 0 0 None 0 0 0 0 CtxZero (replicate NOFILE None) None
    (replicate 16 0) 0 0 0 0 0 0 0 0 0 0 0 0 0 0 0 0 0 0 0 0 0 0 0 0 (replicate 5 0).

(** ** Sleep locks and the buffer cache *)

(** [struct sleeplock]; its spinlock is [LkBuf i] or [LkInode i]. *)
Record sleeplock := mk_sleeplock {
  sl_locked : bool;
  sl_pid : Z
}.
Definition upd_sl_locked (f : bool -> bool) (r : sleeplock) : sleeplock :=
  mk_sleeplock (f (sl_locked r)) (sl_pid r).
Definition upd_sl_pid (f : Z -> Z) (r : sleeplock) : sleeplock :=
  mk_sleeplock (sl_locked r) (f (sl_pid r)).

Definition sleeplock0 : sleeplock := mk_sleeplock false 0.

Record buf := mk_buf {
  b_valid : bool;
  b_disk : bool;   (* does disk own buf? *)
  b_dev : Z;
  b_blockno : Z;
  b_lock : sleeplock;
  b_refcnt : Z;
  b_data : list Z   (* data[BSIZE] *)
}.
Definition upd_b_valid (f : bool -> bool) (r : buf) : buf :=
  mk_buf (f (b_valid r)) (b_disk r) (b_dev r) (b_blockno r) (b_lock r) (b_refcnt r) (b_data r).
Definition upd_b_disk (f : bool -> bool) (r : buf) : buf :=
  mk_buf (b_valid r) (f (b_disk r)) (b_dev r) (b_blockno r) (b_lock r) (b_refcnt r) (b_data r).
Definition upd_b_dev (f : Z -> Z) (r : buf) : buf :=
  mk_buf (b_valid r) (b_disk r) (f (b_dev r)) (b_blockno r) (b_lock r) (b_refcnt r) (b_data r).
Definition upd_b_blockno (f : Z -> Z) (r : buf) : buf :=
  mk_buf (b_valid r) (b_disk r) (b_dev r) (f (b_blockno r)) (b_lock r) (b_refcnt r) (b_data r).
Definition upd_b_lock (f : sleeplock -> sleeplock) (r : buf) : buf :=
  mk_buf (b_valid r) (b_disk r) (b_dev r) (b_blockno r) (f (b_lock r)) (b_refcnt r) (b_data r).
Definition upd_b_refcnt (f : Z -> Z) (r : buf) : buf :=
  mk_buf (b_valid r) (b_disk r) (b_dev r) (b_blockno r) (b_lock r) (f (b_refcnt r)) (b_data r).
Definition upd_b_data (f : list Z -> list Z) (r : buf) : buf :=
  mk_buf (b_valid r) (b_disk r) (b_dev r) (b_blockno r) (b_lock r) (b_refcnt r) (f (b_data r)).


(** ** The log *)

Record logheader := mk_logheader {
  lh_n : Z;
  lh_block : list Z   (* block[LOGSIZE] *)
}.
Definition upd_lh_n (f : Z -> Z) (r : logheader) : logheader :=
  mk_logheader (f (lh_n r)) (lh_block r).
Definition upd_lh_block (f : list Z -> list Z) (r : logheader) : logheader :=
  mk_logheader (lh_n r) (f (lh_block r)).

Record log := mk_log {
  l_start : Z;
  l_size : Z;
  l_outstanding : Z;
  l_committing : bool;
  l_dev : Z;
  l_lh : logheader
}.
Definition upd_l_start (f : Z -> Z) (r : log) : log :=
  mk_log (f (l_start r)) (l_size r) (l_outstanding r) (l_committing r) (l_dev r) (l_lh r).
Definition upd_l_size (f : Z -> Z) (r : log) : log :=
  mk_log (l_start r) (f (l_size r)) (l_outstanding r) (l_committing r) (l_dev r) (l_lh r).
Definition upd_l_outstanding (f : Z -> Z) (r : log) : log :=
  mk_log (l_start r) (l_size r) (f (l_outstanding r)) (l_committing r) (l_dev r) (l_lh r).
Definition upd_l_committing (f : bool -> bool) (r : log) : log :=
  mk_log (l_start r) (l_size r) (l_outstanding r) (f (l_committing r)) (l_dev r) (l_lh r).
Definition upd_l_dev (f : Z -> Z) (r : log) : log :=
  mk_log (l_start r) (l_size r) (l_outstanding r) (l_committing r) (f (l_dev r)) (l_lh r).
Definition upd_l_lh (f : logheader -> logheader) (r : log) : log :=
  mk_log (l_start r) (l_size r) (l_outstanding r) (l_committing r) (l_dev r) (f (l_lh r)).


(** ** Inodes, files and pipes *)

Record superblock := mk_superblock {
  sb_magic : Z;
  sb_size : Z;
  sb_nblocks : Z;
  sb_ninodes : Z;
  sb_nlog : Z;
  sb_logstart : Z;
  sb_inodestart : Z;
  sb_bmapstart : Z
}.
Definition upd_sb_magic (f : Z -> Z) (r : superblock) : superblock :=
  mk_superblock (f (sb_magic r)) (sb_size r) (sb_nblocks r) (sb_ninodes r) (sb_nlog r)
  (sb_logstart r) (sb_inodestart r) (sb_bmapstart r).
Definition upd_sb_size (f : Z -> Z) (r : superblock) : superblock :=
  mk_superblock (sb_magic r) (f (sb_size r)) (sb_nblocks r) (sb_ninodes r) (sb_nlog r)
  (sb_logstart r) (sb_inodestart r) (sb_bmapstart r).
Definition upd_sb_nblocks (f : Z -> Z) (r : superblock) : superblock :=
  mk_superblock (sb_magic r) (sb_size r) (f (sb_nblocks r)) (sb_ninodes r) (sb_nlog r)
  (sb_logstart r) (sb_inodestart r) (sb_bmapstart r).
Definition upd_sb_ninodes (f : Z -> Z) (r : superblock) : superblock :=
  mk_superblock (sb_magic r) (sb_size r) (sb_nblocks r) (f (sb_ninodes r)) (sb_nlog r)
  (sb_logstart r) (sb_inodestart r) (sb_bmapstart r).
Definition upd_sb_nlog (f : Z -> Z) (r : superblock) : superblock :=
  mk_superblock (sb_magic r) (sb_size r) (sb_nblocks r) (sb_ninodes r) (f (sb_nlog r))
  (sb_logstart r) (sb_inodestart r) (sb_bmapstart r).
Definition upd_sb_logstart (f : Z -> Z) (r : superblock) : superblock :=
  mk_superblock (sb_magic r) (sb_size r) (sb_nblocks r) (sb_ninodes r) (sb_nlog r) (f (sb_logstart
  r)) (sb_inodestart r) (sb_bmapstart r).
Definition upd_sb_inodestart (f : Z -> Z) (r : superblock) : superblock :=
  mk_superblock (sb_magic r) (sb_size r) (sb_nblocks r) (sb_ninodes r) (sb_nlog r) (sb_logstart r)
  (f (sb_inodestart r)) (sb_bmapstart r).
Definition upd_sb_bmapstart (f : Z -> Z) (r : superblock) : superblock :=
  mk_superblock (sb_magic r) (sb_size r) (sb_nblocks r) (sb_ninodes r) (sb_nlog r) (sb_logstart r)
  (sb_inodestart r) (f (sb_bmapstart r)).

Record inode := mk_inode {
  i_dev : Z;
  i_inum : Z;
  i_ref : Z;
  i_lock : sleeplock;
  i_valid : bool;
  i_type : Z;
  i_major : Z;
  i_minor : Z;
  i_nlink : Z;
  i_size : Z;
  i_addrs : list Z   (* addrs[NDIRECT+1] *)
}.
Definition upd_i_dev (f : Z -> Z) (r : inode) : inode :=
  mk_inode (f (i_dev r)) (i_inum r) (i_ref r) (i_lock r) (i_valid r) (i_type r) (i_major r)
  (i_minor r) (i_nlink r) (i_size r) (i_addrs r).
Definition upd_i_inum (f : Z -> Z) (r : inode) : inode :=
  mk_inode (i_dev r) (f (i_inum r)) (i_ref r) (i_lock r) (i_valid r) (i_type r) (i_major r)
  (i_minor r) (i_nlink r) (i_size r) (i_addrs r).
Definition upd_i_ref (f : Z -> Z) (r : inode) : inode :=
  mk_inode (i_dev r) (i_inum r) (f (i_ref r)) (i_lock r) (i_valid r) (i_type r) (i_major r)
  (i_minor r) (i_nlink r) (i_size r) (i_addrs r).
Definition upd_i_lock (f : sleeplock -> sleeplock) (r : inode) : inode :=
  mk_inode (i_dev r) (i_inum r) (i_ref r) (f (i_lock r)) (i_valid r) (i_type r) (i_major r)
  (i_minor r) (i_nlink r) (i_size r) (i_addrs r).
Definition upd_i_valid (f : bool -> bool) (r : inode) : inode :=
  mk_inode (i_dev r) (i_inum r) (i_ref r) (i_lock r) (f (i_valid r)) (i_type r) (i_major r)
  (i_minor r) (i_nlink r) (i_size r) (i_addrs r).
Definition upd_i_type (f : Z -> Z) (r : inode) : inode :=
  mk_inode (i_dev r) (i_inum r) (i_ref r) (i_lock r) (i_valid r) (f (i_type r)) (i_major r)
  (i_minor r) (i_nlink r) (i_size r) (i_addrs r).
Definition upd_i_major (f : Z -> Z) (r : inode) : inode :=
  mk_inode (i_dev r) (i_inum r) (i_ref r) (i_lock r) (i_valid r) (i_type r) (f (i_major r))
  (i_minor r) (i_nlink r) (i_size r) (i_addrs r).
Definition upd_i_minor (f : Z -> Z) (r : inode) : inode :=
  mk_inode (i_dev r) (i_inum r) (i_ref r) (i_lock r) (i_valid r) (i_type r) (i_major r) (f
  (i_minor r)) (i_nlink r) (i_size r) (i_addrs r).
Definition upd_i_nlink (f : Z -> Z) (r : inode) : inode :=
  mk_inode (i_dev r) (i_inum r) (i_ref r) (i_lock r) (i_valid r) (i_type r) (i_major r) (i_minor
  r) (f (i_nlink r)) (i_size r) (i_addrs r).
Definition upd_i_size (f : Z -> Z) (r : inode) : inode :=
  mk_inode (i_dev r) (i_inum r) (i_ref r) (i_lock r) (i_valid r) (i_type r) (i_major r) (i_minor
  r) (i_nlink r) (f (i_size r)) (i_addrs r).
Definition upd_i_addrs (f : list Z -> list Z) (r : inode) : inode :=
  mk_inode (i_dev r) (i_inum r) (i_ref r) (i_lock r) (i_valid r) (i_type r) (i_major r) (i_minor
  r) (i_nlink r) (i_size r) (f (i_addrs r)).


Inductive fdtype := FD_NONE | FD_PIPE | FD_INODE | FD_DEVICE.
#[export] Instance fdtype_eq_dec : EqDecision fdtype.
Proof. solve_decision. Defined.

Record file := mk_file {
  f_type : fdtype;
  f_ref : Z;
  f_readable : bool;
  f_writable : bool;
  f_pipe : Z;   (* address of the pipe *)
  f_ip : option nat;
  f_off : Z;
  f_major : Z
}.
Definition upd_f_type (f : fdtype -> fdtype) (r : file) : file :=
  mk_file (f (f_type r)) (f_ref r) (f_readable r) (f_writable r) (f_pipe r) (f_ip r) (f_off r)
  (f_major r).
Definition upd_f_ref (f : Z -> Z) (r : file) : file :=
  mk_file (f_type r) (f (f_ref r)) (f_readable r) (f_writable r) (f_pipe r) (f_ip r) (f_off r)
  (f_major r).
Definition upd_f_readable (f : bool -> bool) (r : file) : file :=
  mk_file (f_type r) (f_ref r) (f (f_readable r)) (f_writable r) (f_pipe r) (f_ip r) (f_off r)
  (f_major r).
Definition upd_f_writable (f : bool -> bool) (r : file) : file :=
  mk_file (f_type r) (f_ref r) (f_readable r) (f (f_writable r)) (f_pipe r) (f_ip r) (f_off r)
  (f_major r).
Definition upd_f_pipe (f : Z -> Z) (r : file) : file :=
  mk_file (f_type r) (f_ref r) (f_readable r) (f_writable r) (f (f_pipe r)) (f_ip r) (f_off r)
  (f_major r).
Definition upd_f_ip (f : option nat -> option nat) (r : file) : file :=
  mk_file (f_type r) (f_ref r) (f_readable r) (f_writable r) (f_pipe r) (f (f_ip r)) (f_off r)
  (f_major r).
Definition upd_f_off (f : Z -> Z) (r : file) : file :=
  mk_file (f_type r) (f_ref r) (f_readable r) (f_writable r) (f_pipe r) (f_ip r) (f (f_off r))
  (f_major r).
Definition upd_f_major (f : Z -> Z) (r : file) : file :=
  mk_file (f_type r) (f_ref r) (f_readable r) (f_writable r) (f_pipe r) (f_ip r) (f_off r) (f
  (f_major r)).

Record pipe := mk_pipe {
  pi_data : list Z;   (* data[PIPESIZE] *)
  pi_nread : Z;
  pi_nwrite : Z;
  pi_readopen : bool;
  pi_writeopen : bool
}.
Definition upd_pi_data (f : list Z -> list Z) (r : pipe) : pipe :=
  mk_pipe (f (pi_data r)) (pi_nread r) (pi_nwrite r) (pi_readopen r) (pi_writeopen r).
Definition upd_pi_nread (f : Z -> Z) (r : pipe) : pipe :=
  mk_pipe (pi_data r) (f (pi_nread r)) (pi_nwrite r) (pi_readopen r) (pi_writeopen r).
Definition upd_pi_nwrite (f : Z -> Z) (r : pipe) : pipe :=
  mk_pipe (pi_data r) (pi_nread r) (f (pi_nwrite r)) (pi_readopen r) (pi_writeopen r).
Definition upd_pi_readopen (f : bool -> bool) (r : pipe) : pipe :=
  mk_pipe (pi_data r) (pi_nread r) (pi_nwrite r) (f (pi_readopen r)) (pi_writeopen r).
Definition upd_pi_writeopen (f : bool -> bool) (r : pipe) : pipe :=
  mk_pipe (pi_data r) (pi_nread r) (pi_nwrite r) (pi_readopen r) (f (pi_writeopen r)).


(** ** Console, UART and disk driver *)

Record console := mk_console {
  c_buf : list Z;   (* buf[INPUT_BUF_SIZE] *)
  c_r : Z;
  c_w : Z;
  c_e : Z
}.
Definition upd_c_buf (f : list Z -> list Z) (r : console) : console :=
  mk_console (f (c_buf r)) (c_r r) (c_w r) (c_e r).
Definition upd_c_r (f : Z -> Z) (r : console) : console :=
  mk_console (c_buf r) (f (c_r r)) (c_w r) (c_e r).
Definition upd_c_w (f : Z -> Z) (r : console) : console :=
  mk_console (c_buf r) (c_r r) (f (c_w r)) (c_e r).
Definition upd_c_e (f : Z -> Z) (r : console) : console :=
  mk_console (c_buf r) (c_r r) (c_w r) (f (c_e r)).


(** The UART: the driver's transmit buffer, and the device. [u_idle n] is the
    transmit-idle bit the [n]-th read of the line status register returns. *)
Record uart := mk_uart {
  u_buf : list Z;   (* uart_tx_buf *)
  u_w : Z;
  u_r : Z;
  u_rx : list Z;   (* bytes waiting in the receiver *)
  u_clock : nat;
  u_idle : nat -> bool;
  u_out : list Z;   (* bytes sent, in order *)
  u_regs : gmap Z Z   (* control registers *)
}.
Definition upd_u_buf (f : list Z -> list Z) (r : uart) : uart :=
  mk_uart (f (u_buf r)) (u_w r) (u_r r) (u_rx r) (u_clock r) (u_idle r) (u_out r) (u_regs r).
Definition upd_u_w (f : Z -> Z) (r : uart) : uart :=
  mk_uart (u_buf r) (f (u_w r)) (u_r r) (u_rx r) (u_clock r) (u_idle r) (u_out r) (u_regs r).
Definition upd_u_r (f : Z -> Z) (r : uart) : uart :=
  mk_uart (u_buf r) (u_w r) (f (u_r r)) (u_rx r) (u_clock r) (u_idle r) (u_out r) (u_regs r).
Definition upd_u_rx (f : list Z -> list Z) (r : uart) : uart :=
  mk_uart (u_buf r) (u_w r) (u_r r) (f (u_rx r)) (u_clock r) (u_idle r) (u_out r) (u_regs r).
Definition upd_u_clock (f : nat -> nat) (r : uart) : uart :=
  mk_uart (u_buf r) (u_w r) (u_r r) (u_rx r) (f (u_clock r)) (u_idle r) (u_out r) (u_regs r).
Definition upd_u_idle (f : (nat -> bool) -> (nat -> bool)) (r : uart) : uart :=
  mk_uart (u_buf r) (u_w r) (u_r r) (u_rx r) (u_clock r) (f (u_idle r)) (u_out r) (u_regs r).
Definition upd_u_out (f : list Z -> list Z) (r : uart) : uart :=
  mk_uart (u_buf r) (u_w r) (u_r r) (u_rx r) (u_clock r) (u_idle r) (f (u_out r)) (u_regs r).
Definition upd_u_regs (f : gmap Z Z -> gmap Z Z) (r : uart) : uart :=
  mk_uart (u_buf r) (u_w r) (u_r r) (u_rx r) (u_clock r) (u_idle r) (u_out r) (f (u_regs r)).


(** [struct disk] of [kernel/virtio_disk.c]. *)
Record vinfo := mk_vinfo {
  vi_b : option nat;
  vi_status : Z
}.
Definition upd_vi_b (f : option nat -> option nat) (r : vinfo) : vinfo :=
  mk_vinfo (f (vi_b r)) (vi_status r).
Definition upd_vi_status (f : Z -> Z) (r : vinfo) : vinfo :=
  mk_vinfo (vi_b r) (f (vi_status r)).

Record vop := mk_vop {
  vo_type : Z;
  vo_reserved : Z;
  vo_sector : Z
}.
Definition upd_vo_type (f : Z -> Z) (r : vop) : vop :=
  mk_vop (f (vo_type r)) (vo_reserved r) (vo_sector r).
Definition upd_vo_reserved (f : Z -> Z) (r : vop) : vop :=
  mk_vop (vo_type r) (f (vo_reserved r)) (vo_sector r).
Definition upd_vo_sector (f : Z -> Z) (r : vop) : vop :=
  mk_vop (vo_type r) (vo_reserved r) (f (vo_sector r)).

Record vdisk := mk_vdisk {
  v_desc : Z;
  v_avail : Z;
  v_used : Z;
  v_free : list bool;   (* free[NUM] *)
  v_used_idx : Z;
  v_info : list vinfo;
  v_ops : list vop;
  v_regs : gmap Z Z   (* memory-mapped registers *)
}.
Definition upd_v_desc (f : Z -> Z) (r : vdisk) : vdisk :=
  mk_vdisk (f (v_desc r)) (v_avail r) (v_used r) (v_free r) (v_used_idx r) (v_info r) (v_ops r)
  (v_regs r).
Definition upd_v_avail (f : Z -> Z) (r : vdisk) : vdisk :=
  mk_vdisk (v_desc r) (f (v_avail r)) (v_used r) (v_free r) (v_used_idx r) (v_info r) (v_ops r)
  (v_regs r).
Definition upd_v_used (f : Z -> Z) (r : vdisk) : vdisk :=
  mk_vdisk (v_desc r) (v_avail r) (f (v_used r)) (v_free r) (v_used_idx r) (v_info r) (v_ops r)
  (v_regs r).
Definition upd_v_free (f : list bool -> list bool) (r : vdisk) : vdisk :=
  mk_vdisk (v_desc r) (v_avail r) (v_used r) (f (v_free r)) (v_used_idx r) (v_info r) (v_ops r)
  (v_regs r).
Definition upd_v_used_idx (f : Z -> Z) (r : vdisk) : vdisk :=
  mk_vdisk (v_desc r) (v_avail r) (v_used r) (v_free r) (f (v_used_idx r)) (v_info r) (v_ops r)
  (v_regs r).
Definition upd_v_info (f : list vinfo -> list vinfo) (r : vdisk) : vdisk :=
  mk_vdisk (v_desc r) (v_avail r) (v_used r) (v_free r) (v_used_idx r) (f (v_info r)) (v_ops r)
  (v_regs r).
Definition upd_v_ops (f : list vop -> list vop) (r : vdisk) : vdisk :=
  mk_vdisk (v_desc r) (v_avail r) (v_used r) (v_free r) (v_used_idx r) (v_info r) (f (v_ops r))
  (v_regs r).
Definition upd_v_regs (f : gmap Z Z -> gmap Z Z) (r : vdisk) : vdisk :=
  mk_vdisk (v_desc r) (v_avail r) (v_used r) (v_free r) (v_used_idx r) (v_info r) (v_ops r) (f
  (v_regs r)).


(** The disk itself: the blocks it held at first, and the blocks written to
    it since, the latest first. *)
Record platter := mk_platter {
  d_image : Z -> list Z;
  d_writes : list (Z * list Z)   (* block number and data *)
}.
Definition upd_d_image (f : (Z -> list Z) -> (Z -> list Z)) (r : platter) : platter :=
  mk_platter (f (d_image r)) (d_writes r).
Definition upd_d_writes (f : list (Z * list Z) -> list (Z * list Z)) (r : platter) : platter :=
  mk_platter (d_image r) (f (d_writes r)).


(** ** Control registers of a hart, and the interrupt controller *)

Record csr := mk_csr {
  r_scause : Z;
  r_sepc : Z;
  r_stval : Z;
  r_stvec : Z;
  r_satp : Z;
  r_spp : bool;   (* sstatus.SPP *)
  r_spie : bool;   (* sstatus.SPIE *)
  r_sip : Z
}.
Definition upd_r_scause (f : Z -> Z) (r : csr) : csr :=
  mk_csr (f (r_scause r)) (r_sepc r) (r_stval r) (r_stvec r) (r_satp r) (r_spp r) (r_spie r)
  (r_sip r).
Definition upd_r_sepc (f : Z -> Z) (r : csr) : csr :=
  mk_csr (r_scause r) (f (r_sepc r)) (r_stval r) (r_stvec r) (r_satp r) (r_spp r) (r_spie r)
  (r_sip r).
Definition upd_r_stval (f : Z -> Z) (r : csr) : csr :=
  mk_csr (r_scause r) (r_sepc r) (f (r_stval r)) (r_stvec r) (r_satp r) (r_spp r) (r_spie r)
  (r_sip r).
Definition upd_r_stvec (f : Z -> Z) (r : csr) : csr :=
  mk_csr (r_scause r) (r_sepc r) (r_stval r) (f (r_stvec r)) (r_satp r) (r_spp r) (r_spie r)
  (r_sip r).
Definition upd_r_satp (f : Z -> Z) (r : csr) : csr :=
  mk_csr (r_scause r) (r_sepc r) (r_stval r) (r_stvec r) (f (r_satp r)) (r_spp r) (r_spie r)
  (r_sip r).
Definition upd_r_spp (f : bool -> bool) (r : csr) : csr :=
  mk_csr (r_scause r) (r_sepc r) (r_stval r) (r_stvec r) (r_satp r) (f (r_spp r)) (r_spie r)
  (r_sip r).
Definition upd_r_spie (f : bool -> bool) (r : csr) : csr :=
  mk_csr (r_scause r) (r_sepc r) (r_stval r) (r_stvec r) (r_satp r) (r_spp r) (f (r_spie r))
  (r_sip r).
Definition upd_r_sip (f : Z -> Z) (r : csr) : csr :=
  mk_csr (r_scause r) (r_sepc r) (r_stval r) (r_stvec r) (r_satp r) (r_spp r) (r_spie r) (f (r_sip
  r)).

Definition csr0 : csr := mk_csr 0 0 0 0 0 false false 0.

Record plic := mk_plic {
  plic_pending : list Z;   (* interrupts raised, not yet claimed *)
  plic_regs : gmap Z Z
}.
Definition upd_plic_pending (f : list Z -> list Z) (r : plic) : plic :=
  mk_plic (f (plic_pending r)) (plic_regs r).
Definition upd_plic_regs (f : gmap Z Z -> gmap Z Z) (r : plic) : plic :=
  mk_plic (plic_pending r) (f (plic_regs r)).


(** ** All of it *)

Record kernel := mk_kernel {
  mach : machine;
  procs : list proc;   (* proc[NPROC] *)
  nextpid : Z;
  initproc : option nat;
  ticks : Z;
  rng : Z * Z * Z * Z;   (* z1 .. z4 of random_lbs *)
  first : bool;   (* first of forkret *)
  kernel_pagetable : Z;
  bufs : list buf;   (* bcache.buf[NBUF] *)
  bnext : list nat;   (* next, of each buffer and of bcache.head *)
  bprev : list nat;
  klog : log;
  ksb : superblock;
  inodes : list inode;   (* itable.inode[NINODE] *)
  files : list file;   (* ftable.file[NFILE] *)
  pipes : gmap Z pipe;   (* the pipes, by address *)
  kcons : console;
  kuart : uart;
  pr_locking : bool;
  panicked : bool;
  devsw_console : bool;   (* devsw[CONSOLE] is set *)
  kvdisk : vdisk;
  csrs : gmap Z csr;   (* by hart *)
  kplic : plic;
  started : bool;
  kdisk : platter   (* the disk device *)
}.
Definition upd_mach (f : machine -> machine) (r : kernel) : kernel :=
  mk_kernel (f (mach r)) (procs r) (nextpid r) (initproc r) (ticks r) (rng r) (first r)
  (kernel_pagetable r) (bufs r) (bnext r) (bprev r) (klog r) (ksb r) (inodes r) (files r) (pipes
  r) (kcons r) (kuart r) (pr_locking r) (panicked r) (devsw_console r) (kvdisk r) (csrs r) (kplic
  r) (started r) (kdisk r).
Definition upd_procs (f : list proc -> list proc) (r : kernel) : kernel :=
  mk_kernel (mach r) (f (procs r)) (nextpid r) (initproc r) (ticks r) (rng r) (first r)
  (kernel_pagetable r) (bufs r) (bnext r) (bprev r) (klog r) (ksb r) (inodes r) (files r) (pipes
  r) (kcons r) (kuart r) (pr_locking r) (panicked r) (devsw_console r) (kvdisk r) (csrs r) (kplic
  r) (started r) (kdisk r).
Definition upd_nextpid (f : Z -> Z) (r : kernel) : kernel :=
  mk_kernel (mach r) (procs r) (f (nextpid r)) (initproc r) (ticks r) (rng r) (first r)
  (kernel_pagetable r) (bufs r) (bnext r) (bprev r) (klog r) (ksb r) (inodes r) (files r) (pipes
  r) (kcons r) (kuart r) (pr_locking r) (panicked r) (devsw_console r) (kvdisk r) (csrs r) (kplic
  r) (started r) (kdisk r).
Definition upd_initproc (f : option nat -> option nat) (r : kernel) : kernel :=
  mk_kernel (mach r) (procs r) (nextpid r) (f (initproc r)) (ticks r) (rng r) (first r)
  (kernel_pagetable r) (bufs r) (bnext r) (bprev r) (klog r) (ksb r) (inodes r) (files r) (pipes
  r) (kcons r) (kuart r) (pr_locking r) (panicked r) (devsw_console r) (kvdisk r) (csrs r) (kplic
  r) (started r) (kdisk r).
Definition upd_ticks (f : Z -> Z) (r : kernel) : kernel :=
  mk_kernel (mach r) (procs r) (nextpid r) (initproc r) (f (ticks r)) (rng r) (first r)
  (kernel_pagetable r) (bufs r) (bnext r) (bprev r) (klog r) (ksb r) (inodes r) (files r) (pipes
  r) (kcons r) (kuart r) (pr_locking r) (panicked r) (devsw_console r) (kvdisk r) (csrs r) (kplic
  r) (started r) (kdisk r).
Definition upd_rng (f : Z * Z * Z * Z -> Z * Z * Z * Z) (r : kernel) : kernel :=
  mk_kernel (mach r) (procs r) (nextpid r) (initproc r) (ticks r) (f (rng r)) (first r)
  (kernel_pagetable r) (bufs r) (bnext r) (bprev r) (klog r) (ksb r) (inodes r) (files r) (pipes
  r) (kcons r) (kuart r) (pr_locking r) (panicked r) (devsw_console r) (kvdisk r) (csrs r) (kplic
  r) (started r) (kdisk r).
Definition upd_first (f : bool -> bool) (r : kernel) : kernel :=
  mk_kernel (mach r) (procs r) (nextpid r) (initproc r) (ticks r) (rng r) (f (first r))
  (kernel_pagetable r) (bufs r) (bnext r) (bprev r) (klog r) (ksb r) (inodes r) (files r) (pipes
  r) (kcons r) (kuart r) (pr_locking r) (panicked r) (devsw_console r) (kvdisk r) (csrs r) (kplic
  r) (started r) (kdisk r).
Definition upd_kernel_pagetable (f : Z -> Z) (r : kernel) : kernel :=
  mk_kernel (mach r) (procs r) (nextpid r) (initproc r) (ticks r) (rng r) (first r) (f
  (kernel_pagetable r)) (bufs r) (bnext r) (bprev r) (klog r) (ksb r) (inodes r) (files r) (pipes
  r) (kcons r) (kuart r) (pr_locking r) (panicked r) (devsw_console r) (kvdisk r) (csrs r) (kplic
  r) (started r) (kdisk r).
Definition upd_bufs (f : list buf -> list buf) (r : kernel) : kernel :=
  mk_kernel (mach r) (procs r) (nextpid r) (initproc r) (ticks r) (rng r) (first r)
  (kernel_pagetable r) (f (bufs r)) (bnext r) (bprev r) (klog r) (ksb r) (inodes r) (files r)
  (pipes r) (kcons r) (kuart r) (pr_locking r) (panicked r) (devsw_console r) (kvdisk r) (csrs r)
  (kplic r) (started r) (kdisk r).
Definition upd_bnext (f : list nat -> list nat) (r : kernel) : kernel :=
  mk_kernel (mach r) (procs r) (nextpid r) (initproc r) (ticks r) (rng r) (first r)
  (kernel_pagetable r) (bufs r) (f (bnext r)) (bprev r) (klog r) (ksb r) (inodes r) (files r)
  (pipes r) (kcons r) (kuart r) (pr_locking r) (panicked r) (devsw_console r) (kvdisk r) (csrs r)
  (kplic r) (started r) (kdisk r).
Definition upd_bprev (f : list nat -> list nat) (r : kernel) : kernel :=
  mk_kernel (mach r) (procs r) (nextpid r) (initproc r) (ticks r) (rng r) (first r)
  (kernel_pagetable r) (bufs r) (bnext r) (f (bprev r)) (klog r) (ksb r) (inodes r) (files r)
  (pipes r) (kcons r) (kuart r) (pr_locking r) (panicked r) (devsw_console r) (kvdisk r) (csrs r)
  (kplic r) (started r) (kdisk r).
Definition upd_klog (f : log -> log) (r : kernel) : kernel :=
  mk_kernel (mach r) (procs r) (nextpid r) (initproc r) (ticks r) (rng r) (first r)
  (kernel_pagetable r) (bufs r) (bnext r) (bprev r) (f (klog r)) (ksb r) (inodes r) (files r)
  (pipes r) (kcons r) (kuart r) (pr_locking r) (panicked r) (devsw_console r) (kvdisk r) (csrs r)
  (kplic r) (started r) (kdisk r).
Definition upd_ksb (f : superblock -> superblock) (r : kernel) : kernel :=
  mk_kernel (mach r) (procs r) (nextpid r) (initproc r) (ticks r) (rng r) (first r)
  (kernel_pagetable r) (bufs r) (bnext r) (bprev r) (klog r) (f (ksb r)) (inodes r) (files r)
  (pipes r) (kcons r) (kuart r) (pr_locking r) (panicked r) (devsw_console r) (kvdisk r) (csrs r)
  (kplic r) (started r) (kdisk r).
Definition upd_inodes (f : list inode -> list inode) (r : kernel) : kernel :=
  mk_kernel (mach r) (procs r) (nextpid r) (initproc r) (ticks r) (rng r) (first r)
  (kernel_pagetable r) (bufs r) (bnext r) (bprev r) (klog r) (ksb r) (f (inodes r)) (files r)
  (pipes r) (kcons r) (kuart r) (pr_locking r) (panicked r) (devsw_console r) (kvdisk r) (csrs r)
  (kplic r) (started r) (kdisk r).
Definition upd_files (f : list file -> list file) (r : kernel) : kernel :=
  mk_kernel (mach r) (procs r) (nextpid r) (initproc r) (ticks r) (rng r) (first r)
  (kernel_pagetable r) (bufs r) (bnext r) (bprev r) (klog r) (ksb r) (inodes r) (f (files r))
  (pipes r) (kcons r) (kuart r) (pr_locking r) (panicked r) (devsw_console r) (kvdisk r) (csrs r)
  (kplic r) (started r) (kdisk r).
Definition upd_pipes (f : gmap Z pipe -> gmap Z pipe) (r : kernel) : kernel :=
  mk_kernel (mach r) (procs r) (nextpid r) (initproc r) (ticks r) (rng r) (first r)
  (kernel_pagetable r) (bufs r) (bnext r) (bprev r) (klog r) (ksb r) (inodes r) (files r) (f
  (pipes r)) (kcons r) (kuart r) (pr_locking r) (panicked r) (devsw_console r) (kvdisk r) (csrs r)
  (kplic r) (started r) (kdisk r).
Definition upd_kcons (f : console -> console) (r : kernel) : kernel :=
  mk_kernel (mach r) (procs r) (nextpid r) (initproc r) (ticks r) (rng r) (first r)
  (kernel_pagetable r) (bufs r) (bnext r) (bprev r) (klog r) (ksb r) (inodes r) (files r) (pipes
  r) (f (kcons r)) (kuart r) (pr_locking r) (panicked r) (devsw_console r) (kvdisk r) (csrs r)
  (kplic r) (started r) (kdisk r).
Definition upd_kuart (f : uart -> uart) (r : kernel) : kernel :=
  mk_kernel (mach r) (procs r) (nextpid r) (initproc r) (ticks r) (rng r) (first r)
  (kernel_pagetable r) (bufs r) (bnext r) (bprev r) (klog r) (ksb r) (inodes r) (files r) (pipes
  r) (kcons r) (f (kuart r)) (pr_locking r) (panicked r) (devsw_console r) (kvdisk r) (csrs r)
  (kplic r) (started r) (kdisk r).
Definition upd_pr_locking (f : bool -> bool) (r : kernel) : kernel :=
  mk_kernel (mach r) (procs r) (nextpid r) (initproc r) (ticks r) (rng r) (first r)
  (kernel_pagetable r) (bufs r) (bnext r) (bprev r) (klog r) (ksb r) (inodes r) (files r) (pipes
  r) (kcons r) (kuart r) (f (pr_locking r)) (panicked r) (devsw_console r) (kvdisk r) (csrs r)
  (kplic r) (started r) (kdisk r).
Definition upd_panicked (f : bool -> bool) (r : kernel) : kernel :=
  mk_kernel (mach r) (procs r) (nextpid r) (initproc r) (ticks r) (rng r) (first r)
  (kernel_pagetable r) (bufs r) (bnext r) (bprev r) (klog r) (ksb r) (inodes r) (files r) (pipes
  r) (kcons r) (kuart r) (pr_locking r) (f (panicked r)) (devsw_console r) (kvdisk r) (csrs r)
  (kplic r) (started r) (kdisk r).
Definition upd_devsw_console (f : bool -> bool) (r : kernel) : kernel :=
  mk_kernel (mach r) (procs r) (nextpid r) (initproc r) (ticks r) (rng r) (first r)
  (kernel_pagetable r) (bufs r) (bnext r) (bprev r) (klog r) (ksb r) (inodes r) (files r) (pipes
  r) (kcons r) (kuart r) (pr_locking r) (panicked r) (f (devsw_console r)) (kvdisk r) (csrs r)
  (kplic r) (started r) (kdisk r).
Definition upd_kvdisk (f : vdisk -> vdisk) (r : kernel) : kernel :=
  mk_kernel (mach r) (procs r) (nextpid r) (initproc r) (ticks r) (rng r) (first r)
  (kernel_pagetable r) (bufs r) (bnext r) (bprev r) (klog r) (ksb r) (inodes r) (files r) (pipes
  r) (kcons r) (kuart r) (pr_locking r) (panicked r) (devsw_console r) (f (kvdisk r)) (csrs r)
  (kplic r) (started r) (kdisk r).
Definition upd_csrs (f : gmap Z csr -> gmap Z csr) (r : kernel) : kernel :=
  mk_kernel (mach r) (procs r) (nextpid r) (initproc r) (ticks r) (rng r) (first r)
  (kernel_pagetable r) (bufs r) (bnext r) (bprev r) (klog r) (ksb r) (inodes r) (files r) (pipes
  r) (kcons r) (kuart r) (pr_locking r) (panicked r) (devsw_console r) (kvdisk r) (f (csrs r))
  (kplic r) (started r) (kdisk r).
Definition upd_kplic (f : plic -> plic) (r : kernel) : kernel :=
  mk_kernel (mach r) (procs r) (nextpid r) (initproc r) (ticks r) (rng r) (first r)
  (kernel_pagetable r) (bufs r) (bnext r) (bprev r) (klog r) (ksb r) (inodes r) (files r) (pipes
  r) (kcons r) (kuart r) (pr_locking r) (panicked r) (devsw_console r) (kvdisk r) (csrs r) (f
  (kplic r)) (started r) (kdisk r).
Definition upd_started (f : bool -> bool) (r : kernel) : kernel :=
  mk_kernel (mach r) (procs r) (nextpid r) (initproc r) (ticks r) (rng r) (first r)
  (kernel_pagetable r) (bufs r) (bnext r) (bprev r) (klog r) (ksb r) (inodes r) (files r) (pipes
  r) (kcons r) (kuart r) (pr_locking r) (panicked r) (devsw_console r) (kvdisk r) (csrs r) (kplic
  r) (f (started r)) (kdisk r).
Definition upd_kdisk (f : platter -> platter) (r : kernel) : kernel :=
  mk_kernel (mach r) (procs r) (nextpid r) (initproc r) (ticks r) (rng r) (first r)
  (kernel_pagetable r) (bufs r) (bnext r) (bprev r) (klog r) (ksb r) (inodes r) (files r) (pipes
  r) (kcons r) (kuart r) (pr_locking r) (panicked r) (devsw_console r) (kvdisk r) (csrs r) (kplic
  r) (started r) (f (kdisk r)).


(** Running a function of the machine layer. *)
Definition lift {A} (m : M machine A) : M kernel A := zoom mach (fun x => upd_mach (fun _ => x)) m.

Lemma upd_mach_mach k : upd_mach (fun _ => mach k) k = k.
Proof. by destruct k. Qed.

Lemma lift_eq {A} (m : M machine A) k a s :
  m (mach k) = Ret a s -> lift m k = Ret a (upd_mach (fun _ => s) k).
Proof. unfold lift, zoom. by intros ->. Qed.

Lemma wp_lift {A} (m : M machine A) Q k :
  wp m (fun a s => Q a (upd_mach (fun _ => s) k)) (mach k) -> wp (lift m) Q k.
Proof. unfold wp, lift, zoom. by destruct (m (mach k)). Qed.

(** Out of the range of a table is out of the array in C. *)
Definition idx_get {A} (what : string) (f : kernel -> list A) (i : nat) : M kernel A := fun k =>
  match f k !! i with Some x => Ret x k | None => Ub what k end.
Definition idx_upd {A} (what : string) (get : kernel -> list A)
    (upd : (list A -> list A) -> kernel -> kernel) (i : nat) (f : A -> A) : M kernel unit := fun k =>
  match get k !! i with Some x => Ret tt (upd (<[i := f x]>) k) | None => Ub what k end.
(** Element [i] of an array that is a field, [Ub] outside it. *)
Definition arr_get {S A} (what : string) (xs : list A) (i : Z) : M S A := fun s =>
  if i <? 0 then Ub what s else
  match xs !! Z.to_nat i with Some x => Ret x s | None => Ub what s end.

Definition get_proc : nat -> M kernel proc := idx_get "proc" procs.
Definition upd_proc : nat -> (proc -> proc) -> M kernel unit := idx_upd "proc" procs upd_procs.
Definition get_buf : nat -> M kernel buf := idx_get "buf" bufs.
Definition upd_buf : nat -> (buf -> buf) -> M kernel unit := idx_upd "buf" bufs upd_bufs.
Definition get_inode : nat -> M kernel inode := idx_get "inode" inodes.
Definition upd_inode : nat -> (inode -> inode) -> M kernel unit := idx_upd "inode" inodes upd_inodes.
Definition get_file : nat -> M kernel file := idx_get "file" files.
Definition upd_file : nat -> (file -> file) -> M kernel unit := idx_upd "file" files upd_files.

(** Dereferencing a pointer that may be null. *)
Definition deref {S A} (p : option A) : M S A := fun s =>
  match p with Some x => Ret x s | None => Ub "null pointer" s end.

Section idx.
Context {A : Type} (what : string) (get : kernel -> list A)
  (upd : (list A -> list A) -> kernel -> kernel).

Lemma wp_idx_get i x Q k : get k !! i = Some x -> Q x k -> wp (idx_get what get i) Q k.
Proof. unfold wp, idx_get. by intros ->. Qed.
Lemma wp_idx_upd i f x Q k :
  get k !! i = Some x -> Q tt (upd (<[i := f x]>) k) -> wp (idx_upd what get upd i f) Q k.
Proof. unfold wp, idx_upd. by intros ->. Qed.
End idx.

Definition set {A} (x : A) : A -> A := fun _ => x.
