(* ===== verification/Klock.v ===== *)
(** * Critical sections of the kernel

    [acquire] and [release] of a spinlock from a kernel function, as equations
    on the kernel's state: a matched pair leaves the machine as it found it up
    to [touch], which records the interrupt state in the hart's [intena]. *)

From S2P Require Import Prelude Riscv Memory Machine Spinlock Kernel.

Lemma touch_free s lk : free (touch s) lk <-> free s lk.
Proof. done. Qed.

Lemma ready_touch s lk : ready s lk -> ready (touch s) lk.
Proof. intros [? ?]. split; [done|by apply cpu_ok_touch]. Qed.

Lemma c_proc_touch s : c_proc (cpu_of (touch s)) = c_proc (cpu_of s).
Proof. unfold touch. by rewrite cpu_of_upd. Qed.

Lemma pop_push s : cpu_ok s -> pop_off (upd_cpu pushed_cpu s) = Ret tt (touch s).
Proof.
  intros [Hn Hs]. rewrite pop_off_eq.
  - f_equal. rewrite upd_cpu_upd. apply upd_cpu_ext. unfold popped_cpu, pushed_cpu, touch_cpu. simpl.
    f_equal; [lia|]. repeat zcase; [done|]. symmetry. rewrite Hs by lia. done.
  - by rewrite cpu_of_upd.
  - rewrite cpu_of_upd. simpl. lia.
Qed.

Lemma release_acquired lk s : free s lk -> cpu_ok s -> release lk (acquired lk s) = Ret tt (touch s).
Proof.
  intros Hf Hc. by rewrite (release_eq lk s).
Qed.

Lemma acquired_touch lk s : acquired lk (touch s) = acquired lk s.
Proof.
  unfold acquired, touch. rewrite upd_cpu_upd. f_equal. apply upd_cpu_ext.
  unfold pushed_cpu, touch_cpu. simpl. f_equal. by zcase.
Qed.

Lemma touch_acquired lk s : 0 <= noff (cpu_of s) -> touch (acquired lk s) = acquired lk s.
Proof.
  intros Hn. unfold touch, upd_cpu, acquired, set_locks, set_cpus. cbn [tp cpus locks mem freelist count].
  f_equal. unfold cpu_of at 1. cbn [tp cpus locks mem freelist count upd_cpu set_cpus]. rewrite insert_insert_eq. f_equal.
  unfold upd_cpu, set_cpus. cbn [cpus tp]. rewrite lookup_insert_eq. simpl. unfold touch_cpu, pushed_cpu. simpl. f_equal.
  zcase. done.
Qed.

Lemma cpu_ok_acquired lk s : cpu_ok s -> cpu_ok (acquired lk s).
Proof.
  intros [Hn Hs]. unfold cpu_ok. change (cpu_of (acquired lk s)) with (cpu_of (upd_cpu pushed_cpu s)).
  rewrite cpu_of_upd. simpl. lia.
Qed.

Section klock.
Context (k : kernel).

Lemma kacquire_eq lk : free (mach k) lk -> lift (acquire lk) k = Ret tt (upd_mach (acquired lk) k).
Proof. intros Hf. erewrite lift_eq by (by apply acquire_eq). done. Qed.

Lemma krelease_eq lk k1 :
  ready (mach k) lk -> mach k1 = acquired lk (mach k) ->
  lift (release lk) k1 = Ret tt (upd_mach (fun _ => touch (mach k)) k1).
Proof. intros [? ?] E. erewrite lift_eq by (rewrite E; by apply release_acquired). done. Qed.

(** A critical section whose body leaves the machine alone. *)
Lemma critical_eq {A} lk (m : M kernel A) a k1 :
  ready (mach k) lk -> m (upd_mach (acquired lk) k) = Ret a k1 -> mach k1 = acquired lk (mach k) ->
  (do! lift (acquire lk) in let! x := m in do! lift (release lk) in ret x) k =
  Ret a (upd_mach (fun _ => touch (mach k)) k1).
Proof.
  intros Hr E Em. unfold bind. rewrite kacquire_eq by apply Hr. cbn [rbind]. rewrite E. cbn [rbind].
  by rewrite krelease_eq.
Qed.
End klock.

Lemma upd_mach_upd_procs f g k : upd_mach f (upd_procs g k) = upd_procs g (upd_mach f k).
Proof. done. Qed.
Lemma upd_mach_upd_mach f g k : upd_mach f (upd_mach g k) = upd_mach (fun m => f (g m)) k.
Proof. done. Qed.
Lemma upd_procs_upd_procs f g k : upd_procs f (upd_procs g k) = upd_procs (fun ps => f (g ps)) k.
Proof. done. Qed.

(** Evaluate the projections of an updated kernel. *)
Ltac kcbn :=
  cbn [mach procs nextpid initproc ticks rng first kernel_pagetable bufs bnext bprev klog ksb inodes files pipes
       kcons kuart pr_locking panicked devsw_console kvdisk csrs kplic started kdisk
       upd_mach upd_procs upd_nextpid upd_initproc upd_ticks upd_rng upd_first upd_kernel_pagetable upd_bufs
       upd_bnext upd_bprev upd_klog upd_ksb upd_inodes upd_files upd_pipes upd_kcons upd_kuart upd_pr_locking
       upd_panicked upd_devsw_console upd_kvdisk upd_csrs upd_kplic upd_started upd_kdisk].

(** ** Passes over the process table *)

(** The table after the first [j] processes were replaced by [g]. *)
Definition upto (g : nat -> proc -> proc) (j : nat) (i : nat) (p : proc) : proc :=
  if decide (i < j)%nat then g i p else p.

Lemma upto_step (g : nat -> proc -> proc) ps j p :
  ps !! j = Some p -> <[j := g j p]> (imap (upto g j) ps) = imap (upto g (S j)) ps.
Proof.
  intros Hj. apply list_eq. intros i. rewrite list_lookup_insert, !list_lookup_imap. case_decide as Hd.
  - destruct Hd as [-> Hl]. rewrite Hj. simpl. unfold upto. by rewrite decide_True by lia.
  - destruct (ps !! i) as [q|] eqn:E; [|done]. simpl. f_equal. unfold upto.
    destruct (decide (j = i)) as [->|]; [|by repeat case_decide; try lia].
    destruct Hd. split; [done|]. rewrite length_imap. by eapply lookup_lt_Some.
Qed.

Lemma upto_all g ps n : length ps = n -> imap (upto g n) ps = imap g ps.
Proof.
  intros <-. apply imap_ext. intros i p Hi%lookup_lt_Some. unfold upto. by rewrite decide_True.
Qed.

(** A state of the pass: the machine as at the start, up to [touch]. *)
Definition touched (k st : kernel) : Prop := mach st = mach k \/ mach st = touch (mach k).

Lemma for_procs (body : nat -> M kernel unit) (g : nat -> proc -> proc) k :
  length (procs k) = NPROC ->
  (forall i p st, (i < NPROC)%nat -> procs k !! i = Some p -> procs st !! i = Some p -> touched k st -> ticks st = ticks k ->
     body i st = Ret tt (upd_procs (<[i := g i p]>) (upd_mach (fun _ => touch (mach k)) st))) ->
  for_all (seq 0 NPROC) body k = Ret tt (upd_procs (imap g) (upd_mach touch k)).
Proof.
  intros Hlen Hb.
  enough (Hwp : wp (for_all (seq 0 NPROC) body) (fun _ st => st = upd_procs (imap g) (upd_mach touch k)) k).
  { by apply wp_inv in Hwp as ([] & ? & -> & ->). }
  apply (wp_for_all body (fun xs st => exists j, xs = seq j (NPROC - j) /\ (j <= NPROC)%nat /\
     ((j = 0%nat /\ st = k) \/ (0 < j)%nat /\ st = upd_procs (imap (upto g j)) (upd_mach touch k)))).
  - intros x xs st (j & Exs & Hj & Hst). destruct (decide (j = NPROC)) as [->|Hne]; [by rewrite Nat.sub_diag in Exs|].
    replace (NPROC - j)%nat with (S (NPROC - S j)) in Exs by lia. injection Exs as -> ->.
    destruct (lookup_lt_is_Some_2 (procs k) j) as [p Hp]; [lia|].
    assert (Hcase : procs st !! j = Some p /\ touched k st /\ ticks st = ticks k /\
      upd_procs (<[j := g j p]>) (upd_mach (fun _ => touch (mach k)) st) = upd_procs (imap (upto g (S j))) (upd_mach touch k)).
    { destruct Hst as [[-> ->]|[Hpos ->]].
      - split_and!; [done|by left|done|]. unfold upd_procs. kcbn. f_equal. rewrite <- (upto_step g _ 0 p) by done. f_equal.
        symmetry. etransitivity; [|apply list_fmap_id]. rewrite <- (imap_const id). apply imap_ext. intros i q _.
        unfold upto. by rewrite decide_False by lia.
      - split_and!; [|by right|done|].
        + kcbn. rewrite list_lookup_imap, Hp. simpl. unfold upto. by rewrite decide_False by lia.
        + unfold upd_procs. kcbn. f_equal. by apply upto_step. }
    destruct Hcase as (Hp' & Ht & Htk & Est). eapply wp_eq; [apply Hb; [lia|done..]|]. exists (S j). split_and!; [done|lia|].
    right. split; [lia|done].
  - intros st (j & Exs & Hj & Hst). destruct (decide (j = NPROC)) as [->|Hne].
    + destruct Hst as [[? _]|[_ ->]]; [done|]. unfold upd_procs. kcbn. f_equal. by apply upto_all.
    + replace (NPROC - j)%nat with (S (NPROC - S j)) in Exs by lia. done.
  - exists 0%nat. split_and!; [done|lia|by left].
Qed.
