(* ===== verification/KSample.v ===== *)
(** * A kernel at rest

    The static data of the kernel as the loader leaves it, with every
    spinlock free: the starting point of the sample runs. *)

From S2P Require Import Prelude Riscv Memory Machine Spinlock Kernel.

Definition all_locks : list lockid :=
  [LkKmem; LkPid; LkWait; LkTicks; LkBcache; LkLog; LkItable; LkFtable; LkCons; LkUart; LkPr; LkVdisk]
  ++ (LkProc <$> seq 0 NPROC) ++ (LkBuf <$> seq 0 NBUF) ++ (LkInode <$> seq 0 NINODE).

(** One hart, interrupts on, running no process. *)
Definition machine_bss : machine :=
  mk_machine 0 {[0 := mk_cpu None 0 false true]} (list_to_map ((fun l => (l, unlocked)) <$> all_locks)) ∅ 0 ∅.

Definition kernel_bss : kernel :=
  mk_kernel machine_bss (replicate NPROC proc0) 1 None 0 (12345, 12345, 12345, 12345) true 0
    (replicate NBUF (mk_buf false false 0 0 sleeplock0 0 (replicate 1024 0)))
    (replicate (S NBUF) 0%nat) (replicate (S NBUF) 0%nat)
    (mk_log 0 0 0 false 0 (mk_logheader 0 (replicate (Z.to_nat LOGSIZE) 0)))
    (mk_superblock 0 0 0 0 0 0 0 0)
    (replicate NINODE (mk_inode 0 0 0 sleeplock0 false 0 0 0 0 0 (replicate 13 0)))
    (replicate NFILE (mk_file FD_NONE 0 false false 0 None 0 0)) ∅
    (mk_console (replicate 128 0) 0 0 0)
    (mk_uart (replicate 32 0) 0 0 [] 0 (fun _ => true) [] ∅)
    false false false
    (mk_vdisk 0 0 0 (replicate 8 false) 0 (replicate 8 (mk_vinfo None 0)) (replicate 8 (mk_vop 0 0 0)) ∅)
    ∅ (mk_plic [] ∅) false (mk_platter (fun _ => replicate 1024 0) []).

(** A process in the table, running on the hart or not. *)
Definition a_proc (pid : Z) (st : procstate) (chan : channel) (ctime : Z) : proc :=
  upd_p_creationTime (set ctime) (upd_p_chan (set chan) (upd_p_pid (set pid) (upd_p_state (set st) proc0))).

Lemma bss_free lk : lk ∈ all_locks -> free machine_bss lk.
Proof.
  intros Hin. unfold free, machine_bss. cbn [locks]. apply elem_of_list_to_map_1'.
  - intros y. rewrite list_elem_of_fmap. by intros (x & [= _ ->] & _).
  - apply list_elem_of_fmap. eauto.
Qed.
