(* ===== verification/Cstring.v ===== *)
(** * C strings ([kernel/string.c])

    A [char *] is the list of the bytes it points to, up to the end of its
    object; reading past that end is [None]. [memset], [memmove] and
    [memcpy] work on the machine's memory and are in [Machine]; here are the
    functions on strings, each with what it leaves in its destination. *)

From S2P Require Import Prelude Memory.
From Stdlib Require Import Ascii.

(** The bytes of a string literal, without its NUL. *)
Definition byte_of (c : ascii) : Z := Z.of_N (N_of_ascii c).
Fixpoint bytes_of (s : string) : list Z :=
  match s with
  | EmptyString => []
  | String c s' => byte_of c :: bytes_of s'
  end.

(** [memcmp]; bytes are [uchar]. *)
Fixpoint memcmp (s1 s2 : list Z) (n : nat) {struct n} : option Z :=
  match n with
  | O => Some 0
  | S n' =>
      match s1, s2 with
      | a :: s1', b :: s2' => if negb (a =? b) then Some (a - b) else memcmp s1' s2' n'
      | _, _ => None
      end
  end.

Fixpoint strncmp (p q : list Z) (n : nat) {struct n} : option Z :=
  match n with
  | O => Some 0
  | S n' =>
      match p, q with
      | a :: p', b :: q' =>
          if nz a && (a =? b) then strncmp p' q' n' else Some (u8 a - u8 b)
      | _, _ => None
      end
  end.

(** The [n] bytes [strncpy] writes: the string, padded with NUL. *)
Fixpoint strncpy (t : list Z) (n : nat) {struct n} : option (list Z) :=
  match n with
  | O => Some []
  | S n' =>
      match t with
      | [] => None
      | c :: t' =>
          if c =? 0 then Some (replicate n 0)
          else match strncpy t' n' with Some r => Some (c :: r) | None => None end
      end
  end.

(** The bytes [safestrcpy] writes at [s]; it stores a NUL after the last one
    copied, also when that one is a NUL. *)
Fixpoint safestrcpy_loop (t : list Z) (n : nat) {struct n} : option (list Z) :=
  match n with
  | O => Some [0]
  | S n' =>
      match t with
      | [] => None
      | c :: t' =>
          if c =? 0 then Some [0; 0]
          else match safestrcpy_loop t' n' with Some r => Some (c :: r) | None => None end
      end
  end.
(** The destination [s] afterwards. *)
Definition safestrcpy (s t : list Z) (n : Z) : option (list Z) :=
  if n <=? 0 then Some s else
  match safestrcpy_loop t (Z.to_nat (n - 1)) with
  | Some w => if (length w <=? length s)%nat then Some (w ++ drop (length w) s) else None
  | None => None
  end.

Fixpoint strlen (s : list Z) : option Z :=
  match s with
  | [] => None
  | c :: s' => if c =? 0 then Some 0 else match strlen s' with Some n => Some (n + 1) | None => None end
  end.

(** The characters before the first NUL. *)
Fixpoint cstr (s : list Z) : list Z :=
  match s with
  | [] => []
  | c :: s' => if c =? 0 then [] else c :: cstr s'
  end.

Lemma strlen_cstr s n : strlen s = Some n -> n = Z.of_nat (length (cstr s)) /\ 0 ∈ s.
Proof.
  revert n. induction s as [|c s IH]; intros n; simpl; [done|].
  destruct (Z.eqb_spec c 0) as [->|Hc]; [intros [= <-]; split; [done|left]|].
  destruct (strlen s) as [k|]; [|done]. intros [= <-]. destruct (IH k eq_refl) as [-> ?].
  simpl. split; [lia|by right].
Qed.

Lemma strlen_total s : 0 ∈ s -> exists n, strlen s = Some n.
Proof.
  induction s as [|c s IH]; [set_solver|]. intros H. simpl. destruct (Z.eqb_spec c 0); [eauto|].
  destruct IH as [k ->]; [set_solver|]. eauto.
Qed.

Lemma cstr_nonzero s : Forall (fun c => c <> 0) (cstr s).
Proof. induction s as [|c s IH]; simpl; [done|]. destruct (Z.eqb_spec c 0); [done|]. by constructor. Qed.

(** [strncmp] is 0 exactly on strings equal up to [n] characters. *)
Lemma strncmp_eq p q n r :
  Forall (fun c => 0 <= c < 256) p -> Forall (fun c => 0 <= c < 256) q ->
  strncmp p q n = Some r -> (r = 0 <-> take n (cstr p) = take n (cstr q)).
Proof.
  intros Hp Hq. revert p q r Hp Hq. induction n as [|n IH]; intros [|a p] [|b q] r Hp Hq; simpl;
    try (by intros [= <-]); try done.
  inversion Hp as [|?? Ha Hp1]; inversion Hq as [|?? Hb Hq1]; subst. unfold nz.
  destruct (Z.eqb_spec a 0) as [->|Hn]; simpl.
  - intros [= <-]. rewrite (u8_small b), u8_small by lia.
    destruct (Z.eqb_spec b 0) as [->|]; [done|]. split; [lia|done].
  - destruct (Z.eqb_spec a b) as [->|Hne].
    + intros Hr. destruct (Z.eqb_spec b 0); [done|]. rewrite (IH p q r) by done.
      simpl. split; [by intros ->|congruence].
    + intros [= <-]. rewrite !u8_small by lia. split; [lia|].
      destruct (Z.eqb_spec b 0); [done|]. simpl. congruence.
Qed.

(** [strncpy] stores the first [n] characters, padded with NUL to [n]. *)
Lemma strncpy_spec t n w :
  strncpy t n = Some w -> w = take n (cstr t) ++ replicate (n - length (take n (cstr t))) 0.
Proof.
  revert t w. induction n as [|n IH]; intros t w; [by intros [= <-]|]; simpl.
  destruct t as [|c t]; [done|]. simpl. destruct (Z.eqb_spec c 0) as [->|Hc]; [by intros [= <-]|].
  destruct (strncpy t n) as [r|] eqn:E; [|done]. intros [= <-]. simpl. f_equal. auto.
Qed.

Lemma safestrcpy_loop_spec t n w :
  safestrcpy_loop t n = Some w ->
  (length w <= S n)%nat /\ cstr w = take n (cstr t) /\ exists z, w = take n (cstr t) ++ 0 :: z.
Proof.
  revert t w. induction n as [|n IH]; intros t w; simpl.
  - intros [= <-]. split_and!; [done..|]. by exists [].
  - destruct t as [|c t]; [done|]. simpl. destruct (Z.eqb_spec c 0) as [->|Hc].
    + intros [= <-]. split_and!; [simpl; lia|done|]. by exists [0].
    + destruct (safestrcpy_loop t n) as [r|] eqn:E; [|done]. intros [= <-].
      destruct (IH t r E) as (Hl & Hs & z & Hz). simpl. rewrite Hs.
      destruct (Z.eqb_spec c 0); [done|]. split_and!; [lia|done|]. exists z. simpl. by rewrite Hz.
Qed.

Lemma cstr_app s z : Forall (fun c => c <> 0) s -> cstr (s ++ 0 :: z) = s.
Proof.
  induction 1 as [|c s Hc _ IH]; simpl; [done|]. destruct (Z.eqb_spec c 0); [done|]. by rewrite IH.
Qed.

Lemma cstr_Forall (P : Z -> Prop) n s : Forall P (cstr s) -> Forall P (take n (cstr s)).
Proof. apply Forall_take. Qed.
