(* ===== verification/Printf.v ===== *)
(** * Formatted output ([kernel/printf.c], [consputc] of [kernel/console.c],
    [uartputc_sync] of [kernel/uart.c])

    [printf] sends its characters one at a time to the UART, waiting each
    time for the transmitter; [u_out] records the bytes sent. *)

From S2P Require Import Prelude Riscv Memory Machine Spinlock Kernel Cstring.
From Stdlib Require Import Ascii.

(** ** The UART, polled *)

Definition LSR_RX_READY : Z := Z.shiftl 1 0.
Definition LSR_TX_IDLE : Z := Z.shiftl 1 5.

(** [ReadReg(LSR)] *)
Definition read_lsr : M kernel Z := fun k =>
  let u := kuart k in
  let v := Z.lor (if u_rx u then 0 else LSR_RX_READY) (if u_idle u (u_clock u) then LSR_TX_IDLE else 0) in
  Ret v (upd_kuart (upd_u_clock S) k).
(** [WriteReg(THR, c)] *)
Definition write_thr (c : Z) : M kernel unit :=
  modify (upd_kuart (upd_u_out (fun out => out ++ [u8 c]))).

(** [for(;;) ;] *)
Definition spin {A} : M kernel A := fun k => Spin k.

Definition uartputc_sync (c : Z) : M kernel unit :=
  do! lift push_off in
  let! p := gets panicked in
  if p : bool then spin else
  do! while (fun _ : unit =>
    let! v := read_lsr in
    if negb (bit v LSR_TX_IDLE) then ret (inl tt) else ret (inr tt)) tt in
  do! write_thr c in
  lift pop_off.

Definition BACKSPACE : Z := 0x100.

Definition consputc (c : Z) : M kernel unit :=
  if c =? BACKSPACE then
    do! uartputc_sync 8 in
    do! uartputc_sync 32 in
    uartputc_sync 8
  else uartputc_sync c.

(** ** Numbers *)

Definition digits : list Z := bytes_of "0123456789abcdef".
Definition digit (d : Z) : Z := default 0 (digits !! Z.to_nat d).

(** [do { buf[i++] = digits[x % base]; } while((x /= base) != 0);]: the
    digits, least significant first. [fuel] bounds the length of [buf[16]]. *)
Fixpoint int_digits (fuel : nat) (x base : Z) : list Z :=
  match fuel with
  | O => []
  | S fuel' =>
      let x' := x / base in
      digit (x mod base) :: (if negb (x' =? 0) then int_digits fuel' x' base else [])
  end.

(** The characters [printint] sends, in order. A 32-bit number has at most 32
    digits in any base. *)
Definition int_chars (xx base : Z) (sign : bool) : list Z :=
  let neg := sign && (xx <? 0) in
  let x := u32 (if neg then - xx else xx) in
  rev (int_digits 32 x base ++ (if neg then [45] else [])).

Definition printint (xx base : Z) (sign : bool) : M kernel unit :=
  for_all (int_chars xx base sign) consputc.

(** [for (i = 0; i < 16; i++, x <<= 4) consputc(digits[x >> 60]);] *)
Fixpoint ptr_digits (n : nat) (x : Z) : list Z :=
  match n with
  | O => []
  | S n' => digit (Z.shiftr x 60) :: ptr_digits n' (u64 (Z.shiftl x 4))
  end.
Definition ptr_chars (x : Z) : list Z := [48; 120] ++ ptr_digits 16 x.
Definition printptr (x : Z) : M kernel unit := for_all (ptr_chars x) consputc.

(** ** printf *)

(** A variable argument; a string is the bytes before its NUL. *)
Inductive varg := AInt (n : Z) | APtr (x : Z) | AStr (s : option (list Z)).

Fixpoint printf_loop (fmt : list Z) (ap : list varg) : M kernel unit :=
  match fmt with
  | [] => ret tt
  | c :: fmt' =>
      if c =? 0 then ret tt else
      if negb (c =? 37) then do! consputc c in printf_loop fmt' ap else
      match fmt' with
      | [] => ret tt
      | c :: fmt'' =>
          if c =? 0 then ret tt else
          if c =? 100 then
            match ap with
            | AInt n :: ap' => do! printint n 10 true in printf_loop fmt'' ap'
            | _ => undef "va_arg"
            end
          else if c =? 120 then
            match ap with
            | AInt n :: ap' => do! printint n 16 true in printf_loop fmt'' ap'
            | _ => undef "va_arg"
            end
          else if c =? 112 then
            match ap with
            | APtr x :: ap' => do! printptr x in printf_loop fmt'' ap'
            | _ => undef "va_arg"
            end
          else if c =? 115 then
            match ap with
            | AStr s :: ap' =>
                do! for_all (default (bytes_of "(null)") s) consputc in printf_loop fmt'' ap'
            | _ => undef "va_arg"
            end
          else if c =? 37 then do! consputc 37 in printf_loop fmt'' ap
          else do! consputc 37 in do! consputc c in printf_loop fmt'' ap
      end
  end.

Definition printf (fmt : string) (ap : list varg) : M kernel unit :=
  let! locking := gets pr_locking in
  do! when locking (lift (acquire LkPr)) in
  do! printf_loop (bytes_of fmt) ap in
  when locking (lift (release LkPr)).

(** The body of [panic]. Calls of it are the outcome [Panic] of the model. *)
Definition panic_body (s : string) : M kernel unit :=
  do! modify (upd_pr_locking (set false)) in
  do! printf "panic: " [] in
  do! printf s [] in
  do! printf (String (ascii_of_nat 10) EmptyString) [] in
  do! modify (upd_panicked (set true)) in
  spin.

Definition printfinit : M kernel unit :=
  do! lift (initlock LkPr) in
  modify (upd_pr_locking (set true)).
(** A line of output. *)
Definition nl : string := String (ascii_of_nat 10) EmptyString.
