(* ===== verification/Proc.v ===== *)
(** * Processes ([kernel/proc.c])

    The process table and its operations up to the ones that need the file
    system ([fork], [exit], [userinit], [forkret] are in [ProcFs]). The
    scheduler loops are in [Sched]. [#ifdef]s on the scheduling policy are
    tests of [policy]. *)

From S2P Require Import Prelude Riscv Memory Machine Spinlock Kalloc Vm Kernel Cstring Printf.

Inductive scheduler_policy := DEFAULT | LBS | FCFS | PBS | MLFQ.
#[export] Instance scheduler_policy_eq_dec : EqDecision scheduler_policy.
Proof. solve_decision. Defined.

(** The policy the kernel was compiled for, [-D$(SCHEDULER)]. *)
Class Config := { policy : scheduler_policy }.
Definition ifdef {C : Config} (p : scheduler_policy) : bool := bool_decide (policy = p).

Section proc.
Context {KI : KernelImage} {C : Config}.

Definition all_procs : list nat := seq 0 NPROC.

(** ** The scheduler's helpers *)

(** [int] operations that overflow wrap around. *)
Definition random_lbs (max : Z) : M kernel Z :=
  if max <=? 0 then ret 1 else
  let! z := gets rng in
  let '(z1, z2, z3, z4) := z in
  let b := Z.shiftr (Z.lxor (s32 (Z.shiftl z1 6)) z1) 13 in
  let z1 := s32 (Z.lxor (Z.shiftl (Z.land z1 4294967294) 18) b) in
  let b := Z.shiftr (Z.lxor (s32 (Z.shiftl z2 2)) z2) 27 in
  let z2 := s32 (Z.lxor (Z.shiftl (Z.land z2 4294967288) 2) b) in
  let b := Z.shiftr (Z.lxor (s32 (Z.shiftl z3 13)) z3) 21 in
  let z3 := s32 (Z.lxor (Z.shiftl (Z.land z3 4294967280) 7) b) in
  let b := Z.shiftr (Z.lxor (s32 (Z.shiftl z4 3)) z4) 12 in
  let z4 := s32 (Z.lxor (Z.shiftl (Z.land z4 4294967168) 13) b) in
  do! modify (upd_rng (set (z1, z2, z3, z4))) in
  let rand := Z.rem (Z.lxor (Z.lxor (Z.lxor z1 z2) z3) z4) max in
  ret (if rand <? 0 then s32 (rand * -1) else rand).

(** [unsigned] division; by zero it is undefined. *)
Definition udiv {S} (a b : Z) : M S Z := if b =? 0 then undef "division by zero" else ret (a / b).

Definition calculateDynamicPriority (i : nat) : M kernel Z :=
  do! upd_proc i (upd_p_niceness (set 5)) in
  let! process := get_proc i in
  do! (if p_runTimePrev process =? 0 then
         if p_sleepTimePrev process =? 0 then
           do! upd_proc i (upd_p_niceness (set (u32 (p_sleepTimePrev process * 10)))) in
           let! process := get_proc i in
           let! q := udiv (p_niceness process)
                          (u32 (p_runTimePrev process + p_sleepTimePrev process)) in
           upd_proc i (upd_p_niceness (set q))
         else ret tt
       else ret tt) in
  let! process := get_proc i in
  let checker := s32 (p_sprior process - p_niceness process + 5) in
  ret (if 100 <? checker then 100 else if checker <? 0 then 0 else checker).

Definition set_priority (static_prior pid : Z) : M kernel Z :=
  if (static_prior <? 0) || (100 <? static_prior) then
    do! printf ("Priority is not right" ++ nl) [] in ret (-1)
  else
  let! r := for_each all_procs tt (fun i _ =>
    do! lift (acquire (LkProc i)) in
    let! p := get_proc i in
    if p_pid p =? pid then
      do! lift (release (LkProc i)) in ret (inr i)
    else
      do! lift (release (LkProc i)) in ret (inl tt)) in
  match r with
  | inr i =>
      do! lift (acquire (LkProc i)) in
      let! p := get_proc i in
      let old_prior := s32 (p_sprior p) in
      do! upd_proc i (upd_p_sprior (set static_prior)) in
      do! upd_proc i (upd_p_niceness (set 5)) in
      let! d := calculateDynamicPriority i in
      do! upd_proc i (upd_p_dprior (set d)) in
      do! lift (release (LkProc i)) in
      ret old_prior
  | inl _ => ret (-1)
  end.

(** ** The process table *)

Definition procinit : M kernel unit :=
  do! lift (initlock LkPid) in
  do! lift (initlock LkWait) in
  for_all all_procs (fun i =>
    do! lift (initlock (LkProc i)) in
    do! upd_proc i (upd_p_state (set UNUSED)) in
    upd_proc i (upd_p_kstack (set (KSTACK (Z.of_nat i))))).

Definition myproc : M kernel (option nat) :=
  do! lift push_off in
  let! c := lift mycpu in
  do! lift pop_off in
  ret (c_proc c).
(** [struct proc *p = myproc();] where the code goes on to use [*p]. *)
Definition myproc1 : M kernel nat := let! p := myproc in deref p.

Definition allocpid : M kernel Z :=
  do! lift (acquire LkPid) in
  let! pid := gets nextpid in
  do! modify (upd_nextpid (fun n => s32 (n + 1))) in
  do! lift (release LkPid) in
  ret pid.

Definition proc_freepagetable (pagetable sz : Z) : M machine unit :=
  do! uvmunmap pagetable TRAMPOLINE 1 false in
  do! uvmunmap pagetable TRAPFRAME 1 false in
  uvmfree pagetable sz.

Definition proc_pagetable (i : nat) : M kernel Z :=
  let! pagetable := lift uvmcreate in
  if pagetable =? 0 then ret 0 else
  let! r := lift (mappages pagetable TRAMPOLINE PGSIZE trampoline (Z.lor PTE_R PTE_X)) in
  if r <? 0 then do! lift (uvmfree pagetable 0) in ret 0 else
  let! p := get_proc i in
  let! r := lift (mappages pagetable TRAPFRAME PGSIZE (p_trapframe p) (Z.lor PTE_R PTE_W)) in
  if r <? 0 then
    do! lift (uvmunmap pagetable TRAMPOLINE 1 false) in
    do! lift (uvmfree pagetable 0) in ret 0
  else ret pagetable.

Definition freeproc (i : nat) : M kernel unit :=
  let! p := get_proc i in
  do! when (nz (p_trapframe p)) (lift (kfree (p_trapframe p))) in
  do! upd_proc i (upd_p_trapframe (set 0)) in
  do! when (nz (p_pagetable p)) (lift (proc_freepagetable (p_pagetable p) (p_sz p))) in
  do! upd_proc i (fun p =>
    upd_p_state (set UNUSED) (upd_p_xstate (set 0) (upd_p_killed (set 0) (upd_p_chan (set ChNone)
      (upd_p_name (<[0%nat := 0]>) (upd_p_parent (set None) (upd_p_pid (set 0)
        (upd_p_sz (set 0) (upd_p_pagetable (set 0) p))))))))) in
  ret tt.

(** The initialisation of a slot just found, before its memory. *)
Definition init_slot (pid now : Z) (p : proc) : proc :=
  let p := upd_p_state (set USED) (upd_p_pid (set pid) p) in
  let p := upd_p_time_avail (set 1) (upd_p_time_spent (set 0) (upd_p_tickets (set 1) p)) in
  let p := if ifdef MLFQ then
             upd_p_queue_ticks (set (replicate 5 0)) (upd_p_ticks_elapsed (set 0)
               (upd_p_ass_ticks (set 1) (upd_p_priority_level (set 0) p)))
           else p in
  upd_p_sleepStartTime (set 0) (upd_p_sleepTimePrev (set 0) (upd_p_runTimePrev (set 0)
    (upd_p_endTime (set 0) (upd_p_runTime (set 0) (upd_p_niceness (set 5)
      (upd_p_sprior (set 60) (upd_p_creationTime (set now) p))))))).

Definition allocproc : M kernel (option nat) :=
  let! r := for_each all_procs tt (fun i _ =>
    do! lift (acquire (LkProc i)) in
    let! p := get_proc i in
    if bool_decide (p_state p = UNUSED) then ret (inr i)
    else do! lift (release (LkProc i)) in ret (inl tt)) in
  match r with
  | inl _ => ret None
  | inr i =>
      let! pid := allocpid in
      let! now := gets ticks in
      do! upd_proc i (init_slot pid now) in
      let! tf := lift kalloc in
      do! upd_proc i (upd_p_trapframe (set tf)) in
      if tf =? 0 then
        do! freeproc i in
        do! lift (release (LkProc i)) in ret None
      else
      let! pt := proc_pagetable i in
      do! upd_proc i (upd_p_pagetable (set pt)) in
      if pt =? 0 then
        do! freeproc i in
        do! lift (release (LkProc i)) in ret None
      else
      do! upd_proc i (fun p => upd_p_context (set (CtxForkret (p_kstack p + PGSIZE))) p) in
      ret (Some i)
  end.

Definition growproc (n : Z) : M kernel Z :=
  let! i := myproc1 in
  let! p := get_proc i in
  let sz := p_sz p in
  if 0 <? n then
    let! sz' := lift (uvmalloc (p_pagetable p) sz (u64 (sz + n)) PTE_W) in
    if sz' =? 0 then ret (-1) else
    do! upd_proc i (upd_p_sz (set sz')) in ret 0
  else if n <? 0 then
    let! sz' := lift (uvmdealloc (p_pagetable p) sz (u64 (sz + n))) in
    do! upd_proc i (upd_p_sz (set sz')) in ret 0
  else
    do! upd_proc i (upd_p_sz (set sz)) in ret 0.

(** ** Giving up the CPU *)

(** [swtch]: the registers of this thread are saved, and the rest of it is
    what runs when the scheduler resumes it, perhaps on another hart. *)
Definition sched : M kernel unit :=
  let! i := myproc1 in
  let! h := lift (holding (LkProc i)) in
  if negb h then panic "sched p->lock" else
  let! c := lift mycpu in
  if negb (noff c =? 1) then panic "sched locks" else
  let! p := get_proc i in
  if bool_decide (p_state p = RUNNING) then panic "sched running" else
  let! on := lift intr_get in
  if on : bool then panic "sched interruptible" else
  let! c := lift mycpu in
  do! upd_proc i (upd_p_context (set CtxSaved)) in
  do! swtch_away in
  lift (set_mycpu (with_intena (intena c))).

Definition yield : M kernel unit :=
  let! i := myproc1 in
  do! lift (acquire (LkProc i)) in
  do! upd_proc i (upd_p_state (set RUNNABLE)) in
  do! sched in
  lift (release (LkProc i)).

Definition sleep (chan : channel) (lk : lockid) : M kernel unit :=
  let! i := myproc1 in
  do! lift (acquire (LkProc i)) in
  do! lift (release lk) in
  do! upd_proc i (upd_p_chan (set chan)) in
  do! upd_proc i (upd_p_state (set SLEEPING)) in
  do! sched in
  do! upd_proc i (upd_p_chan (set ChNone)) in
  do! lift (release (LkProc i)) in
  lift (acquire lk).

(** The change [wakeup] makes to a sleeper. *)
Definition woken (now : Z) (p : proc) : proc :=
  let p := upd_p_state (set RUNNABLE) p in
  let p := if ifdef LBS then upd_p_time_spent (set 0) p else p in
  let p := if negb (p_sleepStartTime p =? 0) then
             let p := upd_p_sleepTimePrev (set (u32 (now - p_sleepStartTime p))) p in
             upd_p_totalSleep (fun t => u32 (t + p_sleepTimePrev p)) p
           else p in
  if ifdef MLFQ then upd_p_ticks_elapsed (set 0) p else p.

Definition wakeup (chan : channel) : M kernel unit :=
  for_all all_procs (fun i =>
    let! me := myproc in
    if bool_decide (me = Some i) then ret tt else
    do! lift (acquire (LkProc i)) in
    let! p := get_proc i in
    do! when (bool_decide (p_state p = SLEEPING) && bool_decide (p_chan p = chan))
          (let! now := gets ticks in upd_proc i (woken now)) in
    lift (release (LkProc i))).

(** The change [kill] makes to its victim. *)
Definition kill_victim (now : Z) (p : proc) : proc :=
  let p := upd_p_killed (set 1) p in
  if bool_decide (p_state p = SLEEPING) then
    let p := if ifdef LBS then upd_p_time_spent (set 0) p else p in
    let p := upd_p_sleepTimePrev (set (u32 (now - p_sleepStartTime p))) p in
    let p := upd_p_state (set RUNNABLE) p in
    if ifdef MLFQ then upd_p_ticks_elapsed (set 0) p else p
  else p.

Definition kill (pid : Z) : M kernel Z :=
  let! r := for_each all_procs tt (fun i _ =>
    do! lift (acquire (LkProc i)) in
    let! p := get_proc i in
    if p_pid p =? pid then
      let! now := gets ticks in
      do! upd_proc i (kill_victim now) in
      do! lift (release (LkProc i)) in
      ret (inr 0)
    else
      do! lift (release (LkProc i)) in
      ret (inl tt)) in
  match r with inr x => ret x | inl _ => ret (-1) end.

Definition setkilled (i : nat) : M kernel unit :=
  do! lift (acquire (LkProc i)) in
  do! upd_proc i (upd_p_killed (set 1)) in
  lift (release (LkProc i)).

Definition killed (i : nat) : M kernel Z :=
  do! lift (acquire (LkProc i)) in
  let! p := get_proc i in
  do! lift (release (LkProc i)) in
  ret (p_killed p).

(** ** Parents and children *)

Definition reparent (i : nat) : M kernel unit :=
  for_all all_procs (fun j =>
    let! pp := get_proc j in
    when (bool_decide (p_parent pp = Some i))
      (let! init := gets initproc in
       do! upd_proc j (upd_p_parent (set init)) in
       let! init := deref init in
       wakeup (ChProc init))).

(** The [n] bytes of an integer, least significant first. *)
Fixpoint le_bytes (n : nat) (v : Z) : list Z :=
  match n with O => [] | S n' => u8 v :: le_bytes n' (v / 256) end.

(** The scan of [wait]: [inl havekids] when no child has exited. *)
Definition wait_scan (i : nat) (pagetable addr : Z) : M kernel (bool + Z) :=
  for_each all_procs false (fun j havekids =>
    let! pp := get_proc j in
    if bool_decide (p_parent pp = Some i) then
      do! lift (acquire (LkProc j)) in
      let! pp := get_proc j in
      if bool_decide (p_state pp = ZOMBIE) then
        let pid := p_pid pp in
        let! bad := (if negb (addr =? 0) then
                       let! r := lift (copyout pagetable addr (le_bytes 4 (p_xstate pp))) in
                       ret (r <? 0)
                     else ret false) in
        if bad : bool then
          do! lift (release (LkProc j)) in
          do! lift (release LkWait) in
          ret (inr (-1))
        else
          do! freeproc j in
          do! lift (release (LkProc j)) in
          do! lift (release LkWait) in
          let! now := gets ticks in
          do! upd_proc j (upd_p_endTime (set now)) in
          ret (inr pid)
      else
        do! lift (release (LkProc j)) in
        ret (inl true)
    else ret (inl havekids)).

Definition wait (addr : Z) : M kernel Z :=
  let! i := myproc1 in
  do! lift (acquire LkWait) in
  while (fun _ : unit =>
    let! p := get_proc i in
    let! r := wait_scan i (p_pagetable p) addr in
    match r with
    | inr pid => ret (inr pid)
    | inl havekids =>
        let! p := get_proc i in
        if negb havekids || nz (p_killed p) then
          do! lift (release LkWait) in ret (inr (-1))
        else
          do! sleep (ChProc i) LkWait in ret (inl tt)
    end) tt.

(** [waitx], with what it leaves in [*wtime] and [*rtime]. *)
Definition waitx_scan (i : nat) (pagetable addr wtime rtime : Z) : M kernel (bool * Z * Z + Z * Z * Z) :=
  for_each all_procs (false, wtime, rtime) (fun j acc =>
    let '(havekids, wtime, rtime) := acc in
    let! np := get_proc j in
    if bool_decide (p_parent np = Some i) then
      do! lift (acquire (LkProc j)) in
      let! np := get_proc j in
      if bool_decide (p_state np = ZOMBIE) then
        let pid := p_pid np in
        let rtime := p_runTime np in
        let wtime := u32 (p_endTime np - p_creationTime np - p_runTime np) in
        let! bad := (if negb (addr =? 0) then
                       let! r := lift (copyout pagetable addr (le_bytes 4 (p_xstate np))) in
                       ret (r <? 0)
                     else ret false) in
        if bad : bool then
          do! lift (release (LkProc j)) in
          do! lift (release LkWait) in
          ret (inr (-1, wtime, rtime))
        else
          do! freeproc j in
          do! lift (release (LkProc j)) in
          do! lift (release LkWait) in
          ret (inr (pid, wtime, rtime))
      else
        do! lift (release (LkProc j)) in
        ret (inl (true, wtime, rtime))
    else ret (inl (havekids, wtime, rtime))).

Definition waitx (addr wtime rtime : Z) : M kernel (Z * Z * Z) :=
  let! i := myproc1 in
  do! lift (acquire LkWait) in
  while (fun wr : Z * Z =>
    let '(wtime, rtime) := wr in
    let! p := get_proc i in
    let! r := waitx_scan i (p_pagetable p) addr wtime rtime in
    match r with
    | inr res => ret (inr res)
    | inl (havekids, wtime, rtime) =>
        let! p := get_proc i in
        if negb havekids || nz (p_killed p) then
          do! lift (release LkWait) in ret (inr (-1, wtime, rtime))
        else
          do! sleep (ChProc i) LkWait in ret (inl (wtime, rtime))
    end) (wtime, rtime).

(** ** Accounting *)

Definition ticked (p : proc) : proc :=
  let p := upd_p_runTimePrev (fun t => u32 (t + 1)) (upd_p_runTime (fun t => u32 (t + 1)) p) in
  let p := if ifdef LBS then upd_p_time_spent (fun t => s32 (t + 1)) p else p in
  if ifdef MLFQ then
    upd_p_wait_time (fun t => s32 (t + 1))
      (upd_p_queue_ticks (alter (fun t => s32 (t + 1)) (Z.to_nat (p_priority_level p))) p)
  else p.

Definition upd_time : M kernel unit :=
  for_all all_procs (fun i =>
    do! lift (acquire (LkProc i)) in
    let! p := get_proc i in
    do! when (bool_decide (p_state p = RUNNING))
          (if ifdef MLFQ && negb ((0 <=? p_priority_level p) && (p_priority_level p <? 5))
           then undef "queue_ticks" else upd_proc i ticked) in
    lift (release (LkProc i))).

Definition AGE : Z := 36.

Definition aged (p : proc) : proc :=
  if (bool_decide (p_state p = SLEEPING) || bool_decide (p_state p = RUNNABLE)) &&
     (AGE <? p_wait_time p) && negb (p_priority_level p =? 0)
  then upd_p_ass_ticks (fun t => Z.quot t 2)
         (upd_p_priority_level (fun l => s32 (l - 1)) (upd_p_wait_time (set 0) p))
  else p.

Definition aging_check : M kernel unit := for_all all_procs (fun i => upd_proc i aged).

(** ** Copying to and from a user or a kernel address *)

(** A destination is a user address, a physical address the kernel writes
    through its direct map, or an object of the kernel, whose new bytes the
    caller receives. *)
Inductive dest := DUser (va : Z) | DPhys (pa : Z) | DObj.
Inductive source := SUser (va : Z) | SObj (bs : list Z).

Definition either_copyout (dst : dest) (src : list Z) : M kernel Z :=
  let! i := myproc in
  match dst with
  | DUser va =>
      let! i := deref i in
      let! p := get_proc i in
      lift (copyout (p_pagetable p) va src)
  | DPhys pa => do! lift (copy_in pa src) in ret 0
  | DObj => ret 0
  end.

Definition either_copyin (src : source) (len : Z) : M kernel (Z * list Z) :=
  let! i := myproc in
  match src with
  | SUser va =>
      let! i := deref i in
      let! p := get_proc i in
      lift (copyin (p_pagetable p) va len)
  | SObj bs => ret (0, take (Z.to_nat len) bs)
  end.

(** ** The process listing *)

Definition state_name (st : procstate) : string :=
  match st with
  | UNUSED => "unused" | USED => "used" | SLEEPING => "sleep "
  | RUNNABLE => "runble" | RUNNING => "run   " | ZOMBIE => "zombie"
  end.

Definition procdump : M kernel unit :=
  do! printf nl [] in
  for_all all_procs (fun i =>
    let! p := get_proc i in
    if bool_decide (p_state p = UNUSED) then ret tt else
    do! when (ifdef PBS) (printf ("Run time: %d" ++ nl) [AInt (p_runTime p)]) in
    do! when (ifdef MLFQ)
          (do! for_all (take 5 (p_queue_ticks p)) (fun q => printf "%d " [AInt q]) in printf nl []) in
    do! printf "%d %s %s %d %d"
          [AInt (p_pid p); AStr (Some (bytes_of (state_name (p_state p)))); AStr (Some (cstr (p_name p)));
           AInt (p_runTime p); AInt (p_countTimeCalled p)] in
    printf nl []).

Definition set_tickets (no_of_tickets : Z) : M kernel Z :=
  if ifdef LBS then
    let! i := myproc1 in
    do! upd_proc i (upd_p_tickets (set no_of_tickets)) in ret 1
  else ret 1.
End proc.
