(* ===== verification/Sched.v ===== *)
(** * The scheduler ([scheduler] of [kernel/proc.c])

    [scheduler] runs for ever on each hart. What it repeats is, for each of
    the five policies it can be compiled for, a pass over the process table,
    and the passes are the definitions here; in a pass, [swtch] to a process
    is the point where the model gives up control ([swtch_away]) and goes on
    with the state the process leaves behind. *)

From S2P Require Import Prelude Riscv Memory Machine Spinlock Kalloc Vm Kernel Cstring Printf Proc.

Section sched.
Context {KI : KernelImage} {C : Config}.

(** [c->proc = x] for the [struct cpu] of hart [h]. *)
Definition set_cpu_proc (h : Z) (x : option nat) : M kernel unit :=
  lift (modify (set_cpus (fun cs => <[h := with_proc x (default cpu0 (cs !! h))]> cs))).

(** [c->proc = p; swtch(&c->context, &p->context); c->proc = 0;] *)
Definition run_proc (h : Z) (i : nat) : M kernel unit :=
  do! set_cpu_proc h (Some i) in
  do! swtch_away in
  set_cpu_proc h None.

(** ** Round robin, and LBS *)

Definition default_pass (h : Z) : M kernel unit :=
  for_all all_procs (fun i =>
    do! lift (acquire (LkProc i)) in
    let! p := get_proc i in
    do! when (bool_decide (p_state p = RUNNABLE))
          (do! upd_proc i (upd_p_state (set RUNNING)) in run_proc h i) in
    lift (release (LkProc i))).

Definition lbs_pass (h : Z) : M kernel unit :=
  do! lift intr_on in
  for_all all_procs (fun i =>
    do! lift (acquire (LkProc i)) in
    let! p := get_proc i in
    do! when (bool_decide (p_state p = RUNNABLE))
          (let! r := random_lbs 100 in
           do! upd_proc i (fun p => upd_p_time_avail (set (s32 (Z.rem r 7 * p_tickets p))) p) in
           do! upd_proc i (upd_p_state (set RUNNING)) in
           run_proc h i) in
    lift (release (LkProc i))).

(** ** First come, first served *)

(** One iteration of the search; the accumulator is [check]. *)
Definition fcfs_step (i : nat) (check : option nat) : M kernel (option nat + unit) :=
  do! lift (acquire (LkProc i)) in
  let! p := get_proc i in
  if bool_decide (p_state p = RUNNABLE) then
    match check with
    | None => ret (inl (Some i))
    | Some c =>
        let! cp := get_proc c in
        if p_creationTime p <? p_creationTime cp then
          do! lift (release (LkProc i)) in ret (inl (Some i))
        else
          do! lift (release (LkProc i)) in ret (inl check)
    end
  else
    do! lift (release (LkProc i)) in ret (inl check).

Definition fcfs_search : M kernel (option nat + unit) := for_each all_procs None fcfs_step.

Definition fcfs_pass (h : Z) : M kernel unit :=
  do! lift intr_on in
  let! r := fcfs_search in
  match r with
  | inl (Some c) =>
      do! upd_proc c (upd_p_state (set RUNNING)) in
      do! run_proc h c in
      lift (release (LkProc c))
  | _ => ret tt
  end.

(** ** Priority based *)

Definition pbs_step (i : nat) (check : option nat) : M kernel (option nat + unit) :=
  do! lift (acquire (LkProc i)) in
  let! d := calculateDynamicPriority i in
  do! upd_proc i (upd_p_dprior (set d)) in
  let! p := get_proc i in
  if bool_decide (p_state p = RUNNABLE) then
    match check with
    | None => ret (inl (Some i))
    | Some c =>
        let! cp := get_proc c in
        if p_dprior p <? p_dprior cp then
          do! lift (release (LkProc c)) in ret (inl (Some i))
        else if p_dprior p =? p_dprior cp then
          if p_countTimeCalled p <? p_countTimeCalled cp then
            do! lift (release (LkProc c)) in ret (inl (Some i))
          else if p_countTimeCalled p =? p_countTimeCalled cp then
            if p_creationTime cp <? p_creationTime p then
              do! lift (release (LkProc c)) in ret (inl (Some i))
            else ret (inl check)
          else ret (inl check)
        else
          do! lift (release (LkProc i)) in ret (inl check)
    end
  else
    do! lift (release (LkProc i)) in ret (inl check).

Definition pbs_search : M kernel (option nat + unit) := for_each all_procs None pbs_step.

Definition pbs_pass (h : Z) : M kernel unit :=
  do! lift intr_on in
  let! r := pbs_search in
  match r with
  | inl (Some c) =>
      do! upd_proc c (upd_p_countTimeCalled (fun n => u32 (n + 1))) in
      do! upd_proc c (upd_p_state (set RUNNING)) in
      do! set_cpu_proc h (Some c) in
      do! upd_proc c (upd_p_sleepTimePrev (set 0)) in
      do! upd_proc c (upd_p_runTimePrev (set 0)) in
      do! swtch_away in
      do! set_cpu_proc h None in
      lift (release (LkProc c))
  | _ => ret tt
  end.

(** ** Multi-level feedback queue *)

(** The search of level [i]; the accumulator is [(min_time, check)]. *)
Definition mlfq_step (level : Z) (i : nat) (st : Z * option nat) : M kernel (Z * option nat + unit) :=
  let '(min_time, check) := st in
  do! lift (acquire (LkProc i)) in
  let! p := get_proc i in
  if bool_decide (p_state p = RUNNABLE) && (p_priority_level p =? level) then
    if min_time =? -1 then ret (inl (s32 (p_ctime p), Some i))
    else
      let! c := deref check in
      let! cp := get_proc c in
      if p_ctime p <? p_ctime cp then
        do! lift (release (LkProc c)) in
        ret (inl (s32 (p_ctime p), Some i))
      else
        do! lift (release (LkProc i)) in ret (inl st)
  else
    do! lift (release (LkProc i)) in ret (inl st).

(** The FCFS levels 0 to 3: [inr] when a process was run. *)
Definition mlfq_levels (h : Z) (check : option nat) : M kernel (Z * option nat + Z * option nat) :=
  for_each [0; 1; 2; 3] (-1, check) (fun level st =>
    let! r := for_each all_procs st (mlfq_step level) in
    match r with
    | inr _ => ret (inl st)
    | inl (min_time, check) =>
        if min_time =? -1 then ret (inl (min_time, check))
        else
          let! c := deref check in
          do! upd_proc c (upd_p_state (set RUNNING)) in
          do! upd_proc c (upd_p_wait_time (set 0)) in
          do! run_proc h c in
          do! lift (release (LkProc c)) in
          ret (inr (min_time, check))
    end).

(** [check] keeps its value from one pass to the next. *)
Definition mlfq_pass (h : Z) (check : option nat) : M kernel (option nat) :=
  do! lift intr_on in
  do! aging_check in
  let! r := mlfq_levels h check in
  let '(min_time, check) := match r with inl x => x | inr x => x end in
  do! when (min_time =? -1)
    (for_all all_procs (fun i =>
       do! lift (acquire (LkProc i)) in
       let! p := get_proc i in
       do! when (bool_decide (p_state p = RUNNABLE) && (p_priority_level p =? 4))
             (do! upd_proc i (upd_p_state (set RUNNING)) in run_proc h i) in
       lift (release (LkProc i)))) in
  ret check.

(** ** The loop *)

Definition scheduler : M kernel unit :=
  let! h := lift cpuid in
  do! set_cpu_proc h None in
  do! lift intr_on in
  while (fun check : option nat =>
    match policy with
    | DEFAULT => do! lift intr_on in do! default_pass h in ret (inl check)
    | LBS => do! lbs_pass h in ret (inl check)
    | FCFS => do! fcfs_pass h in ret (inl check)
    | PBS => do! pbs_pass h in ret (inl check)
    | MLFQ => let! check := mlfq_pass h check in ret (inl check)
    end) None.
End sched.
