(* ===== verification/ProcSpec.v ===== *)
(** * What the process table guarantees

    [wakeup], [kill], the priority computation, accounting and the scheduler
    passes, as equations on the process table. *)

From S2P Require Import Prelude Riscv Memory Machine Spinlock Kalloc Vm Kernel Klock KSample Cstring Printf Proc Sched.

Section procspec.
Context {KI : KernelImage} {C : Config}.

(** The table has its size, the hart its interrupt state in order, and the
    locks of the processes but [me] are free. *)
Record table_ok (me : option nat) (k : kernel) : Prop := mk_table_ok {
  tk_len : length (procs k) = NPROC;
  tk_cpu : cpu_ok (mach k);
  tk_locks i : (i < NPROC)%nat -> me <> Some i -> free (mach k) (LkProc i)
}.

Lemma touched_ready me k st i :
  table_ok me k -> touched k st -> (i < NPROC)%nat -> me <> Some i -> ready (mach st) (LkProc i).
Proof.
  intros [_ Hc Hl] Ht Hi Hne. specialize (Hl i Hi Hne).
  destruct Ht as [->| ->]; [done|]. by apply ready_touch.
Qed.

Lemma touched_touch k st : touched k st -> touch (mach st) = touch (mach k).
Proof. intros [->| ->]; [done|apply touch_idemp]. Qed.

Lemma myproc_eq k :
  cpu_ok (mach k) -> myproc k = Ret (c_proc (cpu_of (mach k))) (upd_mach touch k).
Proof.
  intros Hc. unfold myproc, bind. erewrite lift_eq by apply push_off_eq. cbn [rbind].
  unfold mycpu. erewrite lift_eq by done. cbn [rbind]. kcbn. erewrite lift_eq by (by apply pop_push).
  simpl. rewrite cpu_of_upd. done.
Qed.

(** ** [wakeup] *)

Definition wake (me : option nat) (chan : channel) (now : Z) (i : nat) (p : proc) : proc :=
  if bool_decide (me = Some i) then p
  else if bool_decide (p_state p = SLEEPING) && bool_decide (p_chan p = chan) then woken now p else p.

(** The table after process [i] became [p']. *)
Definition stepped (k : kernel) (i : nat) (p' : proc) (st : kernel) : kernel :=
  upd_procs (<[i := p']>) (upd_mach (fun _ => touch (mach k)) st).

Lemma stepped_id k st i p :
  procs st !! i = Some p -> touched k st -> upd_mach touch st = stepped k i p st.
Proof.
  intros Hp Ht. unfold stepped, upd_procs, upd_mach. kcbn. rewrite (touched_touch k st) by done.
  by rewrite list_insert_id.
Qed.

(** A critical section on the lock of process [i] that may change it. *)
Lemma locked_step me k st i p p' (m : proc -> M kernel unit) :
  table_ok me k -> touched k st -> (i < NPROC)%nat -> me <> Some i -> procs st !! i = Some p ->
  (forall st', procs st' !! i = Some p -> ticks st' = ticks st -> m p st' = Ret tt (upd_procs (<[i := p']>) st')) ->
  (do! lift (acquire (LkProc i)) in
   let! p := get_proc i in
   do! m p in
   lift (release (LkProc i))) st = Ret tt (stepped k i p' st).
Proof.
  intros Hok Ht Hi Hne Hp Hm. pose proof (touched_ready me k st i Hok Ht Hi Hne) as Hr.
  unfold bind at 1. rewrite kacquire_eq by apply Hr. cbn [rbind].
  erewrite bind_ret by (unfold get_proc, idx_get; kcbn; by rewrite Hp).
  erewrite bind_ret by (by apply Hm). rewrite (krelease_eq st) by done. f_equal.
  unfold stepped, upd_procs, upd_mach. kcbn. by rewrite (touched_touch k st).
Qed.

(** Changing the process, or not. *)
Lemma when_upd (b : bool) (f : Z -> proc -> proc) i p st :
  procs st !! i = Some p ->
  when b (let! now := gets ticks in upd_proc i (f now)) st =
  Ret tt (upd_procs (<[i := if b then f (ticks st) p else p]>) st).
Proof.
  intros Hp. destruct b; unfold when, bind, gets, ret; cbn [rbind].
  - unfold upd_proc, idx_upd. by rewrite Hp.
  - f_equal. unfold upd_procs. rewrite list_insert_id by done. by destruct st.
Qed.

Lemma wakeup_eq chan k :
  let me := c_proc (cpu_of (mach k)) in
  table_ok me k ->
  wakeup chan k = Ret tt (upd_procs (imap (wake me chan (ticks k))) (upd_mach touch k)).
Proof.
  intros me Hok. unfold wakeup. apply for_procs; [apply Hok|].
  intros i p st Hi _ Hp Ht Htk. unfold wake.
  assert (Hcpu : cpu_ok (mach st)).
  { destruct Hok as [_ Hc _]. destruct Ht as [->| ->]; [done|by apply cpu_ok_touch]. }
  unfold bind at 1. rewrite myproc_eq by done. cbn [rbind].
  assert (Eme : c_proc (cpu_of (mach st)) = me).
  { destruct Ht as [->| ->]; [done|apply c_proc_touch]. }
  rewrite Eme. case_bool_decide as Hme.
  - unfold ret. f_equal. by apply stepped_id.
  - erewrite (locked_step me k (upd_mach touch st) i p); try done.
    + right. apply (touched_touch k st Ht).
    + intros st' Hp' Htk'. etransitivity; [by apply when_upd|]. rewrite Htk'. kcbn. rewrite Htk. reflexivity.
Qed.

(** ** [kill] *)

Section search.
Context {R : Type} (P : proc -> Prop) `{!forall p, Decision (P p)}.
Context (body : nat -> unit -> M kernel (unit + R)) (k : kernel) (r : nat -> proc -> R) (s' : nat -> proc -> kernel).
Context (Hlen : length (procs k) = NPROC).
Context (Hmiss : forall i p st, (i < NPROC)%nat -> procs k !! i = Some p -> st = k \/ st = upd_mach touch k -> ~ P p ->
  body i tt st = Ret (inl tt) (upd_mach touch k)).
Context (Hhit : forall i p st, (i < NPROC)%nat -> procs k !! i = Some p -> st = k \/ st = upd_mach touch k -> P p ->
  body i tt st = Ret (inr (r i p)) (s' i p)).

Lemma search_from n j st :
  (j + n = NPROC)%nat -> (j = 0%nat /\ st = k \/ st = upd_mach touch k) ->
  for_each (seq j n) tt body st =
  match list_find P (drop j (procs k)) with
  | Some (i, p) => Ret (inr (r (j + i)%nat p)) (s' (j + i)%nat p)
  | None => Ret (inl tt) (if decide (n = 0%nat) then st else upd_mach touch k)
  end.
Proof using Hlen Hmiss Hhit.
  revert j st. induction n as [|n IH]; intros j st Hj Hst.
  - rewrite drop_ge by lia. done.
  - destruct (lookup_lt_is_Some_2 (procs k) j) as [p Hp]; [lia|]. rewrite (drop_S _ p) by done. cbn [seq for_each].
    assert (Hst' : st = k \/ st = upd_mach touch k) by tauto. unfold bind. destruct (decide (P p)) as [HP|HP].
    + cbn [list_find]. rewrite decide_True by done. rewrite (Hhit j p st) by (done || lia). cbn [rbind]. unfold ret.
      by rewrite Nat.add_0_r.
    + cbn [list_find]. rewrite decide_False by done. rewrite (Hmiss j p st) by (done || lia). cbn [rbind].
      rewrite IH by (auto || lia). destruct (list_find P (drop (S j) (procs k))) as [[i q]|]; simpl.
      * by replace (j + S i)%nat with (S j + i)%nat by lia.
      * by case_decide.
Qed.

Lemma search_procs :
  for_each all_procs tt body k =
  match list_find P (procs k) with
  | Some (i, p) => Ret (inr (r i p)) (s' i p)
  | None => Ret (inl tt) (upd_mach touch k)
  end.
Proof using Hlen Hmiss Hhit. unfold all_procs. rewrite (search_from NPROC 0 k); auto. Qed.
End search.

Lemma kill_eq pid k :
  table_ok None k ->
  kill pid k =
  match list_find (fun p => p_pid p = pid) (procs k) with
  | Some (i, p) => Ret 0 (upd_procs (<[i := kill_victim (ticks k) p]>) (upd_mach touch k))
  | None => Ret (-1) (upd_mach touch k)
  end.
Proof.
  intros Hok. unfold kill, bind at 1.
  assert (Htc : forall st, st = k \/ st = upd_mach touch k -> touched k st).
  { intros st [->| ->]; [by left|by right]. }
  rewrite (search_procs (fun p => p_pid p = pid) _ k (fun _ _ => 0)
             (fun i p => upd_procs (<[i := kill_victim (ticks k) p]>) (upd_mach touch k))).
  - by destruct (list_find _ (procs k)) as [[i p]|].
  - apply Hok.
  - intros i p st Hi Hp Hst HP. pose proof (touched_ready None k st i Hok (Htc st Hst) Hi ltac:(done)) as Hr.
    assert (Hp' : procs st !! i = Some p) by (by destruct Hst as [->| ->]).
    unfold bind at 1. rewrite kacquire_eq by apply Hr. cbn [rbind].
    erewrite bind_ret by (unfold get_proc, idx_get; kcbn; by rewrite Hp').
    destruct (Z.eqb_spec (p_pid p) pid); [done|].
    unfold bind. rewrite (krelease_eq st) by done. cbn [rbind]. unfold ret. f_equal.
    rewrite (touched_touch k st) by auto. by destruct Hst as [->| ->].
  - intros i p st Hi Hp Hst HP. pose proof (touched_ready None k st i Hok (Htc st Hst) Hi ltac:(done)) as Hr.
    assert (Hp' : procs st !! i = Some p) by (by destruct Hst as [->| ->]).
    unfold bind at 1. rewrite kacquire_eq by apply Hr. cbn [rbind].
    erewrite bind_ret by (unfold get_proc, idx_get; kcbn; by rewrite Hp').
    destruct (Z.eqb_spec (p_pid p) pid); [|done].
    erewrite bind_ret by done. erewrite bind_ret by (unfold upd_proc, idx_upd; kcbn; by rewrite Hp').
    unfold bind. rewrite (krelease_eq st) by done. cbn [rbind]. unfold ret. f_equal.
    rewrite (touched_touch k st) by auto. by destruct Hst as [->| ->].
Qed.

(** ** The round-robin pass *)

(** [c->proc = &proc[i]] on hart [h]. *)
Definition on_cpu (h : Z) (i : nat) : machine -> machine :=
  set_cpus (fun cs => <[h := with_proc (Some i) (default cpu0 (cs !! h))]> cs).

(** The state in which the scheduler switches to process [i]: its lock held,
    its state [RUNNING], and the hart running it. *)
Definition running (h : Z) (i : nat) (p : proc) (k : kernel) : kernel :=
  upd_mach (on_cpu h i) (upd_procs (<[i := upd_p_state (set RUNNING) p]>) (upd_mach (acquired (LkProc i)) k)).

Definition default_body (h : Z) (i : nat) : M kernel unit :=
  do! lift (acquire (LkProc i)) in
  let! p := get_proc i in
  do! when (bool_decide (p_state p = RUNNABLE))
        (do! upd_proc i (upd_p_state (set RUNNING)) in run_proc h i) in
  lift (release (LkProc i)).

(** What is left of the pass once process [i] gives the CPU back. *)
Definition default_rest (h : Z) (i : nat) : M kernel unit :=
  do! set_cpu_proc h None in
  do! lift (release (LkProc i)) in
  for_all (seq (S i) (NPROC - S i)) (default_body h).

Lemma default_from h k n j st :
  table_ok None k -> (j + n = NPROC)%nat -> st = k \/ st = upd_mach touch k ->
  match list_find (fun p => p_state p = RUNNABLE) (drop j (procs k)) with
  | Some (i, p) => exists cont, for_all (seq j n) (default_body h) st = Swtch (running h (j + i) p k) cont /\
                     forall s2, cont s2 = default_rest h (j + i) s2
  | None => for_all (seq j n) (default_body h) st = Ret tt (if decide (n = 0%nat) then st else upd_mach touch k)
  end.
Proof.
  intros Hok. revert j st. induction n as [|n IH]; intros j st Hj Hst'.
  - rewrite drop_ge by (rewrite (tk_len _ _ Hok); lia). done.
  - destruct (lookup_lt_is_Some_2 (procs k) j) as [p Hp]; [rewrite (tk_len _ _ Hok); lia|].
    rewrite (drop_S _ p) by done. cbn [seq for_all list_find].
    assert (Ht : touched k st) by (destruct Hst' as [->| ->]; [by left|by right]).
    pose proof (touched_ready None k st j Hok Ht ltac:(lia) ltac:(done)) as Hr.
    assert (Hps : procs st !! j = Some p) by (by destruct Hst' as [->| ->]).
    destruct (decide (p_state p = RUNNABLE)) as [HR|HR].
    + unfold default_body at 1. unfold bind at 1, bind at 1. rewrite kacquire_eq by apply Hr. cbn [rbind].
      erewrite bind_ret by (unfold get_proc, idx_get; kcbn; by rewrite Hps).
      rewrite bool_decide_eq_true_2 by done. unfold when, run_proc.
      unfold bind at 1, bind at 1. unfold upd_proc, idx_upd. kcbn. rewrite Hps. cbn [rbind].
      unfold bind at 1, set_cpu_proc at 1. erewrite lift_eq by done. cbn [rbind].
      unfold bind at 1, swtch_away. cbn [rbind]. eexists. split.
      * f_equal. rewrite Nat.add_0_r. unfold running. destruct Hst' as [->| ->]; [done|].
        unfold upd_mach. kcbn. by rewrite acquired_touch.
      * intros s2. rewrite Nat.add_0_r. unfold default_rest. replace (NPROC - S j)%nat with n by lia.
        unfold bind, set_cpu_proc. cbn [rbind]. by erewrite lift_eq by done.
    + assert (E : (do! default_body h j in for_all (seq (S j) n) (default_body h)) st =
                  for_all (seq (S j) n) (default_body h) (upd_mach touch k)).
      { unfold bind at 1. unfold default_body at 1. rewrite (locked_step None k st j p p); try done; [|lia|].
        - cbn [rbind]. rewrite <- stepped_id by done. f_equal. destruct Hst' as [->| ->]; [done|].
          unfold upd_mach. kcbn. by rewrite touch_idemp.
        - intros st' Hp' _. rewrite bool_decide_eq_false_2 by done. unfold when, ret. f_equal.
          unfold upd_procs. rewrite list_insert_id by done. by destruct st'. }
      specialize (IH (S j) (upd_mach touch k) ltac:(lia) ltac:(by right)).
      destruct (list_find _ (drop (S j) (procs k))) as [[i q]|]; cbn [fmap option_fmap option_map prod_map fst snd id]; rewrite E.
      * by replace (j + S i)%nat with (S j + i)%nat by lia.
      * rewrite IH. by case_decide.
Qed.

(** ** The FCFS search *)

(** The choice of the loop, from the processes of the indices [is]. *)
Definition fcfs_pick (ps : list proc) (check : option nat) (i : nat) : option nat :=
  match ps !! i with
  | Some p =>
      if bool_decide (p_state p = RUNNABLE) then
        match check with
        | None => Some i
        | Some c => match ps !! c with
                    | Some cp => if p_creationTime p <? p_creationTime cp then Some i else check
                    | None => check
                    end
        end
      else check
  | None => check
  end.
Definition fcfs_choice (ps : list proc) : option nat := foldl (fcfs_pick ps) None (seq 0 NPROC).
#[local] Strategy expand [fcfs_choice].

Lemma ready_acquired s lk lk' : ready s lk' -> lk <> lk' -> 0 <= noff (cpu_of s) -> ready (acquired lk s) lk'.
Proof.
  intros [Hf [Hn Hs]] Hne _. split.
  - unfold free, acquired. cbn [locks set_locks]. by rewrite lookup_insert_ne.
  - unfold cpu_ok. assert (E : cpu_of (acquired lk s) = pushed_cpu (cpu_of s)).
    { unfold acquired, cpu_of at 1. cbn [tp cpus set_locks upd_cpu set_cpus]. by rewrite lookup_insert_eq. }
    rewrite E. simpl. split; [lia|done].
Qed.

(** One iteration that takes and gives back the lock of [i]. *)
Lemma fcfs_step_other k f c cp i p :
  table_ok None k -> (i < NPROC)%nat -> (f < NPROC)%nat -> f <> i ->
  procs k !! i = Some p -> procs k !! c = Some cp ->
  fcfs_step i (Some c) (upd_mach (acquired (LkProc f)) k) =
  Ret (inl (fcfs_pick (procs k) (Some c) i)) (upd_mach (acquired (LkProc f)) k).
Proof.
  intros [Hlen Hc Hl] Hi Hf Hne Hp Hcp. set (k1 := upd_mach (acquired (LkProc f)) k).
  assert (Hr : ready (mach k1) (LkProc i)).
  { apply ready_acquired; [by split; auto|congruence|apply Hc]. }
  assert (Et : upd_mach (fun _ => touch (mach k1)) k1 = k1).
  { unfold k1, upd_mach. kcbn. by rewrite touch_acquired by apply Hc. }
  unfold fcfs_step, fcfs_pick. rewrite Hp. unfold bind at 1. rewrite kacquire_eq by apply Hr. cbn [rbind].
  erewrite bind_ret by (unfold get_proc, idx_get, k1; kcbn; by rewrite Hp).
  assert (Hrel : forall x : option nat + unit, (do! lift (release (LkProc i)) in ret x) (upd_mach (acquired (LkProc i)) k1) = Ret x k1).
  { intros x. unfold bind. rewrite (krelease_eq k1) by done. cbn [rbind]. unfold ret. f_equal. rewrite <- Et at 2. done. }
  case_bool_decide; [|by rewrite Hrel]. rewrite Hcp.
  erewrite bind_ret by (unfold get_proc, idx_get, k1; kcbn; by rewrite Hcp).
  by destruct (p_creationTime p <? p_creationTime cp); rewrite Hrel.
Qed.

Lemma fcfs_from_held k f n j c :
  table_ok None k -> (j + n = NPROC)%nat -> (f < j)%nat -> is_Some (procs k !! c) ->
  for_each (seq j n) (Some c) fcfs_step (upd_mach (acquired (LkProc f)) k) =
  Ret (inl (foldl (fcfs_pick (procs k)) (Some c) (seq j n))) (upd_mach (acquired (LkProc f)) k).
Proof.
  intros Hok. revert j c. induction n as [|n IH]; intros j c Hj Hf [cp Hcp]; [done|].
  destruct (lookup_lt_is_Some_2 (procs k) j) as [p Hp]; [rewrite (tk_len _ _ Hok); lia|].
  cbn [seq for_each foldl]. unfold bind. erewrite fcfs_step_other by (done || lia). cbn [rbind].
  assert (exists c', fcfs_pick (procs k) (Some c) j = Some c' /\ is_Some (procs k !! c')) as (c' & -> & Hc').
  { unfold fcfs_pick. rewrite Hp, Hcp. repeat case_match; eauto. }
  apply IH; (lia || done).
Qed.

Lemma fcfs_from k n j st :
  table_ok None k -> (j + n = NPROC)%nat -> (j = 0%nat /\ st = k \/ st = upd_mach touch k) ->
  for_each (seq j n) None fcfs_step st =
  Ret (inl (foldl (fcfs_pick (procs k)) None (seq j n)))
    match list_find (fun p => p_state p = RUNNABLE) (drop j (procs k)) with
    | Some (i, _) => upd_mach (acquired (LkProc (j + i))) k
    | None => if decide (n = 0%nat) then st else upd_mach touch k
    end.
Proof.
  intros Hok. revert j st. induction n as [|n IH]; intros j st Hj Hst.
  - rewrite drop_ge by (rewrite (tk_len _ _ Hok); lia). done.
  - destruct (lookup_lt_is_Some_2 (procs k) j) as [p Hp]; [rewrite (tk_len _ _ Hok); lia|].
    rewrite (drop_S _ p) by done. cbn [seq for_each foldl list_find].
    assert (Hst' : st = k \/ st = upd_mach touch k) by tauto.
    assert (Ht : touched k st) by (destruct Hst' as [->| ->]; [by left|by right]).
    pose proof (touched_ready None k st j Hok Ht ltac:(lia) ltac:(done)) as Hr.
    assert (Hps : procs st !! j = Some p) by (by destruct Hst' as [->| ->]).
    assert (Ea : upd_mach (acquired (LkProc j)) st = upd_mach (acquired (LkProc j)) k).
    { destruct Hst' as [->| ->]; [done|]. unfold upd_mach. kcbn. by rewrite acquired_touch. }
    assert (Ep : fcfs_pick (procs k) None j = if bool_decide (p_state p = RUNNABLE) then Some j else None).
    { unfold fcfs_pick. by rewrite Hp. }
    rewrite Ep. unfold bind at 1. unfold fcfs_step at 1.
    unfold bind at 1. rewrite kacquire_eq by apply Hr. cbn [rbind].
    erewrite bind_ret by (unfold get_proc, idx_get; kcbn; by rewrite Hps).
    destruct (decide (p_state p = RUNNABLE)) as [HR|HR].
    + rewrite bool_decide_eq_true_2 by done. unfold ret. cbn [rbind]. rewrite Ea, Nat.add_0_r.
      apply fcfs_from_held; eauto; lia.
    + rewrite bool_decide_eq_false_2 by done. unfold bind. rewrite (krelease_eq st) by done. cbn [rbind ret].
      assert (Est : upd_mach (fun _ => touch (mach st)) (upd_mach (acquired (LkProc j)) st) = upd_mach touch k).
      { rewrite (touched_touch k st) by done. by destruct Hst' as [->| ->]. }
      unfold ret. cbn [rbind]. rewrite Est, IH by (lia || by right). f_equal.
      destruct (list_find _ (drop (S j) (procs k))) as [[i q]|]; simpl.
      * by replace (j + S i)%nat with (S j + i)%nat by lia.
      * by case_decide.
Qed.

Lemma fcfs_choice_some ps js acc c :
  foldl (fcfs_pick ps) acc js = Some c -> acc = Some c \/ is_Some (ps !! c).
Proof.
  revert acc. induction js as [|i js IH]; intros acc; simpl; [by left|]. intros H. destruct (IH _ H) as [E|?]; [|by right].
  unfold fcfs_pick in E. destruct (ps !! i) eqn:Ei; [|by left]. repeat case_match; simplify_eq; eauto.
Qed.

Lemma fcfs_search_eq k f p c :
  table_ok None k -> list_find (fun p => p_state p = RUNNABLE) (procs k) = Some (f, p) ->
  fcfs_choice (procs k) = Some c ->
  fcfs_search k = Ret (inl (Some c)) (upd_mach (acquired (LkProc f)) k).
Proof.
  intros Hok Ef Ec. unfold fcfs_search, all_procs. rewrite (fcfs_from k NPROC 0 k); auto.
  rewrite drop_0, Ef. unfold fcfs_choice in Ec. by rewrite Ec.
Qed.

(** ** Properties *)


(** [C37] [kill] marks the first process with the pid as killed and, if it was
    asleep, makes it runnable so that it can notice; every other process is
    left alone, and with no such process it returns -1 and changes none. *)
Theorem kill_kills pid k :
  table_ok None k ->
  match list_find (fun p => p_pid p = pid) (procs k) with
  | Some (i, p) => exists p', kill pid k = Ret 0 (upd_procs (<[i := p']>) (upd_mach touch k)) /\
      p_killed p' = 1 /\ p_pid p' = pid /\
      p_state p' = (if bool_decide (p_state p = SLEEPING) then RUNNABLE else p_state p)
  | None => kill pid k = Ret (-1) (upd_mach touch k)
  end.
Proof.
  intros Hok. pose proof (kill_eq pid k Hok) as E.
  destruct (list_find (fun p => p_pid p = pid) (procs k)) as [[i p]|] eqn:Ef; [|done].
  apply list_find_Some in Ef as (_ & Hpid & _). eexists. split; [exact E|].
  unfold kill_victim. simpl. case_bool_decide; simpl; repeat case_match; simpl; subst; done.
Qed.


(** [C39] The FCFS pass can run a process whose lock it does not hold: when the
    oldest runnable process is not the first runnable one in the table, the
    hart switches to it with its lock free, and keeps the lock of the first. *)
Theorem fcfs_runs_without_lock h k f p c :
  table_ok None k -> noff (cpu_of (mach k)) = 0 ->
  list_find (fun p => p_state p = RUNNABLE) (procs k) = Some (f, p) ->
  fcfs_choice (procs k) = Some c -> c <> f ->
  exists s' cont, fcfs_pass h k = Swtch s' cont /\
    (exists q, procs s' !! c = Some q /\ p_state q = RUNNING) /\
    c_proc (default cpu0 (cpus (mach s') !! h)) = Some c /\
    free (mach s') (LkProc c) /\ held (mach s') (LkProc f).
Proof.
  intros Hok Hn Ef Ec Hne. set (k1 := upd_mach (upd_cpu (with_sie true)) k).
  destruct (fcfs_choice_some _ _ _ _ Ec) as [?|[q Hq]]; [done|].
  assert (Hok1 : table_ok None k1).
  { destruct Hok as [Hlen [Hc1 Hc2] Hl]. split; [done| |done]. unfold k1, cpu_ok. kcbn. rewrite cpu_of_upd. simpl. lia. }
  pose proof (fcfs_search_eq k1 f p c Hok1 Ef Ec) as Es. unfold fcfs_pass.
  erewrite (bind_ret (lift intr_on)) by (unfold intr_on, set_mycpu; by erewrite lift_eq).
  erewrite (bind_ret fcfs_search) by exact Es.
  unfold bind at 1. unfold upd_proc, idx_upd, k1 at 1. kcbn. rewrite Hq. cbn [rbind].
  unfold run_proc, bind at 1, bind at 1, set_cpu_proc at 1. erewrite lift_eq by done. cbn [rbind].
  unfold bind at 1, swtch_away. cbn [rbind]. eexists _, _. split; [reflexivity|]. split_and!.
  - eexists. split; [|by instantiate (1 := upd_p_state (set RUNNING) q)].
    kcbn. rewrite list_lookup_insert_eq; [done|]. by eapply lookup_lt_Some.
  - kcbn. cbn [cpus set_cpus]. by rewrite lookup_insert_eq.
  - unfold free. kcbn. cbn [locks set_cpus acquired set_locks]. rewrite lookup_insert_ne by congruence.
    apply Hok; [|done]. apply lookup_lt_Some in Hq. by rewrite (tk_len _ _ Hok) in Hq.
  - unfold held. kcbn. cbn [locks set_cpus acquired set_locks]. by rewrite lookup_insert_eq.
Qed.

(** [C40] The niceness computation is behind an inverted test: for a process
    that neither ran nor slept it divides by zero, and for any other the
    niceness stays 5, so the dynamic priority is the static priority cut to
    the range 0 to 100, whatever the process did. *)
Theorem dynamic_priority_ignores_history i p k :
  procs k !! i = Some p ->
  if (p_runTimePrev p =? 0) && (p_sleepTimePrev p =? 0)
  then exists s', calculateDynamicPriority i k = Ub "division by zero" s'
  else calculateDynamicPriority i k =
       Ret (Z.max 0 (Z.min 100 (s32 (p_sprior p)))) (upd_procs (<[i := upd_p_niceness (set 5) p]>) k).
Proof.
  intros Hp. pose proof (lookup_lt_Some _ _ _ Hp) as Hlt. unfold calculateDynamicPriority.
  assert (Hget : forall q k', procs k' = <[i := q]> (procs k) -> get_proc i k' = Ret q k').
  { intros q k' E. unfold get_proc, idx_get. by rewrite E, list_lookup_insert_eq. }
  erewrite bind_ret by (unfold upd_proc, idx_upd; by rewrite Hp).
  erewrite bind_ret by (by apply Hget). cbn [p_runTimePrev p_sleepTimePrev upd_p_niceness].
  destruct (Z.eqb_spec (p_runTimePrev p) 0) as [E1|], (Z.eqb_spec (p_sleepTimePrev p) 0) as [E2|]; cbn [andb];
    [|rewrite (bind_ret (ret tt) _ _ tt (upd_procs (<[i := upd_p_niceness (set 5) p]>) k)) by done;
      erewrite bind_ret by (by apply Hget); cbn [p_sprior p_niceness upd_p_niceness]; unfold ret; f_equal;
      unfold set; rewrite Z.sub_add; repeat zcase; lia..].
  eexists. unfold bind at 1. unfold bind at 1. unfold upd_proc, idx_upd. kcbn. rewrite list_lookup_insert_eq by done.
  cbn [rbind]. unfold bind at 1. erewrite Hget by (kcbn; rewrite list_insert_insert_eq; reflexivity). cbn [rbind].
  cbn [p_runTimePrev p_sleepTimePrev upd_p_niceness]. rewrite E1, E2. reflexivity.
Qed.
End procspec.

(** ** Witnesses *)

Module ProcSample.
#[local] Existing Instance kernel_sym.
#[local] Instance round_robin : Config := {| policy := DEFAULT |}.

(** Slot 0 free, two runnable processes of which the second is older, one
    asleep on the log. *)
Definition ps : list proc :=
  [proc0; a_proc 3 RUNNABLE ChNone 20; a_proc 4 RUNNABLE ChNone 10; a_proc 5 SLEEPING ChLog 30] ++ replicate 60 proc0.
Definition k : kernel := upd_procs (fun _ => ps) kernel_bss.

Lemma k_ok me : table_ok me k.
Proof.
  split; [done|vm_compute; split; done|]. intros i Hi _. apply bss_free. unfold all_locks.
  rewrite !elem_of_app, !list_elem_of_fmap. right; left. exists i. split; [done|]. apply elem_of_seq. lia.
Qed.


Lemma kill_kills_witness :
  exists p', kill 5 k = Ret 0 (upd_procs (<[3%nat := p']>) (upd_mach touch k)) /\
      p_killed p' = 1 /\ p_pid p' = 5 /\ p_state p' = RUNNABLE.
Proof. exact (kill_kills 5 k (k_ok None)). Defined.


Lemma fcfs_runs_without_lock_witness :
  exists s' cont, fcfs_pass 0 k = Swtch s' cont /\
    (exists q, procs s' !! 2%nat = Some q /\ p_state q = RUNNING) /\
    c_proc (default cpu0 (cpus (mach s') !! 0)) = Some 2%nat /\
    free (mach s') (LkProc 2) /\ held (mach s') (LkProc 1).
Proof.
  apply (fcfs_runs_without_lock 0 k 1%nat (a_proc 3 RUNNABLE ChNone 20) 2%nat);
    [apply k_ok|reflexivity|reflexivity|vm_compute; reflexivity|done].
Defined.

Lemma dynamic_priority_ignores_history_witness :
  exists s', calculateDynamicPriority 1 k = Ub "division by zero" s'.
Proof. exact (dynamic_priority_ignores_history 1 (a_proc 3 RUNNABLE ChNone 20) k eq_refl). Defined.
End ProcSample.
