(* ===== verification/Sleeplock.v ===== *)
(** * Sleep locks ([kernel/sleeplock.c]) *)

From S2P Require Import Prelude Riscv Memory Machine Spinlock Kernel Cstring Printf Proc.

(** The sleep locks of the kernel: one in each buffer and in each inode. *)
Inductive slock := SlBuf (i : nat) | SlInode (i : nat).

(** [&lk->lk], and the address [lk] as a sleep channel. *)
Definition sl_lk (l : slock) : lockid := match l with SlBuf i => LkBuf i | SlInode i => LkInode i end.
Definition sl_chan (l : slock) : channel := match l with SlBuf i => ChBufLock i | SlInode i => ChInodeLock i end.

Definition get_sl (l : slock) : M kernel sleeplock :=
  match l with
  | SlBuf i => let! b := get_buf i in ret (b_lock b)
  | SlInode i => let! ip := get_inode i in ret (i_lock ip)
  end.
Definition set_sl (l : slock) (x : sleeplock) : M kernel unit :=
  match l with
  | SlBuf i => upd_buf i (upd_b_lock (set x))
  | SlInode i => upd_inode i (upd_i_lock (set x))
  end.

Section sleeplock.
Context {KI : KernelImage} {C : Config}.

Definition initsleeplock (l : slock) : M kernel unit :=
  do! lift (initlock (sl_lk l)) in
  set_sl l (mk_sleeplock false 0).

Definition acquiresleep (l : slock) : M kernel unit :=
  do! lift (acquire (sl_lk l)) in
  do! while (fun _ : unit =>
    let! x := get_sl l in
    if sl_locked x then do! sleep (sl_chan l) (sl_lk l) in ret (inl tt)
    else ret (inr tt)) tt in
  let! i := myproc1 in
  let! p := get_proc i in
  do! set_sl l (mk_sleeplock true (p_pid p)) in
  lift (release (sl_lk l)).

Definition releasesleep (l : slock) : M kernel unit :=
  do! lift (acquire (sl_lk l)) in
  do! set_sl l (mk_sleeplock false 0) in
  do! wakeup (sl_chan l) in
  lift (release (sl_lk l)).

Definition holdingsleep (l : slock) : M kernel bool :=
  do! lift (acquire (sl_lk l)) in
  let! x := get_sl l in
  let! r := (if sl_locked x then
               let! i := myproc1 in
               let! p := get_proc i in
               ret (sl_pid x =? p_pid p)
             else ret false) in
  do! lift (release (sl_lk l)) in
  ret r.
End sleeplock.
