(* ===== verification/SleepSpec.v ===== *)
(** * Sleep locks without contention

    A kernel thread in process context, with the spinlocks of the file system
    free: the state in which the file-system code of one thread runs. The
    operations on a sleep lock that nobody else holds, as equations. *)

From S2P Require Import Prelude Riscv Memory Machine Spinlock Kalloc Vm Kernel Klock KSample Cstring Printf Proc Sched ProcSpec Sleeplock.

(** The spinlocks the file system takes. *)
Definition fs_locks : list lockid :=
  [LkBcache; LkLog; LkItable; LkFtable; LkVdisk] ++ (LkBuf <$> seq 0 NBUF) ++ (LkInode <$> seq 0 NINODE).

(** The hart runs process [me], whose pid is [pid]. *)
Record thread (me : nat) (pid : Z) (k : kernel) : Prop := mk_thread {
  th_me : c_proc (cpu_of (mach k)) = Some me;
  th_table : table_ok (Some me) k;
  th_pid : exists p, procs k !! me = Some p /\ p_pid p = pid;
  th_locks lk : lk ∈ fs_locks -> free (mach k) lk
}.

(** What a process owns. *)
Definition view (p : proc) := (p_pid p, p_kstack p, p_sz p, p_pagetable p, p_trapframe p, p_ofile p, p_cwd p).

(** Everything but the harts, the locks, the scheduling of the processes, the
    buffers and the disk. *)
Definition others (k : kernel) :=
  ((mem (mach k), freelist (mach k), count (mach k), view <$> procs k),
   (nextpid k, initproc k, ticks k, rng k, first k, kernel_pagetable k),
   (ksb k, inodes k, files k, pipes k), (kcons k, kuart k, pr_locking k, panicked k, devsw_console k),
   (kvdisk k, csrs k, kplic k, started k)).

Definition sl_read (l : slock) (k : kernel) : option sleeplock :=
  match l with SlBuf i => b_lock <$> bufs k !! i | SlInode i => i_lock <$> inodes k !! i end.
Definition sl_write (l : slock) (x : sleeplock) (k : kernel) : kernel :=
  match l with
  | SlBuf i => upd_bufs (alter (upd_b_lock (set x)) i) k
  | SlInode i => upd_inodes (alter (upd_i_lock (set x)) i) k
  end.
Definition sl_ok (l : slock) : Prop := match l with SlBuf i => (i < NBUF)%nat | SlInode i => (i < NINODE)%nat end.

Lemma alter_lookup {A} (f : A -> A) (l : list A) i x : l !! i = Some x -> alter f i l = <[i := f x]> l.
Proof.
  intros Hx. apply list_eq. intros j. destruct (decide (i = j)) as [<-|Hne].
  - rewrite list_lookup_alter_eq, Hx, list_lookup_insert_eq; [done|]. by eapply lookup_lt_Some.
  - by rewrite list_lookup_alter_ne, list_lookup_insert_ne.
Qed.

Lemma sl_lk_fs l : sl_ok l -> sl_lk l ∈ fs_locks.
Proof.
  intros H. unfold fs_locks. rewrite !elem_of_app, !list_elem_of_fmap. right.
  destruct l as [i|i]; [left|right]; exists i; (split; [done|apply elem_of_seq; simpl in H; lia]).
Qed.

Ltac fs_lock := unfold fs_locks; apply elem_of_app; left; repeat (apply elem_of_cons; first [by left|right]).

Section sleep.
Context {KI : KernelImage} {C : Config}.

Lemma get_sl_eq l k y : sl_read l k = Some y -> get_sl l k = Ret y k.
Proof.
  destruct l as [i|i]; simpl; intros H; apply fmap_Some in H as (x & Hx & ->).
  - erewrite bind_ret by (unfold get_buf, idx_get; by rewrite Hx). done.
  - erewrite bind_ret by (unfold get_inode, idx_get; by rewrite Hx). done.
Qed.
Lemma set_sl_eq l k x y : sl_read l k = Some y -> set_sl l x k = Ret tt (sl_write l x k).
Proof.
  destruct l as [i|i]; simpl; intros H; apply fmap_Some in H as (z & Hx & ->).
  - unfold upd_buf, idx_upd, upd_bufs. rewrite Hx. by erewrite alter_lookup.
  - unfold upd_inode, idx_upd, upd_inodes. rewrite Hx. by erewrite alter_lookup.
Qed.
Lemma sl_write_mach l x k : mach (sl_write l x k) = mach k.
Proof. by destruct l. Qed.
Lemma sl_write_procs l x k : procs (sl_write l x k) = procs k.
Proof. by destruct l. Qed.
Lemma sl_write_upd_mach l x f k : sl_write l x (upd_mach f k) = upd_mach f (sl_write l x k).
Proof. by destruct l. Qed.
Lemma sl_read_upd_mach l f k : sl_read l (upd_mach f k) = sl_read l k.
Proof. by destruct l. Qed.

Section thread.
Context (me : nat) (pid : Z) (k : kernel) (T : thread me pid k).

Lemma th_ready lk : lk ∈ fs_locks -> ready (mach k) lk.
Proof using T. intros H. split; [by apply T|apply T]. Qed.

(** [myproc()] and its pid, with the lock [lk] held. *)
Lemma locked_pid lk {A} (f : Z -> M kernel A) k1 :
  mach k1 = acquired lk (mach k) -> procs k1 = procs k ->
  (let! i := myproc1 in let! p := get_proc i in f (p_pid p)) k1 = f pid k1.
Proof using T.
  intros Em Ep. destruct T as [Hme [_ [Hn Hs] _] (p & Hp & <-) _]. unfold myproc1.
  assert (Hc : cpu_of (acquired lk (mach k)) = pushed_cpu (cpu_of (mach k))).
  { change (cpu_of (upd_cpu pushed_cpu (mach k)) = pushed_cpu (cpu_of (mach k))). apply cpu_of_upd. }
  unfold bind at 1. unfold bind at 1. rewrite myproc_eq.
  2: { rewrite Em. unfold cpu_ok. rewrite Hc. simpl. lia. }
  cbn [rbind]. rewrite Em, Hc. cbn [c_proc pushed_cpu]. rewrite Hme. unfold deref. cbn [rbind].
  assert (E : upd_mach touch k1 = k1).
  { etransitivity; [|apply upd_mach_mach]. unfold upd_mach. rewrite Em, touch_acquired by done. done. }
  rewrite E. unfold bind, get_proc, idx_get. by rewrite Ep, Hp.
Qed.

Lemma acquiresleep_eq l y :
  sl_ok l -> sl_read l k = Some y -> sl_locked y = false ->
  acquiresleep l k = Ret tt (sl_write l (mk_sleeplock true pid) (upd_mach touch k)).
Proof using T.
  intros Hl Hy Hf. pose proof (th_ready _ (sl_lk_fs l Hl)) as Hr. unfold acquiresleep.
  erewrite bind_ret by (by apply kacquire_eq, Hr).
  erewrite bind_ret.
  2: { apply while_stop. erewrite bind_ret by (by apply get_sl_eq; rewrite sl_read_upd_mach).
       rewrite Hf. done. }
  etransitivity; [apply (locked_pid (sl_lk l)
    (fun q => do! set_sl l (mk_sleeplock true q) in lift (release (sl_lk l)))); done|].
  erewrite bind_ret by (by eapply set_sl_eq; rewrite sl_read_upd_mach).
  rewrite (krelease_eq k); [|done|by rewrite sl_write_mach]. f_equal. by destruct l.
Qed.

Lemma holdingsleep_eq l y :
  sl_ok l -> sl_read l k = Some y ->
  holdingsleep l k = Ret (sl_locked y && (sl_pid y =? pid)) (upd_mach touch k).
Proof using T.
  intros Hl Hy. pose proof (th_ready _ (sl_lk_fs l Hl)) as Hr. unfold holdingsleep.
  erewrite bind_ret by (by apply kacquire_eq, Hr).
  erewrite bind_ret by (by apply get_sl_eq; rewrite sl_read_upd_mach).
  assert (E : (if sl_locked y then let! i := myproc1 in let! p := get_proc i in ret (sl_pid y =? p_pid p) else ret false)
     (upd_mach (acquired (sl_lk l)) k) = Ret (sl_locked y && (sl_pid y =? pid)) (upd_mach (acquired (sl_lk l)) k)).
  { destruct (sl_locked y); [|done].
    etransitivity; [apply (locked_pid (sl_lk l) (fun q => ret (sl_pid y =? q))); done|]. done. }
  erewrite bind_ret by exact E. erewrite bind_ret by (by apply krelease_eq). done.
Qed.

(** The processes after a [wakeup] by [me]. *)
Definition woke (chan : channel) : kernel -> kernel :=
  upd_procs (imap (wake (Some me) chan (ticks k))).

Lemma table_acquired lk : lk ∈ fs_locks -> table_ok (Some me) (upd_mach (acquired lk) k).
Proof using T.
  intros Hin. destruct T as [_ [Hlen [Hn Hs] Hl] _ _]. split; [done| |].
  - unfold cpu_ok. change (cpu_of (mach (upd_mach (acquired lk) k))) with (cpu_of (upd_cpu pushed_cpu (mach k))).
    rewrite cpu_of_upd. simpl. lia.
  - intros i Hi Hne. unfold free. kcbn. unfold acquired. cbn [locks set_locks]. rewrite lookup_insert_ne; [by apply Hl|].
    intros ->. unfold fs_locks in Hin. rewrite !elem_of_app, !list_elem_of_fmap in Hin.
    destruct Hin as [Hin|[(? & ? & _)|(? & ? & _)]]; [|done..].
    repeat (apply elem_of_cons in Hin as [?|Hin]; [done|]). by apply not_elem_of_nil in Hin.
Qed.

(** [wakeup] inside a critical section. *)
Lemma wakeup_locked lk chan k1 :
  lk ∈ fs_locks -> mach k1 = acquired lk (mach k) -> procs k1 = procs k -> ticks k1 = ticks k ->
  wakeup chan k1 = Ret tt (woke chan k1).
Proof using T.
  intros Hlk Em Ep Et. destruct (table_acquired lk Hlk) as [H1 H2 H3]. kcbn.
  assert (Hme : c_proc (cpu_of (mach k1)) = Some me).
  { rewrite Em. change (cpu_of (acquired lk (mach k))) with (cpu_of (upd_cpu pushed_cpu (mach k))).
    rewrite cpu_of_upd. apply T. }
  assert (Hok : table_ok (c_proc (cpu_of (mach k1))) k1).
  { rewrite Hme. split; [by rewrite Ep|by rewrite Em|by rewrite Em]. }
  pose proof (wakeup_eq chan k1 Hok) as E. cbv zeta in E. rewrite Hme, Et in E. rewrite E. f_equal.
  unfold woke. f_equal. etransitivity; [|apply upd_mach_mach]. unfold upd_mach. rewrite Em, touch_acquired; [done|].
  apply T.
Qed.

Lemma releasesleep_eq l y :
  sl_ok l -> sl_read l k = Some y ->
  releasesleep l k = Ret tt (woke (sl_chan l) (sl_write l (mk_sleeplock false 0) (upd_mach touch k))).
Proof using T.
  intros Hl Hy. pose proof (th_ready _ (sl_lk_fs l Hl)) as Hr. unfold releasesleep.
  erewrite bind_ret by (by apply kacquire_eq, Hr).
  erewrite bind_ret by (by eapply set_sl_eq; rewrite sl_read_upd_mach).
  erewrite bind_ret.
  2: { eapply (wakeup_locked (sl_lk l)); [by apply sl_lk_fs|by rewrite sl_write_mach|by rewrite sl_write_procs|].
       by destruct l. }
  rewrite (krelease_eq k); [|done|unfold woke; kcbn; by rewrite sl_write_mach]. f_equal.
  by destruct l.
Qed.
End thread.

(** ** The thread goes on *)

Lemma thread_touch me pid k : thread me pid k -> thread me pid (upd_mach touch k).
Proof.
  intros [H1 [Hlen Hc Hl] H3 H4]. split.
  - kcbn. by rewrite c_proc_touch.
  - split; [done|by apply cpu_ok_touch|done].
  - done.
  - done.
Qed.

Lemma wake_pid me chan now i p : p_pid (wake me chan now i p) = p_pid p.
Proof. unfold wake, woken. by repeat (case_match; simpl). Qed.

Lemma thread_woke me pid k k0 chan : thread me pid k -> thread me pid (woke me k0 chan k).
Proof.
  intros [H1 [Hlen Hc Hl] (p & Hp & Hpid) H4]. split; [done| | |done].
  - split; [by rewrite <- Hlen; apply length_imap|done|done].
  - exists p. unfold woke. kcbn. rewrite list_lookup_imap, Hp. split; [|done]. simpl. f_equal. unfold wake.
    by rewrite bool_decide_eq_true_2.
Qed.

(** Leaving a critical section. *)
Lemma others_release lk k k1 : mach k1 = acquired lk (mach k) -> others (upd_mach (fun _ => touch (mach k)) k1) = others k1.
Proof. intros E. unfold others. kcbn. by rewrite E. Qed.

Lemma view_woke me k0 chan k : view <$> procs (woke me k0 chan k) = view <$> procs k.
Proof.
  unfold woke. kcbn. apply list_eq. intros i. rewrite !list_lookup_fmap, list_lookup_imap.
  destruct (procs k !! i) as [p|]; [|done]. simpl. f_equal. unfold wake, woken, view. by repeat (case_match; simpl).
Qed.
Lemma others_woke me k0 chan k : others (woke me k0 chan k) = others k.
Proof. unfold others. by rewrite view_woke. Qed.

(** A thread depends on the machine and on the processes only. *)
Lemma thread_ext me pid k k' : mach k' = mach k -> procs k' = procs k -> thread me pid k -> thread me pid k'.
Proof.
  intros E1 E2 [H1 [Hlen Hc Hl] H3 H4]. split.
  - by rewrite E1.
  - split; [by rewrite E2|by rewrite E1|by rewrite E1].
  - by rewrite E2.
  - by rewrite E1.
Qed.
End sleep.
