(* ===== verification/Bio.v ===== *)
(** * The buffer cache ([kernel/bio.c])

    Buffer [i < NBUF] is [bcache.buf[i]] and node [NBUF] of the linked list
    is [bcache.head]; [bnext] and [bprev] hold the list's pointers. The
    driver below the cache is [disk_rw], the operation of a block device. *)

From S2P Require Import Prelude Riscv Memory Machine Spinlock Kernel Cstring Printf Proc Sleeplock.

Definition BSIZE : Z := 1024.

(** What the cache asks of the disk driver: [disk_rw b write] is
    [virtio_disk_rw(b, write)]. *)
Class BlockDevice := { disk_rw : nat -> bool -> M kernel unit }.

Definition bhead : nat := NBUF.
Definition all_bufs : list nat := seq 0 NBUF.

Definition get_next : nat -> M kernel nat := idx_get "next" bnext.
Definition get_prev : nat -> M kernel nat := idx_get "prev" bprev.
Definition set_next (b x : nat) : M kernel unit := idx_upd "next" bnext upd_bnext b (set x).
Definition set_prev (b x : nat) : M kernel unit := idx_upd "prev" bprev upd_bprev b (set x).

Section bio.
Context {KI : KernelImage} {C : Config} {D : BlockDevice}.

(** Insert [b] at the front of the list. *)
Definition binit : M kernel unit :=
  do! lift (initlock LkBcache) in
  do! set_prev bhead bhead in
  do! set_next bhead bhead in
  for_all all_bufs (fun b =>
    let! f := get_next bhead in
    do! set_next b f in
    do! set_prev b bhead in
    do! initsleeplock (SlBuf b) in
    let! f := get_next bhead in
    do! set_prev f b in
    set_next bhead b).

(** [b = b->next] until the head; [inr] is the buffer found. *)
Definition find_cached (dev blockno : Z) : M kernel (option nat) :=
  let! f := get_next bhead in
  while (fun b : nat =>
    if bool_decide (b = bhead) then ret (inr None) else
    let! x := get_buf b in
    if (b_dev x =? dev) && (b_blockno x =? blockno) then
      do! upd_buf b (upd_b_refcnt (fun r => u32 (r + 1))) in ret (inr (Some b))
    else let! n := get_next b in ret (inl n)) f.

Definition find_unused (dev blockno : Z) : M kernel (option nat) :=
  let! f := get_prev bhead in
  while (fun b : nat =>
    if bool_decide (b = bhead) then ret (inr None) else
    let! x := get_buf b in
    if b_refcnt x =? 0 then
      do! upd_buf b (fun x => upd_b_refcnt (set 1) (upd_b_valid (set false)
            (upd_b_blockno (set blockno) (upd_b_dev (set dev) x)))) in
      ret (inr (Some b))
    else let! n := get_prev b in ret (inl n)) f.

Definition bget (dev blockno : Z) : M kernel nat :=
  do! lift (acquire LkBcache) in
  let! r := find_cached dev blockno in
  match r with
  | Some b =>
      do! lift (release LkBcache) in
      do! acquiresleep (SlBuf b) in
      ret b
  | None =>
      let! r := find_unused dev blockno in
      match r with
      | Some b =>
          do! lift (release LkBcache) in
          do! acquiresleep (SlBuf b) in
          ret b
      | None => panic "bget: no buffers"
      end
  end.

Definition bread (dev blockno : Z) : M kernel nat :=
  let! b := bget dev blockno in
  let! x := get_buf b in
  do! when (negb (b_valid x))
    (do! disk_rw b false in upd_buf b (upd_b_valid (set true))) in
  ret b.

Definition bwrite (b : nat) : M kernel unit :=
  let! h := holdingsleep (SlBuf b) in
  if negb h then panic "bwrite" else disk_rw b true.

(** Unlink [b] and link it at the front. *)
Definition move_front (b : nat) : M kernel unit :=
  let! n := get_next b in
  let! p := get_prev b in
  do! set_prev n p in
  let! p := get_prev b in
  let! n := get_next b in
  do! set_next p n in
  let! f := get_next bhead in
  do! set_next b f in
  do! set_prev b bhead in
  let! f := get_next bhead in
  do! set_prev f b in
  set_next bhead b.

Definition brelse (b : nat) : M kernel unit :=
  let! h := holdingsleep (SlBuf b) in
  if negb h then panic "brelse" else
  do! releasesleep (SlBuf b) in
  do! lift (acquire LkBcache) in
  do! upd_buf b (upd_b_refcnt (fun r => u32 (r - 1))) in
  let! x := get_buf b in
  do! when (b_refcnt x =? 0) (move_front b) in
  lift (release LkBcache).

Definition bpin (b : nat) : M kernel unit :=
  do! lift (acquire LkBcache) in
  do! upd_buf b (upd_b_refcnt (fun r => u32 (r + 1))) in
  lift (release LkBcache).

Definition bunpin (b : nat) : M kernel unit :=
  do! lift (acquire LkBcache) in
  do! upd_buf b (upd_b_refcnt (fun r => u32 (r - 1))) in
  lift (release LkBcache).
End bio.
