(* ===== verification/Lru.v ===== *)
(** * The circular list of buffers

    [bcache.head] and the [next] and [prev] pointers of the buffers, as a
    list of buffer indices: from the most to the least recently released. *)

From S2P Require Import Prelude Riscv Memory Machine Spinlock Kernel Klock Cstring Printf Proc Sleeplock SleepSpec Bio.

(** From node [a] to node [b] through the nodes [l]. *)
Fixpoint dseg (nx pv : list nat) (a : nat) (l : list nat) (b : nat) : Prop :=
  match l with
  | [] => nx !! a = Some b /\ pv !! b = Some a
  | c :: l' => nx !! a = Some c /\ pv !! c = Some a /\ dseg nx pv c l' b
  end.

Section dseg.
Implicit Types (nx pv l : list nat) (a b c d : nat).

Lemma dseg_app nx pv a l1 c l2 b :
  dseg nx pv a (l1 ++ c :: l2) b <-> dseg nx pv a l1 c /\ dseg nx pv c l2 b.
Proof. revert a. induction l1 as [|x l1 IH]; intros a; simpl; [tauto|]. rewrite IH. tauto. Qed.

(** Read backwards, the pointers swap roles. *)
Lemma dseg_reverse nx pv a l b : dseg nx pv a l b -> dseg pv nx b (reverse l) a.
Proof.
  revert a. induction l as [|x l IH]; intros a; simpl; [tauto|]. intros (H1 & H2 & H3).
  rewrite reverse_cons. apply dseg_app. split; [by apply IH|done].
Qed.

Lemma dseg_head nx pv a l b : dseg nx pv a l b -> nx !! a = Some (default b (head l)).
Proof. destruct l; simpl; tauto. Qed.
Lemma dseg_last nx pv a l b : dseg nx pv a l b -> pv !! b = Some (default a (list.last l)).
Proof. intros H%dseg_reverse%dseg_head. by rewrite H, head_reverse. Qed.
Lemma dseg_head_prev nx pv a l b : dseg nx pv a l b -> pv !! default b (head l) = Some a.
Proof. destruct l; simpl; tauto. Qed.
Lemma dseg_last_next nx pv a l b : dseg nx pv a l b -> nx !! default a (list.last l) = Some b.
Proof. intros H%dseg_reverse%dseg_head_prev. by rewrite head_reverse in H. Qed.

Lemma dseg_frame_next nx pv a l b i v : i ∉ a :: l -> dseg nx pv a l b -> dseg (<[i := v]> nx) pv a l b.
Proof.
  revert a. induction l as [|x l IH]; intros a Hi; simpl; rewrite list_lookup_insert_ne by set_solver; [done|].
  intros (? & ? & ?). split_and!; [done..|]. apply IH; [set_solver|done].
Qed.
Lemma dseg_frame_prev nx pv a l b i v : i ∉ l -> i <> b -> dseg nx pv a l b -> dseg nx (<[i := v]> pv) a l b.
Proof.
  revert a. induction l as [|x l IH]; intros a Hi Hb; simpl; rewrite list_lookup_insert_ne by set_solver; [done|].
  intros (? & ? & ?). split_and!; [done..|]. apply IH; [set_solver|done|done].
Qed.

(** Ending the segment at another node. *)
Lemma dseg_relink nx pv a l c d :
  NoDup (a :: l) -> d ∉ l -> (d < length pv)%nat -> dseg nx pv a l c ->
  let p := default a (list.last l) in dseg (<[p := d]> nx) (<[d := p]> pv) a l d.
Proof.
  revert a. induction l as [|x l IH]; intros a Hnd Hd Hl; simpl.
  - intros [H1 H2]. split; [apply list_lookup_insert_eq; by eapply lookup_lt_Some|by apply list_lookup_insert_eq].
  - intros (H1 & H2 & H3). apply list.NoDup_cons in Hnd as [Ha Hnd].
    assert (Hp : default a (list.last (x :: l)) = default x (list.last l)).
    { destruct l; [done|]. simpl. destruct (list.last _) eqn:E; [done|]. by apply last_None in E. }
    assert (Hpl : default x (list.last l) ∈ x :: l).
    { destruct (list.last l) as [y|] eqn:E; [|set_solver]. apply last_Some_elem_of in E. set_solver. }
    fold (list.last (x :: l)). rewrite Hp. split_and!.
    + rewrite list_lookup_insert_ne by (intros <-; done). done.
    + rewrite list_lookup_insert_ne by set_solver. done.
    + apply IH; [done|set_solver|done|done].
Qed.

(** Unlinking [c]: what its two neighbours point to. *)
Lemma dseg_unlink nx pv a l1 c l2 b :
  NoDup (l1 ++ c :: l2) -> a ∉ l1 ++ c :: l2 -> b ∉ l1 ++ c :: l2 -> dseg nx pv a (l1 ++ c :: l2) b ->
  let p := default a (list.last l1) in let n := default b (head l2) in
  dseg (<[p := n]> nx) (<[n := p]> pv) a (l1 ++ l2) b.
Proof.
  intros Hnd Ha Hb H p n. apply list.NoDup_app in Hnd as (N1 & N12 & N2).
  apply list.NoDup_cons in N2 as [Nc N2]. apply dseg_app in H as [H1 H2].
  assert (Hn : pv !! n = Some c).
  { subst n. destruct l2; simpl in *; tauto. }
  assert (R : dseg (<[p := n]> nx) (<[n := p]> pv) a l1 n).
  { apply (dseg_relink nx pv a l1 c n); [|subst n|by eapply lookup_lt_Some|done].
    - apply list.NoDup_cons. split; [set_solver|done].
    - destruct l2 as [|y l2]; simpl; [set_solver|]. intros Hy. apply (N12 y Hy). set_solver. }
  destruct l2 as [|y l2]; [by rewrite app_nil_r|]. apply dseg_app. simpl in n. subst n. split; [done|].
  destruct H2 as (_ & _ & H2). apply list.NoDup_cons in N2 as [Ny N2]. apply dseg_frame_next.
  - subst p. destruct (list.last l1) as [z|] eqn:E; simpl; [|set_solver]. apply last_Some_elem_of in E.
    intros Hz. apply (N12 z E). set_solver.
  - apply dseg_frame_prev; [done| |done]. set_solver.
Qed.

(** Linking [c] after the node [h]. *)
Lemma dseg_link nx pv h l b c f :
  h <> c -> c <> b -> c ∉ l -> h ∉ l -> b ∉ l -> NoDup l -> (c < length nx)%nat -> (c < length pv)%nat ->
  nx !! h = Some f -> dseg nx pv h l b ->
  dseg (<[h := c]> (<[c := f]> nx)) (<[f := c]> (<[c := h]> pv)) h (c :: l) b.
Proof.
  intros Hhc Hcb Hcl Hhl Hbl Hnd Ln Lp Hf H. pose proof (dseg_head _ _ _ _ _ H) as Hf'.
  assert (f = default b (head l)) as -> by congruence. clear Hf'. pose proof (lookup_lt_Some _ _ _ Hf) as Lh.
  assert (Hfc : default b (head l) <> c) by (destruct l; simpl; set_solver).
  cbn [dseg]. split_and!.
  - apply list_lookup_insert_eq. by rewrite length_insert.
  - rewrite list_lookup_insert_ne by done. by apply list_lookup_insert_eq.
  - destruct l as [|y l]; simpl in *.
    + destruct H as [H1 H2]. rewrite list_lookup_insert_ne by done.
      split; [by apply list_lookup_insert_eq|]. apply list_lookup_insert_eq. rewrite length_insert. by eapply lookup_lt_Some.
    + destruct H as (H1 & H2 & H3). rewrite list_lookup_insert_ne by done. split_and!.
      * by apply list_lookup_insert_eq.
      * apply list_lookup_insert_eq. rewrite length_insert. by eapply lookup_lt_Some.
      * apply list.NoDup_cons in Hnd as [Hy Hnd].
        apply dseg_frame_next; [set_solver|]. apply dseg_frame_next; [set_solver|].
        apply dseg_frame_prev; [done|set_solver|]. apply dseg_frame_prev; [set_solver|done|done].
Qed.
End dseg.

(** The list of a kernel: [order] holds every buffer once. *)
Record linked (k : kernel) (order : list nat) : Prop := mk_linked {
  lk_next : length (bnext k) = S NBUF;
  lk_prev : length (bprev k) = S NBUF;
  lk_perm : order ≡ₚ all_bufs;
  lk_list : dseg (bnext k) (bprev k) bhead order bhead
}.

Section linked.
Context (k : kernel) (order : list nat) (L : linked k order).

Lemma linked_nodup : NoDup order.
Proof using L. rewrite (lk_perm _ _ L). apply NoDup_seq. Qed.
Lemma linked_elem b : b ∈ order <-> (b < NBUF)%nat.
Proof using L. rewrite (lk_perm _ _ L). unfold all_bufs. rewrite elem_of_seq. lia. Qed.
Lemma linked_head : bhead ∉ order.
Proof using L. rewrite linked_elem. unfold bhead. lia. Qed.

End linked.

Lemma linked_ext k k' order : bnext k' = bnext k -> bprev k' = bprev k -> linked k order -> linked k' order.
Proof. intros E1 E2 [H1 H2 H3 H4]. split; congruence. Qed.

Section pointers.
Context (k : kernel) (b x : nat).

Lemma get_next_eq : bnext k !! b = Some x -> get_next b k = Ret x k.
Proof. intros H. unfold get_next, idx_get. by rewrite H. Qed.
Lemma get_prev_eq : bprev k !! b = Some x -> get_prev b k = Ret x k.
Proof. intros H. unfold get_prev, idx_get. by rewrite H. Qed.
Lemma set_next_eq : (b < length (bnext k))%nat -> set_next b x k = Ret tt (upd_bnext (<[b := x]>) k).
Proof. intros [y Hy]%lookup_lt_is_Some. unfold set_next, idx_upd. by rewrite Hy. Qed.
Lemma set_prev_eq : (b < length (bprev k))%nat -> set_prev b x k = Ret tt (upd_bprev (<[b := x]>) k).
Proof. intros [y Hy]%lookup_lt_is_Some. unfold set_prev, idx_upd. by rewrite Hy. Qed.
End pointers.

(** Reading the pointers of an updated list. *)
Ltac lru_look :=
  repeat first
    [ rewrite list_lookup_insert_ne by congruence
    | rewrite list_lookup_insert_eq by (rewrite ?length_insert; assumption || lia)
    | match goal with H : ?l !! ?i = Some _ |- context [?l !! ?i] => rewrite H end ].

(** Running a sequence of pointer operations. *)
Ltac lru_run :=
  repeat (erewrite bind_ret by
    (first [eapply get_next_eq | eapply get_prev_eq | eapply set_next_eq | eapply set_prev_eq];
     kcbn; rewrite ?length_insert; lru_look; first [reflexivity | assumption | lia]));
  first [rewrite set_next_eq by (kcbn; rewrite ?length_insert; unfold bhead in *; lia)
        | rewrite set_prev_eq by (kcbn; rewrite ?length_insert; unfold bhead in *; lia)].

(** Moving [b] to the front. *)
Lemma move_front_eq k l1 b l2 :
  linked k (l1 ++ b :: l2) ->
  exists nx pv, let k' := upd_bprev (fun _ => pv) (upd_bnext (fun _ => nx) k) in
    move_front b k = Ret tt k' /\ linked k' (b :: l1 ++ l2).
Proof.
  intros L. pose proof (linked_nodup _ _ L) as Hnd. pose proof (linked_head _ _ L) as Hh.
  assert (Hb : (b < NBUF)%nat) by (apply (linked_elem _ _ L); set_solver).
  destruct L as [Ln Lp Hperm Hd]. pose proof Hd as [Hd1 Hd2]%dseg_app.
  pose proof (dseg_last _ _ _ _ _ Hd1) as Hp. pose proof (dseg_head _ _ _ _ _ Hd2) as Hn.
  pose proof (dseg_unlink _ _ _ _ _ _ _ Hnd Hh Hh Hd) as Hu. cbv zeta in Hu.
  set (p := default bhead (list.last l1)) in *. set (n := default bhead (head l2)) in *.
  apply list.NoDup_app in Hnd as (N1 & N12 & N2). apply list.NoDup_cons in N2 as [Nb N2].
  assert (Hnb : n <> b). { subst n. destruct l2; simpl; [unfold bhead; lia|set_solver]. }
  assert (Hpb : p <> b).
  { subst p. destruct (list.last l1) as [z|] eqn:E; simpl; [|unfold bhead; lia]. apply last_Some_elem_of in E.
    intros ->. apply (N12 b E). set_solver. }
  pose proof (lookup_lt_Some _ _ _ (dseg_head_prev _ _ _ _ _ Hd2)) as Lnn. fold n in Lnn.
  pose proof (lookup_lt_Some _ _ _ (dseg_last_next _ _ _ _ _ Hd1)) as Lpp. fold p in Lpp.
  set (nx := <[p := n]> (bnext k)) in *. set (pv := <[n := p]> (bprev k)) in *.
  destruct (lookup_lt_is_Some_2 nx bhead) as [f Hf]; [subst nx; rewrite length_insert, Ln; unfold bhead; lia|].
  exists (<[bhead := b]> (<[b := f]> nx)), (<[f := b]> (<[b := bhead]> pv)). cbv zeta.
  assert (Hbh : b <> bhead) by (unfold bhead; lia).
  assert (Lf : (f < length pv)%nat).
  { apply dseg_head_prev in Hu as Hu'. apply dseg_head in Hu. rewrite Hu in Hf. injection Hf as <-. by eapply lookup_lt_Some. }
  split.
  - clearbody p n. subst nx pv. rewrite length_insert in Lf. unfold move_front. lru_run; reflexivity.
  - split; kcbn.
    + subst nx. by rewrite !length_insert.
    + subst pv. by rewrite !length_insert.
    + rewrite <- Hperm. apply Permutation_middle.
    + apply dseg_link; [done|done|set_solver|set_solver|set_solver| |subst nx; rewrite length_insert; lia
        |subst pv; rewrite length_insert; lia|done|done].
      apply list.NoDup_app. split_and!; [done| |done]. intros x H1 H2. apply (N12 x H1). set_solver.
Qed.

(** ** Walking the list *)

Section walk.
Context (k : kernel) (nx pv : list nat) (test : nat -> bool) (found : nat -> kernel).
Context (body : nat -> M kernel (nat + option nat)).
Context (Hend : body bhead k = Ret (inr None) k).
Context (Hhit : forall b, (b < NBUF)%nat -> test b = true -> body b k = Ret (inr (Some b)) (found b)).
Context (Hmiss : forall b n, (b < NBUF)%nat -> test b = false -> nx !! b = Some n -> body b k = Ret (inl n) k).

Lemma walk_eq a l :
  dseg nx pv a l bhead -> (forall b, b ∈ l -> (b < NBUF)%nat) -> Z.of_nat (length l) < 2 ^ 64 ->
  while body (default bhead (list.head l)) k =
  match List.find test l with Some b => Ret (Some b) (found b) | None => Ret None k end.
Proof using Hend Hhit Hmiss.
  intros Hd Hl Hlen.
  enough (H : wp (while body (default bhead (list.head l))) (fun r s =>
    match List.find test l with Some b => r = Some b /\ s = found b | None => r = None /\ s = k end) k).
  { apply wp_inv in H as (r & s & -> & H). by destruct (List.find test l); destruct H as [-> ->]. }
  apply (wp_while_ghost body (fun (g : list nat) b s => s = k /\ b = default bhead (list.head g) /\
    (exists a, dseg nx pv a g bhead) /\ (forall b, b ∈ g -> (b < NBUF)%nat) /\ List.find test g = List.find test l)
    (fun g => Z.of_nat (length g)) _ l); [|by eauto 10|lia].
  intros g b s (-> & -> & [a' Hg] & Hb & Ef). destruct g as [|x g]; simpl in *.
  - eapply wp_eq; [exact Hend|]. by rewrite <- Ef.
  - destruct Hg as (_ & _ & Hg). assert (Hx : (x < NBUF)%nat) by (apply Hb; set_solver).
    destruct (test x) eqn:Et.
    + eapply wp_eq; [by apply Hhit|]. by rewrite <- Ef.
    + eapply wp_eq; [eapply Hmiss; [done|done|by eapply dseg_head]|]. exists g. split; [|lia].
      split_and!; [done|done|by eauto|intros; apply Hb; set_solver|done].
Qed.
End walk.

(** The tests of the two loops of [bget]. *)
Definition caches (k : kernel) (dev blockno : Z) (b : nat) : bool :=
  match bufs k !! b with Some x => (b_dev x =? dev) && (b_blockno x =? blockno) | None => false end.
Definition unused (k : kernel) (b : nat) : bool :=
  match bufs k !! b with Some x => b_refcnt x =? 0 | None => false end.

Section find.
Context (k : kernel) (order : list nat) (L : linked k order) (Hlen : length (bufs k) = NBUF).

Lemma buf_lookup b : (b < NBUF)%nat -> exists x, bufs k !! b = Some x.
Proof using Hlen. intros H. apply lookup_lt_is_Some_2. lia. Qed.

Lemma order_length : Z.of_nat (length order) < 2 ^ 64.
Proof using L. rewrite (lk_perm _ _ L). done. Qed.

Lemma find_cached_eq dev blockno :
  find_cached dev blockno k =
  match List.find (caches k dev blockno) order with
  | Some b => Ret (Some b) (upd_bufs (alter (upd_b_refcnt (fun r => u32 (r + 1))) b) k)
  | None => Ret None k
  end.
Proof using L Hlen.
  unfold find_cached. pose proof (lk_list _ _ L) as Hd.
  erewrite bind_ret by (eapply get_next_eq, dseg_head; exact Hd).
  apply (walk_eq k (bnext k) (bprev k) (caches k dev blockno)
    (fun b => upd_bufs (alter (upd_b_refcnt (fun r => u32 (r + 1))) b) k)) with (a := bhead);
    [done| | |done|by intros b; rewrite (linked_elem k order)|exact order_length].
  - intros b Hb Ht. rewrite bool_decide_eq_false_2 by (unfold bhead; lia). unfold caches in Ht.
    destruct (buf_lookup b Hb) as [x Hx]. rewrite Hx in Ht.
    erewrite bind_ret by (unfold get_buf, idx_get; by rewrite Hx). rewrite Ht.
    erewrite bind_ret by (unfold upd_buf, idx_upd; by rewrite Hx). unfold ret, upd_bufs.
    by erewrite alter_lookup.
  - intros b n Hb Ht Hn. rewrite bool_decide_eq_false_2 by (unfold bhead; lia). unfold caches in Ht.
    destruct (buf_lookup b Hb) as [x Hx]. rewrite Hx in Ht.
    erewrite bind_ret by (unfold get_buf, idx_get; by rewrite Hx). rewrite Ht.
    by erewrite bind_ret by (by apply get_next_eq).
Qed.

Lemma find_unused_eq dev blockno :
  find_unused dev blockno k =
  match List.find (unused k) (reverse order) with
  | Some b => Ret (Some b) (upd_bufs (alter (fun x => upd_b_refcnt (set 1) (upd_b_valid (set false)
            (upd_b_blockno (set blockno) (upd_b_dev (set dev) x)))) b) k)
  | None => Ret None k
  end.
Proof using L Hlen.
  unfold find_unused. pose proof (dseg_reverse _ _ _ _ _ (lk_list _ _ L)) as Hd.
  erewrite bind_ret by (eapply get_prev_eq, dseg_head; exact Hd).
  apply (walk_eq k (bprev k) (bnext k) (unused k)
    (fun b => upd_bufs (alter (fun x => upd_b_refcnt (set 1) (upd_b_valid (set false)
            (upd_b_blockno (set blockno) (upd_b_dev (set dev) x)))) b) k)) with (a := bhead);
    [done| | |done|by intros b; rewrite elem_of_reverse, (linked_elem k order)|rewrite length_reverse; exact order_length].
  - intros b Hb Ht. rewrite bool_decide_eq_false_2 by (unfold bhead; lia). unfold unused in Ht.
    destruct (buf_lookup b Hb) as [x Hx]. rewrite Hx in Ht.
    erewrite bind_ret by (unfold get_buf, idx_get; by rewrite Hx). rewrite Ht.
    erewrite bind_ret by (unfold upd_buf, idx_upd; by rewrite Hx). unfold ret, upd_bufs.
    by erewrite alter_lookup.
  - intros b n Hb Ht Hn. rewrite bool_decide_eq_false_2 by (unfold bhead; lia). unfold unused in Ht.
    destruct (buf_lookup b Hb) as [x Hx]. rewrite Hx in Ht.
    erewrite bind_ret by (unfold get_buf, idx_get; by rewrite Hx). rewrite Ht.
    by erewrite bind_ret by (by apply get_prev_eq).
Qed.
End find.
