(* ===== verification/BioSpec.v ===== *)
(** * What the buffer cache guarantees

    The cache of one thread: which buffers it holds, which blocks are pinned,
    and the contents [V] it reads and writes, which differ from the disk only
    in the dirty blocks. Each function of [kernel/bio.c] keeps the invariant. *)

From S2P Require Import Prelude Riscv Memory Machine Spinlock Kalloc Vm Kernel Klock KSample Cstring Printf Proc Sched ProcSpec Sleeplock SleepSpec Bio Lru.

(** ** The disk *)

(** Block [n] after the writes [ws], the latest first. *)
Fixpoint disk_after (img : Z -> list Z) (ws : list (Z * list Z)) (n : Z) : list Z :=
  match ws with
  | [] => img n
  | (m, d) :: ws' => if decide (m = n) then d else disk_after img ws' n
  end.
Definition block_on (k : kernel) : Z -> list Z := disk_after (d_image (kdisk k)) (d_writes (kdisk k)).
Definition disk_put (n : Z) (d : list Z) : kernel -> kernel := upd_kdisk (upd_d_writes (cons (n, d))).

(** What the cache relies on: the driver reads a block into the buffer and
    writes the buffer to its block, and returns when that is done. *)
Class Disk {D : BlockDevice} : Prop := {
  disk_read k b x : ready (mach k) LkVdisk -> bufs k !! b = Some x ->
    disk_rw b false k =
    Ret tt (upd_bufs (<[b := upd_b_data (set (block_on k (b_blockno x))) x]>) (upd_mach touch k));
  disk_write k b x : ready (mach k) LkVdisk -> bufs k !! b = Some x ->
    disk_rw b true k = Ret tt (disk_put (b_blockno x) (b_data x) (upd_mach touch k))
}.

(** A function on blocks changed at one block. *)
Definition fupd (f : Z -> list Z) (n : Z) (d : list Z) : Z -> list Z :=
  fun m => if decide (n = m) then d else f m.
Lemma fupd_eq f n d : fupd f n d n = d.
Proof. unfold fupd. by rewrite decide_True. Qed.
Lemma fupd_ne f n d m : n <> m -> fupd f n d m = f m.
Proof. intros. unfold fupd. by rewrite decide_False. Qed.

Lemma block_on_put n d k m : block_on (disk_put n d k) m = fupd (block_on k) n d m.
Proof. done. Qed.

Section cache.
Context {KI : KernelImage} {C : Config} {D : BlockDevice} {DL : Disk}.
Context (me : nat) (pid : Z) (dev : Z).

(** [H] maps each buffer the thread holds to its block. *)
Definition refs (H : gmap nat Z) (P : gset Z) (i : nat) (n : Z) : Z :=
  (if decide (is_Some (H !! i)) then 1 else 0) + (if decide (n ∈ P) then 1 else 0).

Lemma refs_held H P i n m : H !! i = Some n -> refs H P i m = 1 + (if decide (m ∈ P) then 1 else 0).
Proof. intros E. unfold refs. by rewrite decide_True by eauto. Qed.
Lemma refs_free H P i m : H !! i = None -> refs H P i m = if decide (m ∈ P) then 1 else 0.
Proof. intros E. unfold refs. rewrite decide_False; [done|]. rewrite E. by intros []. Qed.
Lemma refs_ext H H' P P' i m :
  H' !! i = H !! i -> (m ∈ P' <-> m ∈ P) -> refs H' P' i m = refs H P i m.
Proof.
  intros E1 E2. unfold refs. rewrite E1. f_equal.
  destruct (decide (m ∈ P)); [rewrite decide_True; tauto|rewrite decide_False; tauto].
Qed.

(** A buffer of the cache. *)
Record buf_ok (H : gmap nat Z) (P : gset Z) (V : Z -> list Z) (i : nat) (x : buf) : Prop := mk_buf_ok {
  bo_unlocked : H !! i = None -> sl_locked (b_lock x) = false;
  bo_held n : H !! i = Some n -> b_lock x = mk_sleeplock true pid /\ b_dev x = dev /\ b_blockno x = n;
  bo_mine : b_dev x = dev ->
    b_valid x = true /\ b_refcnt x = refs H P i (b_blockno x) /\ b_data x = V (b_blockno x);
  bo_other : b_dev x <> dev -> b_valid x = false /\ b_refcnt x = 0
}.

Record cache (H : gmap nat Z) (P dirty : gset Z) (V : Z -> list Z) (k : kernel) : Prop := mk_cache {
  ca_thread : thread me pid k;
  ca_len : length (bufs k) = NBUF;
  ca_lru : exists order, linked k order;
  ca_held i n : H !! i = Some n -> (i < NBUF)%nat;
  ca_uniq i j x y : bufs k !! i = Some x -> bufs k !! j = Some y ->
    b_dev x = dev -> b_dev y = dev -> b_blockno x = b_blockno y -> i = j;
  ca_buf i x : bufs k !! i = Some x -> buf_ok H P V i x;
  ca_pin n : n ∈ P -> exists i x, bufs k !! i = Some x /\ b_dev x = dev /\ b_blockno x = n;
  ca_clean n : n ∉ dirty -> V n = block_on k n;
  ca_dirty n : n ∈ dirty -> n ∈ P \/ exists i, H !! i = Some n
}.

(** The rest of the kernel is left alone. *)
Definition frame (k k' : kernel) : Prop := others k' = others k /\ klog k' = klog k.
#[export] Instance frame_preorder : PreOrder frame.
Proof. split; [by intros ?|]. intros ??? [] []. split; congruence. Qed.

(** The buffer [i] becomes [x']; the list may be reordered. *)
Lemma cache_step H P dirty V H' P' dirty' V' k k' i x x' :
  cache H P dirty V k -> thread me pid k' -> (exists order, linked k' order) ->
  bufs k !! i = Some x -> bufs k' = <[i := x']> (bufs k) ->
  buf_ok H' P' V' i x' ->
  (forall j n, H' !! j = Some n -> j = i \/ H !! j = Some n) ->
  (forall j y, j <> i -> bufs k !! j = Some y -> buf_ok H P V j y -> buf_ok H' P' V' j y) ->
  (b_dev x' = dev -> forall j y, j <> i -> bufs k !! j = Some y -> b_dev y = dev -> b_blockno y <> b_blockno x') ->
  (forall n, n ∈ P' -> (b_dev x' = dev /\ b_blockno x' = n) \/
     exists j y, j <> i /\ bufs k !! j = Some y /\ b_dev y = dev /\ b_blockno y = n) ->
  (forall n, n ∉ dirty' -> V' n = block_on k' n) ->
  (forall n, n ∈ dirty' -> n ∈ P' \/ exists j, H' !! j = Some n) ->
  cache H' P' dirty' V' k'.
Proof.
  intros Hc HT HL Hx Eb Hi HH Hj Hu HP Hcl Hd. pose proof (lookup_lt_Some _ _ _ Hx) as Hlt.
  assert (Hlook : forall j y, bufs k' !! j = Some y -> (j = i /\ y = x') \/ (j <> i /\ bufs k !! j = Some y)).
  { intros j y. rewrite Eb. destruct (decide (i = j)) as [<-|Hne].
    - rewrite list_lookup_insert_eq by done. intros [= ->]. by left.
    - rewrite list_lookup_insert_ne by done. right. split; [congruence|done]. }
  split; try done.
  - rewrite Eb, length_insert. apply Hc.
  - intros j n Hjn. destruct (HH j n Hjn) as [->|?]; [rewrite <- (ca_len _ _ _ _ _ Hc); done|by eapply Hc].
  - intros j1 j2 y1 y2 [[-> ->]|[N1 L1]]%Hlook [[-> ->]|[N2 L2]]%Hlook D1 D2 E; [done| | |by eapply Hc].
    + by destruct (Hu D1 j2 y2 N2 L2 D2).
    + by destruct (Hu D2 j1 y1 N1 L1 D1).
  - intros j y [[-> ->]|[N1 L1]]%Hlook; [done|]. apply Hj; [done|done|by apply Hc].
  - intros n [[D1 <-]|(j & y & N1 & L1 & D1 & E)]%HP.
    + exists i, x'. rewrite Eb. by rewrite list_lookup_insert_eq.
    + exists j, y. rewrite Eb. by rewrite list_lookup_insert_ne.
Qed.

(** The cache after an operation that wrote the blocks [ws], latest first. *)
Record went (k : kernel) (H : gmap nat Z) (P dirty : gset Z) (V : Z -> list Z) (ws : list (Z * list Z))
    (k' : kernel) : Prop := mk_went {
  we_cache : cache H P dirty V k';
  we_frame : frame k k';
  we_disk : kdisk k' = upd_d_writes (app ws) (kdisk k)
}.

Lemma went_trans k1 k2 H2 P2 d2 V2 ws1 k3 H3 P3 d3 V3 ws2 :
  went k1 H2 P2 d2 V2 ws1 k2 -> went k2 H3 P3 d3 V3 ws2 k3 -> went k1 H3 P3 d3 V3 (ws2 ++ ws1) k3.
Proof.
  intros [_ F1 E1] [C2 F2 E2]. split; [done|by etrans|]. rewrite E2, E1. unfold upd_d_writes. simpl. by rewrite app_assoc.
Qed.
Lemma no_writes p : p = upd_d_writes (app []) p.
Proof. by destruct p. Qed.
Lemma went_refl k H P d V : cache H P d V k -> went k H P d V [] k.
Proof. intros Hc. split; [done|done|apply no_writes]. Qed.

(** The contents matter up to equality at each block, and the log not at all. *)
Lemma cache_ext H P d V V' k : (forall n, V n = V' n) -> cache H P d V k -> cache H P d V' k.
Proof.
  intros E [H1 H2 H3 H4 H5 H6 H7 H8 H9]. split; try done.
  - intros i x Hx. destruct (H6 i x Hx) as [O1 O2 O3 O4]. split; try done. intros Dx. rewrite <- E. by apply O3.
  - intros n Hn. rewrite <- E. by apply H8.
Qed.
Lemma went_ext k H P d V V' ws k' : (forall n, V n = V' n) -> went k H P d V ws k' -> went k H P d V' ws k'.
Proof. intros E [H1 H2 H3]. split; [by eapply cache_ext|done|done]. Qed.
Lemma cache_klog H P d V f k : cache H P d V k -> cache H P d V (upd_klog f k).
Proof.
  intros [H1 H2 [o H3] H4 H5 H6 H7 H8 H9]. split; try done; [by apply (thread_ext _ _ k)|].
  exists o. by apply (linked_ext k).
Qed.

(** Counting a reference under the lock of the cache. *)
Lemma count_eq k b x g :
  ready (mach k) LkBcache -> bufs k !! b = Some x ->
  (do! lift (acquire LkBcache) in do! upd_buf b (upd_b_refcnt g) in lift (release LkBcache)) k =
  Ret tt (upd_bufs (<[b := upd_b_refcnt g x]>) (upd_mach touch k)).
Proof.
  intros Hr Hx. erewrite bind_ret by (apply kacquire_eq, Hr).
  erewrite bind_ret by (unfold upd_buf, idx_upd; kcbn; by rewrite Hx).
  by rewrite (krelease_eq k).
Qed.

Lemma cache_thread H P d V k k' :
  thread me pid k' -> bufs k' = bufs k -> bnext k' = bnext k -> bprev k' = bprev k -> kdisk k' = kdisk k ->
  cache H P d V k -> cache H P d V k'.
Proof.
  intros HT E1 E2 E3 E4 [H1 H2 [o H3] H4 H5 H6 H7 H8 H9]. split; try (by rewrite E1); try done.
  - exists o. by apply (linked_ext k).
  - unfold block_on. by rewrite E4.
Qed.

Section ops.
Context (H : gmap nat Z) (P dirty : gset Z) (V : Z -> list Z) (k : kernel) (Hc : cache H P dirty V k).

(** A buffer the thread holds. *)
Lemma held_buf b n :
  H !! b = Some n -> exists x, bufs k !! b = Some x /\ buf_ok H P V b x /\ b_lock x = mk_sleeplock true pid /\
    b_dev x = dev /\ b_blockno x = n /\ b_valid x = true /\ b_refcnt x = 1 + (if decide (n ∈ P) then 1 else 0) /\
    b_data x = V n.
Proof using Hc.
  intros Hb. destruct (lookup_lt_is_Some_2 (bufs k) b) as [x Hx].
  { rewrite (ca_len _ _ _ _ _ Hc). by eapply Hc. }
  pose proof (ca_buf _ _ _ _ _ Hc b x Hx) as Hok. destruct (bo_held _ _ _ _ _ Hok n Hb) as (E1 & E2 & E3).
  destruct (bo_mine _ _ _ _ _ Hok E2) as (E4 & E5 & E6). exists x. subst n. split_and!; try done.
  rewrite E5. by eapply refs_held.
Qed.

Lemma held_unique b b' n : H !! b = Some n -> H !! b' = Some n -> b = b'.
Proof using Hc.
  intros (x & Hx & _ & _ & D1 & E1 & _)%held_buf (y & Hy & _ & _ & D2 & E2 & _)%held_buf.
  eapply Hc; [exact Hx|exact Hy|done|done|congruence].
Qed.

Lemma get_held b n :
  H !! b = Some n -> exists x, get_buf b k = Ret x k /\ b_blockno x = n /\ b_data x = V n.
Proof using Hc.
  intros (x & Hx & _ & _ & _ & E & _ & _ & Ed)%held_buf. exists x. split; [|done]. unfold get_buf, idx_get. by rewrite Hx.
Qed.

Lemma holding_held b n : H !! b = Some n -> holdingsleep (SlBuf b) k = Ret true (upd_mach touch k).
Proof using Hc.
  intros Hb. destruct (held_buf b n Hb) as (x & Hx & _ & El & _).
  erewrite (holdingsleep_eq me pid k) by (first [apply Hc|by eapply Hc|simpl; by rewrite Hx]). simpl.
  by rewrite El, Z.eqb_refl.
Qed.

(** Changing what does not matter to the cache. *)
Lemma cache_touch : cache H P dirty V (upd_mach touch k).
Proof using Hc.
  destruct Hc as [H1 H2 [o H3] H4 H5 H6 H7 H8 H9]. split; try done; [by apply thread_touch|].
  exists o. by apply (linked_ext k).
Qed.

Lemma vdisk_ready : ready (mach k) LkVdisk.
Proof using Hc. apply (th_ready me pid); [apply Hc|fs_lock]. Qed.

Lemma bwrite_ok b n :
  H !! b = Some n -> wp (bwrite b) (fun _ k' => went k H P (dirty ∖ {[n]}) V [(n, V n)] k') k.
Proof using Hc DL.
  intros Hb. destruct (held_buf b n Hb) as (x & Hx & _ & _ & _ & En & _ & _ & Ed). unfold bwrite.
  apply wp_bind. eapply wp_eq; [by eapply holding_held|]. cbn [negb].
  eapply wp_eq; [apply (disk_write _ b x); [apply ready_touch, vdisk_ready|exact Hx]|]. rewrite En, Ed.
  split; [|done|done]. destruct Hc as [H1 H2 [o H3] H4 H5 H6 H7 H8 H9]. split; try done.
  - apply (thread_ext _ _ (upd_mach touch (upd_mach touch k))); [done|done|]. by do 2 apply thread_touch.
  - exists o. by apply (linked_ext k).
  - intros m Hm. rewrite block_on_put. unfold fupd. case_decide as E; [by subst|]. apply H8. set_solver +Hm E.
  - intros m Hm. apply H9. set_solver +Hm.
Qed.

(** Storing into the data of a buffer the thread holds. *)
Lemma set_data_ok b n d :
  H !! b = Some n -> forall f, (forall x, b_data x = V n -> b_data (upd_b_data f x) = d) ->
  wp (upd_buf b (upd_b_data f)) (fun _ k' => went k H P ({[n]} ∪ dirty) (fupd V n d) [] k') k.
Proof using Hc DL.
  intros Hb f Hf. destruct (held_buf b n Hb) as (x & Hx & Hok & El & Ed & En & Ev & Er & Edat).
  eapply wp_idx_upd; [exact Hx|]. split; [|done|apply no_writes].
  eapply (cache_step _ _ _ _ _ _ _ _ k _ b x _ Hc); [| |exact Hx|reflexivity|..].
  - apply (thread_ext _ _ k); [done|done|apply Hc].
  - destruct (ca_lru _ _ _ _ _ Hc) as [o Ho]. exists o. by apply (linked_ext k).
  - destruct Hok as [O1 O2 O3 O4]. split; [done|done| |done]. intros _. specialize (O3 Ed) as (? & ? & ?).
    cbn [b_valid b_refcnt b_blockno upd_b_data]. rewrite En, fupd_eq. split_and!; [done|by rewrite <- En|by apply Hf].
  - auto.
  - intros j y Hne Hy [O1 O2 O3 O4]. split; [done|done| |done]. intros Dy. rewrite fupd_ne; [by apply O3|].
    intros ->. apply Hne. eapply (ca_uniq _ _ _ _ _ Hc); [exact Hy|exact Hx|done|done|congruence].
  - intros _ j y Hne Hy Dy E. apply Hne. eapply (ca_uniq _ _ _ _ _ Hc); [exact Hy|exact Hx|done|done|done].
  - intros m (j & y & Hy & Dy & Ey)%(ca_pin _ _ _ _ _ Hc). destruct (decide (j = b)) as [->|]; [|by right; eauto 8].
    left. rewrite Hx in Hy. injection Hy as <-. done.
  - intros m Hm. rewrite fupd_ne by set_solver +Hm. apply Hc. set_solver +Hm.
  - intros m [->%elem_of_singleton|Hm]%elem_of_union; [by eauto|by apply Hc].
Qed.

Lemma bcache_ready : ready (mach k) LkBcache.
Proof using Hc. apply (th_ready me pid); [apply Hc|fs_lock]. Qed.

(** The other buffers do not hold the block of buffer [b]. *)
Lemma other_block b x j y :
  bufs k !! b = Some x -> b_dev x = dev -> j <> b -> bufs k !! j = Some y -> b_dev y = dev -> b_blockno y <> b_blockno x.
Proof using Hc. intros Hx Dx Hne Hy Dy E. apply Hne. by eapply (ca_uniq _ _ _ _ _ Hc). Qed.

(** The blocks in [P] keep their buffers when buffer [b] keeps its block. *)
Lemma pins_kept b x x' (P' : gset Z) :
  bufs k !! b = Some x -> b_dev x' = dev -> b_blockno x' = b_blockno x -> P' ⊆ P -> forall m, m ∈ P' ->
  (b_dev x' = dev /\ b_blockno x' = m) \/ exists j y, j <> b /\ bufs k !! j = Some y /\ b_dev y = dev /\ b_blockno y = m.
Proof using Hc.
  intros Hx Dx E HP m (j & y & Hy & Dy & Ey)%HP%(ca_pin _ _ _ _ _ Hc).
  destruct (decide (j = b)) as [->|]; [|by right; eauto 8]. left. rewrite Hx in Hy. injection Hy as <-. by rewrite E.
Qed.

Lemma linked_same k' : bnext k' = bnext k -> bprev k' = bprev k -> exists order, linked k' order.
Proof using Hc. destruct (ca_lru _ _ _ _ _ Hc) as [o Ho]. exists o. by apply (linked_ext k). Qed.

Lemma bpin_ok b n :
  H !! b = Some n -> n ∉ P -> wp (bpin b) (fun _ k' => went k H ({[n]} ∪ P) dirty V [] k') k.
Proof using Hc DL.
  intros Hb Hn. destruct (held_buf b n Hb) as (x & Hx & Hok & El & Ed & En & Ev & Er & Edat).
  eapply wp_eq; [apply count_eq; [apply bcache_ready|done]|]. split; [|done|apply no_writes].
  eapply (cache_step _ _ _ _ _ _ _ _ k _ b x _ Hc); [|by apply linked_same|exact Hx|reflexivity|..].
  - apply (thread_ext _ _ (upd_mach touch k)); [done|done|]. apply thread_touch, Hc.
  - destruct Hok as [O1 O2 O3 O4]. split; [done|done| |done]. intros _. split_and!; [done| |by simpl; rewrite En].
    cbn [b_refcnt b_blockno upd_b_refcnt]. rewrite Er, En, (refs_held _ _ _ n) by done.
    rewrite (decide_False (P := n ∈ P)), (decide_True (P := n ∈ {[n]} ∪ P)); [done|set_solver +|done].
  - auto.
  - intros j y Hne Hy [O1 O2 O3 O4]. split; [done|done| |done]. intros Dy. specialize (O3 Dy) as (E1 & E2 & E3).
    split_and!; [done| |done]. rewrite E2. symmetry. pose proof (other_block b x j y Hx Ed Hne Hy Dy) as Ho.
    rewrite En in Ho. apply refs_ext; [done|]. set_solver +Ho.
  - intros _ j y Hne Hy Dy. exact (other_block b x j y Hx Ed Hne Hy Dy).
  - intros m [->%elem_of_singleton|Hm]%elem_of_union; [by left|].
    eapply (pins_kept b x _ P); done.
  - apply Hc.
  - intros m [Hm|Hm]%(ca_dirty _ _ _ _ _ Hc); [left; set_solver +Hm|by right].
Qed.

Lemma bunpin_ok b n :
  H !! b = Some n -> n ∈ P -> wp (bunpin b) (fun _ k' => went k H (P ∖ {[n]}) dirty V [] k') k.
Proof using Hc DL.
  intros Hb Hn. destruct (held_buf b n Hb) as (x & Hx & Hok & El & Ed & En & Ev & Er & Edat).
  eapply wp_eq; [apply count_eq; [apply bcache_ready|done]|]. split; [|done|apply no_writes].
  eapply (cache_step _ _ _ _ _ _ _ _ k _ b x _ Hc); [|by apply linked_same|exact Hx|reflexivity|..].
  - apply (thread_ext _ _ (upd_mach touch k)); [done|done|]. apply thread_touch, Hc.
  - destruct Hok as [O1 O2 O3 O4]. split; [done|done| |done]. intros _. split_and!; [done| |by simpl; rewrite En].
    cbn [b_refcnt b_blockno upd_b_refcnt]. rewrite Er, En, (refs_held _ _ _ n) by done.
    rewrite (decide_True (P := n ∈ P)), (decide_False (P := n ∈ P ∖ {[n]})); [done|set_solver +|done].
  - auto.
  - intros j y Hne Hy [O1 O2 O3 O4]. split; [done|done| |done]. intros Dy. specialize (O3 Dy) as (E1 & E2 & E3).
    split_and!; [done| |done]. rewrite E2. symmetry. pose proof (other_block b x j y Hx Ed Hne Hy Dy) as Ho.
    rewrite En in Ho. apply refs_ext; [done|]. set_solver +Ho.
  - intros _ j y Hne Hy Dy. exact (other_block b x j y Hx Ed Hne Hy Dy).
  - intros m Hm. eapply (pins_kept b x _ (P ∖ {[n]})); [done|done|done|set_solver +|done].
  - apply Hc.
  - intros m [Hm|Hm]%(ca_dirty _ _ _ _ _ Hc); [|by right]. destruct (decide (m = n)) as [->|Hne]; [right; eauto|left; set_solver +Hm Hne].
Qed.

(** The buffer after [brelse], and the list: a buffer that nobody references
    any more becomes the most recently used. *)
Definition released (x : buf) : buf :=
  upd_b_refcnt (fun r => u32 (r - 1)) (upd_b_lock (set (mk_sleeplock false 0)) x).

Lemma brelse_eq b n x l1 l2 :
  H !! b = Some n -> bufs k !! b = Some x -> linked k (l1 ++ b :: l2) ->
  exists k', brelse b k = Ret tt k' /\ thread me pid k' /\ bufs k' = <[b := released x]> (bufs k) /\
    linked k' (if b_refcnt (released x) =? 0 then b :: l1 ++ l2 else l1 ++ b :: l2) /\
    frame k k' /\ kdisk k' = kdisk k.
Proof using Hc.
  intros Hb Hx HL. unfold brelse. pose proof (ca_thread _ _ _ _ _ Hc) as HT.
  erewrite bind_ret by (by eapply holding_held). cbn [negb].
  pose proof (thread_touch me pid k HT) as HT1.
  erewrite bind_ret by (eapply (releasesleep_eq me pid _ HT1 (SlBuf b)); [by eapply Hc|simpl; kcbn; by rewrite Hx]).
  set (k2 := woke me _ _ _).
  assert (HT2 : thread me pid k2).
  { apply thread_woke. apply (thread_ext _ _ (upd_mach touch (upd_mach touch k))); [done|done|]. by apply thread_touch. }
  assert (Hx2 : bufs k2 = <[b := upd_b_lock (set (mk_sleeplock false 0)) x]> (bufs k)) by (by apply alter_lookup).
  assert (HL2 : linked k2 (l1 ++ b :: l2)) by (by apply (linked_ext k)).
  assert (F2 : frame k k2 /\ kdisk k2 = kdisk k) by (split; [split; [unfold k2; by rewrite others_woke|done]|done]). clearbody k2.
  assert (Hr2 : ready (mach k2) LkBcache) by (apply (th_ready me pid); [done|fs_lock]).
  pose proof (lookup_lt_Some _ _ _ Hx) as Hlt.
  erewrite bind_ret by (apply kacquire_eq, Hr2).
  erewrite bind_ret by (unfold upd_buf, idx_upd; kcbn; by rewrite Hx2, list_lookup_insert_eq).
  fold (released x). set (k3 := upd_bufs _ _).
  assert (Hx3 : bufs k3 = <[b := released x]> (bufs k)).
  { unfold k3. kcbn. rewrite Hx2. apply list_insert_insert_eq. }
  assert (Hm3 : mach k3 = acquired LkBcache (mach k2)) by done.
  assert (F3 : frame k k3 /\ kdisk k3 = kdisk k) by done.
  assert (P3 : procs k3 = procs k2) by done.
  assert (HL3 : linked k3 (l1 ++ b :: l2)) by (by apply (linked_ext k2)). clearbody k3.
  erewrite bind_ret by (unfold get_buf, idx_get; by rewrite Hx3, list_lookup_insert_eq).
  destruct (b_refcnt (released x) =? 0); cbn [when].
  - destruct (move_front_eq k3 l1 b l2 HL3) as (nx & pv & Em & HL4). cbv zeta in Em, HL4.
    erewrite bind_ret by exact Em. rewrite (krelease_eq k2) by done. eexists. split; [reflexivity|]. split_and!.
    + apply (thread_ext _ _ (upd_mach touch k2)); [done|by kcbn|by apply thread_touch].
    + done.
    + by eapply linked_ext; [..|exact HL4].
    + split; [rewrite (others_release LkBcache) by done|]; apply F3.
    + apply F3.
  - erewrite bind_ret by done. rewrite (krelease_eq k2) by done. eexists. split; [reflexivity|]. split_and!.
    + apply (thread_ext _ _ (upd_mach touch k2)); [done|by kcbn|by apply thread_touch].
    + done.
    + by eapply linked_ext; [..|exact HL3].
    + split; [rewrite (others_release LkBcache) by done|]; apply F3.
    + apply F3.
Qed.

Lemma brelse_ok b n :
  H !! b = Some n -> (n ∈ dirty -> n ∈ P) -> wp (brelse b) (fun _ k' => went k (delete b H) P dirty V [] k') k.
Proof using Hc DL.
  intros Hb Hn. destruct (held_buf b n Hb) as (x & Hx & Hok & El & Ed & En & Ev & Er & Edat).
  destruct (ca_lru _ _ _ _ _ Hc) as [order HL].
  assert (Hin : b ∈ order) by (apply (linked_elem k order HL); by eapply Hc).
  apply list_elem_of_split in Hin as (l1 & l2 & ->).
  destruct (brelse_eq b n x l1 l2 Hb Hx HL) as (k' & E & HT & Hbufs & HL' & HF & Hd).
  eapply wp_eq; [exact E|]. split; [|done|rewrite Hd; apply no_writes].
  eapply (cache_step _ _ _ _ _ _ _ _ k _ b x _ Hc HT); [by eauto|exact Hx|exact Hbufs|..].
  - destruct Hok as [O1 O2 O3 O4]. split.
    + done.
    + intros m Hm. by rewrite lookup_delete_eq in Hm.
    + intros _. split_and!; [done| |by simpl; rewrite En]. cbn [b_refcnt b_blockno released upd_b_refcnt upd_b_lock].
      rewrite Er, En, refs_free by apply lookup_delete_eq. by case_decide.
    + done.
  - intros j m Hj. right. by apply lookup_delete_Some in Hj as [_ ?].
  - intros j y Hne Hy [O1 O2 O3 O4]. split; rewrite ?lookup_delete_ne by done; try done.
    intros Dy. specialize (O3 Dy) as (E1 & E2 & E3). split_and!; [done| |done]. rewrite E2. symmetry.
    apply refs_ext; [by apply lookup_delete_ne|done].
  - intros _ j y Hne Hy Dy. exact (other_block b x j y Hx Ed Hne Hy Dy).
  - intros m Hm. eapply (pins_kept b x _ P); done.
  - intros m Hm. unfold block_on. rewrite Hd. by apply Hc.
  - intros m Hm. destruct (ca_dirty _ _ _ _ _ Hc m Hm) as [?|[j Hj]]; [by left|].
    destruct (decide (j = b)) as [->|]; [left; assert (m = n) as -> by congruence; by apply Hn|]. right. exists j. by rewrite lookup_delete_ne.
Qed.

(** ** Finding a buffer *)

Definition taken (x : buf) : buf := upd_b_lock (set (mk_sleeplock true pid)) x.
(** The buffer as [bget] recycles it for block [n]. *)
Definition recycled (n : Z) (x : buf) : buf :=
  upd_b_refcnt (set 1) (upd_b_valid (set false) (upd_b_blockno (set n) (upd_b_dev (set dev) x))).
Definition referenced (x : buf) : buf := upd_b_refcnt (fun r => u32 (r + 1)) x.

Lemma bget_tail b x g :
  (b < NBUF)%nat -> bufs k !! b = Some x -> sl_locked (b_lock (g x)) = false ->
  (do! lift (release LkBcache) in do! acquiresleep (SlBuf b) in ret b)
    (upd_bufs (alter g b) (upd_mach (acquired LkBcache) k)) =
  Ret b (upd_bufs (<[b := taken (g x)]>) (upd_mach touch k)).
Proof using Hc.
  intros Hlt Hx Hf. pose proof (ca_thread _ _ _ _ _ Hc) as HT.
  erewrite bind_ret by (apply (krelease_eq k); [apply bcache_ready|done]). set (k2 := upd_mach _ _).
  assert (HT2 : thread me pid k2) by (apply (thread_ext _ _ (upd_mach touch k)); [done|done|by apply thread_touch]).
  assert (Hx2 : bufs k2 = <[b := g x]> (bufs k)) by (by apply alter_lookup).
  assert (Hl : (b < length (bufs k))%nat) by (by eapply lookup_lt_Some).
  erewrite bind_ret.
  2: { eapply (acquiresleep_eq me pid k2 HT2 (SlBuf b) (b_lock (g x))); [done| |done].
       unfold sl_read. by rewrite Hx2, list_lookup_insert_eq. }
  unfold ret. f_equal. unfold sl_write, k2, upd_bufs, upd_mach. kcbn. f_equal; [by rewrite touch_idemp|].
  rewrite (alter_lookup _ (bufs k) b x), (alter_lookup _ _ b (g x)) by (done || by apply list_lookup_insert_eq).
  apply list_insert_insert_eq.
Qed.

Section bget.
Context (order : list nat) (HL : linked k order) (n : Z).

Lemma caches_true b : caches k dev n b = true -> exists x, bufs k !! b = Some x /\ b_dev x = dev /\ b_blockno x = n.
Proof. unfold caches. destruct (bufs k !! b) as [x|]; [|done]. intros ?; zbool. eauto. Qed.
Lemma unused_true b : unused k b = true -> exists x, bufs k !! b = Some x /\ b_refcnt x = 0.
Proof. unfold unused. destruct (bufs k !! b) as [x|]; [|done]. intros ?; zbool. eauto. Qed.

Lemma bget_hit b x :
  List.find (caches k dev n) order = Some b -> bufs k !! b = Some x -> sl_locked (b_lock x) = false ->
  bget dev n k = Ret b (upd_bufs (<[b := taken (referenced x)]>) (upd_mach touch k)).
Proof using Hc HL.
  intros Ef Hx Hl. unfold bget. erewrite bind_ret by (apply kacquire_eq, bcache_ready).
  erewrite bind_ret.
  2: { rewrite (find_cached_eq _ order); [|by apply (linked_ext k)|apply Hc].
       change (caches (upd_mach (acquired LkBcache) k)) with (caches k). by rewrite Ef. }
  apply (bget_tail b x (upd_b_refcnt (fun r => u32 (r + 1)))); [|done|done].
  rewrite <- (ca_len _ _ _ _ _ Hc). by eapply lookup_lt_Some.
Qed.

Lemma bget_miss b x :
  List.find (caches k dev n) order = None -> List.find (unused k) (reverse order) = Some b ->
  bufs k !! b = Some x -> sl_locked (b_lock x) = false ->
  bget dev n k = Ret b (upd_bufs (<[b := taken (recycled n x)]>) (upd_mach touch k)).
Proof using Hc HL.
  intros Ef Eu Hx Hl. unfold bget. erewrite bind_ret by (apply kacquire_eq, bcache_ready).
  assert (HL1 : linked (upd_mach (acquired LkBcache) k) order) by (by apply (linked_ext k)).
  erewrite bind_ret.
  2: { rewrite (find_cached_eq _ order); [|done|apply Hc].
       change (caches (upd_mach (acquired LkBcache) k)) with (caches k). by rewrite Ef. }
  cbv beta iota. erewrite bind_ret.
  2: { rewrite (find_unused_eq _ order); [|done|apply Hc].
       change (unused (upd_mach (acquired LkBcache) k)) with (unused k). by rewrite Eu. }
  apply (bget_tail b x (recycled n)); [|done|done].
  rewrite <- (ca_len _ _ _ _ _ Hc). by eapply lookup_lt_Some.
Qed.
End bget.

(** ** Reading a block *)

Lemma bread_hit order n b x :
  linked k order -> List.find (caches k dev n) order = Some b -> bufs k !! b = Some x ->
  sl_locked (b_lock x) = false -> b_valid x = true ->
  bread dev n k = Ret b (upd_bufs (<[b := taken (referenced x)]>) (upd_mach touch k)).
Proof using Hc.
  intros HL Ef Hx Hl Hv. unfold bread. erewrite bind_ret by (by eapply bget_hit).
  pose proof (lookup_lt_Some _ _ _ Hx) as Hlt.
  erewrite bind_ret by (unfold get_buf, idx_get; kcbn; by rewrite list_lookup_insert_eq).
  cbn [b_valid taken referenced upd_b_lock upd_b_refcnt]. rewrite Hv. done.
Qed.

Lemma bread_miss order n b x :
  linked k order -> List.find (caches k dev n) order = None -> List.find (unused k) (reverse order) = Some b ->
  bufs k !! b = Some x -> sl_locked (b_lock x) = false ->
  bread dev n k = Ret b (upd_bufs (<[b := upd_b_valid (set true) (upd_b_data (set (block_on k n)) (taken (recycled n x)))]>)
                           (upd_mach touch k)).
Proof using Hc DL.
  intros HL Ef Eu Hx Hl. unfold bread. erewrite bind_ret by (by eapply bget_miss).
  pose proof (lookup_lt_Some _ _ _ Hx) as Hlt.
  erewrite bind_ret by (unfold get_buf, idx_get; kcbn; by rewrite list_lookup_insert_eq).
  cbn [b_valid taken recycled upd_b_lock upd_b_refcnt upd_b_valid set negb when].
  erewrite bind_ret.
  2: { erewrite bind_ret.
       2: { apply disk_read; [apply ready_touch, vdisk_ready|]. kcbn. by apply list_lookup_insert_eq. }
       unfold upd_buf, idx_upd. kcbn. by rewrite list_insert_insert_eq, list_lookup_insert_eq by done. }
  unfold ret. f_equal. unfold upd_bufs, upd_mach. kcbn. by rewrite touch_idemp, !list_insert_insert_eq.
Qed.

(** With fewer references than buffers, one is unused. *)
Lemma room order :
  linked k order -> (size H + size P < NBUF)%nat -> exists b, List.find (unused k) (reverse order) = Some b.
Proof using Hc.
  intros HL Hroom. destruct (List.find (unused k) (reverse order)) as [b|] eqn:E; [by eauto|]. exfalso.
  set (blk := fun i => match bufs k !! i with Some x => b_blockno x | None => 0 end).
  assert (Hused : forall i, i ∈ order -> is_Some (H !! i) \/ blk i ∈ P /\ exists x, bufs k !! i = Some x /\ b_dev x = dev).
  { intros i Hi. pose proof (List.find_none _ _ E i) as Hn. rewrite <- list_elem_of_In, elem_of_reverse in Hn.
    specialize (Hn Hi). unfold unused in Hn. unfold blk. apply (linked_elem k order HL) in Hi.
    destruct (buf_lookup k (ca_len _ _ _ _ _ Hc) i Hi) as [x Hx]. rewrite Hx in *. zbool.
    pose proof (ca_buf _ _ _ _ _ Hc i x Hx) as [_ _ O3 O4].
    destruct (decide (b_dev x = dev)) as [Dx|Dx]; [|destruct (O4 Dx); lia]. specialize (O3 Dx) as (_ & Er & _).
    rewrite Er in Hn. unfold refs in Hn. repeat case_decide; [by left|by left|right; by eauto|done]. }
  pose proof (linked_nodup k order HL) as Hnd.
  set (hs := filter (fun i => is_Some (H !! i)) order). set (ps := filter (fun i => ~ is_Some (H !! i)) order).
  assert (Hlen : (length hs + length ps = NBUF)%nat).
  { unfold hs, ps. rewrite <- (length_app), filter_app_complement. rewrite (lk_perm _ _ HL). done. }
  assert (Hhs : (length hs <= size H)%nat).
  { rewrite <- size_dom. rewrite <- (size_list_to_set (C := gset nat) hs) by (by apply list.NoDup_filter).
    apply subseteq_size. intros i. rewrite elem_of_list_to_set. unfold hs. rewrite list_elem_of_filter, elem_of_dom. tauto. }
  assert (Hps : (length ps <= size P)%nat).
  { rewrite <- (length_fmap blk). rewrite <- (size_list_to_set (C := gset Z) (blk <$> ps)).
    - apply subseteq_size. intros m. rewrite elem_of_list_to_set, list_elem_of_fmap. unfold ps.
      intros (i & -> & [Hi Ho]%list_elem_of_filter). destruct (Hused i Ho) as [|[? _]]; done.
    - apply NoDup_fmap_2_strong; [|by apply list.NoDup_filter]. intros i j [Hi Oi]%list_elem_of_filter [Hj Oj]%list_elem_of_filter Eb.
      destruct (Hused i Oi) as [|(_ & x & Hx & Dx)]; [done|]. destruct (Hused j Oj) as [|(_ & y & Hy & Dy)]; [done|].
      unfold blk in Eb. rewrite Hx, Hy in Eb. by eapply (ca_uniq _ _ _ _ _ Hc). }
  lia.
Qed.

Section read.
Context (n : Z) (Hn : forall i, H !! i <> Some n).

Lemma held_ne i m : H !! i = Some m -> m <> n.
Proof using Hn. intros E ->. by apply (Hn i). Qed.

Lemma bread_hit_ok order b :
  linked k order -> List.find (caches k dev n) order = Some b ->
  wp (bread dev n) (fun b k' => H !! b = None /\ went k (<[b := n]> H) P dirty V [] k') k.
Proof using Hc Hn DL.
  intros HL Ef. destruct (caches_true n b) as (x & Hx & Dx & Nx); [by apply List.find_some in Ef as [_ ?]|].
  pose proof (ca_buf _ _ _ _ _ Hc b x Hx) as Hok. pose proof Hok as [O1 O2 O3 O4]. destruct (O3 Dx) as (Ev & Er & Ed).
  assert (Hb : H !! b = None).
  { destruct (H !! b) as [m|] eqn:E; [|done]. destruct (O2 m eq_refl) as (_ & _ & <-). destruct (Hn b). by rewrite E, Nx. }
  eapply wp_eq; [eapply (bread_hit order); [done|done|exact Hx|by apply O1|done]|].
  split; [done|]. split; [|done|apply no_writes].
  eapply (cache_step _ _ _ _ _ _ _ _ k _ b x _ Hc); [|by apply linked_same|exact Hx|reflexivity|..].
  - apply (thread_ext _ _ (upd_mach touch k)); [done|done|]. apply thread_touch, Hc.
  - split.
    + by rewrite lookup_insert_eq.
    + intros m. rewrite lookup_insert_eq. intros [= <-]. done.
    + intros _. split_and!; [done| |by simpl]. cbn [b_refcnt b_blockno taken referenced upd_b_lock upd_b_refcnt].
      rewrite Er, Nx, (refs_held (<[b := n]> H) _ _ n) by apply lookup_insert_eq. rewrite refs_free by done. by case_decide.
    + done.
  - intros j m. destruct (decide (b = j)) as [->|]; [by left|rewrite lookup_insert_ne by done; by right].
  - intros j y Hne Hy [Q1 Q2 Q3 Q4]. split; rewrite ?lookup_insert_ne by done; try done.
    intros Dy. specialize (Q3 Dy) as (E1 & E2 & E3). split_and!; [done| |done]. rewrite E2. symmetry.
    apply refs_ext; [by apply lookup_insert_ne|done].
  - intros _ j y Hne Hy Dy. exact (other_block b x j y Hx Dx Hne Hy Dy).
  - intros m Hm. eapply (pins_kept b x _ P); done.
  - apply Hc.
  - intros m [?|[j Hj]]%(ca_dirty _ _ _ _ _ Hc); [by left|]. right. exists j. rewrite lookup_insert_ne; [done|congruence].
Qed.

Lemma not_cached order j y :
  linked k order -> List.find (caches k dev n) order = None -> bufs k !! j = Some y -> b_dev y = dev -> b_blockno y <> n.
Proof using Hc.
  intros HL Ef Hy Dy E. pose proof (List.find_none _ _ Ef j) as Hf. rewrite <- list_elem_of_In in Hf.
  rewrite (linked_elem k order HL) in Hf. unfold caches in Hf. rewrite Hy, Dy, E, !Z.eqb_refl in Hf.
  apply lookup_lt_Some in Hy. rewrite (ca_len _ _ _ _ _ Hc) in Hy. by specialize (Hf Hy).
Qed.

Lemma bread_miss_ok order b :
  linked k order -> List.find (caches k dev n) order = None -> List.find (unused k) (reverse order) = Some b ->
  wp (bread dev n) (fun b k' => H !! b = None /\ went k (<[b := n]> H) P dirty V [] k') k.
Proof using Hc Hn DL.
  intros HL Ef Eu. pose proof (fun j y => not_cached order j y HL Ef) as Hnc.
  destruct (unused_true b) as (x & Hx & Rx); [by apply List.find_some in Eu as [_ ?]|].
  pose proof (ca_buf _ _ _ _ _ Hc b x Hx) as Hok. pose proof Hok as [O1 O2 O3 O4].
  assert (HnP : n ∉ P). { intros (j & y & Hy & Dy & Ey)%(ca_pin _ _ _ _ _ Hc). by apply (Hnc j y). }
  assert (Hb : H !! b = None).
  { destruct (H !! b) as [m|] eqn:E; [|done]. destruct (held_buf b m E) as (x' & Hx' & _ & _ & _ & _ & _ & Er & _).
    rewrite Hx in Hx'. injection Hx' as <-. rewrite Rx in Er. case_decide; lia. }
  eapply wp_eq; [eapply (bread_miss order); [done|done|done|exact Hx|by apply O1]|].
  split; [done|]. split; [|done|apply no_writes].
  assert (Hpin : forall m, m ∈ P -> b_dev x = dev -> b_blockno x <> m).
  { intros m Hm Dx <-. destruct (O3 Dx) as (_ & Er & _). rewrite Rx, refs_free, decide_True in Er; done. }
  eapply (cache_step _ _ _ _ _ _ _ _ k _ b x _ Hc); [|by apply linked_same|exact Hx|reflexivity|..].
  - apply (thread_ext _ _ (upd_mach touch k)); [done|done|]. apply thread_touch, Hc.
  - split.
    + by rewrite lookup_insert_eq.
    + intros m. rewrite lookup_insert_eq. intros [= <-]. done.
    + intros _. split_and!; [done| |].
      * cbn [b_refcnt b_blockno taken recycled upd_b_lock upd_b_refcnt upd_b_valid upd_b_data upd_b_blockno upd_b_dev].
        unfold set. rewrite (refs_held _ _ _ n) by apply lookup_insert_eq. by rewrite decide_False.
      * cbn. unfold set. symmetry. apply Hc. intros [?|[j Hj]]%(ca_dirty _ _ _ _ _ Hc); [done|by apply (Hn j)].
    + done.
  - intros j m. destruct (decide (b = j)) as [->|]; [by left|rewrite lookup_insert_ne by done; by right].
  - intros j y Hne Hy [Q1 Q2 Q3 Q4]. split; rewrite ?lookup_insert_ne by done; try done.
    intros Dy. specialize (Q3 Dy) as (E1 & E2 & E3). split_and!; [done| |done]. rewrite E2. symmetry.
    apply refs_ext; [by apply lookup_insert_ne|done].
  - intros _ j y Hne Hy Dy. by apply (Hnc j y).
  - intros m Hm. pose proof Hm as (j & y & Hy & Dy & Ey)%(ca_pin _ _ _ _ _ Hc). right. exists j, y. split_and!; [|done..].
    intros ->. rewrite Hx in Hy. injection Hy as <-. by apply (Hpin m).
  - apply Hc.
  - intros m [?|[j Hj]]%(ca_dirty _ _ _ _ _ Hc); [by left|]. right. exists j. rewrite lookup_insert_ne; [done|congruence].
Qed.

Lemma bread_ok :
  n ∈ P \/ (size H + size P < NBUF)%nat ->
  wp (bread dev n) (fun b k' => H !! b = None /\ went k (<[b := n]> H) P dirty V [] k') k.
Proof using Hc Hn DL.
  intros Hroom. destruct (ca_lru _ _ _ _ _ Hc) as [order HL].
  destruct (List.find (caches k dev n) order) as [b|] eqn:Ef; [by eapply bread_hit_ok|].
  destruct Hroom as [(j & y & Hy & Dy & Ey)%(ca_pin _ _ _ _ _ Hc)|Hroom].
  - by destruct (not_cached order j y HL Ef Hy Dy).
  - destruct (room order HL Hroom) as [b Eu]. by eapply bread_miss_ok.
Qed.
End read.
End ops.
End cache.

Arguments we_cache {_ _ _ _ _ _ _ _ _ _} _.
Arguments we_frame {_ _ _ _ _ _ _ _ _ _} _.
Arguments we_disk {_ _ _ _ _ _ _ _ _ _} _.
Arguments went_trans {_ _ _ _ _ _ _ _ _ _ _ _ _ _ _ _} _ _.
Arguments get_held {me pid dev H P dirty V k} Hc b n _.
Arguments set_data_ok {D DL me pid dev H P dirty V k} Hc b n d _ f _.
Arguments bwrite_ok {D DL me pid dev H P dirty V k} Hc b n _.
Arguments brelse_ok {C D DL me pid dev H P dirty V k} Hc b n _ _.
Arguments bpin_ok {D DL me pid dev H P dirty V k} Hc b n _ _.
Arguments bunpin_ok {D DL me pid dev H P dirty V k} Hc b n _ _.
Arguments bread_ok {D DL me pid dev H P dirty V k} Hc n _ _.

(** The next operation of the cache. *)
Ltac cache_op lem := apply wp_bind; eapply wp_conseq; [eapply lem|cbv beta].
