(* ===== verification/FsSample.v ===== *)
(** * A file system at rest

    A disk driver that waits for the disk, which keeps the promise the cache
    relies on, and a kernel with an empty cache over a given disk image: the
    starting point of the sample runs. *)

From S2P Require Import Prelude Riscv Memory Machine Spinlock Kalloc Vm Kernel Klock KSample Cstring Printf Proc Sched ProcSpec Sleeplock SleepSpec Bio Lru BioSpec.

(** ** A driver that waits for the disk *)

Definition sync_disk : BlockDevice := {| disk_rw b write :=
  do! lift (acquire LkVdisk) in
  let! x := get_buf b in
  do! (if write then modify (disk_put (b_blockno x) (b_data x))
       else let! d := gets block_on in upd_buf b (upd_b_data (set (d (b_blockno x))))) in
  lift (release LkVdisk) |}.

#[export] Instance sync_disk_ok : @Disk sync_disk.
Proof.
  split; intros k b x Hr Hx; cbn [disk_rw sync_disk]; (erewrite bind_ret by (apply kacquire_eq, Hr));
    (erewrite bind_ret by (unfold get_buf, idx_get; kcbn; by rewrite Hx)).
  - erewrite bind_ret by (erewrite bind_ret by done; unfold upd_buf, idx_upd; kcbn; by rewrite Hx).
    by rewrite (krelease_eq k).
  - erewrite bind_ret by done. by rewrite (krelease_eq k).
Qed.

(** The state a computation returns in. *)
Definition ran {S A} (m : M S A) (s : S) : S := match m s with Ret _ s' => s' | _ => s end.
Lemma ran_wp {S A} (m : M S A) Q s : wp m Q s -> exists a, Q a (ran m s).
Proof. unfold wp, ran. destruct (m s); naive_solver. Qed.

(** A thread with nothing cached yet. *)
Lemma cache_boot me pid dev k order :
  thread me pid k -> length (bufs k) = NBUF -> linked k order ->
  (forall i x, bufs k !! i = Some x ->
     b_dev x <> dev /\ b_valid x = false /\ b_refcnt x = 0 /\ sl_locked (b_lock x) = false) ->
  cache me pid dev ∅ ∅ ∅ (block_on k) k.
Proof.
  intros HT Hl HL Hb. split; [done|done|by eauto|done| | |set_solver +|done|set_solver +].
  - intros i j x y Hx Hy Dx. by destruct (Hb i x Hx).
  - intros i x Hx. destruct (Hb i x Hx) as (H1 & H2 & H3 & H4). by split.
Qed.

Module FsSample.
#[export] Existing Instance kernel_sym.
#[export] Instance round_robin : Config := {| policy := DEFAULT |}.
#[export] Existing Instance sync_disk.

(** Process 0, with pid 1, runs on the hart; the cache is as [binit] leaves
    it, the log of 30 blocks starts at block 2. *)
Definition mach0 : machine := upd_cpu (fun _ => mk_cpu (Some 0%nat) 0 false true) machine_bss.
Definition order : list nat := reverse (seq 0 NBUF).
Definition kernel0 (img : Z -> list Z) : kernel :=
  upd_kdisk (fun _ => mk_platter img [])
  (upd_klog (fun _ => mk_log 2 30 1 false 1 (mk_logheader 0 (replicate (Z.to_nat LOGSIZE) 0)))
  (upd_bnext (fun _ => (fun i => if decide (i = 0%nat) then NBUF else Nat.pred i) <$> seq 0 (S NBUF))
  (upd_bprev (fun _ => (fun i => if decide (i = NBUF) then 0%nat else S i) <$> seq 0 (S NBUF))
  (upd_procs (<[0%nat := a_proc 1 RUNNING ChNone 0]>)
  (upd_mach (fun _ => mach0) kernel_bss))))).

Lemma thread0 img : thread 0 1 (kernel0 img).
Proof.
  assert (Hf : forall lk, lk ∈ all_locks -> free mach0 lk) by apply bss_free. split.
  - done.
  - split; [done|vm_compute; split; done|]. intros i Hi _. apply Hf. unfold all_locks.
    rewrite !elem_of_app, !list_elem_of_fmap. right; left. exists i. split; [done|]. apply elem_of_seq. lia.
  - eexists. split; [reflexivity|done].
  - intros lk Hlk. apply Hf. unfold fs_locks, all_locks in *. rewrite !elem_of_app in *.
    destruct Hlk as [Hlk|[Hlk|Hlk]]; [left|by right; right; left|by right; right; right].
    repeat (apply elem_of_cons in Hlk as [->|Hlk]; [set_solver +|]). by apply not_elem_of_nil in Hlk.
Qed.

Lemma linked0 img : linked (kernel0 img) order.
Proof. split; [done|done|apply reverse_Permutation|]. vm_compute. repeat split. Qed.

Lemma cache0 img : cache 0 1 1 ∅ ∅ ∅ img (kernel0 img).
Proof.
  apply (cache_boot 0 1 1 (kernel0 img) order (thread0 img) eq_refl (linked0 img)).
  intros i x Hx. apply lookup_replicate in Hx as [-> _]. done.
Qed.
End FsSample.
