(* ===== verification/BcacheSpec.v ===== *)
(** * The buffer cache implements a map of blocks

    The abstract cache is a map from blocks to contents over a disk, with the
    sets of blocks held and pinned. Any sequence of operations it allows runs
    on the code without panic and reads the same data. *)

From S2P Require Import Prelude Riscv Memory Machine Spinlock Kalloc Vm Kernel Klock KSample Cstring Printf Proc Sched ProcSpec Sleeplock SleepSpec Bio Lru BioSpec FsSample.

(** ** The specification *)

Inductive bop :=
| Read (n : Z) | Store (n : Z) (d : list Z) | Write (n : Z) | Release (n : Z) | Pin (n : Z) | Unpin (n : Z).

Record bspec := mk_bspec {
  s_held : gset Z;             (* blocks whose buffer the thread holds *)
  s_pins : gset Z;             (* blocks pinned in the cache *)
  s_dirty : gset Z;            (* blocks stored to and not written since *)
  s_mem : Z -> list Z;         (* what a reader sees *)
  s_disk : Z -> list Z         (* what the disk holds *)
}.

(** Whether the caller may do the operation. *)
Definition allowed (s : bspec) (o : bop) : bool :=
  match o with
  | Read n => bool_decide (n ∉ s_held s) &&
              (bool_decide (n ∈ s_pins s) || bool_decide (size (s_held s) + size (s_pins s) < NBUF)%nat)
  | Store n _ | Write n => bool_decide (n ∈ s_held s)
  | Release n => bool_decide (n ∈ s_held s) && bool_decide (n ∈ s_dirty s -> n ∈ s_pins s)
  | Pin n => bool_decide (n ∈ s_held s) && bool_decide (n ∉ s_pins s)
  | Unpin n => bool_decide (n ∈ s_held s) && bool_decide (n ∈ s_pins s)
  end.

Definition spec_step (o : bop) (s : bspec) : bspec :=
  match o with
  | Read n => mk_bspec ({[n]} ∪ s_held s) (s_pins s) (s_dirty s) (s_mem s) (s_disk s)
  | Store n d => mk_bspec (s_held s) (s_pins s) ({[n]} ∪ s_dirty s) (fupd (s_mem s) n d) (s_disk s)
  | Write n => mk_bspec (s_held s) (s_pins s) (s_dirty s ∖ {[n]}) (s_mem s) (fupd (s_disk s) n (s_mem s n))
  | Release n => mk_bspec (s_held s ∖ {[n]}) (s_pins s) (s_dirty s) (s_mem s) (s_disk s)
  | Pin n => mk_bspec (s_held s) ({[n]} ∪ s_pins s) (s_dirty s) (s_mem s) (s_disk s)
  | Unpin n => mk_bspec (s_held s) (s_pins s ∖ {[n]}) (s_dirty s) (s_mem s) (s_disk s)
  end.
Definition spec_out (o : bop) (s : bspec) : list (list Z) :=
  match o with Read n => [s_mem s n] | _ => [] end.

Fixpoint spec_run (os : list bop) (s : bspec) : option (list (list Z) * bspec) :=
  match os with
  | [] => Some ([], s)
  | o :: os' =>
      if allowed s o then
        match spec_run os' (spec_step o s) with Some (out, s') => Some (spec_out o s ++ out, s') | None => None end
      else None
  end.

(** ** The code, called with the buffers the caller remembers *)

Section run.
Context {KI : KernelImage} {C : Config} {D : BlockDevice}.
Context (dev : Z).

Definition op_run (o : bop) (bufs : gmap Z nat) : M kernel (list (list Z) * gmap Z nat) :=
  match o with
  | Read n =>
      let! b := bread dev n in
      let! x := get_buf b in
      ret ([b_data x], <[n := b]> bufs)
  | Store n d => let! b := deref (bufs !! n) in do! upd_buf b (upd_b_data (set d)) in ret ([], bufs)
  | Write n => let! b := deref (bufs !! n) in do! bwrite b in ret ([], bufs)
  | Release n => let! b := deref (bufs !! n) in do! brelse b in ret ([], delete n bufs)
  | Pin n => let! b := deref (bufs !! n) in do! bpin b in ret ([], bufs)
  | Unpin n => let! b := deref (bufs !! n) in do! bunpin b in ret ([], bufs)
  end.

Fixpoint ops_run (os : list bop) (bufs : gmap Z nat) : M kernel (list (list Z) * gmap Z nat) :=
  match os with
  | [] => ret ([], bufs)
  | o :: os' =>
      let! r := op_run o bufs in
      let! r' := ops_run os' (snd r) in
      ret (fst r ++ fst r', snd r')
  end.
End run.

Section refine.
Context {KI : KernelImage} {C : Config} {D : BlockDevice} {DL : Disk}.
Context (me : nat) (pid dev : Z).

(** The kernel implements the abstract cache; [bufs] are the caller's
    buffers. *)
Record implements (s : bspec) (bs : gmap Z nat) (k : kernel) : Prop := mk_implements {
  im_cache : exists H, cache me pid dev H (s_pins s) (s_dirty s) (s_mem s) k /\ forall n b, bs !! n = Some b <-> H !! b = Some n;
  im_held : dom bs = s_held s;
  im_disk n : block_on k n = s_disk s n
}.

Lemma inverse_size {K L} `{Countable K, Countable L} (m : gmap K L) (m' : gmap L K) :
  (forall a b, m !! a = Some b -> m' !! b = Some a) -> (size m <= size m')%nat.
Proof.
  intros Hm. rewrite <- !length_map_to_list, <- (length_fmap (fun p => (p.2, p.1)) (map_to_list m)).
  apply submseteq_length, NoDup_submseteq.
  - apply NoDup_fmap_2; [intros [? ?] [? ?]; simpl; congruence|apply NoDup_map_to_list].
  - intros [b a] ([a' b'] & [= -> ->] & Hin)%list_elem_of_fmap. apply elem_of_map_to_list in Hin.
    apply elem_of_map_to_list. by apply Hm.
Qed.

Section step.
Context (s : bspec) (bs : gmap Z nat) (k : kernel) (I : implements s bs k).

Lemma allowed_held n : n ∈ s_held s -> exists b, bs !! n = Some b.
Proof using I. rewrite <- (im_held _ _ _ I). apply elem_of_dom. Qed.

Lemma block_after H' P' d' V' ws k' n :
  went me pid dev k H' P' d' V' ws k' -> block_on k' n = disk_after (s_disk s) ws n.
Proof using I.
  intros W. pose proof (im_disk _ _ _ I n) as Hn. unfold block_on in *. rewrite (we_disk W). cbn. clear W.
  induction ws as [|[m e] ws IH]; [done|]. simpl. by case_decide.
Qed.

(** The kernel after an operation on a block the caller goes on holding. *)
Lemma implements_went H s' ws k' :
  (forall n b, bs !! n = Some b <-> H !! b = Some n) -> s_held s' = s_held s ->
  (forall n, s_disk s' n = disk_after (s_disk s) ws n) ->
  went me pid dev k H (s_pins s') (s_dirty s') (s_mem s') ws k' -> implements s' bs k'.
Proof using I.
  intros E Hh Hk W. split; [exists H; split; [apply W|done]|by rewrite Hh, (im_held _ _ _ I)|].
  intros n. rewrite Hk. by eapply block_after.
Qed.

Section held.
Context (H : gmap nat Z) (Hc : cache me pid dev H (s_pins s) (s_dirty s) (s_mem s) k).
Context (E : forall n b, bs !! n = Some b <-> H !! b = Some n).

Lemma read_refines n :
  allowed s (Read n) = true ->
  wp (op_run dev (Read n) bs) (fun r k' => fst r = [s_mem s n] /\ implements (spec_step (Read n) s) (snd r) k') k.
Proof using I DL Hc E.
  intros Ha. cbn [allowed op_run] in *. apply andb_true_iff in Ha as [Hn Hr]. apply bool_decide_eq_true in Hn.
  apply orb_true_iff in Hr. rewrite !bool_decide_eq_true, <- (im_held _ _ _ I), size_dom in Hr.
  assert (Hsz : size bs = size H) by (apply Nat.le_antisymm; apply inverse_size; intros a b; apply E).
  assert (Hfresh : forall i, H !! i <> Some n).
  { intros i Hi%E. apply Hn. rewrite <- (im_held _ _ _ I). apply elem_of_dom. eauto. }
  cache_op (bread_ok Hc n); [done|by rewrite <- Hsz|]. intros b k1 [Hb W].
  destruct (get_held (we_cache W) b n ltac:(apply lookup_insert_eq)) as (x & Eg & _ & Ed).
  apply wp_bind. eapply wp_eq; [exact Eg|]. apply wp_ret. cbn [fst snd spec_step]. split; [by rewrite Ed|].
  split; cbn.
  - exists (<[b := n]> H). split; [apply W|]. intros m c. rewrite !lookup_insert_Some, E.
    split; intros [[<- <-]|[Hne Hm]]; [by left| |by left|]; right; (split; [|done]).
    + intros <-. by rewrite Hb in Hm.
    + intros <-. by apply (Hfresh c).
  - by rewrite dom_insert_L, (im_held _ _ _ I).
  - intros m. by rewrite (block_after _ _ _ _ _ _ m W).
Qed.

Lemma release_refines n :
  allowed s (Release n) = true ->
  wp (op_run dev (Release n) bs) (fun r k' => fst r = [] /\ implements (spec_step (Release n) s) (snd r) k') k.
Proof using I DL Hc E.
  intros Ha. cbn [allowed op_run] in *. apply andb_true_iff in Ha as [Ha Hn]. apply bool_decide_eq_true in Ha, Hn.
  destruct (allowed_held n Ha) as [b Hb]. rewrite Hb. apply wp_bind, wp_ret.
  cache_op (brelse_ok Hc b n); [by apply E|done|]. intros _ k1 W. apply wp_ret. split; [done|]. split; cbn.
  - exists (delete b H). split; [apply W|]. intros m c. rewrite !lookup_delete_Some, E.
    split; intros [Hne Hm]; (split; [|done]); intros <-; apply Hne.
    + apply E in Hb. congruence.
    + apply E in Hm. congruence.
  - by rewrite dom_delete_L, (im_held _ _ _ I).
  - intros m. by rewrite (block_after _ _ _ _ _ _ m W).
Qed.
End held.

(** One operation. *)
Lemma op_refines o :
  allowed s o = true ->
  wp (op_run dev o bs) (fun r k' => fst r = spec_out o s /\ implements (spec_step o s) (snd r) k') k.
Proof using I DL.
  destruct (im_cache _ _ _ I) as (H & Hc & E).
  destruct o as [n|n d|n|n|n|n]; [by eapply read_refines| | |by eapply release_refines| |]; cbn [allowed op_run]; intros Ha;
    rewrite ?andb_true_iff, ?bool_decide_eq_true in Ha;
    (destruct (allowed_held n ltac:(tauto)) as [b Hb]; rewrite Hb; apply wp_bind, wp_ret; apply E in Hb).
  - cache_op (set_data_ok Hc b n d Hb); [done|]. intros _ k1 W. apply wp_ret. split; [done|]. by apply (implements_went H _ [] k1).
  - cache_op (bwrite_ok Hc b n Hb). intros _ k1 W. apply wp_ret. split; [done|]. by apply (implements_went H _ [(n, s_mem s n)] k1).
  - cache_op (bpin_ok Hc b n Hb); [tauto|]. intros _ k1 W. apply wp_ret. split; [done|]. by apply (implements_went H _ [] k1).
  - cache_op (bunpin_ok Hc b n Hb); [tauto|]. intros _ k1 W. apply wp_ret. split; [done|]. by apply (implements_went H _ [] k1).
Qed.
End step.

(** [C6] The buffer cache implements a map of blocks: every sequence of
    operations that the abstract cache allows (hold a block before using it,
    do not release a block that is dirty and not pinned, leave a buffer free
    to read into) runs to its end without panic, returns the data of the
    abstract cache at each read, and leaves on the disk exactly the blocks
    that were written. *)
Theorem bcache_implements_spec os s bs k out s' :
  implements s bs k -> spec_run os s = Some (out, s') ->
  exists bs' k', ops_run dev os bs k = Ret (out, bs') k' /\ implements s' bs' k'.
Proof using DL.
  revert s bs k out. induction os as [|o os IH]; intros s bs k out Hi Hs; cbn [spec_run ops_run] in *.
  - injection Hs as <- <-. eauto.
  - destruct (allowed s o) eqn:Ha; [|done]. destruct (spec_run os (spec_step o s)) as [[out1 s1]|] eqn:E1; [|done].
    injection Hs as <- <-. destruct (wp_inv _ _ _ (op_refines s bs k Hi o Ha)) as ([o1 bs1] & k1 & E & Eo & Hi1). simpl in Eo, Hi1.
    destruct (IH _ _ _ _ Hi1 E1) as (bs2 & k2 & E2 & Hi2). exists bs2, k2. split; [|done].
    erewrite bind_ret by exact E. cbn [fst snd]. erewrite bind_ret by exact E2. unfold ret. cbn [fst snd]. by rewrite Eo.
Qed.

Lemma filter_others (b : nat) (l : list nat) : b ∉ l -> filter (fun i => i <> b) l = l.
Proof.
  induction l as [|a l IH]; [done|]. intros [Hne Hn]%not_elem_of_cons. rewrite filter_cons_True by congruence. by rewrite IH.
Qed.

End refine.

(** ** Witnesses *)

Module BcacheSample.
Import FsSample.

Definition image (n : Z) : list Z := replicate 1024 (n mod 256).
Definition sevens : list Z := replicate 1024 7.

(** Overwrite block 5 on the disk, change block 6 in memory only and pin it,
    read both back. *)
Definition trace : list bop :=
  [Read 5; Store 5 sevens; Write 5; Release 5; Read 6; Store 6 sevens; Pin 6; Release 6; Read 5; Read 6].

Lemma implements0 : implements 0 1 1 (mk_bspec ∅ ∅ ∅ image image) ∅ (kernel0 image).
Proof. split; [|done|done]. exists ∅. split; [apply cache0|done]. Qed.

Lemma bcache_implements_spec_witness :
  exists bs' k', ops_run 1 trace ∅ (kernel0 image) = Ret ([image 5; image 6; sevens; sevens], bs') k' /\
    implements 0 1 1 (mk_bspec {[6; 5]} {[6]} {[6]} (fupd (fupd image 5 sevens) 6 sevens) (fupd image 5 sevens)) bs' k'.
Proof.
  apply (bcache_implements_spec 0 1 1 trace (mk_bspec ∅ ∅ ∅ image image) ∅ (kernel0 image)); [exact implements0|].
  reflexivity.
Defined.

End BcacheSample.
