(* ===== verification/Log.v ===== *)
(** * The log ([kernel/log.c])

    The on-disk header is an [int n] followed by [LOGSIZE] block numbers, at
    the start of the block [log.start]; the logged blocks follow it. *)

From S2P Require Import Prelude Riscv Memory Machine Spinlock Kernel Cstring Printf Proc Sleeplock Bio.

(** ** Integers in the data of a buffer *)

Fixpoint le_val (bs : list Z) : Z :=
  match bs with [] => 0 | b :: bs' => b + 256 * le_val bs' end.
(** [n] bytes of [data] at offset [off], as an unsigned integer, and storing
    them. *)
Definition data_get (n : nat) (data : list Z) (off : Z) : Z := le_val (take n (drop (Z.to_nat off) data)).
Definition data_put (bs : list Z) (off : Z) (data : list Z) : list Z :=
  take (Z.to_nat off) data ++ bs ++ drop (Z.to_nat off + length bs) data.
Definition data_set (n : nat) (v : Z) (off : Z) (data : list Z) : list Z :=
  data_put (le_bytes n v) off data.

Section log.
Context {KI : KernelImage} {C : Config} {D : BlockDevice}.

Definition upd_log (f : log -> log) : M kernel unit := modify (upd_klog f).
Definition upd_lh (f : logheader -> logheader) : M kernel unit := upd_log (upd_l_lh f).
(** [log.lh.block[i]] *)
Definition lh_get (i : Z) : M kernel Z :=
  let! l := gets klog in arr_get "log.lh.block" (lh_block (l_lh l)) i.
Definition lh_set (i v : Z) : M kernel unit :=
  do! lh_get i in upd_lh (upd_lh_block (<[Z.to_nat i := s32 v]>)).

Definition tails (n : Z) : list Z := seqZ 0 n.

Definition install_trans (recovering : bool) : M kernel unit :=
  let! l := gets klog in
  for_all (tails (lh_n (l_lh l))) (fun tail =>
    let! l := gets klog in
    let! lbuf := bread (l_dev l) (u32 (l_start l + tail + 1)) in
    let! dst := lh_get tail in
    let! dbuf := bread (l_dev l) (u32 dst) in
    let! lb := get_buf lbuf in
    do! upd_buf dbuf (upd_b_data (set (b_data lb))) in
    do! bwrite dbuf in
    do! when (negb recovering) (bunpin dbuf) in
    do! brelse lbuf in
    brelse dbuf).

Definition read_head : M kernel unit :=
  let! l := gets klog in
  let! b := bread (l_dev l) (u32 (l_start l)) in
  let! x := get_buf b in
  do! upd_lh (upd_lh_n (set (s32 (data_get 4 (b_data x) 0)))) in
  let! l := gets klog in
  do! for_all (tails (lh_n (l_lh l))) (fun i =>
        lh_set i (data_get 4 (b_data x) (4 + 4 * i))) in
  brelse b.

Definition write_head : M kernel unit :=
  let! l := gets klog in
  let! b := bread (l_dev l) (u32 (l_start l)) in
  do! upd_buf b (upd_b_data (data_set 4 (u32 (lh_n (l_lh l))) 0)) in
  do! for_all (tails (lh_n (l_lh l))) (fun i =>
        let! v := lh_get i in
        upd_buf b (upd_b_data (data_set 4 (u32 v) (4 + 4 * i)))) in
  do! bwrite b in
  brelse b.

Definition recover_from_log : M kernel unit :=
  do! read_head in
  do! install_trans true in
  do! upd_lh (upd_lh_n (set 0)) in
  write_head.

Definition initlog (dev : Z) (sb : superblock) : M kernel unit :=
  do! lift (initlock LkLog) in
  do! upd_log (fun l => upd_l_dev (set dev) (upd_l_size (set (s32 (sb_nlog sb)))
                          (upd_l_start (set (s32 (sb_logstart sb))) l))) in
  recover_from_log.

Definition begin_op : M kernel unit :=
  do! lift (acquire LkLog) in
  while (fun _ : unit =>
    let! l := gets klog in
    if l_committing l then do! sleep ChLog LkLog in ret (inl tt)
    else if LOGSIZE <? lh_n (l_lh l) + (l_outstanding l + 1) * MAXOPBLOCKS then
      do! sleep ChLog LkLog in ret (inl tt)
    else
      do! upd_log (upd_l_outstanding (fun n => s32 (n + 1))) in
      do! lift (release LkLog) in
      ret (inr tt)) tt.

Definition write_log : M kernel unit :=
  let! l := gets klog in
  for_all (tails (lh_n (l_lh l))) (fun tail =>
    let! l := gets klog in
    let! to := bread (l_dev l) (u32 (l_start l + tail + 1)) in
    let! src := lh_get tail in
    let! from := bread (l_dev l) (u32 src) in
    let! fb := get_buf from in
    do! upd_buf to (upd_b_data (set (b_data fb))) in
    do! bwrite to in
    do! brelse from in
    brelse to).

Definition commit : M kernel unit :=
  let! l := gets klog in
  when (0 <? lh_n (l_lh l))
    (do! write_log in
     do! write_head in
     do! install_trans false in
     do! upd_lh (upd_lh_n (set 0)) in
     write_head).

Definition end_op : M kernel unit :=
  do! lift (acquire LkLog) in
  do! upd_log (upd_l_outstanding (fun n => s32 (n - 1))) in
  let! l := gets klog in
  if l_committing l then panic "log.committing" else
  let! do_commit :=
    (if l_outstanding l =? 0 then
       do! upd_log (upd_l_committing (set true)) in ret true
     else do! wakeup ChLog in ret false) in
  do! lift (release LkLog) in
  when do_commit
    (do! commit in
     do! lift (acquire LkLog) in
     do! upd_log (upd_l_committing (set false)) in
     do! wakeup ChLog in
     lift (release LkLog)).

(** The index of [blockno] among the first [n] logged blocks, or [n]. *)
Fixpoint absorb (blocks : list Z) (n : nat) (blockno : Z) : Z :=
  match n, blocks with
  | S n', b :: blocks' => if u32 b =? blockno then 0 else 1 + absorb blocks' n' blockno
  | _, _ => 0
  end.

Definition log_write (b : nat) : M kernel unit :=
  do! lift (acquire LkLog) in
  let! l := gets klog in
  if (LOGSIZE <=? lh_n (l_lh l)) || (l_size l - 1 <=? lh_n (l_lh l)) then panic "too big a transaction" else
  if l_outstanding l <? 1 then panic "log_write outside of trans" else
  let! x := get_buf b in
  let i := absorb (lh_block (l_lh l)) (Z.to_nat (lh_n (l_lh l))) (b_blockno x) in
  do! lh_set i (b_blockno x) in
  do! when (i =? lh_n (l_lh l))
    (do! bpin b in upd_lh (upd_lh_n (fun n => s32 (n + 1)))) in
  lift (release LkLog).
End log.
