(* ===== verification/LogSpec.v ===== *)
(** * The log: what each function does to the disk

    [write_log], [write_head], [install_trans] and [read_head] as sequences of
    block writes, on the cache of [BioSpec]. *)

From S2P Require Import Prelude Riscv Memory Machine Spinlock Kalloc Vm Kernel Klock KSample Cstring Printf Proc Sched ProcSpec Sleeplock SleepSpec Bio Lru BioSpec Log.

(** ** Integers in a block *)

Lemma data_put_lookup bs off data i :
  0 <= off -> (Z.to_nat off + length bs <= length data)%nat ->
  data_put bs off data !! i =
  if decide (Z.to_nat off <= i < Z.to_nat off + length bs)%nat then bs !! (i - Z.to_nat off)%nat else data !! i.
Proof.
  intros H0 Hl. unfold data_put. set (o := Z.to_nat off) in *.
  assert (Ht : length (take o data) = o) by (rewrite length_take; lia).
  case_decide as Hd.
  - rewrite lookup_app_r, Ht, lookup_app_l by lia. done.
  - destruct (decide (i < o)%nat) as [Hi|Hi].
    + rewrite lookup_app_l, lookup_take_lt by lia. done.
    + rewrite lookup_app_r, Ht, lookup_app_r, lookup_drop by lia. f_equal. lia.
Qed.

Lemma length_data_put bs off data :
  (Z.to_nat off + length bs <= length data)%nat -> length (data_put bs off data) = length data.
Proof. intros H. unfold data_put. rewrite !length_app, length_take, length_drop. lia. Qed.

Lemma length_le_bytes n v : length (le_bytes n v) = n.
Proof. revert v. induction n as [|n IH]; intros v; simpl; [done|by rewrite IH]. Qed.
Lemma le_val_bytes n v : le_val (le_bytes n v) = v mod 256 ^ Z.of_nat n.
Proof.
  revert v. induction n as [|n IH]; intros v; [by rewrite Z.mod_1_r|].
  cbn [le_bytes le_val]. rewrite IH, Nat2Z.inj_succ, Z.pow_succ_r by lia. unfold u8.
  change (2 ^ 8) with 256. rewrite Z.rem_mul_r by lia. lia.
Qed.

Lemma data_get_set_eq n v off data :
  0 <= off -> (Z.to_nat off + n <= length data)%nat ->
  data_get n (data_set n v off data) off = v mod 256 ^ Z.of_nat n.
Proof.
  intros H0 Hl. unfold data_get, data_set. rewrite <- le_val_bytes. f_equal. apply list_eq. intros i.
  destruct (decide (i < n)%nat) as [Hi|Hi].
  - rewrite lookup_take_lt, lookup_drop, data_put_lookup by (rewrite ?length_le_bytes; lia).
    rewrite length_le_bytes, decide_True by lia. f_equal. lia.
  - rewrite lookup_take_ge by lia. symmetry. apply lookup_ge_None_2. rewrite length_le_bytes. lia.
Qed.

Lemma data_get_put_ne n bs off off' data :
  0 <= off -> 0 <= off' -> (Z.to_nat off' + length bs <= length data)%nat ->
  off + Z.of_nat n <= off' \/ off' + Z.of_nat (length bs) <= off ->
  data_get n (data_put bs off' data) off = data_get n data off.
Proof.
  intros H0 H1 Hl Hd. unfold data_get. f_equal. apply list_eq. intros i.
  destruct (decide (i < n)%nat) as [Hi|Hi]; [|by rewrite !lookup_take_ge by lia].
  rewrite !lookup_take_lt, !lookup_drop, data_put_lookup by lia. by rewrite decide_False by lia.
Qed.
Lemma data_get_set_ne n n' v off off' data :
  0 <= off -> 0 <= off' -> (Z.to_nat off' + n' <= length data)%nat ->
  off + Z.of_nat n <= off' \/ off' + Z.of_nat n' <= off ->
  data_get n (data_set n' v off' data) off = data_get n data off.
Proof. intros H0 H1 Hl Hd. apply data_get_put_ne; rewrite ?length_le_bytes; done. Qed.

Lemma length_data_set n v off data :
  (Z.to_nat off + n <= length data)%nat -> length (data_set n v off data) = length data.
Proof. intros H. apply length_data_put. by rewrite length_le_bytes. Qed.

Lemma u32_s32 x : u32 (s32 x) = u32 x.
Proof. unfold u32, s32. rewrite Zminus_mod_idemp_l. f_equal. lia. Qed.
Lemma s32_u32 x : s32 (u32 x) = s32 x.
Proof. unfold u32, s32. by rewrite Zplus_mod_idemp_l. Qed.

(** ** The header block *)

Definition head_n (d : list Z) : Z := s32 (data_get 4 d 0).
Definition head_block (d : list Z) (i : Z) : Z := u32 (data_get 4 d (4 + 4 * i)).
(** The blocks a header names. *)
Definition head_blocks (d : list Z) : list Z := head_block d <$> seqZ 0 (head_n d).

(** The header block as [write_head] leaves it after [bs], from entry [i]. *)
Fixpoint put_blocks (d : list Z) (i : Z) (bs : list Z) : list Z :=
  match bs with [] => d | b :: bs' => put_blocks (data_set 4 b (4 + 4 * i) d) (i + 1) bs' end.
Definition put_head (d : list Z) (bs : list Z) : list Z :=
  put_blocks (data_set 4 (Z.of_nat (length bs)) 0 d) 0 bs.

Lemma put_blocks_length e i bs : length e = 1024%nat -> 0 <= i -> i + Z.of_nat (length bs) <= 255 -> length (put_blocks e i bs) = 1024%nat.
Proof.
  revert e i. induction bs as [|b bs IH]; intros e i He Hi Hl; cbn [put_blocks length] in *; [done|].
  apply IH; [rewrite length_data_set; lia|lia|lia].
Qed.

(** Entries below [i] and the count are left alone. *)
Lemma put_blocks_below e i bs off :
  length e = 1024%nat -> 0 <= i -> i + Z.of_nat (length bs) <= 255 -> 0 <= off -> off + 4 <= 4 + 4 * i ->
  data_get 4 (put_blocks e i bs) off = data_get 4 e off.
Proof.
  revert e i. induction bs as [|b bs IH]; intros e i He Hi Hl H0 Hoff; cbn [put_blocks length] in *; [done|].
  rewrite IH; [|rewrite length_data_set; lia|lia..]. apply data_get_set_ne; lia.
Qed.

Lemma put_blocks_get e i bs j b :
  length e = 1024%nat -> 0 <= i -> i + Z.of_nat (length bs) <= 255 -> bs !! j = Some b -> 0 <= b < 2 ^ 32 ->
  data_get 4 (put_blocks e i bs) (4 + 4 * (i + Z.of_nat j)) = b.
Proof.
  revert e i j. induction bs as [|c bs IH]; intros e i j He Hi Hl Hj Hb; [done|]. cbn [put_blocks length] in *.
  destruct j as [|j]; simpl in Hj.
  - injection Hj as ->. replace (i + Z.of_nat 0) with i by lia.
    rewrite put_blocks_below; [|rewrite length_data_set; lia|lia..].
    rewrite data_get_set_eq by lia. by apply Z.mod_small.
  - replace (i + Z.of_nat (S j)) with (i + 1 + Z.of_nat j) by lia.
    apply IH; [rewrite length_data_set; lia|lia|lia|done|done].
Qed.

Section header.
Context (d : list Z) (Hd : length d = 1024%nat).
Context (bs : list Z) (Hlen : Z.of_nat (length bs) <= 255) (Hbs : forall b, b ∈ bs -> 0 <= b < 2 ^ 32).

Lemma put_head_length : length (put_head d bs) = 1024%nat.
Proof using Hd Hlen. apply put_blocks_length; [rewrite length_data_set; lia|lia|lia]. Qed.

Lemma put_head_n : head_n (put_head d bs) = Z.of_nat (length bs).
Proof using Hd Hlen.
  unfold head_n, put_head. rewrite put_blocks_below; [|rewrite length_data_set; lia|lia..].
  rewrite data_get_set_eq by lia. rewrite Z.mod_small by lia. apply s32_small. lia.
Qed.

Lemma put_head_blocks : head_blocks (put_head d bs) = bs.
Proof using Hd Hlen Hbs.
  unfold head_blocks. rewrite put_head_n. apply list_eq. intros j. rewrite list_lookup_fmap.
  destruct (decide (j < length bs)%nat) as [Hj|Hj].
  - rewrite lookup_seqZ_lt by lia. simpl. destruct (lookup_lt_is_Some_2 bs j Hj) as [b Hb]. rewrite Hb. f_equal.
    assert (0 <= b < 2 ^ 32) by (apply Hbs; by eapply list_elem_of_lookup_2).
    unfold head_block, put_head. rewrite put_blocks_get with (b := b); [by apply u32_small|rewrite length_data_set; lia|lia|lia|done|done].
  - rewrite lookup_seqZ_ge by lia. symmetry. apply lookup_ge_None_2. lia.
Qed.
End header.

(** ** The steps of the log *)

Section log.
Context {KI : KernelImage} {C : Config} {D : BlockDevice} {DL : Disk}.
Context (me : nat) (pid dev start size : Z).
Context (Hstart : 0 <= start) (Hsize : 1 <= size <= LOGSIZE) (Hend : start + size < 2 ^ 31).

#[local] Notation cache := (cache me pid dev).
#[local] Notation went := (went me pid dev).

(** The blocks of the log, and the slot of entry [i]. *)
Definition in_log (n : Z) : Prop := start <= n < start + size.
Definition slot (i : nat) : Z := start + Z.of_nat i + 1.

(** The log in memory names the blocks [bs]. *)
Record logged (bs : list Z) (l : log) : Prop := mk_logged {
  lg_dev : l_dev l = dev;
  lg_start : l_start l = start;
  lg_n : lh_n (l_lh l) = Z.of_nat (length bs);
  lg_len : length (lh_block (l_lh l)) = Z.to_nat LOGSIZE;
  lg_blocks i b : bs !! i = Some b -> exists z, lh_block (l_lh l) !! i = Some z /\ u32 z = b
}.

(** The blocks are distinct, fit the log, and are not blocks of the log. *)
Record targets (bs : list Z) : Prop := mk_targets {
  tg_nodup : NoDup bs;
  tg_len : Z.of_nat (length bs) < size;
  tg_block b : b ∈ bs -> 0 <= b < 2 ^ 32 /\ ~ in_log b
}.

Lemma slot_in_log bs i b : targets bs -> bs !! i = Some b -> in_log (slot i).
Proof. intros Ht Hi%lookup_lt_Some. pose proof (tg_len bs Ht). unfold in_log, slot. lia. Qed.
Lemma slot_ne bs i j b : targets bs -> bs !! i = Some b -> in_log (slot j) -> slot j <> b.
Proof. intros Ht Hi Hj <-. by apply (tg_block bs Ht (slot j)) in Hj; [|by eapply list_elem_of_lookup_2]. Qed.
Lemma slot_inj i j : slot i = slot j -> i = j.
Proof. unfold slot. lia. Qed.

Lemma slot_u32 bs i b : targets bs -> bs !! i = Some b -> u32 (start + Z.of_nat i + 1) = slot i.
Proof using Hstart Hend. intros Ht Hi. apply u32_small. pose proof (slot_in_log bs i b Ht Hi) as H. unfold in_log, slot, LOGSIZE in *. lia. Qed.

Lemma lh_get_eq bs i b k : logged bs (klog k) -> bs !! i = Some b -> exists z, lh_get (Z.of_nat i) k = Ret z k /\ u32 z = b.
Proof.
  intros HL Hi. destruct (lg_blocks _ _ HL i b Hi) as (z & Hz & E). exists z. split; [|done].
  unfold lh_get, bind, gets, arr_get. cbn [rbind]. destruct (Z.ltb_spec (Z.of_nat i) 0); [lia|]. by rewrite Nat2Z.id, Hz.
Qed.

(** One iteration of the loops. *)
Definition write_log_step (tail : Z) : M kernel unit :=
  let! l := gets klog in
  let! to := bread (l_dev l) (u32 (l_start l + tail + 1)) in
  let! src := lh_get tail in
  let! from := bread (l_dev l) (u32 src) in
  let! fb := get_buf from in
  do! upd_buf to (upd_b_data (set (b_data fb))) in
  do! bwrite to in
  do! brelse from in
  brelse to.
Definition install_step (recovering : bool) (tail : Z) : M kernel unit :=
  let! l := gets klog in
  let! lbuf := bread (l_dev l) (u32 (l_start l + tail + 1)) in
  let! dst := lh_get tail in
  let! dbuf := bread (l_dev l) (u32 dst) in
  let! lb := get_buf lbuf in
  do! upd_buf dbuf (upd_b_data (set (b_data lb))) in
  do! bwrite dbuf in
  do! when (negb recovering) (bunpin dbuf) in
  do! brelse lbuf in
  brelse dbuf.

Lemma frame_logged bs k k' : frame k k' -> logged bs (klog k) -> logged bs (klog k').
Proof. by intros [_ ->]. Qed.

(** Both buffers released. *)
Lemma release_two (a b : nat) (x y : Z) :
  a <> b -> delete a (delete b (<[b := y]> (<[a := x]> (∅ : gmap nat Z)))) = ∅.
Proof.
  intros Hne. rewrite delete_insert_id; [by rewrite delete_insert_id|]. by rewrite lookup_insert_ne.
Qed.

Lemma write_log_step_ok bs i b P dirty W k :
  targets bs -> logged bs (klog k) -> bs !! i = Some b ->
  cache ∅ P dirty W k -> b ∈ P -> slot i ∉ dirty -> (base.size P < NBUF)%nat -> dirty ⊆ P ->
  wp (write_log_step (Z.of_nat i)) (fun _ k' => went k ∅ P dirty (fupd W (slot i) (W b)) [(slot i, W b)] k') k.
Proof using Hstart Hsize Hend DL.
  intros Ht HL Hi Hc Hb Hs Hroom Hsub. pose proof (slot_ne bs i i b Ht Hi (slot_in_log bs i b Ht Hi)) as Hne.
  unfold write_log_step. apply wp_bind, wp_gets. rewrite (lg_dev _ _ HL), (lg_start _ _ HL), (slot_u32 bs i b) by done.
  cache_op (bread_ok Hc (slot i)); [done|right; by rewrite map_size_empty|]. intros to k1 [Hto W1].
  destruct (lh_get_eq bs i b k1 (frame_logged bs _ _ (we_frame W1) HL) Hi) as (z & Ez & Eb).
  apply wp_bind. eapply wp_eq; [exact Ez|]. rewrite Eb.
  cache_op (bread_ok (we_cache W1) b); [|by left|].
  { intros j. rewrite lookup_insert. by case_decide; [intros [= ?]|]. }
  intros from k2 [Hfr W2]. assert (Hft : to <> from) by (intros ->; by rewrite lookup_insert_eq in Hfr).
  set (H2 := <[from := b]> (<[to := slot i]> (∅ : gmap nat Z))) in *.
  assert (Hf2 : H2 !! from = Some b) by apply lookup_insert_eq.
  assert (Ht2 : H2 !! to = Some (slot i)) by (unfold H2; by rewrite lookup_insert_ne, lookup_insert_eq).
  destruct (get_held (we_cache W2) from b Hf2) as (fb & Eg & _ & Ed).
  apply wp_bind. eapply wp_eq; [exact Eg|]. rewrite Ed.
  cache_op (set_data_ok (we_cache W2) to (slot i) (W b) Ht2); [done|]. intros _ k3 W3.
  cache_op (bwrite_ok (we_cache W3) to (slot i) Ht2). intros _ k4 W4.
  cache_op (brelse_ok (we_cache W4) from b Hf2); [done|]. intros _ k5 W5.
  eapply wp_conseq; [apply (brelse_ok (we_cache W5) to (slot i)); [by rewrite lookup_delete_ne|set_solver +]|cbv beta].
  intros _ k6 W6. pose proof (went_trans W1 (went_trans W2 (went_trans W3 (went_trans W4 (went_trans W5 W6))))) as Wn.
  rewrite fupd_eq in Wn. unfold H2 in Wn. rewrite release_two in Wn by done.
  by replace (({[slot i]} ∪ dirty) ∖ {[slot i]}) with dirty in Wn by (apply set_eq; set_solver +Hs).
Qed.

(** [b] leaves the pinned blocks, unless the log is being recovered. *)
Definition unpinned (recovering : bool) (b : Z) (P : gset Z) : gset Z := if recovering then P else P ∖ {[b]}.

Lemma install_step_ok (recovering : bool) bs i b P dirty W k :
  targets bs -> logged bs (klog k) -> bs !! i = Some b -> cache ∅ P dirty W k ->
  (if recovering then (1 + base.size P < NBUF)%nat else b ∈ P /\ (base.size P < NBUF)%nat) ->
  slot i ∉ dirty -> dirty ⊆ P ->
  wp (install_step recovering (Z.of_nat i))
    (fun _ k' => went k ∅ (unpinned recovering b P) (dirty ∖ {[b]}) (fupd W b (W (slot i))) [(b, W (slot i))] k') k.
Proof using Hstart Hsize Hend DL.
  intros Ht HL Hi Hc HP Hs Hsub. pose proof (slot_ne bs i i b Ht Hi (slot_in_log bs i b Ht Hi)) as Hne.
  unfold install_step. apply wp_bind, wp_gets. rewrite (lg_dev _ _ HL), (lg_start _ _ HL), (slot_u32 bs i b) by done.
  cache_op (bread_ok Hc (slot i)); [done|right; rewrite map_size_empty; by destruct recovering; lia|].
  intros lbuf k1 [Hl W1].
  destruct (lh_get_eq bs i b k1 (frame_logged bs _ _ (we_frame W1) HL) Hi) as (z & Ez & Eb).
  apply wp_bind. eapply wp_eq; [exact Ez|]. rewrite Eb.
  cache_op (bread_ok (we_cache W1) b).
  { intros j. rewrite lookup_insert. by case_decide; [intros [= ?]|]. }
  { destruct recovering; [right|left; apply HP]. by rewrite map_size_insert_None, map_size_empty. }
  intros dbuf k2 [Hd W2]. assert (Hft : lbuf <> dbuf) by (intros ->; by rewrite lookup_insert_eq in Hd).
  set (H2 := <[dbuf := b]> (<[lbuf := slot i]> (∅ : gmap nat Z))) in *.
  assert (Hd2 : H2 !! dbuf = Some b) by apply lookup_insert_eq.
  assert (Hl2 : H2 !! lbuf = Some (slot i)) by (unfold H2; by rewrite lookup_insert_ne, lookup_insert_eq).
  destruct (get_held (we_cache W2) lbuf (slot i) Hl2) as (lb & Eg & _ & Ed).
  apply wp_bind. eapply wp_eq; [exact Eg|]. rewrite Ed.
  cache_op (set_data_ok (we_cache W2) dbuf b (W (slot i)) Hd2); [done|]. intros _ k3 W3.
  cache_op (bwrite_ok (we_cache W3) dbuf b Hd2). intros _ k4 W4.
  apply wp_bind. apply wp_conseq with (Q := fun _ k' => went k4 H2 (unpinned recovering b P) (({[b]} ∪ dirty) ∖ {[b]})
    (fupd W b (W (slot i))) [] k').
  { destruct recovering; cbn [negb when unpinned]; [apply wp_ret, went_refl, W4|].
    apply (bunpin_ok (we_cache W4) dbuf b Hd2), HP. }
  intros _ k5 W5.
  cache_op (brelse_ok (we_cache W5) lbuf (slot i) Hl2); [set_solver +Hs|]. intros _ k6 W6.
  eapply wp_conseq; [apply (brelse_ok (we_cache W6) dbuf b); [by rewrite lookup_delete_ne|set_solver +]|cbv beta].
  intros _ k7 W7.
  pose proof (went_trans W1 (went_trans W2 (went_trans W3 (went_trans W4 (went_trans W5 (went_trans W6 W7)))))) as Wn.
  rewrite fupd_eq in Wn. unfold H2 in Wn. rewrite insert_insert_ne, release_two in Wn by done.
  by replace (({[b]} ∪ dirty) ∖ {[b]}) with (dirty ∖ {[b]}) in Wn by (apply set_eq; set_solver +).
Qed.

(** The loops over the entries. *)
Lemma wp_tails (step : Z -> M kernel unit) (I : nat -> kernel -> Prop) (Q : unit -> kernel -> Prop) n k :
  (forall j s, (j < n)%nat -> I j s -> wp (step (Z.of_nat j)) (fun _ s' => I (S j) s') s) ->
  I 0%nat k -> (forall s, I n s -> Q tt s) -> wp (for_all (tails (Z.of_nat n)) step) Q k.
Proof.
  intros Hs H0 Hn.
  apply (wp_for_all step (fun xs s => exists j, (j <= n)%nat /\ xs = seqZ (Z.of_nat j) (Z.of_nat (n - j)) /\ I j s)).
  - intros x xs s (j & Hj & E & Hi). destruct (decide (j = n)) as [->|Hne]; [by rewrite Nat.sub_diag in E|].
    rewrite seqZ_cons in E by lia. injection E as -> ->. eapply wp_conseq; [apply Hs; [lia|done]|cbv beta].
    intros _ s' Hi'. exists (S j). split_and!; [lia| |done]. f_equal; lia.
  - intros s (j & Hj & E & Hi). destruct (decide (j = n)) as [->|Hne]; [by apply Hn|].
    by rewrite seqZ_cons in E by lia.
  - exists 0%nat. split_and!; [lia| |done]. unfold tails. f_equal. lia.
Qed.

Lemma disk_after_notin V ws n : n ∉ ws.*1 -> disk_after V ws n = V n.
Proof.
  induction ws as [|[m d] ws IH]; [done|]. rewrite fmap_cons, not_elem_of_cons. intros [Hne Hn]. simpl in *.
  rewrite decide_False by congruence. by apply IH.
Qed.

(** What [write_log] and [install_trans] write, latest first. *)
Definition log_writes (V : Z -> list Z) (bs : list Z) : list (Z * list Z) :=
  reverse (imap (fun i b => (slot i, V b)) bs).
Definition install_writes (V : Z -> list Z) (bs : list Z) : list (Z * list Z) :=
  reverse (imap (fun i b => (b, V (slot i))) bs).

Lemma imap_take_S {A B} (f : nat -> A -> B) l j x :
  l !! j = Some x -> reverse (imap f (take (S j) l)) = f j x :: reverse (imap f (take j l)).
Proof.
  intros Hj. rewrite (take_S_r _ _ x) by done. rewrite imap_app, reverse_app. simpl.
  rewrite length_take, Nat.min_l, Nat.add_0_r; [done|]. apply lookup_lt_Some in Hj. lia.
Qed.
Lemma log_writes_S V bs j b :
  bs !! j = Some b -> log_writes V (take (S j) bs) = (slot j, V b) :: log_writes V (take j bs).
Proof. apply (imap_take_S (fun i b => (slot i, V b))). Qed.
Lemma install_writes_S V bs j b :
  bs !! j = Some b -> install_writes V (take (S j) bs) = (b, V (slot j)) :: install_writes V (take j bs).
Proof. apply (imap_take_S (fun i b => (b, V (slot i)))). Qed.

Lemma log_writes_blocks V bs n : n ∈ (log_writes V bs).*1 -> exists i b, bs !! i = Some b /\ n = slot i.
Proof.
  unfold log_writes. rewrite fmap_reverse, elem_of_reverse, list_elem_of_fmap. intros (w & -> & Hw).
  apply elem_of_lookup_imap in Hw as (i & b & -> & Hi). eauto.
Qed.
Lemma install_writes_blocks V bs n : n ∈ (install_writes V bs).*1 -> n ∈ bs.
Proof.
  unfold install_writes. rewrite fmap_reverse, elem_of_reverse, list_elem_of_fmap. intros (w & -> & Hw).
  apply elem_of_lookup_imap in Hw as (i & b & -> & Hi). by eapply list_elem_of_lookup_2.
Qed.

Lemma write_log_ok bs P dirty V k :
  targets bs -> logged bs (klog k) -> cache ∅ P dirty V k ->
  (forall b, b ∈ bs -> b ∈ P) -> dirty ⊆ P -> (forall n, n ∈ dirty -> ~ in_log n) -> (base.size P < NBUF)%nat ->
  wp write_log (fun _ k' => went k ∅ P dirty (disk_after V (log_writes V bs)) (log_writes V bs) k') k.
Proof using Hstart Hsize Hend DL.
  intros Ht HL Hc HP Hsub Hd Hroom. unfold write_log. apply wp_bind, wp_gets. rewrite (lg_n _ _ HL).
  apply (wp_tails write_log_step (fun j s => went k ∅ P dirty (disk_after V (log_writes V (take j bs)))
    (log_writes V (take j bs)) s)); [|by apply went_refl|by rewrite firstn_all].
  intros j s Hj W. destruct (lookup_lt_is_Some_2 bs j Hj) as [b Hb].
  assert (Eb : disk_after V (log_writes V (take j bs)) b = V b).
  { apply disk_after_notin. intros (i & c & Hi & E)%log_writes_blocks. apply lookup_take_Some in Hi as [Hi _].
    by apply (slot_ne bs j i b Ht Hb (slot_in_log bs i c Ht Hi)). }
  eapply wp_conseq; [apply (write_log_step_ok bs j b P dirty _ s Ht (frame_logged bs k s (we_frame W) HL) Hb (we_cache W))|cbv beta].
  - apply HP. by eapply list_elem_of_lookup_2.
  - intros Hs%Hd. by apply Hs, (slot_in_log bs j b).
  - done.
  - done.
  - intros _ s' W'. rewrite (log_writes_S V bs j b) by done. rewrite Eb in W'. exact (went_trans W W').
Qed.

Lemma install_trans_ok (recovering : bool) bs P dirty V k :
  targets bs -> logged bs (klog k) -> cache ∅ P dirty V k ->
  (if recovering then P = ∅ else (forall b, b ∈ bs -> b ∈ P) /\ (base.size P < NBUF)%nat) ->
  dirty ⊆ P -> (forall n, n ∈ dirty -> ~ in_log n) ->
  wp (install_trans recovering) (fun _ k' =>
    went k ∅ (P ∖ list_to_set bs) (dirty ∖ list_to_set bs) (disk_after V (install_writes V bs)) (install_writes V bs) k') k.
Proof using Hstart Hsize Hend DL.
  intros Ht HL Hc HP Hsub Hd. unfold install_trans. apply wp_bind, wp_gets. rewrite (lg_n _ _ HL).
  apply (wp_tails (install_step recovering) (fun j s => went k ∅ (P ∖ list_to_set (take j bs)) (dirty ∖ list_to_set (take j bs))
    (disk_after V (install_writes V (take j bs))) (install_writes V (take j bs)) s)); [| |by rewrite firstn_all].
  2: { rewrite take_0, list_to_set_nil, !difference_empty_L. by apply went_refl. }
  intros j s Hj W. destruct (lookup_lt_is_Some_2 bs j Hj) as [b Hb].
  assert (Es : disk_after V (install_writes V (take j bs)) (slot j) = V (slot j)).
  { apply disk_after_notin. intros Hin%install_writes_blocks. apply list_elem_of_lookup in Hin as [i Hi].
    apply lookup_take_Some in Hi as [Hi _]. by apply (slot_ne bs i j _ Ht Hi (slot_in_log bs j b Ht Hb)). }
  assert (Hnb : b ∉ take j bs).
  { intros [i Hi]%list_elem_of_lookup. apply lookup_take_Some in Hi as [Hi Hlt].
    pose proof (NoDup_lookup bs i j b (tg_nodup bs Ht) Hi Hb). lia. }
  assert (Hset : forall X : gset Z, X ∖ list_to_set (take (S j) bs) = X ∖ list_to_set (take j bs) ∖ {[b]}).
  { intros X. rewrite (take_S_r _ _ b), list_to_set_app_L by done. apply set_eq. set_solver +. }
  assert (Hsz : (base.size (P ∖ list_to_set (take j bs) : gset Z) <= base.size P)%nat) by (apply subseteq_size; set_solver +).
  eapply wp_conseq; [apply (install_step_ok recovering bs j b _ _ _ s Ht (frame_logged bs k s (we_frame W) HL) Hb (we_cache W))|cbv beta].
  - destruct recovering.
    + rewrite HP, size_empty in Hsz. rewrite HP. unfold NBUF. lia.
    + destruct HP as [HP Hroom]. split; [|lia]. apply elem_of_difference. split; [apply HP; by eapply list_elem_of_lookup_2|].
      by rewrite elem_of_list_to_set.
  - intros [Hs _]%elem_of_difference. apply (Hd _ Hs), (slot_in_log bs j b Ht Hb).
  - set_solver +Hsub.
  - intros _ s' W'. rewrite (install_writes_S V bs j b), !Hset by done. rewrite Es in W'. unfold unpinned in W'.
    destruct recovering; [|exact (went_trans W W')].
    replace (P ∖ list_to_set (take j bs) ∖ {[b]}) with (P ∖ list_to_set (take j bs)) by (rewrite HP; apply set_eq; set_solver +).
    exact (went_trans W W').
Qed.

(** ** The header *)

Lemma put_blocks_snoc d i bs b :
  put_blocks d i (bs ++ [b]) = data_set 4 b (4 + 4 * (i + Z.of_nat (length bs))) (put_blocks d i bs).
Proof.
  revert d i. induction bs as [|c bs IH]; intros d i; cbn [app put_blocks length].
  - f_equal. lia.
  - rewrite IH. f_equal. lia.
Qed.

Lemma fupd_fupd V n d e m : fupd (fupd V n d) n e m = fupd V n e m.
Proof. unfold fupd. by case_decide. Qed.

Lemma write_head_ok bs P dirty V k :
  logged bs (klog k) -> Z.of_nat (length bs) <= size -> cache ∅ P dirty V k -> start ∉ dirty ->
  length (V start) = 1024%nat -> (base.size P < NBUF)%nat ->
  let h := put_head (V start) bs in
  wp write_head (fun _ k' => went k ∅ P dirty (fupd V start h) [(start, h)] k') k.
Proof using Hstart Hsize Hend DL.
  intros HL Hlen Hc Hs Hl Hroom h. unfold write_head. apply wp_bind, wp_gets.
  rewrite (lg_dev _ _ HL), (lg_start _ _ HL), (lg_n _ _ HL). rewrite !u32_small by (unfold LOGSIZE in *; lia).
  cache_op (bread_ok Hc start); [done|right; by rewrite map_size_empty|]. intros b k1 [_ W1].
  set (H1 := <[b := start]> (∅ : gmap nat Z)) in *. assert (Hb : H1 !! b = Some start) by apply lookup_insert_eq.
  set (h0 := data_set 4 (Z.of_nat (length bs)) 0 (V start)).
  cache_op (set_data_ok (we_cache W1) b start h0 Hb); [intros x Hx; cbn [b_data upd_b_data]; by rewrite Hx|]. intros _ k2 W2.
  apply wp_bind. eapply (wp_tails _ (fun j s => went k2 H1 P ({[start]} ∪ dirty)
    (fupd V start (put_blocks h0 0 (take j bs))) [] s)); [| |cbv beta].
  - intros j s Hj W. destruct (lookup_lt_is_Some_2 bs j Hj) as [c Hc'].
    pose proof (frame_logged bs _ _ (we_frame (went_trans W1 (went_trans W2 W))) HL) as HLs.
    destruct (lh_get_eq bs j c s HLs Hc') as (z & Ez & Eb). apply wp_bind. eapply wp_eq; [exact Ez|]. rewrite Eb.
    eapply wp_conseq; [apply (set_data_ok (we_cache W) b start (put_blocks h0 0 (take (S j) bs)) Hb)|cbv beta].
    + intros x Hx. rewrite fupd_eq in Hx. cbn [b_data upd_b_data]. rewrite Hx, (take_S_r _ _ c), put_blocks_snoc by done.
      rewrite length_take, Nat.min_l by lia. done.
    + intros _ s' W'. replace ({[start]} ∪ ({[start]} ∪ dirty)) with ({[start]} ∪ dirty) in W' by (apply set_eq; set_solver +).
      apply (went_ext me pid dev _ _ _ _ (fupd (fupd V start (put_blocks h0 0 (take j bs))) start (put_blocks h0 0 (take (S j) bs))));
        [apply fupd_fupd|]. exact (went_trans W W').
  - rewrite take_0. cbn [put_blocks]. apply went_refl, W2.
  - intros s W. rewrite firstn_all in W. fold (put_head (V start) bs) in W. fold h in W.
    cache_op (bwrite_ok (we_cache W) b start Hb). intros _ k3 W3.
    eapply wp_conseq; [apply (brelse_ok (we_cache W3) b start Hb); set_solver +|cbv beta]. intros _ k4 W4.
    pose proof (went_trans W1 (went_trans W2 (went_trans W (went_trans W3 W4)))) as Wn. rewrite fupd_eq in Wn.
    unfold H1 in Wn. rewrite delete_insert_id in Wn by done.
    by replace (({[start]} ∪ dirty) ∖ {[start]}) with dirty in Wn by (apply set_eq; set_solver +Hs).
Qed.

(** The header in memory with the entries [zs]. *)
Definition with_lh (n : Z) (zs : list Z) (k : kernel) : kernel := upd_klog (upd_l_lh (fun _ => mk_logheader n zs)) k.

Lemma lh_set_eq n zs (i : nat) v k :
  (i < length zs)%nat -> lh_set (Z.of_nat i) v (with_lh n zs k) = Ret tt (with_lh n (<[i := s32 v]> zs) k).
Proof.
  intros Hi. destruct (lookup_lt_is_Some_2 zs i Hi) as [z Hz]. unfold lh_set, lh_get.
  erewrite bind_ret.
  2: { erewrite bind_ret by done. unfold arr_get. destruct (Z.ltb_spec (Z.of_nat i) 0); [lia|].
       rewrite Nat2Z.id. cbn [with_lh klog upd_klog l_lh upd_l_lh lh_block]. by rewrite Hz. }
  unfold upd_lh, upd_log, modify. by rewrite Nat2Z.id.
Qed.

Lemma read_head_ok bs P dirty V k :
  l_dev (klog k) = dev -> l_start (klog k) = start -> length (lh_block (l_lh (klog k))) = Z.to_nat LOGSIZE ->
  cache ∅ P dirty V k -> start ∉ dirty -> (base.size P < NBUF)%nat ->
  0 <= head_n (V start) <= LOGSIZE -> head_blocks (V start) = bs ->
  wp read_head (fun _ k' => cache ∅ P dirty V k' /\ others k' = others k /\ kdisk k' = kdisk k /\ logged bs (klog k')) k.
Proof using Hstart Hsize Hend DL.
  intros Hdev Hst Hlen Hc Hs Hroom Hn <-. unfold read_head. apply wp_bind, wp_gets. rewrite Hdev, Hst.
  rewrite u32_small by lia. cache_op (bread_ok Hc start); [done|right; by rewrite map_size_empty|]. intros b k1 [_ W1].
  set (H1 := <[b := start]> (∅ : gmap nat Z)) in *. assert (Hb : H1 !! b = Some start) by apply lookup_insert_eq.
  destruct (get_held (we_cache W1) b start Hb) as (x & Eg & _ & Ed). apply wp_bind. eapply wp_eq; [exact Eg|]. rewrite Ed.
  fold (head_n (V start)). set (n := head_n (V start)) in *. destruct (we_frame W1) as [Fo Fl].
  apply wp_bind, wp_modify, wp_bind, wp_gets. cbn [klog upd_klog l_lh upd_l_lh lh_n upd_lh_n set].
  change (set n (lh_n (l_lh (klog k1)))) with n. assert (En : tails n = tails (Z.of_nat (Z.to_nat n))) by (f_equal; lia). rewrite En.
  apply wp_bind. eapply (wp_tails _ (fun j s => exists zs, s = with_lh n zs k1 /\ length zs = Z.to_nat LOGSIZE /\
    forall i, (i < j)%nat -> exists z, zs !! i = Some z /\ u32 z = head_block (V start) (Z.of_nat i))).
  - intros j s Hj (zs & -> & Hz & Hi). eapply wp_eq; [apply lh_set_eq; lia|]. eexists. split_and!; [reflexivity|by rewrite length_insert|].
    intros i Hij. destruct (decide (i = j)) as [->|Hne].
    + rewrite list_lookup_insert_eq by lia. eexists. split; [done|]. by rewrite u32_s32.
    + rewrite list_lookup_insert_ne by done. apply Hi. lia.
  - exists (lh_block (l_lh (klog k1))). rewrite Fl. split_and!; [|done|lia]. unfold with_lh, upd_lh_n, set, upd_klog. kcbn.
    f_equal. unfold upd_l_lh. f_equal. by rewrite Fl.
  - intros s (zs & -> & Hz & Hi). pose proof (cache_klog me pid dev _ _ _ _ (upd_l_lh (fun _ => mk_logheader n zs)) _ (we_cache W1)) as Hc2.
    eapply wp_conseq; [apply (brelse_ok Hc2 b start Hb); done|cbv beta]. intros _ k2 [C2 [Fo2 Fl2] D2].
    unfold H1 in C2. rewrite delete_insert_id in C2 by done. split_and!; [done| | |].
    + rewrite Fo2. exact Fo.
    + rewrite D2, <- no_writes. cbn [kdisk upd_klog]. rewrite (we_disk W1). symmetry. apply no_writes.
    + rewrite Fl2. split; cbn [klog upd_klog l_lh upd_l_lh lh_n lh_block l_dev l_start]; rewrite ?Fl; try done.
      * unfold head_blocks. rewrite length_fmap, length_seqZ. fold n. lia.
      * intros i c Hc'. unfold head_blocks in Hc'. rewrite list_lookup_fmap in Hc'. apply fmap_Some in Hc' as (y & Hy & ->).
        apply lookup_seqZ in Hy as [-> Hlt]. apply Hi. fold n in Hlt. lia.
Qed.
End log.
