(* ===== verification/Fs.v ===== *)
(** * The file system ([kernel/fs.c])

    Block allocator, inodes, file content, directories and path names, over
    the log. A block's content is the data of its buffer; an on-disk inode
    is the 64 bytes of [struct dinode] in it, and a directory entry the 16
    bytes of [struct dirent]. *)

From S2P Require Import Prelude Riscv Memory Machine Spinlock Kernel Cstring Printf Proc Sleeplock Bio.
From S2P Require Import Log.

Definition ROOTINO : Z := 1.
Definition FSMAGIC : Z := 0x10203040.
Definition NDIRECT : Z := 12.
Definition NINDIRECT : Z := BSIZE / 4.
Definition MAXFILE : Z := NDIRECT + NINDIRECT.
Definition DINODE_SIZE : Z := 64.
Definition IPB : Z := BSIZE / DINODE_SIZE.
Definition BPB : Z := BSIZE * 8.
Definition DIRSIZ : nat := 14.
Definition DIRENT_SIZE : Z := 16.
Definition T_DIR : Z := 1.
Definition T_FILE : Z := 2.
Definition T_DEVICE : Z := 3.

Definition IBLOCK (i : Z) (sb : superblock) : Z := u32 (i / IPB + sb_inodestart sb).
Definition BBLOCK (b : Z) (sb : superblock) : Z := u32 (b / BPB + sb_bmapstart sb).

Section fs.
Context {KI : KernelImage} {C : Config} {D : BlockDevice}.

(** ** The super block *)

Definition sb_of (data : list Z) : superblock :=
  let f i := data_get 4 data (4 * i) in
  mk_superblock (f 0) (f 1) (f 2) (f 3) (f 4) (f 5) (f 6) (f 7).

Definition readsb (dev : Z) : M kernel superblock :=
  let! bp := bread dev 1 in
  let! x := get_buf bp in
  do! brelse bp in
  ret (sb_of (b_data x)).

Definition fsinit (dev : Z) : M kernel unit :=
  let! s := readsb dev in
  do! modify (upd_ksb (set s)) in
  if negb (sb_magic s =? FSMAGIC) then panic "invalid file system" else
  initlog dev s.

(** ** Blocks *)

Definition bzero (dev bno : Z) : M kernel unit :=
  let! bp := bread dev (u32 bno) in
  do! upd_buf bp (upd_b_data (set (replicate (Z.to_nat BSIZE) 0))) in
  do! log_write bp in
  brelse bp.

Definition data_byte (data : list Z) (i : Z) : Z := default 0 (data !! Z.to_nat i).
Definition bitmask (bi : Z) : Z := Z.shiftl 1 (bi mod 8).

Definition balloc (dev : Z) : M kernel Z :=
  let! s := gets ksb in
  let! r := while (fun b : Z =>
    if b <? sb_size s then
      let! bp := bread dev (BBLOCK b s) in
      let! r := for_each (seqZ 0 (Z.min BPB (sb_size s - b))) tt (fun bi _ =>
        let! x := get_buf bp in
        let m := bitmask bi in
        if negb (bit (data_byte (b_data x) (bi / 8)) m) then
          do! upd_buf bp (upd_b_data (alter (fun v => Z.lor v m) (Z.to_nat (bi / 8)))) in
          do! log_write bp in
          do! brelse bp in
          do! bzero dev (b + bi) in
          ret (inr (b + bi))
        else ret (inl tt)) in
      match r with
      | inr a => ret (inr (Some a))
      | inl _ => do! brelse bp in ret (inl (b + BPB))
      end
    else ret (inr None)) 0 in
  match r with
  | Some a => ret a
  | None => do! printf ("balloc: out of blocks" ++ nl) [] in ret 0
  end.

Definition bfree (dev b : Z) : M kernel unit :=
  let! s := gets ksb in
  let! bp := bread dev (BBLOCK b s) in
  let bi := b mod BPB in
  let m := bitmask bi in
  let! x := get_buf bp in
  if negb (bit (data_byte (b_data x) (bi / 8)) m) then panic "freeing free block" else
  do! upd_buf bp (upd_b_data (alter (fun v => Z.land v (Z.lnot m)) (Z.to_nat (bi / 8)))) in
  do! log_write bp in
  brelse bp.

(** ** Inodes *)

Definition all_inodes : list nat := seq 0 NINODE.

Definition iinit : M kernel unit :=
  do! lift (initlock LkItable) in
  for_all all_inodes (fun i => initsleeplock (SlInode i)).

Definition iget (dev inum : Z) : M kernel nat :=
  do! lift (acquire LkItable) in
  let! r := for_each all_inodes None (fun i empty =>
    let! ip := get_inode i in
    if (0 <? i_ref ip) && (i_dev ip =? dev) && (i_inum ip =? inum) then
      do! upd_inode i (upd_i_ref (fun r => s32 (r + 1))) in
      do! lift (release LkItable) in
      ret (inr i)
    else
      ret (inl (match empty with
                | None => if i_ref ip =? 0 then Some i else None
                | Some e => Some e
                end))) in
  match r with
  | inr i => ret i
  | inl None => panic "iget: no inodes"
  | inl (Some i) =>
      do! upd_inode i (fun ip => upd_i_valid (set false) (upd_i_ref (set 1)
            (upd_i_inum (set inum) (upd_i_dev (set dev) ip)))) in
      do! lift (release LkItable) in
      ret i
  end.

(** Offset of inode [inum] in its block. *)
Definition dip_off (inum : Z) : Z := DINODE_SIZE * (inum mod IPB).

Definition ialloc (dev type : Z) : M kernel (option nat) :=
  let! s := gets ksb in
  let! r := while (fun inum : Z =>
    if inum <? sb_ninodes s then
      let! bp := bread dev (IBLOCK inum s) in
      let! x := get_buf bp in
      if data_get 2 (b_data x) (dip_off inum) =? 0 then
        do! upd_buf bp (upd_b_data (data_put (replicate (Z.to_nat DINODE_SIZE) 0) (dip_off inum))) in
        do! upd_buf bp (upd_b_data (data_set 2 type (dip_off inum))) in
        do! log_write bp in
        do! brelse bp in
        let! ip := iget dev inum in
        ret (inr (Some ip))
      else
        do! brelse bp in ret (inl (inum + 1))
    else ret (inr None)) 1 in
  match r with
  | Some ip => ret (Some ip)
  | None => do! printf ("ialloc: no inodes" ++ nl) [] in ret None
  end.

(** The bytes of [struct dinode] for an inode. *)
Definition dinode_bytes (ip : inode) : list Z :=
  le_bytes 2 (i_type ip) ++ le_bytes 2 (i_major ip) ++ le_bytes 2 (i_minor ip) ++
  le_bytes 2 (i_nlink ip) ++ le_bytes 4 (i_size ip) ++ concat (map (le_bytes 4) (i_addrs ip)).

Definition iupdate (i : nat) : M kernel unit :=
  let! s := gets ksb in
  let! ip := get_inode i in
  let! bp := bread (i_dev ip) (IBLOCK (i_inum ip) s) in
  do! upd_buf bp (upd_b_data (data_put (dinode_bytes ip) (dip_off (i_inum ip)))) in
  do! log_write bp in
  brelse bp.

Definition idup (i : nat) : M kernel nat :=
  do! lift (acquire LkItable) in
  do! upd_inode i (upd_i_ref (fun r => s32 (r + 1))) in
  do! lift (release LkItable) in
  ret i.

(** The fields of an inode from the [struct dinode] at [off]. *)
Definition load_dinode (data : list Z) (off : Z) (ip : inode) : inode :=
  let short o := s16 (data_get 2 data (off + o)) in
  mk_inode (i_dev ip) (i_inum ip) (i_ref ip) (i_lock ip) (i_valid ip)
    (short 0) (short 2) (short 4) (short 6) (data_get 4 data (off + 8))
    (map (fun j => data_get 4 data (off + 12 + 4 * j)) (seqZ 0 (NDIRECT + 1))).

Definition ilock (ip : option nat) : M kernel unit :=
  match ip with
  | None => panic "ilock"
  | Some i =>
      let! x := get_inode i in
      if i_ref x <? 1 then panic "ilock" else
      do! acquiresleep (SlInode i) in
      let! x := get_inode i in
      when (negb (i_valid x))
        (let! s := gets ksb in
         let! bp := bread (i_dev x) (IBLOCK (i_inum x) s) in
         let! b := get_buf bp in
         do! upd_inode i (load_dinode (b_data b) (dip_off (i_inum x))) in
         do! brelse bp in
         do! upd_inode i (upd_i_valid (set true)) in
         let! x := get_inode i in
         if i_type x =? 0 then panic "ilock: no type" else ret tt)
  end.

Definition iunlock (ip : option nat) : M kernel unit :=
  match ip with
  | None => panic "iunlock"
  | Some i =>
      let! h := holdingsleep (SlInode i) in
      if negb h then panic "iunlock" else
      let! x := get_inode i in
      if i_ref x <? 1 then panic "iunlock" else
      releasesleep (SlInode i)
  end.

(** *** Content *)

Definition addr_get (i : nat) (bn : Z) : M kernel Z :=
  let! ip := get_inode i in arr_get "ip->addrs" (i_addrs ip) bn.
Definition addr_set (i : nat) (bn v : Z) : M kernel unit :=
  do! addr_get i bn in upd_inode i (upd_i_addrs (<[Z.to_nat bn := v]>)).

Definition bmap (i : nat) (bn : Z) : M kernel Z :=
  let! ip := get_inode i in
  if bn <? NDIRECT then
    let! addr := addr_get i bn in
    if addr =? 0 then
      let! addr := balloc (i_dev ip) in
      if addr =? 0 then ret 0 else
      do! addr_set i bn addr in ret addr
    else ret addr
  else
  let bn := bn - NDIRECT in
  if bn <? NINDIRECT then
    let! addr := addr_get i NDIRECT in
    let! addr :=
      (if addr =? 0 then
         let! addr := balloc (i_dev ip) in
         if addr =? 0 then ret 0 else
         do! addr_set i NDIRECT addr in ret addr
       else ret addr) in
    if addr =? 0 then ret 0 else
    let! bp := bread (i_dev ip) addr in
    let! x := get_buf bp in
    let addr := data_get 4 (b_data x) (4 * bn) in
    let! addr :=
      (if addr =? 0 then
         let! addr := balloc (i_dev ip) in
         do! when (nz addr)
           (do! upd_buf bp (upd_b_data (data_set 4 addr (4 * bn))) in log_write bp) in
         ret addr
       else ret addr) in
    do! brelse bp in
    ret addr
  else panic "bmap: out of range".

Definition itrunc (i : nat) : M kernel unit :=
  do! for_all (seqZ 0 NDIRECT) (fun j =>
    let! addr := addr_get i j in
    when (nz addr)
      (let! ip := get_inode i in
       do! bfree (i_dev ip) addr in
       addr_set i j 0)) in
  let! addr := addr_get i NDIRECT in
  do! when (nz addr)
    (let! ip := get_inode i in
     let! bp := bread (i_dev ip) addr in
     do! for_all (seqZ 0 NINDIRECT) (fun j =>
       let! x := get_buf bp in
       let a := data_get 4 (b_data x) (4 * j) in
       when (nz a) (bfree (i_dev ip) a)) in
     do! brelse bp in
     do! bfree (i_dev ip) addr in
     addr_set i NDIRECT 0) in
  do! upd_inode i (upd_i_size (set 0)) in
  iupdate i.

Definition iput (i : nat) : M kernel unit :=
  do! lift (acquire LkItable) in
  let! ip := get_inode i in
  do! when ((i_ref ip =? 1) && i_valid ip && (i_nlink ip =? 0))
    (do! acquiresleep (SlInode i) in
     do! lift (release LkItable) in
     do! itrunc i in
     do! upd_inode i (upd_i_type (set 0)) in
     do! iupdate i in
     do! upd_inode i (upd_i_valid (set false)) in
     do! releasesleep (SlInode i) in
     lift (acquire LkItable)) in
  do! upd_inode i (upd_i_ref (fun r => s32 (r - 1))) in
  lift (release LkItable).

Definition iunlockput (i : nat) : M kernel unit :=
  do! iunlock (Some i) in iput i.

(** [struct stat], as the bytes copied to the user; the four bytes between
    [nlink] and [size] are padding, taken to be zero. *)
Definition stati (ip : inode) : list Z :=
  le_bytes 4 (i_dev ip) ++ le_bytes 4 (i_inum ip) ++ le_bytes 2 (i_type ip) ++
  le_bytes 2 (i_nlink ip) ++ replicate 4 0 ++ le_bytes 8 (i_size ip).

Definition dest_add (dst : dest) (m : Z) : dest :=
  match dst with DUser va => DUser (u64 (va + m)) | DPhys pa => DPhys (u64 (pa + m)) | DObj => DObj end.
Definition src_add (src : source) (m : Z) : source :=
  match src with SUser va => SUser (u64 (va + m)) | SObj bs => SObj (drop (Z.to_nat m) bs) end.

(** The result, and the bytes stored when [dst] is an object. *)
Definition readi (i : nat) (dst : dest) (off n : Z) : M kernel (Z * list Z) :=
  let! ip := get_inode i in
  if (i_size ip <? off) || (u32 (off + n) <? off) then ret (0, []) else
  let n := if i_size ip <? u32 (off + n) then u32 (i_size ip - off) else n in
  while (fun st : Z * Z * dest * list Z =>
    let '(tot, off, dst, out) := st in
    if tot <? n then
      let! addr := bmap i (off / BSIZE) in
      if addr =? 0 then ret (inr (s32 tot, out)) else
      let! ip := get_inode i in
      let! bp := bread (i_dev ip) addr in
      let m := Z.min (n - tot) (BSIZE - off mod BSIZE) in
      let! x := get_buf bp in
      let chunk := take (Z.to_nat m) (drop (Z.to_nat (off mod BSIZE)) (b_data x)) in
      let! r := either_copyout dst chunk in
      do! brelse bp in
      if r =? -1 then ret (inr (-1, out)) else
      ret (inl (tot + m, u32 (off + m), dest_add dst m, out ++ chunk))
    else ret (inr (s32 tot, out))) (0, off, dst, []).

Definition writei (i : nat) (src : source) (off n : Z) : M kernel Z :=
  let! ip := get_inode i in
  if (i_size ip <? off) || (u32 (off + n) <? off) then ret (-1) else
  if MAXFILE * BSIZE <? u32 (off + n) then ret (-1) else
  let! r := while (fun st : Z * Z * source =>
    let '(tot, off, src) := st in
    if tot <? n then
      let! addr := bmap i (off / BSIZE) in
      if addr =? 0 then ret (inr (tot, off)) else
      let! ip := get_inode i in
      let! bp := bread (i_dev ip) addr in
      let m := Z.min (n - tot) (BSIZE - off mod BSIZE) in
      let! r := either_copyin src m in
      let '(r, bs) := r in
      do! upd_buf bp (upd_b_data (data_put bs (off mod BSIZE))) in
      if r =? -1 then do! brelse bp in ret (inr (tot, off)) else
      do! log_write bp in
      do! brelse bp in
      ret (inl (tot + m, u32 (off + m), src_add src m))
    else ret (inr (tot, off))) (0, off, src) in
  let '(tot, off) := r in
  let! ip := get_inode i in
  do! when (i_size ip <? off) (upd_inode i (upd_i_size (set off))) in
  do! iupdate i in
  ret (s32 tot).

(** ** Directories *)

(** [None] when one of the names is not terminated within its object. *)
Definition namecmp (s t : list Z) : option Z := strncmp s t DIRSIZ.

Definition de_inum (de : list Z) : Z := data_get 2 de 0.
Definition de_name (de : list Z) : list Z := drop 2 de.

Definition dirlookup (dp : nat) (name : list Z) : M kernel (option (nat * Z)) :=
  let! d := get_inode dp in
  if negb (i_type d =? T_DIR) then panic "dirlookup not DIR" else
  while (fun off : Z =>
    let! d := get_inode dp in
    if off <? i_size d then
      let! r := readi dp DObj off DIRENT_SIZE in
      let '(r, de) := r in
      if negb (r =? DIRENT_SIZE) then panic "dirlookup read" else
      if de_inum de =? 0 then ret (inl (u32 (off + DIRENT_SIZE))) else
      match namecmp name (de_name de) with
      | None => undef "namecmp"
      | Some c =>
          if c =? 0 then
            let! d := get_inode dp in
            let! ip := iget (i_dev d) (de_inum de) in
            ret (inr (Some (ip, off)))
          else ret (inl (u32 (off + DIRENT_SIZE)))
      end
    else ret (inr None)) 0.

Definition dirlink (dp : nat) (name : list Z) (inum : Z) : M kernel Z :=
  let! r := dirlookup dp name in
  match r with
  | Some (ip, _) => do! iput ip in ret (-1)
  | None =>
      let! off := while (fun off : Z =>
        let! d := get_inode dp in
        if off <? i_size d then
          let! r := readi dp DObj off DIRENT_SIZE in
          let '(r, de) := r in
          if negb (r =? DIRENT_SIZE) then panic "dirlink read" else
          if de_inum de =? 0 then ret (inr off) else ret (inl (s32 (off + DIRENT_SIZE)))
        else ret (inr off)) 0 in
      match strncpy name DIRSIZ with
      | None => undef "strncpy"
      | Some nm =>
          let! w := writei dp (SObj (le_bytes 2 inum ++ nm)) off DIRENT_SIZE in
          ret (if negb (w =? DIRENT_SIZE) then -1 else 0)
      end
  end.

(** ** Paths

    A path is the bytes of its string with the terminating NUL. *)

Definition slash : Z := 47.

Fixpoint skip_slashes (path : list Z) : list Z :=
  match path with
  | c :: path' => if c =? slash then skip_slashes path' else path
  | [] => []
  end.
(** The bytes up to the next slash or NUL, and the rest. *)
Fixpoint path_elem (path : list Z) : list Z * list Z :=
  match path with
  | c :: path' =>
      if negb (c =? slash) && nz c then let '(s, rest) := path_elem path' in (c :: s, rest)
      else ([], path)
  | [] => ([], [])
  end.

(** The rest of the path and the element, as the bytes stored in [name]. *)
Definition skipelem (path : list Z) : option (list Z * list Z) :=
  let path := skip_slashes path in
  if hd 0 path =? 0 then None else
  let '(s, path) := path_elem path in
  let name := if (DIRSIZ <=? length s)%nat then take DIRSIZ s else s ++ [0] in
  Some (skip_slashes path, name).

Definition namex (path : list Z) (nameiparent : bool) : M kernel (option (nat * list Z)) :=
  let! ip :=
    (if hd 0 path =? slash then iget ROOTDEV ROOTINO
     else let! me := myproc1 in
          let! p := get_proc me in
          let! cwd := deref (p_cwd p) in
          idup cwd) in
  while (fun st : nat * list Z * list Z =>
    let '(ip, path, name) := st in
    match skipelem path with
    | None =>
        if nameiparent : bool then do! iput ip in ret (inr None)
        else ret (inr (Some (ip, name)))
    | Some (path, name) =>
        do! ilock (Some ip) in
        let! x := get_inode ip in
        if negb (i_type x =? T_DIR) then do! iunlockput ip in ret (inr None) else
        if nameiparent && (hd 0 path =? 0) then
          do! iunlock (Some ip) in ret (inr (Some (ip, name)))
        else
        let! r := dirlookup ip name in
        match r with
        | None => do! iunlockput ip in ret (inr None)
        | Some (next, _) => do! iunlockput ip in ret (inl (next, path, name))
        end
    end) (ip, path, []).

Definition namei (path : list Z) : M kernel (option nat) :=
  let! r := namex path false in ret (fst <$> r).
Definition nameiparent (path : list Z) : M kernel (option (nat * list Z)) := namex path true.
End fs.
