(* ===== verification/LogSafe.v ===== *)
(** * Crash safety of the log

    A crash loses memory and keeps the blocks written so far. Whatever the
    crash point of a commit, and however often recovery itself crashes, the
    recovered disk is the one before the transaction or the one after it. *)

From S2P Require Import Prelude Riscv Memory Machine Spinlock Kalloc Vm Kernel Klock KSample Cstring Printf Proc Sched ProcSpec Sleeplock SleepSpec Bio Lru BioSpec FsSample Log LogSpec Fs.

(** ** Sequences of block writes *)

Lemma disk_after_app V ws2 ws1 n : disk_after V (ws2 ++ ws1) n = disk_after (disk_after V ws1) ws2 n.
Proof. induction ws2 as [|[m d] ws2 IH]; [done|]. simpl. by case_decide. Qed.
Lemma disk_after_ext V V' ws n : V n = V' n -> disk_after V ws n = disk_after V' ws n.
Proof. intros E. induction ws as [|[m d] ws IH]; [done|]. simpl. by case_decide. Qed.
Lemma disk_after_in V ws n d : NoDup ws.*1 -> (n, d) ∈ ws -> disk_after V ws n = d.
Proof.
  induction ws as [|[m e] ws IH]; [by intros _ ?%not_elem_of_nil|]. rewrite fmap_cons. intros [Hn Hnd]%list.NoDup_cons.
  intros [[= -> ->]|Hin]%elem_of_cons; simpl; [by rewrite decide_True|]. rewrite decide_False; [by apply IH|].
  intros ->. apply Hn. apply list_elem_of_fmap. by exists (n, d).
Qed.
(** A prefix in time is a suffix of the list. *)
Lemma suffix_app_or {A} (l1 l2 p s : list A) :
  p ++ s = l1 ++ l2 -> (exists p', s = p' ++ l2 /\ p ++ p' = l1) \/ (exists s', l2 = s' ++ s).
Proof.
  intros E. apply app_eq_app in E as (l & [[-> ->]|[-> ->]]); [right; eauto|left; eauto].
Qed.

Section safe.
Context {KI : KernelImage} {C : Config} {D : BlockDevice} {DL : Disk}.
Context (me : nat) (pid dev start size : Z).
Context (Hstart : 0 <= start) (Hsize : 1 <= size <= LOGSIZE) (Hend : start + size < 2 ^ 31).

#[local] Notation cache := (cache me pid dev).
#[local] Notation went := (went me pid dev).
#[local] Notation slot := (slot start).
#[local] Notation in_log := (in_log start size).
#[local] Notation targets := (targets start size).
#[local] Notation logged := (logged dev start).
#[local] Notation log_writes := (log_writes start).
#[local] Notation install_writes := (install_writes start).

(** ** Recovery, as a function on disks *)

(** The index of block [n] in the log. *)
Definition entry (bs : list Z) (n : Z) : option nat := fst <$> list_find (fun b => b = n) bs.

Lemma entry_some bs n i : NoDup bs -> entry bs n = Some i <-> bs !! i = Some n.
Proof.
  intros Hnd. unfold entry. split.
  - intros ([j b] & E & [= ->])%fmap_Some. by apply list_find_Some in E as (? & -> & _).
  - intros Hi. apply fmap_Some. exists (i, n). split; [|done]. apply list_find_Some. split_and!; [done|done|].
    intros j y Hj Hlt ->. pose proof (NoDup_lookup bs i j n Hnd Hi Hj). lia.
Qed.
Lemma entry_none bs n : entry bs n = None <-> n ∉ bs.
Proof.
  unfold entry. rewrite fmap_None, list_find_None, list.Forall_forall. split; [intros H Hn; by apply (H n)|by intros ? ? ? ->].
Qed.

(** The contents a disk stands for: a committed log overrides the blocks it
    names. *)
Definition recovered (d : Z -> list Z) (n : Z) : list Z :=
  match entry (head_blocks (d start)) n with Some i => d (slot i) | None => d n end.

(** A disk whose log header is well-formed. *)
Record recoverable (d : Z -> list Z) : Prop := mk_recoverable {
  rc_len : length (d start) = 1024%nat;
  rc_n : 0 <= head_n (d start);
  rc_targets : targets (head_blocks (d start))
}.

Definition recover_writes (d : Z -> list Z) : list (Z * list Z) :=
  (start, put_head (d start) []) :: install_writes d (head_blocks (d start)).

Lemma start_in_log : in_log start.
Proof using Hsize. unfold LogSpec.in_log. lia. Qed.

Lemma targets_nil : targets [].
Proof using Hsize. split; [constructor|simpl; lia|]. intros b Hb. by apply not_elem_of_nil in Hb. Qed.

(** An empty header. *)
Lemma empty_head d : length d = 1024%nat -> head_n (put_head d []) = 0 /\ head_blocks (put_head d []) = [].
Proof. intros Hd. split; [by rewrite put_head_n|]. apply put_head_blocks; [done|done|]. by intros b ?%not_elem_of_nil. Qed.

Lemma install_writes_fst d bs : (install_writes d bs).*1 = reverse bs.
Proof.
  unfold LogSpec.install_writes. rewrite fmap_reverse. f_equal. apply list_eq. intros i.
  rewrite list_lookup_fmap, list_lookup_imap. by destruct (bs !! i).
Qed.

Lemma install_after d bs n :
  NoDup bs -> disk_after d (install_writes d bs) n = match entry bs n with Some i => d (slot i) | None => d n end.
Proof.
  intros Hnd. destruct (entry bs n) as [i|] eqn:E.
  - apply entry_some in E; [|done]. apply disk_after_in.
    + rewrite install_writes_fst. by rewrite reverse_Permutation.
    + apply elem_of_reverse. apply elem_of_lookup_imap. eauto.
  - apply entry_none in E. apply disk_after_notin. rewrite install_writes_fst. by rewrite elem_of_reverse.
Qed.

Lemma recover_after d n :
  recoverable d -> n <> start -> disk_after d (recover_writes d) n = recovered d n.
Proof.
  intros [_ _ Ht] Hn. unfold recover_writes. cbn [disk_after]. rewrite decide_False by congruence.
  by apply install_after, (tg_nodup _ _ _ Ht).
Qed.

(** Two disks with the same header, log and other blocks. *)
Lemma recovered_same d d' bs :
  head_blocks (d start) = bs -> targets bs -> d' start = d start ->
  (forall i b, bs !! i = Some b -> d' (slot i) = d (slot i)) ->
  (forall n, n ∉ bs -> ~ in_log n -> d' n = d n) ->
  forall n, ~ in_log n -> recovered d' n = recovered d n.
Proof.
  intros Hh Ht Es Hs Hb n Hn. unfold recovered. rewrite Es, Hh. destruct (entry bs n) as [i|] eqn:E.
  - apply entry_some in E; [|apply Ht]. by eapply Hs.
  - apply entry_none in E. by apply Hb.
Qed.

(** Installing part of the log changes nothing: recovery can crash anywhere. *)
Lemma recovery_crash d ws2 ws1 :
  recoverable d -> recover_writes d = ws2 ++ ws1 ->
  recoverable (disk_after d ws1) /\ forall n, ~ in_log n -> recovered (disk_after d ws1) n = recovered d n.
Proof using Hsize.
  intros Hr E. pose proof Hr as [Hl Hn Ht]. set (bs := head_blocks (d start)) in *. destruct ws2 as [|w ws2].
  - simpl in E. subst ws1. assert (Es : disk_after d (recover_writes d) start = put_head (d start) []).
    { unfold recover_writes. cbn [disk_after]. by rewrite decide_True. }
    destruct (empty_head (d start) Hl) as [E1 E2]. split.
    + split; rewrite Es; [by apply put_head_length|by rewrite E1|rewrite E2; apply targets_nil].
    + intros n Hi. unfold recovered at 1. rewrite Es, E2. simpl. apply recover_after; [done|].
      intros ->. apply Hi, start_in_log.
  - injection E as _ E. fold bs in E. assert (Hk : forall n, n ∉ bs -> disk_after d ws1 n = d n).
    { intros n Hn'. apply disk_after_notin. intros Hin. apply Hn'. apply elem_of_reverse.
      rewrite <- (install_writes_fst d), E, fmap_app, elem_of_app. by right. }
    assert (Hnl : forall n, in_log n -> n ∉ bs) by (intros n Hi Hin; by apply (tg_block _ _ _ Ht) in Hin as [_ ?]).
    assert (Es : disk_after d ws1 start = d start) by (apply Hk, Hnl, start_in_log). split.
    + split; by rewrite Es.
    + apply (recovered_same d _ bs); [done|done|done| |by auto].
      intros i b Hi. apply Hk, Hnl. by eapply slot_in_log.
Qed.

(** ** Commit, as a sequence of writes *)

Definition home_writes (V : Z -> list Z) (bs : list Z) : list (Z * list Z) := reverse (imap (fun _ b => (b, V b)) bs).
Definition commit_writes (h : list Z) (V : Z -> list Z) (bs : list Z) : list (Z * list Z) :=
  ((start, put_head (put_head h bs) []) :: home_writes V bs) ++ (start, put_head h bs) :: log_writes V bs.

Lemma log_writes_fst V bs : (log_writes V bs).*1 = reverse (imap (fun i _ => slot i) bs).
Proof.
  unfold LogSpec.log_writes. rewrite fmap_reverse. f_equal. apply list_eq. intros i.
  rewrite list_lookup_fmap, !list_lookup_imap. by destruct (bs !! i).
Qed.
Lemma home_writes_fst V bs : (home_writes V bs).*1 = reverse bs.
Proof.
  unfold home_writes. rewrite fmap_reverse. f_equal. apply list_eq. intros i.
  rewrite list_lookup_fmap, list_lookup_imap. by destruct (bs !! i).
Qed.

Section commit.
Context (d V : Z -> list Z) (bs : list Z) (Ht : targets bs).
Context (Hl : length (d start) = 1024%nat) (H0 : head_n (d start) = 0).
Context (HV : forall n, n ∉ bs -> ~ in_log n -> V n = d n).

Let h := d start.

Lemma bs_small : Z.of_nat (length bs) <= 255.
Proof using Hsize Ht. clear Hl H0 HV. pose proof (tg_len _ _ _ Ht). unfold LOGSIZE, MAXOPBLOCKS in *. lia. Qed.

Lemma commit_head : head_blocks (put_head h bs) = bs.
Proof using Hsize Hl Ht. apply put_head_blocks; [done|apply bs_small|]. intros b Hb. by apply (tg_block _ _ _ Ht). Qed.

(** The log holds the new contents once it is written. *)
Lemma log_written i b : bs !! i = Some b -> disk_after d (log_writes V bs) (slot i) = V b.
Proof.
  intros Hi. apply disk_after_in.
  - rewrite log_writes_fst. rewrite reverse_Permutation. apply NoDup_alt. intros j1 j2 y. rewrite !list_lookup_imap.
    destruct (bs !! j1) as [b1|], (bs !! j2) as [b2|]; try done. simpl. intros [= <-] [= E]. by apply (slot_inj start) in E.
  - apply elem_of_reverse. apply elem_of_lookup_imap. eauto.
Qed.

(** A crash before the header is written: nothing happened. *)
Lemma crash_before ws2 ws1 :
  log_writes V bs = ws2 ++ ws1 ->
  recoverable (disk_after d ws1) /\ forall n, ~ in_log n -> recovered (disk_after d ws1) n = d n.
Proof using Hsize Ht Hl H0.
  intros E. assert (Hk : forall n, (forall i, n <> slot i) -> disk_after d ws1 n = d n).
  { intros n Hn. apply disk_after_notin. intros Hin. destruct (log_writes_blocks start V bs n) as (i & b & _ & Hi).
    - rewrite E, fmap_app, elem_of_app. by right.
    - by apply (Hn i). }
  assert (Es : disk_after d ws1 start = d start) by (apply Hk; intros i; unfold LogSpec.slot; lia).
  assert (Hb : head_blocks (d start) = []) by (unfold head_blocks; by rewrite H0). split.
  - split; rewrite Es; [done|by rewrite H0|rewrite Hb; apply targets_nil].
  - intros n Hn. unfold recovered. rewrite Es, Hb. simpl.
    destruct (decide (n ∈ (log_writes V bs).*1)) as [Hin|Hin].
    + apply log_writes_blocks in Hin as (i & b & Hi & ->). by destruct Hn; eapply slot_in_log.
    + apply disk_after_notin. intros Hin'. apply Hin. rewrite E, fmap_app, elem_of_app. by right.
Qed.

(** The disk right after the header is written stands for the new contents. *)
Let d1 : Z -> list Z := disk_after d ((start, put_head h bs) :: log_writes V bs).

Lemma header_written : recoverable d1 /\ forall n, ~ in_log n -> recovered d1 n = V n.
Proof using Hsize Ht Hl HV.
  assert (Es : d1 start = put_head h bs) by (unfold d1; cbn [disk_after]; by rewrite decide_True). split.
  - split; rewrite Es; [by apply put_head_length; [|apply bs_small]| |by rewrite commit_head].
    rewrite put_head_n; [lia|done|apply bs_small].
  - intros n Hn. unfold recovered. rewrite Es, commit_head. destruct (entry bs n) as [i|] eqn:E.
    + apply entry_some in E; [|apply Ht]. unfold d1. cbn [disk_after]. rewrite decide_False by (unfold LogSpec.slot; lia).
      by apply log_written.
    + apply entry_none in E. unfold d1. cbn [disk_after]. rewrite decide_False by (intros <-; apply Hn, start_in_log).
      rewrite disk_after_notin; [by rewrite HV|]. intros (i & b & Hi & ->)%log_writes_blocks. by destruct Hn; eapply slot_in_log.
Qed.

(** Any crash after that: the new contents. *)
Lemma crash_after ws2 ws1 :
  (start, put_head (put_head h bs) []) :: home_writes V bs = ws2 ++ ws1 ->
  recoverable (disk_after d1 ws1) /\ forall n, ~ in_log n -> recovered (disk_after d1 ws1) n = V n.
Proof using Hsize Ht Hl HV.
  intros E. destruct header_written as [Hr1 Hv1]. assert (Es : d1 start = put_head h bs) by (unfold d1; cbn [disk_after]; by rewrite decide_True).
  assert (Ew : recover_writes d1 = ws2 ++ ws1).
  { unfold recover_writes. rewrite Es, commit_head. rewrite <- E. f_equal. unfold LogSpec.install_writes, home_writes. f_equal.
    apply imap_ext. intros i b Hi. f_equal. unfold d1. cbn [disk_after]. rewrite decide_False by (unfold LogSpec.slot; lia).
    by apply log_written. }
  destruct (recovery_crash d1 ws2 ws1 Hr1 Ew) as [Hr Hv]. split; [done|]. intros n Hn. rewrite Hv by done. by apply Hv1.
Qed.

(** Whenever the machine stops, the disk stands for the old or the new
    contents. *)
Lemma commit_crash ws2 ws1 :
  commit_writes h V bs = ws2 ++ ws1 ->
  recoverable (disk_after d ws1) /\
  ((forall n, ~ in_log n -> recovered (disk_after d ws1) n = d n) \/
   (forall n, ~ in_log n -> recovered (disk_after d ws1) n = V n)).
Proof using Hsize Ht Hl H0 HV.
  intros E. unfold commit_writes in E. symmetry in E. apply suffix_app_or in E as [(p & -> & E)|[s' E]].
  - symmetry in E. destruct (crash_after ws2 p E) as [Hr Hv].
    assert (Ed : forall n, disk_after d (p ++ (start, put_head h bs) :: log_writes V bs) n = disk_after d1 p n)
      by (intros n; apply disk_after_app).
    split; [|right].
    + destruct Hr as [R1 R2 R3]. by split; rewrite Ed.
    + intros n Hn. rewrite <- Hv by done. unfold recovered. rewrite Ed. case_match; apply Ed.
  - destruct s' as [|w s']; simpl in E.
    + subst ws1. destruct header_written as [Hr Hv]. split; [done|by right].
    + injection E as _ E. destruct (crash_before s' ws1 E) as [Hr Hv]. split; [done|by left].
Qed.
End commit.

(** ** The code *)

Lemma logged_none bs k : logged bs (klog k) -> logged [] (klog (upd_klog (upd_l_lh (upd_lh_n (set 0))) k)).
Proof. intros [H1 H2 H3 H4 H5]. split; cbn; done. Qed.

Lemma recover_from_log_ok V k :
  l_dev (klog k) = dev -> l_start (klog k) = start -> length (lh_block (l_lh (klog k))) = Z.to_nat LOGSIZE ->
  cache ∅ ∅ ∅ V k -> recoverable V ->
  wp recover_from_log (fun _ k' => cache ∅ ∅ ∅ (disk_after V (recover_writes V)) k' /\ others k' = others k /\
    kdisk k' = upd_d_writes (app (recover_writes V)) (kdisk k) /\ logged [] (klog k')) k.
Proof using Hstart Hsize Hend DL.
  intros Hdev Hst Hlen Hc [Hl Hn Ht]. set (bs := head_blocks (V start)) in *.
  assert (Hbl : Z.of_nat (length bs) = head_n (V start)) by (unfold bs, head_blocks; rewrite length_fmap, length_seqZ; lia).
  pose proof (tg_len _ _ _ Ht) as Hts. assert (Hstb : start ∉ bs).
  { intros Hin. apply (tg_block _ _ _ Ht) in Hin as [_ Hin]. by apply Hin, start_in_log. }
  unfold recover_from_log. apply wp_bind. eapply wp_conseq.
  { apply (read_head_ok me pid dev start size Hstart Hsize Hend bs ∅ ∅ V k);
      [done|done|done|done|set_solver +|rewrite size_empty; unfold NBUF; lia|unfold LOGSIZE in *; lia|done]. }
  cbv beta. intros _ k1 (C1 & F1 & D1 & L1).
  apply wp_bind. eapply wp_conseq.
  { apply (install_trans_ok me pid dev start size Hstart Hsize Hend true bs ∅ ∅ V k1); [done|done|done|done|done|set_solver +]. }
  cbv beta. intros _ k2 W2. replace (∅ ∖ list_to_set bs) with (∅ : gset Z) in W2 by (apply set_eq; set_solver +).
  pose proof (frame_logged dev start bs _ _ (we_frame W2) L1) as L2.
  apply wp_bind, wp_modify. set (k3 := upd_klog _ k2).
  assert (C3 : cache ∅ ∅ ∅ (disk_after V (install_writes V bs)) k3) by apply cache_klog, (we_cache W2).
  assert (Es : disk_after V (install_writes V bs) start = V start).
  { apply disk_after_notin. rewrite install_writes_fst. by rewrite elem_of_reverse. }
  eapply wp_conseq.
  { apply (write_head_ok me pid dev start size Hstart Hsize Hend [] ∅ ∅ (disk_after V (install_writes V bs)) k3); [by eapply logged_none|simpl; lia|exact C3|set_solver +| |].
    - by rewrite Es.
    - rewrite size_empty; unfold NBUF; lia. }
  cbv beta zeta. intros _ k4 W4. rewrite Es in W4. split_and!.
  - exact (we_cache W4).
  - destruct (we_frame W4) as [-> _], (we_frame W2) as [F2 _]. rewrite <- F1. exact F2.
  - rewrite (we_disk W4). change (kdisk k3) with (kdisk k2). rewrite (we_disk W2), D1. done.
  - eapply frame_logged; [exact (we_frame W4)|]. by eapply logged_none.
Qed.

Section commit_code.
Context (bs : list Z) (dirty : gset Z) (V : Z -> list Z) (Ht : targets bs).

Lemma set_size : (base.size (list_to_set bs : gset Z) < NBUF)%nat.
Proof using Ht Hsize.
  rewrite size_list_to_set by apply Ht. pose proof (tg_len _ _ _ Ht). unfold NBUF, LOGSIZE, MAXOPBLOCKS in *. lia.
Qed.

Lemma commit_ok k :
  bs <> [] -> logged bs (klog k) -> cache ∅ (list_to_set bs) dirty V k -> dirty ⊆ list_to_set bs ->
  length (V start) = 1024%nat ->
  let ws := commit_writes (V start) V bs in
  wp commit (fun _ k' => cache ∅ ∅ ∅ (disk_after V ws) k' /\ others k' = others k /\
    kdisk k' = upd_d_writes (app ws) (kdisk k) /\ klog k' = upd_l_lh (upd_lh_n (set 0)) (klog k)) k.
Proof using Hstart Hsize Hend DL Ht.
  intros Hne L0 C0 Hsub Hl ws. assert (Hdl : forall n, n ∈ dirty -> ~ in_log n).
  { intros n Hn%Hsub. rewrite elem_of_list_to_set in Hn. by apply (tg_block _ _ _ Ht). }
  assert (Hstd : start ∉ dirty) by (intros Hi%Hdl; apply Hi, start_in_log).
  unfold commit. apply wp_bind, wp_gets. rewrite (lg_n _ _ _ _ L0).
  destruct (Z.ltb_spec 0 (Z.of_nat (length bs))); [|destruct bs; [done|simpl in *; lia]]. cbn [when].
  apply wp_bind. eapply wp_conseq.
  { apply (write_log_ok me pid dev start size Hstart Hsize Hend bs (list_to_set bs) dirty V k); try done; [set_solver +|apply set_size]. }
  cbv beta. intros _ k1 W1. pose proof (frame_logged dev start bs _ _ (we_frame W1) L0) as L1.
  set (V1 := disk_after V (log_writes V bs)) in *.
  assert (Es : V1 start = V start).
  { apply disk_after_notin. intros (i & b & _ & E)%log_writes_blocks. unfold LogSpec.slot in E. lia. }
  apply wp_bind. eapply wp_conseq.
  { apply (write_head_ok me pid dev start size Hstart Hsize Hend bs (list_to_set bs) dirty V1 k1);
      [done|pose proof (tg_len _ _ _ Ht); lia|apply W1|done|by rewrite Es|apply set_size]. }
  cbv beta zeta. rewrite Es. intros _ k2 W2. pose proof (frame_logged dev start bs _ _ (we_frame W2) L1) as L2.
  apply wp_bind. eapply wp_conseq.
  { apply (install_trans_ok me pid dev start size Hstart Hsize Hend false bs (list_to_set bs) dirty (fupd V1 start (put_head (V start) bs)) k2 Ht L2 (we_cache W2));
      [split; [set_solver +|apply set_size]|done|done]. }
  cbv beta. intros _ k3 W3. pose proof (frame_logged dev start bs _ _ (we_frame W3) L2) as L3.
  set (h1 := put_head (V start) bs) in *. set (V2 := fupd V1 start h1) in *.
  assert (Ew : install_writes V2 bs = home_writes V bs).
  { unfold LogSpec.install_writes, home_writes. f_equal. apply imap_ext. intros i b Hi. f_equal. unfold V2.
    rewrite fupd_ne by (unfold LogSpec.slot; lia). by apply log_written. }
  rewrite Ew in W3. set (V3 := disk_after V2 (home_writes V bs)) in *.
  assert (Es3 : V3 start = h1).
  { unfold V3. rewrite disk_after_notin; [apply fupd_eq|]. rewrite home_writes_fst, elem_of_reverse.
    intros Hin. apply (tg_block _ _ _ Ht) in Hin as [_ Hin]. by apply Hin, start_in_log. }
  replace (list_to_set bs ∖ list_to_set bs) with (∅ : gset Z) in W3 by (apply set_eq; set_solver +).
  replace (dirty ∖ list_to_set bs) with (∅ : gset Z) in W3 by (apply set_eq; set_solver +Hsub).
  apply wp_bind, wp_modify. set (k4 := upd_klog _ k3).
  eapply wp_conseq.
  { apply (write_head_ok me pid dev start size Hstart Hsize Hend [] ∅ ∅ V3 k4);
      [by eapply logged_none|simpl; lia|apply cache_klog, W3|set_solver +|rewrite Es3; apply put_head_length; [done|by apply bs_small]
      |rewrite size_empty; unfold NBUF; lia]. }
  cbv beta zeta. rewrite Es3. intros _ k5 W5.
  destruct (we_frame W1) as [F1 G1], (we_frame W2) as [F2 G2], (we_frame W3) as [F3 G3], (we_frame W5) as [F5 G5]. split_and!.
  - eapply cache_ext; [|exact (we_cache W5)]. intros n. unfold ws, commit_writes. rewrite disk_after_app. done.
  - rewrite F5. etransitivity; [exact F3|]. congruence.
  - rewrite (we_disk W5). change (kdisk k4) with (kdisk k3). rewrite (we_disk W3), (we_disk W2), (we_disk W1).
    unfold ws, commit_writes, upd_d_writes. simpl. f_equal. by rewrite <- app_assoc.
  - rewrite G5. unfold k4. kcbn. congruence.
Qed.
End commit_code.

(** ** Transactions *)

(** Between operations: the blocks written since the last commit are [bs],
    pinned in the cache, and [V] are the contents with those writes. *)
Record txn (H : gmap nat Z) (bs : list Z) (dirty : gset Z) (V : Z -> list Z) (k : kernel) : Prop := mk_txn {
  tx_cache : cache H (list_to_set bs) dirty V k;
  tx_logged : logged bs (klog k);
  tx_targets : targets bs;
  tx_len : length (V start) = 1024%nat;
  tx_head : head_n (V start) = 0
}.

(** What [end_op] writes. *)
Definition end_writes (V : Z -> list Z) (bs : list Z) : list (Z * list Z) :=
  if decide (bs = []) then [] else commit_writes (V start) V bs.

Lemma commit_any bs dirty V k :
  txn ∅ bs dirty V k -> dirty ⊆ list_to_set bs ->
  wp commit (fun _ k' => cache ∅ ∅ ∅ (disk_after V (end_writes V bs)) k' /\ others k' = others k /\
    kdisk k' = upd_d_writes (app (end_writes V bs)) (kdisk k) /\
    klog k' = upd_l_lh (upd_lh_n (set 0)) (klog k)) k.
Proof using Hstart Hsize Hend DL.
  intros [C0 L0 Ht Hl H0] Hsub. unfold end_writes. case_decide as Hbs; [|by eapply commit_ok].
  subst bs. unfold commit. apply wp_bind, wp_gets. rewrite (lg_n _ _ _ _ L0). cbn [length Z.of_nat Z.ltb when]. apply wp_ret.
  replace dirty with (∅ : gset Z) in C0 by (apply set_eq; set_solver +Hsub). split_and!; [done|done|apply no_writes|].
  pose proof (lg_n _ _ _ _ L0) as En. destruct (klog k) as [? ? ? ? ? []]. cbn in *. by rewrite En.
Qed.

Lemma end_op_ok bs dirty V k :
  txn ∅ bs dirty V k -> dirty ⊆ list_to_set bs -> l_outstanding (klog k) = 1 -> l_committing (klog k) = false ->
  wp end_op (fun _ k' => cache ∅ ∅ ∅ (disk_after V (end_writes V bs)) k' /\
    kdisk k' = upd_d_writes (app (end_writes V bs)) (kdisk k) /\ logged [] (klog k') /\
    l_outstanding (klog k') = 0 /\ l_committing (klog k') = false /\ l_size (klog k') = l_size (klog k) /\ others k' = others k) k.
Proof using Hstart Hsize Hend DL.
  intros Htx Hsub Ho Hcm. pose proof Htx as [C0 L0 Ht Hl H0]. unfold end_op.
  pose proof (th_ready me pid k (ca_thread _ _ _ _ _ _ _ _ C0) LkLog ltac:(fs_lock)) as Hr.
  set (f := fun l : log => upd_l_committing (set true) (upd_l_outstanding (set 0) l)).
  apply wp_bind. eapply wp_eq; [apply kacquire_eq, Hr|]. apply wp_bind, wp_modify, wp_bind, wp_gets. kcbn.
  cbn [l_committing l_outstanding upd_l_outstanding]. rewrite Hcm, Ho. change (s32 (1 - 1) =? 0) with true. cbv iota.
  do 2 apply wp_bind. apply wp_modify, wp_ret, wp_bind. eapply wp_eq; [by apply (krelease_eq k)|]. set (k1 := upd_mach _ _).
  assert (E1 : klog k1 = f (klog k)) by (unfold k1; kcbn; unfold f, upd_l_outstanding, upd_l_committing, set; rewrite Ho; done).
  assert (D1 : kdisk k1 = kdisk k) by done. assert (F1 : others k1 = others k) by done.
  assert (T1 : txn ∅ bs dirty V k1).
  { split; try done.
    - apply (cache_thread _ _ _ _ _ _ _ (upd_mach touch k)); [|done..|by apply cache_touch].
      apply (thread_ext _ _ (upd_mach touch k)); [done|done|]. apply thread_touch, C0.
    - rewrite E1. by destruct L0. }
  clearbody k1. cbn [when]. apply wp_bind. eapply wp_conseq; [by apply (commit_any bs dirty V)|cbv beta]. intros _ k2 (C2 & F2 & D2 & G2).
  pose proof (ca_thread _ _ _ _ _ _ _ _ C2) as T2.
  pose proof (th_ready me pid k2 T2 LkLog ltac:(fs_lock)) as Hr2.
  apply wp_bind. eapply wp_eq; [apply kacquire_eq, Hr2|]. apply wp_bind, wp_modify, wp_bind.
  eapply wp_eq; [eapply (wakeup_locked me pid k2 T2 LkLog); [fs_lock|done..]|].
  eapply wp_eq; [apply (krelease_eq k2); done|]. split_and!.
  - apply (cache_thread _ _ _ _ _ _ _ k2); [|done..].
    apply (thread_ext _ _ (woke me k2 ChLog (upd_mach touch k2))); [done|done|]. by apply thread_woke, thread_touch.
  - rewrite <- D1, <- D2. done.
  - unfold woke. kcbn. rewrite G2, E1. destruct L0 as [L1 L2 L3 L4 L5]. split; cbn; done.
  - unfold woke. kcbn. rewrite G2, E1. done.
  - unfold woke. kcbn. rewrite G2, E1. done.
  - unfold woke. kcbn. rewrite G2, E1. done.
  - rewrite (others_release LkLog) by done. rewrite others_woke, <- F1, <- F2. done.
Qed.

(** [begin_op] with room for one more operation and no commit running. *)
Lemma begin_op_ok bs dirty V k :
  txn ∅ bs dirty V k -> l_committing (klog k) = false -> 0 <= l_outstanding (klog k) ->
  Z.of_nat (length bs) + (l_outstanding (klog k) + 1) * MAXOPBLOCKS <= LOGSIZE ->
  wp begin_op (fun _ k' => txn ∅ bs dirty V k' /\ others k' = others k /\ inodes k' = inodes k /\ kdisk k' = kdisk k /\
    klog k' = upd_l_outstanding (fun n => n + 1) (klog k)) k.
Proof using.
  intros [C0 L0 Ht Hl H0] Hcm Ho Hroom. unfold begin_op.
  pose proof (th_ready me pid k (ca_thread _ _ _ _ _ _ _ _ C0) LkLog ltac:(fs_lock)) as Hr.
  apply wp_bind. eapply wp_eq; [apply kacquire_eq, Hr|]. set (k1 := upd_klog (upd_l_outstanding (fun n => n + 1)) (upd_mach touch k)).
  eapply wp_eq; [apply (while_stop _ _ _ tt k1)|].
  - erewrite bind_ret by reflexivity. kcbn. rewrite Hcm, (lg_n _ _ _ _ L0).
    destruct (Z.ltb_spec LOGSIZE (Z.of_nat (length bs) + (l_outstanding (klog k) + 1) * MAXOPBLOCKS)); [lia|].
    erewrite bind_ret by reflexivity. erewrite bind_ret by (by apply (krelease_eq k)). unfold ret. f_equal. unfold k1.
    assert (Es : s32 (l_outstanding (klog k) + 1) = l_outstanding (klog k) + 1) by (apply s32_small; unfold LOGSIZE, MAXOPBLOCKS in *; lia).
    unfold upd_klog, upd_mach, upd_l_outstanding. cbn. by rewrite Es.
  - split_and!; try done. split; [|by destruct L0|done|done|done].
    apply (cache_thread _ _ _ _ _ _ _ (upd_mach touch k)); [|done..|by apply cache_touch].
    apply (thread_ext _ _ (upd_mach touch k)); [done|done|]. apply thread_touch, C0.
Qed.

(** ** Adding a block to the transaction *)

(** The blocks of the transaction after [n] is written. *)
Definition absorbed (bs : list Z) (n : Z) : list Z := if decide (n ∈ bs) then bs else bs ++ [n].

Lemma absorb_from zs bs n :
  (forall i b, bs !! i = Some b -> exists z, zs !! i = Some z /\ u32 z = b) ->
  absorb zs (length bs) n = Z.of_nat (default (length bs) (entry bs n)).
Proof.
  revert zs. induction bs as [|b bs IH]; intros zs Hz; [by destruct zs|]. destruct zs as [|z zs].
  { destruct (Hz 0%nat b eq_refl) as (? & ? & _). done. }
  destruct (Hz 0%nat b eq_refl) as (z' & [= <-] & Ez). cbn [length absorb]. rewrite Ez. unfold entry. cbn [list_find].
  destruct (Z.eqb_spec b n) as [->|Hne]; [by rewrite decide_True|]. rewrite decide_False by done.
  rewrite IH by (intros i c Hi; by apply (Hz (S i) c)). unfold entry.
  destruct (list_find (fun b => b = n) bs) as [[i c]|]; cbn; lia.
Qed.

(** The log names [bs'] once entry [i] is set. *)
Lemma logged_set bs n i l :
  logged bs l -> NoDup bs -> 0 <= n < 2 ^ 32 -> Z.of_nat (length bs) < LOGSIZE -> i = default (length bs) (entry bs n) ->
  logged (absorbed bs n) (upd_l_lh (fun h => upd_lh_n (fun c => if decide (n ∈ bs) then c else s32 (c + 1))
                                              (upd_lh_block (<[i := s32 n]>) h)) l).
Proof.
  intros [L1 L2 L3 L4 L5] Hnd Hn Hlen ->. unfold absorbed.
  split; cbn [l_dev l_start l_lh upd_l_lh lh_n lh_block upd_lh_n upd_lh_block]; [done|done| |by rewrite length_insert|].
  - rewrite L3. case_decide; [done|]. rewrite length_app. simpl. rewrite s32_small; unfold LOGSIZE, MAXOPBLOCKS in *; lia.
  - intros j b. destruct (entry bs n) as [i|] eqn:E; cbn [default].
    + apply entry_some in E as Hi; [|done]. rewrite decide_True by (by eapply list_elem_of_lookup_2). intros Hj.
      destruct (L5 j b Hj) as (z & Hz & Ez). destruct (decide (j = i)) as [->|Hne].
      * rewrite list_lookup_insert_eq by (by eapply lookup_lt_Some). eexists. split; [done|]. rewrite u32_s32, u32_small by done. congruence.
      * rewrite list_lookup_insert_ne by done. eauto.
    + apply entry_none in E. rewrite decide_False by done. intros [Hj|[Hj Hb]]%lookup_app_Some.
      * destruct (L5 j b Hj) as (z & Hz & Ez). apply lookup_lt_Some in Hj. rewrite list_lookup_insert_ne by (unfold id; lia). eauto.
      * assert (j = length bs) as ->. { apply lookup_lt_Some in Hb. simpl in Hb. lia. }
        rewrite Nat.sub_diag in Hb. injection Hb as <-. rewrite list_lookup_insert_eq by lia.
        eexists. split; [done|]. rewrite u32_s32. by apply u32_small.
Qed.

Lemma targets_absorbed bs n :
  targets bs -> 0 <= n < 2 ^ 32 -> ~ in_log n -> Z.of_nat (length bs) < size - 1 -> targets (absorbed bs n).
Proof.
  intros [T1 T2 T3] Hn Hl Hlen. unfold absorbed. case_decide as Hin; [by split|]. split.
  - apply list.NoDup_app. split_and!; [done|set_solver +Hin|]. apply list.NoDup_cons. split; [apply not_elem_of_nil|constructor].
  - rewrite length_app. simpl. lia.
  - intros b [Hb|Hb]%elem_of_app; [by apply T3|]. apply list_elem_of_singleton in Hb as ->. done.
Qed.

Lemma absorbed_set bs n : list_to_set (absorbed bs n) = ({[n]} ∪ list_to_set bs : gset Z).
Proof. unfold absorbed. case_decide as Hin; apply set_eq; set_solver +Hin. Qed.

Lemma log_write_ok H bs dirty V k b n :
  txn H bs dirty V k -> H !! b = Some n -> 0 <= n < 2 ^ 32 -> ~ in_log n ->
  l_size (klog k) = size -> Z.of_nat (length bs) < size - 1 -> 1 <= l_outstanding (klog k) ->
  wp (log_write b) (fun _ k' => txn H (absorbed bs n) dirty V k' /\ others k' = others k /\ kdisk k' = kdisk k /\
    l_outstanding (klog k') = l_outstanding (klog k) /\ l_size (klog k') = size /\
    l_committing (klog k') = l_committing (klog k)) k.
Proof using Hsize DL.
  intros [C0 L0 Ht Hl H0] Hb Hn Hnl Hsz Hroom Ho. unfold log_write.
  pose proof (th_ready me pid k (ca_thread _ _ _ _ _ _ _ _ C0) LkLog ltac:(fs_lock)) as Hr.
  destruct (get_held C0 b n Hb) as (x & Eg & En & _).
  assert (Hx : bufs k !! b = Some x) by (unfold get_buf, idx_get in Eg; destruct (bufs k !! b); congruence).
  set (i := default (length bs) (entry bs n)).
  assert (Hi : (i < Z.to_nat LOGSIZE)%nat).
  { unfold i. destruct (entry bs n) as [j|] eqn:E; cbn [default]; [|unfold id; lia].
    apply entry_some in E; [|apply Ht]. apply lookup_lt_Some in E. unfold id. lia. }
  apply wp_bind. eapply wp_eq; [apply kacquire_eq, Hr|]. set (k1 := upd_mach (acquired LkLog) k).
  apply wp_bind, wp_gets. change (klog k1) with (klog k). rewrite (lg_n _ _ _ _ L0), Hsz.
  destruct (Z.leb_spec LOGSIZE (Z.of_nat (length bs))) as [|_]; [lia|].
  destruct (Z.leb_spec (size - 1) (Z.of_nat (length bs))) as [|_]; [lia|]. cbn [orb].
  destruct (Z.ltb_spec (l_outstanding (klog k)) 1) as [|_]; [lia|].
  apply wp_bind. eapply wp_eq; [unfold get_buf, idx_get, k1; kcbn; rewrite Hx; reflexivity|].
  rewrite Nat2Z.id, En, (absorb_from _ bs n (lg_blocks _ _ _ _ L0)). fold i.
  assert (Es : lh_set (Z.of_nat i) n k1 = Ret tt (upd_klog (upd_l_lh (upd_lh_block (<[i := s32 n]>))) k1)).
  { unfold lh_set, lh_get, bind at 1, bind at 1, gets. cbn [rbind]. unfold arr_get.
    destruct (Z.ltb_spec (Z.of_nat i) 0); [lia|]. rewrite Nat2Z.id. destruct (lookup_lt_is_Some_2 (lh_block (l_lh (klog k1))) i) as [z Hz].
    { change (klog k1) with (klog k). by rewrite (lg_len _ _ _ _ L0). }
    rewrite Hz. cbn [rbind]. unfold upd_lh, upd_log, modify. done. }
  apply wp_bind. eapply wp_eq; [exact Es|]. clear Es.
  set (f := upd_l_lh (fun h => upd_lh_n (fun c => if decide (n ∈ bs) then c else s32 (c + 1)) (upd_lh_block (<[i := s32 n]>) h))).
  assert (HL' : logged (absorbed bs n) (f (klog k))).
  { apply logged_set; [done|apply Ht|done|unfold LOGSIZE in *; lia|done]. }
  pose proof (targets_absorbed bs n Ht Hn Hnl Hroom) as Ht'.
  destruct (decide (n ∈ bs)) as [Hin|Hin].
  - assert (Ei : Z.of_nat i =? Z.of_nat (length bs) = false).
    { apply Z.eqb_neq. unfold i. destruct (entry bs n) as [j|] eqn:E; [|by apply entry_none in E].
      apply entry_some in E; [|apply Ht]. apply lookup_lt_Some in E. cbn. lia. }
    rewrite Ei. cbn [when]. apply wp_bind, wp_ret. eapply wp_eq; [apply (krelease_eq k); done|].
    split_and!; try done. split; [|unfold k1; kcbn; by destruct (klog k) as [? ? ? ? ? []]|done|done|done].
    rewrite absorbed_set. replace ({[n]} ∪ list_to_set bs) with (list_to_set bs : gset Z) by (apply set_eq; set_solver +Hin).
    apply (cache_thread _ _ _ _ _ _ _ (upd_mach touch k)); [|done..|by apply cache_touch].
    apply (thread_ext _ _ (upd_mach touch k)); [done|done|]. apply thread_touch, C0.
  - assert (Ei : Z.of_nat i =? Z.of_nat (length bs) = true).
    { apply Z.eqb_eq. unfold i. by rewrite (proj2 (entry_none bs n) Hin). }
    rewrite Ei. cbn [when]. destruct (wp_inv _ _ _ (bpin_ok C0 b n Hb ltac:(by rewrite elem_of_list_to_set))) as (u & kp & Ep & Wp).
    unfold bpin in Ep. rewrite (count_eq k b x) in Ep; [|apply (th_ready me pid); [apply C0|fs_lock]|done]. injection Ep as _ <-.
    set (k2 := upd_klog _ k1). assert (Em : mach k2 = acquired LkLog (mach k)) by done.
    assert (Hr2 : ready (mach k2) LkBcache).
    { rewrite Em. destruct Hr as [_ Hcpu]. split.
      - unfold free, acquired. cbn [locks set_locks]. rewrite lookup_insert_ne by done. apply C0. fs_lock.
      - by apply cpu_ok_acquired. }
    do 2 apply wp_bind. eapply wp_eq; [apply (count_eq k2 b x); done|].
    apply wp_modify. eapply wp_eq; [apply (krelease_eq k); [done|kcbn; rewrite Em; apply touch_acquired, Hr]|].
    split_and!; try done. split; [|unfold k2, k1; kcbn; by destruct (klog k) as [? ? ? ? ? []]|done|done|done].
    rewrite absorbed_set. apply (cache_thread _ _ _ _ _ _ _ (upd_bufs (<[b := upd_b_refcnt (fun r => u32 (r + 1)) x]>) (upd_mach touch k)));
      [|done..|apply Wp]. apply (thread_ext _ _ (upd_mach touch k)); [done|done|]. apply thread_touch, C0.
Qed.

Lemma went_txn k H bs dirty V V' H' dirty' ws k' :
  txn H bs dirty V k -> went k H' (list_to_set bs) dirty' V' ws k' -> V' start = V start -> txn H' bs dirty' V' k'.
Proof.
  intros [_ L0 Ht Hl H0] W E. split; [apply W|by eapply frame_logged; [apply (we_frame W)|]|done|by rewrite E|by rewrite E].
Qed.

(** The log in the state of a running operation. *)
Record in_op (k : kernel) : Prop := mk_in_op {
  io_size : l_size (klog k) = size;
  io_outstanding : 1 <= l_outstanding (klog k)
}.

Lemma bzero_ok bs dirty V k n :
  txn ∅ bs dirty V k -> in_op k -> 0 <= n < 2 ^ 32 -> ~ in_log n -> Z.of_nat (length bs) < size - 1 ->
  wp (bzero dev n) (fun _ k' =>
    txn ∅ (absorbed bs n) ({[n]} ∪ dirty) (fupd V n (replicate (Z.to_nat BSIZE) 0)) k' /\ in_op k' /\
    others k' = others k /\ kdisk k' = kdisk k /\ l_outstanding (klog k') = l_outstanding (klog k) /\
    l_committing (klog k') = l_committing (klog k)) k.
Proof using Hsize DL.
  intros Htx [Hsz Ho] Hn Hnl Hroom. pose proof (tx_targets _ _ _ _ _ Htx) as Ht. unfold bzero. rewrite u32_small by done.
  assert (Hns : n <> start) by (intros ->; apply Hnl, start_in_log).
  cache_op (bread_ok (tx_cache _ _ _ _ _ Htx) n); [done|right; rewrite map_size_empty; by apply set_size|].
  intros b k1 [_ W1]. set (H1 := <[b := n]> (∅ : gmap nat Z)) in *. assert (Hb : H1 !! b = Some n) by apply lookup_insert_eq.
  cache_op (set_data_ok (we_cache W1) b n (replicate (Z.to_nat BSIZE) 0) Hb); [done|]. intros _ k2 W2.
  pose proof (went_trans W1 W2) as W12. destruct (we_frame W12) as [F2 G2].
  pose proof (went_txn k ∅ bs dirty V _ H1 _ _ k2 Htx W12 ltac:(by apply fupd_ne)) as T2.
  apply wp_bind. eapply wp_conseq; [apply (log_write_ok H1 bs ({[n]} ∪ dirty) _ k2 b n T2 Hb); rewrite ?G2; done|cbv beta].
  intros _ k3 (T3 & F3 & D3 & G3 & S3 & M3).
  eapply wp_conseq; [apply (brelse_ok (tx_cache _ _ _ _ _ T3) b n Hb); intros _; rewrite absorbed_set; set_solver +|cbv beta].
  intros _ k4 W4. destruct (we_frame W4) as [F4 G4].
  pose proof (went_txn k3 _ _ _ _ _ _ _ _ k4 T3 W4 eq_refl) as T4. unfold H1 in T4. rewrite delete_insert_id in T4 by done.
  split_and!; [done| |by rewrite F4, F3| | |].
  - split; rewrite G4; [done|]. rewrite G3, G2. done.
  - rewrite (we_disk W4), <- no_writes, D3, (we_disk W12). symmetry. apply no_writes.
  - by rewrite G4, G3, G2.
  - by rewrite G4, M3, G2.
Qed.

(** The contents after a commit. *)
Lemma commit_final V bs h n : targets bs -> ~ in_log n -> disk_after V (commit_writes h V bs) n = V n.
Proof using Hsize.
  intros Ht Hn. assert (Hns : start <> n) by (intros E; apply Hn; rewrite <- E; apply start_in_log).
  unfold commit_writes. rewrite disk_after_app. cbn [disk_after]. rewrite decide_False by done.
  destruct (decide (n ∈ bs)) as [Hin|Hin].
  - apply disk_after_in; [rewrite home_writes_fst, reverse_Permutation; apply Ht|].
    apply elem_of_reverse. apply list_elem_of_lookup in Hin as [i Hi]. apply elem_of_lookup_imap. eauto.
  - rewrite disk_after_notin by (by rewrite home_writes_fst, elem_of_reverse). cbn [disk_after]. rewrite decide_False by done.
    apply disk_after_notin. intros (i & b & Hi & ->)%log_writes_blocks. by destruct Hn; eapply slot_in_log.
Qed.

(** ** Crashes *)

(** The kernel when [initlog] runs recovery: an empty cache over the disk [d]. *)
Record booted (d : Z -> list Z) (k : kernel) : Prop := mk_booted {
  bt_cache : cache ∅ ∅ ∅ d k;
  bt_dev : l_dev (klog k) = dev;
  bt_start : l_start (klog k) = start;
  bt_len : length (lh_block (l_lh (klog k))) = Z.to_nat LOGSIZE
}.

(** The machine boots on disk [d] and stops during recovery, after some of
    the writes: the disk is then [d']. *)
Definition crash_in_recovery (d d' : Z -> list Z) : Prop :=
  exists k k' ws2 ws1, booted d k /\ recover_from_log k = Ret tt k' /\
    d_writes (kdisk k') = ws2 ++ ws1 ++ d_writes (kdisk k) /\ forall n, d' n = disk_after d ws1 n.

Lemma recovered_ext d d' : (forall n, d n = d' n) -> recoverable d -> recoverable d' /\ forall n, recovered d' n = recovered d n.
Proof.
  intros E [R1 R2 R3]. split; [by split; rewrite <- E|]. intros n. unfold recovered. rewrite <- E. case_match; by rewrite E.
Qed.

Lemma crash_step d d' :
  recoverable d -> crash_in_recovery d d' ->
  recoverable d' /\ forall n, ~ in_log n -> recovered d' n = recovered d n.
Proof using Hstart Hsize Hend DL.
  intros Hr (k & k' & ws2 & ws1 & [B1 B2 B3 B4] & Ek & Ew & Ed).
  pose proof (recover_from_log_ok d k B2 B3 B4 B1 Hr) as Hwp. unfold wp in Hwp. rewrite Ek in Hwp.
  destruct Hwp as (_ & _ & Hd & _). rewrite Hd in Ew. cbn [d_writes upd_d_writes] in Ew. rewrite app_assoc in Ew. apply app_inv_tail in Ew.
  destruct (recovery_crash d ws2 ws1 Hr Ew) as [Hr1 Hv1].
  destruct (recovered_ext (disk_after d ws1) d' (fun n => eq_sym (Ed n)) Hr1) as [Hr2 Hv2]. split; [done|].
  intros n Hn. rewrite Hv2. by apply Hv1.
Qed.

Lemma crashes_step d d' :
  recoverable d -> rtc crash_in_recovery d d' ->
  recoverable d' /\ forall n, ~ in_log n -> recovered d' n = recovered d n.
Proof using Hstart Hsize Hend DL.
  intros Hr Hs. induction Hs as [d|d d1 d2 H1 _ IH]; [done|].
  destruct (crash_step d d1 Hr H1) as [Hr1 Hv1]. destruct (IH Hr1) as [Hr2 Hv2]. split; [done|].
  intros n Hn. rewrite Hv2 by done. by apply Hv1.
Qed.

(** Recovery terminates and puts the blocks that a committed log names
    in their places: every block outside the log area then has the contents
    the disk stood for, and the log on disk and in memory is empty. *)
Theorem recovery_installs_log d k :
  recoverable d -> booted d k ->
  exists k', recover_from_log k = Ret tt k' /\ logged [] (klog k') /\ head_n (block_on k' start) = 0 /\
    forall n, ~ in_log n -> block_on k' n = recovered d n.
Proof using Hstart Hsize Hend DL.
  intros Hr [B1 B2 B3 B4]. destruct (wp_inv _ _ _ (recover_from_log_ok d k B2 B3 B4 B1 Hr)) as ([] & k' & E & C' & _ & _ & L').
  exists k'. assert (Hb : forall n, block_on k' n = disk_after d (recover_writes d) n).
  { intros n. symmetry. apply C'. set_solver +. }
  split_and!; [done|done| |].
  - rewrite Hb. unfold recover_writes. cbn [disk_after]. rewrite decide_True by done. by apply empty_head, Hr.
  - intros n Hn. rewrite Hb. apply recover_after; [done|]. intros ->. apply Hn, start_in_log.
Qed.

(** Whatever crashes, recovery of [d] gives the blocks of [W]. *)
Definition recovers_to (d W : Z -> list Z) : Prop := recoverable d /\ forall n, ~ in_log n -> recovered d n = W n.

Lemma recovers_ext d d' W : (forall n, d n = d' n) -> recovers_to d W -> recovers_to d' W.
Proof. intros E [Hr Hv]. destruct (recovered_ext d d' E Hr) as [Hr' Hv']. split; [done|]. intros n Hn. rewrite Hv'. by apply Hv. Qed.

Lemma recovers_boot d W d' kb :
  recovers_to d W -> rtc crash_in_recovery d d' -> booted d' kb ->
  exists kr, recover_from_log kb = Ret tt kr /\ forall n, ~ in_log n -> block_on kr n = W n.
Proof using Hstart Hsize Hend DL.
  intros [Hr Hv] Hrt Hb. destruct (crashes_step _ d' Hr Hrt) as [Hr' Hv'].
  destruct (wp_inv _ _ _ (recover_from_log_ok d' kb (bt_dev _ _ Hb) (bt_start _ _ Hb) (bt_len _ _ Hb) (bt_cache _ _ Hb) Hr')) as ([] & kr & Er & Cr & _).
  exists kr. split; [done|]. intros n Hn. rewrite <- Hv, <- Hv' by done. rewrite <- (ca_clean _ _ _ _ _ _ _ _ Cr) by set_solver +.
  apply recover_after; [done|]. intros ->. apply Hn, start_in_log.
Qed.

Section end_op.
Context (bs : list Z) (dirty : gset Z) (V : Z -> list Z) (k : kernel) (Htx : txn ∅ bs dirty V k) (Hsub : dirty ⊆ list_to_set bs).

Lemma end_clean n : n ∉ bs -> V n = block_on k n.
Proof using Htx Hsub. intros Hn. apply (ca_clean _ _ _ _ _ _ _ _ (tx_cache _ _ _ _ _ Htx)). intros Hd%Hsub. by rewrite elem_of_list_to_set in Hd. Qed.
Lemma end_head : V start = block_on k start.
Proof using Htx Hsub Hsize. apply end_clean. intros Hin. apply (tg_block _ _ _ (tx_targets _ _ _ _ _ Htx)) in Hin as [_ Hin]. by apply Hin, start_in_log. Qed.

(** The disks of a commit. *)
Lemma end_op_states ws2 ws1 : end_writes V bs = ws2 ++ ws1 ->
  recovers_to (disk_after (block_on k) ws1) (block_on k) \/ recovers_to (disk_after (block_on k) ws1) V.
Proof using Hstart Hsize Hend Htx Hsub.
  pose proof Htx as [_ _ Ht Hl H0]. rewrite end_head in Hl, H0. unfold end_writes. case_decide as Hbs.
  - intros [_ ->]%eq_sym%app_eq_nil. assert (Hb0 : head_blocks (block_on k start) = []) by (unfold head_blocks; by rewrite H0).
    left. split; [split; [done|simpl; lia|simpl; rewrite Hb0; apply targets_nil]|]. intros n Hn. unfold recovered. simpl. by rewrite Hb0.
  - rewrite end_head. intros Ew. destruct (commit_crash (block_on k) V bs Ht Hl H0 (fun n Hn _ => end_clean n Hn) ws2 ws1 Ew) as [Hr [Hv|Hv]]; [by left|by right].
Qed.

Lemma end_final n : ~ in_log n -> disk_after V (end_writes V bs) n = V n.
Proof using Hsize Htx. intros Hn. unfold end_writes. case_decide; [done|]. by apply commit_final; [apply Htx|]. Qed.

(** The log is empty again. *)
Lemma end_idle k' : cache ∅ ∅ ∅ (disk_after V (end_writes V bs)) k' -> logged [] (klog k') -> txn ∅ [] ∅ (disk_after V (end_writes V bs)) k'.
Proof using Hsize Htx.
  intros HC HL. pose proof Htx as [_ _ Ht Hl H0].
  assert (Hl' : length (put_head (V start) bs) = 1024%nat) by (apply put_head_length; [done|by apply bs_small]).
  assert (E : bs <> [] -> disk_after V (commit_writes (V start) V bs) start = put_head (put_head (V start) bs) []).
  { intros _. unfold commit_writes. rewrite disk_after_app. cbn [disk_after]. by rewrite decide_True. }
  split; [done|done|apply targets_nil|..]; unfold end_writes; case_decide; try done; rewrite E by done; [by apply put_head_length|by apply empty_head].
Qed.

(** The last [end_op] and the crashes during it. *)
Lemma end_op_atomic :
  l_outstanding (klog k) = 1 -> l_committing (klog k) = false ->
  exists k', end_op k = Ret tt k' /\ (forall n, ~ in_log n -> block_on k' n = V n) /\
    forall ws2 ws1 d kb, d_writes (kdisk k') = ws2 ++ ws1 ++ d_writes (kdisk k) ->
      rtc crash_in_recovery (disk_after (block_on k) ws1) d -> booted d kb ->
      exists kr, recover_from_log kb = Ret tt kr /\
        ((forall n, ~ in_log n -> block_on kr n = block_on k n) \/ (forall n, ~ in_log n -> block_on kr n = V n)).
Proof using Hstart Hsize Hend DL Htx Hsub.
  intros Ho Hcm. destruct (wp_inv _ _ _ (end_op_ok bs dirty V k Htx Hsub Ho Hcm)) as ([] & k' & E & C' & D' & _). exists k'. split; [done|]. split.
  - intros n Hn. rewrite <- (ca_clean _ _ _ _ _ _ _ _ C') by set_solver +. by apply end_final.
  - intros ws2 ws1 d kb Ew Hrt Hb. rewrite D' in Ew. cbn [d_writes upd_d_writes] in Ew. rewrite app_assoc in Ew. apply app_inv_tail in Ew.
    destruct (end_op_states ws2 ws1 Ew) as [Hr|Hr]; destruct (recovers_boot _ _ d kb Hr Hrt Hb) as (kr & Er & Hk); exists kr; split; auto.
Qed.
End end_op.

(** [C1] Transactions are atomic: the last [end_op] writes the blocks of the
    transaction to their places, and if the machine stops at any point of it,
    and then again any number of times during recovery, the recovery that
    completes leaves outside the log area either all blocks as they were
    before the transaction or all as the transaction left them. *)
Theorem end_op_crash_safe bs dirty V k :
  txn ∅ bs dirty V k -> dirty ⊆ list_to_set bs -> l_outstanding (klog k) = 1 -> l_committing (klog k) = false ->
  exists k', end_op k = Ret tt k' /\ (forall n, ~ in_log n -> block_on k' n = V n) /\
    forall ws2 ws1 d kb, d_writes (kdisk k') = ws2 ++ ws1 ++ d_writes (kdisk k) ->
      rtc crash_in_recovery (disk_after (block_on k) ws1) d -> booted d kb ->
      exists kr, recover_from_log kb = Ret tt kr /\
        ((forall n, ~ in_log n -> block_on kr n = block_on k n) \/ (forall n, ~ in_log n -> block_on kr n = V n)).
Proof using Hstart Hsize Hend DL. intros Htx Hsub. by apply (end_op_atomic bs dirty). Qed.

(** ** The room of the log *)

(** With all blocks but the header in use the next block does not fit. *)
Lemma log_write_full H bs dirty V k b : txn H bs dirty V k -> l_size (klog k) = size -> size - 1 <= Z.of_nat (length bs) ->
  log_write b k = Panic "too big a transaction" (upd_mach (acquired LkLog) k).
Proof using.
  intros [C0 L0 _ _ _] Hsz Hfull. unfold log_write.
  erewrite bind_ret by (apply kacquire_eq, (th_ready me pid k (ca_thread _ _ _ _ _ _ _ _ C0)); fs_lock).
  erewrite bind_ret by reflexivity. kcbn. rewrite (lg_n _ _ _ _ L0), Hsz. destruct (Z.leb_spec (size - 1) (Z.of_nat (length bs))); [|lia]. by rewrite orb_true_r.
Qed.

(** Zeroing blocks that are not in the log yet. *)
Lemma bzero_all ns bs V k :
  txn ∅ bs (list_to_set bs) V k -> in_op k -> NoDup (bs ++ ns) -> Forall (fun n => 0 <= n < 2 ^ 32 /\ ~ in_log n) ns ->
  Z.of_nat (length (bs ++ ns)) <= size - 1 ->
  wp (for_all ns (bzero dev)) (fun _ k' => exists V', txn ∅ (bs ++ ns) (list_to_set (bs ++ ns)) V' k' /\ in_op k') k.
Proof using Hsize DL.
  revert bs V k. induction ns as [|n ns IH]; intros bs V k Htx Hop Hnd Hall Hlen.
  { rewrite app_nil_r. apply wp_ret. by exists V. }
  rewrite length_app in Hlen. cbn [length] in Hlen. apply list.Forall_cons in Hall as [[Hn Hl] Hall]. cbn [for_all].
  assert (Hnb : n ∉ bs) by (apply list.NoDup_app in Hnd as (_ & Hd & _); intros Hb; apply (Hd n Hb); left).
  assert (Ea : absorbed bs n = bs ++ [n]) by (unfold absorbed; by rewrite decide_False).
  apply wp_bind. eapply wp_conseq; [apply (bzero_ok bs _ V k n Htx Hop Hn Hl); lia|cbv beta]. intros _ k1 (T1 & O1 & _). rewrite <- absorbed_set, Ea in T1.
  replace (bs ++ n :: ns) with ((bs ++ [n]) ++ ns) in * by (by rewrite <- app_assoc). apply (IH _ _ _ T1 O1 Hnd Hall). rewrite !length_app. simpl. lia.
Qed.

Lemma bzero_full bs V k n : txn ∅ bs (list_to_set bs) V k -> in_op k -> n ∉ bs -> 0 <= n < 2 ^ 32 -> ~ in_log n -> Z.of_nat (length bs) = size - 1 ->
  exists k', bzero dev n k = Panic "too big a transaction" k'.
Proof using Hsize DL.
  intros Htx [Hz _] Hnb Hn Hl Hlen. unfold bzero. rewrite u32_small by done.
  assert (Hsz : (base.size (∅ : gmap nat Z) + base.size (list_to_set bs : gset Z) < NBUF)%nat).
  { pose proof (set_size bs (tx_targets _ _ _ _ _ Htx)). rewrite map_size_empty. done. }
  destruct (wp_inv _ _ _ (bread_ok (tx_cache _ _ _ _ _ Htx) n ltac:(done) (or_intror Hsz))) as (b & k1 & E1 & _ & W1).
  erewrite bind_ret by exact E1. assert (Hb : (<[b := n]> ∅ : gmap nat Z) !! b = Some n) by apply lookup_insert_eq.
  destruct (wp_inv _ _ _ (set_data_ok (we_cache W1) b n (replicate (Z.to_nat BSIZE) 0) Hb (set (replicate (Z.to_nat BSIZE) 0)) ltac:(done))) as ([] & k2 & E2 & W2).
  erewrite bind_ret by exact E2. pose proof (went_trans W1 W2) as W12.
  pose proof (went_txn k ∅ bs _ V _ _ _ _ k2 Htx W12 ltac:(apply fupd_ne; intros ->; apply Hl, start_in_log)) as T2.
  unfold bind at 1. erewrite log_write_full; [by eexists|exact T2| |lia]. destruct (we_frame W12) as [_ ->]. done.
Qed.

(** [C7] The reservation of [begin_op] is one block larger than the log: with a
    log of [LOGSIZE] blocks, as [mkfs] makes it, three operations are let in,
    and when together they write the [MAXOPBLOCKS] blocks each may write, the last
    [log_write] panics. *)
Theorem log_reservation_short V k ns :
  size = LOGSIZE -> txn ∅ [] ∅ V k -> l_size (klog k) = size -> l_outstanding (klog k) = 0 -> l_committing (klog k) = false ->
  NoDup ns -> Forall (fun n => 0 <= n < 2 ^ 32 /\ ~ in_log n) ns -> Z.of_nat (length ns) = 3 * MAXOPBLOCKS ->
  exists k', (do! begin_op in do! begin_op in do! begin_op in for_all ns (bzero dev)) k = Panic "too big a transaction" k'.
Proof using Hsize DL.
  intros Es T0 Hz Ho Hc Hnd Hall Hlen. change LOGSIZE with 30 in *. change (3 * MAXOPBLOCKS) with 30 in Hlen.
  destruct (wp_inv _ _ _ (begin_op_ok [] ∅ V k T0 Hc ltac:(lia) ltac:(rewrite Ho; done))) as ([] & k1 & E1 & T1 & _ & _ & _ & G1).
  destruct (wp_inv _ _ _ (begin_op_ok [] ∅ V k1 T1 ltac:(by rewrite G1) ltac:(rewrite G1; simpl; lia) ltac:(rewrite G1; simpl; rewrite Ho; done))) as ([] & k2 & E2 & T2 & _ & _ & _ & G2).
  destruct (wp_inv _ _ _ (begin_op_ok [] ∅ V k2 T2 ltac:(by rewrite G2, G1) ltac:(rewrite G2, G1; simpl; lia) ltac:(rewrite G2, G1; simpl; rewrite Ho; done))) as ([] & k3 & E3 & T3 & _ & _ & _ & G3).
  assert (O3 : in_op k3) by (split; rewrite G3, G2, G1; simpl; [done|lia]).
  erewrite bind_ret by exact E1. erewrite bind_ret by exact E2. erewrite bind_ret by exact E3.
  destruct (exists_last (l := ns)) as (l & x & ->); [by intros ->|]. rewrite length_app in Hlen. cbn [length] in Hlen.
  apply list.Forall_app in Hall as [Hall Hx]. apply list.Forall_singleton in Hx as [Hx1 Hx2].
  assert (Hxl : x ∉ l) by (apply list.NoDup_app in Hnd as (_ & Hd & _); intros Hb; apply (Hd x Hb); left).
  apply list.NoDup_app in Hnd as (Hnd & _).
  destruct (wp_inv _ _ _ (bzero_all l [] V k3 T3 O3 Hnd Hall ltac:(simpl; lia))) as ([] & k4 & E4 & V4 & T4 & O4). cbn [app] in T4.
  rewrite (for_all_app _ _ _ _ _ E4). destruct (bzero_full l V4 k4 x T4 O4 Hxl Hx1 Hx2 ltac:(lia)) as (k5 & E5). exists k5. cbn [for_all]. unfold bind. by rewrite E5.
Qed.
End safe.

Module LogSample.
Import FsSample.

(** A disk with an empty log, and one with a committed log that moves block 3
    to block 100. *)
Definition zeros : list Z := replicate 1024 0.
Definition image (n : Z) : list Z := if n =? 2 then zeros else replicate 1024 7.
Definition image1 (n : Z) : list Z := if n =? 2 then put_head zeros [100] else if n =? 3 then zeros else replicate 1024 7.

(** A transaction that zeroes block 100. *)
Definition zeroed : kernel := ran (bzero 1 100) (kernel0 image).

Lemma txn_outstanding H bs dirty V k c : txn 0 1 1 2 30 H bs dirty V k -> txn 0 1 1 2 30 H bs dirty V (upd_klog (upd_l_outstanding (set c)) k).
Proof.
  intros [Hc [L1 L2 L3 L4 L5] Ht Hl H0]. split; [|by split|done..]. apply (cache_thread 0 1 1 H _ _ V k); try done.
  by apply (thread_ext _ _ k), (ca_thread _ _ _ _ _ _ _ _ Hc).
Qed.

Lemma txn_zeroed :
  txn 0 1 1 2 30 ∅ [100] {[100]} (fupd image 100 zeros) zeroed /\ l_outstanding (klog zeroed) = 1 /\
  l_committing (klog zeroed) = false.
Proof.
  assert (T0 : txn 0 1 1 2 30 ∅ [] ∅ image (kernel0 image)).
  { split; [apply cache0|by split|apply targets_nil; done|done|done]. }
  assert (I0 : in_op 30 (kernel0 image)) by (by split).
  pose proof (bzero_ok 0 1 1 2 30 ltac:(done) [] ∅ image (kernel0 image) 100 T0 I0 ltac:(done)
    ltac:(unfold in_log; lia) ltac:(done)) as Hwp.
  apply ran_wp in Hwp as (_ & T1 & _ & _ & _ & E1 & E2).
  rewrite union_empty_r_L in T1. unfold zeroed. split_and!; [exact T1|rewrite E1; reflexivity|rewrite E2; reflexivity].
Qed.

Lemma end_op_crash_safe_witness :
  exists k', end_op zeroed = Ret tt k' /\
    (forall n, ~ in_log 2 30 n -> block_on k' n = fupd image 100 zeros n) /\
    forall ws2 ws1 d kb, d_writes (kdisk k') = ws2 ++ ws1 ++ d_writes (kdisk zeroed) ->
      rtc (crash_in_recovery 0 1 1 2) (disk_after (block_on zeroed) ws1) d -> booted 0 1 1 2 d kb ->
      exists kr, recover_from_log kb = Ret tt kr /\
        ((forall n, ~ in_log 2 30 n -> block_on kr n = block_on zeroed n) \/
         (forall n, ~ in_log 2 30 n -> block_on kr n = fupd image 100 zeros n)).
Proof.
  destruct txn_zeroed as (T & E1 & E2).
  refine (end_op_crash_safe 0 1 1 2 30 _ _ _ [100] {[100]} (fupd image 100 zeros) zeroed T _ E1 E2).
  1: lia. 1: unfold LOGSIZE, MAXOPBLOCKS; lia. 1: lia. clear. set_solver.
Defined.

Lemma recovery_installs_log_witness :
  exists k', recover_from_log (kernel0 image1) = Ret tt k' /\ logged 1 2 [] (klog k') /\ head_n (block_on k' 2) = 0 /\
    forall n, ~ in_log 2 30 n -> block_on k' n = recovered 2 image1 n.
Proof.
  apply (recovery_installs_log 0 1 1 2 30 ltac:(done) ltac:(done) ltac:(done) image1).
  - assert (E : head_blocks (image1 2) = [100]) by (vm_compute; reflexivity).
    split; [vm_compute; reflexivity|vm_compute; done|]. rewrite E. split; [|done|].
    + apply list.NoDup_cons. split; [apply not_elem_of_nil|constructor].
    + intros b Hb. apply list_elem_of_singleton in Hb as ->. unfold in_log. lia.
  - split; [apply cache0|done|done|done].
Defined.

Lemma log_reservation_short_witness :
  exists k', (do! begin_op in do! begin_op in do! begin_op in for_all (seqZ 100 30) (bzero 1)) (upd_klog (upd_l_outstanding (set 0)) (kernel0 image)) =
    Panic "too big a transaction" k'.
Proof.
  refine (log_reservation_short 0 1 1 2 30 _ image (upd_klog (upd_l_outstanding (set 0)) (kernel0 image)) (seqZ 100 30) eq_refl _ eq_refl eq_refl eq_refl _ _ eq_refl).
  - unfold LOGSIZE, MAXOPBLOCKS. lia.
  - apply txn_outstanding. split; [apply cache0|by split|apply targets_nil; done|done|done].
  - apply NoDup_seqZ.
  - apply list.Forall_forall. intros n Hn. apply elem_of_seqZ in Hn. unfold in_log. lia.
Defined.
End LogSample.
