(* ===== verification/Uart.v ===== *)
(** * The UART driver ([kernel/uart.c]) *)

From S2P Require Import Prelude Riscv Memory Machine Spinlock Kernel Cstring Printf Proc.

Definition UART_TX_BUF_SIZE : Z := 32.

(** The control registers: [WriteReg]. *)
Definition write_reg (reg v : Z) : M kernel unit := modify (upd_kuart (upd_u_regs (<[reg := v]>))).
Definition IER : Z := 1.
Definition IER_RX_ENABLE : Z := Z.shiftl 1 0.
Definition IER_TX_ENABLE : Z := Z.shiftl 1 1.
Definition FCR : Z := 2.
Definition FCR_FIFO_ENABLE : Z := Z.shiftl 1 0.
Definition FCR_FIFO_CLEAR : Z := Z.shiftl 3 1.
Definition LCR : Z := 3.
Definition LCR_EIGHT_BITS : Z := Z.shiftl 3 0.
Definition LCR_BAUD_LATCH : Z := Z.shiftl 1 7.

Section uart.
Context {KI : KernelImage} {C : Config}.

Definition uartinit : M kernel unit :=
  do! write_reg IER 0 in
  do! write_reg LCR LCR_BAUD_LATCH in
  do! write_reg 0 3 in
  do! write_reg 1 0 in
  do! write_reg LCR LCR_EIGHT_BITS in
  do! write_reg FCR (Z.lor FCR_FIFO_ENABLE FCR_FIFO_CLEAR) in
  do! write_reg IER (Z.lor IER_TX_ENABLE IER_RX_ENABLE) in
  lift (initlock LkUart).

(** [uart_tx_buf[i % UART_TX_BUF_SIZE]] *)
Definition tx_slot (i : Z) : nat := Z.to_nat (i mod UART_TX_BUF_SIZE).

Definition uartstart : M kernel unit :=
  while (fun _ : unit =>
    let! u := gets kuart in
    if u_w u =? u_r u then ret (inr tt) else
    let! v := read_lsr in
    if negb (bit v LSR_TX_IDLE) then ret (inr tt) else
    let! u := gets kuart in
    let! c := arr_get "uart_tx_buf" (u_buf u) (Z.of_nat (tx_slot (u_r u))) in
    do! modify (upd_kuart (upd_u_r (fun r => u64 (r + 1)))) in
    do! wakeup ChUartTx in
    do! write_thr c in
    ret (inl tt)) tt.

Definition uartputc (c : Z) : M kernel unit :=
  do! lift (acquire LkUart) in
  let! p := gets panicked in
  if p : bool then spin else
  do! while (fun _ : unit =>
    let! u := gets kuart in
    if u_w u =? u64 (u_r u + UART_TX_BUF_SIZE) then
      do! sleep ChUartTx LkUart in ret (inl tt)
    else ret (inr tt)) tt in
  do! modify (upd_kuart (fun u => upd_u_buf (<[tx_slot (u_w u) := u8 c]>) u)) in
  do! modify (upd_kuart (upd_u_w (fun w => u64 (w + 1)))) in
  do! uartstart in
  lift (release LkUart).

(** [ReadReg(RHR)] takes the oldest byte from the receiver. *)
Definition uartgetc : M kernel Z :=
  let! v := read_lsr in
  if bit v 1 then
    fun k => match u_rx (kuart k) with
             | c :: rx => Ret c (upd_kuart (upd_u_rx (set rx)) k)
             | [] => Ub "RHR" k
             end
  else ret (-1).
End uart.
