(* ===== verification/Console.v ===== *)
(** * The console ([kernel/console.c], [uartintr] of [kernel/uart.c])

    Line-buffered input in a circular buffer with three indices: [r] (read by
    [consoleread]), [w] (end of the complete lines) and [e] (end of what has
    been typed). *)

From S2P Require Import Prelude Riscv Memory Machine Spinlock Kernel Cstring Printf Proc Uart.

Definition INPUT_BUF_SIZE : Z := 128.
Definition CONSOLE : Z := 1.
(** Control-[x] *)
Definition Ctl (x : Z) : Z := x - 64.
Definition ctl_D : Z := Ctl 68.
Definition ctl_H : Z := Ctl 72.
Definition ctl_P : Z := Ctl 80.
Definition ctl_U : Z := Ctl 85.
Definition newline : Z := 10.

Definition cons_slot (i : Z) : nat := Z.to_nat (u32 i mod INPUT_BUF_SIZE).
Definition cons_get (i : Z) : M kernel Z :=
  let! c := gets kcons in arr_get "cons.buf" (c_buf c) (Z.of_nat (cons_slot i)).
Definition upd_cons (f : console -> console) : M kernel unit := modify (upd_kcons f).

Section console.
Context {KI : KernelImage} {C : Config}.

Definition consolewrite (src : source) (n : Z) : M kernel Z :=
  while (fun st : Z * source =>
    let '(i, src) := st in
    if i <? n then
      let! r := either_copyin src 1 in
      let '(r, bs) := r in
      if r =? -1 then ret (inr i) else
      do! uartputc (hd 0 bs) in
      ret (inl (i + 1, match src with SUser va => SUser (u64 (va + 1)) | SObj b => SObj (drop 1 b) end))
    else ret (inr i)) (0, src).

Definition consoleread (dst : dest) (n : Z) : M kernel Z :=
  let target := u32 n in
  do! lift (acquire LkCons) in
  while (fun st : Z * dest =>
    let '(n, dst) := st in
    if 0 <? n then
      let! w := while (fun _ : unit =>
        let! c := gets kcons in
        if c_r c =? c_w c then
          let! me := myproc1 in
          let! k := killed me in
          if nz k then do! lift (release LkCons) in ret (inr false)
          else do! sleep ChConsR LkCons in ret (inl tt)
        else ret (inr true)) tt in
      if negb w then ret (inr (-1)) else
      let! cs := gets kcons in
      let! c := cons_get (c_r cs) in
      do! upd_cons (upd_c_r (fun r => u32 (r + 1))) in
      if c =? ctl_D then
        do! when (u32 n <? target) (upd_cons (upd_c_r (fun r => u32 (r - 1)))) in
        do! lift (release LkCons) in ret (inr (s32 (target - n)))
      else
      let! r := either_copyout dst [c] in
      if r =? -1 then do! lift (release LkCons) in ret (inr (s32 (target - n))) else
      let dst := match dst with DUser va => DUser (u64 (va + 1)) | DPhys pa => DPhys (pa + 1) | DObj => DObj end in
      let n := n - 1 in
      if c =? newline then do! lift (release LkCons) in ret (inr (s32 (target - n)))
      else ret (inl (n, dst))
    else do! lift (release LkCons) in ret (inr (s32 (target - n)))) (n, dst).

(** The [default] case: an ordinary character. *)
Definition cons_input (c : Z) : M kernel unit :=
  let! cs := gets kcons in
  when (nz c && (u32 (c_e cs - c_r cs) <? INPUT_BUF_SIZE))
    (let c := if c =? 13 then newline else c in
     do! consputc c in
     do! upd_cons (fun cs => upd_c_e (fun e => u32 (e + 1)) (upd_c_buf (<[cons_slot (c_e cs) := u8 c]>) cs)) in
     let! cs := gets kcons in
     when ((c =? newline) || (c =? ctl_D) || (u32 (c_e cs - c_r cs) =? INPUT_BUF_SIZE))
       (do! upd_cons (fun cs => upd_c_w (set (c_e cs)) cs) in
        wakeup ChConsR)).

Definition consoleintr (c : Z) : M kernel unit :=
  do! lift (acquire LkCons) in
  do! (if c =? ctl_P then procdump
       else if c =? ctl_U then
         while (fun _ : unit =>
           let! cs := gets kcons in
           if c_e cs =? c_w cs then ret (inr tt) else
           let! x := cons_get (c_e cs - 1) in
           if x =? newline then ret (inr tt) else
           do! upd_cons (upd_c_e (fun e => u32 (e - 1))) in
           do! consputc BACKSPACE in
           ret (inl tt)) tt
       else if (c =? ctl_H) || (c =? 127) then
         let! cs := gets kcons in
         when (negb (c_e cs =? c_w cs))
           (do! upd_cons (upd_c_e (fun e => u32 (e - 1))) in
            consputc BACKSPACE)
       else cons_input c) in
  lift (release LkCons).

Definition consoleinit : M kernel unit :=
  do! lift (initlock LkCons) in
  do! uartinit in
  modify (upd_devsw_console (set true)).

Definition uartintr : M kernel unit :=
  do! while (fun _ : unit =>
    let! c := uartgetc in
    if c =? -1 then ret (inr tt) else
    do! consoleintr c in ret (inl tt)) tt in
  do! lift (acquire LkUart) in
  do! uartstart in
  lift (release LkUart).
End console.
