(* ===== verification/Pipe.v ===== *)
(** * Pipes ([kernel/pipe.c])

    A pipe lives in a page of its own and is named by the page's address;
    [pipes] holds the [struct pipe] of each. [pipealloc] is in [File]. *)

From S2P Require Import Prelude Riscv Memory Machine Spinlock Kalloc Vm Kernel Cstring Printf Proc.

Definition PIPESIZE : Z := 512.

Definition get_pipe (pi : Z) : M kernel pipe := fun k =>
  match pipes k !! pi with Some x => Ret x k | None => Ub "pipe" k end.
Definition upd_pipe (pi : Z) (f : pipe -> pipe) : M kernel unit := fun k =>
  match pipes k !! pi with Some x => Ret tt (upd_pipes (<[pi := f x]>) k) | None => Ub "pipe" k end.

Definition pipe_slot (n : Z) : nat := Z.to_nat (n mod PIPESIZE).

Section pipe.
Context {KI : KernelImage} {C : Config}.

Definition pipeclose (pi : Z) (writable : bool) : M kernel unit :=
  do! lift (acquire (LkPipe pi)) in
  do! (if writable then
         do! upd_pipe pi (upd_pi_writeopen (set false)) in wakeup (ChPipeR pi)
       else
         do! upd_pipe pi (upd_pi_readopen (set false)) in wakeup (ChPipeW pi)) in
  let! x := get_pipe pi in
  if negb (pi_readopen x) && negb (pi_writeopen x) then
    do! lift (release (LkPipe pi)) in
    do! lift (kfree pi) in
    modify (upd_pipes (delete pi))
  else lift (release (LkPipe pi)).

(** [pi->data[pi->nwrite++ % PIPESIZE] = ch], and the read of the next byte. *)
Definition pipe_push (ch : Z) (x : pipe) : pipe :=
  upd_pi_nwrite (fun n => u32 (n + 1)) (upd_pi_data (<[pipe_slot (pi_nwrite x) := ch]>) x).
Definition pipe_pop (x : pipe) : pipe := upd_pi_nread (fun n => u32 (n + 1)) x.

Definition pipewrite (pi addr n : Z) : M kernel Z :=
  let! me := myproc1 in
  do! lift (acquire (LkPipe pi)) in
  let! r := while (fun i : Z =>
    if i <? n then
      let! x := get_pipe pi in
      let! dead := (if negb (pi_readopen x) then ret true
                    else let! k := killed me in ret (nz k)) in
      if dead : bool then
        do! lift (release (LkPipe pi)) in ret (inr None)
      else
      let! x := get_pipe pi in
      if pi_nwrite x =? u32 (pi_nread x + PIPESIZE) then
        do! wakeup (ChPipeR pi) in
        do! sleep (ChPipeW pi) (LkPipe pi) in
        ret (inl i)
      else
        let! p := get_proc me in
        let! r := lift (copyin (p_pagetable p) (u64 (addr + i)) 1) in
        let '(r, bs) := r in
        if r =? -1 then ret (inr (Some i)) else
        do! upd_pipe pi (pipe_push (hd 0 bs)) in
        ret (inl (i + 1))
    else ret (inr (Some i))) 0 in
  match r with
  | None => ret (-1)
  | Some i =>
      do! wakeup (ChPipeR pi) in
      do! lift (release (LkPipe pi)) in
      ret i
  end.

Definition piperead (pi addr n : Z) : M kernel Z :=
  let! me := myproc1 in
  do! lift (acquire (LkPipe pi)) in
  let! go := while (fun _ : unit =>
    let! x := get_pipe pi in
    if (pi_nread x =? pi_nwrite x) && pi_writeopen x then
      let! k := killed me in
      if nz k then do! lift (release (LkPipe pi)) in ret (inr false)
      else do! sleep (ChPipeR pi) (LkPipe pi) in ret (inl tt)
    else ret (inr true)) tt in
  if negb go then ret (-1) else
  let! i := while (fun i : Z =>
    if i <? n then
      let! x := get_pipe pi in
      if pi_nread x =? pi_nwrite x then ret (inr i) else
      let! ch := arr_get "pi->data" (pi_data x) (Z.of_nat (pipe_slot (pi_nread x))) in
      do! upd_pipe pi pipe_pop in
      let! p := get_proc me in
      let! r := lift (copyout (p_pagetable p) (u64 (addr + i)) [ch]) in
      if r =? -1 then ret (inr i) else ret (inl (i + 1))
    else ret (inr i)) 0 in
  do! wakeup (ChPipeW pi) in
  do! lift (release (LkPipe pi)) in
  ret i.
End pipe.
