(* ===== verification/File.v ===== *)
(** * Open files ([kernel/file.c], [pipealloc] of [kernel/pipe.c]) *)

From S2P Require Import Prelude Riscv Memory Machine Spinlock Kalloc Vm Kernel Cstring Printf Proc Sleeplock.
From S2P Require Import Bio Log Fs Uart Console Pipe.

Section file.
Context {KI : KernelImage} {C : Config} {D : BlockDevice}.

Definition all_files : list nat := seq 0 NFILE.

Definition fileinit : M kernel unit := lift (initlock LkFtable).

Definition filealloc : M kernel (option nat) :=
  do! lift (acquire LkFtable) in
  let! r := for_each all_files tt (fun i _ =>
    let! f := get_file i in
    if f_ref f =? 0 then
      do! upd_file i (upd_f_ref (set 1)) in
      do! lift (release LkFtable) in
      ret (inr i)
    else ret (inl tt)) in
  match r with
  | inr i => ret (Some i)
  | inl _ => do! lift (release LkFtable) in ret None
  end.

Definition filedup (i : nat) : M kernel nat :=
  do! lift (acquire LkFtable) in
  let! f := get_file i in
  if f_ref f <? 1 then panic "filedup" else
  do! upd_file i (upd_f_ref (fun r => s32 (r + 1))) in
  do! lift (release LkFtable) in
  ret i.

Definition fileclose (i : nat) : M kernel unit :=
  do! lift (acquire LkFtable) in
  let! f := get_file i in
  if f_ref f <? 1 then panic "fileclose" else
  do! upd_file i (upd_f_ref (fun r => s32 (r - 1))) in
  let! f := get_file i in
  if 0 <? f_ref f then lift (release LkFtable) else
  let ff := f in
  do! upd_file i (upd_f_ref (set 0)) in
  do! upd_file i (upd_f_type (set FD_NONE)) in
  do! lift (release LkFtable) in
  match f_type ff with
  | FD_PIPE => pipeclose (f_pipe ff) (f_writable ff)
  | FD_INODE | FD_DEVICE =>
      do! begin_op in
      let! ip := deref (f_ip ff) in
      do! iput ip in
      end_op
  | FD_NONE => ret tt
  end.

Definition pipealloc_bad (pi : Z) (f0 f1 : option nat) : M kernel (option (nat * nat)) :=
  do! when (nz pi) (lift (kfree pi)) in
  do! match f0 with Some f => fileclose f | None => ret tt end in
  do! match f1 with Some f => fileclose f | None => ret tt end in
  ret None.

Definition pipealloc : M kernel (option (nat * nat)) :=
  let! f0 := filealloc in
  match f0 with
  | None => pipealloc_bad 0 None None
  | Some r =>
      let! f1 := filealloc in
      match f1 with
      | None => pipealloc_bad 0 f0 None
      | Some w =>
          let! pi := lift kalloc in
          if pi =? 0 then pipealloc_bad 0 f0 f1 else
          do! modify (upd_pipes (<[pi := mk_pipe (replicate (Z.to_nat PIPESIZE) 5) 0 0 true true]>)) in
          do! lift (initlock (LkPipe pi)) in
          do! upd_file r (fun f => upd_f_pipe (set pi) (upd_f_writable (set false)
                (upd_f_readable (set true) (upd_f_type (set FD_PIPE) f)))) in
          do! upd_file w (fun f => upd_f_pipe (set pi) (upd_f_writable (set true)
                (upd_f_readable (set false) (upd_f_type (set FD_PIPE) f)))) in
          ret (Some (r, w))
      end
  end.

Definition filestat (i : nat) (addr : Z) : M kernel Z :=
  let! me := myproc1 in
  let! f := get_file i in
  match f_type f with
  | FD_INODE | FD_DEVICE =>
      do! ilock (f_ip f) in
      let! ip := deref (f_ip f) in
      let! x := get_inode ip in
      let st := stati x in
      do! iunlock (f_ip f) in
      let! p := get_proc me in
      let! r := lift (copyout (p_pagetable p) addr st) in
      ret (if r <? 0 then -1 else 0)
  | _ => ret (-1)
  end.

(** [!devsw[major].read]: only [devsw[CONSOLE]] is ever set. *)
Definition has_dev (major : Z) : M kernel bool :=
  let! c := gets devsw_console in
  ret ((0 <=? major) && (major <? NDEV) && (major =? CONSOLE) && c).

Definition fileread (i : nat) (addr n : Z) : M kernel Z :=
  let! f := get_file i in
  if negb (f_readable f) then ret (-1) else
  match f_type f with
  | FD_PIPE => piperead (f_pipe f) addr n
  | FD_DEVICE =>
      let! ok := has_dev (f_major f) in
      if negb ok then ret (-1) else consoleread (DUser addr) n
  | FD_INODE =>
      do! ilock (f_ip f) in
      let! ip := deref (f_ip f) in
      let! f' := get_file i in
      let! r := readi ip (DUser addr) (f_off f') (u32 n) in
      let r := fst r in
      do! when (0 <? r) (upd_file i (upd_f_off (fun o => u32 (o + r)))) in
      do! iunlock (f_ip f) in
      ret r
  | FD_NONE => panic "fileread"
  end.

Definition filewrite_max : Z := (MAXOPBLOCKS - 1 - 1 - 2) / 2 * BSIZE.

Definition filewrite (fi : nat) (addr n : Z) : M kernel Z :=
  let! f := get_file fi in
  if negb (f_writable f) then ret (-1) else
  match f_type f with
  | FD_PIPE => pipewrite (f_pipe f) addr n
  | FD_DEVICE =>
      let! ok := has_dev (f_major f) in
      if negb ok then ret (-1) else consolewrite (SUser addr) n
  | FD_INODE =>
      let! i := while (fun i : Z =>
        if i <? n then
          let n1 := if filewrite_max <? n - i then filewrite_max else n - i in
          do! begin_op in
          do! ilock (f_ip f) in
          let! ip := deref (f_ip f) in
          let! f' := get_file fi in
          let! r := writei ip (SUser (u64 (addr + i))) (f_off f') n1 in
          do! when (0 <? r) (upd_file fi (upd_f_off (fun o => u32 (o + r)))) in
          do! iunlock (f_ip f) in
          do! end_op in
          if negb (r =? n1) then ret (inr i) else ret (inl (i + r))
        else ret (inr i)) 0 in
      ret (if i =? n then n else -1)
  | FD_NONE => panic "filewrite"
  end.
End file.
