(* ===== verification/ProcFs.v ===== *)
(** * Creating and ending processes ([kernel/proc.c]), and the return to user
    space ([usertrapret] of [kernel/trap.c])

    The functions of [kernel/proc.c] that use files. *)

From S2P Require Import Prelude Riscv Memory Machine Spinlock Kalloc Vm Kernel Cstring Printf Proc Sleeplock.
From S2P Require Import Bio Log Fs File.

(** ** The trap frame and the control registers *)

(** Offsets in [struct trapframe]. *)
Definition TF_kernel_satp : Z := 0.
Definition TF_kernel_sp : Z := 8.
Definition TF_kernel_trap : Z := 16.
Definition TF_epc : Z := 24.
Definition TF_kernel_hartid : Z := 32.
Definition TF_sp : Z := 48.
Definition TF_a0 : Z := 112.
Definition TF_a1 : Z := 120.
Definition TF_a7 : Z := 168.
Definition TF_SIZE : Z := 288.

(** [p->trapframe->field] *)
Definition tf_get (i : nat) (off : Z) : M kernel Z :=
  let! p := get_proc i in lift (ld64 (p_trapframe p + off)).
Definition tf_set (i : nat) (off v : Z) : M kernel unit :=
  let! p := get_proc i in lift (st64 (p_trapframe p + off) v).

Definition get_csr : M kernel csr := gets (fun k => default csr0 (csrs k !! tp (mach k))).
Definition upd_csr (f : csr -> csr) : M kernel unit :=
  modify (fun k => upd_csrs (fun m => <[tp (mach k) := f (default csr0 (m !! tp (mach k)))]> m) k).

(** Addresses of the assembly entry points and of [usertrap]. *)
Class TrapImage := { uservec : Z; userret : Z; kernelvec : Z; usertrap_addr : Z }.

Section procfs.
Context {KI : KernelImage} {C : Config} {D : BlockDevice} {TI : TrapImage}.

(** The argument passed to [userret] of [trampoline.S]. *)
Definition usertrapret : M kernel Z :=
  let! i := myproc1 in
  do! lift intr_off in
  do! upd_csr (upd_r_stvec (set (TRAMPOLINE + (uservec - trampoline)))) in
  let! c := get_csr in
  do! tf_set i TF_kernel_satp (r_satp c) in
  let! p := get_proc i in
  do! tf_set i TF_kernel_sp (p_kstack p + PGSIZE) in
  do! tf_set i TF_kernel_trap usertrap_addr in
  let! id := lift cpuid in
  do! tf_set i TF_kernel_hartid id in
  do! upd_csr (fun c => upd_r_spie (set true) (upd_r_spp (set false) c)) in
  let! epc := tf_get i TF_epc in
  do! upd_csr (upd_r_sepc (set epc)) in
  let! p := get_proc i in
  ret (MAKE_SATP (p_pagetable p)).

(** ** The first process *)

Definition initcode : list Z :=
  [0x17; 0x05; 0x00; 0x00; 0x13; 0x05; 0x45; 0x02;
   0x97; 0x05; 0x00; 0x00; 0x93; 0x85; 0x35; 0x02;
   0x93; 0x08; 0x70; 0x00; 0x73; 0x00; 0x00; 0x00;
   0x93; 0x08; 0x20; 0x00; 0x73; 0x00; 0x00; 0x00;
   0xef; 0xf0; 0x9f; 0xff; 0x2f; 0x69; 0x6e; 0x69;
   0x74; 0x00; 0x00; 0x24; 0x00; 0x00; 0x00; 0x00;
   0x00; 0x00; 0x00; 0x00].

(** [safestrcpy(p->name, s, sizeof(p->name))] *)
Definition set_name (i : nat) (s : list Z) : M kernel unit :=
  let! p := get_proc i in
  match safestrcpy (p_name p) s 16 with
  | Some nm => upd_proc i (upd_p_name (set nm))
  | None => undef "safestrcpy"
  end.

Definition userinit : M kernel unit :=
  let! p := allocproc in
  do! modify (upd_initproc (set p)) in
  let! i := deref p in
  let! p := get_proc i in
  do! lift (uvmfirst (p_pagetable p) initcode) in
  do! upd_proc i (upd_p_sz (set PGSIZE)) in
  do! tf_set i TF_epc 0 in
  do! tf_set i TF_sp PGSIZE in
  do! set_name i (bytes_of "initcode" ++ [0]) in
  let! root := namei (bytes_of "/" ++ [0]) in
  do! upd_proc i (upd_p_cwd (set root)) in
  do! upd_proc i (upd_p_state (set RUNNABLE)) in
  lift (release (LkProc i)).

(** ** fork, exit *)

Definition fork : M kernel Z :=
  let! i := myproc1 in
  let! np := allocproc in
  match np with
  | None => ret (-1)
  | Some j =>
      let! p := get_proc i in
      let! n := get_proc j in
      let! r := lift (uvmcopy (p_pagetable p) (p_pagetable n) (p_sz p)) in
      if r <? 0 then
        do! freeproc j in
        do! lift (release (LkProc j)) in
        ret (-1)
      else
      do! upd_proc j (upd_p_mask (set (p_mask p))) in
      do! when (ifdef LBS) (upd_proc j (upd_p_tickets (set (p_tickets p)))) in
      do! upd_proc j (upd_p_sz (set (p_sz p))) in
      do! lift (memmove (p_trapframe n) (p_trapframe p) TF_SIZE) in
      do! tf_set j TF_a0 0 in
      do! for_all (seq 0 NOFILE) (fun fd =>
        let! p := get_proc i in
        match p_ofile p !! fd with
        | Some (Some f) =>
            let! f := filedup f in
            upd_proc j (upd_p_ofile (<[fd := Some f]>))
        | _ => ret tt
        end) in
      let! p := get_proc i in
      let! cwd := deref (p_cwd p) in
      let! cwd := idup cwd in
      do! upd_proc j (upd_p_cwd (set (Some cwd))) in
      do! set_name j (p_name p) in
      let! n := get_proc j in
      let pid := p_pid n in
      do! lift (release (LkProc j)) in
      do! lift (acquire LkWait) in
      do! upd_proc j (upd_p_parent (set (Some i))) in
      do! lift (release LkWait) in
      do! lift (acquire (LkProc j)) in
      do! upd_proc j (upd_p_state (set RUNNABLE)) in
      do! lift (release (LkProc j)) in
      let! p := get_proc i in
      do! when (ifdef MLFQ && (0 <? p_priority_level p))
            (do! upd_proc i (upd_p_ticks_elapsed (set 0)) in yield) in
      ret pid
  end.

Definition exit (status : Z) : M kernel unit :=
  let! i := myproc1 in
  let! init := gets initproc in
  if bool_decide (init = Some i) then panic "init exiting" else
  do! for_all (seq 0 NOFILE) (fun fd =>
    let! p := get_proc i in
    match p_ofile p !! fd with
    | Some (Some f) =>
        do! fileclose f in
        upd_proc i (upd_p_ofile (<[fd := None]>))
    | _ => ret tt
    end) in
  do! begin_op in
  let! p := get_proc i in
  let! cwd := deref (p_cwd p) in
  do! iput cwd in
  do! end_op in
  do! upd_proc i (upd_p_cwd (set None)) in
  do! lift (acquire LkWait) in
  do! reparent i in
  let! p := get_proc i in
  do! wakeup (match p_parent p with Some j => ChProc j | None => ChNone end) in
  do! lift (acquire (LkProc i)) in
  let! now := gets ticks in
  do! upd_proc i (fun p => upd_p_endTime (set now) (upd_p_state (set ZOMBIE) (upd_p_xstate (set status) p))) in
  do! lift (release LkWait) in
  do! sched in
  panic "zombie exit".

Definition forkret : M kernel Z :=
  let! i := myproc1 in
  do! lift (release (LkProc i)) in
  let! f := gets first in
  do! when f
    (do! modify (upd_first (set false)) in fsinit ROOTDEV) in
  usertrapret.
End procfs.
