(* ===== verification/Syscall.v ===== *)
(** * System-call arguments ([kernel/syscall.c]) and the process system calls
    ([kernel/sysproc.c])

    A system call returns a [uint64] that [syscall] (in [Dispatch]) stores in
    the caller's [a0]. *)

From S2P Require Import Prelude Riscv Memory Machine Spinlock Kalloc Vm Kernel Cstring Printf Proc Sleeplock.
From S2P Require Import Bio Log Fs File ProcFs.

Section syscall.
Context {KI : KernelImage} {C : Config} {D : BlockDevice} {TI : TrapImage}.

(** The 64-bit little-endian value of eight bytes. *)
Definition fetchaddr (addr : Z) : M kernel (Z * Z) :=
  let! i := myproc1 in
  let! p := get_proc i in
  if (p_sz p <=? addr) || (p_sz p <? u64 (addr + 8)) then ret (-1, 0) else
  let! r := lift (copyin (p_pagetable p) addr 8) in
  let '(r, bs) := r in
  if negb (r =? 0) then ret (-1, 0) else ret (0, le_val bs).

(** The result of [fetchstr] and the bytes in [buf]. *)
Definition fetchstr (addr max : Z) : M kernel (Z * list Z) :=
  let! i := myproc1 in
  let! p := get_proc i in
  let! r := lift (copyinstr (p_pagetable p) addr max) in
  let '(r, bs) := r in
  if r <? 0 then ret (-1, bs) else
  match strlen bs with Some n => ret (n, bs) | None => undef "strlen" end.

Definition argraw (n : Z) : M kernel Z :=
  let! i := myproc1 in
  if (0 <=? n) && (n <=? 5) then tf_get i (TF_a0 + 8 * n) else panic "argraw".

Definition argint (n : Z) : M kernel Z := let! x := argraw n in ret (s32 x).
Definition argaddr (n : Z) : M kernel Z := argraw n.
Definition argstr (n max : Z) : M kernel (Z * list Z) :=
  let! addr := argaddr n in fetchstr addr max.

(** ** [kernel/sysproc.c] *)

Definition sys_exit : M kernel Z :=
  let! n := argint 0 in
  do! exit n in
  ret 0.

Definition sys_getpid : M kernel Z :=
  let! i := myproc1 in
  let! p := get_proc i in
  ret (u64 (p_pid p)).

Definition sys_fork : M kernel Z := let! r := fork in ret (u64 r).

Definition sys_wait : M kernel Z :=
  let! p := argaddr 0 in
  let! r := wait p in
  ret (u64 r).

Definition sys_sbrk : M kernel Z :=
  let! n := argint 0 in
  let! i := myproc1 in
  let! p := get_proc i in
  let addr := p_sz p in
  let! r := growproc n in
  if r <? 0 then ret (u64 (-1)) else ret addr.

(** [while (ticks - ticks0 < n)] compares as [uint]. *)
Definition sys_sleep : M kernel Z :=
  let! n := argint 0 in
  do! lift (acquire LkTicks) in
  let! ticks0 := gets ticks in
  while (fun _ : unit =>
    let! now := gets ticks in
    if u32 (now - ticks0) <? u32 n then
      let! i := myproc1 in
      let! k := killed i in
      if nz k then do! lift (release LkTicks) in ret (inr (u64 (-1)))
      else do! sleep ChTicks LkTicks in ret (inl tt)
    else
      do! lift (release LkTicks) in ret (inr 0)) tt.

Definition sys_kill : M kernel Z :=
  let! pid := argint 0 in
  let! r := kill pid in
  ret (u64 r).

Definition sys_uptime : M kernel Z :=
  do! lift (acquire LkTicks) in
  let! xticks := gets ticks in
  do! lift (release LkTicks) in
  ret xticks.

Definition sys_trace : M kernel Z :=
  let! n := argint 0 in
  let! i := myproc1 in
  do! upd_proc i (upd_p_mask (set n)) in
  ret 0.

Definition sys_setpriority : M kernel Z :=
  let! priority := argint 0 in
  let! pid := argint 1 in
  let! r := set_priority priority pid in
  ret (u64 r).

Definition sys_settickets : M kernel Z :=
  let! n := argint 0 in
  let! i := myproc1 in
  do! upd_proc i (upd_p_tickets (set n)) in
  ret 0.

(** [wtime0] and [rtime0] are what the uninitialised locals hold. *)
Definition sys_waitx (wtime0 rtime0 : Z) : M kernel Z :=
  let! addr := argaddr 0 in
  let! addr1 := argaddr 1 in
  let! addr2 := argaddr 2 in
  let! r := waitx addr wtime0 rtime0 in
  let '(r, wtime, rtime) := r in
  let! i := myproc1 in
  let! p := get_proc i in
  let! c := lift (copyout (p_pagetable p) addr1 (le_bytes 4 wtime)) in
  if c <? 0 then ret (u64 (-1)) else
  let! c := lift (copyout (p_pagetable p) addr2 (le_bytes 4 rtime)) in
  if c <? 0 then ret (u64 (-1)) else
  ret (u64 r).

Definition sys_sigalarm : M kernel Z :=
  let! n := argint 0 in
  let! addr := argaddr 1 in
  let! i := myproc1 in
  do! upd_proc i (upd_p_maxticks (set n)) in
  do! upd_proc i (upd_p_handler (set addr)) in
  ret 0.

Definition sys_sigreturn : M kernel Z :=
  let! i := myproc1 in
  let! p := get_proc i in
  do! lift (memmove (p_trapframe p) (p_alarm_handler p) PGSIZE) in
  do! lift (kfree (p_alarm_handler p)) in
  do! upd_proc i (fun p => upd_p_sigticks (set 0) (upd_p_checkifAlarmOn (set 0)
        (upd_p_alarm_handler (set 0) p))) in
  tf_get i TF_a0.
End syscall.
