(* ===== verification/Exec.v ===== *)
(** * Loading programs ([kernel/exec.c]) *)

From S2P Require Import Prelude Riscv Memory Machine Spinlock Kalloc Vm Kernel Cstring Printf Proc Sleeplock.
From S2P Require Import Bio Log Fs File ProcFs.

Definition ELF_MAGIC : Z := 0x464C457F.
Definition ELF_PROG_LOAD : Z := 1.
(** Sizes of [struct elfhdr] and [struct proghdr]. *)
Definition ELFHDR_SIZE : Z := 64.
Definition PROGHDR_SIZE : Z := 56.

Record elfhdr := mk_elfhdr { e_magic : Z; e_entry : Z; e_phoff : Z; e_phnum : Z }.
Definition elf_of (bs : list Z) : elfhdr :=
  mk_elfhdr (data_get 4 bs 0) (data_get 8 bs 24) (data_get 8 bs 32) (data_get 2 bs 56).

Record proghdr := mk_proghdr {
  ph_type : Z; ph_flags : Z; ph_off : Z; ph_vaddr : Z; ph_filesz : Z; ph_memsz : Z }.
Definition ph_of (bs : list Z) : proghdr :=
  mk_proghdr (data_get 4 bs 0) (data_get 4 bs 4) (data_get 8 bs 8) (data_get 8 bs 16)
    (data_get 8 bs 32) (data_get 8 bs 40).

Definition flags2perm (flags : Z) : Z :=
  let perm := if bit flags 0x1 then PTE_X else 0 in
  if bit flags 0x2 then Z.lor perm PTE_W else perm.

Section exec.
Context {KI : KernelImage} {C : Config} {D : BlockDevice} {TI : TrapImage}.

Definition loadseg (pagetable va : Z) (ip : nat) (offset sz : Z) : M kernel Z :=
  while (fun i : Z =>
    if i <? sz then
      let! pa := lift (walkaddr pagetable (u64 (va + i))) in
      if pa =? 0 then panic "loadseg: address should exist" else
      let n := if sz - i <? PGSIZE then sz - i else PGSIZE in
      let! r := readi ip (DPhys pa) (u32 (offset + i)) n in
      if negb (u32 (fst r) =? n) then ret (inr (-1)) else ret (inl (u32 (i + PGSIZE)))
    else ret (inr 0)) 0.

(** The [bad] exit. *)
Definition exec_bad (pagetable sz : Z) (ip : option nat) : M kernel Z :=
  do! when (nz pagetable) (lift (proc_freepagetable pagetable sz)) in
  match ip with
  | Some i => do! iunlockput i in do! end_op in ret (-1)
  | None => ret (-1)
  end.

(** Load the program segments: the new size, and whether all were loaded. *)
Definition exec_load (pagetable : Z) (ip : nat) (elf : elfhdr) : M kernel (bool * Z) :=
  while (fun st : Z * Z * Z =>
    let '(i, off, sz) := st in
    if i <? e_phnum elf then
      let! r := readi ip DObj (u32 off) PROGHDR_SIZE in
      let '(r, bs) := r in
      if negb (r =? PROGHDR_SIZE) then ret (inr (false, sz)) else
      let ph := ph_of bs in
      let next sz := ret (inl (i + 1, s32 (off + PROGHDR_SIZE), sz)) in
      if negb (ph_type ph =? ELF_PROG_LOAD) then next sz else
      if ph_memsz ph <? ph_filesz ph then ret (inr (false, sz)) else
      if u64 (ph_vaddr ph + ph_memsz ph) <? ph_vaddr ph then ret (inr (false, sz)) else
      if negb (ph_vaddr ph mod PGSIZE =? 0) then ret (inr (false, sz)) else
      let! sz1 := lift (uvmalloc pagetable sz (u64 (ph_vaddr ph + ph_memsz ph)) (flags2perm (s32 (ph_flags ph)))) in
      if sz1 =? 0 then ret (inr (false, sz)) else
      let! l := loadseg pagetable (ph_vaddr ph) ip (u32 (ph_off ph)) (u32 (ph_filesz ph)) in
      if l <? 0 then ret (inr (false, sz1)) else next sz1
    else ret (inr (true, sz))) (0, s32 (e_phoff elf), 0).

(** Push the argument strings: the stack pointer and their addresses. *)
Definition exec_args (pagetable stackbase sp : Z) (argv : list (list Z)) : M kernel (option (Z * list Z)) :=
  let! r := for_each argv (0, sp, []) (fun arg st =>
    let '(argc, sp, ustack) := st in
    if MAXARG <=? argc then ret (inr tt) else
    match strlen arg with
    | None => undef "strlen"
    | Some n =>
        let sp := u64 (sp - (n + 1)) in
        let sp := sp - sp mod 16 in
        if sp <? stackbase then ret (inr tt) else
        let! c := lift (copyout pagetable sp (take (Z.to_nat (n + 1)) arg)) in
        if c <? 0 then ret (inr tt) else
        ret (inl (argc + 1, sp, ustack ++ [sp]))
    end) in
  match r with
  | inr _ => ret None
  | inl (_, sp, ustack) => ret (Some (sp, ustack))
  end.

(** The last element of a path. *)
Fixpoint last_elem (last s : list Z) : list Z :=
  match s with
  | c :: s' => if c =? 0 then last else if c =? slash then last_elem s' s' else last_elem last s'
  | [] => last
  end.

Definition exec (path : list Z) (argv : list (list Z)) : M kernel Z :=
  let! me := myproc1 in
  do! begin_op in
  let! ip := namei path in
  match ip with
  | None => do! end_op in ret (-1)
  | Some ip =>
      do! ilock (Some ip) in
      let! r := readi ip DObj 0 ELFHDR_SIZE in
      let '(r, bs) := r in
      if negb (r =? ELFHDR_SIZE) then exec_bad 0 0 (Some ip) else
      let elf := elf_of bs in
      if negb (e_magic elf =? ELF_MAGIC) then exec_bad 0 0 (Some ip) else
      let! pagetable := proc_pagetable me in
      if pagetable =? 0 then exec_bad 0 0 (Some ip) else
      let! r := exec_load pagetable ip elf in
      let '(ok, sz) := r in
      if negb ok then exec_bad pagetable sz (Some ip) else
      do! iunlockput ip in
      do! end_op in
      let! p := get_proc me in
      let oldsz := p_sz p in
      let sz := PGROUNDUP sz in
      let! sz1 := lift (uvmalloc pagetable sz (u64 (sz + 2 * PGSIZE)) PTE_W) in
      if sz1 =? 0 then exec_bad pagetable sz None else
      let sz := sz1 in
      do! lift (uvmclear pagetable (u64 (sz - 2 * PGSIZE))) in
      let stackbase := u64 (sz - PGSIZE) in
      let! a := exec_args pagetable stackbase sz argv in
      match a with
      | None => exec_bad pagetable sz None
      | Some (sp, ustack) =>
          let argc := Z.of_nat (length ustack) in
          let sp := u64 (sp - (argc + 1) * 8) in
          let sp := sp - sp mod 16 in
          if sp <? stackbase then exec_bad pagetable sz None else
          let! c := lift (copyout pagetable sp (concat (map (le_bytes 8) (ustack ++ [0])))) in
          if c <? 0 then exec_bad pagetable sz None else
          do! tf_set me TF_a1 sp in
          do! set_name me (last_elem path path) in
          let! p := get_proc me in
          let oldpagetable := p_pagetable p in
          do! upd_proc me (fun p => upd_p_sz (set sz) (upd_p_pagetable (set pagetable) p)) in
          do! tf_set me TF_epc (e_entry elf) in
          do! tf_set me TF_sp sp in
          do! lift (proc_freepagetable oldpagetable oldsz) in
          ret argc
      end
  end.
End exec.
