(* ===== verification/Sysfile.v ===== *)
(** * File system calls ([kernel/sysfile.c]) *)

From S2P Require Import Prelude Riscv Memory Machine Spinlock Kalloc Vm Kernel Cstring Printf Proc Sleeplock.
From S2P Require Import Bio Log Fs Pipe File ProcFs Syscall Exec.

Definition O_RDONLY : Z := 0x000.
Definition O_WRONLY : Z := 0x001.
Definition O_RDWR : Z := 0x002.
Definition O_CREATE : Z := 0x200.
Definition O_TRUNC : Z := 0x400.

Section sysfile.
Context {KI : KernelImage} {C : Config} {D : BlockDevice} {TI : TrapImage}.

(** [return -1;] as a [uint64]. *)
Definition err : Z := u64 (-1).

Definition argfd (n : Z) : M kernel (option (Z * nat)) :=
  let! fd := argint n in
  if (fd <? 0) || (Z.of_nat NOFILE <=? fd) then ret None else
  let! i := myproc1 in
  let! p := get_proc i in
  let! f := arr_get "ofile" (p_ofile p) fd in
  match f with Some f => ret (Some (fd, f)) | None => ret None end.

Definition fdalloc (f : nat) : M kernel Z :=
  let! i := myproc1 in
  let! r := for_each (seqZ 0 (Z.of_nat NOFILE)) tt (fun fd _ =>
    let! p := get_proc i in
    let! o := arr_get "ofile" (p_ofile p) fd in
    match o with
    | None => do! upd_proc i (upd_p_ofile (<[Z.to_nat fd := Some f]>)) in ret (inr fd)
    | Some _ => ret (inl tt)
    end) in
  match r with inr fd => ret fd | inl _ => ret (-1) end.

Definition set_ofile (fd : Z) (x : option nat) : M kernel unit :=
  let! i := myproc1 in upd_proc i (upd_p_ofile (<[Z.to_nat fd := x]>)).

Definition sys_dup : M kernel Z :=
  let! a := argfd 0 in
  match a with
  | None => ret err
  | Some (_, f) =>
      let! fd := fdalloc f in
      if fd <? 0 then ret err else
      do! filedup f in
      ret fd
  end.

Definition sys_read : M kernel Z :=
  let! p := argaddr 1 in
  let! n := argint 2 in
  let! a := argfd 0 in
  match a with
  | None => ret err
  | Some (_, f) => let! r := fileread f p n in ret (u64 r)
  end.

Definition sys_write : M kernel Z :=
  let! p := argaddr 1 in
  let! n := argint 2 in
  let! a := argfd 0 in
  match a with
  | None => ret err
  | Some (_, f) => let! r := filewrite f p n in ret (u64 r)
  end.

Definition sys_close : M kernel Z :=
  let! a := argfd 0 in
  match a with
  | None => ret err
  | Some (fd, f) =>
      do! set_ofile fd None in
      do! fileclose f in
      ret 0
  end.

Definition sys_fstat : M kernel Z :=
  let! st := argaddr 1 in
  let! a := argfd 0 in
  match a with
  | None => ret err
  | Some (_, f) => let! r := filestat f st in ret (u64 r)
  end.

(** The [bad] exit of [sys_link]. *)
Definition link_bad (ip : nat) : M kernel Z :=
  do! ilock (Some ip) in
  do! upd_inode ip (upd_i_nlink (fun n => s16 (n - 1))) in
  do! iupdate ip in
  do! iunlockput ip in
  do! end_op in
  ret err.

Definition sys_link : M kernel Z :=
  let! o := argstr 0 MAXPATH in
  let '(r, old) := o in
  if r <? 0 then ret err else
  let! nw := argstr 1 MAXPATH in
  let '(r, new) := nw in
  if r <? 0 then ret err else
  do! begin_op in
  let! ip := namei old in
  match ip with
  | None => do! end_op in ret err
  | Some ip =>
      do! ilock (Some ip) in
      let! x := get_inode ip in
      if i_type x =? T_DIR then
        do! iunlockput ip in do! end_op in ret err
      else
      do! upd_inode ip (upd_i_nlink (fun n => s16 (n + 1))) in
      do! iupdate ip in
      do! iunlock (Some ip) in
      let! d := nameiparent new in
      match d with
      | None => link_bad ip
      | Some (dp, name) =>
          do! ilock (Some dp) in
          let! dx := get_inode dp in
          let! x := get_inode ip in
          let! bad := (if negb (i_dev dx =? i_dev x) then ret true
                       else let! r := dirlink dp name (i_inum x) in ret (r <? 0)) in
          if bad : bool then do! iunlockput dp in link_bad ip else
          do! iunlockput dp in
          do! iput ip in
          do! end_op in
          ret 0
      end
  end.

Definition isdirempty (dp : nat) : M kernel bool :=
  while (fun off : Z =>
    let! d := get_inode dp in
    if off <? i_size d then
      let! r := readi dp DObj (u32 off) DIRENT_SIZE in
      let '(r, de) := r in
      if negb (r =? DIRENT_SIZE) then panic "isdirempty: readi" else
      if negb (de_inum de =? 0) then ret (inr false) else ret (inl (s32 (off + DIRENT_SIZE)))
    else ret (inr true)) (2 * DIRENT_SIZE).

Definition unlink_bad (dp : nat) : M kernel Z :=
  do! iunlockput dp in do! end_op in ret err.

Definition is_name (name : list Z) (s : string) : M kernel bool :=
  match namecmp name (bytes_of s ++ [0]) with
  | Some c => ret (c =? 0)
  | None => undef "namecmp"
  end.

Definition sys_unlink : M kernel Z :=
  let! a := argstr 0 MAXPATH in
  let '(r, path) := a in
  if r <? 0 then ret err else
  do! begin_op in
  let! d := nameiparent path in
  match d with
  | None => do! end_op in ret err
  | Some (dp, name) =>
      do! ilock (Some dp) in
      let! dot := is_name name "." in
      let! dotdot := (if dot : bool then ret true else is_name name "..") in
      if dotdot : bool then unlink_bad dp else
      let! r := dirlookup dp name in
      match r with
      | None => unlink_bad dp
      | Some (ip, off) =>
          do! ilock (Some ip) in
          let! x := get_inode ip in
          if i_nlink x <? 1 then panic "unlink: nlink < 1" else
          let! full := (if i_type x =? T_DIR then
                          let! e := isdirempty ip in ret (negb e) else ret false) in
          if full : bool then do! iunlockput ip in unlink_bad dp else
          let! w := writei dp (SObj (replicate (Z.to_nat DIRENT_SIZE) 0)) off DIRENT_SIZE in
          if negb (w =? DIRENT_SIZE) then panic "unlink: writei" else
          let! x := get_inode ip in
          do! when (i_type x =? T_DIR)
            (do! upd_inode dp (upd_i_nlink (fun n => s16 (n - 1))) in iupdate dp) in
          do! iunlockput dp in
          do! upd_inode ip (upd_i_nlink (fun n => s16 (n - 1))) in
          do! iupdate ip in
          do! iunlockput ip in
          do! end_op in
          ret 0
      end
  end.

(** The [fail] exit of [create]. *)
Definition create_fail (ip dp : nat) : M kernel (option nat) :=
  do! upd_inode ip (upd_i_nlink (set 0)) in
  do! iupdate ip in
  do! iunlockput ip in
  do! iunlockput dp in
  ret None.

Definition create (path : list Z) (type major minor : Z) : M kernel (option nat) :=
  let! d := nameiparent path in
  match d with
  | None => ret None
  | Some (dp, name) =>
      do! ilock (Some dp) in
      let! r := dirlookup dp name in
      match r with
      | Some (ip, _) =>
          do! iunlockput dp in
          do! ilock (Some ip) in
          let! x := get_inode ip in
          if (type =? T_FILE) && ((i_type x =? T_FILE) || (i_type x =? T_DEVICE)) then ret (Some ip)
          else do! iunlockput ip in ret None
      | None =>
          let! dx := get_inode dp in
          let! a := ialloc (i_dev dx) type in
          match a with
          | None => do! iunlockput dp in ret None
          | Some ip =>
              do! ilock (Some ip) in
              do! upd_inode ip (fun x => upd_i_nlink (set 1) (upd_i_minor (set (s16 minor))
                    (upd_i_major (set (s16 major)) x))) in
              do! iupdate ip in
              let! x := get_inode ip in
              let! dx := get_inode dp in
              let! bad :=
                (if type =? T_DIR then
                   let! r := dirlink ip (bytes_of "." ++ [0]) (i_inum x) in
                   if r <? 0 then ret true else
                   let! r := dirlink ip (bytes_of ".." ++ [0]) (i_inum dx) in
                   ret (r <? 0)
                 else ret false) in
              if bad : bool then create_fail ip dp else
              let! r := dirlink dp name (i_inum x) in
              if r <? 0 then create_fail ip dp else
              do! when (type =? T_DIR)
                (do! upd_inode dp (upd_i_nlink (fun n => s16 (n + 1))) in iupdate dp) in
              do! iunlockput dp in
              ret (Some ip)
          end
      end
  end.

(** The inode [sys_open] opens, locked. *)
Definition open_inode (path : list Z) (omode : Z) : M kernel (option nat) :=
  if bit omode O_CREATE then
    let! ip := create path T_FILE 0 0 in
    match ip with
    | None => do! end_op in ret None
    | Some ip => ret (Some ip)
    end
  else
    let! ip := namei path in
    match ip with
    | None => do! end_op in ret None
    | Some ip =>
        do! ilock (Some ip) in
        let! x := get_inode ip in
        if (i_type x =? T_DIR) && negb (omode =? O_RDONLY) then
          do! iunlockput ip in do! end_op in ret None
        else ret (Some ip)
    end.

Definition sys_open : M kernel Z :=
  let! omode := argint 1 in
  let! a := argstr 0 MAXPATH in
  let '(r, path) := a in
  if r <? 0 then ret err else
  do! begin_op in
  let! ip := open_inode path omode in
  match ip with
  | None => ret err
  | Some ip =>
      let! x := get_inode ip in
      if (i_type x =? T_DEVICE) && ((i_major x <? 0) || (NDEV <=? i_major x)) then
        do! iunlockput ip in do! end_op in ret err
      else
      let! f := filealloc in
      let! fd := (match f with None => ret (-1) | Some f => fdalloc f end) in
      match f with
      | Some f =>
          if fd <? 0 then
            do! fileclose f in
            do! iunlockput ip in do! end_op in ret err
          else
          do! (if i_type x =? T_DEVICE then
                 upd_file f (fun y => upd_f_major (set (i_major x)) (upd_f_type (set FD_DEVICE) y))
               else
                 upd_file f (fun y => upd_f_off (set 0) (upd_f_type (set FD_INODE) y))) in
          do! upd_file f (fun y =>
            upd_f_writable (set (bit omode O_WRONLY || bit omode O_RDWR))
              (upd_f_readable (set (negb (bit omode O_WRONLY))) (upd_f_ip (set (Some ip)) y))) in
          do! when (bit omode O_TRUNC && (i_type x =? T_FILE)) (itrunc ip) in
          do! iunlock (Some ip) in
          do! end_op in
          ret fd
      | None => do! iunlockput ip in do! end_op in ret err
      end
  end.

Definition sys_mkdir : M kernel Z :=
  do! begin_op in
  let! a := argstr 0 MAXPATH in
  let '(r, path) := a in
  let! ip := (if r <? 0 then ret None else create path T_DIR 0 0) in
  match ip with
  | None => do! end_op in ret err
  | Some ip => do! iunlockput ip in do! end_op in ret 0
  end.

Definition sys_mknod : M kernel Z :=
  do! begin_op in
  let! major := argint 1 in
  let! minor := argint 2 in
  let! a := argstr 0 MAXPATH in
  let '(r, path) := a in
  let! ip := (if r <? 0 then ret None else create path T_DEVICE major minor) in
  match ip with
  | None => do! end_op in ret err
  | Some ip => do! iunlockput ip in do! end_op in ret 0
  end.

Definition sys_chdir : M kernel Z :=
  let! i := myproc1 in
  do! begin_op in
  let! a := argstr 0 MAXPATH in
  let '(r, path) := a in
  let! ip := (if r <? 0 then ret None else namei path) in
  match ip with
  | None => do! end_op in ret err
  | Some ip =>
      do! ilock (Some ip) in
      let! x := get_inode ip in
      if negb (i_type x =? T_DIR) then
        do! iunlockput ip in do! end_op in ret err
      else
      do! iunlock (Some ip) in
      let! p := get_proc i in
      let! cwd := deref (p_cwd p) in
      do! iput cwd in
      do! end_op in
      do! upd_proc i (upd_p_cwd (set (Some ip))) in
      ret 0
  end.

(** The arguments of [exec], each in a page of its own: the pages taken, the
    strings, and whether the vector was complete. *)
Definition exec_argv (uargv : Z) : M kernel (list Z * list (list Z) * bool) :=
  while (fun st : Z * list Z * list (list Z) =>
    let '(i, pages, args) := st in
    if MAXARG <=? i then ret (inr (pages, args, false)) else
    let! a := fetchaddr (u64 (uargv + 8 * i)) in
    let '(r, uarg) := a in
    if r <? 0 then ret (inr (pages, args, false)) else
    if uarg =? 0 then ret (inr (pages, args, true)) else
    let! pg := lift kalloc in
    if pg =? 0 then ret (inr (pages, args, false)) else
    let! s := fetchstr uarg PGSIZE in
    let '(r, bs) := s in
    do! lift (copy_in pg bs) in
    if r <? 0 then ret (inr (pages ++ [pg], args, false)) else
    ret (inl (i + 1, pages ++ [pg], args ++ [bs]))) (0, [], []).

Definition sys_exec : M kernel Z :=
  let! uargv := argaddr 1 in
  let! a := argstr 0 MAXPATH in
  let '(r, path) := a in
  if r <? 0 then ret err else
  let! v := exec_argv uargv in
  let '(pages, args, ok) := v in
  let! r := (if ok : bool then let! r := exec path args in ret (u64 r) else ret err) in
  do! for_all pages (fun pg => lift (kfree pg)) in
  ret r.

Definition sys_pipe : M kernel Z :=
  let! i := myproc1 in
  let! fdarray := argaddr 0 in
  let! a := pipealloc in
  match a with
  | None => ret err
  | Some (rf, wf) =>
      let! fd0 := fdalloc rf in
      let! fd1 := (if fd0 <? 0 then ret (-1) else fdalloc wf) in
      if (fd0 <? 0) || (fd1 <? 0) then
        do! when (0 <=? fd0) (set_ofile fd0 None) in
        do! fileclose rf in
        do! fileclose wf in
        ret err
      else
      let! p := get_proc i in
      let! r0 := lift (copyout (p_pagetable p) fdarray (le_bytes 4 fd0)) in
      let! r1 := (if r0 <? 0 then ret (-1)
                  else lift (copyout (p_pagetable p) (u64 (fdarray + 4)) (le_bytes 4 fd1))) in
      if r1 <? 0 then
        do! set_ofile fd0 None in
        do! set_ofile fd1 None in
        do! fileclose rf in
        do! fileclose wf in
        ret err
      else ret 0
  end.
End sysfile.
