(* ===== verification/Virtio.v ===== *)
(** * The disk driver ([kernel/virtio_disk.c])

    The descriptor table and the two rings are pages of memory shared with
    the device, read and written at the offsets of [kernel/virtio.h]; the
    driver's own bookkeeping is [kvdisk]. The device itself is outside the
    kernel: it acts between the driver's steps (see [VirtioProps]). *)

From S2P Require Import Prelude Riscv Memory Machine Spinlock Kalloc Vm Kernel Cstring Printf Proc Bio.

(** ** [kernel/virtio.h] *)

Definition NUM : Z := 8.
Definition VIRTIO_MMIO_MAGIC_VALUE : Z := 0x000.
Definition VIRTIO_MMIO_VERSION : Z := 0x004.
Definition VIRTIO_MMIO_DEVICE_ID : Z := 0x008.
Definition VIRTIO_MMIO_VENDOR_ID : Z := 0x00c.
Definition VIRTIO_MMIO_DEVICE_FEATURES : Z := 0x010.
Definition VIRTIO_MMIO_DRIVER_FEATURES : Z := 0x020.
Definition VIRTIO_MMIO_QUEUE_SEL : Z := 0x030.
Definition VIRTIO_MMIO_QUEUE_NUM_MAX : Z := 0x034.
Definition VIRTIO_MMIO_QUEUE_NUM : Z := 0x038.
Definition VIRTIO_MMIO_QUEUE_READY : Z := 0x044.
Definition VIRTIO_MMIO_QUEUE_NOTIFY : Z := 0x050.
Definition VIRTIO_MMIO_INTERRUPT_STATUS : Z := 0x060.
Definition VIRTIO_MMIO_INTERRUPT_ACK : Z := 0x064.
Definition VIRTIO_MMIO_STATUS : Z := 0x070.
Definition VIRTIO_MMIO_QUEUE_DESC_LOW : Z := 0x080.
Definition VIRTIO_MMIO_QUEUE_DESC_HIGH : Z := 0x084.
Definition VIRTIO_MMIO_DRIVER_DESC_LOW : Z := 0x090.
Definition VIRTIO_MMIO_DRIVER_DESC_HIGH : Z := 0x094.
Definition VIRTIO_MMIO_DEVICE_DESC_LOW : Z := 0x0a0.
Definition VIRTIO_MMIO_DEVICE_DESC_HIGH : Z := 0x0a4.
Definition VIRTIO_CONFIG_S_ACKNOWLEDGE : Z := 1.
Definition VIRTIO_CONFIG_S_DRIVER : Z := 2.
Definition VIRTIO_CONFIG_S_DRIVER_OK : Z := 4.
Definition VIRTIO_CONFIG_S_FEATURES_OK : Z := 8.
(** The feature bits the driver turns off. *)
Definition features_off : list Z := [5; 7; 11; 12; 27; 29; 28].
Definition VRING_DESC_F_NEXT : Z := 1.
Definition VRING_DESC_F_WRITE : Z := 2.
Definition VIRTIO_BLK_T_IN : Z := 0.
Definition VIRTIO_BLK_T_OUT : Z := 1.

(** Link addresses of [disk.ops], [disk.info] and [bcache.buf]. *)
Class VirtioImage := { ops_base : Z; info_base : Z; buf_base : Z }.
Section addresses.
Context {VI : VirtioImage}.
(** [&disk.ops[i]], [&disk.info[i].status] and [b->data]. *)
Definition op_addr (i : Z) : Z := ops_base + 16 * i.
Definition status_addr (i : Z) : Z := info_base + 16 * i + 8.
Definition data_addr (b : nat) : Z := buf_base + 1112 * Z.of_nat b + 88.
End addresses.

(** Accesses to [n] bytes of shared memory. *)
Definition ldn (n : nat) (a : Z) : M machine Z := fun s =>
  if in_ram a (Z.of_nat n) then Ret (load_le (mem s) a n) s else Ub "load" s.
Definition stn (n : nat) (a v : Z) : M machine unit := fun s =>
  if in_ram a (Z.of_nat n) then Ret tt (set_mem (fun m => store_le m a n v) s) else Ub "store" s.

Definition vreg (r : Z) : M kernel Z := gets (fun k => default 0 (v_regs (kvdisk k) !! r)).
Definition set_vreg (r v : Z) : M kernel unit := modify (upd_kvdisk (upd_v_regs (<[r := u32 v]>))).
Definition upd_vd (f : vdisk -> vdisk) : M kernel unit := modify (upd_kvdisk f).

Section virtio.
Context {KI : KernelImage} {C : Config} {VI : VirtioImage}.

Definition virtio_disk_init : M kernel unit :=
  do! lift (initlock LkVdisk) in
  let! magic := vreg VIRTIO_MMIO_MAGIC_VALUE in
  let! version := vreg VIRTIO_MMIO_VERSION in
  let! devid := vreg VIRTIO_MMIO_DEVICE_ID in
  let! vendor := vreg VIRTIO_MMIO_VENDOR_ID in
  if negb (magic =? 0x74726976) || negb (version =? 2) || negb (devid =? 2) || negb (vendor =? 0x554d4551)
  then panic "could not find virtio disk" else
  do! set_vreg VIRTIO_MMIO_STATUS 0 in
  let status := VIRTIO_CONFIG_S_ACKNOWLEDGE in
  do! set_vreg VIRTIO_MMIO_STATUS status in
  let status := Z.lor status VIRTIO_CONFIG_S_DRIVER in
  do! set_vreg VIRTIO_MMIO_STATUS status in
  let! features := vreg VIRTIO_MMIO_DEVICE_FEATURES in
  let features := fold_left (fun f b => Z.land f (Z.lnot (Z.shiftl 1 b))) features_off features in
  do! set_vreg VIRTIO_MMIO_DRIVER_FEATURES features in
  let status := Z.lor status VIRTIO_CONFIG_S_FEATURES_OK in
  do! set_vreg VIRTIO_MMIO_STATUS status in
  let! status := vreg VIRTIO_MMIO_STATUS in
  if negb (bit status VIRTIO_CONFIG_S_FEATURES_OK) then panic "virtio disk FEATURES_OK unset" else
  do! set_vreg VIRTIO_MMIO_QUEUE_SEL 0 in
  let! ready := vreg VIRTIO_MMIO_QUEUE_READY in
  if nz ready then panic "virtio disk should not be ready" else
  let! max := vreg VIRTIO_MMIO_QUEUE_NUM_MAX in
  if max =? 0 then panic "virtio disk has no queue 0" else
  if max <? NUM then panic "virtio disk max queue too short" else
  let! desc := lift kalloc in
  let! avail := lift kalloc in
  let! used := lift kalloc in
  do! upd_vd (fun d => upd_v_used (set used) (upd_v_avail (set avail) (upd_v_desc (set desc) d))) in
  if (desc =? 0) || (avail =? 0) || (used =? 0) then panic "virtio disk kalloc" else
  do! lift (memset desc 0 PGSIZE) in
  do! lift (memset avail 0 PGSIZE) in
  do! lift (memset used 0 PGSIZE) in
  do! set_vreg VIRTIO_MMIO_QUEUE_NUM NUM in
  do! set_vreg VIRTIO_MMIO_QUEUE_DESC_LOW desc in
  do! set_vreg VIRTIO_MMIO_QUEUE_DESC_HIGH (Z.shiftr desc 32) in
  do! set_vreg VIRTIO_MMIO_DRIVER_DESC_LOW avail in
  do! set_vreg VIRTIO_MMIO_DRIVER_DESC_HIGH (Z.shiftr avail 32) in
  do! set_vreg VIRTIO_MMIO_DEVICE_DESC_LOW used in
  do! set_vreg VIRTIO_MMIO_DEVICE_DESC_HIGH (Z.shiftr used 32) in
  do! set_vreg VIRTIO_MMIO_QUEUE_READY 1 in
  do! upd_vd (upd_v_free (set (replicate (Z.to_nat NUM) true))) in
  set_vreg VIRTIO_MMIO_STATUS (Z.lor status VIRTIO_CONFIG_S_DRIVER_OK).

(** ** Descriptors *)

Definition vfree_get (i : Z) : M kernel bool :=
  let! d := gets kvdisk in arr_get "disk.free" (v_free d) i.

Definition alloc_desc : M kernel Z :=
  let! r := for_each (seqZ 0 NUM) tt (fun i _ =>
    let! f := vfree_get i in
    if f : bool then do! upd_vd (upd_v_free (<[Z.to_nat i := false]>)) in ret (inr i)
    else ret (inl tt)) in
  match r with inr i => ret i | inl _ => ret (-1) end.

(** [disk.desc[i]]: addr at 0, len at 8, flags at 12, next at 14. *)
Definition desc_at (i : Z) : M kernel Z := let! d := gets kvdisk in ret (v_desc d + 16 * i).
Definition desc_set (i addr len flags next : Z) : M kernel unit :=
  let! a := desc_at i in
  do! lift (stn 8 a addr) in
  do! lift (stn 4 (a + 8) len) in
  do! lift (stn 2 (a + 12) flags) in
  lift (stn 2 (a + 14) next).

Definition free_desc (i : Z) : M kernel unit :=
  if NUM <=? i then panic "free_desc 1" else
  let! f := vfree_get i in
  if f : bool then panic "free_desc 2" else
  do! desc_set i 0 0 0 0 in
  do! upd_vd (upd_v_free (<[Z.to_nat i := true]>)) in
  wakeup ChVdisk.

Definition free_chain (i : Z) : M kernel unit :=
  while (fun i : Z =>
    let! a := desc_at i in
    let! flag := lift (ldn 2 (a + 12)) in
    let! nxt := lift (ldn 2 (a + 14)) in
    do! free_desc i in
    if bit flag VRING_DESC_F_NEXT then ret (inl nxt) else ret (inr tt)) i.

(** The three indices, or [None] after giving back those it got. *)
Definition alloc3_desc : M kernel (option (list Z)) :=
  let! r := for_each (seqZ 0 3) [] (fun _ idx =>
    let! d := alloc_desc in
    if d <? 0 then do! for_all idx free_desc in ret (inr tt)
    else ret (inl (idx ++ [d]))) in
  match r with inl idx => ret (Some idx) | inr _ => ret None end.

(** ** Requests *)

Definition virtio_disk_rw (b : nat) (write : bool) : M kernel unit :=
  let! x := get_buf b in
  let sector := u32 (b_blockno x * (BSIZE / 512)) in
  do! lift (acquire LkVdisk) in
  let! idx := while (fun _ : unit =>
    let! r := alloc3_desc in
    match r with
    | Some idx => ret (inr idx)
    | None => do! sleep ChVdisk LkVdisk in ret (inl tt)
    end) tt in
  match idx with
  | [i0; i1; i2] =>
      do! upd_vd (upd_v_ops (<[Z.to_nat i0 :=
            mk_vop (if write then VIRTIO_BLK_T_OUT else VIRTIO_BLK_T_IN) 0 sector]>)) in
      do! desc_set i0 (op_addr i0) 16 VRING_DESC_F_NEXT i1 in
      do! desc_set i1 (data_addr b) BSIZE
            (Z.lor (if write then 0 else VRING_DESC_F_WRITE) VRING_DESC_F_NEXT) i2 in
      do! upd_vd (upd_v_info (alter (upd_vi_status (set 0xff)) (Z.to_nat i0))) in
      do! desc_set i2 (status_addr i0) 1 VRING_DESC_F_WRITE 0 in
      do! upd_buf b (upd_b_disk (set true)) in
      do! upd_vd (upd_v_info (alter (upd_vi_b (set (Some b))) (Z.to_nat i0))) in
      let! d := gets kvdisk in
      let! ix := lift (ldn 2 (v_avail d + 2)) in
      do! lift (stn 2 (v_avail d + 4 + 2 * (ix mod NUM)) i0) in
      let! ix := lift (ldn 2 (v_avail d + 2)) in
      do! lift (stn 2 (v_avail d + 2) (u16 (ix + 1))) in
      do! set_vreg VIRTIO_MMIO_QUEUE_NOTIFY 0 in
      do! while (fun _ : unit =>
        let! x := get_buf b in
        if b_disk x then do! sleep (ChBuf b) LkVdisk in ret (inl tt)
        else ret (inr tt)) tt in
      do! upd_vd (upd_v_info (alter (upd_vi_b (set None)) (Z.to_nat i0))) in
      do! free_chain i0 in
      lift (release LkVdisk)
  | _ => undef "idx"
  end.

Definition virtio_disk_intr : M kernel unit :=
  do! lift (acquire LkVdisk) in
  let! st := vreg VIRTIO_MMIO_INTERRUPT_STATUS in
  do! set_vreg VIRTIO_MMIO_INTERRUPT_ACK (Z.land st 3) in
  do! while (fun _ : unit =>
    let! d := gets kvdisk in
    let! uidx := lift (ldn 2 (v_used d + 2)) in
    if v_used_idx d =? uidx then ret (inr tt) else
    let! id := lift (ldn 4 (v_used d + 4 + 8 * (v_used_idx d mod NUM))) in
    let! info := arr_get "disk.info" (v_info d) id in
    if negb (vi_status info =? 0) then panic "virtio_disk_intr status" else
    let! b := deref (vi_b info) in
    do! upd_buf b (upd_b_disk (set false)) in
    do! wakeup (ChBuf b) in
    do! upd_vd (upd_v_used_idx (fun n => u16 (n + 1))) in
    ret (inl tt)) tt in
  lift (release LkVdisk).

Definition virtio_device : BlockDevice := {| disk_rw := virtio_disk_rw |}.
End virtio.
