(* ===== verification/Trap.v ===== *)
(** * Dispatch of system calls, traps and interrupts ([syscall] of
    [kernel/syscall.c], [kernel/trap.c], [kernel/plic.c]) *)

From S2P Require Import Prelude Riscv Memory Machine Spinlock Kalloc Vm Kernel Cstring Printf Proc Sleeplock.
From S2P Require Import Bio Log Fs Uart Console Pipe File ProcFs Syscall Exec Sysfile Virtio.

(** ** The interrupt controller *)

Definition PLIC_SENABLE (hart : Z) : Z := PLIC + 0x2080 + hart * 0x100.
Definition PLIC_SPRIORITY (hart : Z) : Z := PLIC + 0x201000 + hart * 0x2000.
Definition PLIC_SCLAIM (hart : Z) : Z := PLIC + 0x201004 + hart * 0x2000.
Definition plic_write (a v : Z) : M kernel unit := modify (upd_kplic (upd_plic_regs (<[a := v]>))).

Definition plicinit : M kernel unit :=
  do! plic_write (PLIC + UART0_IRQ * 4) 1 in
  plic_write (PLIC + VIRTIO0_IRQ * 4) 1.

Definition plicinithart : M kernel unit :=
  let! hart := lift cpuid in
  do! plic_write (PLIC_SENABLE hart) (Z.lor (Z.shiftl 1 UART0_IRQ) (Z.shiftl 1 VIRTIO0_IRQ)) in
  plic_write (PLIC_SPRIORITY hart) 0.

(** Reading the claim register takes the next pending interrupt, or 0. *)
Definition plic_claim : M kernel Z := fun k =>
  match plic_pending (kplic k) with
  | irq :: rest => Ret irq (upd_kplic (upd_plic_pending (set rest)) k)
  | [] => Ret 0 k
  end.
Definition plic_complete (irq : Z) : M kernel unit :=
  let! hart := lift cpuid in plic_write (PLIC_SCLAIM hart) irq.

(** ** System calls *)

(** [syscall_info]: name and number of arguments, from call 1 on. *)
Definition syscall_info : list (string * Z) :=
  [("fork", 0); ("exit", 1); ("wait", 1); ("pipe", 0); ("read", 3); ("kill", 2); ("exec", 2);
   ("fstat", 1); ("chdir", 1); ("dup", 1); ("getpid", 0); ("sbrk", 1); ("sleep", 1); ("uptime", 0);
   ("open", 2); ("write", 3); ("mknod", 3); ("unlink", 1); ("link", 2); ("mkdir", 1); ("close", 1);
   ("trace", 1); ("sigalarm", 2); ("setpriority", 2); ("settickets", 1); ("waitx", 3);
   ("sigreturn", 0)]%string.

Section trap.
Context {KI : KernelImage} {C : Config} {D : BlockDevice} {TI : TrapImage} {VI : VirtioImage}.
(** What the uninitialised locals of [sys_waitx] hold. *)
Context (wtime0 rtime0 : Z).

(** [syscalls[num]] *)
Definition syscalls (num : Z) : option (M kernel Z) :=
  match num with
  | 1 => Some sys_fork | 2 => Some sys_exit | 3 => Some sys_wait | 4 => Some sys_pipe
  | 5 => Some sys_read | 6 => Some sys_kill | 7 => Some sys_exec | 8 => Some sys_fstat
  | 9 => Some sys_chdir | 10 => Some sys_dup | 11 => Some sys_getpid | 12 => Some sys_sbrk
  | 13 => Some sys_sleep | 14 => Some sys_uptime | 15 => Some sys_open | 16 => Some sys_write
  | 17 => Some sys_mknod | 18 => Some sys_unlink | 19 => Some sys_link | 20 => Some sys_mkdir
  | 21 => Some sys_close | 22 => Some sys_trace | 23 => Some sys_sigalarm
  | 24 => Some sys_setpriority | 25 => Some sys_settickets
  | 26 => Some (sys_waitx wtime0 rtime0) | 27 => Some sys_sigreturn
  | _ => None
  end.

(** The line printed for a traced call. *)
Definition trace_line (i : nat) (num : Z) (args : list Z) : M kernel unit :=
  let '(name, _) := default (EmptyString, 0) (syscall_info !! Z.to_nat (num - 1)) in
  let! p := get_proc i in
  do! printf "%d: syscall %s " [AInt (p_pid p); AStr (Some (bytes_of name))] in
  do! printf "(" [] in
  do! for_all args (fun a => printf "%d " [AInt a]) in
  do! printf ")" [] in
  let! a0 := tf_get i TF_a0 in
  printf (" -> %d" ++ nl) [AInt (s32 a0)].

Definition syscall : M kernel unit :=
  let! i := myproc1 in
  let! a7 := tf_get i TF_a7 in
  let num := s32 a7 in
  match (if (0 <? num) && (num <? 28) then syscalls num else None) with
  | Some f =>
      let numargs := snd (default (EmptyString, 0) (syscall_info !! Z.to_nat (num - 1))) in
      let! r := for_each (R := unit) (seqZ 0 numargs) [] (fun j args =>
        let! x := argraw j in ret (inl (args ++ [s32 x]))) in
      let args := match r with inl args => args | inr _ => [] end in
      let shift := Z.shiftl 1 num in
      let! r := f in
      do! tf_set i TF_a0 r in
      let! p := get_proc i in
      when (bit (p_mask p) shift) (trace_line i num args)
  | None =>
      let! p := get_proc i in
      do! printf ("%d %s: unknown sys call %d" ++ nl)
            [AInt (p_pid p); AStr (Some (cstr (p_name p))); AInt num] in
      tf_set i TF_a0 (u64 (-1))
  end.

(** ** Interrupts *)

Definition trapinit : M kernel unit := lift (initlock LkTicks).
Definition trapinithart : M kernel unit := upd_csr (upd_r_stvec (set kernelvec)).

Definition clockintr : M kernel unit :=
  do! lift (acquire LkTicks) in
  do! modify (upd_ticks (fun t => u32 (t + 1))) in
  do! upd_time in
  do! wakeup ChTicks in
  lift (release LkTicks).

Definition devintr : M kernel Z :=
  let! c := get_csr in
  let scause := r_scause c in
  if bit scause 0x8000000000000000 && (Z.land scause 0xff =? 9) then
    let! irq := plic_claim in
    do! (if irq =? UART0_IRQ then uartintr
         else if irq =? VIRTIO0_IRQ then virtio_disk_intr
         else if nz irq then printf ("unexpected interrupt irq=%d" ++ nl) [AInt irq]
         else ret tt) in
    do! when (nz irq) (plic_complete irq) in
    ret 1
  else if scause =? 0x8000000000000001 then
    let! id := lift cpuid in
    do! when (id =? 0) clockintr in
    do! upd_csr (upd_r_sip (fun s => Z.land s (Z.lnot 2))) in
    ret 2
  else ret 0.

(** ** Traps *)

(** MLFQ: a tick of the running process against its slice; when the slice is
    used up the process goes down a level and must yield. *)
Definition mlfq_charge (i : nat) : M kernel bool :=
  do! upd_proc i (upd_p_ticks_elapsed (fun t => s32 (t + 1))) in
  let! p := get_proc i in
  if p_ass_ticks p <=? p_ticks_elapsed p then
    do! upd_proc i (upd_p_ticks_elapsed (set 0)) in
    do! when (p_priority_level p <? 4)
      (upd_proc i (fun p => upd_p_ass_ticks (fun t => s32 (t * 2))
         (upd_p_priority_level (fun l => s32 (l + 1)) p))) in
    ret true
  else ret false.

(** A timer tick charged to the running process, and whether it must yield. *)
Definition tick_yield (i : nat) : M kernel unit :=
  match policy with
  | DEFAULT => yield
  | LBS =>
      do! upd_proc i (upd_p_time_spent (fun t => s32 (t + 1))) in
      let! p := get_proc i in
      when (p_time_avail p <=? p_time_spent p)
        (do! upd_proc i (upd_p_time_spent (set 0)) in yield)
  | MLFQ => let! out := mlfq_charge i in when out yield
  | FCFS | PBS => ret tt
  end.

Definition usertrap : M kernel Z :=
  let! c := get_csr in
  if r_spp c then panic "usertrap: not from user mode" else
  do! upd_csr (upd_r_stvec (set kernelvec)) in
  let! i := myproc1 in
  do! tf_set i TF_epc (r_sepc c) in
  let! which_dev :=
    (if r_scause c =? 8 then
       let! p := get_proc i in
       do! when (nz (p_killed p)) (exit (-1)) in
       let! epc := tf_get i TF_epc in
       do! tf_set i TF_epc (u64 (epc + 4)) in
       do! lift intr_on in
       do! syscall in
       ret 0
     else if r_scause c =? 15 then
       let addr := r_stval c in
       let! sp := tf_get i TF_sp in
       do! when ((MAXVA <=? addr) || ((addr <? sp) && (u64 (sp - PGSIZE) <=? addr))) (setkilled i) in
       let! p := get_proc i in
       let! r := lift (cowalloc (p_pagetable p) (PGROUNDDOWN addr)) in
       do! when (r <? 0) (setkilled i) in
       ret 0
     else
       let! d := devintr in
       if nz d then ret d else
       let! c := get_csr in
       let! p := get_proc i in
       do! printf ("usertrap(): unexpected scause %p pid=%d" ++ nl) [APtr (r_scause c); AInt (p_pid p)] in
       do! printf ("            sepc=%p stval=%p" ++ nl) [APtr (r_sepc c); APtr (r_stval c)] in
       do! setkilled i in
       ret 0) in
  let! k := killed i in
  do! when (nz k) (exit (-1)) in
  do! when (which_dev =? 2) (tick_yield i) in
  usertrapret.

Definition kerneltrap : M kernel unit :=
  let! c0 := get_csr in
  if negb (r_spp c0) then panic "kerneltrap: not from supervisor mode" else
  let! on := lift intr_get in
  if on : bool then panic "kerneltrap: interrupts enabled" else
  let! which_dev := devintr in
  if which_dev =? 0 then
    do! printf ("scause %p" ++ nl) [APtr (r_scause c0)] in
    let! c := get_csr in
    do! printf ("sepc=%p stval=%p" ++ nl) [APtr (r_sepc c); APtr (r_stval c)] in
    panic "kerneltrap"
  else
  do! when (which_dev =? 2)
    (let! me := myproc in
     match me with
     | None => ret tt
     | Some i =>
         let! p := get_proc i in
         when (bool_decide (p_state p = RUNNING)) (tick_yield i)
     end) in
  upd_csr (fun c => upd_r_spp (set (r_spp c0)) (upd_r_spie (set (r_spie c0)) (upd_r_sepc (set (r_sepc c0)) c))).
End trap.
