(* ===== verification/Boot.v ===== *)
(** * Booting ([kernel/main.c], [kernel/start.c], [kvminit] and
    [kvminithart] of [kernel/vm.c]) *)

From S2P Require Import Prelude Riscv Memory Machine Spinlock Kalloc Vm Kernel Cstring Printf Proc Sched.
From S2P Require Import Sleeplock Bio Log Fs Uart Console File ProcFs Virtio Trap.

(** ** Machine mode ([kernel/start.c]) *)

Definition MSTATUS_MPP_MASK : Z := Z.shiftl 3 11.
Definition MSTATUS_MPP_S : Z := Z.shiftl 1 11.
Definition MSTATUS_MIE : Z := Z.shiftl 1 3.
Definition MIE_MTIE : Z := Z.shiftl 1 7.
Definition SIE_SEIE : Z := Z.shiftl 1 9.
Definition SIE_STIE : Z := Z.shiftl 1 5.
Definition SIE_SSIE : Z := Z.shiftl 1 1.
Definition CLINT : Z := 0x2000000.
Definition CLINT_MTIMECMP (hartid : Z) : Z := CLINT + 0x4000 + 8 * hartid.
Definition CLINT_MTIME : Z := CLINT + 0xBFF8.

(** The registers [start] sets, and the timer's memory-mapped ones. *)
Record mregs := mk_mregs {
  mstatus : Z; mepc : Z; msatp : Z; medeleg : Z; mideleg : Z; msie : Z; pmpaddr0 : Z; pmpcfg0 : Z;
  mscratch : Z; mtvec : Z; mie : Z; mtp : Z; clint : gmap Z Z; timer_scratch : gmap (Z * Z) Z }.

(** Link addresses of [main], [timervec] and [timer_scratch]. *)
Class StartImage := { main_addr : Z; timervec : Z; timer_scratch_addr : Z }.

Section start.
Context {SI : StartImage}.

Definition timerinit (mhartid : Z) (r : mregs) : mregs :=
  let interval := 1000000 in
  let cmp := u64 (default 0 (clint r !! CLINT_MTIME) + interval) in
  mk_mregs (Z.lor (mstatus r) MSTATUS_MIE) (mepc r) (msatp r) (medeleg r) (mideleg r) (msie r)
    (pmpaddr0 r) (pmpcfg0 r)
    (timer_scratch_addr + 40 * mhartid) timervec (Z.lor (mie r) MIE_MTIE) (mtp r)
    (<[CLINT_MTIMECMP mhartid := cmp]> (clint r))
    (<[(mhartid, 4) := interval]> (<[(mhartid, 3) := CLINT_MTIMECMP mhartid]> (timer_scratch r))).

Definition start (mhartid : Z) (r : mregs) : mregs :=
  let x := Z.lor (Z.land (mstatus r) (Z.lnot MSTATUS_MPP_MASK)) MSTATUS_MPP_S in
  let r := mk_mregs x main_addr 0 0xffff 0xffff
             (Z.lor (Z.lor (Z.lor (msie r) SIE_SEIE) SIE_STIE) SIE_SSIE) 0x3fffffffffffff 0xf
             (mscratch r) (mtvec r) (mie r) (mtp r) (clint r) (timer_scratch r) in
  let r := timerinit mhartid r in
  mk_mregs (mstatus r) (mepc r) (msatp r) (medeleg r) (mideleg r) (msie r) (pmpaddr0 r) (pmpcfg0 r)
    (mscratch r) (mtvec r) (mie r) mhartid (clint r) (timer_scratch r).
End start.

(** ** Supervisor mode *)

Section main.
Context {KI : KernelImage} {C : Config} {D : BlockDevice} {TI : TrapImage} {VI : VirtioImage}.

Definition kvminit : M kernel unit :=
  let! pt := lift kvmmake in modify (upd_kernel_pagetable (set pt)).

Definition kvminithart : M kernel unit :=
  let! pt := gets kernel_pagetable in upd_csr (upd_r_satp (set (MAKE_SATP pt))).

(** What hart 0 does before it enters the scheduler. *)
Definition boot : M kernel unit :=
  do! consoleinit in
  do! printfinit in
  do! printf nl [] in
  do! printf ("xv6 kernel is booting" ++ nl) [] in
  do! printf nl [] in
  do! lift kinit in
  do! kvminit in
  do! kvminithart in
  do! procinit in
  do! trapinit in
  do! trapinithart in
  do! plicinit in
  do! plicinithart in
  do! binit in
  do! iinit in
  do! fileinit in
  do! virtio_disk_init in
  do! userinit in
  modify (upd_started (set true)).

(** [while(started == 0) ;] spins until hart 0 has finished. *)
Definition boot_other : M kernel unit :=
  let! s := gets started in
  if negb s then spin else
  let! id := lift cpuid in
  do! printf ("hart %d starting" ++ nl) [AInt id] in
  do! kvminithart in
  do! trapinithart in
  plicinithart.

Definition main : M kernel unit :=
  let! id := lift cpuid in
  do! (if id =? 0 then boot else boot_other) in
  scheduler.
End main.
