(* ===== verification/SchedSpec.v ===== *)
(** * What the schedulers guarantee

    Round robin: every process that stays runnable is run in each pass. MLFQ:
    the queue level, the time slice and the counters of every process stay
    consistent under everything that changes them. *)

From S2P Require Import Prelude Riscv Memory Machine Spinlock Kalloc Vm Kernel Klock KSample Cstring Printf Proc Sched ProcSpec Trap.
From Stdlib Require Import Sorting.Sorted.

Section robin.
Context {KI : KernelImage} {C : Config}.

(** ** Round robin *)

(** [env i s]: what is left when process [i], switched to in [s], gives the
    CPU back. [drive] runs a scheduler against it; the result is the switches
    made, in order, and the final state. *)
Fixpoint drive (env : nat -> kernel -> kernel) (fuel : nat) (r : res kernel unit) : option (list (nat * kernel) * kernel) :=
  match r with
  | Ret _ s => Some ([], s)
  | Swtch s cont =>
      match fuel, c_proc (cpu_of (mach s)) with
      | S fuel', Some i =>
          match drive env fuel' (cont (env i s)) with
          | Some (tr, s') => Some ((i, s) :: tr, s')
          | None => None
          end
      | _, _ => None
      end
  | _ => None
  end.

(** The scheduler's hart between two processes. *)
Definition idle (h : Z) (k : kernel) : Prop := table_ok None k /\ tp (mach k) = h /\ c_proc (cpu_of (mach k)) = None.

(** The state in which a process hands the CPU back: holding its own lock. *)
Definition back (h : Z) (i : nat) (k : kernel) : kernel := upd_mach (on_cpu h i) (upd_mach (acquired (LkProc i)) k).

Definition runnable (k : kernel) (i : nat) : Prop := exists p, procs k !! i = Some p /\ p_state p = RUNNABLE.

(** A process gives the CPU back with its lock held, as [sched] does, and
    while it runs nothing takes the runnable processes after it away. *)
Definition gives_back (h : Z) (env : nat -> kernel -> kernel) : Prop :=
  forall i p k, idle h k -> procs k !! i = Some p -> exists k2, env i (running h i p k) = back h i k2 /\ idle h k2 /\
    forall j, (i < j)%nat -> runnable k j -> runnable k2 j.

(** At a switch to [i] the process is [RUNNING], its lock held, and the hart's
    [proc] set. *)
Definition good_switch (x : nat * kernel) : Prop :=
  c_proc (cpu_of (mach (snd x))) = Some (fst x) /\ held (mach (snd x)) (LkProc (fst x)) /\
  exists p, procs (snd x) !! fst x = Some p /\ p_state p = RUNNING.

Lemma cpu_on_cpu h i s : tp s = h -> cpu_of (on_cpu h i s) = with_proc (Some i) (cpu_of s).
Proof. intros E. unfold cpu_of, on_cpu. cbn [tp cpus set_cpus]. rewrite E. by rewrite lookup_insert_eq. Qed.

Lemma running_good h i p k : idle h k -> procs k !! i = Some p -> good_switch (i, running h i p k).
Proof.
  intros (_ & Htp & _) Hp. unfold good_switch, running. cbn [fst snd]. kcbn. split_and!.
  - rewrite cpu_on_cpu by done. done.
  - unfold held. cbn. by rewrite lookup_insert_eq.
  - exists (upd_p_state (set RUNNING) p). split; [|done]. rewrite list_lookup_insert_eq; [done|]. by eapply lookup_lt_Some.
Qed.

(** After the switch: [c->proc = 0], the lock released. *)
Lemma rest_back h i k2 : idle h k2 -> (i < NPROC)%nat ->
  default_rest h i (back h i k2) = for_all (seq (S i) (NPROC - S i)) (default_body h) (upd_mach touch k2).
Proof.
  intros ([Hlen Hc Hl] & Htp & Hnone) Hi. unfold default_rest, bind at 1, set_cpu_proc. erewrite lift_eq by done. cbn [rbind].
  set (k3 := upd_mach _ _). assert (E : k3 = upd_mach (acquired (LkProc i)) k2).
  { unfold k3, back, upd_mach. kcbn. f_equal. unfold on_cpu, acquired, set_cpus, set_locks, upd_cpu, set_cpus. cbn.
    rewrite <- Htp. f_equal. rewrite !lookup_insert_eq. cbn. rewrite !insert_insert_eq. f_equal.
    unfold with_proc, pushed_cpu. cbn. by rewrite Hnone. }
  rewrite E. unfold bind at 1. rewrite (krelease_eq k2); [|split; [by apply Hl|done]|done]. cbn [rbind]. done.
Qed.

Definition ordered (tr : list (nat * kernel)) : Prop := StronglySorted lt tr.*1.

(** The pass from slot [j] on. *)
Lemma drive_from h env : gives_back h env -> forall n j k st fuel,
  idle h k -> (j + n = NPROC)%nat -> st = k \/ st = upd_mach touch k -> (n <= fuel)%nat ->
  exists tr s', drive env fuel (for_all (seq j n) (default_body h) st) = Some (tr, s') /\
    Forall good_switch tr /\ ordered tr /\ Forall (fun i => (j <= i)%nat) tr.*1 /\
    (forall i, (j <= i < NPROC)%nat -> runnable k i -> i ∈ tr.*1).
Proof.
  intros Henv n. induction (lt_wf n) as [n _ IH]. intros j k st fuel Hk Hn Hst Hf.
  pose proof (default_from h k n j st (proj1 Hk) Hn Hst) as H.
  destruct (list_find _ (drop j (procs k))) as [[i p]|] eqn:Ef.
  - destruct H as (cont & E & Hcont). apply list_find_Some in Ef as (Hp & HR & Hfirst). rewrite lookup_drop in Hp.
    pose proof (lookup_lt_Some _ _ _ Hp) as Hlt. rewrite (tk_len _ _ (proj1 Hk)) in Hlt.
    destruct (Henv (j + i)%nat p k Hk Hp) as (k2 & Eenv & Hk2 & Hkeep).
    destruct fuel as [|fuel]; [lia|].
    destruct (IH (NPROC - S (j + i))%nat ltac:(lia) (S (j + i)) k2 (upd_mach touch k2) fuel Hk2) as (tr & s' & Ed & Hg & Ho & Hge & Hall);
      [lia|by right|lia|].
    destruct (running_good h (j + i) p k Hk Hp) as (Hcp & Hrest). cbn [fst snd] in Hcp.
    exists ((j + i, running h (j + i) p k)%nat :: tr), s'. split_and!.
    + rewrite E. cbn [drive]. rewrite Hcp, Hcont, Eenv, rest_back by (done || lia). by rewrite Ed.
    + constructor; [by split|done].
    + constructor; [done|]. eapply Forall_impl; [|exact Hge]. simpl. lia.
    + cbn. constructor; [lia|]. eapply Forall_impl; [|exact Hge]. simpl. lia.
    + intros i' Hi' Hr. cbn. destruct (decide (i' = (j + i)%nat)) as [->|Hne]; [left|right].
      destruct (decide (i' < j + i)%nat) as [Hlt'|Hge'].
      * exfalso. destruct Hr as (q & Hq & HRq). apply (Hfirst (i' - j)%nat q); [|lia|done].
        rewrite lookup_drop. by replace (j + (i' - j))%nat with i' by lia.
      * apply Hall; [lia|]. apply Hkeep; [lia|done].
  - rewrite H. exists [], (if decide (n = 0%nat) then st else upd_mach touch k). split_and!; [by destruct fuel|done|constructor|constructor|].
    intros i Hi (q & Hq & HR). apply list_find_None in Ef. rewrite list.Forall_forall in Ef.
    exfalso. apply (Ef q); [|done]. apply list_elem_of_lookup. exists (i - j)%nat. rewrite lookup_drop.
    by replace (j + (i - j))%nat with i by lia.
Qed.
End robin.


(** ** MLFQ *)

Section mlfq.
Context {KI : KernelImage} {C : Config} (Hpol : policy = MLFQ).

(** A process is in one of the five queues, its slice is the one of its queue,
    and it has a counter per queue. *)
Definition mlfq_ok (p : proc) : Prop :=
  0 <= p_priority_level p <= 4 /\ p_ass_ticks p = 2 ^ p_priority_level p /\ length (p_queue_ticks p) = 5%nat.
(** A slot not in use has no slice yet. *)
Definition slot_ok (p : proc) : Prop := p_state p = UNUSED \/ mlfq_ok p.
Definition mlfq_table (k : kernel) : Prop := Forall slot_ok (procs k).

Lemma ifdef_mlfq : ifdef MLFQ = true /\ ifdef LBS = false.
Proof using Hpol. unfold ifdef. rewrite Hpol. done. Qed.

Lemma init_slot_ok pid now p : mlfq_ok (init_slot pid now p).
Proof using Hpol. unfold init_slot. rewrite (proj1 ifdef_mlfq). split_and!; simpl; done || lia. Qed.
Lemma aged_ok p : slot_ok p -> slot_ok (aged p).
Proof using.
  unfold aged. destruct (_ && _) eqn:E; [|done]. intros [Hu|(Hl & Ha & Hq)].
  - rewrite Hu in E. done.
  - right. apply andb_true_iff in E as [_ E]. zbool. unfold mlfq_ok. simpl. rewrite s32_small by lia.
    split_and!; [lia|lia| |done]. rewrite Ha.
    replace (p_priority_level p) with (Z.succ (p_priority_level p - 1)) at 1 by lia.
    by rewrite Z.pow_succ_r, Z.mul_comm, Z.quot_mul by lia.
Qed.
Lemma ticked_ok p : p_state p = RUNNING -> slot_ok p -> slot_ok (ticked p).
Proof using Hpol.
  intros Hr [Hu|(Hl & Ha & Hq)]; [congruence|]. right. unfold ticked. destruct ifdef_mlfq as [-> ->].
  split_and!; simpl; [lia|lia|done|]. by rewrite length_alter.
Qed.
Lemma woken_ok now p : p_state p = SLEEPING -> slot_ok p -> slot_ok (woken now p).
Proof using Hpol.
  intros Hs [Hu|H]; [congruence|]. right. unfold woken. destruct ifdef_mlfq as [-> ->]. by case_match.
Qed.
Lemma kill_victim_ok now p : slot_ok p -> slot_ok (kill_victim now p).
Proof using Hpol.
  unfold kill_victim. destruct ifdef_mlfq as [-> ->]. simpl. case_bool_decide as Hs; [|done].
  intros [Hu|H]; [congruence|by right].
Qed.

(** ** The operations, on the table *)

Lemma upd_time_eq k : table_ok None k -> mlfq_table k ->
  upd_time k = Ret tt (upd_procs (imap (fun _ p => if bool_decide (p_state p = RUNNING) then ticked p else p)) (upd_mach touch k)).
Proof using Hpol.
  intros Hok Hm. unfold upd_time. apply for_procs; [apply Hok|]. intros i p st Hi Hk Hp Ht _.
  erewrite (locked_step None k st i p (if bool_decide (p_state p = RUNNING) then ticked p else p)); try done.
  intros st' Hp' _. case_bool_decide as Hr; unfold when.
  - assert (Hs : slot_ok p) by (by eapply Forall_lookup_1). destruct Hs as [Hu|(Hl & _)]; [congruence|].
    rewrite (proj1 ifdef_mlfq), (proj2 (Z.leb_le 0 _)), (proj2 (Z.ltb_lt _ 5)) by lia. simpl.
    unfold upd_proc, idx_upd. by rewrite Hp'.
  - unfold ret. f_equal. unfold upd_procs. rewrite list_insert_id by done. by destruct st'.
Qed.

Lemma aging_from n j k : (j + n = length (procs k))%nat ->
  for_all (seq j n) (fun i => upd_proc i aged) k = Ret tt (upd_procs (fun ps => take j ps ++ map aged (drop j ps)) k).
Proof using.
  revert j k. induction n as [|n IH]; intros j k Hn; cbn [seq for_all].
  - unfold ret. f_equal. unfold upd_procs. rewrite drop_ge, take_ge by lia. rewrite app_nil_r. by destruct k.
  - destruct (lookup_lt_is_Some_2 (procs k) j) as [p Hp]; [lia|].
    erewrite bind_ret by (unfold upd_proc, idx_upd; by rewrite Hp).
    rewrite IH by (unfold upd_procs; kcbn; rewrite length_insert; lia). f_equal. unfold upd_procs. kcbn. f_equal.
    rewrite (drop_S _ p j Hp). rewrite (take_S_r _ j (aged p)) by (rewrite list_lookup_insert_eq; [done|lia]).
    rewrite take_insert_ge, drop_insert_lt by lia. rewrite <- app_assoc. done.
Qed.
Lemma aging_check_eq k : length (procs k) = NPROC -> aging_check k = Ret tt (upd_procs (map aged) k).
Proof using. intros Hl. unfold aging_check, all_procs. rewrite aging_from by done. done. Qed.

Lemma mlfq_charge_ok i k p : procs k !! i = Some p -> exists b p', mlfq_charge i k = Ret b (upd_procs (<[i := p']>) k) /\
  p_state p' = p_state p /\ (mlfq_ok p -> mlfq_ok p').
Proof using.
  intros Hp. pose proof (lookup_lt_Some _ _ _ Hp) as Hlt. unfold mlfq_charge.
  erewrite bind_ret by (unfold upd_proc, idx_upd; by rewrite Hp).
  set (p1 := upd_p_ticks_elapsed _ p). set (k1 := upd_procs _ k).
  assert (Hp1 : procs k1 !! i = Some p1) by (unfold k1; kcbn; by rewrite list_lookup_insert_eq).
  erewrite bind_ret by (unfold get_proc, idx_get; by rewrite Hp1).
  destruct (_ <=? _) eqn:E.
  2: { exists false, p1. split; [done|]. done. }
  erewrite bind_ret by (unfold upd_proc, idx_upd; by rewrite Hp1).
  set (p2 := upd_p_ticks_elapsed _ p1). set (k2 := upd_procs _ k1).
  assert (Hp2 : procs k2 !! i = Some p2).
  { unfold k2, k1. kcbn. rewrite list_lookup_insert_eq; [done|]. by rewrite length_insert. }
  destruct (Z.ltb_spec (p_priority_level p1) 4) as [H4|H4]; unfold when.
  - erewrite bind_ret by (unfold upd_proc, idx_upd; by rewrite Hp2). eexists true, _. split.
    { unfold ret. f_equal. unfold k2, k1, upd_procs. kcbn. by rewrite !list_insert_insert_eq. }
    split; [done|]. intros (Hl & Ha & Hq). unfold mlfq_ok. simpl in *. rewrite Ha.
    assert (2 ^ p_priority_level p <= 2 ^ 3) by (apply Z.pow_le_mono_r; lia).
    assert (0 < 2 ^ p_priority_level p) by (apply Z.pow_pos_nonneg; lia).
    rewrite !s32_small by lia. split_and!; [lia|lia| |done]. rewrite Z.pow_add_r by lia. lia.
  - unfold bind, ret. cbn [rbind]. exists true, p2. split; [|done]. f_equal. unfold k2, k1, upd_procs. kcbn.
    by rewrite list_insert_insert_eq.
Qed.

(** Everything that changes the scheduling fields of processes: aging, a clock
    tick, charging the running process, [wakeup], [kill], and the
    initialisation of a slot by [allocproc]. *)
Inductive mop := MAge | MTick | MCharge (i : nat) | MWake (chan : channel) | MKill (pid : Z) | MInit (i : nat) (pid : Z).

Definition mop_run (op : mop) : M kernel unit :=
  match op with
  | MAge => aging_check
  | MTick => upd_time
  | MCharge i => let! _ := mlfq_charge i in ret tt
  | MWake chan => wakeup chan
  | MKill pid => let! _ := kill pid in ret tt
  | MInit i pid => let! now := gets ticks in upd_proc i (init_slot pid now)
  end.
Definition mops_run (ops : list mop) : M kernel unit := for_all ops mop_run.
Definition in_table (op : mop) : Prop :=
  match op with MCharge i | MInit i _ => (i < NPROC)%nat | _ => True end.

Record mlfq_inv (k : kernel) : Prop := {
  mi_table : table_ok None k;
  mi_idle : c_proc (cpu_of (mach k)) = None;
  mi_slots : mlfq_table k
}.

Lemma mlfq_inv_upd k ps f : mlfq_inv k -> f = id \/ f = touch -> length ps = NPROC -> Forall slot_ok ps ->
  mlfq_inv (upd_procs (fun _ => ps) (upd_mach f k)).
Proof using.
  intros [[Hl Hc Hf] Hi Hs] Ht Hlen Hok. destruct Ht as [->| ->].
  - split; [split; done|done|done].
  - split; [split; kcbn|kcbn|done].
    + done.
    + by apply cpu_ok_touch.
    + intros i Hi' Hn. apply touch_free. by apply Hf.
    + by rewrite c_proc_touch.
Qed.
Lemma upd_mach_id k : upd_mach id k = k.
Proof using. by destruct k. Qed.

Lemma mop_ok op k : mlfq_inv k -> in_table op -> exists k', mop_run op k = Ret tt k' /\ mlfq_inv k'.
Proof using Hpol.
  intros Hinv Hop. destruct (id Hinv) as [Hok Hidle Hm]. pose proof (tk_len _ _ Hok) as Hl.
  assert (Hp : forall i, (i < NPROC)%nat -> exists p, procs k !! i = Some p /\ slot_ok p).
  { intros i Hi. destruct (lookup_lt_is_Some_2 (procs k) i) as [p Hp]; [lia|]. exists p. split; [done|].
    by eapply Forall_lookup_1. }
  destruct op as [| |i|chan|pid|i pid]; simpl in *.
  - eexists. split; [by apply aging_check_eq|]. rewrite <- (upd_mach_id k) at 1.
    apply (mlfq_inv_upd k (map aged (procs k)) id); [done|by left|by rewrite length_map|].
    apply Forall_map. eapply Forall_impl; [|exact Hm]. intros p. apply aged_ok.
  - eexists. split; [by apply upd_time_eq|].
    apply (mlfq_inv_upd k (imap _ (procs k)) touch); [done|by right|by rewrite length_imap|].
    apply Forall_lookup. intros i p' Hi. rewrite list_lookup_imap in Hi. apply fmap_Some in Hi as (p & Hpi & ->).
    assert (slot_ok p) by (by eapply Forall_lookup_1). case_bool_decide; [by apply ticked_ok|done].
  - destruct (Hp i Hop) as (p & Hpi & Hs). destruct (mlfq_charge_ok i k p Hpi) as (b & p' & E & Hst & Hpo).
    eexists. split; [by erewrite bind_ret by exact E|]. rewrite <- (upd_mach_id k) at 1.
    apply (mlfq_inv_upd k (<[i := p']> (procs k)) id); [done|by left|by rewrite length_insert|].
    apply Forall_insert; [done|]. destruct Hs as [Hu|Hs]; [left; congruence|right; auto].
  - rewrite wakeup_eq; [|by rewrite Hidle]. eexists. split; [done|].
    apply (mlfq_inv_upd k (imap _ (procs k)) touch); [done|by right|by rewrite length_imap|].
    apply Forall_lookup. intros i p' Hi. rewrite list_lookup_imap in Hi. apply fmap_Some in Hi as (p & Hpi & ->).
    assert (slot_ok p) by (by eapply Forall_lookup_1). unfold wake. case_bool_decide; [done|].
    case_bool_decide; [|done]. simpl. case_bool_decide; [by apply woken_ok|done].
  - unfold bind. rewrite kill_eq by done. destruct (list_find _ (procs k)) as [[i p]|] eqn:Ef; cbn [rbind].
    + apply list_find_Some in Ef as (Hpi & _ & _). eexists. split; [done|].
      apply (mlfq_inv_upd k (<[i := _]> (procs k)) touch); [done|by right|by rewrite length_insert|].
      apply Forall_insert; [done|]. apply kill_victim_ok. by eapply Forall_lookup_1.
    + eexists. split; [done|]. assert (E : upd_mach touch k = upd_procs (fun _ => procs k) (upd_mach touch k)) by (by destruct k).
      rewrite E. by apply (mlfq_inv_upd k (procs k) touch); auto.
  - destruct (Hp i Hop) as (p & Hpi & Hs). eexists. split.
    { unfold bind, gets. cbn [rbind]. unfold upd_proc, idx_upd. by rewrite Hpi. }
    rewrite <- (upd_mach_id k) at 2. apply (mlfq_inv_upd k (<[i := _]> (procs k)) id); [done|by left|by rewrite length_insert|].
    apply Forall_insert; [done|]. right. apply init_slot_ok.
Qed.

Lemma mops_ok ops k : mlfq_inv k -> Forall in_table ops -> exists k', mops_run ops k = Ret tt k' /\ mlfq_inv k'.
Proof using Hpol.
  revert k. induction ops as [|op ops IH]; intros k Hk Ho; [by exists k|]. inversion Ho; subst.
  destruct (mop_ok op k Hk) as (k1 & E1 & Hk1); [done|]. destruct (IH k1 Hk1) as (k2 & E2 & Hk2); [done|].
  exists k2. split; [|done]. unfold mops_run in *. cbn [for_all]. by erewrite bind_ret by exact E1.
Qed.
End mlfq.

(** [C15] The MLFQ data is consistent: under any sequence of clock ticks,
    charges to processes, aging, wake-ups, kills and slot initialisations, each
    of which returns (the tick never indexes [queue_ticks] out of bounds), every
    process in use stays in one of the five queues, its time slice is
    [2 ^ level] ticks, and it keeps a counter for each queue. *)
Theorem mlfq_queues_consistent {KI : KernelImage} {C : Config} ops k :
  policy = MLFQ -> mlfq_inv k -> Forall in_table ops ->
  exists k', mops_run ops k = Ret tt k' /\ table_ok None k' /\
    forall i p, procs k' !! i = Some p -> p_state p <> UNUSED ->
      0 <= p_priority_level p <= 4 /\ p_ass_ticks p = 2 ^ p_priority_level p /\ length (p_queue_ticks p) = 5%nat.
Proof.
  intros Hpol Hk Ho. destruct (mops_ok Hpol ops k Hk Ho) as (k' & E & [Hok _ Hs]). exists k'. split_and!; [done|done|].
  intros i p Hp Hu. assert (Hsl : slot_ok p) by (by eapply Forall_lookup_1). by destruct Hsl.
Qed.

Module SchedSample.
#[local] Existing Instance kernel_sym.
#[local] Instance mlfq_config : Config := {| policy := MLFQ |}.

(** Two runnable processes and one asleep. *)
Definition a_slot (pid : Z) (st : procstate) : proc := upd_p_state (set st) (init_slot pid 7 proc0).
Definition ps : list proc := [proc0; a_slot 3 RUNNABLE; a_slot 4 SLEEPING; a_slot 5 RUNNABLE] ++ replicate 60 proc0.
Definition k0 : kernel := upd_procs (fun _ => ps) kernel_bss.

Lemma k0_table : table_ok None k0.
Proof.
  split; [done|vm_compute; split; done|]. intros i Hi _. apply bss_free. unfold all_locks.
  rewrite !elem_of_app, !list_elem_of_fmap. right; left. exists i. split; [done|]. apply elem_of_seq. lia.
Qed.
Lemma k0_slots : mlfq_table k0.
Proof.
  assert (Hp : Forall slot_ok (replicate 60 proc0)).
  { apply Forall_replicate. by left. }
  change (Forall slot_ok ([proc0; a_slot 3 RUNNABLE; a_slot 4 SLEEPING; a_slot 5 RUNNABLE] ++ replicate 60 proc0)).
  apply Forall_app. split; [|exact Hp]. constructor; [by left|].
  assert (Hs : forall pid st, slot_ok (a_slot pid st)) .
  { intros pid st. right. split_and!; vm_compute; congruence. }
  constructor; [apply Hs|]. constructor; [apply Hs|]. constructor; [apply Hs|constructor].
Qed.

(** A process that yields at once. *)
Definition yields (i : nat) (s : kernel) : kernel := upd_procs (alter (upd_p_state (set RUNNABLE)) i) s.

Lemma yields_back : gives_back 0 yields.
Proof.
  intros i p k (Hok & Htp & Hc) Hp. set (p' := upd_p_state (set RUNNABLE) (upd_p_state (set RUNNING) p)).
  pose proof (lookup_lt_Some _ _ _ Hp) as Hlt.
  exists (upd_procs (<[i := p']>) k). split_and!.
  - unfold yields, running, back, upd_procs, upd_mach. kcbn. f_equal. apply list_eq. intros j.
    destruct (decide (i = j)) as [<-|Hne].
    + by rewrite list_lookup_alter_eq, !list_lookup_insert_eq.
    + by rewrite list_lookup_alter_ne, !list_lookup_insert_ne.
  - split; [|done]. destruct Hok as [Hl Hcpu Hf]. split; [unfold upd_procs; kcbn; by rewrite length_insert|done|done].
  - intros j Hj (q & Hq & HR). exists q. unfold upd_procs. kcbn. rewrite list_lookup_insert_ne by lia. done.
Qed.


Definition script : list mop := [MTick; MCharge 1; MWake ChLog; MInit 6 9; MAge; MKill 4; MCharge 1; MTick].

Lemma mlfq_queues_consistent_witness :
  exists k', mops_run script k0 = Ret tt k' /\ table_ok None k' /\
    forall i p, procs k' !! i = Some p -> p_state p <> UNUSED ->
      0 <= p_priority_level p <= 4 /\ p_ass_ticks p = 2 ^ p_priority_level p /\ length (p_queue_ticks p) = 5%nat.
Proof.
  apply (mlfq_queues_consistent (C := mlfq_config) script k0 eq_refl).
  - split; [exact k0_table|done|exact k0_slots].
  - unfold script, in_table, NPROC. repeat constructor; lia.
Defined.
End SchedSample.
