(* ===== verification/User.v ===== *)
(** * User programs and the system-call interface ([user/user.h])

    A user program runs on a world it reaches only through system calls. The
    calls are the fields of a class, so that a program's definitions and
    theorems hold for every operating system with that interface; what a
    theorem needs of their behaviour it states as laws. A program returns, ends
    with [exit], or turns into another one with [exec]. *)

From S2P Require Import Prelude.

(** [struct stat] of [kernel/stat.h]. *)
Record stat := mk_stat { st_dev : Z; st_ino : Z; st_type : Z; st_nlink : Z; st_size : Z }.

(** One field per system call. A buffer the kernel fills is part of the
    result; a string argument is the bytes before its NUL. [os_exec] returns
    [true] when the calling program is gone. *)
Class OS (W : Type) := {
  os_fork : M W Z;
  os_wait : M W (Z * Z);
  os_waitx : M W (Z * (Z * Z * Z));
  os_pipe : M W (Z * (Z * Z));
  os_write : Z -> list Z -> M W Z;
  os_read : Z -> Z -> M W (Z * list Z);
  os_close : Z -> M W Z;
  os_kill : Z -> M W Z;
  os_exec : list Z -> list (list Z) -> M W bool;
  os_open : list Z -> Z -> M W Z;
  os_mknod : list Z -> Z -> Z -> M W Z;
  os_unlink : list Z -> M W Z;
  os_fstat : Z -> M W (Z * stat);
  os_link : list Z -> list Z -> M W Z;
  os_mkdir : list Z -> M W Z;
  os_chdir : list Z -> M W Z;
  os_dup : Z -> M W Z;
  os_sbrk : Z -> M W Z;
  os_sleep : Z -> M W Z;
  os_trace : Z -> M W unit;
  os_setpriority : Z -> Z -> M W Z;
  os_getpid : M W Z;
  os_uptime : M W Z;
  os_sigalarm : Z -> Z -> M W Z;
  os_sigreturn : M W Z
}.

Inductive outcome (A : Type) :=
| Done (a : A)                                   (* the function returned *)
| Exited (status : Z)                            (* exit(status) *)
| Became (path : list Z) (argv : list (list Z)). (* exec(path, argv) *)
Arguments Done {A} a.
Arguments Exited {A} status.
Arguments Became {A} path argv.

Definition U (W A : Type) : Type := M W (outcome A).

Section user.
Context {W : Type}.

Definition done {A} (a : A) : U W A := ret (Done a).
Definition exit {A} (status : Z) : U W A := ret (Exited status).
Definition then_ {A B} (m : U W A) (f : A -> U W B) : U W B :=
  let! r := m in
  match r with
  | Done a => f a
  | Exited n => ret (Exited n)
  | Became p av => ret (Became p av)
  end.
(** A system call, or any computation that cannot end the program. *)
Definition sys {A} (m : M W A) : U W A := let! a := m in done a.
(** A pointer access or function of the library, [None] when undefined. *)
Definition valid {A} (what : string) (x : option A) : U W A :=
  match x with Some a => done a | None => undef what end.
Definition uwhen (c : bool) (m : U W unit) : U W unit := if c then m else done tt.

(** Loops: over a list, with [inr] to leave; and unbounded. *)
Fixpoint each {A B R} (xs : list A) (acc : B) (body : A -> B -> U W (B + R)) : U W (B + R) :=
  match xs with
  | [] => done (inl acc)
  | x :: xs' =>
      then_ (body x acc) (fun r =>
        match r with inl acc' => each xs' acc' body | inr e => done (inr e) end)
  end.
Fixpoint every {A} (xs : list A) (body : A -> U W unit) : U W unit :=
  match xs with
  | [] => done tt
  | x :: xs' => then_ (body x) (fun _ => every xs' body)
  end.
Definition loop {L A} (body : L -> U W (L + A)) (l : L) : U W A :=
  while (fun l =>
    let! r := body l in
    match r with
    | Done (inl l') => ret (inl l')
    | Done (inr a) => ret (inr (Done a))
    | Exited n => ret (inr (Exited n))
    | Became p av => ret (inr (Became p av))
    end) l.

(** Only [exec] failing lets the caller go on. *)
Definition exec `{OS W} (path : list Z) (argv : list (list Z)) : U W unit :=
  let! gone := os_exec path argv in
  if gone then ret (Became path argv) else done tt.

(** [uwp m Q w]: run from [w], [m] returns and [Q] holds of its value. *)
Definition uwp {A} (m : U W A) (Q : A -> W -> Prop) (w : W) : Prop :=
  wp m (fun r w' => match r with Done a => Q a w' | _ => False end) w.

Lemma uwp_done {A} (a : A) Q w : Q a w -> uwp (done a) Q w.
Proof. done. Qed.
Lemma uwp_then {A B} (m : U W A) (f : A -> U W B) Q w :
  uwp m (fun a w' => uwp (f a) Q w') w -> uwp (then_ m f) Q w.
Proof.
  unfold uwp, then_. intros H. apply wp_bind. eapply wp_conseq; [exact H|]. by intros [] ?.
Qed.
Lemma uwp_then_inv {A B} (m : U W A) (f : A -> U W B) Q w :
  uwp (then_ m f) Q w -> uwp m (fun a w' => uwp (f a) Q w') w.
Proof.
  unfold uwp, then_. intros H. apply wp_bind_inv in H. eapply wp_conseq; [exact H|]. by intros [] ?.
Qed.
Lemma uwp_conseq {A} (m : U W A) (Q Q' : A -> W -> Prop) w :
  uwp m Q w -> (forall a w', Q a w' -> Q' a w') -> uwp m Q' w.
Proof. intros H HQ. eapply wp_conseq; [exact H|]. intros [] ?; [apply HQ|done..]. Qed.
Lemma uwp_sys {A} (m : M W A) Q w : wp m Q w -> uwp (sys m) Q w.
Proof. intros H. apply wp_bind. eapply wp_conseq; [exact H|]. by intros. Qed.
Lemma uwp_valid {A} what (x : option A) a Q w : x = Some a -> Q a w -> uwp (valid what x) Q w.
Proof. by intros ->. Qed.

Lemma uwp_every {A} (body : A -> U W unit) (I : list A -> W -> Prop) (Q : unit -> W -> Prop) :
  (forall x xs w, I (x :: xs) w -> uwp (body x) (fun _ w' => I xs w') w) ->
  (forall w, I [] w -> Q tt w) ->
  forall xs w, I xs w -> uwp (every xs body) Q w.
Proof.
  intros Hb Hd xs. induction xs as [|x xs IH]; intros w Hi; simpl.
  - apply uwp_done. auto.
  - apply uwp_then. eapply uwp_conseq; [by apply Hb|]. intros ? w' H. by apply IH.
Qed.

Lemma uwp_loop {G L A} (body : L -> U W (L + A)) (I : G -> L -> W -> Prop) (mu : G -> Z) Q g l w :
  (forall g l w, I g l w -> uwp (body l) (fun r w' =>
      match r with inl l' => exists g', I g' l' w' /\ 0 <= mu g' < mu g | inr a => Q a w' end) w) ->
  I g l w -> 0 <= mu g < 2 ^ 64 -> uwp (loop body l) Q w.
Proof.
  intros Hb Hi Hmu. unfold uwp, loop. eapply (wp_while_ghost _ I mu); [|done|done].
  clear Hi Hmu g l w. intros g l w Hi. apply wp_bind. eapply wp_conseq; [by apply Hb|].
  by intros [[]| |] ?.
Qed.
End user.

Notation "'let?' x := m 'in' k" := (then_ m (fun x => k))
  (at level 10, x pattern, m at level 100, k at level 200,
   format "'[v' 'let?'  x  :=  m  'in' '/' k ']'") : kern_scope.
Notation "'do?' m 'in' k" := (then_ m (fun _ => k))
  (at level 10, m at level 100, k at level 200,
   format "'[v' 'do?'  m  'in' '/' k ']'") : kern_scope.

Ltac uwp_step :=
  match goal with
  | |- uwp (then_ _ _) _ _ => apply uwp_then
  | |- uwp (done _) _ _ => apply uwp_done
  | |- uwp (uwhen true _) _ _ => unfold uwhen
  | |- uwp (uwhen false _) _ _ => unfold uwhen
  end; cbv beta.
Ltac uwp_steps := repeat uwp_step.

(** A system with the calls given and no other. *)
Definition bare_os {W} (fork : M W Z) (wait : M W (Z * Z)) (write : Z -> list Z -> M W Z) : OS W := {|
  os_fork := fork;
  os_wait := wait;
  os_waitx := ret (-1, (0, 0, 0));
  os_pipe := ret (-1, (0, 0));
  os_write := write;
  os_read _ _ := ret (-1, []);
  os_close _ := ret (-1);
  os_kill _ := ret (-1);
  os_exec _ _ := ret false;
  os_open _ _ := ret (-1);
  os_mknod _ _ _ := ret (-1);
  os_unlink _ := ret (-1);
  os_fstat _ := ret (-1, mk_stat 0 0 0 0 0);
  os_link _ _ := ret (-1);
  os_mkdir _ := ret (-1);
  os_chdir _ := ret (-1);
  os_dup _ := ret (-1);
  os_sbrk _ := ret (-1);
  os_sleep _ := ret 0;
  os_trace _ := ret tt;
  os_setpriority _ _ := ret (-1);
  os_getpid := ret 1;
  os_uptime := ret 0;
  os_sigalarm _ _ := ret (-1);
  os_sigreturn := ret 0
|}.

(** ** Byte streams

    What a program relies on of the files it reads and writes: [read] returns
    a prefix of the bytes still to come, empty only when there are none left,
    and [write] appends all of its bytes. *)
Class Stream {W} `{OS W} (fd : Z) := {
  pending : W -> list Z;          (* what [fd] will still deliver *)
  sink : W -> list Z;             (* what has been written to descriptor 1 *)
  read_some : forall n w, 0 < n -> wp (os_read fd n) (fun r w' =>
    exists bs, pending w = bs ++ pending w' /\ r = (Z.of_nat (length bs), bs) /\
      Z.of_nat (length bs) <= n /\ (bs = [] -> pending w = []) /\ sink w' = sink w) w;
  read_none : forall w, wp (os_read fd 0) (fun r w' =>
    r = (0, []) /\ pending w' = pending w /\ sink w' = sink w) w;
  write_all : forall bs w, wp (os_write 1 bs) (fun r w' =>
    r = Z.of_nat (length bs) /\ sink w' = sink w ++ bs /\ pending w' = pending w) w
}.

(** A world with one input, delivered in pieces of at most seven bytes, and
    one output. *)
Module Tape.
Record tape := mk_tape { t_in : list Z; t_out : list Z }.

Definition piece (n : Z) (t : tape) : list Z := take (Z.to_nat (Z.min n 7)) (t_in t).

#[export] Instance tape_os : OS tape := {|
  os_fork := ret (-1);
  os_wait := ret (-1, 0);
  os_waitx := ret (-1, (0, 0, 0));
  os_pipe := ret (-1, (0, 0));
  os_write fd bs := fun t =>
    if fd =? 1 then Ret (Z.of_nat (length bs)) (mk_tape (t_in t) (t_out t ++ bs)) else Ret (-1) t;
  os_read fd n := fun t =>
    let bs := piece n t in
    if fd =? 0 then Ret (Z.of_nat (length bs), bs) (mk_tape (drop (length bs) (t_in t)) (t_out t))
    else Ret (-1, []) t;
  os_close _ := ret 0;
  os_kill _ := ret (-1);
  os_exec _ _ := ret false;
  os_open _ _ := ret (-1);
  os_mknod _ _ _ := ret (-1);
  os_unlink _ := ret (-1);
  os_fstat _ := ret (-1, mk_stat 0 0 0 0 0);
  os_link _ _ := ret (-1);
  os_mkdir _ := ret (-1);
  os_chdir _ := ret (-1);
  os_dup _ := ret (-1);
  os_sbrk _ := ret (-1);
  os_sleep _ := ret 0;
  os_trace _ := ret tt;
  os_setpriority _ _ := ret (-1);
  os_getpid := ret 1;
  os_uptime := ret 0;
  os_sigalarm _ _ := ret (-1);
  os_sigreturn := ret 0
|}.

Lemma piece_split n t :
  t_in t = piece n t ++ drop (length (piece n t)) (t_in t) /\
  (0 <= n -> Z.of_nat (length (piece n t)) <= n) /\ (0 < n -> piece n t = [] -> t_in t = []).
Proof.
  unfold piece. rewrite length_take. split_and!.
  - destruct (decide (length (t_in t) <= Z.to_nat (Z.min n 7))%nat).
    + rewrite Nat.min_r, drop_all, app_nil_r by done. by rewrite firstn_all2.
    + rewrite Nat.min_l by lia. by rewrite take_drop.
  - lia.
  - intros Hn. destruct (t_in t); [done|]. by destruct (Z.to_nat (Z.min n 7)) eqn:E; [lia|].
Qed.

#[export] Program Instance tape_stream : Stream 0 := {| pending := t_in; sink := t_out |}.
Next Obligation.
  intros n w Hn. destruct (piece_split n w) as (H1 & H2 & H3).
  eapply wp_eq; [reflexivity|]. exists (piece n w). split_and!; simpl; auto with lia.
Qed.
Next Obligation. intros w. eapply wp_eq; [reflexivity|]. done. Qed.
Next Obligation. intros bs w. eapply wp_eq; [reflexivity|]. done. Qed.
End Tape.
