(* ===== verification/Ulib.v ===== *)
(** * The user library ([user/ulib.c], [user/printf.c])

    Strings are byte lists up to the end of their object, as in [Cstring]: a
    read past that end is [None]. The routines on raw memory work on
    [Memory]'s byte maps. Output goes through [write], a byte at a time. *)

From S2P Require Import Prelude Memory Cstring User.
From Stdlib Require Import Ascii.

(** ** Strings *)

(** What [strcpy] stores at [s]: the characters of [t] and the NUL. *)
Fixpoint strcpy (t : list Z) : option (list Z) :=
  match t with
  | [] => None
  | c :: t' => if c =? 0 then Some [0] else match strcpy t' with Some r => Some (c :: r) | None => None end
  end.

Fixpoint strcmp (p q : list Z) : option Z :=
  match p, q with
  | a :: p', b :: q' => if nz a && (a =? b) then strcmp p' q' else Some (u8 a - u8 b)
  | _, _ => None
  end.

Fixpoint strlen (s : list Z) : option Z :=
  match s with
  | [] => None
  | c :: s' => if c =? 0 then Some 0 else match strlen s' with Some n => Some (n + 1) | None => None end
  end.

(** The offset of the first [c] before the NUL, [Some None] for the null
    pointer. *)
Fixpoint strchr (s : list Z) (c : Z) : option (option Z) :=
  match s with
  | [] => None
  | x :: s' =>
      if x =? 0 then Some None else
      if x =? c then Some (Some 0) else
      match strchr s' c with
      | Some (Some i) => Some (Some (i + 1))
      | r => r
      end
  end.

(** [while('0' <= *s && *s <= '9') n = n*10 + *s++ - '0';] *)
Fixpoint atoi_from (n : Z) (s : list Z) : option Z :=
  match s with
  | [] => None
  | c :: s' => if (48 <=? c) && (c <=? 57) then atoi_from (s32 (n * 10 + c - 48)) s' else Some n
  end.
Definition atoi (s : list Z) : option Z := atoi_from 0 s.

Fixpoint memcmp (s1 s2 : list Z) (n : nat) {struct n} : option Z :=
  match n with
  | O => Some 0
  | S n' =>
      match s1, s2 with
      | a :: s1', b :: s2' => if negb (a =? b) then Some (a - b) else memcmp s1' s2' n'
      | _, _ => None
      end
  end.

(** ** Memory *)

Definition memset (m : memory) (dst c n : Z) : memory := mem_fill m dst (Z.to_nat n) c.

(** [n] is an [int]: a negative count moves nothing. *)
Definition memmove (m : memory) (dst src n : Z) : memory :=
  if dst <? src
  then copy_up m dst src (Z.to_nat n)
  else copy_down m (dst + n) (src + n) (Z.to_nat n).

(** [memcpy]'s count is a [uint], converted to [memmove]'s [int]. *)
Definition memcpy (m : memory) (dst src n : Z) : memory := memmove m dst src (s32 n).

(** A buffer whose bytes from [at_] on are overwritten with [bs]. *)
Definition buf_store (buf : list Z) (at_ : Z) (bs : list Z) : list Z :=
  take (Z.to_nat at_) buf ++ bs ++ drop (Z.to_nat at_ + length bs) buf.

Lemma length_buf_store buf at_ bs :
  0 <= at_ -> at_ + Z.of_nat (length bs) <= Z.of_nat (length buf) ->
  length (buf_store buf at_ bs) = length buf.
Proof. intros. unfold buf_store. rewrite !length_app, length_take, length_drop. lia. Qed.

Section programs.
Context {W : Type} `{OS W}.

(** ** Files *)

(** What [gets] stores in a buffer of [max] bytes, the NUL included. *)
Definition gets (max : Z) : U W (list Z) :=
  let? bs := loop (fun bs =>
    let i := Z.of_nat (length bs) in
    if i + 1 <? max then
      let? r := sys (os_read 0 1) in
      if fst r <? 1 then done (inr bs) else
      let? c := valid "gets" (snd r !! 0%nat) in
      if (c =? 10) || (c =? 13) then done (inr (bs ++ [c])) else done (inl (bs ++ [c]))
    else done (inr bs)) [] in
  if Z.of_nat (length bs) <? max then done (bs ++ [0]) else undef "gets".

Definition O_RDONLY : Z := 0.
Definition O_WRONLY : Z := 1.
Definition O_RDWR : Z := 2.
Definition O_CREATE : Z := 512.
Definition O_TRUNC : Z := 1024.

(** The result and, when it is not negative, the [struct stat]. *)
Definition stat_ (n : list Z) : U W (Z * option stat) :=
  let? fd := sys (os_open n O_RDONLY) in
  if fd <? 0 then done (-1, None) else
  let? r := sys (os_fstat fd) in
  do? sys (os_close fd) in
  done (fst r, if fst r <? 0 then None else Some (snd r)).

(** ** Formatted output *)

Definition digits : list Z := bytes_of "0123456789ABCDEF".
Definition digit (d : Z) : Z := default 0 (digits !! Z.to_nat d).

Definition putc (fd c : Z) : U W unit := do? sys (os_write fd [u8 c]) in done tt.

(** The digits of [x], least significant first; a 32-bit number has at most 32
    in any base. *)
Fixpoint int_digits (fuel : nat) (x base : Z) : list Z :=
  match fuel with
  | O => []
  | S fuel' =>
      let x' := x / base in
      digit (x mod base) :: (if negb (x' =? 0) then int_digits fuel' x' base else [])
  end.
Definition int_chars (xx base : Z) (sgn : bool) : list Z :=
  let neg := sgn && (xx <? 0) in
  let x := u32 (if neg then - xx else xx) in
  rev (int_digits 32 x base ++ (if neg then [45] else [])).
Definition printint (fd xx base : Z) (sgn : bool) : U W unit :=
  every (int_chars xx base sgn) (putc fd).

Fixpoint ptr_digits (n : nat) (x : Z) : list Z :=
  match n with
  | O => []
  | S n' => digit (Z.shiftr x 60) :: ptr_digits n' (u64 (Z.shiftl x 4))
  end.
Definition printptr (fd x : Z) : U W unit :=
  do? putc fd 48 in do? putc fd 120 in every (ptr_digits 16 x) (putc fd).

(** A variable argument: an [int], a [uint64], or a string as the bytes before
    its NUL. *)
Inductive varg := AInt (n : Z) | ALong (x : Z) | AStr (s : option (list Z)).

Fixpoint vprintf (fd : Z) (fmt : list Z) (state : bool) (ap : list varg) : U W unit :=
  match fmt with
  | [] => done tt
  | c :: fmt' =>
      if c =? 0 then done tt else
      if negb state then
        if c =? 37 then vprintf fd fmt' true ap else do? putc fd c in vprintf fd fmt' false ap
      else if c =? 100 then
        match ap with
        | AInt n :: ap' => do? printint fd n 10 true in vprintf fd fmt' false ap'
        | _ => undef "va_arg"
        end
      else if c =? 108 then
        match ap with
        | ALong x :: ap' => do? printint fd (s32 x) 10 false in vprintf fd fmt' false ap'
        | _ => undef "va_arg"
        end
      else if c =? 120 then
        match ap with
        | AInt n :: ap' => do? printint fd n 16 false in vprintf fd fmt' false ap'
        | _ => undef "va_arg"
        end
      else if c =? 112 then
        match ap with
        | ALong x :: ap' => do? printptr fd x in vprintf fd fmt' false ap'
        | _ => undef "va_arg"
        end
      else if c =? 115 then
        match ap with
        | AStr s :: ap' =>
            do? every (default (bytes_of "(null)") s) (putc fd) in vprintf fd fmt' false ap'
        | _ => undef "va_arg"
        end
      else if c =? 99 then
        match ap with
        | AInt n :: ap' => do? putc fd n in vprintf fd fmt' false ap'
        | _ => undef "va_arg"
        end
      else if c =? 37 then do? putc fd c in vprintf fd fmt' false ap
      else do? putc fd 37 in do? putc fd c in vprintf fd fmt' false ap
  end.

Definition fprintf (fd : Z) (fmt : string) (ap : list varg) : U W unit :=
  vprintf fd (bytes_of fmt) false ap.
Definition printf (fmt : string) (ap : list varg) : U W unit :=
  vprintf 1 (bytes_of fmt) false ap.
End programs.

(** A format string that ends in a new line. *)
Definition line (s : string) : string := s +:+ String (ascii_of_nat 10) EmptyString.

(** ** Memory moves *)

Lemma mget_load_store m d s n b :
  mget (store_bytes m d (load_bytes m s n)) b =
  if decide (d <= b < d + Z.of_nat n) then mget m (s + (b - d)) else mget m b.
Proof.
  rewrite mget_store_bytes, length_load_bytes. case_decide; [|done].
  rewrite load_bytes_lookup by lia. simpl. rewrite u8_mget. f_equal. lia.
Qed.

Lemma memmove_copies m d s n : memmove m d s n ≡ₘ store_bytes m d (load_bytes m s (Z.to_nat n)).
Proof.
  intros b. rewrite mget_load_store. unfold memmove.
  destruct (Z.ltb_spec d s); [rewrite mget_copy_up by lia; done|].
  destruct (decide (0 <= n)) as [Hn|Hn].
  - rewrite mget_copy_down by lia. repeat case_decide; try lia; f_equal; lia.
  - replace (Z.to_nat n) with 0%nat by lia. simpl. by rewrite decide_False by lia.
Qed.

(** Both [memmove]s, the kernel's (which copies backwards only when the
    areas overlap that way) and the user library's (which decides on the
    addresses alone), have on every memory, for every overlap of the areas, the
    effect of taking a copy of the source first and storing that copy. *)
Theorem memmove_equivalence m d s n :
  memmove m d s n ≡ₘ store_bytes m d (load_bytes m s (Z.to_nat n)) /\
  mem_move m d s (Z.to_nat n) ≡ₘ memmove m d s n.
Proof.
  split; [apply memmove_copies|]. intros b. rewrite (memmove_copies m d s n b), mget_load_store. apply mget_move.
Qed.

(** ** Numbers: [printint] and [atoi] *)

Lemma digit_lt10 d : 0 <= d < 10 -> digit d = 48 + d.
Proof.
  intros Hd. assert (d = 0 \/ d = 1 \/ d = 2 \/ d = 3 \/ d = 4 \/ d = 5 \/ d = 6 \/ d = 7 \/ d = 8 \/ d = 9) as E by lia.
  repeat (destruct E as [->|E]; [reflexivity|]). by subst d.
Qed.

(** The value of decimal digits, most significant first. *)
Definition dec_val (n : Z) (ds : list Z) : Z := foldl (fun n c => n * 10 + (c - 48)) n ds.
Abbreviation decimal := (Forall (fun c => 48 <= c <= 57)).

Lemma dec_val_app n a b : dec_val n (a ++ b) = dec_val (dec_val n a) b.
Proof. apply foldl_app. Qed.

Lemma int_digits_dec fuel x : 0 <= x < 10 ^ Z.of_nat fuel ->
  decimal (int_digits fuel x 10) /\ dec_val 0 (rev (int_digits fuel x 10)) = x.
Proof.
  revert x. induction fuel as [|fuel IH]; intros x Hx; [change (10 ^ Z.of_nat 0) with 1 in Hx; simpl; split; [done|lia]|].
  rewrite Nat2Z.inj_succ, Z.pow_succ_r in Hx by lia. cbn [int_digits].
  assert (Hd : 0 <= x mod 10 < 10) by (apply Z.mod_pos_bound; lia).
  destruct (Z.eqb_spec (x / 10) 0) as [H0|H0]; cbn [negb].
  - split; [constructor; [rewrite digit_lt10 by done; lia|done]|]. simpl. rewrite digit_lt10 by done. dlia.
  - destruct (IH (x / 10)) as [H1 H2]; [dlia|]. split; [constructor; [rewrite digit_lt10 by done; lia|done]|].
    simpl rev. rewrite dec_val_app, H2. simpl. rewrite digit_lt10 by done. dlia.
Qed.

(** [atoi] reads a decimal numeral that fits an [int]. *)
Lemma dec_val_le n ds : 0 <= n -> decimal ds -> n <= dec_val n ds.
Proof.
  revert n. induction ds as [|c ds IH]; intros n Hn Hd; [done|]. inversion Hd; subst. simpl.
  etransitivity; [|apply IH; [lia|done]]. lia.
Qed.
Lemma atoi_from_dec n ds rest : 0 <= n -> decimal ds -> dec_val n ds < 2 ^ 31 ->
  ~ (48 <= hd 0 rest <= 57) -> rest <> [] -> atoi_from n (ds ++ rest) = Some (dec_val n ds).
Proof.
  revert n. induction ds as [|c ds IH]; intros n Hn Hd Hv Hr Hne; simpl.
  - destruct rest as [|c rest]; [done|]. simpl in *. rewrite (proj2 (andb_false_iff _ _)); [done|].
    destruct (Z.leb_spec 48 c); [right|by left]. apply Z.leb_gt. lia.
  - inversion Hd; subst. rewrite (proj2 (andb_true_iff _ _)) by (split; apply Z.leb_le; lia).
    simpl in Hv. pose proof (dec_val_le (n * 10 + (c - 48)) ds ltac:(lia) ltac:(done)).
    rewrite s32_small by lia. replace (n * 10 + c - 48) with (n * 10 + (c - 48)) by lia. apply IH; [lia|done..].
Qed.

Lemma int_chars_dec n : 0 <= n < 2 ^ 31 ->
  decimal (int_chars n 10 true) /\ dec_val 0 (int_chars n 10 true) = n.
Proof.
  intros Hn. unfold int_chars. rewrite (proj2 (Z.ltb_ge n 0)) by lia. cbn [andb].
  rewrite u32_small, app_nil_r by lia. destruct (int_digits_dec 32 n) as [Hd Hv]; [lia|].
  split; [|done]. by apply List.Forall_rev.
Qed.

(** Printing and reading numbers: what [printf] writes for a
    non-negative [int] under the %d directive, [atoi] reads back as the same
    number, whatever follows the digits. *)
Theorem printint_atoi_roundtrip n rest :
  0 <= n < 2 ^ 31 -> ~ (48 <= hd 0 rest <= 57) ->
  atoi (int_chars n 10 true ++ rest ++ [0]) = Some n.
Proof.
  intros Hn Hr. destruct (int_chars_dec n Hn) as [Hd Hv]. unfold atoi. rewrite <- Hv at 2.
  apply atoi_from_dec; [done|done|lia|by destruct rest; [simpl; lia|]|by destruct rest].
Qed.

Lemma printint_atoi_roundtrip_witness : atoi (int_chars 2147483647 10 true ++ [] ++ [0]) = Some 2147483647.
Proof. apply (printint_atoi_roundtrip 2147483647 []); simpl; lia. Defined.

(** ** What [printf] writes *)

(** The bytes a format and its arguments stand for, [None] when an argument
    is missing or of another type. *)
Fixpoint format (fmt : list Z) (state : bool) (ap : list varg) : option (list Z) :=
  match fmt with
  | [] => Some []
  | c :: fmt' =>
      if c =? 0 then Some [] else
      if negb state then
        if c =? 37 then format fmt' true ap else cons (u8 c) <$> format fmt' false ap
      else if c =? 100 then
        match ap with AInt n :: ap' => app (u8 <$> int_chars n 10 true) <$> format fmt' false ap' | _ => None end
      else if c =? 108 then
        match ap with ALong x :: ap' => app (u8 <$> int_chars (s32 x) 10 false) <$> format fmt' false ap' | _ => None end
      else if c =? 120 then
        match ap with AInt n :: ap' => app (u8 <$> int_chars n 16 false) <$> format fmt' false ap' | _ => None end
      else if c =? 112 then
        match ap with ALong x :: ap' => app (u8 <$> 48 :: 120 :: ptr_digits 16 x) <$> format fmt' false ap' | _ => None end
      else if c =? 115 then
        match ap with AStr s :: ap' => app (u8 <$> default (bytes_of "(null)") s) <$> format fmt' false ap' | _ => None end
      else if c =? 99 then
        match ap with AInt n :: ap' => cons (u8 n) <$> format fmt' false ap' | _ => None end
      else if c =? 37 then cons (u8 c) <$> format fmt' false ap
      else (fun r => u8 37 :: u8 c :: r) <$> format fmt' false ap
  end.

(** For any world where descriptor 1 appends to [sink] and leaves [frame]
    alone. *)
Section output.
Context {W F : Type} {HO : OS W} (sink : W -> list Z) (frame : W -> F).
Hypothesis write_appends : forall bs w, wp (os_write 1 bs) (fun _ w' =>
  sink w' = sink w ++ bs /\ frame w' = frame w) w.

(** [writes m out]: [m] returns, having appended [out] to the output. *)
Definition writes (m : U W unit) (out : list Z) : Prop := forall w,
  uwp m (fun _ w' => sink w' = sink w ++ out /\ frame w' = frame w) w.

Lemma writes_done : writes (done tt) [].
Proof. intros w. apply uwp_done. by rewrite app_nil_r. Qed.
Lemma writes_then m (k : unit -> U W unit) a b : writes m a -> writes (k tt) b -> writes (then_ m k) (a ++ b).
Proof.
  intros Hm Hk w. apply uwp_then. eapply uwp_conseq; [apply Hm|]. intros [] w' [H1 H2].
  eapply uwp_conseq; [apply Hk|]. intros _ w'' [H3 H4]. rewrite H3, H1, H4, H2, app_assoc. done.
Qed.
Lemma writes_putc c : writes (putc 1 c) [u8 c].
Proof using write_appends.
  intros w. apply uwp_then, uwp_sys. eapply wp_conseq; [apply write_appends|].
  intros ? w' [H1 H2]. by apply uwp_done.
Qed.
Lemma writes_chars cs : writes (every cs (putc 1)) (u8 <$> cs).
Proof using write_appends.
  induction cs as [|c cs IH]; [apply writes_done|]. apply (writes_then _ _ [u8 c]); [apply writes_putc|done].
Qed.

Lemma vprintf_writes fmt st ap out : format fmt st ap = Some out -> writes (vprintf 1 fmt st ap) out.
Proof using write_appends.
  revert st ap out. induction fmt as [|c fmt IH]; intros st ap out; cbn [format vprintf].
  { intros [= <-]. apply writes_done. }
  repeat (case_match; try done); rewrite ?fmap_Some; try (intros [= <-]; apply writes_done); try apply IH;
    intros (r & Hr & ->); specialize (IH _ _ _ Hr);
    first [ apply (writes_then _ _ [u8 c]); [apply writes_putc|done]
          | apply (writes_then _ _ [u8 n]); [apply writes_putc|done]
          | apply writes_then; [apply writes_chars|done]
          | apply (writes_then _ _ [u8 37]); [apply writes_putc|];
            apply (writes_then _ _ [u8 c]); [apply writes_putc|done]
          | idtac ].
  apply writes_then; [|done].
  do 2 (apply (writes_then _ _ [_]); [apply writes_putc|]). apply writes_chars.
Qed.
Lemma printf_writes fmt ap out : format (bytes_of fmt) false ap = Some out -> writes (printf fmt ap) out.
Proof using write_appends. apply vprintf_writes. Qed.
End output.

Section stream.
Context {W : Type} {HO : OS W} {fd : Z} {HS : Stream fd}.

Lemma printf_stream fmt ap out : format (bytes_of fmt) false ap = Some out -> writes sink pending (printf fmt ap) out.
Proof.
  apply printf_writes. intros bs w. eapply wp_conseq; [apply (write_all (fd := fd))|].
  intros ? w' (_ & H1 & H2). done.
Qed.
End stream.
