(* ===== verification/Grep.v ===== *)
(** * grep ([user/grep.c])

    Kernighan and Pike's matcher and the loop that runs it over the lines of
    a file, with the buffer and its indices as the code has them; the
    pattern's meaning as a relation; and the equivalence of the two. *)

From S2P Require Import Prelude Memory Cstring User Ulib.

(** ** The matcher *)

(** [matchstar(c, re, text)], where [here] is [matchhere(re, _)]. *)
Fixpoint matchstar (here : list Z -> option bool) (c : Z) (text : list Z) : option bool :=
  match here text with
  | None => None
  | Some true => Some true
  | Some false =>
      match text with
      | [] => None
      | t :: text' =>
          if nz t && ((t =? c) || (c =? 46)) then matchstar here c text' else Some false
      end
  end.

Fixpoint matchhere (re text : list Z) {struct re} : option bool :=
  match re with
  | [] => None
  | c0 :: re1 =>
      if c0 =? 0 then Some true else
      match re1 with
      | [] => None
      | c1 :: re2 =>
          if c1 =? 42 then matchstar (matchhere re2) c0 text else
          match text with
          | [] => None
          | t :: text' =>
              if (c0 =? 36) && (c1 =? 0) then Some (t =? 0) else
              if nz t && ((c0 =? 46) || (c0 =? t)) then matchhere re1 text' else Some false
          end
      end
  end.

(** [do { if(matchhere(re, text)) return 1; } while( *text++ != 0);] *)
Fixpoint match_any (re text : list Z) : option bool :=
  match matchhere re text with
  | None => None
  | Some true => Some true
  | Some false =>
      match text with
      | [] => None
      | t :: text' => if nz t then match_any re text' else Some false
      end
  end.

Definition match_ (re text : list Z) : option bool :=
  match re with
  | [] => None
  | c :: re' => if c =? 94 then matchhere re' text else match_any re text
  end.

(** ** The loop over a file *)

Section grep.
Context {W : Type} `{OS W}.

(** The inner loop: the buffer afterwards and the first byte not looked at. *)
Definition grep_scan (pattern buf : list Z) : U W (list Z * Z) :=
  loop (fun st =>
    let buf := fst st in
    let p := snd st in
    let? i := valid "strchr" (strchr (drop (Z.to_nat p) buf) 10) in
    match i with
    | None => done (inr st)
    | Some i =>
        let q := p + i in
        let buf := <[Z.to_nat q := 0]> buf in
        let? b := valid "match" (match_ pattern (drop (Z.to_nat p) buf)) in
        if b then
          let buf := <[Z.to_nat q := 10]> buf in
          do? sys (os_write 1 (take (Z.to_nat (q + 1 - p)) (drop (Z.to_nat p) buf))) in
          done (inl (buf, q + 1))
        else done (inl (buf, q + 1))
    end) (buf, 0).

Definition BUFSIZE : Z := 1024.

(** The global [buf] is an argument and a result. *)
Definition grep (pattern buf : list Z) (fd : Z) : U W (list Z) :=
  loop (fun st =>
    let buf := fst st in
    let m := snd st in
    let? r := sys (os_read fd (BUFSIZE - m - 1)) in
    let n := fst r in
    if n <=? 0 then done (inr buf) else
    let m := m + n in
    let buf := <[Z.to_nat m := 0]> (buf_store buf (m - n) (snd r)) in
    let? s := grep_scan pattern buf in
    let buf := fst s in
    let p := snd s in
    if 0 <? m then
      let m := m - p in
      done (inl (buf_store buf 0 (take (Z.to_nat m) (drop (Z.to_nat p) buf)), m))
    else done (inl (buf, m))) (buf, 0).

Definition grep_main (argv : list (list Z)) : U W unit :=
  match argv with
  | [] | [_] => do? fprintf 2 (line "usage: grep pattern [file ...]") [] in exit 1
  | [_; pattern] => do? grep (pattern ++ [0]) (replicate 1024 0) 0 in exit 0
  | _ :: pattern :: files =>
      do? each files (replicate 1024 0) (fun name buf =>
        let? fd := sys (os_open name 0) in
        if fd <? 0 then
          do? printf (line "grep: cannot open %s") [AStr (Some name)] in exit 1
        else
          let? buf := grep (pattern ++ [0]) buf fd in
          do? sys (os_close fd) in
          done (@inl _ unit buf)) in
      exit 0
  end.
End grep.

(** ** What a pattern means

    A pattern is a sequence of literal characters, [.], starred ones, and an
    end-of-line mark; it matches a text when it describes a prefix of it. *)

Inductive item := One (c : Z) | Star (c : Z) | Eol.

Fixpoint parse (s : list Z) : list item :=
  match s with
  | [] => []
  | c :: s1 =>
      match s1 with
      | [] => if c =? 36 then [Eol] else [One c]
      | d :: s2 => if d =? 42 then Star c :: parse s2 else One c :: parse s1
      end
  end.

Definition accepts (c x : Z) : Prop := c = 46 \/ c = x.

Inductive matches : list item -> list Z -> Prop :=
| matches_nil t : matches [] t
| matches_eol : matches [Eol] []
| matches_one c r x t : accepts c x -> matches r t -> matches (One c :: r) (x :: t)
| matches_star c r u t : Forall (accepts c) u -> matches r t -> matches (Star c :: r) (u ++ t).

(** A line is selected when the pattern matches somewhere in it, or at its
    start for a pattern that begins with [^]. *)
Definition selects (s t : list Z) : Prop :=
  match s with
  | 94 :: s' => matches (parse s') t
  | _ => exists pre suf, t = pre ++ suf /\ matches (parse s) suf
  end.

Abbreviation text := (Forall (fun c => c <> 0)).

(** ** The matcher decides the relation *)

Lemma nz_true t : t <> 0 -> nz t = true.
Proof. intros. unfold nz. by rewrite (proj2 (Z.eqb_neq t 0)). Qed.

Lemma accepts_bool c x : accepts c x <-> (c =? 46) || (c =? x) = true.
Proof. unfold accepts. rewrite orb_true_iff, !Z.eqb_eq. done. Qed.

Lemma matches_star_inv c r t :
  matches (Star c :: r) t <->
  matches r t \/ exists x t', t = x :: t' /\ accepts c x /\ matches (Star c :: r) t'.
Proof.
  split.
  - intros H. inversion H as [| | |? ? u t' Hu Hr]; subst. destruct u as [|x u]; [by left|].
    inversion Hu; subst. right. eexists _, _. split; [done|]. split; [done|]. by constructor.
  - intros [H|(x & t' & -> & Hx & H)]; [apply (matches_star c r []); [constructor|done]|].
    inversion H as [| | |? ? u t'' Hu Hr]; subst.
    apply (matches_star c r (x :: u)); [by constructor|done].
Qed.

Lemma matches_one_inv c r t :
  matches (One c :: r) t <-> exists x t', t = x :: t' /\ accepts c x /\ matches r t'.
Proof.
  split; [intros H; inversion H; subst; eauto|]. intros (x & t' & -> & ? & ?). by constructor.
Qed.

(** [decides o P]: the code returns, with the truth value of [P]. *)
Definition decides (o : option bool) (P : Prop) : Prop :=
  exists b, o = Some b /\ (b = true <-> P).

Lemma decides_iff o P P' : (P <-> P') -> decides o P -> decides o P'.
Proof. intros HP (b & -> & Hb). exists b. split; [done|]. by rewrite Hb. Qed.

Lemma matchstar_ok here c r rest :
  (forall t, text t -> decides (here (t ++ 0 :: rest)) (matches r t)) ->
  forall t, text t -> decides (matchstar here c (t ++ 0 :: rest)) (matches (Star c :: r) t).
Proof.
  intros Hh t. induction t as [|x t IH]; intros Ht; eapply decides_iff;
    try (symmetry; apply matches_star_inv); simpl.
  - destruct (Hh [] Ht) as (b & E & Hb). simpl in E. rewrite E.
    destruct b; [exists true|exists false]; (split; [done|]); [naive_solver|].
    split; [done|]. intros [H|(? & ? & ? & _)]; [by apply Hb|done].
  - destruct (Hh _ Ht) as (b & E & Hb). simpl in E. rewrite E. inversion Ht; subst.
    destruct b; [exists true; naive_solver|]. rewrite nz_true by done. simpl.
    rewrite orb_comm, (Z.eqb_sym x c). destruct (_ || _) eqn:Ea.
    + eapply decides_iff; [|by apply IH]. apply accepts_bool in Ea. split.
      * intros H. right. eauto.
      * intros [H|(? & ? & [= <- <-] & _ & H)]; [|done]. by apply Hb in H.
    + exists false. split; [done|]. split; [done|].
      intros [H|(? & ? & [= <- <-] & Hx & _)]; [by apply Hb|].
      apply accepts_bool in Hx. congruence.
Qed.

Lemma matchhere_cons c d re2 txt : c <> 0 ->
  matchhere (c :: d :: re2) txt =
  if d =? 42 then matchstar (matchhere re2) c txt else
  match txt with
  | [] => None
  | t :: txt' =>
      if (c =? 36) && (d =? 0) then Some (t =? 0) else
      if nz t && ((c =? 46) || (c =? t)) then matchhere (d :: re2) txt' else Some false
  end.
Proof. intros Hc. simpl. by rewrite (proj2 (Z.eqb_neq c 0)). Qed.

Lemma matchhere_last c rest t : c <> 0 -> text t ->
  decides (matchhere [c; 0] (t ++ 0 :: rest)) (matches (parse [c]) t).
Proof.
  intros Hc Ht. rewrite matchhere_cons by done. cbn [parse].
  destruct t as [|x t]; simpl; destruct (Z.eqb_spec c 36) as [->|H36]; simpl.
  - exists true. split; [done|]. split; [constructor|done].
  - exists false. split; [done|]. split; [done|]. intros H; inversion H.
  - inversion Ht; subst. rewrite (proj2 (Z.eqb_neq x 0)) by done.
    exists false. split; [done|]. split; [done|]. intros H; inversion H.
  - inversion Ht; subst. rewrite nz_true by done. simpl.
    exists ((c =? 46) || (c =? x)). split; [by destruct (_ || _)|].
    rewrite <- accepts_bool, matches_one_inv. split; [|naive_solver].
    intros. eexists _, _. split; [done|]. split; [done|constructor].
Qed.

Lemma matchhere_ok s rest : text s -> forall t, text t ->
  decides (matchhere (s ++ [0]) (t ++ 0 :: rest)) (matches (parse s) t).
Proof.
  remember (length s) as k eqn:Hk. revert s Hk.
  induction (lt_wf k) as [k _ IH]. intros s Hk Hs t Ht. destruct s as [|c s1].
  { exists true. split; [done|]. split; [constructor|done]. }
  inversion Hs as [|?? Hc Hs1]; subst. destruct s1 as [|d s2]; [by apply matchhere_last|].
  cbn [app]. rewrite matchhere_cons by done.
  inversion Hs1; subst. change (parse (c :: d :: s2)) with
    (if d =? 42 then Star c :: parse s2 else One c :: parse (d :: s2)).
  destruct (Z.eqb_spec d 42) as [->|Hd].
  - apply matchstar_ok; [|done]. intros t' Ht'. eapply (IH (length s2)); [simpl; lia|done..].
  - rewrite (proj2 (Z.eqb_neq d 0)), andb_false_r by done. destruct t as [|x t]; cbn [app].
    { exists false. split; [done|]. split; [done|]. intros H; inversion H. }
    inversion Ht; subst. rewrite nz_true by done. rewrite andb_true_l.
    eapply decides_iff; [symmetry; apply matches_one_inv|]. destruct (_ || _) eqn:Ea.
    + eapply decides_iff; [|apply (IH (length (d :: s2)) ltac:(simpl; lia) (d :: s2)); done].
      apply accepts_bool in Ea. naive_solver.
    + exists false. split; [done|]. split; [done|]. intros (? & ? & [= <- <-] & Hx & _).
      apply accepts_bool in Hx. congruence.
Qed.

Lemma match_any_ok s rest : text s -> forall t, text t ->
  decides (match_any (s ++ [0]) (t ++ 0 :: rest))
    (exists pre suf, t = pre ++ suf /\ matches (parse s) suf).
Proof.
  intros Hs t. induction t as [|x t IH]; intros Ht; simpl;
    destruct (matchhere_ok s rest Hs _ Ht) as (b & E & Hb); simpl in E; rewrite E; clear E;
    (destruct b; [exists true; split; [done|]; split; [intros _; exists []; naive_solver|done]|]).
  - exists false. split; [done|]. split; [done|]. intros (pre & suf & Hn & H).
    symmetry in Hn. apply app_nil in Hn as [-> ->]. by apply Hb.
  - inversion Ht; subst. rewrite nz_true by done. eapply decides_iff; [|by apply IH]. split.
    + intros (pre & suf & -> & H). by exists (x :: pre), suf.
    + intros ([|y pre] & suf & Hn & H); simpl in Hn; [subst suf; by apply Hb in H|].
      injection Hn as -> ->. eauto.
Qed.

Lemma match_ok s t rest : text s -> text t ->
  decides (match_ (s ++ [0]) (t ++ 0 :: rest)) (selects s t).
Proof.
  intros Hs Ht. destruct s as [|c s]; [by apply match_any_ok|].
  destruct (Z.eqb_spec c 94) as [->|Hc].
  - inversion Hs; subst. by apply matchhere_ok.
  - unfold match_. cbn [app]. rewrite (proj2 (Z.eqb_neq c 94)) by done.
    eapply decides_iff; [|by apply (match_any_ok (c :: s))].
    unfold selects. repeat (case_match; try done).
Qed.

(** ** The lines of a file *)

(** The complete lines of [data], the first one continuing [cur]. *)
Fixpoint lines_from (cur data : list Z) : list (list Z) :=
  match data with
  | [] => []
  | c :: d => if c =? 10 then cur :: lines_from [] d else lines_from (cur ++ [c]) d
  end.
Definition lines (data : list Z) : list (list Z) := lines_from [] data.

(** The lines that [sel] selects, each with its new line. *)
Definition selected (sel : list Z -> bool) (data : list Z) : list Z :=
  concat (map (fun l => l ++ [10]) (List.filter sel (lines data))).

(** No line fills the buffer. *)
Definition short (data : list Z) : Prop :=
  forall pre l suf, data = pre ++ l ++ suf -> 10 ∉ l -> Z.of_nat (length l) < BUFSIZE - 1.

Lemma lines_from_none cur l : 10 ∉ l -> lines_from cur l = [].
Proof.
  revert cur. induction l as [|c l IH]; intros cur Hl; simpl; [done|].
  apply not_elem_of_cons in Hl as [? ?]. rewrite (proj2 (Z.eqb_neq c 10)) by done. auto.
Qed.
Lemma lines_from_line cur l d :
  10 ∉ l -> lines_from cur (l ++ 10 :: d) = (cur ++ l) :: lines d.
Proof.
  revert cur. induction l as [|c l IH]; intros cur Hl; simpl; [by rewrite app_nil_r|].
  apply not_elem_of_cons in Hl as [? ?]. rewrite (proj2 (Z.eqb_neq c 10)) by done.
  rewrite IH by done. by rewrite <- app_assoc.
Qed.
Lemma selected_none sel l : 10 ∉ l -> selected sel l = [].
Proof. intros. unfold selected, lines. by rewrite lines_from_none. Qed.
Lemma selected_line sel l d : 10 ∉ l ->
  selected sel (l ++ 10 :: d) = (if sel l then l ++ [10] else []) ++ selected sel d.
Proof.
  intros. unfold selected, lines. rewrite lines_from_line by done. simpl. by destruct (sel l).
Qed.

Lemma short_suffix a d : short (a ++ d) -> short d.
Proof. intros Hs pre l suf ->. apply (Hs (a ++ pre) l suf). by rewrite <- app_assoc. Qed.

Lemma insert_middle {A} (l1 l2 : list A) x y i :
  i = length l1 -> <[i := y]> (l1 ++ x :: l2) = l1 ++ y :: l2.
Proof. intros ->. rewrite insert_app_r_alt by lia. by rewrite Nat.sub_diag. Qed.
Lemma drop_more {A} (l a b : list A) n : drop n l = a ++ b -> drop (n + length a) l = b.
Proof. intros E. rewrite <- drop_drop, E. apply drop_app_length. Qed.

(** [strchr] finds the end of the first complete line. *)
Lemma strchr_newline l rest : text l ->
  (10 ∉ l /\ strchr (l ++ 0 :: rest) 10 = Some None) \/
  (exists l1 l2, l = l1 ++ 10 :: l2 /\ 10 ∉ l1 /\
     strchr (l ++ 0 :: rest) 10 = Some (Some (Z.of_nat (length l1)))).
Proof.
  induction l as [|c l IH]; intros Hl; [left; split; [set_solver|done]|].
  inversion Hl; subst. simpl. rewrite (proj2 (Z.eqb_neq c 0)) by done.
  destruct (Z.eqb_spec c 10) as [->|Hc]; [right; exists [], l; split_and!; [done|set_solver|done]|].
  destruct IH as [[Hn ->]|(l1 & l2 & -> & Hn & ->)]; [done|left|right].
  - split; [set_solver|done].
  - exists (c :: l1), l2. split_and!; [done|set_solver|]. simpl. do 2 f_equal. lia.
Qed.

Section correct.
Context {W : Type} {HO : OS W} {fd : Z} {HS : Stream fd} (s : list Z) (Hs : text s).
Context (sel : list Z -> bool) (Hsel : forall t, text t -> (sel t = true <-> selects s t)).

Lemma match_sel t rest : text t -> match_ (s ++ [0]) (t ++ 0 :: rest) = Some (sel t).
Proof using Hs Hsel.
  intros Ht. destruct (match_ok s t rest Hs Ht) as (b & -> & Hb). f_equal.
  specialize (Hsel t Ht). destruct b, (sel t); naive_solver.
Qed.

(** What the inner loop keeps: the text not yet looked at, and the output
    that is still due. *)
Record scanning (rest P : list Z) (N : nat) (due : list Z -> list Z)
    (cur : list Z) (st : list Z * Z) (w : W) : Prop := {
  sc_p : 0 <= snd st;
  sc_cur : drop (Z.to_nat (snd st)) (fst st) = cur ++ 0 :: rest;
  sc_text : text cur;
  sc_len : length (fst st) = N;
  sc_pending : pending w = P;
  sc_due : forall X, sink w ++ selected sel (cur ++ X) = due X
}.

(** Passing a line: the buffer with the byte [c] left where the line ends. *)
Lemma scan_step rest P N due l1 l2 buf p c w w' :
  scanning rest P N due (l1 ++ 10 :: l2) (buf, p) w -> 10 ∉ l1 ->
  pending w' = pending w -> sink w' = sink w ++ (if sel l1 then l1 ++ [10] else []) ->
  drop (Z.to_nat p) (<[Z.to_nat (p + Z.of_nat (length l1)) := c]> buf) = l1 ++ c :: l2 ++ 0 :: rest /\
  scanning rest P N due l2
    (<[Z.to_nat (p + Z.of_nat (length l1)) := c]> buf, p + Z.of_nat (length l1) + 1) w'.
Proof using.
  intros [Hp Hd Ht Hl HP HD] Hn Hp' Hk. simpl in *.
  assert (Hd' : drop (Z.to_nat p) (<[Z.to_nat (p + Z.of_nat (length l1)) := c]> buf) =
                l1 ++ c :: l2 ++ 0 :: rest).
  { rewrite drop_insert_ge by lia. rewrite Hd, <- app_assoc. simpl. apply insert_middle. lia. }
  split; [done|]. apply Forall_app in Ht as [? Ht]. inversion Ht; subst. split; simpl.
  - lia.
  - replace (Z.to_nat _) with (Z.to_nat p + length (l1 ++ [c]))%nat by (rewrite length_app; simpl; lia).
    apply drop_more. rewrite Hd'. by rewrite <- app_assoc.
  - done.
  - by rewrite length_insert.
  - done.
  - intros X. rewrite <- HD, <- app_assoc, Hk. simpl. rewrite selected_line by done. by rewrite app_assoc.
Qed.

Lemma grep_scan_ok rest P N due cur buf w :
  scanning rest P N due cur (buf, 0) w -> Z.of_nat (length cur) < 2 ^ 64 ->
  uwp (grep_scan (s ++ [0]) buf) (fun st w' => exists a cur', cur = a ++ cur' /\ 10 ∉ cur' /\
    scanning rest P N due cur' st w') w.
Proof using Hs Hsel.
  intros Hi Hc. unfold grep_scan.
  apply (uwp_loop _ (fun c st w => exists a, cur = a ++ c /\ scanning rest P N due c st w)
           (fun c => Z.of_nat (length c)) _ cur); [|by exists []|lia].
  clear Hi Hc buf w. intros c [buf p] w (a & -> & Hi). cbn [fst snd]. destruct (id Hi) as [Hp Hd Ht _ _ _].
  simpl in Hp, Hd. apply uwp_then. rewrite Hd.
  destruct (strchr_newline c rest Ht) as [[Hn E]|(l1 & l2 & -> & Hn & E)];
    (eapply uwp_valid; [exact E|]); cbv beta iota.
  { apply uwp_done. eauto. }
  apply Forall_app in Ht as [Ht _].
  pose proof (fun c => scan_step rest P N due l1 l2 buf p c w) as w1.
  apply uwp_then. eapply uwp_valid.
  { rewrite drop_insert_ge, Hd, <- app_assoc by lia. simpl. rewrite insert_middle by lia. by apply match_sel. }
  assert (Hmu : 0 <= Z.of_nat (length l2) < Z.of_nat (length (l1 ++ 10 :: l2))).
  { rewrite length_app. simpl. lia. }
  assert (Ha : exists a', a ++ l1 ++ 10 :: l2 = a' ++ l2) by (exists (a ++ l1 ++ [10]); by rewrite <- !app_assoc).
  destruct Ha as [a' Ha]. cbv beta. destruct (sel l1) eqn:El.
  - rewrite list_insert_insert_eq. apply uwp_then, uwp_sys.
    eapply wp_conseq; [apply (write_all (fd := fd))|]. intros ? w' (_ & Hk & HP'). apply uwp_done.
    assert (Hk' : sink w' = sink w ++ l1 ++ [10]).
    { rewrite Hk. f_equal. rewrite drop_insert_ge, Hd, <- app_assoc by lia. simpl. rewrite insert_middle by lia.
      change (10 :: l2 ++ 0 :: rest) with ([10] ++ l2 ++ 0 :: rest). rewrite app_assoc.
      apply take_app_length'. rewrite length_app. simpl. lia. }
    destruct (w1 10 w' Hi Hn HP' Hk'). exists l2. eauto.
  - apply uwp_done. destruct (w1 0 w Hi Hn eq_refl) as [_ ?]; [by rewrite app_nil_r|]. exists l2. eauto.
Qed.

(** The outer loop: the start of an unfinished line is at the front of the
    buffer. *)
Record reading (out : list Z) (P : list Z) (st : list Z * Z) (w : W) : Prop := {
  rd_m : 0 <= snd st;
  rd_carry : 10 ∉ take (Z.to_nat (snd st)) (fst st);
  rd_len : length (fst st) = Z.to_nat BUFSIZE;
  rd_fits : snd st <= BUFSIZE;
  rd_pending : pending w = P;
  rd_text : text (take (Z.to_nat (snd st)) (fst st) ++ P);
  rd_short : short (take (Z.to_nat (snd st)) (fst st) ++ P);
  rd_due : sink w ++ selected sel (take (Z.to_nat (snd st)) (fst st) ++ P) = out
}.

(** The buffer after [read] stored [bs], as the inner loop finds it. *)
Lemma reading_scanning out bs P buf m w w' :
  reading out (bs ++ P) (buf, m) w -> bs <> [] ->
  m + Z.of_nat (length bs) <= BUFSIZE - 1 -> pending w' = P -> sink w' = sink w ->
  scanning (drop (Z.to_nat (m + Z.of_nat (length bs)) + 1) buf) P (Z.to_nat BUFSIZE)
    (fun X => sink w ++ selected sel (take (Z.to_nat m) buf ++ bs ++ X))
    (take (Z.to_nat m) buf ++ bs)
    (<[Z.to_nat (m + Z.of_nat (length bs)) := 0]> (buf_store buf m bs), 0) w'.
Proof using.
  intros [Hm Hc Hl Hf Hp Ht Hsh Hd] Hb Hn HP Hk. simpl in *. unfold BUFSIZE in *.
  assert (Hlt : length (take (Z.to_nat m) buf) = Z.to_nat m) by (rewrite length_take; lia).
  split; simpl; [lia| |by rewrite app_assoc in Ht; apply Forall_app in Ht as [? _]| |done|].
  - unfold buf_store. rewrite app_assoc.
    destruct (drop (Z.to_nat m + length bs) buf) as [|x r] eqn:E.
    { apply (f_equal length) in E. rewrite length_drop in E. simpl in E. lia. }
    rewrite insert_middle by (rewrite length_app; lia). do 2 f_equal.
    replace (Z.to_nat (m + Z.of_nat (length bs)) + 1)%nat with ((Z.to_nat m + length bs) + length [x])%nat by (simpl; lia).
    by rewrite (drop_more _ [x] r) by done.
  - rewrite length_insert, length_buf_store; lia.
  - intros X. by rewrite Hk, <- app_assoc.
Qed.

Lemma scanning_reading out bs P buf m w rest a cur buf' p w' :
  reading out (bs ++ P) (buf, m) w -> m + Z.of_nat (length bs) <= BUFSIZE - 1 ->
  length rest = Z.to_nat (BUFSIZE - (m + Z.of_nat (length bs)) - 1) ->
  take (Z.to_nat m) buf ++ bs = a ++ cur -> 10 ∉ cur ->
  scanning rest P (Z.to_nat BUFSIZE)
    (fun X => sink w ++ selected sel (take (Z.to_nat m) buf ++ bs ++ X)) cur (buf', p) w' ->
  m + Z.of_nat (length bs) - p = Z.of_nat (length cur) /\
  reading out P (buf_store buf' 0 (take (Z.to_nat (m + Z.of_nat (length bs) - p)) (drop (Z.to_nat p) buf')),
    m + Z.of_nat (length bs) - p) w'.
Proof using.
  intros [Hm Hc Hl Hf Hp Ht Hsh Hd] Hn Hr Ha Hc' [Hp' Hcur Ht' Hl' HP' Hd']. simpl in *. unfold BUFSIZE in *.
  assert (E : m + Z.of_nat (length bs) - p = Z.of_nat (length cur)).
  { apply (f_equal length) in Hcur, Ha. rewrite length_drop, length_app in Hcur. simpl in Hcur.
    rewrite !length_app, length_take in Ha. lia. }
  assert (Hla : (length cur <= Z.to_nat m + length bs)%nat).
  { apply (f_equal length) in Ha. rewrite !length_app, length_take in Ha. lia. }
  split; [done|]. rewrite E, Nat2Z.id, Hcur, take_app_length.
  assert (Htk : take (length cur) (buf_store buf' 0 cur) = cur).
  { unfold buf_store. simpl. apply take_app_length. }
  rewrite app_assoc, Ha, <- app_assoc in Ht, Hsh, Hd.
  split; simpl; rewrite ?Nat2Z.id, ?Htk; [lia|done| |unfold BUFSIZE; lia|done| |by eapply short_suffix|].
  - rewrite length_buf_store; unfold BUFSIZE; lia.
  - by apply Forall_app in Ht as [_ ?].
  - rewrite Hd', app_assoc, Ha, <- app_assoc. done.
Qed.

Lemma grep_ok buf w :
  length buf = Z.to_nat BUFSIZE -> text (pending w) -> short (pending w) ->
  Z.of_nat (length (pending w)) < 2 ^ 63 ->
  uwp (grep (s ++ [0]) buf fd) (fun _ w' =>
    sink w' = sink w ++ selected sel (pending w) /\ pending w' = []) w.
Proof using Hs Hsel.
  intros Hl Ht Hsh Hb. set (out := sink w ++ selected sel (pending w)). unfold grep.
  apply (uwp_loop _ (fun P st w => reading out P st w /\ Z.of_nat (length P) < 2 ^ 63)
           (fun P => Z.of_nat (length P)) _ (pending w)); [| |lia].
  2: { split; [|done]. split; simpl; try done. set_solver. }
  clear Hl Ht Hsh Hb. clearbody out. clear w buf. intros P [buf m] w [Hi HPb]. cbn [fst snd].
  destruct (id Hi) as [Hm Hc Hl Hf Hp Ht Hsh Hd]. simpl in *.
  assert (Hm' : m < BUFSIZE - 1).
  { specialize (Hsh [] (take (Z.to_nat m) buf) P eq_refl Hc). rewrite length_take in Hsh. unfold BUFSIZE in *. lia. }
  apply uwp_then, uwp_sys. eapply wp_conseq; [apply read_some; lia|].
  intros r w1 (bs & HP & -> & Hbl & Hend & Hk). cbn [fst snd]. rewrite Hp in HP, Hend. clear Hp. subst P.
  destruct (Z.leb_spec (Z.of_nat (length bs)) 0) as [H0|H0].
  { destruct bs; [|simpl in H0; lia]. apply uwp_done. specialize (Hend eq_refl). simpl in Hend, Hd. rewrite Hend in *.
    split; [|done]. rewrite <- Hd, app_nil_r, selected_none, app_nil_r by done. done. }
  assert (bs <> []) by (intros ->; simpl in H0; lia).
  rewrite length_app in HPb. rewrite Z.add_simpl_r.
  apply uwp_then. eapply uwp_conseq.
  { apply grep_scan_ok; [eapply reading_scanning; try done; lia|]. rewrite length_app, length_take. unfold BUFSIZE in *. lia. }
  intros [buf' p] w2 (a & cur & Ha & Hnc & Hsc). cbn [fst snd].
  rewrite (proj2 (Z.ltb_lt _ _)) by lia. apply uwp_done. exists (pending w1).
  rewrite length_app. split_and!; try lia.
  eapply scanning_reading; try done; [lia|]. rewrite length_drop. unfold BUFSIZE in *. lia.
Qed.
End correct.

(** ** Theorems *)

(** [C16] The matcher of grep and the meaning of a pattern agree: on a
    pattern and a line without NUL bytes, whatever follows the line's NUL in
    memory, [match_] returns, reads nothing past either string, and returns true
    exactly when the pattern, read as a sequence of literals, dots, starred
    characters and an end mark, matches at some place of the line (at its
    start, after a leading caret). *)
Theorem grep_match_equivalence s t rest : text s -> text t ->
  exists b, match_ (s ++ [0]) (t ++ 0 :: rest) = Some b /\ (b = true <-> selects s t).
Proof. apply match_ok. Qed.

(** [C17] Run on any stream of NUL-free data whose lines fit the buffer, in
    whatever pieces [read] delivers it, grep terminates having read all of it
    and having written exactly the complete lines the pattern selects, each
    with its new line and in order. A last line without a new line is never
    written. *)
Theorem grep_prints_selected {W} {HO : OS W} {fd} {HS : Stream fd} s buf w :
  text s -> length buf = Z.to_nat BUFSIZE ->
  text (pending w) -> short (pending w) -> Z.of_nat (length (pending w)) < 2 ^ 63 ->
  exists sel, (forall t, text t -> (sel t = true <-> selects s t)) /\
    uwp (grep (s ++ [0]) buf fd) (fun _ w' =>
      sink w' = sink w ++ selected sel (pending w) /\ pending w' = []) w.
Proof.
  intros Hs Hl Ht Hsh Hb.
  exists (fun t => match match_ (s ++ [0]) (t ++ [0]) with Some b => b | None => false end).
  assert (Hsel : forall t, text t ->
    match match_ (s ++ [0]) (t ++ [0]) with Some b => b | None => false end = true <-> selects s t).
  { intros t Ht'. by destruct (match_ok s t [] Hs Ht') as (b & -> & Hb'). }
  split; [done|]. by apply grep_ok.
Qed.

Module GrepSample.
Import Tape.
(** The pattern [^a.*c$] and a line it selects. *)
Lemma grep_match_equivalence_witness :
  exists b, match_ (bytes_of "^a.*c$" ++ [0]) (bytes_of "abbc" ++ 0 :: []) = Some b /\
    (b = true <-> selects (bytes_of "^a.*c$") (bytes_of "abbc")).
Proof.
  apply (grep_match_equivalence (bytes_of "^a.*c$") (bytes_of "abbc") []);
    apply (bool_decide_unpack _); vm_compute; exact I.
Defined.

Definition tape0 : tape := mk_tape (bytes_of "ax" ++ [10] ++ bytes_of "bcd" ++ [10] ++ bytes_of "b") [].

Lemma grep_prints_selected_witness :
  exists sel, (forall t, text t -> (sel t = true <-> selects (bytes_of "b") t)) /\
    uwp (grep (bytes_of "b" ++ [0]) (replicate 1024 0) 0) (fun _ w' =>
      sink w' = sink tape0 ++ selected sel (pending tape0) /\ pending w' = []) tape0.
Proof.
  apply (grep_prints_selected (bytes_of "b") (replicate 1024 0) tape0).
  - apply (bool_decide_unpack _); vm_compute; exact I.
  - reflexivity.
  - apply (bool_decide_unpack _); vm_compute; exact I.
  - intros pre l suf E _. apply (f_equal length) in E. rewrite !length_app in E.
    change (length (pending tape0)) with 8%nat in E. unfold BUFSIZE. lia.
  - vm_compute. reflexivity.
Defined.
End GrepSample.
