(* ===== verification/Uprogs.v ===== *)
(** * The small user programs

    [cat], [wc], [echo], [ls], [kill], [ln], [mkdir], [rm], [zombie],
    [setpriority], [strace], [time] and [init] of [user/]. A program takes its
    arguments as strings without their NUL; a global buffer is an argument and
    a result of the function that uses it. *)

From S2P Require Import Prelude Memory Cstring User Ulib.

Section programs.
Context {W : Type} `{OS W}.

(** ** cat *)

Definition cat (buf : list Z) (fd : Z) : U W (list Z) :=
  let? r := loop (fun buf =>
    let? r := sys (os_read fd 512) in
    let n := fst r in
    let buf := buf_store buf 0 (snd r) in
    if 0 <? n then
      let? k := sys (os_write 1 (take (Z.to_nat n) buf)) in
      do? uwhen (negb (k =? n)) (do? fprintf 2 (line "cat: write error") [] in exit 1) in
      done (inl buf)
    else done (inr (buf, n))) buf in
  do? uwhen (snd r <? 0) (do? fprintf 2 (line "cat: read error") [] in exit 1) in
  done (fst r).

(** Each file named on the command line in turn. *)
Definition each_file (buf : list Z) (files : list (list Z))
    (cannot : list Z -> U W unit) (body : list Z -> list Z -> Z -> U W (list Z)) : U W unit :=
  do? each files buf (fun name buf =>
    let? fd := sys (os_open name 0) in
    if fd <? 0 then do? cannot name in exit 1 else
    let? buf := body name buf fd in
    do? sys (os_close fd) in
    done (@inl _ unit buf)) in
  exit 0.

Definition cat_main (argv : list (list Z)) : U W unit :=
  if Z.of_nat (length argv) <=? 1 then do? cat (replicate 512 0) 0 in exit 0 else
  each_file (replicate 512 0) (tail argv)
    (fun name => fprintf 2 (line "cat: cannot open %s") [AStr (Some name)]) (fun _ => cat).

(** ** wc *)

(** [" \r\t\n\v"], with its NUL. *)
Definition spaces : list Z := [32; 13; 9; 10; 11; 0].

(** [l], [w], [c] and [inword]. *)
Record counts := mk_counts { nl_ : Z; nw : Z; nc : Z; inword : bool }.

Definition wc_byte (k : counts) (b : Z) : option counts :=
  match strchr spaces b with
  | None => None
  | Some sp =>
      let c := s32 (nc k + 1) in
      let l := if b =? 10 then s32 (nl_ k + 1) else nl_ k in
      match sp with
      | Some _ => Some (mk_counts l (nw k) c false)
      | None =>
          if negb (inword k) then Some (mk_counts l (s32 (nw k + 1)) c true)
          else Some (mk_counts l (nw k) c (inword k))
      end
  end.
Fixpoint wc_bytes (k : counts) (bs : list Z) : option counts :=
  match bs with
  | [] => Some k
  | b :: bs' => match wc_byte k b with Some k' => wc_bytes k' bs' | None => None end
  end.

Definition wc (name buf : list Z) (fd : Z) : U W (list Z) :=
  let? r := loop (fun st =>
    let k := snd st in
    let? r := sys (os_read fd 512) in
    let n := fst r in
    let buf := buf_store (fst st) 0 (snd r) in
    if 0 <? n then
      let? k := valid "wc" (wc_bytes k (take (Z.to_nat n) buf)) in
      done (inl (buf, k))
    else done (inr (buf, k, n))) (buf, mk_counts 0 0 0 false) in
  do? uwhen (snd r <? 0) (do? printf (line "wc: read error") [] in exit 1) in
  let k := snd (fst r) in
  do? printf (line "%d %d %d %s") [AInt (nl_ k); AInt (nw k); AInt (nc k); AStr (Some name)] in
  done (fst (fst r)).

Definition wc_main (argv : list (list Z)) : U W unit :=
  if Z.of_nat (length argv) <=? 1 then do? wc [] (replicate 512 0) 0 in exit 0 else
  each_file (replicate 512 0) (tail argv)
    (fun name => printf (line "wc: cannot open %s") [AStr (Some name)]) wc.

(** ** echo, kill, ln, mkdir, rm, zombie *)

Fixpoint echo_args (args : list (list Z)) : U W unit :=
  match args with
  | [] => done tt
  | a :: args' =>
      do? sys (os_write 1 a) in
      do? sys (os_write 1 (match args' with [] => [10] | _ => [32] end)) in
      echo_args args'
  end.
Definition echo_main (argv : list (list Z)) : U W unit :=
  do? echo_args (tail argv) in exit 0.

Definition kill_main (argv : list (list Z)) : U W unit :=
  if Z.of_nat (length argv) <? 2 then do? fprintf 2 (line "usage: kill pid...") [] in exit 1 else
  do? every (tail argv) (fun a =>
    let? pid := valid "atoi" (atoi (a ++ [0])) in
    do? sys (os_kill pid) in done tt) in
  exit 0.

Definition ln_main (argv : list (list Z)) : U W unit :=
  match argv with
  | [_; old; new] =>
      let? r := sys (os_link old new) in
      do? uwhen (r <? 0)
        (fprintf 2 (line "link %s %s: failed") [AStr (Some old); AStr (Some new)]) in
      exit 0
  | _ => do? fprintf 2 (line "Usage: ln old new") [] in exit 1
  end.

(** [op] on each argument until one fails. *)
Definition until_failure (args : list (list Z)) (op : list Z -> M W Z) (msg : string) : U W unit :=
  do? each args tt (fun a _ =>
    let? r := sys (op a) in
    if r <? 0 then do? fprintf 2 (line msg) [AStr (Some a)] in done (inr tt)
    else done (inl tt)) in
  exit 0.
Definition mkdir_main (argv : list (list Z)) : U W unit :=
  if Z.of_nat (length argv) <? 2 then do? fprintf 2 (line "Usage: mkdir files...") [] in exit 1
  else until_failure (tail argv) os_mkdir "mkdir: %s failed to create".
Definition rm_main (argv : list (list Z)) : U W unit :=
  if Z.of_nat (length argv) <? 2 then do? fprintf 2 (line "Usage: rm files...") [] in exit 1
  else until_failure (tail argv) os_unlink "rm: %s failed to delete".

Definition zombie_main : U W unit :=
  let? pid := sys os_fork in
  do? uwhen (0 <? pid) (do? sys (os_sleep 5) in done tt) in
  exit 0.

(** ** setpriority, strace, time *)

Definition setpriority_main (argv : list (list Z)) : U W unit :=
  match argv with
  | _ :: a1 :: a2 :: _ =>
      let? new_priority := valid "atoi" (atoi (a1 ++ [0])) in
      let? pid := valid "atoi" (atoi (a2 ++ [0])) in
      do? sys (os_setpriority new_priority pid) in
      exit 0
  | _ => do? printf (line "Invalid command") [] in exit 0
  end.

Definition strace_main (argv : list (list Z)) : U W unit :=
  match argv with
  | _ :: a1 :: a2 :: rest =>
      let? mask := valid "atoi" (atoi (a1 ++ [0])) in
      do? sys (os_trace mask) in
      do? exec a2 (a2 :: rest) in
      do? fprintf 2 (line "strace: %s exec failed") [AStr (Some a2)] in
      exit 0
  | _ => do? fprintf 2 (line "strace: Invalid syntax") [] in exit 1
  end.

Definition time_main (argv : list (list Z)) : U W unit :=
  let? pid := sys os_fork in
  if pid <? 0 then do? printf (line "fork(): failed") [] in exit 1
  else if pid =? 0 then
    match argv with
    | [] | [_] => do? sys (os_sleep 10) in exit 0
    | _ :: a1 :: rest =>
        do? exec a1 (a1 :: rest) in
        do? printf (line "exec(): failed") [] in
        exit 1
    end
  else
    let? r := sys os_waitx in
    do? printf (line (line (line "" +:+ "waiting:%d") +:+ "running:%d"))
          [AInt (snd (fst (snd r))); AInt (snd (snd r))] in
    exit 0.

(** ** init *)

Definition CONSOLE : Z := 1.

Definition init_main : U W unit :=
  let? fd := sys (os_open (bytes_of "console") O_RDWR) in
  do? uwhen (fd <? 0)
    (do? sys (os_mknod (bytes_of "console") CONSOLE 0) in
     do? sys (os_open (bytes_of "console") O_RDWR) in done tt) in
  do? sys (os_dup 0) in
  do? sys (os_dup 0) in
  loop (fun _ : unit =>
    do? printf (line "init: starting sh") [] in
    let? pid := sys os_fork in
    do? uwhen (pid <? 0) (do? printf (line "init: fork failed") [] in exit 1) in
    do? uwhen (pid =? 0)
      (do? exec (bytes_of "sh") [bytes_of "sh"] in
       do? printf (line "init: exec sh failed") [] in exit 1) in
    do? loop (fun _ : unit =>
      let? r := sys os_wait in
      let wpid := fst r in
      if wpid =? pid then done (inr tt) else
      if wpid <? 0 then do? printf (line "init: wait returned an error") [] in exit 1
      else done (inl tt)) tt in
    done (inl tt)) tt.

(** ** ls *)

Definition T_DIR : Z := 1.
Definition T_FILE : Z := 2.
Definition T_DEVICE : Z := 3.
Definition DIRSIZ : nat := 14.

(** [for(p = path+strlen(path); p >= path && *p != '/'; p--); p++;] from the
    index [p]. *)
Fixpoint after_slash (path : list Z) (p : nat) : nat :=
  if bool_decide (path !! p = Some 47) then S p else
  match p with O => O | S p' => after_slash path p' end.
Definition fmtname (path : list Z) : list Z :=
  let name := drop (after_slash path (length path)) path in
  if (DIRSIZ <=? length name)%nat then name
  else name ++ replicate (DIRSIZ - length name) 32.

Definition ls_line (size : string) (path : list Z) (st : stat) (n : varg) : U W unit :=
  printf (line ("%s %d %d " +:+ size))
    [AStr (Some (fmtname path)); AInt (st_type st); AInt (s32 (st_ino st)); n].

(** The entries of a directory; [path] is the directory's name and a slash. *)
Definition ls_dir (path : list Z) (fd : Z) : U W unit :=
  loop (fun _ : unit =>
    let? r := sys (os_read fd 16) in
    if negb (fst r =? 16) then done (inr tt) else
    let de := snd r in
    let inum := default 0 (de !! 0%nat) + 256 * default 0 (de !! 1%nat) in
    if inum =? 0 then done (inl tt) else
    let buf := path ++ cstr (take DIRSIZ (drop 2 de)) in
    let? s := stat_ buf in
    match snd s with
    | Some st =>
        do? ls_line "%d" buf st (AInt (s32 (st_size st))) in done (inl tt)
    | None => do? printf (line "ls: cannot stat %s") [AStr (Some buf)] in done (inl tt)
    end) tt.

Definition ls (path : list Z) : U W unit :=
  let? fd := sys (os_open path 0) in
  if fd <? 0 then fprintf 2 (line "ls: cannot open %s") [AStr (Some path)] else
  let? r := sys (os_fstat fd) in
  if fst r <? 0 then
    do? fprintf 2 (line "ls: cannot stat %s") [AStr (Some path)] in
    do? sys (os_close fd) in done tt
  else
    let st := snd r in
    do? (if (st_type st =? T_DEVICE) || (st_type st =? T_FILE)
         then ls_line "%l" path st (ALong (st_size st))
         else if st_type st =? T_DIR then
           if 512 <? Z.of_nat (length path) + 1 + Z.of_nat DIRSIZ + 1
           then printf (line "ls: path too long") []
           else ls_dir (path ++ [47]) fd
         else done tt) in
    do? sys (os_close fd) in done tt.

Definition ls_main (argv : list (list Z)) : U W unit :=
  if Z.of_nat (length argv) <? 2 then do? ls (bytes_of ".") in exit 0 else
  do? every (tail argv) ls in exit 0.
End programs.

(** ** What cat and wc do *)

(** The words of [data]: its maximal runs of bytes that are not spaces, the
    first one continuing [cur]. *)
Definition is_space (b : Z) : bool := bool_decide (b ∈ [32; 13; 9; 10; 11]).
Fixpoint words_from (cur data : list Z) : list (list Z) :=
  match data with
  | [] => match cur with [] => [] | _ => [cur] end
  | b :: d =>
      if is_space b then match cur with [] => words_from [] d | _ => cur :: words_from [] d end
      else words_from (cur ++ [b]) d
  end.
Definition words (data : list Z) : list (list Z) := words_from [] data.
Definition newlines (data : list Z) : nat := length (List.filter (Z.eqb 10) data).

Lemma strchr_spaces b : exists r, strchr spaces b = Some r /\ (is_Some r <-> is_space b = true).
Proof.
  unfold is_space. destruct (decide (b ∈ [32; 13; 9; 10; 11])) as [Hb|Hb].
  - rewrite bool_decide_true by done.
    repeat (apply elem_of_cons in Hb as [->|Hb]; [eexists; split; [reflexivity|]; split; [done|by eexists]|]).
    by apply elem_of_nil in Hb.
  - rewrite bool_decide_false by done. exists None. split; [|split; [by intros []|done]].
    unfold spaces. cbn [strchr]. rewrite !not_elem_of_cons in Hb. destruct Hb as (? & ? & ? & ? & ? & _).
    by rewrite !(proj2 (Z.eqb_neq _ b)) by done.
Qed.

(** Only whether a word is being continued matters to their number. *)
Lemma words_from_length c1 c2 data : (c1 = [] <-> c2 = []) ->
  length (words_from c1 data) = length (words_from c2 data).
Proof.
  revert c1 c2. induction data as [|b d IH]; intros c1 c2 Hc; simpl.
  - destruct c1, c2; naive_solver.
  - case_match; [destruct c1, c2; naive_solver|]. apply IH. split; intros H1; by apply app_nil in H1 as [_ ?].
Qed.

(** [counted k b k']: the counts after the byte [b] when they were [k]. The
    number of words is exact once the rest of the data is known. *)
Definition total (k : counts) (more : list Z) : Z :=
  nw k + Z.of_nat (length (words_from (if inword k then [1] else []) more)) - b2z (inword k).

Lemma wc_byte_ok b k :
  nc k + 1 < 2 ^ 31 -> 0 <= nl_ k <= nc k -> 0 <= nw k <= nc k ->
  exists k', wc_byte k b = Some k' /\ nc k' = nc k + 1 /\ nl_ k' = nl_ k + b2z (b =? 10) /\
    nw k <= nw k' <= nw k + 1 /\ forall more, total k' more = total k (b :: more).
Proof.
  intros Hb Hl Hw. unfold wc_byte, total. destruct (strchr_spaces b) as (sp & -> & Hsp).
  assert (HL : (if b =? 10 then s32 (nl_ k + 1) else nl_ k) = nl_ k + b2z (b =? 10)).
  { destruct (b =? 10); simpl; rewrite ?s32_small by lia; lia. }
  rewrite HL, (s32_small (nc k + 1)) by lia. cbn [words_from].
  destruct sp as [i|], (is_space b) eqn:Es.
  - eexists. split; [done|]. simpl. split_and!; try lia. intros more. destruct (inword k); simpl; lia.
  - by specialize (proj1 Hsp ltac:(by eexists)) as [=].
  - by destruct (proj2 Hsp eq_refl).
  - destruct (inword k) eqn:Ew; simpl.
    + eexists. split; [done|]. simpl. split_and!; try lia. intros more. cbn [b2z].
      rewrite (words_from_length [1] [1; b]) by done. lia.
    + rewrite (s32_small (nw k + 1)) by lia. eexists. split; [done|]. simpl. split_and!; try lia.
      intros more. rewrite (words_from_length [1] [b]) by done. lia.
Qed.

Lemma newlines_cons b d : Z.of_nat (newlines (b :: d)) = b2z (b =? 10) + Z.of_nat (newlines d).
Proof. unfold newlines. cbn [List.filter]. rewrite (Z.eqb_sym 10 b). destruct (b =? 10); simpl; lia. Qed.
Lemma newlines_app a b : newlines (a ++ b) = (newlines a + newlines b)%nat.
Proof. unfold newlines. by rewrite List.filter_app, length_app. Qed.

Lemma wc_bytes_ok data k :
  nc k + Z.of_nat (length data) < 2 ^ 31 -> 0 <= nl_ k <= nc k -> 0 <= nw k <= nc k ->
  exists k', wc_bytes k data = Some k' /\
    nc k' = nc k + Z.of_nat (length data) /\ 0 <= nl_ k' <= nc k' /\ 0 <= nw k' <= nc k' /\
    nl_ k' = nl_ k + Z.of_nat (newlines data) /\ forall more, total k' more = total k (data ++ more).
Proof.
  revert k. induction data as [|b d IH]; intros k Hb Hl Hw; cbn [wc_bytes].
  { exists k. unfold newlines. simpl. split_and!; try done; lia. }
  cbn [length] in Hb. destruct (wc_byte_ok b k) as (k1 & -> & Hc1 & Hl1 & Hw1 & Hm1); [lia..|].
  destruct (IH k1) as (k' & -> & Hc & Hl' & Hw' & Hn & Hm); [destruct (b =? 10); simpl in *; lia..|].
  exists k'. rewrite Hc, Hc1, Hn, Hl1, newlines_cons. cbn [length].
  split_and!; try done; try lia. intros more. by rewrite Hm, Hm1.
Qed.
Lemma wc_bytes_app k a b k' : wc_bytes k a = Some k' -> wc_bytes k (a ++ b) = wc_bytes k' b.
Proof.
  revert k. induction a as [|x a IH]; intros k; simpl; [by intros [= ->]|]. case_match; [apply IH|done].
Qed.

(** All the data, counted from zero. *)
Lemma wc_all data k : Z.of_nat (length data) < 2 ^ 31 ->
  wc_bytes (mk_counts 0 0 0 false) data = Some k ->
  nl_ k = Z.of_nat (newlines data) /\ nw k = Z.of_nat (length (words data)) /\
  nc k = Z.of_nat (length data).
Proof.
  intros Hb E. destruct (wc_bytes_ok data (mk_counts 0 0 0 false)) as (k' & E' & Hc & _ & _ & Hn & Ht);
    [simpl; lia..|]. rewrite E in E'. injection E' as <-. simpl in *. split_and!; [lia| |lia].
  specialize (Ht []). unfold total in Ht. rewrite app_nil_r in Ht. simpl in Ht. unfold words.
  destruct (inword k); simpl in Ht; lia.
Qed.

Lemma u8_decimal n : 0 <= n < 2 ^ 31 -> u8 <$> int_chars n 10 true = int_chars n 10 true.
Proof.
  intros Hn. destruct (int_chars_dec n Hn) as [Hd _]. induction Hd as [|c l Hc _ IH]; [done|].
  rewrite fmap_cons, IH, u8_small by lia. done.
Qed.
Lemma newlines_le data : (newlines data <= length data)%nat.
Proof. unfold newlines. apply List.filter_length_le. Qed.
Lemma words_from_le cur data :
  (length (words_from cur data) <= length data + match cur with [] => 0 | _ => 1 end)%nat.
Proof.
  revert cur. induction data as [|b d IH]; intros cur; simpl; [by destruct cur|].
  case_match.
  - specialize (IH []). simpl in IH. destruct cur; simpl; lia.
  - specialize (IH (cur ++ [b])). destruct cur; simpl in *; lia.
Qed.

Section correct.
Context {W : Type} {HO : OS W} {fd : Z} {HS : Stream fd}.

Lemma stored buf bs : take (length bs) (buf_store buf 0 bs) = bs.
Proof using. unfold buf_store. simpl. apply take_app_length. Qed.

Lemma cat_ok buf w : Z.of_nat (length (pending w)) < 2 ^ 64 ->
  uwp (cat buf fd) (fun _ w' => sink w' = sink w ++ pending w /\ pending w' = []) w.
Proof using.
  intros Hb. unfold cat. apply uwp_then.
  apply (uwp_loop _ (fun P _ w' => pending w' = P /\ sink w' ++ P = sink w ++ pending w)
           (fun P => Z.of_nat (length P)) _ (pending w)); [|done|lia].
  intros P b w1 [HP Hk]. apply uwp_then, uwp_sys. eapply wp_conseq; [apply read_some; lia|].
  intros r w2 (bs & Hbs & -> & Hn & Hend & Hk2). cbn [fst snd].
  destruct (Z.ltb_spec 0 (Z.of_nat (length bs))) as [H0|H0].
  - apply uwp_then, uwp_sys. eapply wp_conseq; [apply write_all|]. intros k w3 (-> & Hk3 & HP3).
    rewrite Nat2Z.id, stored in *. rewrite Z.eqb_refl. cbn [negb]. uwp_steps. exists (pending w2).
    rewrite HP3, Hk3, Hk2, <- Hk, <- HP, Hbs, length_app, app_assoc. split_and!; [done|done|lia|lia].
  - destruct bs; [|simpl in H0; lia]. specialize (Hend eq_refl). apply uwp_done. cbn [snd length Z.of_nat].
    rewrite (proj2 (Z.ltb_ge _ _)) by lia. uwp_steps. subst P. rewrite Hend in Hk, Hbs.
    rewrite Hk2, <- Hk, app_nil_r. done.
Qed.

Lemma wc_ok name buf w : Z.of_nat (length (pending w)) < 2 ^ 31 ->
  let data := pending w in
  uwp (wc name buf fd) (fun _ w' => pending w' = [] /\
    sink w' = sink w ++ int_chars (Z.of_nat (newlines data)) 10 true ++ [32] ++
      int_chars (Z.of_nat (length (words data))) 10 true ++ [32] ++
      int_chars (Z.of_nat (length data)) 10 true ++ [32] ++ (u8 <$> name) ++ [10]) w.
Proof using.
  intros Hb data. unfold wc. apply uwp_then.
  apply (uwp_loop _ (fun P st w' => exists seen, data = seen ++ P /\ pending w' = P /\ sink w' = sink w /\
      wc_bytes (mk_counts 0 0 0 false) seen = Some (snd st))
           (fun P => Z.of_nat (length P)) _ data); [|by exists []|unfold data; lia].
  intros P [b k] w1 (seen & Hd & HP & Hk & Hc). apply uwp_then, uwp_sys.
  eapply wp_conseq; [apply read_some; lia|].
  intros r w2 (bs & Hbs & -> & Hn & Hend & Hk2). cbn [fst snd] in *. rewrite HP in Hbs, Hend. clear HP.
  destruct (Z.ltb_spec 0 (Z.of_nat (length bs))) as [H0|H0].
  - rewrite Nat2Z.id, stored. rewrite Hbs, app_assoc in Hd.
    destruct (wc_bytes_ok (seen ++ bs) (mk_counts 0 0 0 false)) as (k' & E & _).
    { apply (f_equal length) in Hd. rewrite length_app in Hd. simpl. unfold data in Hd. lia. }
    1-2: simpl; lia.
    apply uwp_then. eapply uwp_valid; [by rewrite <- (wc_bytes_app _ seen bs k Hc)|].
    apply uwp_done. exists (pending w2). split; [exists (seen ++ bs); by rewrite Hk2|].
    rewrite Hbs, length_app. lia.
  - destruct bs; [|simpl in H0; lia]. rewrite (Hend eq_refl) in Hbs, Hd. simpl in Hbs.
    rewrite app_nil_r in Hd. subst seen. apply uwp_done. cbn [fst snd length Z.of_nat].
    rewrite (proj2 (Z.ltb_ge _ _)) by lia. uwp_step. uwp_step. uwp_step.
    destruct (wc_all data k Hb Hc) as (-> & -> & ->).
    pose proof (newlines_le data). pose proof (words_from_le [] data). simpl in *. fold (words data) in *.
    apply uwp_then. eapply uwp_conseq; [apply printf_stream; reflexivity|].
    intros [] w3 [Hk3 HP3]. apply uwp_done. rewrite HP3, Hk3, Hk2, Hk, !u8_decimal by (unfold data in *; lia).
    done.
Qed.
End correct.
