(* ===== verification/Sh.v ===== *)
(** * The shell ([user/sh.c])

    The recursive-descent parser on the line buffer, with commands as trees
    whose words are pairs of indices into the buffer, [nulterminate], which
    then cuts the words in place, and the interpreter over system calls. The
    nodes come from [malloc], which is taken to succeed. *)

From S2P Require Import Prelude Memory Cstring User Ulib.

(** ** Commands *)

Definition MAXARGS : Z := 10.

(** [struct cmd] and what it points to. A string is the indices of its first
    byte and of the byte after its last one: [argv[i]] and [eargv[i]], [file]
    and [efile]. *)
Inductive cmd :=
| EXEC (argv : list (Z * Z))
| REDIR (c : cmd) (file efile mode fd : Z)
| PIPE (left right : cmd)
| LIST (left right : cmd)
| BACK (c : cmd).

Definition execcmd : cmd := EXEC [].
Definition redircmd (subcmd : cmd) (file efile mode fd : Z) : cmd := REDIR subcmd file efile mode fd.
Definition pipecmd (left right : cmd) : cmd := PIPE left right.
Definition listcmd (left right : cmd) : cmd := LIST left right.
Definition backcmd (subcmd : cmd) : cmd := BACK subcmd.

(** [parseexec] keeps a pointer to its [execcmd] while redirections are
    wrapped around it: adding an argument through that pointer. *)
Fixpoint add_arg (c : cmd) (q eq : Z) : cmd :=
  match c with
  | EXEC argv => EXEC (argv ++ [(q, eq)])
  | REDIR c f ef mode fd => REDIR (add_arg c q eq) f ef mode fd
  | _ => c
  end.

(** ** Tokens *)

(** [" \t\r\n\v"] and ["<|>&;()"], with their NUL. *)
Definition whitespace : list Z := [32; 9; 13; 10; 11; 0].
Definition symbols : list Z := [60; 124; 62; 38; 59; 40; 41; 0].

(** [strchr(set, c)] as a condition; the sets end in NUL. *)
Definition in_set (set : list Z) (c : Z) : bool :=
  match strchr set c with Some (Some _) => true | _ => false end.

Definition at_ (buf : list Z) (s : Z) : option Z := if s <? 0 then None else buf !! Z.to_nat s.

(** [while(s < es && p( *s)) s++;], where [n] is [es - s]. *)
Fixpoint scan (p : Z -> bool) (buf : list Z) (s : Z) (n : nat) : option Z :=
  match n with
  | O => Some s
  | S n' =>
      match at_ buf s with
      | None => None
      | Some c => if p c then scan p buf (s + 1) n' else Some s
      end
  end.
Definition skip (p : Z -> bool) (buf : list Z) (es s : Z) : option Z := scan p buf s (Z.to_nat (es - s)).
Definition skip_space (buf : list Z) (es s : Z) : option Z := skip (in_set whitespace) buf es s.

Record token := mk_token { tok : Z; tok_q : Z; tok_eq : Z; tok_ps : Z }.

(** The [switch] of [gettoken] at [s]: the token and where it ends. *)
Definition token_at (buf : list Z) (es s c : Z) : option (Z * Z) :=
  if c =? 0 then Some (c, s) else
  if (c =? 124) || (c =? 40) || (c =? 41) || (c =? 59) || (c =? 38) || (c =? 60) then Some (c, s + 1) else
  if c =? 62 then
    match at_ buf (s + 1) with
    | None => None
    | Some d => if d =? 62 then Some (43, s + 1 + 1) else Some (c, s + 1)
    end
  else
    match skip (fun c => negb (in_set whitespace c) && negb (in_set symbols c)) buf es s with
    | None => None
    | Some s' => Some (97, s')
    end.

Definition gettoken (buf : list Z) (es ps : Z) : option token :=
  match skip_space buf es ps with
  | None => None
  | Some s =>
      match at_ buf s with
      | None => None
      | Some c =>
          match token_at buf es s c with
          | None => None
          | Some (ret, eq) =>
              match skip_space buf es eq with
              | None => None
              | Some ps' => Some (mk_token ret s eq ps')
              end
          end
      end
  end.

(** The result and the new [*ps]. *)
Definition peek (buf : list Z) (es ps : Z) (toks : list Z) : option (bool * Z) :=
  match skip_space buf es ps with
  | None => None
  | Some s =>
      match at_ buf s with
      | None => None
      | Some c => Some (nz c && in_set toks c, s)
      end
  end.

Section shell.
Context {W : Type} `{OS W}.

Definition panic {A} (s : string) : U W A :=
  do? fprintf 2 (line "%s") [AStr (Some (bytes_of s))] in exit 1.

Definition fork1 : U W Z :=
  let? pid := sys os_fork in
  do? uwhen (pid =? -1) (panic "fork") in
  done pid.

(** ** The parser

    Each function takes the buffer, its end and [*ps], and returns the command
    with the new [*ps]. [n] bounds the depth of the recursion. *)

Section parser.
Context (buf : list Z) (es : Z).

Definition parseredirs (c : cmd) (ps : Z) : U W (cmd * Z) :=
  loop (fun st =>
    let c := fst st in
    let? p := valid "peek" (peek buf es (snd st) [60; 62; 0]) in
    if negb (fst p) then done (inr (c, snd p)) else
    let? t := valid "gettoken" (gettoken buf es (snd p)) in
    let? f := valid "gettoken" (gettoken buf es (tok_ps t)) in
    if negb (tok f =? 97) then panic "missing file for redirection" else
    let q := tok_q f in
    let eq := tok_eq f in
    done (inl (
      (if tok t =? 60 then redircmd c q eq O_RDONLY 0
       else if tok t =? 62 then redircmd c q eq (Z.lor (Z.lor O_WRONLY O_CREATE) O_TRUNC) 1
       else if tok t =? 43 then redircmd c q eq (Z.lor O_WRONLY O_CREATE) 1
       else c), tok_ps f))) (c, ps).

(** The loop of [parseexec]: the command, [argc] and [*ps]. *)
Definition parseargs (c : cmd) (ps : Z) : U W (cmd * Z) :=
  loop (fun st =>
    let c := fst (fst st) in
    let argc := snd (fst st) in
    let? p := valid "peek" (peek buf es (snd st) [124; 41; 38; 59; 0]) in
    if fst p then done (inr (c, snd p)) else
    let? t := valid "gettoken" (gettoken buf es (snd p)) in
    if tok t =? 0 then done (inr (c, tok_ps t)) else
    if negb (tok t =? 97) then panic "syntax" else
    let c := add_arg c (tok_q t) (tok_eq t) in
    let argc := argc + 1 in
    if MAXARGS <=? argc then panic "too many args" else
    let? r := parseredirs c (tok_ps t) in
    done (inl (fst r, argc, snd r))) (c, 0, ps).

(** [while(peek(ps, es, "&")) { gettoken(ps, es, 0, 0); cmd = backcmd(cmd); }] *)
Definition parseback (c : cmd) (ps : Z) : U W (cmd * Z) :=
  loop (fun st =>
    let? p := valid "peek" (peek buf es (snd st) [38; 0]) in
    if negb (fst p) then done (inr (fst st, snd p)) else
    let? t := valid "gettoken" (gettoken buf es (snd p)) in
    done (inl (backcmd (fst st), tok_ps t))) (c, ps).

Fixpoint parseline (n : nat) (ps : Z) : U W (cmd * Z) :=
  match n with
  | O => fun w => Fuel w
  | S n' =>
      let? c := parsepipe n' ps in
      let? c := parseback (fst c) (snd c) in
      let? p := valid "peek" (peek buf es (snd c) [59; 0]) in
      if fst p then
        let? t := valid "gettoken" (gettoken buf es (snd p)) in
        let? r := parseline n' (tok_ps t) in
        done (listcmd (fst c) (fst r), snd r)
      else done (fst c, snd p)
  end
with parsepipe (n : nat) (ps : Z) : U W (cmd * Z) :=
  match n with
  | O => fun w => Fuel w
  | S n' =>
      let? c := parseexec n' ps in
      let? p := valid "peek" (peek buf es (snd c) [124; 0]) in
      if fst p then
        let? t := valid "gettoken" (gettoken buf es (snd p)) in
        let? r := parsepipe n' (tok_ps t) in
        done (pipecmd (fst c) (fst r), snd r)
      else done (fst c, snd p)
  end
with parseblock (n : nat) (ps : Z) : U W (cmd * Z) :=
  match n with
  | O => fun w => Fuel w
  | S n' =>
      let? p := valid "peek" (peek buf es ps [40; 0]) in
      if negb (fst p) then panic "parseblock" else
      let? t := valid "gettoken" (gettoken buf es (snd p)) in
      let? c := parseline n' (tok_ps t) in
      let? p := valid "peek" (peek buf es (snd c) [41; 0]) in
      if negb (fst p) then panic "syntax - missing )" else
      let? t := valid "gettoken" (gettoken buf es (snd p)) in
      parseredirs (fst c) (tok_ps t)
  end
with parseexec (n : nat) (ps : Z) : U W (cmd * Z) :=
  match n with
  | O => fun w => Fuel w
  | S n' =>
      let? p := valid "peek" (peek buf es ps [40; 0]) in
      if fst p then parseblock n' (snd p) else
      let? r := parseredirs execcmd (snd p) in
      parseargs (fst r) (snd r)
  end.
End parser.

(** [*e = 0] in the buffer. *)
Definition cut (buf : list Z) (e : Z) : list Z := <[Z.to_nat e := 0]> buf.

Fixpoint nulterminate (c : cmd) (buf : list Z) : list Z :=
  match c with
  | EXEC argv => foldl (fun buf a => cut buf (snd a)) buf argv
  | REDIR c _ efile _ _ => cut (nulterminate c buf) efile
  | PIPE l r | LIST l r => nulterminate r (nulterminate l buf)
  | BACK c => nulterminate c buf
  end.

(** The command and the buffer its words are in. *)
Definition parsecmd (buf : list Z) : U W (cmd * list Z) :=
  let? es := valid "strlen" (strlen buf) in
  let? c := parseline buf es (4 * (length buf + 1)) 0 in
  let? p := valid "peek" (peek buf es (snd c) [0]) in
  if negb (snd p =? es) then
    do? fprintf 2 (line "leftovers: %s") [AStr (Some (cstr (drop (Z.to_nat (snd p)) buf)))] in
    panic "syntax"
  else done (fst c, nulterminate (fst c) buf).

(** ** The interpreter *)

(** The C string at index [q]. *)
Definition str_at (buf : list Z) (q : Z) : list Z := cstr (drop (Z.to_nat q) buf).

Fixpoint runcmd (c : cmd) (buf : list Z) : U W unit :=
  match c with
  | EXEC argv =>
      match argv with
      | [] => exit 1
      | a :: _ =>
          let path := str_at buf (fst a) in
          do? exec path (map (fun a => str_at buf (fst a)) argv) in
          do? fprintf 2 (line "exec %s failed") [AStr (Some path)] in
          exit 0
      end
  | REDIR c file _ mode fd =>
      do? sys (os_close fd) in
      let? r := sys (os_open (str_at buf file) mode) in
      do? uwhen (r <? 0)
        (do? fprintf 2 (line "open %s failed") [AStr (Some (str_at buf file))] in exit 1) in
      do? runcmd c buf in
      exit 0
  | LIST l r =>
      let? pid := fork1 in
      do? uwhen (pid =? 0) (runcmd l buf) in
      do? sys os_wait in
      do? runcmd r buf in
      exit 0
  | PIPE l r =>
      let? p := sys os_pipe in
      do? uwhen (fst p <? 0) (panic "pipe") in
      let p0 := fst (snd p) in
      let p1 := snd (snd p) in
      let? pid := fork1 in
      do? uwhen (pid =? 0)
        (do? sys (os_close 1) in
         do? sys (os_dup p1) in
         do? sys (os_close p0) in
         do? sys (os_close p1) in
         runcmd l buf) in
      let? pid := fork1 in
      do? uwhen (pid =? 0)
        (do? sys (os_close 0) in
         do? sys (os_dup p0) in
         do? sys (os_close p0) in
         do? sys (os_close p1) in
         runcmd r buf) in
      do? sys (os_close p0) in
      do? sys (os_close p1) in
      do? sys os_wait in
      do? sys os_wait in
      exit 0
  | BACK c =>
      let? pid := fork1 in
      do? uwhen (pid =? 0) (runcmd c buf) in
      exit 0
  end.

(** ** The command loop *)

(** The result and the buffer of [nbuf] bytes. *)
Definition getcmd (nbuf : Z) : U W (Z * list Z) :=
  do? sys (os_write 2 (bytes_of "$ ")) in
  let? bs := gets nbuf in
  let buf := buf_store (replicate (Z.to_nat nbuf) 0) 0 bs in
  let? c := valid "getcmd" (at_ buf 0) in
  if c =? 0 then done (-1, buf) else done (0, buf).

(** [buf[0] == 'c' && buf[1] == 'd' && buf[2] == ' '] *)
Definition is_cd (buf : list Z) : bool := bool_decide (take 3 buf = [99; 100; 32]).

Definition sh_main : U W unit :=
  do? loop (fun _ : unit =>
    let? fd := sys (os_open (bytes_of "console") O_RDWR) in
    if 0 <=? fd then
      if 3 <=? fd then do? sys (os_close fd) in done (inr tt) else done (inl tt)
    else done (inr tt)) tt in
  do? loop (fun _ : unit =>
    let? g := getcmd 100 in
    let buf := snd g in
    if negb (0 <=? fst g) then done (inr tt) else
    if is_cd buf then
      let? n := valid "strlen" (strlen buf) in
      let dir := str_at (cut buf (n - 1)) 3 in
      let? r := sys (os_chdir dir) in
      do? uwhen (r <? 0) (fprintf 2 (line "cannot cd %s") [AStr (Some dir)]) in
      done (inl tt)
    else
      let? pid := fork1 in
      do? uwhen (pid =? 0) (let? c := parsecmd buf in runcmd (fst c) (snd c)) in
      do? sys os_wait in
      done (inl tt)) tt in
  exit 0.
End shell.
