(* ===== verification/ShSpec.v ===== *)
(** * The shell's parser is correct

    The grammar of command lines, spelled with any white space, and the
    theorem that [parsecmd] turns every line of the grammar into the command
    it stands for, with every word cut out of the buffer in place. *)

From S2P Require Import Prelude Memory Cstring User Ulib Sh.

(** ** Lexical structure *)

Definition space (c : Z) : Prop := in_set whitespace c = true.
Definition word_char (c : Z) : bool := negb (c =? 0) && (negb (in_set whitespace c) && negb (in_set symbols c)).
Abbreviation all_space := (Forall space).
Abbreviation all_word := (Forall (fun c => word_char c = true)).

Inductive stok : Type := TWord (w : list Z) | TLt | TGt | TAppend | TPipe | TAmp | TSemi | TOpen | TClose.

Definition chars (t : stok) : list Z :=
  match t with
  | TWord w => w
  | TLt => [60] | TGt => [62] | TAppend => [62; 62]
  | TPipe => [124] | TAmp => [38] | TSemi => [59] | TOpen => [40] | TClose => [41]
  end.
#[export] Instance stok_eq_dec : EqDecision stok.
Proof. solve_decision. Defined.
(** What [gettoken] returns for it. *)
Definition code (t : stok) : Z :=
  match t with
  | TWord _ => 97
  | TLt => 60 | TGt => 62 | TAppend => 43
  | TPipe => 124 | TAmp => 38 | TSemi => 59 | TOpen => 40 | TClose => 41
  end.
Definition good_tok (t : stok) : Prop := match t with TWord w => w <> [] /\ all_word w | _ => True end.

(** A token ends where the next byte cannot continue it. *)
Definition apart (t : stok) (r : list Z) : Prop :=
  match t with
  | TWord _ => match r with [] => True | c :: _ => word_char c = false end
  | TGt => match r with [] => True | c :: _ => c <> 62 end
  | _ => True
  end.

(** [spells ts r]: the bytes [r] are the tokens [ts] with white space between. *)
Inductive spells : list stok -> list Z -> Prop :=
| spells_nil ws : all_space ws -> spells [] ws
| spells_cons ws t ts r :
    all_space ws -> good_tok t -> apart t r -> spells ts r -> spells (t :: ts) (ws ++ chars t ++ r).

(** ** Grammar *)

Inductive rkind := RIn | ROut | RAppend.
Definition rtok (k : rkind) : stok := match k with RIn => TLt | ROut => TGt | RAppend => TAppend end.
Definition rmode (k : rkind) : Z := match k with RIn => 0 | ROut => 1537 | RAppend => 513 end.
Definition rfd (k : rkind) : Z := match k with RIn => 0 | _ => 1 end.

(** A simple command is a sequence of arguments and redirections. *)
Inductive item := IArg (w : list Z) | IRedir (k : rkind) (w : list Z).
Definition itoks (i : item) : list stok :=
  match i with IArg w => [TWord w] | IRedir k w => [rtok k; TWord w] end.

Inductive ast :=
| ASimple (items : list item)
| AGroup (a : ast) (rs : list (rkind * list Z))       (* ( a ) >f ... *)
| APipe (l r : ast)
| ABack (a : ast) (m : nat)                           (* a & & ... *)
| AList (l r : ast).

Definition rtoks (rs : list (rkind * list Z)) : list stok := concat (map (fun r => [rtok (fst r); TWord (snd r)]) rs).
Fixpoint toks (a : ast) : list stok :=
  match a with
  | ASimple its => concat (map itoks its)
  | AGroup a rs => TOpen :: toks a ++ TClose :: rtoks rs
  | APipe l r => toks l ++ TPipe :: toks r
  | ABack a m => toks a ++ replicate m TAmp
  | AList l r => toks l ++ TSemi :: toks r
  end.

Definition args (its : list item) : list (list Z) :=
  omap (fun i => match i with IArg w => Some w | _ => None end) its.
Definition redirs (its : list item) : list (rkind * list Z) :=
  omap (fun i => match i with IRedir k w => Some (k, w) | _ => None end) its.

(** The level of the grammar an expression belongs to, and that its parts
    belong to the levels the grammar asks for. *)
Definition level (a : ast) : nat :=
  match a with ASimple _ | AGroup _ _ => 0 | APipe _ _ => 1 | ABack _ _ => 2 | AList _ _ => 3 end.
Fixpoint grammatical (a : ast) : Prop :=
  match a with
  | ASimple its => Z.of_nat (length (args its)) < MAXARGS
  | AGroup a _ => grammatical a
  | APipe l r => grammatical l /\ level l = 0%nat /\ grammatical r /\ (level r <= 1)%nat
  | ABack a _ => grammatical a /\ (level a <= 1)%nat
  | AList l r => grammatical l /\ (level l <= 2)%nat /\ grammatical r
  end.

(** How deep the parser recurses, in grammar levels. *)
Fixpoint height (a : ast) : nat :=
  match a with
  | ASimple _ => 1
  | AGroup a _ => S (height a)
  | APipe l r | AList l r => Nat.max (height l) (S (height r))
  | ABack a _ => height a
  end.

Lemma height_pos a : (1 <= height a)%nat.
Proof. induction a; simpl; lia. Qed.

(** ** Meaning *)

(** A command with its words. *)
Inductive rcmd :=
| RExec (argv : list (list Z))
| RRedir (c : rcmd) (file : list Z) (mode fd : Z)
| RPipe (l r : rcmd)
| RList (l r : rcmd)
| RBack (c : rcmd).

Definition wraps (rs : list (rkind * list Z)) (c : rcmd) : rcmd :=
  foldl (fun c r => RRedir c (snd r) (rmode (fst r)) (rfd (fst r))) c rs.
Fixpoint meaning (a : ast) : rcmd :=
  match a with
  | ASimple its => wraps (redirs its) (RExec (args its))
  | AGroup a rs => wraps rs (meaning a)
  | APipe l r => RPipe (meaning l) (meaning r)
  | ABack a m => Nat.iter m RBack (meaning a)
  | AList l r => RList (meaning l) (meaning r)
  end.

(** The words a command points to in a buffer. *)
Fixpoint resolve (buf : list Z) (c : cmd) : rcmd :=
  match c with
  | EXEC argv => RExec (map (fun a => str_at buf (fst a)) argv)
  | REDIR c f _ mode fd => RRedir (resolve buf c) (str_at buf f) mode fd
  | PIPE l r => RPipe (resolve buf l) (resolve buf r)
  | LIST l r => RList (resolve buf l) (resolve buf r)
  | BACK c => RBack (resolve buf c)
  end.

Lemma height_toks a : (height a <= length (toks a) + 1)%nat.
Proof. induction a; simpl; rewrite ?length_app; simpl; rewrite ?length_app; simpl; lia. Qed.

(** ** The scanner *)

Lemma at_app a b : at_ (a ++ b) (Z.of_nat (length a)) = b !! 0%nat.
Proof.
  unfold at_. rewrite (proj2 (Z.ltb_ge _ 0)) by lia. rewrite Nat2Z.id.
  rewrite lookup_app_r by lia. by rewrite Nat.sub_diag.
Qed.

Lemma scan_ok p a b c rest : Forall (fun x => p x = true) b ->
  match c with [] => True | x :: _ => p x = false end ->
  scan p (a ++ b ++ c ++ rest) (Z.of_nat (length a)) (length (b ++ c)) = Some (Z.of_nat (length (a ++ b))).
Proof.
  revert a. induction b as [|x b IH]; intros a Hb Hc; simpl.
  - rewrite app_nil_r. destruct c as [|x c]; simpl; [done|]. rewrite at_app. simpl. by rewrite Hc.
  - inversion Hb; subst. rewrite at_app. simpl. rewrite H1.
    specialize (IH (a ++ [x]) ltac:(done) Hc). rewrite <- !app_assoc in IH. simpl in IH.
    rewrite length_app in IH. simpl in IH. rewrite Nat2Z.inj_add in IH. simpl in IH. done.
Qed.

(** The line [T] in the buffer, and the scanner somewhere in it. *)
Section line.
Context (T J : list Z).
Abbreviation buf := (T ++ 0 :: J).
Abbreviation es := (Z.of_nat (length T)).

Lemma skip_ok p a b c : T = a ++ b ++ c -> Forall (fun x => p x = true) b ->
  match c with [] => True | x :: _ => p x = false end ->
  skip p buf es (Z.of_nat (length a)) = Some (Z.of_nat (length (a ++ b))).
Proof.
  intros -> Hb Hc. unfold skip.
  replace (Z.to_nat _) with (length (b ++ c)) by (rewrite !length_app; lia).
  rewrite <- !app_assoc. by apply scan_ok.
Qed.

(** [here s ts]: the tokens [ts] are what is left of the line at [s]. *)
Definition here (s : Z) (ts : list stok) : Prop :=
  exists a r, T = a ++ r /\ s = Z.of_nat (length a) /\ spells ts r.

(** The same with the white space skipped. *)
Definition there (s : Z) (ts : list stok) : Prop :=
  exists a r, T = a ++ r /\ s = Z.of_nat (length a) /\
    match ts with
    | [] => r = []
    | t :: ts' => exists r', r = chars t ++ r' /\ good_tok t /\ apart t r' /\ spells ts' r'
    end.

Lemma there_here s ts : there s ts -> here s ts.
Proof.
  intros (a & r & HT & Hs & H). exists a, r. split_and!; [done..|].
  destruct ts as [|t ts]; [subst r; by constructor|]. destruct H as (r' & -> & ? & ? & ?).
  by apply (spells_cons []).
Qed.

(** The first byte of a token is not white space. *)
Lemma chars_first t : good_tok t -> exists c cs, chars t = c :: cs /\ c <> 0 /\ in_set whitespace c = false.
Proof.
  destruct t as [w| | | | | | | |]; simpl; try (intros _; by eexists _, _).
  intros [Hn Hw]. destruct w as [|c w]; [done|]. inversion Hw as [|?? Hc]; subst. eexists _, _. split; [done|].
  unfold word_char in Hc. zbool. done.
Qed.

Lemma skip_here s ts : here s ts -> exists s', skip_space buf es s = Some s' /\ there s' ts.
Proof.
  intros (a & r & HT & -> & H). inversion H as [ws Hw|ws t ts' r' Hw Ht Ha Hr]; subst.
  - exists (Z.of_nat (length (a ++ r))). split.
    + apply (skip_ok _ a r []); [by rewrite app_nil_r|done|done].
    + exists (a ++ r), []. by rewrite app_nil_r.
  - exists (Z.of_nat (length (a ++ ws))). split.
    + destruct (chars_first t Ht) as (c & cs & E & _ & Hc).
      apply (skip_ok _ a ws (chars t ++ r')); [done|done|]. by rewrite E.
    + exists (a ++ ws), (chars t ++ r'). rewrite <- app_assoc. split_and!; [done..|]. eauto.
Qed.

Lemma at_there s ts : there s ts ->
  at_ buf s = Some (match ts with [] => 0 | t :: _ => default 0 (chars t !! 0%nat) end).
Proof.
  intros (a & r & HT & -> & H). rewrite HT at 1. rewrite <- app_assoc, at_app.
  destruct ts as [|t ts]; [by subst r|]. destruct H as (r' & -> & Ht & _).
  by destruct (chars_first t Ht) as (c & cs & -> & _).
Qed.

Definition head_in (set : list Z) (ts : list stok) : bool :=
  match ts with [] => false | t :: _ => in_set set (default 0 (chars t !! 0%nat)) end.

Lemma peek_ok s ts set : here s ts -> exists s', peek buf es s set = Some (head_in set ts, s') /\ there s' ts.
Proof.
  intros H. destruct (skip_here s ts H) as (s' & E & H'). exists s'. split; [|done].
  unfold peek. rewrite E, (at_there s' ts H'). destruct ts as [|t ts]; [done|]. simpl.
  destruct H' as (a & r & _ & _ & r' & _ & Ht & _). destruct (chars_first t Ht) as (c & cs & -> & Hc & _).
  simpl. unfold nz. by rewrite (proj2 (Z.eqb_neq c 0)).
Qed.

(** A word of the line: its bounds, and that it ends there. *)
Definition word_at (p : Z * Z) (w : list Z) : Prop :=
  exists a b, T = a ++ w ++ b /\ fst p = Z.of_nat (length a) /\ snd p = Z.of_nat (length (a ++ w)) /\
    all_word w /\ match b with [] => True | c :: _ => word_char c = false end.

Lemma gettoken_end s : here s [] -> exists t, gettoken buf es s = Some t /\ tok t = 0 /\ here (tok_ps t) [].
Proof.
  intros H. destruct (skip_here s [] H) as (s' & E & H'). unfold gettoken. rewrite E, (at_there s' [] H').
  unfold token_at. simpl. destruct (skip_here s' [] (there_here _ _ H')) as (s'' & E2 & H2). rewrite E2.
  eexists. split; [done|]. split; [done|]. by apply there_here.
Qed.

Context (HT : Forall (fun c => c <> 0) T).

Lemma word_char_not c : word_char c = true -> c <> 0 /\ Forall (fun x => c <> x) [124; 40; 41; 59; 38; 60; 62].
Proof. intros H. split; [by intros ->|]. repeat constructor; by intros ->. Qed.

Lemma token_there s t ts : there s (t :: ts) ->
  token_at buf es s (default 0 (chars t !! 0%nat)) = Some (code t, s + Z.of_nat (length (chars t))) /\
  here (s + Z.of_nat (length (chars t))) ts /\
  (forall w, t = TWord w -> word_at (s, s + Z.of_nat (length (chars t))) w).
Proof using HT.
  intros (a & r & E & -> & r' & -> & Ht & Ha & Hr).
  assert (Hlen : Z.of_nat (length a) + Z.of_nat (length (chars t)) = Z.of_nat (length (a ++ chars t)))
    by (rewrite length_app; lia).
  split_and!; [|rewrite Hlen; exists (a ++ chars t), r'; by rewrite <- app_assoc|].
  - destruct t as [w| | | | | | | |]; try done; simpl in *.
    + destruct Ht as [Hn Hw]. destruct w as [|c w]; [done|]. unfold token_at. cbn [lookup list_lookup default].
      inversion Hw as [|?? Hc Hw']; subst x l. destruct (word_char_not c Hc) as [H0 Hs]. simpl.
      repeat (inversion Hs as [|?? ? Hs']; subst x l; clear Hs; rename Hs' into Hs).
      rewrite !(proj2 (Z.eqb_neq c _)) by done. simpl.
      rewrite (skip_ok _ a (c :: w) r'); [do 2 f_equal; rewrite length_app; simpl; lia|done| |].
      * eapply Forall_impl; [|exact Hw]. intros x Hx. unfold word_char in Hx. by apply andb_true_iff in Hx as [_ ?].
      * destruct r' as [|x r']; [done|]. unfold word_char in Ha. apply andb_false_iff in Ha as [Ha|Ha]; [|done].
        zbool. subst x. rewrite E in HT. rewrite !Forall_app in HT. destruct HT as (_ & _ & Hz).
        by inversion Hz.
    + unfold token_at. simpl. replace (Z.of_nat (length a) + 1) with (Z.of_nat (length (a ++ [62]))) by (rewrite length_app; simpl; lia).
      rewrite E. change (62 :: r') with ([62] ++ r'). rewrite app_assoc, <- app_assoc, at_app.
      destruct r' as [|x r']; simpl; [|rewrite (proj2 (Z.eqb_neq x 62)) by done]; do 2 f_equal; rewrite length_app; simpl; lia.
    + unfold token_at. simpl. replace (Z.of_nat (length a) + 1) with (Z.of_nat (length (a ++ [62]))) by (rewrite length_app; simpl; lia).
      rewrite E. change (62 :: 62 :: r') with ([62] ++ 62 :: r'). rewrite app_assoc, <- app_assoc, at_app.
      simpl. do 2 f_equal. rewrite length_app. simpl. lia.
  - intros w ->. exists a, r'. simpl in *. destruct Ht. split_and!; try done.
Qed.

Lemma gettoken_ok s t ts : here s (t :: ts) -> exists g, gettoken buf es s = Some g /\ tok g = code t /\
  here (tok_ps g) ts /\ (forall w, t = TWord w -> word_at (tok_q g, tok_eq g) w).
Proof using HT.
  intros H. destruct (skip_here s _ H) as (s' & E & H'). unfold gettoken. rewrite E, (at_there s' _ H').
  destruct (token_there s' t ts H') as (-> & H2 & Hw). cbv iota.
  destruct (skip_here _ ts H2) as (s2 & E2 & H3). rewrite E2.
  eexists. split; [done|]. simpl. split; [done|]. split; [by apply there_here|done].
Qed.

(** ** The parser *)

(** [denotes c r]: the tree [c] is [r], its words being words of the line. *)
Inductive denotes : cmd -> rcmd -> Prop :=
| d_exec argv ws : Forall2 word_at argv ws -> denotes (EXEC argv) (RExec ws)
| d_redir c r q eq w mode fd :
    denotes c r -> word_at (q, eq) w -> denotes (REDIR c q eq mode fd) (RRedir r w mode fd)
| d_pipe l r l' r' : denotes l l' -> denotes r r' -> denotes (PIPE l r) (RPipe l' r')
| d_list l r l' r' : denotes l l' -> denotes r r' -> denotes (LIST l r) (RList l' r')
| d_back c r : denotes c r -> denotes (BACK c) (RBack r).

Definition simple (its : list item) : rcmd := wraps (redirs its) (RExec (args its)).

Lemma wraps_app a b c : wraps (a ++ b) c = wraps b (wraps a c).
Proof using. apply foldl_app. Qed.
Lemma simple_redirs its rs : simple (its ++ map (fun r => IRedir (fst r) (snd r)) rs) = wraps rs (simple its).
Proof using.
  unfold simple, redirs, args. rewrite !omap_app, wraps_app.
  assert (forall rs : list (rkind * list Z), omap (fun i => match i with IRedir k w => Some (k, w) | _ => None end)
    (map (fun r => IRedir (fst r) (snd r)) rs) = rs) as ->.
  { intros l. induction l as [|[] l IH]; [done|]. cbn. f_equal. exact IH. }
  assert (forall rs : list (rkind * list Z), omap (fun i => match i with IArg w => Some w | _ => None end)
    (map (fun r => IRedir (fst r) (snd r)) rs) = []) as ->; [|by rewrite app_nil_r].
  intros l. induction l as [|[] l IH]; [done|]. exact IH.
Qed.

Lemma add_arg_ok c rs ws q eq w :
  denotes c (wraps rs (RExec ws)) -> word_at (q, eq) w ->
  denotes (add_arg c q eq) (wraps rs (RExec (ws ++ [w]))).
Proof using.
  revert c. induction rs as [|r rs IH] using rev_ind; intros c Hc Hw; rewrite ?wraps_app in *; simpl in *.
  - inversion Hc; subst. simpl. constructor. apply Forall2_app; [done|]. by repeat constructor.
  - inversion Hc; subst. simpl. constructor; [|done]. by apply IH.
Qed.
Lemma simple_arg c its q eq w :
  denotes c (simple its) -> word_at (q, eq) w -> denotes (add_arg c q eq) (simple (its ++ [IArg w])).
Proof using.
  intros Hc Hw. unfold simple, redirs, args in *. rewrite !omap_app. simpl. rewrite app_nil_r.
  by apply add_arg_ok.
Qed.

Lemma here_length s ts : here s ts -> (length ts <= length T)%nat.
Proof using.
  intros (a & r & E & _ & H). assert (Hl : (length ts <= length r)%nat).
  { clear E. induction H as [|ws t ts r Hw Ht Ha Hr IH]; simpl; [lia|].
    destruct (chars_first t Ht) as (c & cs & Ec & _). rewrite !length_app, Ec. simpl. lia. }
  rewrite E, length_app. lia.
Qed.

Lemma good_word s w ts : here s (TWord w :: ts) -> exists c w', w = c :: w' /\ word_char c = true.
Proof using.
  intros (a & r & _ & _ & H). inversion H as [|? ? ? ? _ Hg]; subst. destruct Hg as [Hn Hw].
  destruct w as [|c w]; [done|]. inversion Hw; subst. eauto.
Qed.
(** A word does not begin like an operator. *)
Lemma word_not_in set c : word_char c = true -> (forall x, x ∈ set -> x = 0 \/ in_set symbols x = true) ->
  in_set set c = false.
Proof using.
  intros Hc Hs. unfold in_set. induction set as [|x set IH]; [done|]. simpl.
  destruct (Z.eqb_spec x 0); [done|]. destruct (Z.eqb_spec x c) as [->|].
  - unfold word_char in Hc. zbool. destruct (Hs c ltac:(left)); congruence.
  - specialize (IH ltac:(intros; apply Hs; by right)). by destruct (strchr set c) as [[]|].
Qed.
Lemma word_head s w ts set : here s (TWord w :: ts) -> (forall x, x ∈ set -> x = 0 \/ in_set symbols x = true) ->
  head_in set (TWord w :: ts) = false.
Proof using. intros H. destruct (good_word _ _ _ H) as (c & w' & -> & Hc). by apply word_not_in. Qed.

Context {W : Type} {HO : OS W} (HL : Z.of_nat (length T) < 2 ^ 63).

(** [parses m r ts]: [m] returns a tree for [r] and leaves [ts], without
    touching the world. *)
Definition parses (m : U W (cmd * Z)) (r : rcmd) (ts : list stok) : Prop :=
  forall w, uwp m (fun x w' => w' = w /\ denotes (fst x) r /\ here (snd x) ts) w.

Lemma uwp_peek {A} s ts set (k : bool * Z -> U W A) Q w :
  here s ts -> (forall s', here s' ts -> uwp (k (head_in set ts, s')) Q w) ->
  uwp (then_ (valid "peek" (peek buf es s set)) k) Q w.
Proof using.
  intros H Hk. destruct (peek_ok s ts set H) as (s' & E & H'). apply uwp_then.
  eapply uwp_valid; [exact E|]. apply Hk. by apply there_here.
Qed.
Lemma uwp_token {A} s t ts (k : token -> U W A) Q w :
  here s (t :: ts) -> (forall g, tok g = code t -> here (tok_ps g) ts ->
    (forall wd, t = TWord wd -> word_at (tok_q g, tok_eq g) wd) -> uwp (k g) Q w) ->
  uwp (then_ (valid "gettoken" (gettoken buf es s)) k) Q w.
Proof using HT.
  intros H Hk. destruct (gettoken_ok s t ts H) as (g & E & H1 & H2 & H3). apply uwp_then.
  eapply uwp_valid; [exact E|]. by apply Hk.
Qed.

Lemma parseredirs_ok rs ts c r s :
  here s (rtoks rs ++ ts) -> head_in [60; 62; 0] ts = false -> denotes c r ->
  parses (parseredirs buf es c s) (wraps rs r) ts.
Proof using HT HL.
  intros Hh Ht Hc w0. unfold parseredirs.
  apply (uwp_loop _ (fun rs' st w => exists r', here (snd st) (rtoks rs' ++ ts) /\ denotes (fst st) r' /\
    wraps rs' r' = wraps rs r /\ w = w0) (fun rs' => Z.of_nat (length rs')) _ rs).
  3: { apply here_length in Hh. rewrite length_app in Hh. unfold rtoks in Hh.
       assert (length rs <= length (concat (map (fun r => [rtok (fst r); TWord (snd r)]) rs)))%nat; [|lia].
       clear. induction rs; simpl; lia. }
  2: by exists r.
  clear s c Hh Hc. intros rs' [c s] w (r' & Hh & Hc & Hr & ->). cbn [fst snd] in *.
  apply (uwp_peek s _ _ _ _ _ Hh). intros s' Hh'. destruct rs' as [|[k wd] rs']; cbn [fst snd].
  - simpl. rewrite Ht. apply uwp_done. rewrite <- Hr. done.
  - assert (Hi : head_in [60; 62; 0] (rtoks ((k, wd) :: rs') ++ ts) = true) by (by destruct k).
    rewrite Hi. cbn [negb].
    apply (uwp_token s' (rtok k) (TWord wd :: rtoks rs' ++ ts)); [done|]. intros g Eg Hg _.
    apply (uwp_token _ (TWord wd) (rtoks rs' ++ ts)); [done|]. intros f Ef Hf Hw. rewrite Ef. cbn [code Z.eqb negb].
    apply uwp_done. exists rs'. split; [|simpl; lia]. exists (RRedir r' wd (rmode k) (rfd k)).
    split_and!; [done| |done|done]. rewrite Eg. destruct k; simpl; (constructor; [done|by apply Hw]).
Qed.

Definition ops : list Z := [124; 41; 38; 59; 0].
(** What may follow a simple command. *)
Definition stops (ts : list stok) : Prop :=
  match ts with [] | TPipe :: _ | TAmp :: _ | TSemi :: _ | TClose :: _ => True | _ => False end.
(** What may follow a line. *)
Definition ends (ts : list stok) : Prop := match ts with [] | TClose :: _ => True | _ => False end.
Definition arg_first (its : list item) : Prop := match its with IRedir _ _ :: _ => False | _ => True end.

Lemma sub_symbols set x : forallb (fun x => (x =? 0) || in_set symbols x) set = true ->
  x ∈ set -> x = 0 \/ in_set symbols x = true.
Proof using.
  intros Hf Hx. rewrite forallb_forall in Hf. specialize (Hf x ltac:(by apply list_elem_of_In)).
  apply orb_true_iff in Hf as [?|?]; [left; by apply Z.eqb_eq|by right].
Qed.

(** The redirections in front of the remaining items. *)
Lemma redirs_first its : exists rs rest, its = map (fun r => IRedir (fst r) (snd r)) rs ++ rest /\
  arg_first rest /\ concat (map itoks its) = rtoks rs ++ concat (map itoks rest).
Proof using.
  induction its as [|[w|k w] its (rs & rest & E & Hf & Ht)]; [by exists [], []|by eexists [], _|].
  exists ((k, w) :: rs), rest. simpl. split_and!; [by f_equal|done|by rewrite Ht].
Qed.

Lemma stops_not_redir its ts s : arg_first its -> stops ts -> here s (concat (map itoks its) ++ ts) ->
  head_in [60; 62; 0] (concat (map itoks its) ++ ts) = false.
Proof using.
  intros Hf Hs Hh. destruct its as [|[w|k w] its]; simpl in *; [|by eapply word_head; [done|intros x; by apply sub_symbols]|done].
  by destruct ts as [|[] ts].
Qed.

Lemma here_skip ts1 ts2 s : here s (ts1 ++ ts2) -> exists s', here s' ts2.
Proof using.
  intros (a & r & E & _ & H). revert a r E H. induction ts1 as [|t ts1 IH]; intros a r E H.
  - by exists (Z.of_nat (length a)), a, r.
  - simpl in H. inversion H as [|ws t' ? r1 _ _ _ H1]; subst.
    eapply (IH (a ++ ws ++ chars t)); [|exact H1]. by rewrite E, <- !app_assoc.
Qed.

(** One redirection list inside a simple command. *)
Lemma redirs_step pre its ts c s : here s (concat (map itoks its) ++ ts) -> stops ts -> denotes c (simple pre) ->
  exists pre' rest, pre ++ its = pre' ++ rest /\ args pre' = args pre /\ arg_first rest /\
    (length rest <= length its)%nat /\
    parses (parseredirs buf es c s) (simple pre') (concat (map itoks rest) ++ ts).
Proof using HT HL.
  intros Hh Hs Hc. destruct (redirs_first its) as (rs & rest & E & Hf & Et).
  rewrite Et, <- app_assoc in Hh.
  exists (pre ++ map (fun r => IRedir (fst r) (snd r)) rs), rest. rewrite <- app_assoc, <- E. split_and!; [done| |done| |].
  - unfold args. rewrite omap_app. assert (omap (fun i => match i with IArg w => Some w | _ => None end)
      (map (fun r => IRedir (fst r) (snd r)) rs) = []) as ->; [|by rewrite app_nil_r].
    clear. induction rs as [|[] rs IH]; [done|]. exact IH.
  - rewrite E, length_app. lia.
  - rewrite simple_redirs. apply parseredirs_ok; [done| |done].
    destruct (here_skip _ _ _ Hh) as [s' Hs'].
    by eapply stops_not_redir.
Qed.

Lemma parseargs_ok its pre ts c s :
  here s (concat (map itoks its) ++ ts) -> arg_first its -> stops ts -> denotes c (simple pre) -> args pre = [] ->
  Z.of_nat (length (args (pre ++ its))) < MAXARGS ->
  parses (parseargs buf es c s) (simple (pre ++ its)) ts.
Proof using HT HL.
  intros Hh Hf Hs Hc Hp Hn w0. unfold parseargs.
  apply (uwp_loop _ (fun rest st w => exists pre', pre ++ its = pre' ++ rest /\ arg_first rest /\
    here (snd st) (concat (map itoks rest) ++ ts) /\ denotes (fst (fst st)) (simple pre') /\
    snd (fst st) = Z.of_nat (length (args pre')) /\ w = w0) (fun rest => Z.of_nat (length rest)) _ its).
  3: { apply here_length in Hh. rewrite length_app in Hh.
       assert (length its <= length (concat (map itoks its)))%nat; [|lia].
       clear. induction its as [|[] its IH]; simpl; lia. }
  2: { exists pre. rewrite Hp. done. }
  clear s c Hh Hc Hf. intros rest [[c argc] s] w (pre' & Ep & Hf & Hh & Hc & Ha & ->). cbn [fst snd] in *.
  apply (uwp_peek s _ _ _ _ _ Hh). intros s' Hh'. fold ops. destruct rest as [|[wd|k wd] rest]; [| |done]; cbn [fst snd].
  - simpl in *. rewrite app_nil_r in Ep. rewrite Ep. destruct (decide (ts = [])) as [->|Hne].
    + cbn [head_in]. destruct (gettoken_end s' Hh') as (g & E & Hg & Hh2). apply uwp_then.
      eapply uwp_valid; [exact E|]. rewrite Hg. simpl. by apply uwp_done.
    + assert (Hi : head_in ops ts = true) by (by destruct ts as [|[] ts]). rewrite Hi. by apply uwp_done.
  - assert (Hi : head_in ops (concat (map itoks (IArg wd :: rest)) ++ ts) = false).
    { eapply word_head; [done|]. intros x. by apply sub_symbols. }
    rewrite Hi. simpl in Hh'. apply (uwp_token s' _ _ _ _ _ Hh'). intros g Eg Hg Hw. rewrite Eg. cbn [code Z.eqb negb].
    pose proof (simple_arg c pre' _ _ wd Hc (Hw wd eq_refl)) as Hc'.
    assert (Hl : length (args (pre' ++ [IArg wd])) = S (length (args pre'))).
    { unfold args. rewrite omap_app, length_app. simpl. lia. }
    assert (Hl2 : (length (args (pre' ++ [IArg wd])) <= length (args (pre ++ its)))%nat).
    { rewrite Ep. change (IArg wd :: rest) with ([IArg wd] ++ rest). rewrite app_assoc. unfold args.
      rewrite (omap_app _ (pre' ++ [IArg wd])), length_app. lia. }
    rewrite (proj2 (Z.leb_gt MAXARGS _)) by lia.
    destruct (redirs_step (pre' ++ [IArg wd]) rest ts _ _ Hg Hs Hc') as (pre2 & rest2 & E2 & Ha2 & Hf2 & Hlen & Hp2).
    apply uwp_then. eapply uwp_conseq; [apply Hp2|]. intros x w (-> & Hd & Hh3). apply uwp_done.
    exists rest2. split; [|simpl; lia]. exists pre2.
    split_and!; [by rewrite Ep, <- E2, <- app_assoc|exact Hf2|exact Hh3|exact Hd| |reflexivity].
    simpl. rewrite Ha2. lia.
Qed.

Lemma parseback_ok m ts c r s :
  here s (replicate m TAmp ++ ts) -> head_in [38; 0] ts = false -> denotes c r ->
  parses (parseback buf es c s) (Nat.iter m RBack r) ts.
Proof using HT HL.
  intros Hh Ht Hc w0. unfold parseback.
  apply (uwp_loop _ (fun m' st w => exists r', here (snd st) (replicate m' TAmp ++ ts) /\ denotes (fst st) r' /\
    Nat.iter m' RBack r' = Nat.iter m RBack r /\ w = w0) (fun m' => Z.of_nat m') _ m).
  3: { apply here_length in Hh. rewrite length_app, length_replicate in Hh. lia. }
  2: by exists r.
  clear s c Hh Hc. intros m' [c s] w (r' & Hh & Hc & Hr & ->). cbn [fst snd] in *.
  apply (uwp_peek s _ _ _ _ _ Hh). intros s' Hh'. destruct m' as [|m']; cbn [fst snd].
  - simpl in *. rewrite Ht. apply uwp_done. subst r'. done.
  - change (head_in [38; 0] (replicate (S m') TAmp ++ ts)) with true. cbn [negb].
    apply (uwp_token s' TAmp (replicate m' TAmp ++ ts)); [done|]. intros g Eg Hg _. apply uwp_done.
    exists m'. split; [|lia]. exists (RBack r'). split_and!; [done|by constructor| |done].
    by rewrite <- Nat.iter_succ_r.
Qed.

Abbreviation line_ n s := (parseline buf es n s).
Abbreviation pipe_ n s := (parsepipe buf es n s).
Abbreviation exec_ n s := (parseexec buf es n s).
Abbreviation back_ n s := (then_ (parsepipe buf es n s) (fun c => parseback buf es (fst c) (snd c))).

(** What each parsing function does on the expression [a] followed by [ts]. *)
Definition exec_ok a := forall n s ts, level a = 0%nat -> (4 * height a <= n + 2)%nat ->
  here s (toks a ++ ts) -> stops ts -> parses (exec_ n s) (meaning a) ts.
Definition pipe_ok a := forall n s ts, (level a <= 1)%nat -> (4 * height a <= n + 1)%nat ->
  here s (toks a ++ ts) -> stops ts -> head_in [124; 0] ts = false -> parses (pipe_ n s) (meaning a) ts.
Definition back_ok a := forall n s ts, (level a <= 2)%nat -> (4 * height a <= n + 1)%nat ->
  here s (toks a ++ ts) -> stops ts -> head_in [124; 0] ts = false -> head_in [38; 0] ts = false ->
  parses (back_ n s) (meaning a) ts.
Definition line_ok a := forall n s ts, (4 * height a <= n)%nat -> here s (toks a ++ ts) ->
  ends ts -> parses (line_ n s) (meaning a) ts.

Lemma exec_simple its : Z.of_nat (length (args its)) < MAXARGS -> exec_ok (ASimple its).
Proof using HT HL.
  intros Hn [|n] s ts _ Hh Hs Hst w0; [simpl in Hh; lia|]. cbn [parseexec].
  apply (uwp_peek s _ _ _ _ _ Hs). intros s1 Hs1.
  assert (Hi : head_in [40; 0] (toks (ASimple its) ++ ts) = false).
  { destruct its as [|[wd|[] wd] its]; [|apply (word_head s1); [exact Hs1|intros x; by apply sub_symbols]|done..].
    by destruct ts as [|[] ts]. }
  rewrite Hi. cbn [fst snd]. simpl in Hs1.
  destruct (redirs_step [] its ts (EXEC []) s1 Hs1 Hst) as (pre & rest & E & Ha & Hf & _ & Hp); [by repeat constructor|].
  apply uwp_then. eapply uwp_conseq; [apply Hp|]. intros x w (-> & Hd & Hx).
  assert (Hm : meaning (ASimple its) = simple (pre ++ rest)) by (by rewrite <- E). rewrite Hm.
  apply parseargs_ok; [exact Hx|exact Hf|exact Hst|exact Hd|by rewrite Ha|]. rewrite <- E. exact Hn.
Qed.

Lemma exec_group a rs : line_ok a -> exec_ok (AGroup a rs).
Proof using HT HL.
  intros IH n s ts _ Hh Hs Hst w0. simpl in Hh. pose proof (height_pos a).
  destruct n as [|[|n]]; [lia..|]. cbn [parseexec].
  apply (uwp_peek s _ _ _ _ _ Hs). intros s1 Hs1. cbn [toks head_in fst snd app]. cbn [parseblock].
  change (in_set [40; 0] _) with true. cbv iota.
  apply (uwp_peek s1 _ _ _ _ _ Hs1). intros s2 Hs2. cbn [fst snd toks app head_in].
  change (in_set [40; 0] _) with true. cbn [negb]. simpl in Hs2. rewrite <- app_assoc in Hs2.
  apply (uwp_token s2 _ _ _ _ _ Hs2). intros g Eg Hg _.
  apply uwp_then. eapply uwp_conseq; [apply (IH n (tok_ps g) (TClose :: rtoks rs ++ ts)); [lia|done|done]|].
  intros c w (-> & Hd & Hc). apply (uwp_peek _ _ _ _ _ _ Hc). intros s3 Hs3. cbn [fst snd head_in].
  change (in_set [41; 0] _) with true. cbn [negb].
  apply (uwp_token s3 _ _ _ _ _ Hs3). intros g2 Eg2 Hg2 _.
  apply parseredirs_ok; [done| |done]. destruct (here_skip (rtoks rs) ts _ Hg2) as [s4 Hs4].
  by apply (stops_not_redir [] ts s4).
Qed.

Lemma pipe_of_exec a : exec_ok a -> level a = 0%nat -> pipe_ok a.
Proof using.
  intros He Hl [|n] s ts _ Hh Hs Hst Hp w0; [pose proof (height_pos a); lia|]. cbn [parsepipe].
  apply uwp_then. eapply uwp_conseq; [apply (He n s ts); [done|lia|done..]|]. intros c w (-> & Hd & Hc).
  apply (uwp_peek _ _ _ _ _ _ Hc). intros s1 Hs1. cbn [fst snd]. rewrite Hp. by apply uwp_done.
Qed.

Lemma pipe_pipe l r : exec_ok l -> level l = 0%nat -> pipe_ok r -> (level r <= 1)%nat -> pipe_ok (APipe l r).
Proof using HT.
  intros Hl Hl0 Hr Hr1 [|n] s ts _ Hh Hs Hst Hp w0; simpl in Hh; [pose proof (height_pos r); lia|]. cbn [parsepipe].
  simpl in Hs. rewrite <- app_assoc in Hs. simpl in Hs.
  apply uwp_then. eapply uwp_conseq; [eapply (Hl n s); [done|lia|exact Hs|done]|]. intros c w (-> & Hd & Hc).
  apply (uwp_peek _ _ _ _ _ _ Hc). intros s1 Hs1. cbn [fst snd head_in]. change (in_set [124; 0] _) with true. cbv iota.
  apply (uwp_token s1 _ _ _ _ _ Hs1). intros g Eg Hg _.
  apply uwp_then. eapply uwp_conseq; [eapply (Hr n _ ts); [lia|lia|exact Hg|done|done]|]. intros c2 w (-> & Hd2 & Hc2).
  apply uwp_done. split; [done|]. split; [by constructor|done].
Qed.

Lemma back_of_pipe a m n s ts :
  pipe_ok a -> (level a <= 1)%nat -> (4 * height a <= n + 1)%nat -> here s (toks a ++ replicate m TAmp ++ ts) ->
  stops ts -> head_in [124; 0] ts = false -> head_in [38; 0] ts = false ->
  parses (back_ n s) (Nat.iter m RBack (meaning a)) ts.
Proof using HT HL.
  intros Hp Hl Hh Hs Hst H1 H2 w0. apply uwp_then.
  eapply uwp_conseq; [apply (Hp n s (replicate m TAmp ++ ts)); [done|done|done| |]; by destruct m|].
  intros c w (-> & Hd & Hc). by apply parseback_ok.
Qed.

Lemma line_of_back a : back_ok a -> (level a <= 2)%nat -> line_ok a.
Proof using.
  intros Hb Hl [|n] s ts Hh Hs He w0; [pose proof (height_pos a); lia|]. cbn [parseline].
  assert (Hf : stops ts /\ head_in [124; 0] ts = false /\ head_in [38; 0] ts = false /\ head_in [59; 0] ts = false)
    by (by destruct ts as [|[] ts]). destruct Hf as (Hst & H1 & H2 & H3).
  pose proof (Hb n s ts Hl ltac:(lia) Hs Hst H1 H2 w0) as H. apply uwp_then_inv in H.
  apply uwp_then. eapply uwp_conseq; [exact H|]. cbv beta. intros c w Hc.
  apply uwp_then. eapply uwp_conseq; [exact Hc|]. intros c' w' (-> & Hd & Hc').
  apply (uwp_peek _ _ _ _ _ _ Hc'). intros s1 Hs1. cbn [fst snd]. rewrite H3. exact (conj eq_refl (conj Hd Hs1)).
Qed.

Lemma line_list l r : back_ok l -> (level l <= 2)%nat -> line_ok r -> line_ok (AList l r).
Proof using HT.
  intros Hb Hl Hr [|n] s ts Hh Hs He w0; simpl in Hh; [pose proof (height_pos r); lia|]. cbn [parseline].
  simpl in Hs. rewrite <- app_assoc in Hs. simpl in Hs.
  pose proof (Hb n s _ Hl ltac:(lia) Hs I eq_refl eq_refl w0) as H. apply uwp_then_inv in H.
  apply uwp_then. eapply uwp_conseq; [exact H|]. cbv beta. intros c w Hc.
  apply uwp_then. eapply uwp_conseq; [exact Hc|]. intros c' w' (-> & Hd & Hc').
  apply (uwp_peek _ _ _ _ _ _ Hc'). intros s1 Hs1. cbn [fst snd head_in]. change (in_set [59; 0] _) with true. cbv iota.
  apply (uwp_token s1 _ _ _ _ _ Hs1). intros g Eg Hg _.
  apply uwp_then. eapply uwp_conseq; [eapply (Hr n _ ts); [lia|exact Hg|done]|]. intros c2 w2 (-> & Hd2 & Hc2).
  exact (conj eq_refl (conj (d_list _ _ _ _ Hd Hd2) Hc2)).
Qed.

Lemma parser_ok a : grammatical a ->
  (level a = 0%nat -> exec_ok a) /\ ((level a <= 1)%nat -> pipe_ok a) /\ ((level a <= 2)%nat -> back_ok a) /\ line_ok a.
Proof using HT HL.
  assert (Hup : forall b, ((level b <= 1)%nat -> pipe_ok b) -> (level b <= 1)%nat -> back_ok b /\ line_ok b).
  { intros b Hp Hl. assert (Hb : back_ok b).
    { intros n s ts _ Hh Hs Hst H1 H2. by apply (back_of_pipe b 0); auto. }
    split; [done|]. apply line_of_back; [done|lia]. }
  induction a as [its|a IH rs|l IHl r IHr|a IH m|l IHl r IHr]; simpl; intros Hg.
  - pose proof (exec_simple its Hg) as He. pose proof (pipe_of_exec _ He eq_refl) as Hp.
    destruct (Hup (ASimple its)) as [? ?]; [done|simpl; lia|]. done.
  - pose proof (exec_group a rs (proj2 (proj2 (proj2 (IH Hg))))) as He. pose proof (pipe_of_exec _ He eq_refl) as Hp.
    destruct (Hup (AGroup a rs)) as [? ?]; [done|simpl; lia|]. done.
  - destruct Hg as (Hgl & Hl & Hgr & Hr). destruct (IHl Hgl) as (He & _). destruct (IHr Hgr) as (_ & Hp & _).
    pose proof (pipe_pipe l r (He Hl) Hl (Hp Hr) Hr) as Hpp.
    destruct (Hup (APipe l r)) as [? ?]; [done|simpl; lia|]. done.
  - destruct Hg as [Hg Hl]. destruct (IH Hg) as (_ & Hp & _).
    assert (Hb : back_ok (ABack a m)).
    { intros n s ts _ Hh Hs Hst H1 H2. simpl in Hs. rewrite <- app_assoc in Hs. by apply back_of_pipe; auto. }
    split_and!; [done|lia|done|]. by apply line_of_back.
  - destruct Hg as (Hgl & Hl & Hgr). split_and!; [done|lia|lia|].
    apply line_list; [|done|]; [apply (IHl Hgl); done|apply (IHr Hgr)].
Qed.

(** ** Cutting the words *)

(** The bytes [nulterminate] clears. *)
Fixpoint cuts (c : cmd) : list Z :=
  match c with
  | EXEC argv => map snd argv
  | REDIR c _ e _ _ => cuts c ++ [e]
  | PIPE l r | LIST l r => cuts l ++ cuts r
  | BACK c => cuts c
  end.

(** The buffer after some cuts: the words are intact. *)
Record cut_at (E : list Z) (b : list Z) : Prop := {
  ca_len : length b = length buf;
  ca_word : forall i c, T !! i = Some c -> word_char c = true -> b !! i = Some c;
  ca_zero : forall e, e ∈ E -> b !! Z.to_nat e = Some 0
}.
Definition word_end (e : Z) : Prop :=
  (Z.to_nat e <= length T)%nat /\ forall c, T !! Z.to_nat e = Some c -> word_char c = false.

Lemma word_at_end p w : word_at p w -> word_end (snd p).
Proof using HT HL.
  intros (a & b & E & _ & H2 & _ & Hb). unfold word_end. rewrite H2, Nat2Z.id.
  split; [rewrite E, app_assoc, (length_app (a ++ w)); lia|]. intros c. rewrite E, app_assoc, lookup_app_r by lia.
  rewrite Nat.sub_diag. destruct b as [|x b]; [done|]. by intros [= <-].
Qed.

Lemma cut_step E b e : cut_at E b -> word_end e -> cut_at (E ++ [e]) (cut b e).
Proof using HT HL.
  intros [Hl Hw Hz] [He Hc]. unfold cut. rewrite length_app in Hl. simpl in Hl. split.
  - rewrite length_insert, length_app. done.
  - intros i c Hi Hwc. destruct (decide (Z.to_nat e = i)) as [<-|Hne].
    + by rewrite (Hc c Hi) in Hwc.
    + rewrite list_lookup_insert_ne by done. by apply Hw.
  - intros e' He'. destruct (decide (Z.to_nat e = Z.to_nat e')) as [<-|Hne].
    + rewrite list_lookup_insert_eq by lia. done.
    + rewrite list_lookup_insert_ne by done. apply Hz. set_solver.
Qed.

Lemma nulterminate_cuts c r : denotes c r -> forall E b, cut_at E b -> cut_at (E ++ cuts c) (nulterminate c b).
Proof using HT HL.
  induction 1 as [argv ws Hw|c r q e w mode fd Hd IH Hw|l r l' r' Hl IHl Hr IHr|l r l' r' Hl IHl Hr IHr|c r Hd IH];
    intros E b Hb; simpl; rewrite ?app_assoc; auto.
  - revert E b Hb. induction Hw as [|p w argv ws Hp _ IH]; intros E b Hb; simpl; [by rewrite app_nil_r|].
    change (snd p :: map snd argv) with ([snd p] ++ map snd argv). rewrite app_assoc.
    apply IH. apply cut_step; [done|]. by eapply word_at_end.
  - apply cut_step; [auto|]. by apply (word_at_end (q, e) w).
Qed.

Lemma cstr_prefix w b : Forall (fun c => c <> 0) w -> (forall i c, w !! i = Some c -> b !! i = Some c) ->
  b !! length w = Some 0 -> cstr b = w.
Proof using HT HL.
  revert b. induction w as [|c w IH]; intros b Hw Hi Hz; simpl in Hz.
  - destruct b as [|x b]; [done|]. injection Hz as ->. done.
  - inversion Hw; subst. specialize (Hi 0%nat c eq_refl) as H0. destruct b as [|x b]; [done|]. injection H0 as ->.
    simpl. rewrite (proj2 (Z.eqb_neq c 0)) by done. f_equal. apply IH; [done| |done].
    intros i d Hd. exact (Hi (S i) d Hd).
Qed.

Lemma word_cut E b p w : cut_at E b -> word_at p w -> snd p ∈ E -> str_at b (fst p) = w.
Proof using HT HL.
  intros [_ Hw Hz] (a & b' & ET & H1 & H2 & Ha & _) Hin. unfold str_at. rewrite H1, Nat2Z.id. apply cstr_prefix.
  - eapply Forall_impl; [|exact Ha]. intros c Hc. by apply word_char_not.
  - intros i c Hi. rewrite lookup_drop. apply Hw; [|by eapply Forall_lookup_1 in Ha].
    rewrite ET, lookup_app_r by lia. replace (length a + i - length a)%nat with i by lia. by apply lookup_app_l_Some.
  - rewrite lookup_drop. specialize (Hz _ Hin). rewrite H2, Nat2Z.id, length_app in Hz. done.
Qed.

Lemma resolve_ok c r E b : denotes c r -> cut_at E b -> (forall e, e ∈ cuts c -> e ∈ E) -> resolve b c = r.
Proof using HT HL.
  intros Hd Hb. induction Hd as [argv ws Hw|c r q e w mode fd Hd IH Hw|l r l' r' Hl IHl Hr IHr|l r l' r' Hl IHl Hr IHr|c r Hd IH];
    simpl; intros HE; f_equal; try (apply IH || apply IHl || apply IHr); try set_solver.
  - induction Hw as [|p w argv ws Hp _ IH]; simpl in *; [done|]. f_equal; [|set_solver].
    eapply word_cut; [done|done|set_solver].
  - apply (word_cut E b (q, e) w); [done|done|set_solver].
Qed.

End line.

(** ** Theorem *)

Lemma strlen_line T J : Forall (fun c => c <> 0) T -> strlen (T ++ 0 :: J) = Some (Z.of_nat (length T)).
Proof.
  induction 1 as [|c T Hc _ IH]; [done|]. simpl. rewrite (proj2 (Z.eqb_neq c 0)), IH by done. f_equal. lia.
Qed.
Lemma spells_text ts r : spells ts r -> Forall (fun c => c <> 0) r.
Proof.
  assert (Hs : forall ws, all_space ws -> Forall (fun c => c <> 0) ws).
  { intros ws H. eapply Forall_impl; [|exact H]. by intros c Hc ->. }
  induction 1 as [|ws t ts r Hw Ht _ _ IH]; [auto|]. rewrite !Forall_app. split_and!; [auto| |done].
  destruct t as [w| | | | | | | |]; simpl; try (repeat constructor; done). destruct Ht as [_ Ht].
  eapply Forall_impl; [|exact Ht]. by intros c Hc ->.
Qed.

(** [C13] The shell's parser: for every expression of the shell's grammar
    (simple commands with arguments and redirections in any order, pipes,
    background and sequential lists, groups in parentheses with redirections),
    however its tokens are spaced, [parsecmd] terminates without an error and
    returns the tree of that expression; and after [nulterminate] has cut the
    words in place, each pointer of the tree finds exactly its word in the
    buffer, whatever bytes followed the line. *)
Theorem sh_parses_grammar {W} {HO : OS W} a T J w :
  grammatical a -> spells (toks a) T -> Z.of_nat (length T) < 2 ^ 63 ->
  uwp (parsecmd (T ++ 0 :: J)) (fun x w' => w' = w /\ resolve (snd x) (fst x) = meaning a) w.
Proof.
  intros Hg Hs HL. pose proof (spells_text _ _ Hs) as HT. unfold parsecmd.
  apply uwp_then. eapply uwp_valid; [by apply strlen_line|].
  assert (Hh : here T 0 (toks a ++ [])) by (exists [], T; by rewrite app_nil_r).
  destruct (parser_ok T J HT (HO := HO) HL a Hg) as (_ & _ & _ & Hl).
  apply uwp_then. eapply uwp_conseq; [apply (Hl _ 0 []); [|exact Hh|done]|].
  { pose proof (height_toks a). pose proof (here_length _ _ _ Hh) as Hn. rewrite app_nil_r in Hn.
    rewrite length_app. simpl. lia. }
  intros c w' (-> & Hd & Hc). destruct (peek_ok T J _ [] [0] Hc) as (s' & E & (b & r & ET & -> & ->)).
  rewrite app_nil_r in ET. subst b. apply uwp_then. eapply uwp_valid; [exact E|]. cbn [snd].
  rewrite Z.eqb_refl. apply uwp_done. split; [done|]. cbn [fst snd].
  eapply (resolve_ok T J HT HL _ _ ([] ++ cuts (fst c))); [exact Hd| |done].
  apply (nulterminate_cuts T J HT HL _ _ Hd). split; [done| |set_solver].
  intros i x Hi _. by apply lookup_app_l_Some.
Qed.

Module ShSample.
Import Tape.
(** [ls >o|wc &] *)
Definition expr : ast :=
  ABack (APipe (ASimple [IArg (bytes_of "ls"); IRedir ROut (bytes_of "o")]) (ASimple [IArg (bytes_of "wc")])) 1.
Definition text_ : list Z := bytes_of "ls >o|wc &".

Lemma spelled : spells (toks expr) text_.
Proof.
  assert (Hw : forall w, (if decide (w = []) then false else forallb word_char w) = true -> good_tok (TWord w)).
  { intros w H. destruct (decide (w = [])); [done|]. split; [done|]. apply List.Forall_forall. by apply forallb_forall. }
  apply (spells_cons [] (TWord (bytes_of "ls")) _ (bytes_of " >o|wc &")); [done|by apply Hw|done|].
  apply (spells_cons [32] TGt _ (bytes_of "o|wc &")); [by repeat constructor|done|done|].
  apply (spells_cons [] (TWord (bytes_of "o")) _ (bytes_of "|wc &")); [done|by apply Hw|done|].
  apply (spells_cons [] TPipe _ (bytes_of "wc &")); [done|done|done|].
  apply (spells_cons [] (TWord (bytes_of "wc")) _ (bytes_of " &")); [done|by apply Hw|done|].
  apply (spells_cons [32] TAmp _ []); [by repeat constructor|done|done|]. by constructor.
Qed.

Lemma sh_parses_grammar_witness :
  uwp (parsecmd (text_ ++ 0 :: [7])) (fun x w' => w' = mk_tape [] [] /\ resolve (snd x) (fst x) = meaning expr)
    (mk_tape [] []).
Proof.
  apply (sh_parses_grammar expr text_ [7] (mk_tape [] [])).
  - simpl. unfold MAXARGS. lia.
  - exact spelled.
  - vm_compute. reflexivity.
Defined.
End ShSample.
