(* ===== verification/Umalloc.v ===== *)
(** * malloc and free ([user/umalloc.c])

    Kernighan and Ritchie's allocator: the free blocks are on a circular list
    in address order that starts at [base], a block being preceded by a header
    with its successor and its size in units of headers. The state is the
    headers in memory, the variable [freep], and the world that answers
    [sbrk]. *)

From S2P Require Import Prelude User.

(** [sizeof(Header)]. *)
Definition HDR : Z := 16.

(** The [s.ptr] and [s.size] of the headers by address, and the globals;
    where the static [base] lies is up to the linker. *)
Record heap (W : Type) := mk_heap { h_ptr : gmap Z Z; h_size : gmap Z Z; freep : Z; world : W }.
Arguments mk_heap {W} h_ptr h_size freep world.
Arguments h_ptr {W} h.
Arguments h_size {W} h.
Arguments freep {W} h.
Arguments world {W} h.

Section code.
Context {W : Type} {HO : OS W} (base : Z).

Definition get_ptr (p : Z) : M (heap W) Z :=
  fun h => match h_ptr h !! p with Some v => Ret v h | None => Ub "ptr" h end.
Definition get_size (p : Z) : M (heap W) Z :=
  fun h => match h_size h !! p with Some v => Ret v h | None => Ub "size" h end.
Definition set_ptr (p v : Z) : M (heap W) unit :=
  modify (fun h => mk_heap (<[p := v]> (h_ptr h)) (h_size h) (freep h) (world h)).
Definition set_size (p v : Z) : M (heap W) unit :=
  modify (fun h => mk_heap (h_ptr h) (<[p := u32 v]> (h_size h)) (freep h) (world h)).
Definition set_freep (p : Z) : M (heap W) unit :=
  modify (fun h => mk_heap (h_ptr h) (h_size h) p (world h)).
Definition sbrk (n : Z) : M (heap W) Z :=
  zoom world (fun w h => mk_heap (h_ptr h) (h_size h) (freep h) w) (os_sbrk n).

(** [for(p = freep; !(bp > p && bp < p->s.ptr); p = p->s.ptr)
      if(p >= p->s.ptr && (bp > p || bp < p->s.ptr)) break;] *)
Definition free_search (bp : Z) : M (heap W) Z :=
  let! p := gets freep in
  while (fun p =>
    let! nx := get_ptr p in
    if (p <? bp) && (bp <? nx) then ret (inr p) else
    if (nx <=? p) && ((p <? bp) || (bp <? nx)) then ret (inr p) else
    ret (inl nx)) p.

Definition free (ap : Z) : M (heap W) unit :=
  let bp := ap - HDR in
  let! p := free_search bp in
  let! nx := get_ptr p in
  let! bsz := get_size bp in
  do! (if bp + HDR * bsz =? nx then
         let! nsz := get_size nx in
         do! set_size bp (bsz + nsz) in
         let! nn := get_ptr nx in
         set_ptr bp nn
       else set_ptr bp nx) in
  let! psz := get_size p in
  do! (if p + HDR * psz =? bp then
         let! bsz := get_size bp in
         do! set_size p (psz + bsz) in
         let! bn := get_ptr bp in
         set_ptr p bn
       else set_ptr p bp) in
  set_freep p.

(** 0 when [sbrk] refuses. *)
Definition morecore (nu : Z) : M (heap W) Z :=
  let nu := if nu <? 4096 then 4096 else nu in
  let! p := sbrk (s32 (nu * HDR)) in
  if p =? -1 then ret 0 else
  do! set_size p nu in
  do! free (p + HDR) in
  gets freep.

(** One round of [malloc]'s loop at [prevp] and [p]. *)
Definition malloc_step (nunits : Z) (st : Z * Z) : M (heap W) (Z * Z + Z) :=
  let prevp := fst st in
  let p := snd st in
  let! psz := get_size p in
  if nunits <=? psz then
    let! p :=
      (if psz =? nunits then
         let! nx := get_ptr p in
         do! set_ptr prevp nx in
         ret p
       else
         do! set_size p (psz - nunits) in
         let! psz := get_size p in
         let p := p + HDR * psz in
         do! set_size p nunits in
         ret p) in
    do! set_freep prevp in
    ret (inr (p + HDR))
  else
    let! fp := gets freep in
    if p =? fp then
      let! p := morecore nunits in
      if p =? 0 then ret (inr 0) else
      let! nx := get_ptr p in
      ret (inl (p, nx))
    else
      let! nx := get_ptr p in
      ret (inl (p, nx)).

Definition malloc (nbytes : Z) : M (heap W) Z :=
  let nunits := u32 ((nbytes + HDR - 1) / HDR + 1) in
  let! fp := gets freep in
  do! when (fp =? 0)
    (do! set_freep base in
     do! set_ptr base base in
     set_size base 0) in
  let! prevp := gets freep in
  let! p := get_ptr prevp in
  while (malloc_step nunits) (prevp, p).
End code.
