(* ===== verification/UmallocSpec.v ===== *)
(** * malloc and free are correct

    The invariant of the heap (the free list is a ring in address order, with
    no two adjacent free blocks, disjoint from the blocks in use) and that
    every operation keeps it. *)

From S2P Require Import Prelude User Umalloc.

(** What the allocator relies on of [sbrk]: it returns the old end of the
    data segment, which grows by as much as asked for, or -1. *)
Class Brk (W : Type) {HO : OS W} := {
  brk : W -> Z;
  sbrk_grows : forall n w, 0 < n -> wp (os_sbrk n) (fun p w' =>
    (p = -1 /\ brk w' = brk w) \/ (p = brk w /\ brk w' = brk w + n /\ brk w' <= 2 ^ 31)) w
}.

(** ** Free lists *)

(** A free block is its header's address and its size in headers. *)
Abbreviation blocks := (list (Z * Z)).
Definition last_of (p : Z) (L : blocks) : Z := default p (list.last L.*1).
Definition first_of (L : blocks) (q : Z) : Z := match L with [] => q | n :: _ => fst n end.

Lemma last_of_cons p n L : last_of p (n :: L) = last_of (fst n) L.
Proof. unfold last_of. rewrite fmap_cons, last_cons. by destruct (list.last L.*1). Qed.
Lemma last_of_in p L : last_of p L ∈ p :: L.*1.
Proof.
  revert p. induction L as [|n L IH]; intros p; [by left|]. rewrite last_of_cons. right. apply (IH (fst n)).
Qed.
Lemma last_of_snoc p L n : last_of p (L ++ [n]) = fst n.
Proof. unfold last_of. rewrite fmap_app. cbn [fmap list_fmap]. by rewrite last_snoc. Qed.

(** Two areas of memory that do not overlap. *)
Definition apart (x y : Z * Z) : Prop :=
  fst x + HDR * snd x <= fst y \/ fst y + HDR * snd y <= fst x.

(** The blocks lie above [lo], in order, with gaps between them. *)
Fixpoint spaced (lo : Z) (L : blocks) : Prop :=
  match L with
  | [] => True
  | n :: L' => lo < fst n /\ 0 < snd n /\ spaced (fst n + HDR * snd n) L'
  end.

Lemma spaced_weaken lo lo' L : lo' <= lo -> spaced lo L -> spaced lo' L.
Proof. destruct L as [|n L]; [done|]. simpl. intros ? (? & ? & ?). split_and!; [lia|done|done]. Qed.
Lemma spaced_above lo L n : spaced lo L -> n ∈ L -> lo < fst n /\ 0 < snd n.
Proof.
  revert lo. induction L as [|m L IH]; intros lo Hs Hn; [by apply elem_of_nil in Hn|].
  destruct Hs as (? & ? & Hs). apply elem_of_cons in Hn as [->|Hn]; [done|].
  apply (IH _ Hs) in Hn. unfold HDR in *. lia.
Qed.
Lemma spaced_app lo L1 L2 : spaced lo (L1 ++ L2) <->
  spaced lo L1 /\ spaced (match list.last L1 with None => lo | Some n => fst n + HDR * snd n end) L2.
Proof.
  revert lo. induction L1 as [|n L1 IH]; intros lo; simpl; [tauto|]. rewrite IH, last_cons.
  destruct (list.last L1); simpl; tauto.
Qed.
Lemma spaced_nodup p L : spaced p L -> NoDup (p :: L.*1).
Proof.
  revert p. induction L as [|n L IH]; intros p Hs; [by repeat constructor; set_solver|].
  destruct Hs as (H1 & H2 & H3). constructor.
  - rewrite fmap_cons, not_elem_of_cons. split; [lia|]. intros Hin.
    apply list_elem_of_fmap in Hin as (m & -> & Hm). apply (spaced_above _ _ _ H3) in Hm. unfold HDR in *. lia.
  - apply IH. eapply spaced_weaken; [|done]. unfold HDR. lia.
Qed.
Lemma spaced_length lo hi L : spaced lo L -> Forall (fun n => fst n + HDR * snd n <= hi) L -> lo <= hi ->
  Z.of_nat (length L) <= hi - lo.
Proof.
  revert lo. induction L as [|n L IH]; intros lo Hs Hh Hle; simpl; [lia|].
  destruct Hs as (H1 & H2 & H3). inversion Hh; subst. specialize (IH _ H3 ltac:(done) ltac:(done)). unfold HDR in *. lia.
Qed.

(** Where a block that overlaps no free one belongs. *)
Lemma split_at lo L b n : spaced lo L -> lo < b -> 0 < n -> Forall (apart (b, n)) L ->
  exists L1 L2, L = L1 ++ L2 /\ Forall (fun m => fst m + HDR * snd m <= b) L1 /\
    Forall (fun m => b + HDR * n <= fst m) L2.
Proof.
  revert lo. induction L as [|m L IH]; intros lo Hs Hb Hn Ha; [by exists [], []|].
  destruct Hs as (H1 & H2 & H3). inversion Ha as [|?? Hm Ha']; subst. destruct Hm as [Hm|Hm]; simpl in Hm.
  - exists [], (m :: L). split_and!; [done|done|]. constructor; [done|]. apply list.Forall_forall. intros x Hx.
    apply (spaced_above _ _ _ H3) in Hx. unfold HDR in *. lia.
  - destruct (decide (fst m + HDR * snd m = b)) as [E|E].
    + exists [m], L. split_and!; [done|by repeat constructor; lia|].
      apply list.Forall_forall. intros x Hx. pose proof (spaced_above _ _ _ H3 Hx). rewrite list.Forall_forall in Ha'.
      destruct (Ha' x Hx) as [?|?]; simpl in *; [done|]. unfold HDR in *. lia.
    + destruct (IH _ H3) as (L1 & L2 & -> & HL1 & HL2); [lia|done|done|].
      exists (m :: L1), L2. split_and!; [done|by constructor|done].
Qed.

(** The nodes up to a cut of the list, and after it. *)
Lemma spaced_order p A B : spaced p (A ++ B) ->
  Forall (fun m => fst m <= last_of p A) A /\ p <= last_of p A /\ Forall (fun m => last_of p A < fst m) B.
Proof.
  revert p. induction A as [|m A IH]; intros p Hs.
  - split_and!; [done|done|]. apply list.Forall_forall. intros n Hn. by apply (spaced_above _ _ _ Hs).
  - destruct Hs as (H1 & H2 & H3). rewrite last_of_cons.
    destruct (IH (fst m)) as (Ha & Hp & Hb); [eapply spaced_weaken; [|exact H3]; unfold HDR; lia|].
    split_and!; [by constructor|lia|done].
Qed.
Lemma split_unique b (A B L1 L2 : blocks) : A ++ B = L1 ++ L2 ->
  Forall (fun m => fst m < b) A -> Forall (fun m => fst m < b) L1 ->
  Forall (fun m => b < fst m) B -> Forall (fun m => b < fst m) L2 -> A = L1.
Proof.
  revert L1. induction A as [|m A IH]; intros [|n L1] E HA HL HB H2; simpl in *; [done|..].
  - subst B. inversion HL; inversion HB; subst. lia.
  - subst L2. inversion HA; inversion H2; subst. lia.
  - injection E as -> E. inversion HA; inversion HL; subst. f_equal. eauto.
Qed.

(** ** Lists in memory *)

Section list.
Context {W : Type}.
Implicit Types (h : heap W) (L : blocks).

(** From [p] through the blocks of [L] to [q]. *)
Fixpoint chain h (p : Z) L (q : Z) : Prop :=
  match L with
  | [] => h_ptr h !! p = Some q
  | n :: L' => h_ptr h !! p = Some (fst n) /\ h_size h !! fst n = Some (snd n) /\ chain h (fst n) L' q
  end.
(** From [p] through the addresses [R], the last of which is [q]. *)
Fixpoint path h (p : Z) (R : list Z) (q : Z) : Prop :=
  match R with
  | [] => p = q
  | x :: R' => h_ptr h !! p = Some x /\ path h x R' q
  end.

Lemma chain_app h p L1 L2 q :
  chain h p (L1 ++ L2) q <-> chain h p L1 (first_of L2 q) /\ chain h (last_of p L1) L2 q.
Proof.
  revert p. induction L1 as [|n L1 IH]; intros p; simpl.
  - unfold last_of. simpl. destruct L2; simpl; tauto.
  - rewrite IH, last_of_cons. tauto.
Qed.
Lemma chain_ext h h' p L q : chain h p L q ->
  (forall x, x ∈ p :: L.*1 -> h_ptr h' !! x = h_ptr h !! x) ->
  (forall x, x ∈ L.*1 -> h_size h' !! x = h_size h !! x) -> chain h' p L q.
Proof.
  revert p. induction L as [|n L IH]; intros p Hc Hp Hs; simpl in *.
  - rewrite Hp; [done|]. by left.
  - destruct Hc as (H1 & H2 & H3). split_and!.
    + rewrite Hp; [done|]. by left.
    + rewrite Hs; [done|]. by left.
    + apply IH; [done| |]; intros x Hx; [apply Hp|apply Hs]; by right.
Qed.
(** The same list with its last link changed. *)
Lemma chain_relink h h' p L q q' : chain h p L q -> NoDup (p :: L.*1) ->
  h_ptr h' !! last_of p L = Some q' ->
  (forall x, x ∈ p :: L.*1 -> x <> last_of p L -> h_ptr h' !! x = h_ptr h !! x) ->
  (forall x, x ∈ L.*1 -> h_size h' !! x = h_size h !! x) -> chain h' p L q'.
Proof.
  revert p. induction L as [|n L IH]; intros p Hc Hd Hl Hp Hs; [done|]. rewrite last_of_cons in Hl, Hp.
  destruct Hc as (H1 & H2 & H3). apply list.NoDup_cons in Hd as [Hnp Hd]. simpl. split_and!.
  - rewrite Hp; [done|by left|]. intros ->. apply Hnp. apply (last_of_in (fst n) L).
  - rewrite Hs; [done|by left].
  - apply IH; [done|done|done| |]; intros x Hx; [apply Hp; by right|apply Hs; by right].
Qed.
Lemma chain_path h p L q : chain h p L q -> path h p (L.*1 ++ [q]) q.
Proof. revert p. induction L as [|n L IH]; intros p; simpl; [done|]. intros (? & _ & ?). split; [done|auto]. Qed.
Lemma chain_path_last h p L q : chain h p L q -> path h p L.*1 (last_of p L).
Proof.
  revert p. induction L as [|n L IH]; intros p; simpl; [done|]. intros (? & _ & ?). rewrite last_of_cons. auto.
Qed.
Lemma path_app h p R q R' r : path h p R q -> path h q R' r -> path h p (R ++ R') r.
Proof. revert p. induction R as [|x R IH]; intros p; simpl; [by intros ->|]. intros [? ?] ?. auto. Qed.

Lemma chain_last h p L q : chain h p L q -> h_ptr h !! last_of p L = Some q.
Proof. revert p. induction L as [|n L IH]; intros p; [done|]. rewrite last_of_cons. intros (_ & _ & ?). auto. Qed.

Lemma chain_first h p L q : chain h p L q -> h_ptr h !! p = Some (first_of L q).
Proof. destruct L; simpl; [done|]. by intros [? _]. Qed.
(** The same list reached from another node. *)
Lemma chain_rehead h h' p p' L q : chain h p L q -> h_ptr h' !! p' = Some (first_of L q) ->
  (forall x, x ∈ L.*1 -> h_ptr h' !! x = h_ptr h !! x /\ h_size h' !! x = h_size h !! x) -> chain h' p' L q.
Proof.
  destruct L as [|n L]; simpl; [done|]. intros (H1 & H2 & H3) Hp Hx. split_and!; [done| |].
  - by rewrite (proj2 (Hx (fst n) ltac:(left))).
  - eapply chain_ext; [exact H3| |]; intros x Hx'; apply Hx; [done|by right].
Qed.

Lemma chain_size h p L q x : chain h p L q -> x ∈ L -> h_size h !! fst x = Some (snd x).
Proof.
  revert p. induction L as [|n L IH]; intros p Hc Hx; [by apply elem_of_nil in Hx|].
  destruct Hc as (_ & ? & ?). apply elem_of_cons in Hx as [->|Hx]; eauto.
Qed.

Lemma path_end h p R q : path h p R q -> q ∈ p :: R.
Proof. revert p. induction R as [|x R IH]; intros p; simpl; [intros ->; by left|]. intros [_ H]. right. by apply IH. Qed.

(** Every node of the list cuts it in two. *)
Lemma chain_split h p L q x : chain h p L q -> x ∈ p :: L.*1 ->
  exists L1 L2, L = L1 ++ L2 /\ x = last_of p L1 /\ h_ptr h !! x = Some (first_of L2 q).
Proof.
  revert p. induction L as [|n L IH]; intros p Hc Hx.
  - exists [], []. simpl in *. set_solver.
  - destruct Hc as (H1 & H2 & H3). apply elem_of_cons in Hx as [->|Hx]; [by exists [], (n :: L)|].
    destruct (IH _ H3 Hx) as (L1 & L2 & -> & -> & E). exists (n :: L1), L2. by rewrite last_of_cons.
Qed.

(** The search for the place of the block [b] stops at the last node below
    it, and nowhere else. *)
Lemma search_stops h p L1 L2 q b x :
  chain h p (L1 ++ L2) q -> spaced p (L1 ++ L2) -> p < b -> q <= p ->
  Forall (fun m => fst m < b) L1 -> Forall (fun m => b < fst m) L2 ->
  x ∈ p :: (L1 ++ L2).*1 -> exists nx, h_ptr h !! x = Some nx /\ nx ∈ q :: (L1 ++ L2).*1 /\
    (((x < b /\ b < nx) \/ (nx <= x /\ (x < b \/ b < nx))) <-> x = last_of p L1).
Proof.
  intros Hc Hs Hp Hq H1 H2 Hx. destruct (chain_split _ _ _ _ _ Hc Hx) as (A & B & E & Ex & Hn).
  exists (first_of B q). split; [done|]. split.
  { rewrite E. destruct B; [by left|]. right. rewrite fmap_app. apply elem_of_app. right. by left. }
  rewrite E in Hs. destruct (spaced_order p A B Hs) as (HA & Hpx & HB). rewrite <- Ex in HA, HB, Hpx. split.
  - intros Hcond. assert (HAB : A = L1); [|by rewrite Ex, HAB].
    destruct B as [|m B]; simpl in Hcond.
    + rewrite app_nil_r in E. assert (L2 = []) as ->; [|by rewrite app_nil_r in E].
      destruct L2 as [|m L2]; [done|]. exfalso. inversion H2; subst.
      apply Forall_app in HA as [_ HA]. inversion HA; subst. lia.
    + apply list.Forall_cons in HB as [Hxm _]. assert (x < b /\ b < fst m) as [Hxb Hbm] by lia.
      apply (split_unique b A (m :: B) L1 L2); [done| |done| |done].
      * eapply Forall_impl; [|exact HA]. simpl. lia.
      * constructor; [done|]. rewrite spaced_app in Hs. destruct Hs as (_ & _ & Hm0 & Hs).
        apply list.Forall_forall. intros n Hn'. apply (spaced_above _ _ _ Hs) in Hn'. unfold HDR in *. lia.
  - intros El. assert (Hf : first_of B q = first_of L2 q).
    { apply chain_app in Hc as [Hc _]. apply chain_last in Hc. rewrite <- El in Hc. congruence. }
    rewrite Hf. assert (x < b).
    { rewrite El. pose proof (last_of_in p L1) as Hl. apply elem_of_cons in Hl as [->|Hl]; [done|].
      apply list_elem_of_fmap in Hl as (m & -> & Hm). rewrite list.Forall_forall in H1. by apply H1. }
    destruct L2 as [|m L2]; simpl; [lia|]. inversion H2; subst. lia.
Qed.
End list.

(** ** The invariant *)

Section heap.
Context {W : Type} {HO : OS W} {HB : Brk W} (base : Z).
Implicit Types (h : heap W) (L : blocks) (live : gmap Z Z).

Abbreviation top h := (brk (world h)).

(** [L] is on the free list, [live] maps the headers of the blocks in use to
    their sizes. *)
Record heap_ok h L live : Prop := {
  hk_base : 0 < base < top h;
  hk_top : top h <= 2 ^ 31;
  hk_size0 : h_size h !! base = Some 0;
  hk_chain : chain h base L base;
  hk_spaced : spaced base L;
  hk_below : Forall (fun n => fst n + HDR * snd n <= top h) L;
  hk_freep : freep h ∈ base :: L.*1;
  hk_live : forall b n, live !! b = Some n ->
    h_size h !! b = Some n /\ 0 < n /\ base < b /\ b + HDR * n <= top h /\ Forall (apart (b, n)) L;
  hk_disj : forall b n b' n', live !! b = Some n -> live !! b' = Some n' -> b <> b' -> apart (b, n) (b', n')
}.

Lemma ring_ge h L live x : heap_ok h L live -> x ∈ base :: L.*1 -> base <= x.
Proof.
  intros Hk Hx. apply elem_of_cons in Hx as [->|Hx]; [done|].
  apply list_elem_of_fmap in Hx as (n & -> & Hn). apply (spaced_above _ _ _ (hk_spaced _ _ _ Hk)) in Hn. lia.
Qed.


Lemma wp_get_ptr p v Q h : h_ptr h !! p = Some v -> Q v h -> wp (get_ptr p) Q h.
Proof using. intros E H. unfold wp, get_ptr. by rewrite E. Qed.
Lemma wp_get_size p v Q h : h_size h !! p = Some v -> Q v h -> wp (get_size p) Q h.
Proof using. intros E H. unfold wp, get_size. by rewrite E. Qed.

(** ** free *)

Lemma free_search_ok h L1 L2 live b :
  heap_ok h (L1 ++ L2) live -> base < b ->
  Forall (fun m => fst m < b) L1 -> Forall (fun m => b < fst m) L2 ->
  wp (free_search b) (fun p h' => h' = h /\ p = last_of base L1) h.
Proof using.
  intros Hk Hb H1 H2. pose proof (hk_chain _ _ _ Hk) as Hc. pose proof (hk_spaced _ _ _ Hk) as Hs.
  unfold free_search. apply wp_bind, wp_gets. set (t := last_of base L1).
  destruct (chain_split _ _ _ _ _ Hc (hk_freep _ _ _ Hk)) as (A & B & E & Ef & _).
  assert (HR : path h (freep h) ((B.*1 ++ [base]) ++ L1.*1) t).
  { eapply path_app.
    - rewrite E in Hc. apply chain_app in Hc as [_ Hc]. rewrite Ef. by apply chain_path.
    - apply chain_app in Hc as [Hc _]. by eapply chain_path_last. }
  apply (wp_while_ghost _ (fun R p h' => h' = h /\ path h p R t /\ p ∈ base :: (L1 ++ L2).*1)
    (fun R => Z.of_nat (length R)) _ ((B.*1 ++ [base]) ++ L1.*1)); [|split_and!; [done|done|apply Hk]|].
  2: { pose proof (spaced_length _ _ _ Hs (hk_below _ _ _ Hk) ltac:(destruct Hk; lia)) as Hl.
       pose proof (hk_base _ _ _ Hk). pose proof (hk_top _ _ _ Hk).
       assert (length (L1 ++ L2) = length (A ++ B)) as El by (by rewrite E).
       rewrite !length_app, !length_fmap in *. simpl. lia. }
  intros R p h' (-> & Hp & Hin).
  destruct (search_stops _ _ _ _ _ b p Hc Hs Hb ltac:(lia) H1 H2 Hin) as (nx & En & Hin' & Hst).
  apply wp_bind. eapply wp_get_ptr; [exact En|].
  destruct ((p <? b) && (b <? nx)) eqn:C1; [apply wp_ret; split; [done|]; apply Hst; zbool; lia|].
  destruct ((nx <=? p) && ((p <? b) || (b <? nx))) eqn:C2.
  { apply wp_ret. split; [done|]. apply Hst. apply andb_true_iff in C2 as [C2 C3]. apply orb_true_iff in C3. zbool. lia. }
  apply wp_ret. destruct R as [|y R].
  { exfalso. simpl in Hp. subst p. destruct (proj2 Hst eq_refl) as [[? ?]|[? ?]].
    - by rewrite !(proj2 (Z.ltb_lt _ _)) in C1 by lia.
    - rewrite (proj2 (Z.leb_le _ _)) in C2 by lia. simpl in C2. apply orb_false_iff in C2. zbool. lia. }
  destruct Hp as [E' Hp]. rewrite En in E'. injection E' as <-. exists R. split; [done|]. simpl. lia.
Qed.

Abbreviation ends_at n := (fst n + HDR * snd n).

(** The free blocks above the block [bp], after the first of them was joined
    to it if it is adjacent. *)
Record joined_up h h1 (bp n m : Z) L2 L2' : Prop := {
  ju_ptr : h_ptr h1 = <[bp := first_of L2' base]> (h_ptr h);
  ju_size : h_size h1 = <[bp := m]> (h_size h);
  ju_freep : freep h1 = freep h;
  ju_world : world h1 = world h;
  ju_chain : chain h1 bp L2' base;
  ju_spaced : spaced (bp + HDR * m) L2';
  ju_le : n <= m;
  ju_top : bp + HDR * m <= top h;
  ju_below : Forall (fun x => ends_at x <= top h) L2';
  ju_apart : forall y, 0 < snd y -> apart y (bp, n) -> Forall (apart y) L2 ->
    apart y (bp, m) /\ Forall (apart y) L2'
}.

Definition join_up (bp nx bsz : Z) : M (heap W) unit :=
  if bp + HDR * bsz =? nx then
    let! nsz := get_size nx in
    do! set_size bp (bsz + nsz) in
    let! nn := get_ptr nx in
    set_ptr bp nn
  else set_ptr bp nx.

Lemma join_up_ok h bp n L2 t :
  chain h t L2 base -> spaced t L2 -> h_size h !! bp = Some n -> 0 < n -> 0 < base < bp -> top h <= 2 ^ 31 ->
  Forall (fun x => bp + HDR * n <= fst x) L2 -> Forall (fun x => ends_at x <= top h) L2 -> bp + HDR * n <= top h ->
  wp (join_up bp (first_of L2 base) n) (fun _ h1 => exists m L2', joined_up h h1 bp n m L2 L2') h.
Proof using.
  intros Hc Hs Hn Hn0 Hb Ht Ha Hbe Hle. unfold join_up.
  assert (Hbp : forall x, x ∈ L2.*1 -> bp <> x).
  { intros x Hx. apply list_elem_of_fmap in Hx as (y & -> & Hy). rewrite list.Forall_forall in Ha.
    specialize (Ha y Hy). unfold HDR in *. lia. }
  destruct (Z.eqb_spec (bp + HDR * n) (first_of L2 base)) as [E|E].
  - destruct L2 as [|[a s] L2]; simpl in E; [unfold HDR in *; lia|]. destruct Hc as (Hc1 & Hc2 & Hc3). simpl in *.
    destruct Hs as (Hs1 & Hs2 & Hs3). inversion Hbe as [|?? Hb1 Hb2]; subst. simpl in Hb1.
    apply wp_bind. eapply wp_get_size; [exact Hc2|]. apply wp_bind, wp_modify.
    apply wp_bind. eapply wp_get_ptr; [exact (chain_first _ _ _ _ Hc3)|].
    apply wp_modify. exists (n + s), L2. split; simpl; [done| |done|done| | |lia|unfold HDR in *; lia|done|].
    + f_equal. apply u32_small. unfold HDR in *. lia.
    + eapply chain_rehead; [exact Hc3|simpl; by rewrite lookup_insert_eq|]. intros x Hx. simpl.
      rewrite !lookup_insert_ne by (apply Hbp; by right). done.
    + eapply spaced_weaken; [|exact Hs3]. unfold HDR in *. lia.
    + intros y Hy Hy1 Hy2. inversion Hy2 as [|?? Hy3 Hy4]; subst. split; [|done].
      unfold apart in *. simpl in *. unfold HDR in *. lia.
  - apply wp_modify. exists n, L2. split; simpl; [done| |done|done| | |lia|done|done|done].
    + by rewrite insert_id.
    + eapply chain_rehead; [exact Hc|simpl; by rewrite lookup_insert_eq|]. intros x Hx. simpl.
      by rewrite !lookup_insert_ne by (by apply Hbp).
    + destruct L2 as [|a L2]; [done|]. simpl in *. inversion Ha; subst. split; [lia|tauto].
Qed.

Definition join_down (bp p psz : Z) : M (heap W) unit :=
  if p + HDR * psz =? bp then
    let! bsz := get_size bp in
    do! set_size p (psz + bsz) in
    let! bn := get_ptr bp in
    set_ptr p bn
  else set_ptr p bp.

(** The whole list after both joins. *)
Record joined h h2 (bp n : Z) L L' : Prop := {
  jd_world : world h2 = world h;
  jd_freep : freep h2 = freep h;
  jd_chain : chain h2 base L' base;
  jd_spaced : spaced base L';
  jd_size : forall x, x ∉ base :: L.*1 -> x <> bp -> h_size h2 !! x = h_size h !! x;
  jd_size0 : h_size h2 !! base = h_size h !! base;
  jd_below : Forall (fun x => ends_at x <= top h) L';
  jd_last : exists s, n <= s /\ s ∈ L'.*2;
  jd_apart : forall y, 0 < snd y -> apart y (bp, n) -> Forall (apart y) L -> Forall (apart y) L'
}.

Lemma last_of_size h L1 q : chain h base L1 q -> h_size h !! base = Some 0 ->
  last_of base L1 = match list.last L1 with None => base | Some x => fst x end /\
  h_size h !! last_of base L1 = Some (match list.last L1 with None => 0 | Some x => snd x end).
Proof using.
  intros Hc H0. destruct L1 as [|x L1 _] using rev_ind; [done|]. rewrite last_of_snoc, last_snoc.
  split; [done|]. apply chain_app in Hc as [_ Hc]. by destruct Hc as (_ & ? & _).
Qed.

Section down.
Context h h1 (bp n m : Z) L1 L2 L2' live (Hk : heap_ok h (L1 ++ L2) live) (Hn : 0 < n) (Hb : base < bp).
Context (H1 : Forall (fun x => ends_at x <= bp) L1) (H2 : Forall (fun x => bp + HDR * n <= fst x) L2).
Context (J : joined_up h h1 bp n m L2 L2').

Lemma down_facts : chain h base L1 (first_of L2 base) /\ spaced base L1 /\ NoDup (base :: L1.*1) /\
  (forall x, x ∈ base :: L1.*1 -> x < bp) /\ (forall x, x ∈ bp :: L2'.*1 -> bp <= x).
Proof using Hk Hb Hn H1 J.
  destruct Hk as [? ? ? Hc Hs _ _ _ _]. apply chain_app in Hc as [Hc _]. apply spaced_app in Hs as [Hs _].
  split_and!; [done|done|by apply spaced_nodup| |].
  - intros x Hx. apply elem_of_cons in Hx as [->|Hx]; [done|]. apply list_elem_of_fmap in Hx as (y & -> & Hy).
    rewrite list.Forall_forall in H1. specialize (H1 y Hy). apply (spaced_above _ _ _ Hs) in Hy. unfold HDR in *. lia.
  - intros x Hx. apply elem_of_cons in Hx as [->|Hx]; [done|]. apply list_elem_of_fmap in Hx as (y & -> & Hy).
    pose proof (ju_le _ _ _ _ _ _ _ J). apply (spaced_above _ _ _ (ju_spaced _ _ _ _ _ _ _ J)) in Hy. unfold HDR in *. lia.
Qed.

(** The block below is not adjacent. *)
Lemma down_apart h2 :
  (match list.last L1 with None => base | Some x => ends_at x end) <> bp ->
  h_ptr h2 = <[last_of base L1 := bp]> (h_ptr h1) -> h_size h2 = h_size h1 ->
  freep h2 = freep h1 -> world h2 = world h1 -> joined h h2 bp n (L1 ++ L2) (L1 ++ (bp, m) :: L2').
Proof using Hk Hb Hn H1 H2 J.
  intros Hne Ep Es Ef Ew. destruct down_facts as (Hc & Hs & Hd & HL1 & HL2). destruct J as [J1 J2 J3 J4 J5 J6 J7 J8 J9 J10].
  pose proof (last_of_in base L1) as Ht. pose proof (HL1 _ Ht).
  assert (Hsz : forall x, x <> bp -> h_size h2 !! x = h_size h !! x).
  { intros x Hx. rewrite Es, J2. by rewrite lookup_insert_ne. }
  assert (Hxb : forall x, x ∈ base :: L1.*1 -> x <> bp) by (intros x Hx; specialize (HL1 x Hx); lia).
  split; [by rewrite Ew|by rewrite Ef| | |auto|auto with lia| |exists m; split; [done|rewrite fmap_app; simpl; set_solver +]|].
  - apply chain_app. split.
    + eapply chain_relink; [exact Hc|done|by rewrite Ep, lookup_insert_eq| |].
      * intros x Hx Hxt. rewrite Ep, lookup_insert_ne, J1, lookup_insert_ne by (done || by apply not_eq_sym, Hxb). done.
      * intros x Hx. apply Hsz, Hxb. by right.
    + simpl. split_and!; [by rewrite Ep, lookup_insert_eq|by rewrite Es, J2, lookup_insert_eq|].
      eapply chain_ext; [exact J5| |by intros; rewrite Es]. intros x Hx. rewrite Ep, lookup_insert_ne; [done|].
      intros <-. specialize (HL2 _ Hx). lia.
  - apply spaced_app. split; [done|]. simpl. split_and!; [|lia|done].
    destruct (list.last L1) as [x|] eqn:El; [|done]. apply last_Some in El as [l' ->].
    apply Forall_app in H1 as [_ H1]. inversion H1; subst. lia.
  - apply Forall_app. split; [|by constructor]. pose proof (hk_below _ _ _ Hk) as Hbe. by apply Forall_app in Hbe as [? _].
  - intros y Hy Hy1 Hy2. apply Forall_app in Hy2 as [Hy2 Hy3]. apply Forall_app. split; [done|].
    destruct (J10 y Hy Hy1 Hy3). by constructor.
Qed.

(** The block below is adjacent and swallows [bp]. *)
Lemma down_merge h2 L1' a s :
  L1 = L1' ++ [(a, s)] -> a + HDR * s = bp ->
  h_ptr h2 = <[a := first_of L2' base]> (h_ptr h1) -> h_size h2 = <[a := s + m]> (h_size h1) ->
  freep h2 = freep h1 -> world h2 = world h1 -> joined h h2 bp n (L1 ++ L2) (L1' ++ (a, s + m) :: L2').
Proof using Hk Hb Hn H1 H2 J.
  intros EL Ea Ep Es Ef Ew. destruct down_facts as (Hc & Hs & Hd & HL1 & HL2). destruct J as [J1 J2 J3 J4 J5 J6 J7 J8 J9 J10].
  assert (Hin : a ∈ base :: L1.*1) by (rewrite EL, fmap_app; simpl; set_solver +). pose proof (HL1 a Hin) as Hab.
  assert (Hn1 : forall x, x ∈ base :: L1'.*1 -> x ∈ base :: L1.*1 /\ x <> a).
  { intros x Hx. split; [rewrite EL, fmap_app; set_solver +Hx|]. intros ->. rewrite EL, fmap_app in Hd.
    change (base :: L1'.*1 ++ [(a, s)].*1) with ((base :: L1'.*1) ++ [a]) in Hd.
    apply list.NoDup_app in Hd as (_ & Hd & _). apply (Hd a Hx). by left. }
  assert (Hsm : 0 < s). { rewrite EL in Hs. by apply (spaced_above _ _ (a, s) Hs), elem_of_app; right; left. }
  split; [by rewrite Ew|by rewrite Ef| | | | | | |].
  - rewrite EL in Hc. apply chain_app in Hc as [Hc Hc']. simpl in Hc, Hc'. destruct Hc' as (Hc1 & Hc2 & _). apply chain_app. split.
    + eapply chain_ext; [exact Hc| |]; intros x Hx; [|assert (x ∈ base :: L1'.*1) as Hx' by (by right); revert Hx' Hx; intros Hx' _];
        [destruct (Hn1 x Hx) as [Hx1 Hx2]|destruct (Hn1 x Hx') as [Hx1 Hx2]]; specialize (HL1 x Hx1).
      * rewrite Ep, lookup_insert_ne, J1, lookup_insert_ne by lia. done.
      * rewrite Es, lookup_insert_ne, J2, lookup_insert_ne by lia. done.
    + simpl. pose proof (last_of_in base L1') as Hl. destruct (Hn1 _ Hl) as [Hl1 Hl2]. specialize (HL1 _ Hl1). split_and!.
      * rewrite Ep, lookup_insert_ne, J1, lookup_insert_ne by lia. done.
      * by rewrite Es, lookup_insert_eq.
      * eapply chain_rehead; [exact J5|by rewrite Ep, lookup_insert_eq|]. intros x Hx.
        specialize (HL2 x ltac:(by right)). rewrite Ep, Es, !lookup_insert_ne by lia. done.
  - rewrite EL in Hs. apply spaced_app in Hs as [Hs Hs']. apply spaced_app. split; [done|]. simpl in *.
    destruct Hs' as (? & ? & _). split_and!; [done|lia|]. eapply spaced_weaken; [|exact J6]. unfold HDR in *. lia.
  - intros x Hx Hxb. rewrite Es, J2. rewrite lookup_insert_ne, lookup_insert_ne; [done|done|].
    intros <-. apply Hx. rewrite fmap_app. set_solver +Hin.
  - assert (base <> a). { destruct (Hn1 base ltac:(by left)). done. }
    rewrite Es, J2, lookup_insert_ne, lookup_insert_ne by lia. done.
  - pose proof (hk_below _ _ _ Hk) as Hbe. rewrite EL in Hbe. rewrite !Forall_app in Hbe. destruct Hbe as [[? _] _].
    apply Forall_app. split; [done|]. constructor; [simpl; unfold HDR in *; lia|done].
  - exists (s + m). split; [lia|]. rewrite fmap_app. simpl. set_solver +.
  - intros y Hy Hy1 Hy2. apply Forall_app in Hy2 as [Hy2 Hy3]. rewrite EL in Hy2. apply Forall_app in Hy2 as [Hy2 Hy4].
    inversion Hy4 as [|?? Hya _]; subst. destruct (J10 y Hy Hy1 Hy3) as [Hym ?]. apply Forall_app. split; [done|].
    constructor; [|done]. unfold apart in *. simpl in *. unfold HDR in *. lia.
Qed.
End down.

Lemma free_joins ap : free ap =
  (let! p := free_search (ap - HDR) in
   let! nx := get_ptr p in
   let! bsz := get_size (ap - HDR) in
   do! join_up (ap - HDR) nx bsz in
   let! psz := get_size p in
   do! join_down (ap - HDR) p psz in
   set_freep p).
Proof using. done. Qed.

(** A block in use is not on the free list. *)
Lemma live_not_free h L live b n : heap_ok h L live -> live !! b = Some n -> b ∉ base :: L.*1.
Proof using.
  intros Hk Hl Hin. destruct (hk_live _ _ _ Hk b n Hl) as (_ & Hn & Hb & _ & Hap).
  apply elem_of_cons in Hin as [->|Hin]; [lia|]. apply list_elem_of_fmap in Hin as (x & -> & Hx).
  rewrite list.Forall_forall in Hap. specialize (Hap x Hx). apply (spaced_above _ _ _ (hk_spaced _ _ _ Hk)) in Hx.
  unfold apart in Hap. simpl in Hap. unfold HDR in *. lia.
Qed.

Lemma joined_ok h h2 bp n L L' live p :
  heap_ok h L live -> live !! bp = Some n -> joined h h2 bp n L L' -> p ∈ base :: L'.*1 ->
  heap_ok (mk_heap (h_ptr h2) (h_size h2) p (world h2)) L' (delete bp live).
Proof using.
  intros Hk Hl [Jw Jf Jc Js Jz Jz0 Jb _ Ja] Hp. destruct (id Hk) as [K1 K2 K3 K4 K5 K6 K7 K8 K9].
  split; simpl; rewrite ?Jw; [done|done|by rewrite Jz0| |done|done|done| |].
  - eapply chain_ext; [exact Jc|done|done].
  - intros b n' Hb. apply lookup_delete_Some in Hb as [Hne Hb]. destruct (K8 b n' Hb) as (H1 & H2 & H3 & H4 & H5).
    split_and!; [|done..|].
    + rewrite Jz; [done| |done]. by eapply live_not_free.
    + apply Ja; [done| |done]. by apply (K9 b n' bp n).
  - intros b n1 b' n2 Hb Hb'. apply lookup_delete_Some in Hb as [_ Hb]. apply lookup_delete_Some in Hb' as [_ Hb']. eauto.
Qed.

Lemma spaced_last lo L1 L2 : spaced lo (L1 ++ L2) -> spaced (last_of lo L1) L2.
Proof using.
  intros Hs. apply spaced_app in Hs as [H1 H2]. destruct L1 as [|x L1 _] using rev_ind; [done|].
  rewrite last_of_snoc. rewrite last_snoc in H2. eapply spaced_weaken; [|exact H2].
  apply (spaced_above _ _ x) in H1; [unfold HDR; lia|]. apply elem_of_app. right. by left.
Qed.

Lemma join_down_ok h h1 bp n m L1 L2 L2' live :
  heap_ok h (L1 ++ L2) live -> 0 < n -> base < bp ->
  Forall (fun x => ends_at x <= bp) L1 -> Forall (fun x => bp + HDR * n <= fst x) L2 ->
  joined_up h h1 bp n m L2 L2' ->
  let psz := match list.last L1 with None => 0 | Some x => snd x end in
  h_size h1 !! last_of base L1 = Some psz /\
  wp (join_down bp (last_of base L1) psz)
     (fun _ h2 => exists L', joined h h2 bp n (L1 ++ L2) L' /\ last_of base L1 ∈ base :: L'.*1) h1.
Proof using.
  intros Hk Hn Hb H1 H2 J psz.
  destruct (down_facts h h1 bp n m L1 L2 L2' live Hk Hn Hb H1 J) as (Hc & Hs & _ & HL1 & _).
  destruct (last_of_size h L1 _ Hc (hk_size0 _ _ _ Hk)) as [El Esz]. fold psz in Esz.
  pose proof (HL1 _ (last_of_in base L1)) as Hlt. split.
  { rewrite (ju_size _ _ _ _ _ _ _ J), lookup_insert_ne by lia. done. }
  unfold join_down. destruct (Z.eqb_spec (last_of base L1 + HDR * psz) bp) as [E|E].
  - destruct L1 as [|[a s] L1' _] using rev_ind; [unfold psz, last_of in E; simpl in E; unfold HDR in *; lia|].
    subst psz. rewrite last_of_snoc, last_snoc in *. simpl in *.
    apply wp_bind. eapply wp_get_size; [by rewrite (ju_size _ _ _ _ _ _ _ J), lookup_insert_eq|].
    apply wp_bind, wp_modify. apply wp_bind.
    eapply wp_get_ptr; [simpl; by rewrite (ju_ptr _ _ _ _ _ _ _ J), lookup_insert_eq|]. apply wp_modify.
    exists (L1' ++ (a, s + m) :: L2'). split; [|rewrite fmap_app; simpl; set_solver +].
    eapply (down_merge h h1 bp n m (L1' ++ [(a, s)]) L2 L2' live); try done. simpl. f_equal. apply u32_small.
    pose proof (ju_le _ _ _ _ _ _ _ J). pose proof (ju_top _ _ _ _ _ _ _ J). destruct (hk_base _ _ _ Hk).
    pose proof (hk_top _ _ _ Hk). apply (spaced_above _ _ (a, s)) in Hs; [|apply elem_of_app; right; by left].
    simpl in Hs. unfold HDR in *. lia.
  - apply wp_modify. exists (L1 ++ (bp, m) :: L2'). split.
    + eapply (down_apart h h1 bp n m L1 L2 L2' live); try done. rewrite El in E. unfold psz in E.
      destruct (list.last L1); [done|]. lia.
    + pose proof (last_of_in base L1) as Hi. rewrite fmap_app. set_solver +Hi.
Qed.

(** [free] returns a block in use to the free list. *)
Lemma free_ok h L live bp n : heap_ok h L live -> live !! bp = Some n ->
  wp (free (bp + HDR)) (fun _ h' => exists L', heap_ok h' L' (delete bp live) /\ world h' = world h /\
    exists s, n <= s /\ s ∈ L'.*2) h.
Proof using.
  intros Hk Hl. destruct (hk_live _ _ _ Hk bp n Hl) as (Hsz & Hn & Hb & Htop & Hap).
  destruct (split_at base L bp n (hk_spaced _ _ _ Hk) Hb Hn Hap) as (L1 & L2 & -> & H1 & H2).
  pose proof (hk_chain _ _ _ Hk) as Hc. apply chain_app in Hc as [Hc1 Hc2].
  pose proof (hk_spaced _ _ _ Hk) as Hs. pose proof (spaced_last _ _ _ Hs) as Hs2. apply spaced_app in Hs as [Hs1 _].
  pose proof (hk_base _ _ _ Hk) as Hbase. pose proof (hk_below _ _ _ Hk) as Hbe. apply Forall_app in Hbe as [_ Hbe].
  rewrite free_joins. replace (bp + HDR - HDR) with bp by (unfold HDR; lia). apply wp_bind.
  eapply wp_conseq; [eapply (free_search_ok h L1 L2 live bp Hk Hb)|].
  { apply list.Forall_forall. intros x Hx. rewrite list.Forall_forall in H1. specialize (H1 x Hx).
    apply (spaced_above _ _ _ Hs1) in Hx. unfold HDR in *. lia. }
  { eapply Forall_impl; [|exact H2]. unfold HDR. simpl. lia. }
  intros p h' [-> ->]. apply wp_bind. eapply wp_get_ptr; [exact (chain_last _ _ _ _ Hc1)|].
  apply wp_bind. eapply wp_get_size; [exact Hsz|]. apply wp_bind.
  eapply wp_conseq; [eapply (join_up_ok h bp n L2); try done; [lia|by destruct Hk]|].
  intros _ h1 (m & L2' & J). destruct (join_down_ok h h1 bp n m L1 L2 L2' live Hk Hn Hb H1 H2 J) as [Hp Hj].
  apply wp_bind. eapply wp_get_size; [exact Hp|]. apply wp_bind. eapply wp_conseq; [exact Hj|].
  intros _ h2 (L' & Jd & Hin). apply wp_modify. exists L'. split; [by eapply joined_ok|].
  split; [by destruct Jd|by destruct Jd].
Qed.

(** ** malloc *)

Lemma wp_sbrk n Q h :
  wp (os_sbrk n) (fun p w' => Q p (mk_heap (h_ptr h) (h_size h) (freep h) w')) (world h) -> wp (sbrk n) Q h.
Proof using. unfold wp, sbrk, zoom. by destruct (os_sbrk n (world h)). Qed.

(** New memory, as a block in use. *)
Lemma new_core h L live nu w' : heap_ok h L live -> 0 < nu -> nu < 2 ^ 32 ->
  brk w' = top h + HDR * nu -> brk w' <= 2 ^ 31 ->
  live !! top h = None /\
  heap_ok (mk_heap (h_ptr h) (<[top h := u32 nu]> (h_size h)) (freep h) w') L (<[top h := nu]> live).
Proof using.
  intros Hk Hn Hn2 Hw Hw2. destruct (id Hk) as [K1 K2 K3 K4 K5 K6 K7 K8 K9]. rewrite u32_small by lia.
  assert (HL : forall x, x ∈ base :: L.*1 -> x < top h).
  { intros x Hx. apply elem_of_cons in Hx as [->|Hx]; [lia|]. apply list_elem_of_fmap in Hx as (y & -> & Hy).
    rewrite list.Forall_forall in K6. specialize (K6 y Hy). apply (spaced_above _ _ _ K5) in Hy. unfold HDR in *. lia. }
  assert (Hlv : forall b n, live !! b = Some n -> b < top h).
  { intros b n Hb. destruct (K8 b n Hb) as (_ & ? & _ & ? & _). unfold HDR in *. lia. }
  split; [destruct (live !! top h) eqn:E; [|done]; apply Hlv in E; lia|].
  split; simpl; rewrite ?Hw; [unfold HDR; lia|lia| | |done| |done| |].
  - rewrite lookup_insert_ne by lia. done.
  - eapply chain_ext; [exact K4|done|]. intros x Hx. simpl. rewrite lookup_insert_ne; [done|].
    specialize (HL x ltac:(by right)). lia.
  - eapply Forall_impl; [|exact K6]. simpl. unfold HDR. lia.
  - intros b n Hb. apply lookup_insert_Some in Hb as [[<- <-]|[Hne Hb]].
    + rewrite lookup_insert_eq. split_and!; [done|done|lia|lia|].
      eapply Forall_impl; [|exact K6]. intros x Hx. by right.
    + destruct (K8 b n Hb) as (? & ? & ? & ? & ?). rewrite lookup_insert_ne by done.
      split_and!; try done. unfold HDR in *. lia.
  - intros b n b' n' Hb Hb' Hne. apply lookup_insert_Some in Hb as [[<- <-]|[Hnb Hb]];
      apply lookup_insert_Some in Hb' as [[<- <-]|[Hnb' Hb']]; [done| | |eauto].
    + destruct (K8 b' n' Hb') as (_ & _ & _ & ? & _). by right.
    + destruct (K8 b n Hb) as (_ & _ & _ & ? & _). by left.
Qed.

Lemma morecore_ok h L live nu : heap_ok h L live -> 0 < nu <= 2 ^ 26 ->
  wp (morecore nu) (fun p h' => (p = 0 /\ exists w', brk w' = top h /\ h' = mk_heap (h_ptr h) (h_size h) (freep h) w') \/
    (p = freep h' /\ p <> 0 /\ exists L', heap_ok h' L' live /\ exists s, nu <= s /\ s ∈ L'.*2)) h.
Proof using.
  intros Hk Hn. unfold morecore. set (nu' := if nu <? 4096 then 4096 else nu).
  assert (Hnu : nu <= nu' /\ 0 < nu' <= 2 ^ 26) by (unfold nu'; destruct (Z.ltb_spec nu 4096); lia). clearbody nu'.
  rewrite s32_small by (unfold HDR; lia). apply wp_bind, wp_sbrk.
  eapply wp_conseq; [apply sbrk_grows; unfold HDR; lia|]. intros p w' [[-> Hw]|(-> & Hw & Hw2)].
  { rewrite Z.eqb_refl. apply wp_ret. left. split; [done|]. by exists w'. }
  pose proof (hk_base _ _ _ Hk). rewrite (proj2 (Z.eqb_neq (top h) (-1))) by lia.
  apply wp_bind, wp_modify.
  destruct (new_core h L live nu' w' Hk) as [Hno Hk']; [lia|lia|unfold HDR in *; lia|lia|].
  apply wp_bind. eapply wp_conseq; [eapply (free_ok _ L (<[top h := nu']> live)); [exact Hk'|by rewrite lookup_insert_eq]|].
  intros _ h2 (L' & Hk2 & _ & s & Hs1 & Hs2). rewrite delete_insert_id in Hk2 by done.
  apply wp_gets. right. split; [done|]. split.
  - pose proof (ring_ge _ _ _ _ Hk2 (hk_freep _ _ _ Hk2)). lia.
  - exists L'. split; [done|]. exists s. split; [lia|done].
Qed.

Lemma apart_sym x y : apart x y -> apart y x.
Proof using. unfold apart. tauto. Qed.

(** A free block is apart from the others. *)
Lemma spaced_apart lo L1 x L2 : spaced lo (L1 ++ x :: L2) -> Forall (apart x) L1 /\ Forall (apart x) L2.
Proof using.
  revert lo. induction L1 as [|y L1 IH]; intros lo Hs; simpl in Hs; destruct Hs as (H1 & H2 & H3).
  - split; [done|]. apply list.Forall_forall. intros z Hz. apply (spaced_above _ _ _ H3) in Hz. left. lia.
  - destruct (IH _ H3) as [? ?]. split; [|done]. constructor; [|done]. right.
    assert (Hx : x ∈ L1 ++ x :: L2) by (apply elem_of_app; right; by left).
    apply (spaced_above _ _ _ H3) in Hx. lia.
Qed.

Section take.
Context h L1 L2 (a s : Z) live (Hk : heap_ok h (L1 ++ (a, s) :: L2) live).

Lemma take_facts : 0 < s /\ base < a /\ a + HDR * s <= top h /\ last_of base L1 < a /\ spaced base (L1 ++ L2) /\
  Forall (apart (a, s)) (L1 ++ L2) /\ NoDup (base :: (L1 ++ (a, s) :: L2).*1).
Proof using Hk.
  pose proof (hk_spaced _ _ _ Hk) as Hs. assert (Hin : (a, s) ∈ L1 ++ (a, s) :: L2) by (apply elem_of_app; right; by left).
  pose proof (spaced_above _ _ _ Hs Hin) as [? ?]. pose proof (hk_below _ _ _ Hk) as Hb. rewrite list.Forall_forall in Hb.
  destruct (spaced_apart _ _ _ _ Hs) as [Ha1 Ha2]. destruct (spaced_order _ _ _ Hs) as (_ & _ & Ho). inversion Ho; subst.
  split_and!; [done|done|by apply (Hb (a, s))|done| |by apply Forall_app|by apply spaced_nodup].
  apply spaced_app in Hs as [Hs1 Hs2]. apply spaced_app. split; [done|]. destruct Hs2 as (? & ? & Hs2).
  eapply spaced_weaken; [|exact Hs2]. simpl in *. unfold HDR in *. lia.
Qed.

(** Adding a block inside [(a, s)] to the blocks in use. *)
Lemma live_add b n : a <= b -> 0 < n -> b + HDR * n <= a + HDR * s ->
  live !! b = None /\ forall b' n', live !! b' = Some n' -> apart (b', n') (b, n).
Proof using Hk.
  intros Hb Hn Hbs. assert (Ha : forall b' n', live !! b' = Some n' -> 0 < n' /\ apart (b', n') (b, n)).
  { intros b' n' Hl. destruct (hk_live _ _ _ Hk b' n' Hl) as (_ & ? & _ & _ & Hap). split; [done|].
    rewrite list.Forall_forall in Hap. specialize (Hap (a, s) ltac:(apply elem_of_app; right; by left)).
    unfold apart in *. simpl in *. unfold HDR in *. lia. }
  split; [|by apply Ha]. destruct (live !! b) as [n'|] eqn:E; [|done]. destruct (Ha _ _ E) as [? Hx].
  unfold apart in Hx. simpl in Hx. unfold HDR in *. lia.
Qed.

Lemma live_insert (h' : heap W) L' b n :
  world h' = world h -> a <= b -> 0 < n -> b + HDR * n <= a + HDR * s -> h_size h' !! b = Some n ->
  (forall b' n', live !! b' = Some n' -> h_size h' !! b' = h_size h !! b') ->
  Forall (apart (b, n)) L' -> (forall y, 0 < snd y -> Forall (apart y) (L1 ++ (a, s) :: L2) -> Forall (apart y) L') ->
  (forall b' n', <[b := n]> live !! b' = Some n' ->
    h_size h' !! b' = Some n' /\ 0 < n' /\ base < b' /\ b' + HDR * n' <= top h' /\ Forall (apart (b', n')) L') /\
  (forall b1 n1 b2 n2, <[b := n]> live !! b1 = Some n1 -> <[b := n]> live !! b2 = Some n2 -> b1 <> b2 ->
    apart (b1, n1) (b2, n2)).
Proof using Hk.
  intros Hw Hb Hn Hbs Hsz Hszs Hap Hap'. destruct take_facts as (? & ? & ? & _). destruct (live_add b n Hb Hn Hbs) as [Hno Hla].
  rewrite Hw. split.
  - intros b' n' Hl. apply lookup_insert_Some in Hl as [[<- <-]|[Hne Hl]]; [split_and!; [done|done|lia|lia|done]|].
    destruct (hk_live _ _ _ Hk b' n' Hl) as (? & ? & ? & ? & ?). split_and!; [|done..|by apply Hap'].
    rewrite (Hszs _ _ Hl). done.
  - intros b1 n1 b2 n2 E1 E2 Hne. apply lookup_insert_Some in E1 as [[<- <-]|[? E1]];
      apply lookup_insert_Some in E2 as [[<- <-]|[? E2]]; [done| | |by eapply (hk_disj _ _ _ Hk)].
    + apply apart_sym. by apply Hla.
    + by apply Hla.
Qed.

(** The block fits exactly: it leaves the list. *)
Lemma take_all : heap_ok (mk_heap (<[last_of base L1 := first_of L2 base]> (h_ptr h)) (h_size h) (last_of base L1) (world h))
  (L1 ++ L2) (<[a := s]> live).
Proof using Hk.
  destruct take_facts as (Hs & Ha & Hat & Hla & Hsp & Hap & Hnd). destruct (id Hk) as [K1 K2 K3 K4 K5 K6 K7 K8 K9].
  apply chain_app in K4 as [Kc1 Kc2]. simpl in Kc1. destruct Kc2 as (Kp & Ksz & Kc2). simpl in *.
  rewrite fmap_app in Hnd. simpl in Hnd.
  assert (Hd1 : NoDup (base :: L1.*1)) by (change (NoDup ((base :: L1.*1) ++ a :: L2.*1)) in Hnd; by apply list.NoDup_app in Hnd as (? & _)).
  assert (Hd2 : last_of base L1 ∉ L2.*1).
  { change (NoDup ((base :: L1.*1) ++ a :: L2.*1)) in Hnd. apply list.NoDup_app in Hnd as (_ & Hd & _).
    specialize (Hd _ (last_of_in base L1)). set_solver +Hd. }
  assert (HLV : (forall b' n', <[a := s]> live !! b' = Some n' -> h_size h !! b' = Some n' /\ 0 < n' /\ base < b' /\
      b' + HDR * n' <= top h /\ Forall (apart (b', n')) (L1 ++ L2)) /\
    (forall b1 n1 b2 n2, <[a := s]> live !! b1 = Some n1 -> <[a := s]> live !! b2 = Some n2 -> b1 <> b2 -> apart (b1, n1) (b2, n2))).
  { apply (live_insert h (L1 ++ L2) a s); try done. intros y _ Hy. apply Forall_app in Hy as [? Hy]. inversion Hy; subst. by apply Forall_app. }
  destruct HLV as [HLV1 HLV2]. split; simpl; [done|done|done| |done| | |done|done].
  - apply chain_app. split.
    + eapply chain_relink; [exact Kc1|done|simpl; by rewrite lookup_insert_eq| |done].
      intros x _ Hx. simpl. by rewrite lookup_insert_ne.
    + eapply chain_rehead; [exact Kc2|simpl; by rewrite lookup_insert_eq|]. intros x Hx. simpl.
      rewrite lookup_insert_ne; [done|]. intros <-. done.
  - apply Forall_app in K6 as [? K6]. inversion K6; subst. by apply Forall_app.
  - pose proof (last_of_in base L1) as Hi. rewrite fmap_app. set_solver +Hi.
Qed.

(** The block is larger: its tail is cut off. *)
Lemma take_tail n : 0 < n < s ->
  heap_ok (mk_heap (h_ptr h) (<[a + HDR * (s - n) := n]> (<[a := s - n]> (h_size h))) (last_of base L1) (world h))
  (L1 ++ (a, s - n) :: L2) (<[a + HDR * (s - n) := n]> live).
Proof using Hk.
  intros Hn. destruct take_facts as (Hs & Ha & Hat & Hla & Hsp & Hap & Hnd). destruct (id Hk) as [K1 K2 K3 K4 K5 K6 K7 K8 K9].
  set (b := a + HDR * (s - n)). assert (Hab : a < b /\ b + HDR * n = a + HDR * s) by (unfold b, HDR; lia).
  assert (Hb : forall x, x ∈ base :: (L1 ++ (a, s) :: L2).*1 -> x <> b).
  { intros x Hx ->. rewrite fmap_app in Hx. apply elem_of_cons in Hx as [Hx|Hx]; [lia|].
    apply elem_of_app in Hx as [Hx|Hx]; [|apply elem_of_cons in Hx as [Hx|Hx]; [simpl in Hx; lia|]];
      apply list_elem_of_fmap in Hx as (y & Hy & Hx);
      rewrite list.Forall_forall in Hap; specialize (Hap y ltac:(apply elem_of_app; tauto));
      unfold apart in Hap; simpl in Hap; pose proof (spaced_above _ _ y Hsp ltac:(apply elem_of_app; tauto)); unfold HDR in *; lia. }
  assert (Ha' : forall x, x ∈ base :: (L1 ++ L2).*1 -> x <> a).
  { intros x Hx ->. rewrite fmap_app in Hnd, Hx. simpl in Hnd. clear -Hnd Hx.
    change (NoDup ((base :: L1.*1) ++ a :: L2.*1)) in Hnd. apply list.NoDup_app in Hnd as (_ & Hd & Hnd).
    apply list.NoDup_cons in Hnd as [Hn2 _]. specialize (fun H => Hd a H ltac:(left)). set_solver. }
  set (h' := mk_heap (h_ptr h) (<[b := n]> (<[a := s - n]> (h_size h))) (last_of base L1) (world h)).
  destruct (live_insert h' (L1 ++ (a, s - n) :: L2) b n) as [HLV1 HLV2]; try done; try lia.
  { simpl. by rewrite lookup_insert_eq. }
  { intros b' n' Hl. simpl. rewrite !lookup_insert_ne; [done| |].
    - intros <-. eapply (live_not_free _ _ _ _ _ Hk Hl). rewrite fmap_app. set_solver +.
    - intros <-. destruct (live_add b n) as [Hno _]; [lia|lia|lia|]. congruence. }
  { apply Forall_app in Hap as [Hp1 Hp2]. apply Forall_app. split; [|constructor; [right; simpl; unfold b; lia|]];
        (eapply Forall_impl; [|done]); intros x Hx; unfold apart in *; simpl in *; unfold HDR in *; lia. }
  { intros y Hy Hyl. apply Forall_app in Hyl as [? Hyl]. inversion Hyl as [|?? Hya]; subst. apply Forall_app.
      split; [done|]. constructor; [|done]. unfold apart in *. simpl in *. unfold HDR in *. lia. }
  split; simpl; [done|done| | | | | |done|done].
  - rewrite !lookup_insert_ne; [done|apply not_eq_sym, Ha'; by left|apply not_eq_sym, Hb; by left].
  - apply chain_app in K4 as [Kc1 Kc2]. destruct Kc2 as (Kp & Ksz & Kc2). apply chain_app. split.
    + eapply chain_ext; [exact Kc1|done|]. intros x Hx. simpl.
      rewrite !lookup_insert_ne; [done|apply not_eq_sym, Ha'; rewrite fmap_app; set_solver +Hx|apply not_eq_sym, Hb; rewrite fmap_app; set_solver +Hx].
    + simpl. split_and!; [done|rewrite lookup_insert_ne by lia; by rewrite lookup_insert_eq|].
      eapply chain_ext; [exact Kc2|done|]. intros x Hx. simpl.
      rewrite !lookup_insert_ne; [done|apply not_eq_sym, Ha'; rewrite fmap_app; set_solver +Hx|apply not_eq_sym, Hb; rewrite fmap_app; set_solver +Hx].
  - apply spaced_app in K5 as [? K5]. apply spaced_app. split; [done|]. simpl in *. destruct K5 as (? & ? & K5).
    split_and!; [done|lia|]. eapply spaced_weaken; [|exact K5]. unfold HDR. lia.
  - apply Forall_app in K6 as [? K6]. inversion K6; subst. apply Forall_app. split; [done|]. constructor; [simpl in *; unfold HDR in *; lia|done].
  - pose proof (last_of_in base L1) as Hi. rewrite fmap_app. set_solver +Hi.
Qed.
End take.

(** Once around the ring from [freep]. *)
Lemma rotation h L live : heap_ok h L live -> exists p R,
  path h (freep h) (p :: R) (freep h) /\ p :: R ≡ₚ base :: L.*1.
Proof using.
  intros Hk. pose proof (hk_chain _ _ _ Hk) as Hc.
  destruct (chain_split _ _ _ _ _ Hc (hk_freep _ _ _ Hk)) as (A & B & -> & Ef & _).
  assert (HR : path h (freep h) ((B.*1 ++ [base]) ++ A.*1) (freep h)).
  { apply chain_app in Hc as [Hc1 Hc2]. eapply path_app; [rewrite Ef; by apply chain_path|].
    rewrite Ef. by eapply chain_path_last. }
  assert (HP : (B.*1 ++ [base]) ++ A.*1 ≡ₚ base :: (A ++ B).*1).
  { rewrite fmap_app, <- app_assoc, (Permutation_app_comm B.*1). simpl. done. }
  destruct ((B.*1 ++ [base]) ++ A.*1) as [|p R] eqn:E; [by destruct B|]. eauto.
Qed.

(** What the loop of [malloc] knows at [prevp] and [p]: the nodes [R] are left
    before it is back at [freep], and once memory was added, one that is big
    enough is among them. *)
Record scanning live (n : Z) (fresh : bool) (R : list Z) (prevp p : Z) (L : blocks) h : Prop := {
  sc_ok : heap_ok h L live;
  sc_prev : prevp ∈ base :: L.*1;
  sc_next : h_ptr h !! prevp = Some p;
  sc_path : path h p R (freep h);
  sc_dup : NoDup (p :: R);
  sc_ring : p :: R ⊆ base :: L.*1;
  sc_big : fresh = true -> exists x s, x ∈ p :: R /\ h_size h !! x = Some s /\ n <= s
}.

Lemma scanning_start h L live n fresh : heap_ok h L live ->
  (fresh = true -> exists s, n <= s /\ s ∈ L.*2) ->
  exists p R, h_ptr h !! freep h = Some p /\ scanning live n fresh R (freep h) p L h /\
    (length R <= length L)%nat.
Proof using.
  intros Hk Hbig. destruct (rotation h L live Hk) as (p & R & [Hp HR] & HP). exists p, R.
  pose proof (spaced_nodup _ _ (hk_spaced _ _ _ Hk)) as Hnd. split; [done|]. split.
  - split; [done|by apply Hk|done|done|by rewrite HP|by rewrite HP|].
    intros Hf. destruct (Hbig Hf) as (s & Hs & Hin). apply list_elem_of_fmap in Hin as ([a s'] & -> & Hin).
    exists a, s'. split_and!; [|by apply (chain_size h base L base (a, s')); [apply Hk|]|done].
    rewrite HP. right. apply list_elem_of_fmap. by exists (a, s').
  - apply Permutation_length in HP. simpl in HP. rewrite length_fmap in HP. lia.
Qed.

(** What [malloc] answers: 0, or a block of [n] headers that was not in use. *)
Definition answer live (n p : Z) (h' : heap W) : Prop :=
  (p = 0 /\ exists L', heap_ok h' L' live) \/
  (p <> 0 /\ live !! (p - HDR) = None /\ exists L', heap_ok h' L' (<[p - HDR := n]> live)).

Lemma found_ok live n fresh R prevp p L h psz Q :
  scanning live n fresh R prevp p L h -> 0 < n -> h_size h !! p = Some psz -> n <= psz ->
  (forall q h', answer live n q h' -> Q (inr q) h') -> wp (malloc_step n (prevp, p)) Q h.
Proof using.
  intros [Hk Hpr Hn Hp _ _ _] Hn0 Hsz Hle HQ. unfold malloc_step. cbn [fst snd].
  destruct (chain_split _ _ _ _ _ (hk_chain _ _ _ Hk) Hpr) as (A & B & EL & -> & Hnx).
  rewrite Hn in Hnx. injection Hnx as Ep. destruct B as [|[a s] B]; simpl in Ep; subst p L.
  { rewrite (hk_size0 _ _ _ Hk) in Hsz. injection Hsz as <-. lia. }
  assert (s = psz) as ->.
  { pose proof (chain_size _ _ _ _ (a, s) (hk_chain _ _ _ Hk) ltac:(apply elem_of_app; right; by left)) as E. simpl in E. congruence. }
  destruct (take_facts h A B a psz live Hk) as (Hs & Ha & Hat & _). pose proof (hk_base _ _ _ Hk). pose proof (hk_top _ _ _ Hk).
  apply wp_bind. eapply wp_get_size; [exact Hsz|]. rewrite (proj2 (Z.leb_le _ _)) by done.
  apply wp_bind. destruct (Z.eqb_spec psz n) as [->|Hne].
  - apply wp_bind. pose proof (hk_chain _ _ _ Hk) as Hc. apply chain_app in Hc as [_ Hc]. destruct Hc as (_ & _ & Hc).
    eapply wp_get_ptr; [exact (chain_first _ _ _ _ Hc)|]. apply wp_bind, wp_modify, wp_ret, wp_bind, wp_modify, wp_ret.
    apply HQ. right. replace (a + HDR - HDR) with a by (unfold HDR; lia). split; [unfold HDR; lia|].
    destruct (live_add h A B a n live Hk a n) as [Hno _]; [lia|lia|lia|]. split; [done|].
    eexists. exact (take_all h A B a n live Hk).
  - apply wp_bind, wp_modify. apply wp_bind. eapply wp_get_size; [simpl; by rewrite lookup_insert_eq|].
    apply wp_bind, wp_modify, wp_ret, wp_bind, wp_modify, wp_ret. simpl.
    rewrite !u32_small by (unfold HDR in *; lia). apply HQ. right.
    replace (a + HDR * (psz - n) + HDR - HDR) with (a + HDR * (psz - n)) by (unfold HDR; lia).
    split; [unfold HDR; lia|].
    destruct (live_add h A B a psz live Hk (a + HDR * (psz - n)) n) as [Hno _]; [unfold HDR; lia|lia|unfold HDR; lia|].
    split; [done|]. eexists. apply (take_tail h A B a psz live Hk n). lia.
Qed.

Lemma ring_size h L live x : heap_ok h L live -> x ∈ base :: L.*1 -> exists s, h_size h !! x = Some s.
Proof using.
  intros Hk Hx. apply elem_of_cons in Hx as [->|Hx]; [eexists; by apply Hk|].
  apply list_elem_of_fmap in Hx as (y & -> & Hy). eexists. by eapply chain_size; [apply Hk|].
Qed.

Lemma heap_ok_world h L live w' : heap_ok h L live -> brk w' = top h ->
  heap_ok (mk_heap (h_ptr h) (h_size h) (freep h) w') L live.
Proof using.
  intros [K1 K2 K3 K4 K5 K6 K7 K8 K9] Hw. split; simpl; rewrite ?Hw; try done. eapply chain_ext; [exact K4|done|done].
Qed.

Lemma list_short h L live : heap_ok h L live -> Z.of_nat (length L) <= 2 ^ 31.
Proof using.
  intros Hk. pose proof (hk_base _ _ _ Hk). pose proof (hk_top _ _ _ Hk).
  pose proof (spaced_length _ _ _ (hk_spaced _ _ _ Hk) (hk_below _ _ _ Hk)). lia.
Qed.

(** A node that is too small. *)
Lemma pass_ok live n fresh R prevp p L h psz :
  scanning live n fresh R prevp p L h -> h_size h !! p = Some psz -> psz < n -> p <> freep h ->
  exists nx R', h_ptr h !! p = Some nx /\ R = nx :: R' /\ scanning live n fresh R' p nx L h.
Proof using.
  intros [Hk Hpr Hn Hp Hd Hr Hb] Hsz Hlt Hne. destruct R as [|nx R]; [done|]. destruct Hp as [E Hp].
  exists nx, R. split_and!; [done|done|]. apply list.NoDup_cons in Hd as [_ Hd]. split; try done.
  - apply Hr. by left.
  - intros x Hx. apply Hr. by right.
  - intros Hf. destruct (Hb Hf) as (x & s & Hx & Hs & Hns). exists x, s. split_and!; try done.
    apply elem_of_cons in Hx as [->|Hx]; [|done]. rewrite Hsz in Hs. injection Hs as <-. lia.
Qed.

Lemma malloc_loop_ok live n fresh R prevp p L h :
  scanning live n fresh R prevp p L h -> 0 < n <= 2 ^ 26 -> Z.of_nat (length R) <= 2 ^ 31 ->
  wp (while (malloc_step n) (prevp, p)) (answer live n) h.
Proof using.
  intros Hs Hn HR.
  apply (wp_while_ghost _ (fun g st h => exists L, scanning live n (fst g) (snd g) (fst st) (snd st) L h /\
      Z.of_nat (length (snd g)) <= 2 ^ 31)
    (fun g => (if fst g : bool then 0 else 2 ^ 33) + Z.of_nat (length (snd g))) _ (fresh, R)); [| |].
  3: destruct fresh; simpl; lia.
  2: by exists L.
  clear Hs HR fresh R prevp p L h. intros [fresh R] [prevp p] h (L & Hs & HR). cbn [fst snd] in *.
  destruct (ring_size h L live p (sc_ok _ _ _ _ _ _ _ _ Hs)) as [psz Hsz]; [by apply (sc_ring _ _ _ _ _ _ _ _ Hs); left|].
  destruct (decide (n <= psz)) as [Hle|Hgt].
  { eapply found_ok; [exact Hs|lia|exact Hsz|done|]. by intros. }
  unfold malloc_step. cbn [fst snd]. apply wp_bind. eapply wp_get_size; [exact Hsz|].
  rewrite (proj2 (Z.leb_gt _ _)) by lia. apply wp_bind, wp_gets.
  destruct (Z.eqb_spec p (freep h)) as [->|Hne].
  - assert (R = []) as ->.
    { destruct R as [|x R]; [done|]. exfalso. pose proof (sc_dup _ _ _ _ _ _ _ _ Hs) as Hd.
      apply list.NoDup_cons in Hd as [Hd _]. apply Hd. destruct (sc_path _ _ _ _ _ _ _ _ Hs) as [_ Hp].
      by eapply path_end. }
    assert (fresh = false) as ->.
    { destruct fresh; [|done]. destruct (sc_big _ _ _ _ _ _ _ _ Hs eq_refl) as (x & s & Hx & Hxs & Hns).
      apply list_elem_of_singleton in Hx as ->. rewrite Hsz in Hxs. injection Hxs as <-. lia. }
    apply wp_bind. eapply wp_conseq; [apply (morecore_ok h L live n); [apply Hs|lia]|].
    intros q h' [(-> & w' & Hw & ->)|(-> & Hq & L' & Hk' & Hbig)].
    + apply wp_ret. left. split; [done|]. exists L. by apply heap_ok_world; [apply Hs|].
    + rewrite (proj2 (Z.eqb_neq _ _)) by done.
      destruct (scanning_start h' L' live n true Hk') as (nx & R' & Hnx & Hs' & HR'); [done|].
      pose proof (list_short _ _ _ Hk'). apply wp_bind. eapply wp_get_ptr; [exact Hnx|]. apply wp_ret.
      exists (true, R'). split; [exists L'; split; [done|simpl; lia]|]. simpl. lia.
  - destruct (pass_ok _ _ _ _ _ _ _ _ _ Hs Hsz ltac:(lia) Hne) as (nx & R' & Hnx & -> & Hs').
    apply wp_bind. eapply wp_get_ptr; [exact Hnx|]. apply wp_ret. exists (fresh, R').
    split; [exists L; split; [done|simpl in *; lia]|]. destruct fresh; simpl; lia.
Qed.

(** A heap before the first call of [malloc], or after some calls. *)
Definition heap_inv h live : Prop :=
  (freep h = 0 /\ live = ∅ /\ 0 < base < top h /\ top h <= 2 ^ 31) \/ exists L, heap_ok h L live.

Lemma first_call h : 0 < base < top h -> top h <= 2 ^ 31 ->
  heap_ok (mk_heap (<[base := base]> (h_ptr h)) (<[base := 0]> (h_size h)) base (world h)) [] ∅.
Proof using. intros Hb Ht. split; simpl; try done; try (by rewrite lookup_insert_eq). by left. Qed.

Lemma malloc_ok h live nbytes : heap_inv h live -> 0 <= nbytes <= 2 ^ 29 ->
  wp (malloc base nbytes) (answer live ((nbytes + HDR - 1) / HDR + 1)) h.
Proof using.
  intros Hi Hn. set (n := (nbytes + HDR - 1) / HDR + 1).
  assert (Hr : 0 < n <= 2 ^ 26) by (unfold n, HDR; dlia).
  unfold malloc. fold n. rewrite u32_small by lia. apply wp_bind, wp_gets.
  assert (Hgo : forall h L, heap_ok h L live ->
    wp (let! prevp := gets freep in let! p := get_ptr prevp in while (malloc_step n) (prevp, p)) (answer live n) h).
  { intros h' L Hk. apply wp_bind, wp_gets.
    destruct (scanning_start h' L live n false Hk) as (p & R & Hp & Hs & HR); [done|].
    apply wp_bind. eapply wp_get_ptr; [exact Hp|]. eapply malloc_loop_ok; [exact Hs|lia|].
    pose proof (list_short _ _ _ Hk). lia. }
  destruct Hi as [(-> & -> & Hb & Ht)|[L Hk]].
  - simpl. apply wp_bind. unfold when. apply wp_bind, wp_modify, wp_bind, wp_modify, wp_modify.
    eapply Hgo. exact (first_call h Hb Ht).
  - pose proof (ring_ge _ _ _ _ Hk (hk_freep _ _ _ Hk)). pose proof (hk_base _ _ _ Hk).
    rewrite (proj2 (Z.eqb_neq _ _)) by lia. apply wp_bind, wp_ret. by eapply Hgo.
Qed.
End heap.

(** ** Clients *)

(** What a program does with the allocator: [malloc] so many bytes, or [free]
    the [i]-th of the blocks it has. *)
Inductive uop := UMalloc (nbytes : Z) | UFree (i : nat).

Section client.
Context {W : Type} {HO : OS W} {HB : Brk W} (base : Z).

(** The blocks the program has: pointers, with the sizes asked for. *)
Definition client_step (op : uop) (ps : list (Z * Z)) : M (heap W) (list (Z * Z)) :=
  match op with
  | UMalloc n => let! p := malloc base n in if p =? 0 then ret ps else ret ((p, n) :: ps)
  | UFree i =>
      match ps !! i with
      | None => ret ps
      | Some b => do! free (fst b) in ret (delete i ps)
      end
  end.
Fixpoint client (ops : list uop) (ps : list (Z * Z)) : M (heap W) (list (Z * Z)) :=
  match ops with
  | [] => ret ps
  | op :: ops' => let! ps' := client_step op ps in client ops' ps'
  end.

Definition fits (ops : list uop) : Prop :=
  Forall (fun op => match op with UMalloc n => 0 <= n <= 2 ^ 29 | UFree _ => True end) ops.

(** The client's view and the allocator's. *)
Record client_ok (ps : list (Z * Z)) (live : gmap Z Z) (h : heap W) : Prop := {
  co_heap : heap_inv base h live;
  co_live : forall b, b ∈ ps -> exists u, live !! (fst b - HDR) = Some u /\ snd b <= HDR * (u - 1);
  co_dup : NoDup ps.*1
}.

Lemma client_step_ok op ps live h : client_ok ps live h -> fits [op] ->
  wp (client_step op ps) (fun ps' h' => exists live', client_ok ps' live' h') h.
Proof.
  intros [Hh Hl Hd] Hf. inversion Hf as [|?? Hop _]; subst. destruct op as [n|i]; simpl.
  - apply wp_bind. eapply wp_conseq; [by apply (malloc_ok base h live n Hh)|].
    intros p h' [(-> & L' & Hk)|(Hp & Hno & L' & Hk)].
    + apply wp_ret. exists live. split; [right; eauto|done|done].
    + rewrite (proj2 (Z.eqb_neq p 0)) by done. apply wp_ret.
      exists (<[p - HDR := (n + HDR - 1) / HDR + 1]> live). split; [right; eauto| |].
      * intros b Hb. apply elem_of_cons in Hb as [->|Hb].
        -- eexists. split; [apply lookup_insert_eq|]. simpl. unfold HDR. dlia.
        -- destruct (Hl b Hb) as (u & Hu & ?). exists u. split; [|done]. rewrite lookup_insert_ne; [done|].
           intros E. rewrite E in Hno. congruence.
      * simpl. constructor; [|done]. intros Hin. apply list_elem_of_fmap in Hin as (b & E & Hb).
        destruct (Hl b Hb) as (u & Hu & _). rewrite <- E in Hu. congruence.
  - destruct (ps !! i) as [b|] eqn:Ei; [|apply wp_ret; by exists live].
    destruct (Hl b (list_elem_of_lookup_2 _ _ _ Ei)) as (u & Hu & _).
    destruct Hh as [(_ & -> & _)|[L Hk]]; [rewrite lookup_empty in Hu; discriminate Hu|].
    replace (fst b) with (fst b - HDR + HDR) by (unfold HDR; lia). apply wp_bind.
    eapply wp_conseq; [by apply (free_ok base h L live _ u Hk)|]. intros _ h' (L' & Hk' & _). apply wp_ret.
    rewrite <- (take_drop_middle ps i b Ei) in Hl, Hd. rewrite delete_take_drop.
    rewrite fmap_app in Hd. apply list.NoDup_app in Hd as (Hd1 & Hd2 & Hd3). simpl in Hd3.
    apply list.NoDup_cons in Hd3 as [Hd3 Hd4]. exists (delete (fst b - HDR) live). split; [right; eauto| |].
    + intros b' Hb'. destruct (Hl b') as (u' & Hu' & ?); [set_solver +Hb'|]. exists u'. split; [|done].
      rewrite lookup_delete_ne; [done|]. intros E. assert (fst b = fst b') as Eb by (unfold HDR in *; lia).
      apply elem_of_app in Hb' as [Hb'|Hb']; apply (list_elem_of_fmap_2 fst) in Hb'.
      * apply (Hd2 _ Hb'). rewrite <- Eb. by left.
      * apply Hd3. by rewrite Eb.
    + rewrite fmap_app. apply list.NoDup_app. split_and!; [done| |done]. intros x Hx Hx2. apply (Hd2 x Hx). by right.
Qed.

Lemma client_run_ok ops ps live h : client_ok ps live h -> fits ops ->
  wp (client ops ps) (fun ps' h' => exists live', client_ok ps' live' h') h.
Proof.
  revert ps live h. induction ops as [|op ops IH]; intros ps live h Hc Hf; simpl.
  - apply wp_ret. eauto.
  - inversion Hf; subst. apply wp_bind. eapply wp_conseq; [apply (client_step_ok op ps live h Hc); by constructor|].
    intros ps' h' [live' Hc']. by eapply IH.
Qed.

Lemma client_disjoint ps live h i j b c : client_ok ps live h -> ps !! i = Some b -> ps !! j = Some c -> i <> j ->
  fst b + snd b <= fst c \/ fst c + snd c <= fst b.
Proof.
  intros [Hh Hl Hd] Hb Hc Hij.
  destruct (Hl b (list_elem_of_lookup_2 _ _ _ Hb)) as (u & Hu & ?).
  destruct (Hl c (list_elem_of_lookup_2 _ _ _ Hc)) as (v & Hv & ?).
  destruct Hh as [(_ & -> & _)|[L Hk]]; [rewrite lookup_empty in Hu; discriminate Hu|].
  assert (fst b <> fst c).
  { intros E. apply Hij. eapply (NoDup_lookup ps.*1); [done| |]; rewrite list_lookup_fmap; [by rewrite Hb|rewrite Hc; simpl; by rewrite E]. }
  pose proof (hk_disj _ _ _ _ Hk _ _ _ _ Hu Hv ltac:(unfold HDR; lia)) as Ha. unfold apart in Ha. simpl in Ha. unfold HDR in *. lia.
Qed.

Lemma client_inside ps live h b : client_ok ps live h -> b ∈ ps -> base < fst b /\ fst b + snd b <= brk (world h).
Proof.
  intros [Hh Hl Hd] Hb. destruct (Hl b Hb) as (u & Hu & ?).
  destruct Hh as [(_ & -> & _)|[L Hk]]; [rewrite lookup_empty in Hu; discriminate Hu|].
  destruct (hk_live _ _ _ _ Hk _ _ Hu) as (_ & ? & ? & ? & _). unfold HDR in *. lia.
Qed.
End client.

(** ** Theorem *)


(** A world whose only service is [sbrk]; its state is the break. *)
Module Arena.
Definition arena : Type := Z.
#[export] Instance arena_os : OS arena := {|
  os_fork := ret (-1);
  os_wait := ret (-1, 0);
  os_waitx := ret (-1, (0, 0, 0));
  os_pipe := ret (-1, (0, 0));
  os_write _ _ := ret (-1);
  os_read _ _ := ret (-1, []);
  os_close _ := ret (-1);
  os_kill _ := ret (-1);
  os_exec _ _ := ret false;
  os_open _ _ := ret (-1);
  os_mknod _ _ _ := ret (-1);
  os_unlink _ := ret (-1);
  os_fstat _ := ret (-1, mk_stat 0 0 0 0 0);
  os_link _ _ := ret (-1);
  os_mkdir _ := ret (-1);
  os_chdir _ := ret (-1);
  os_dup _ := ret (-1);
  os_sbrk n := fun b => if b + n <=? 2 ^ 31 then Ret b (b + n) else Ret (-1) b;
  os_sleep _ := ret 0;
  os_trace _ := ret tt;
  os_setpriority _ _ := ret (-1);
  os_getpid := ret 1;
  os_uptime := ret 0;
  os_sigalarm _ _ := ret (-1);
  os_sigreturn := ret 0
|}.
#[export] Program Instance arena_brk : Brk arena := {| brk b := b |}.
Next Obligation. intros n w Hn. unfold wp. simpl. destruct (Z.leb_spec (w + n) (2 ^ 31)); [right; lia|by left]. Qed.

Definition heap0 : heap arena := mk_heap ∅ ∅ 0 8192.
Definition script : list uop := [UMalloc 100; UMalloc 7; UFree 1; UMalloc 50; UMalloc 100000; UFree 0].


(** The count of bytes that [morecore] passes to [sbrk] is cut to an [int]:
    a request close to [2 ^ 32] bytes obtains 16 and is answered as if it had
    obtained them all. *)
Lemma malloc_huge_overflows :
  match malloc 4096 4294967295 heap0 with
  | Ret p h' => p <> 0 /\ brk (world h') = 8192 + 16 /\ p + 4294967295 > brk (world h')
  | _ => False
  end.
Proof. vm_compute. split_and!; done. Qed.
End Arena.
