(* ===== verification/Mkfs.v ===== *)
(** * The image builder ([mkfs/mkfs.c])

    The host program that writes the initial file system: zeroed sectors, the
    super block, an inode and a directory entry per file, the files' content,
    and the bitmap. The image is a map from sectors to their 1024 bytes; [die]
    and a failed [assert] are panics. The host is little-endian, as the
    disk format is. *)

From S2P Require Import Prelude Riscv Memory Kernel Cstring Proc Bio Log Fs.

(** ** Layout *)

Definition NINODES : Z := 200.
Definition nbitmap : Z := FSSIZE / (BSIZE * 8) + 1.
Definition ninodeblocks : Z := NINODES / IPB + 1.
Definition nlog : Z := LOGSIZE.
Definition nmeta : Z := 2 + nlog + ninodeblocks + nbitmap.
Definition nblocks : Z := FSSIZE - nmeta.

(** The byte order of the disk; the value of [y] on a little-endian host. *)
Definition xshort (x : Z) : Z := le_val [u8 x; u8 (Z.shiftr x 8)].
Definition xint (x : Z) : Z := le_val [u8 x; u8 (Z.shiftr x 8); u8 (Z.shiftr x 16); u8 (Z.shiftr x 24)].

Definition the_sb : superblock :=
  mk_superblock FSMAGIC (xint FSSIZE) (xint nblocks) (xint NINODES) (xint nlog) (xint 2) (xint (2 + nlog))
    (xint (2 + nlog + ninodeblocks)).
Definition sb_bytes (sb : superblock) : list Z :=
  le_bytes 4 (sb_magic sb) ++ le_bytes 4 (sb_size sb) ++ le_bytes 4 (sb_nblocks sb) ++ le_bytes 4 (sb_ninodes sb) ++
  le_bytes 4 (sb_nlog sb) ++ le_bytes 4 (sb_logstart sb) ++ le_bytes 4 (sb_inodestart sb) ++ le_bytes 4 (sb_bmapstart sb).

(** ** State *)

(** The image file and the globals [freeinode] and [freeblock]. *)
Record image := mk_image { sectors : gmap Z (list Z); freeinode : Z; freeblock : Z }.

Definition zeroes : list Z := replicate (Z.to_nat BSIZE) 0.

Definition wsect (sec : Z) (buf : list Z) : M image unit :=
  modify (fun s => mk_image (<[sec := buf]> (sectors s)) (freeinode s) (freeblock s)).
Definition rsect (sec : Z) : M image (list Z) :=
  fun s => match sectors s !! sec with Some buf => Ret buf s | None => Panic "read" s end.

(** ** Inodes: the 64 bytes of [struct dinode] *)

Definition din_size (din : list Z) : Z := xint (data_get 4 din 8).
Definition set_din_size (n : Z) (din : list Z) : list Z := data_set 4 (xint n) 8 din.
Definition din_addr (din : list Z) (i : Z) : Z := data_get 4 din (12 + 4 * i).
Definition set_din_addr (i v : Z) (din : list Z) : list Z := data_set 4 v (12 + 4 * i) din.

Definition winode (inum : Z) (ip : list Z) : M image unit :=
  let bn := IBLOCK inum the_sb in
  let! buf := rsect bn in
  wsect bn (data_put ip (DINODE_SIZE * (inum mod IPB)) buf).

Definition rinode (inum : Z) : M image (list Z) :=
  let bn := IBLOCK inum the_sb in
  let! buf := rsect bn in
  ret (take 64 (drop (Z.to_nat (DINODE_SIZE * (inum mod IPB))) buf)).

Definition ialloc (type : Z) : M image Z :=
  let! inum := gets freeinode in
  do! modify (fun s => mk_image (sectors s) (u32 (inum + 1)) (freeblock s)) in
  let din := replicate 64 0 in
  let din := data_set 2 (xshort type) 0 din in
  let din := data_set 2 (xshort 1) 6 din in
  let din := set_din_size 0 din in
  do! winode inum din in
  ret inum.

(** [freeblock++] *)
Definition next_block : M image Z :=
  let! b := gets freeblock in
  do! modify (fun s => mk_image (sectors s) (freeinode s) (u32 (b + 1))) in
  ret b.

(** The block of the file block [fbn], allocated if there is none yet, and the
    inode afterwards. *)
Definition append_block (fbn : Z) (din : list Z) : M image (Z * list Z) :=
  if fbn <? NDIRECT then
    let! din :=
      (if xint (din_addr din fbn) =? 0 then let! b := next_block in ret (set_din_addr fbn (xint b) din)
       else ret din) in
    ret (xint (din_addr din fbn), din)
  else
    let! din :=
      (if xint (din_addr din NDIRECT) =? 0 then let! b := next_block in ret (set_din_addr NDIRECT (xint b) din)
       else ret din) in
    let! indirect := rsect (xint (din_addr din NDIRECT)) in
    let i := 4 * (fbn - NDIRECT) in
    let! indirect :=
      (if data_get 4 indirect i =? 0 then
         let! b := next_block in
         let indirect := data_set 4 (xint b) i indirect in
         do! wsect (xint (din_addr din NDIRECT)) indirect in
         ret indirect
       else ret indirect) in
    ret (xint (data_get 4 indirect i), din).

(** One round of [iappend]'s loop: what is left to write, the offset and the
    inode. *)
Definition append_step (st : list Z * Z * list Z) : M image (list Z * Z * list Z + Z * list Z) :=
  let p := fst (fst st) in
  let off := snd (fst st) in
  let din := snd st in
  let n := Z.of_nat (length p) in
  if 0 <? n then
    let fbn := off / BSIZE in
    if negb (fbn <? MAXFILE) then panic "fbn < MAXFILE" else
    let! r := append_block fbn din in
    let x := fst r in
    let din := snd r in
    let n1 := Z.min n ((fbn + 1) * BSIZE - off) in
    let! buf := rsect x in
    do! wsect x (data_put (take (Z.to_nat n1) p) (off - fbn * BSIZE) buf) in
    ret (inl (drop (Z.to_nat n1) p, u32 (off + n1), din))
  else ret (inr (off, din)).

Definition iappend (inum : Z) (p : list Z) : M image unit :=
  let! din := rinode inum in
  let! r := while append_step (p, din_size din, din) in
  winode inum (set_din_size (fst r) (snd r)).

(** ** The bitmap *)

(** [buf[i/8] = buf[i/8] | (0x1 << (i%8))] for [i] below [used]. *)
Definition set_bit (buf : list Z) (i : Z) : list Z :=
  <[Z.to_nat (i / 8) := u8 (Z.lor (data_byte buf (i / 8)) (Z.shiftl 1 (i mod 8)))]> buf.
Definition bitmap (used : Z) : list Z := foldl set_bit zeroes (seqZ 0 used).

Definition balloc (used : Z) : M image unit :=
  if negb (used <? BSIZE * 8) then panic "used < BSIZE*8" else
  wsect (sb_bmapstart the_sb) (bitmap used).

(** ** main *)

(** [struct dirent] with [strncpy]'s padding. *)
Definition dirent (inum : Z) (name : list Z) : list Z :=
  le_bytes 2 (xshort inum) ++ take DIRSIZ name ++ replicate (DIRSIZ - length (take DIRSIZ name)) 0.

(** The name in the image of the file [arg]. *)
Definition shortname (arg : list Z) : list Z :=
  let s := if bool_decide (take 5 arg = bytes_of "user/") then drop 5 arg else arg in
  match s with c :: s' => if c =? 95 then s' else s | [] => [] end.

(** One file of the command line: what the calls of [read] return one after
    the other, or [None] when it cannot be opened. *)
Definition add_file (rootino : Z) (arg : list Z) (content : option (list (list Z))) : M image unit :=
  let s := if bool_decide (take 5 arg = bytes_of "user/") then drop 5 arg else arg in
  if bool_decide (slash ∈ s) then panic "index(shortname, '/') == 0" else
  match content with
  | None => panic "open"
  | Some reads =>
      let! inum := ialloc T_FILE in
      do! iappend rootino (dirent inum (shortname arg)) in
      for_all reads (iappend inum)
  end.

Definition mkfs (files : list (list Z * option (list (list Z)))) : M image unit :=
  do! modify (fun s => mk_image (sectors s) 1 nmeta) in
  do! for_all (seqZ 0 FSSIZE) (fun i => wsect i zeroes) in
  do! wsect 1 (data_put (sb_bytes the_sb) 0 zeroes) in
  let! rootino := ialloc T_DIR in
  if negb (rootino =? ROOTINO) then panic "rootino == ROOTINO" else
  do! iappend rootino (dirent rootino (bytes_of ".")) in
  do! iappend rootino (dirent rootino (bytes_of "..")) in
  do! for_all files (fun f => add_file rootino (fst f) (snd f)) in
  let! din := rinode rootino in
  let off := (din_size din / BSIZE + 1) * BSIZE in
  do! winode rootino (set_din_size off din) in
  let! used := gets freeblock in
  balloc used.
