(* ===== verification/MkfsSpec.v ===== *)
(** * The image holds the files

    What [mkfs] leaves on the disk, read back the way the format defines it: a
    super block the kernel reads, an inode and a directory entry per file, the
    content of every file through its direct and indirect blocks, no block in
    two files, and a bitmap of exactly the blocks in use. *)

From S2P Require Import Prelude Riscv Memory Kernel Cstring Proc Bio Log LogSpec Fs Mkfs.

(** ** Reading an image *)

Definition sector (sec : gmap Z (list Z)) (b : Z) : list Z := default [] (sec !! b).
Definition inode_at (sec : gmap Z (list Z)) (inum : Z) : list Z :=
  take 64 (drop (Z.to_nat (DINODE_SIZE * (inum mod IPB))) (sector sec (IBLOCK inum the_sb))).
Definition din_type (din : list Z) : Z := data_get 2 din 0.
Definition din_nlink (din : list Z) : Z := data_get 2 din 6.
(** The block of a file's [j]-th 1024 bytes. *)
Definition file_block (sec : gmap Z (list Z)) (din : list Z) (j : nat) : Z :=
  if (j <? 12)%nat then din_addr din (Z.of_nat j)
  else data_get 4 (sector sec (din_addr din NDIRECT)) (4 * (Z.of_nat j - NDIRECT)).
Definition blocks_for (n : nat) : nat := ((n + 1023) / 1024)%nat.
Definition file_bytes (sec : gmap Z (list Z)) (din : list Z) : list Z :=
  let n := Z.to_nat (din_size din) in
  take n (concat ((fun j => sector sec (file_block sec din j)) <$> seq 0 (blocks_for n))).
(** The blocks an inode keeps. *)
Definition file_owns (sec : gmap Z (list Z)) (din : list Z) (n : nat) : list Z :=
  (file_block sec din <$> seq 0 (blocks_for n)) ++ (if (12 <? blocks_for n)%nat then [din_addr din NDIRECT] else []).

(** ** Integers and blocks *)

Lemma xint_u32 x : xint x = u32 x.
Proof.
  unfold xint. transitivity (le_val (le_bytes 4 x)); [|by rewrite le_val_bytes].
  cbn [le_bytes]. rewrite !Z.shiftr_div_pow2 by lia. rewrite !Zdiv_Zdiv by lia. done.
Qed.
Lemma xint_small x : 0 <= x < 2 ^ 32 -> xint x = x.
Proof. intros. rewrite xint_u32. by apply u32_small. Qed.
Lemma xshort_small x : 0 <= x < 2 ^ 16 -> xshort x = x.
Proof.
  intros. unfold xshort. transitivity (le_val (le_bytes 2 x)).
  - cbn [le_bytes]. by rewrite Z.shiftr_div_pow2 by lia.
  - rewrite le_val_bytes. apply Z.mod_small. done.
Qed.

Definition chunk (c : list Z) (j : nat) : list Z :=
  let t := take 1024 (drop (1024 * j) c) in t ++ replicate (1024 - length t) 0.

Lemma chunk_lookup c j i :
  chunk c j !! i = if decide (i < 1024)%nat then Some (default 0 (c !! (1024 * j + i)%nat)) else None.
Proof.
  unfold chunk. set (t := take 1024 _). assert (Ht : length t = Nat.min 1024 (length c - 1024 * j))
    by (unfold t; rewrite length_take, length_drop; lia).
  case_decide as Hi.
  - destruct (decide (i < length t)%nat) as [Hl|Hl].
    + rewrite lookup_app_l by done. unfold t. rewrite lookup_take_lt, lookup_drop by done.
      destruct (lookup_lt_is_Some_2 c (1024 * j + i)) as [x ->]; [lia|done].
    + rewrite lookup_app_r, lookup_replicate_2 by lia. by rewrite lookup_ge_None_2 by lia.
  - apply lookup_ge_None_2. rewrite length_app, length_replicate. lia.
Qed.
Lemma length_chunk c j : length (chunk c j) = 1024%nat.
Proof. unfold chunk. rewrite length_app, length_replicate, length_take. lia. Qed.

Lemma chunk_app_before c q j : (1024 * S j <= length c)%nat -> chunk (c ++ q) j = chunk c j.
Proof.
  intros H. apply list_eq. intros i. rewrite !chunk_lookup. case_decide; [|done].
  by rewrite lookup_app_l by lia.
Qed.
Lemma chunk_after c j : (length c <= 1024 * j)%nat -> chunk c j = zeroes.
Proof.
  intros H. apply list_eq. intros i. rewrite chunk_lookup. unfold zeroes. change (Z.to_nat BSIZE) with 1024%nat.
  case_decide; [rewrite lookup_replicate_2 by done; by rewrite lookup_ge_None_2 by lia|].
  symmetry. apply lookup_ge_None_2. rewrite length_replicate. lia.
Qed.
Lemma chunk_put c q j :
  (1024 * j <= length c)%nat -> (length c + length q <= 1024 * S j)%nat ->
  data_put q (Z.of_nat (length c - 1024 * j)) (chunk c j) = chunk (c ++ q) j.
Proof.
  intros H0 H1. apply list_eq. intros i.
  rewrite data_put_lookup, !chunk_lookup, Nat2Z.id by (rewrite ?length_chunk; lia). case_decide as Hi.
  - rewrite decide_True by lia. rewrite lookup_app_r by lia.
    replace (1024 * j + i - length c)%nat with (i - (length c - 1024 * j))%nat by lia.
    destruct (lookup_lt_is_Some_2 q (i - (length c - 1024 * j))) as [x ->]; [lia|done].
  - case_decide; [|done]. destruct (decide (1024 * j + i < length c)%nat).
    + by rewrite lookup_app_l by lia.
    + rewrite (lookup_ge_None_2 c), (lookup_ge_None_2 (c ++ q)) by (rewrite ?length_app; lia). done.
Qed.

(** A file is its chunks. *)
Lemma concat_chunks c n : (length c <= 1024 * n)%nat ->
  concat (chunk c <$> seq 0 n) = c ++ replicate (1024 * n - length c) 0.
Proof.
  intros H. apply list_eq. intros i.
  assert (Hc : forall m k, concat (chunk c <$> seq k m) !! i =
    if decide (i < 1024 * m)%nat then Some (default 0 (c !! (1024 * k + i)%nat)) else None).
  { clear H. revert i. intros i m. revert i. induction m as [|m IH]; intros i k; [by rewrite decide_False by lia|].
    cbn [seq fmap list_fmap concat]. destruct (decide (i < 1024)%nat) as [Hi|Hi].
    - rewrite lookup_app_l by (rewrite length_chunk; done). rewrite chunk_lookup.
      by rewrite !decide_True by lia.
    - rewrite lookup_app_r by (rewrite length_chunk; lia). rewrite length_chunk.
      change (list_fmap _ _ (chunk c) (seq (S k) m)) with (chunk c <$> seq (S k) m). rewrite IH.
      case_decide; case_decide; try lia; [|done].
      by replace (1024 * S k + (i - 1024))%nat with (1024 * k + i)%nat by lia. }
  rewrite Hc. case_decide as Hi.
  - destruct (decide (i < length c)%nat).
    + rewrite lookup_app_l by done. destruct (lookup_lt_is_Some_2 c i) as [x Hx]; [done|]. simpl. by rewrite Hx.
    + rewrite lookup_app_r, lookup_replicate_2 by lia. by rewrite lookup_ge_None_2 by lia.
  - symmetry. apply lookup_ge_None_2. rewrite length_app, length_replicate. lia.
Qed.

Lemma blocks_for_spec n : (1024 * blocks_for n - 1023 <= n <= 1024 * blocks_for n)%nat.
Proof.
  unfold blocks_for. pose proof (Nat.div_mod (n + 1023) 1024 ltac:(done)).
  pose proof (Nat.mod_upper_bound (n + 1023) 1024 ltac:(done)). lia.
Qed.
Lemma blocks_for_unique n k : (1024 * k - 1023 <= n <= 1024 * k)%nat -> (k = 0 -> n = 0)%nat -> blocks_for n = k.
Proof. intros H H0. pose proof (blocks_for_spec n). lia. Qed.

(** ** Inodes in their blocks *)

Definition put_inode (sec : gmap Z (list Z)) (inum : Z) (din : list Z) : gmap Z (list Z) :=
  let bn := IBLOCK inum the_sb in
  <[bn := data_put din (DINODE_SIZE * (inum mod IPB)) (sector sec bn)]> sec.

(** The blocks [32 .. 44] of the inodes are whole. *)
Definition inode_blocks_ok (sec : gmap Z (list Z)) : Prop :=
  forall inum, 0 <= inum < NINODES -> exists buf, sec !! IBLOCK inum the_sb = Some buf /\ length buf = 1024%nat.

Lemma IBLOCK_range inum : 0 <= inum < NINODES -> IBLOCK inum the_sb = inum / 16 + 32 /\ 32 <= inum / 16 + 32 < 45.
Proof.
  intros H. unfold NINODES in H. pose proof (Z.div_mod inum 16 ltac:(done)). pose proof (Z.mod_pos_bound inum 16 ltac:(done)).
  assert (0 <= inum / 16 < 13) by lia. split; [|lia]. unfold IBLOCK. change (sb_inodestart the_sb) with 32.
  change IPB with 16. rewrite u32_small; lia.
Qed.

Section inodes.
Context (sec : gmap Z (list Z)) (Hsec : inode_blocks_ok sec).

Lemma inode_off inum : 0 <= DINODE_SIZE * (inum mod IPB) <= 960.
Proof using. change IPB with 16. unfold DINODE_SIZE. pose proof (Z.mod_pos_bound inum 16 ltac:(done)). lia. Qed.

Lemma inode_at_put_eq inum din : 0 <= inum < NINODES -> length din = 64%nat -> inode_at (put_inode sec inum din) inum = din.
Proof using Hsec.
  intros Hi Hd. destruct (Hsec inum Hi) as (buf & Hb & Hl). pose proof (inode_off inum).
  unfold inode_at, put_inode, sector. rewrite lookup_insert_eq, Hb. simpl. apply list_eq. intros i.
  destruct (decide (i < 64)%nat).
  - rewrite lookup_take_lt, lookup_drop, data_put_lookup by lia. rewrite decide_True by lia. f_equal. lia.
  - rewrite lookup_take_ge by lia. symmetry. apply lookup_ge_None_2. lia.
Qed.

Lemma inode_at_put_ne inum din k : 0 <= inum < NINODES -> 0 <= k < NINODES -> k <> inum -> length din = 64%nat ->
  inode_at (put_inode sec inum din) k = inode_at sec k.
Proof using Hsec.
  intros Hi Hk Hne Hd. destruct (Hsec inum Hi) as (buf & Hb & Hl). pose proof (inode_off inum). pose proof (inode_off k).
  destruct (IBLOCK_range inum Hi) as [Ei _]. destruct (IBLOCK_range k Hk) as [Ek _].
  unfold inode_at, put_inode, sector. destruct (decide (IBLOCK inum the_sb = IBLOCK k the_sb)) as [E|E].
  - rewrite <- E, lookup_insert_eq, Hb. simpl. apply list_eq. intros i.
    destruct (decide (i < 64)%nat); [|by rewrite !lookup_take_ge by lia].
    rewrite !lookup_take_lt, !lookup_drop, data_put_lookup by lia. rewrite decide_False; [done|].
    rewrite Ei, Ek in E. unfold DINODE_SIZE in *. change IPB with 16 in *.
    pose proof (Z.div_mod inum 16 ltac:(done)). pose proof (Z.div_mod k 16 ltac:(done)). lia.
  - by rewrite lookup_insert_ne by done.
Qed.

Lemma inode_blocks_put inum din : 0 <= inum < NINODES -> length din = 64%nat -> inode_blocks_ok (put_inode sec inum din).
Proof using Hsec.
  intros Hi Hd k Hk. unfold put_inode. destruct (decide (IBLOCK inum the_sb = IBLOCK k the_sb)) as [E|E].
  - rewrite <- E, lookup_insert_eq. eexists. split; [done|]. destruct (Hsec inum Hi) as (buf & Hb & Hl).
    unfold sector. rewrite Hb. simpl. pose proof (inode_off inum). rewrite length_data_put; lia.
  - rewrite lookup_insert_ne by done. by apply Hsec.
Qed.

Lemma length_inode_at inum : 0 <= inum < NINODES -> length (inode_at sec inum) = 64%nat.
Proof using Hsec.
  intros Hi. destruct (Hsec inum Hi) as (buf & Hb & Hl). pose proof (inode_off inum).
  unfold inode_at, sector. rewrite Hb. simpl. rewrite length_take, length_drop. lia.
Qed.
End inodes.

Lemma wp_rsect b buf s Q : sectors s !! b = Some buf -> Q buf s -> wp (rsect b) Q s.
Proof. intros H HQ. unfold wp, rsect. by rewrite H. Qed.

Lemma wp_winode inum din s Q : inode_blocks_ok (sectors s) -> 0 <= inum < NINODES ->
  Q tt (mk_image (put_inode (sectors s) inum din) (freeinode s) (freeblock s)) -> wp (winode inum din) Q s.
Proof.
  intros Hs Hi HQ. destruct (Hs inum Hi) as (buf & Hb & Hl). unfold winode. apply wp_bind.
  apply (wp_rsect _ buf); [done|]. apply wp_modify. unfold put_inode, sector in HQ. by rewrite Hb in HQ.
Qed.
Lemma wp_rinode inum s Q : inode_blocks_ok (sectors s) -> 0 <= inum < NINODES ->
  Q (inode_at (sectors s) inum) s -> wp (rinode inum) Q s.
Proof.
  intros Hs Hi HQ. destruct (Hs inum Hi) as (buf & Hb & Hl). unfold rinode. apply wp_bind.
  apply (wp_rsect _ buf); [done|]. apply wp_ret. unfold inode_at, sector in HQ. by rewrite Hb in HQ.
Qed.

(** ** A file and its blocks

    [bs] are the data blocks of a file in order and [ib] its indirect block. *)

Definition indirect_ok (sec : gmap Z (list Z)) (bs : list Z) (ib : Z) : Prop :=
  if (length bs <=? 12)%nat then ib = 0
  else exists it, sec !! ib = Some it /\ length it = 1024%nat /\
    forall i, (i < 256)%nat -> data_get 4 it (4 * Z.of_nat i) = default 0 (bs !! (12 + i)%nat).

Record addressed (sec : gmap Z (list Z)) (din bs : list Z) (ib : Z) : Prop := {
  ad_len : length din = 64%nat;
  ad_max : (length bs <= 268)%nat;
  ad_direct : forall i, (i < 12)%nat -> din_addr din (Z.of_nat i) = default 0 (bs !! i);
  ad_ib : din_addr din NDIRECT = ib;
  ad_indirect : indirect_ok sec bs ib
}.
Definition owned (bs : list Z) (ib : Z) : list Z := bs ++ (if (length bs <=? 12)%nat then [] else [ib]).
Definition stored (sec : gmap Z (list Z)) (c bs : list Z) : Prop :=
  forall j b, bs !! j = Some b -> sec !! b = Some (chunk c j).
(** The blocks taken by a file of [k] data blocks. *)
Definition cost (k : nat) : Z := Z.of_nat k + (if (k <=? 12)%nat then 0 else 1).

Lemma cost_mono k k' : (k <= k')%nat -> cost k <= cost k'.
Proof. intros H. unfold cost. destruct (Nat.leb_spec k 12), (Nat.leb_spec k' 12); lia. Qed.
Lemma length_owned bs ib : Z.of_nat (length (owned bs ib)) = cost (length bs).
Proof. unfold owned, cost. rewrite length_app. destruct (length bs <=? 12)%nat; simpl; lia. Qed.

(** Neither depends on other blocks. *)
Lemma addressed_frame sec sec' din bs ib :
  (forall b, b ∈ owned bs ib -> sec' !! b = sec !! b) -> addressed sec din bs ib -> addressed sec' din bs ib.
Proof.
  intros Hf [H1 H2 H3 H4 H5]. split; try done. unfold indirect_ok, owned in *.
  destruct (length bs <=? 12)%nat; [done|]. destruct H5 as (it & Hit & ?). exists it. split; [|done].
  rewrite Hf; [done|]. apply elem_of_app. right. by apply list_elem_of_singleton.
Qed.
Lemma stored_frame sec sec' c bs ib :
  (forall b, b ∈ owned bs ib -> sec' !! b = sec !! b) -> stored sec c bs -> stored sec' c bs.
Proof.
  intros Hf H j b Hb. rewrite Hf; [by apply H|]. apply elem_of_app. left. by eapply list_elem_of_lookup_2.
Qed.

(** Reading a file back. *)
Lemma addressed_block sec din bs ib j b : addressed sec din bs ib -> bs !! j = Some b -> file_block sec din j = b.
Proof.
  intros [Hl Hm Hd Hi Hind] Hb. pose proof (lookup_lt_Some _ _ _ Hb). unfold file_block.
  destruct (Nat.ltb_spec j 12).
  - rewrite Hd by done. by rewrite Hb.
  - rewrite Hi. unfold indirect_ok in Hind. destruct (Nat.leb_spec (length bs) 12); [lia|].
    destruct Hind as (it & Hit & _ & Hent). unfold sector. rewrite Hit. simpl.
    replace (Z.of_nat j - NDIRECT) with (Z.of_nat (j - 12)) by (unfold NDIRECT; lia).
    rewrite Hent by lia. replace (12 + (j - 12))%nat with j by lia. by rewrite Hb.
Qed.

Lemma addressed_owns sec din bs ib n :
  addressed sec din bs ib -> length bs = blocks_for n -> file_owns sec din n = owned bs ib.
Proof.
  intros Ha Hl. unfold file_owns, owned. rewrite <- Hl. f_equal.
  - apply list_eq. intros j. rewrite list_lookup_fmap. destruct (bs !! j) as [b|] eqn:E.
    + pose proof (lookup_lt_Some _ _ _ E). rewrite lookup_seq_lt by lia. simpl. f_equal. by eapply addressed_block.
    + apply lookup_ge_None_1 in E. by rewrite lookup_seq_ge by lia.
  - destruct Ha as [_ _ _ <- _]. destruct (Nat.leb_spec (length bs) 12), (Nat.ltb_spec 12 (length bs)); lia || done.
Qed.

Lemma addressed_sectors sec din c bs ib n : addressed sec din bs ib -> stored sec c bs -> n = length bs ->
  (fun j => sector sec (file_block sec din j)) <$> seq 0 n = chunk c <$> seq 0 n.
Proof.
  intros Ha Hs ->. apply list_eq. intros j. rewrite !list_lookup_fmap. destruct (bs !! j) as [b|] eqn:E.
  - pose proof (lookup_lt_Some _ _ _ E). rewrite lookup_seq_lt by lia. simpl. f_equal.
    rewrite (addressed_block _ _ _ _ _ _ Ha E). unfold sector. by rewrite (Hs _ _ E).
  - apply lookup_ge_None_1 in E. by rewrite lookup_seq_ge by lia.
Qed.
Lemma file_bytes_stored sec din c bs ib : addressed sec din bs ib -> stored sec c bs ->
  length bs = blocks_for (length c) -> din_size din = Z.of_nat (length c) -> file_bytes sec din = c.
Proof.
  intros Ha Hs Hl Hz. unfold file_bytes. rewrite Hz, Nat2Z.id. rewrite (addressed_sectors sec din c bs ib) by done.
  rewrite concat_chunks by (pose proof (blocks_for_spec (length c)); lia). by rewrite take_app_length.
Qed.

(** Setting one address of an inode. *)
Lemma din_addr_set din i k v : length din = 64%nat -> 0 <= i < 13 -> 0 <= k < 13 -> 0 <= v < 2 ^ 32 ->
  din_addr (set_din_addr i v din) k = if decide (k = i) then v else din_addr din k.
Proof.
  intros Hl Hi Hk Hv. unfold din_addr, set_din_addr. case_decide as E.
  - subst k. rewrite data_get_set_eq by lia. by apply Z.mod_small.
  - apply data_get_set_ne; lia.
Qed.
Lemma set_addr_fields din i v : length din = 64%nat -> 0 <= i < 13 ->
  length (set_din_addr i v din) = 64%nat /\ din_type (set_din_addr i v din) = din_type din /\
  din_nlink (set_din_addr i v din) = din_nlink din.
Proof.
  intros Hl Hi. unfold set_din_addr, din_type, din_nlink.
  split_and!; [rewrite length_data_set; lia|apply data_get_set_ne; lia..].
Qed.

Lemma addressed_snoc_direct sec din bs ib v : addressed sec din bs ib -> (length bs < 12)%nat -> 0 <= v < 2 ^ 32 ->
  addressed sec (set_din_addr (Z.of_nat (length bs)) v din) (bs ++ [v]) ib.
Proof.
  intros [Hl Hm Hd Hi Hind] Hb Hv. destruct (set_addr_fields din (Z.of_nat (length bs)) v) as (Hl' & _); [done|lia|].
  split; [done|rewrite length_app; simpl; lia| | |].
  - intros i Hi'. rewrite din_addr_set by lia. case_decide as E.
    + apply Nat2Z.inj in E as ->. rewrite list_lookup_middle by done. done.
    + rewrite Hd by done. destruct (decide (i < length bs)%nat); [by rewrite lookup_app_l by lia|].
      rewrite (lookup_ge_None_2 bs), (lookup_ge_None_2 (bs ++ [v])) by (rewrite ?length_app; simpl; lia). done.
  - unfold NDIRECT in *. rewrite din_addr_set by lia. rewrite decide_False by lia. done.
  - unfold indirect_ok in *. rewrite length_app. simpl.
    destruct (Nat.leb_spec (length bs) 12), (Nat.leb_spec (length bs + 1) 12); done || lia.
Qed.

Lemma entry_set it i v : length it = 1024%nat -> (i < 256)%nat -> 0 <= v < 2 ^ 32 ->
  length (data_set 4 v (4 * Z.of_nat i) it) = 1024%nat /\
  forall k, (k < 256)%nat ->
    data_get 4 (data_set 4 v (4 * Z.of_nat i) it) (4 * Z.of_nat k) = if decide (k = i) then v else data_get 4 it (4 * Z.of_nat k).
Proof.
  intros Hl Hi Hv. split; [rewrite length_data_set; lia|]. intros k Hk. case_decide as E.
  - subst k. rewrite data_get_set_eq by lia. by apply Z.mod_small.
  - apply data_get_set_ne; lia.
Qed.
Lemma zero_entry i : (i < 256)%nat -> data_get 4 zeroes (4 * Z.of_nat i) = 0.
Proof.
  intros Hi. unfold data_get, zeroes. change (Z.to_nat BSIZE) with 1024%nat. rewrite drop_replicate, take_replicate.
  replace (Nat.min _ _) with 4%nat by lia. done.
Qed.

(** An inode whose indirect block [ib] holds [it], before [it] has all the
    entries: the case of a file that gets its indirect block. *)
Record with_indirect (sec : gmap Z (list Z)) (din bs it : list Z) (ib : Z) : Prop := {
  wi_len : length din = 64%nat;
  wi_range : (12 <= length bs <= 268)%nat;
  wi_direct : forall i, (i < 12)%nat -> din_addr din (Z.of_nat i) = default 0 (bs !! i);
  wi_ib : din_addr din NDIRECT = ib;
  wi_it : sec !! ib = Some it;
  wi_it_len : length it = 1024%nat;
  wi_entries : forall i, (i < 256)%nat -> data_get 4 it (4 * Z.of_nat i) = default 0 (bs !! (12 + i)%nat)
}.

Lemma with_indirect_addressed sec din bs it ib :
  with_indirect sec din bs it ib -> (12 < length bs)%nat -> addressed sec din bs ib.
Proof.
  intros [] Hl. split; [done|lia|done|done|]. unfold indirect_ok. destruct (Nat.leb_spec (length bs) 12); [lia|eauto].
Qed.
Lemma with_indirect_snoc sec din bs it ib v :
  with_indirect sec din bs it ib -> (length bs < 268)%nat -> 0 <= v < 2 ^ 32 ->
  let it' := data_set 4 v (4 * Z.of_nat (length bs - 12)) it in
  with_indirect (<[ib := it']> sec) din (bs ++ [v]) it' ib.
Proof.
  intros [Hl Hr Hd Hi Hit Hitl He] Hb Hv it'.
  destruct (entry_set it (length bs - 12) v) as [Hl' Hg]; [done|lia|done|].
  split; [done|rewrite length_app; simpl; lia| |done|by rewrite lookup_insert_eq|done|].
  - intros i Hi'. rewrite Hd by done. by rewrite lookup_app_l by lia.
  - intros k Hk. unfold it'. rewrite Hg by done. case_decide as E.
    + subst k. replace (12 + (length bs - 12))%nat with (length bs) by lia. by rewrite list_lookup_middle.
    + rewrite He by done. destruct (decide (12 + k < length bs)%nat); [by rewrite lookup_app_l by lia|].
      rewrite (lookup_ge_None_2 bs), (lookup_ge_None_2 (bs ++ [v])) by (rewrite ?length_app; simpl; lia). done.
Qed.

(** ** Growing one file

    [own0] are the blocks of the file before, [fb0] the first free one. *)
Section grow.
Context (sec0 : gmap Z (list Z)) (fi0 fb0 ty nl : Z) (own0 : list Z).

(** What a growing file leaves alone, and the blocks it may use. *)
Record frame (s : image) (own : list Z) : Prop := {
  fr_own : Forall (fun b => b ∈ own0 \/ fb0 <= b < freeblock s) own;
  fr_pos : Forall (fun b => nmeta <= b < freeblock s) own;
  fr_nodup : NoDup own;
  fr_fresh : forall b, freeblock s <= b < FSSIZE -> sectors s !! b = Some zeroes;
  fr_rest : forall b, b ∉ own0 -> b < fb0 -> sectors s !! b = sec0 !! b;
  fr_free : nmeta <= fb0 <= freeblock s;
  fr_bound : freeblock s <= FSSIZE;
  fr_inodes : freeinode s = fi0
}.
Record grown (s : image) (din c bs : list Z) (ib : Z) : Prop := {
  gr_addr : addressed (sectors s) din bs ib;
  gr_stored : stored (sectors s) c bs;
  gr_frame : frame s (owned bs ib);
  gr_type : din_type din = ty;
  gr_nlink : din_nlink din = nl
}.

Definition take_block (s : image) : image := mk_image (sectors s) (freeinode s) (u32 (freeblock s + 1)).

Lemma frame_take s own own' : frame s own -> freeblock s < FSSIZE -> own' ≡ₚ freeblock s :: own -> frame (take_block s) own'.
Proof using.
  intros [H1 H2 H3 H4 H5 H6 H7 H8] Hb Hp.
  assert (E : freeblock (take_block s) = freeblock s + 1) by (simpl; unfold FSSIZE in *; change nmeta with 46 in H6; apply u32_small; lia).
  split; rewrite ?E; try done; try lia.
  - rewrite Hp. constructor; [right; lia|]. eapply Forall_impl; [|exact H1]. intros b [?|?]; [by left|right; lia].
  - rewrite Hp. constructor; [lia|]. eapply Forall_impl; [|exact H2]. intros b ?. simpl in *. lia.
  - rewrite Hp. constructor; [|done]. intros Hin. rewrite list.Forall_forall in H2. specialize (H2 _ Hin). simpl in H2. lia.
  - intros b Hbb. apply H4. lia.
Qed.

(** Writing a block of the file. *)
Lemma frame_write s own b d : frame s own -> b ∈ own ->
  frame (mk_image (<[b := d]> (sectors s)) (freeinode s) (freeblock s)) own.
Proof using.
  intros [H1 H2 H3 H4 H5 H6 H7 H8] Hb. rewrite list.Forall_forall in H1, H2. specialize (H2 _ Hb) as Hb2. specialize (H1 _ Hb) as Hb1.
  simpl in Hb1, Hb2. split; simpl; try done.
  - by apply list.Forall_forall.
  - by apply list.Forall_forall.
  - intros b' Hb'. rewrite lookup_insert_ne by lia. by apply H4.
  - intros b' Hn Hlt. rewrite lookup_insert_ne; [by apply H5|]. intros <-. destruct Hb1; [done|lia].
Qed.

Lemma wp_next_block s Q : Q (freeblock s) (take_block s) -> wp next_block Q s.
Proof using. intros HQ. unfold next_block. wp_steps. exact HQ. Qed.

Lemma grown_pos s din c bs ib b : grown s din c bs ib -> b ∈ owned bs ib -> 46 <= b < 2000.
Proof using.
  intros Hg Hb. pose proof (gr_frame _ _ _ _ _ Hg) as Hf. pose proof (fr_pos _ _ Hf) as Hp. rewrite list.Forall_forall in Hp.
  specialize (Hp _ Hb). cbv beta in Hp. pose proof (fr_bound _ _ Hf). unfold FSSIZE in *. change nmeta with 46 in Hp. lia.
Qed.
Lemma frame_free s own : frame s own -> 46 <= freeblock s <= 2000.
Proof using. intros []. unfold FSSIZE in *. change nmeta with 46 in *. lia. Qed.

Lemma stored_snoc sec c bs v : stored sec c bs -> (length c <= 1024 * length bs)%nat -> sec !! v = Some zeroes ->
  stored sec c (bs ++ [v]).
Proof using.
  intros Hs Hc Hv j b Hj. apply lookup_snoc_Some in Hj as [[_ Hj]|[-> <-]]; [by apply Hs|].
  by rewrite chunk_after by lia.
Qed.

Definition appended (s : image) (c : list Z) (j k : nat) (r : Z * list Z) (s' : image) : Prop :=
  exists bs' ib', grown s' (snd r) c bs' ib' /\ bs' !! j = Some (fst r) /\ length bs' = S j /\
    freeblock s' = freeblock s + cost (S j) - cost k.

(** The file block [j] is the last one, or the next. *)
Lemma append_direct s din c bs ib j :
  grown s din c bs ib -> (j < 12)%nat -> (length bs = j \/ length bs = S j)%nat -> (length c <= 1024 * length bs)%nat ->
  freeblock s + cost (S j) - cost (length bs) <= FSSIZE ->
  wp (append_block (Z.of_nat j) din) (appended s c j (length bs)) s.
Proof using.
  intros Hg Hj Hl Hc Hb. destruct (id Hg) as [Ha Hs Hf Ht Hn]. pose proof (frame_free _ _ Hf) as Hfb.
  assert (Hcost : forall k, (k <= 12)%nat -> cost k = Z.of_nat k) by (intros k ?; unfold cost; destruct (Nat.leb_spec k 12); lia).
  unfold append_block. destruct (Z.ltb_spec (Z.of_nat j) NDIRECT) as [_|?]; [|unfold NDIRECT in *; lia].
  rewrite (ad_direct _ _ _ _ Ha) by done. destruct Hl as [Hl|Hl].
  - rewrite (lookup_ge_None_2 bs) by lia. change (xint (default 0 None) =? 0) with true. cbv iota.
    do 2 apply wp_bind. apply wp_next_block. apply wp_ret. apply wp_ret.
    rewrite (xint_small (freeblock s)) by lia. rewrite <- Hl in *.
    pose proof (addressed_snoc_direct _ _ _ _ (freeblock s) Ha ltac:(lia) ltac:(lia)) as Ha'.
    destruct (set_addr_fields din (Z.of_nat (length bs)) (freeblock s)) as (_ & E1 & E2); [apply Ha|lia|].
    exists (bs ++ [freeblock s]), ib. cbn [fst snd]. rewrite (ad_direct _ _ _ _ Ha') by lia.
    rewrite list_lookup_middle by done. change (default 0 (Some ?x)) with x. rewrite xint_small by lia.
    split_and!; [|done|rewrite length_app; simpl; lia|].
    2: { simpl. rewrite !Hcost by lia. rewrite u32_small by lia. lia. }
    rewrite !Hcost in Hb by lia. split; [exact Ha'| | |congruence|congruence].
    + apply stored_snoc; [done|done|]. apply (fr_fresh _ _ Hf). lia.
    + eapply frame_take; [exact Hf|lia|]. unfold owned. rewrite length_app. cbn [length].
      destruct (Nat.leb_spec (length bs + 1) 12), (Nat.leb_spec (length bs) 12); [|lia..]. rewrite !app_nil_r.
      by rewrite Permutation_app_comm.
  - destruct (lookup_lt_is_Some_2 bs j) as [b Eb]; [lia|]. rewrite Eb. simpl (default 0 _).
    assert (Hb0 : 46 <= b < 2000). { eapply grown_pos; [exact Hg|]. apply elem_of_app. left. by eapply list_elem_of_lookup_2. }
    rewrite xint_small by lia. destruct (Z.eqb_spec b 0); [lia|]. apply wp_bind. apply wp_ret. apply wp_ret.
    rewrite (ad_direct _ _ _ _ Ha) by done. rewrite Eb. change (default 0 (Some ?x)) with x. rewrite xint_small by lia.
    exists bs, ib. split_and!; [exact Hg|done|done|]. rewrite Hl. lia.
Qed.

Definition has_indirect (s : image) (bs : list Z) (din1 : list Z) (s1 : image) : Prop :=
  exists ib it, with_indirect (sectors s1) din1 bs it ib /\ frame s1 (bs ++ [ib]) /\ sectors s1 = sectors s /\
    din_type din1 = ty /\ din_nlink din1 = nl /\
    freeblock s1 = freeblock s + (if (length bs <=? 12)%nat then 1 else 0).

Lemma append_get_indirect s din c bs ib :
  grown s din c bs ib -> (12 <= length bs)%nat -> ((length bs <= 12)%nat -> freeblock s < FSSIZE) ->
  wp (if xint (din_addr din NDIRECT) =? 0 then let! b := next_block in ret (set_din_addr NDIRECT (xint b) din) else ret din)
    (has_indirect s bs) s.
Proof using.
  intros Hg Hl Hb. destruct (id Hg) as [Ha Hs Hf Ht Hn]. pose proof (frame_free _ _ Hf) as Hfb.
  destruct (id Ha) as [Hdl Hm Hd Hi Hind]. rewrite Hi. unfold indirect_ok in Hind. unfold has_indirect.
  destruct (Nat.leb_spec (length bs) 12) as [Hle|Hgt].
  - rewrite Hind. change (xint 0 =? 0) with true. cbv iota. apply wp_bind. apply wp_next_block. apply wp_ret.
    specialize (Hb Hle). rewrite xint_small by lia. unfold NDIRECT.
    destruct (set_addr_fields din 12 (freeblock s)) as (E0 & E1 & E2); [done|lia|].
    exists (freeblock s), zeroes. split_and!; [|eapply frame_take; [exact Hf|lia|]|done|congruence|congruence|].
    + split; [done|lia| | | |done|].
      * intros i Hi'. rewrite din_addr_set by lia. rewrite decide_False by lia. by apply Hd.
      * unfold NDIRECT. by rewrite din_addr_set, decide_True by lia.
      * apply (fr_fresh _ _ Hf). lia.
      * intros i Hi'. rewrite zero_entry by done. by rewrite lookup_ge_None_2 by lia.
    + unfold owned. destruct (Nat.leb_spec (length bs) 12); [|lia]. rewrite app_nil_r. by rewrite Permutation_app_comm.
    + simpl. apply u32_small. unfold FSSIZE in *. lia.
  - destruct Hind as (it & Hit & Hitl & He).
    assert (Hib : 46 <= ib < 2000).
    { eapply grown_pos; [exact Hg|]. unfold owned. destruct (Nat.leb_spec (length bs) 12); [lia|].
      apply elem_of_app. right. by apply list_elem_of_singleton. }
    rewrite xint_small by lia. destruct (Z.eqb_spec ib 0); [lia|]. apply wp_ret. exists ib, it.
    split_and!; [|revert Hf; unfold owned; destruct (Nat.leb_spec (length bs) 12); [lia|done]|done|done|done|lia].
    split; done || lia.
Qed.

(** A new entry in the indirect block. *)
Lemma grown_snoc_indirect s1 din bs it ib c :
  with_indirect (sectors s1) din bs it ib -> frame s1 (bs ++ [ib]) -> stored (sectors s1) c bs ->
  (length bs < 268)%nat -> (length c <= 1024 * length bs)%nat -> freeblock s1 < FSSIZE ->
  din_type din = ty -> din_nlink din = nl ->
  let it' := data_set 4 (freeblock s1) (4 * Z.of_nat (length bs - 12)) it in
  let s2 := take_block s1 in
  grown (mk_image (<[ib := it']> (sectors s2)) (freeinode s2) (freeblock s2)) din c (bs ++ [freeblock s1]) ib.
Proof using.
  intros Hw Hf Hs Hl Hc Hb Ht Hn it' s2. pose proof (frame_free _ _ Hf) as Hfb.
  assert (Eo : owned (bs ++ [freeblock s1]) ib = (bs ++ [freeblock s1]) ++ [ib]).
  { unfold owned. rewrite length_app. pose proof (wi_range _ _ _ _ _ Hw). destruct (Nat.leb_spec (length bs + length [freeblock s1]) 12); [simpl in *; lia|done]. }
  assert (Hf2 : frame s2 ((bs ++ [freeblock s1]) ++ [ib])).
  { eapply frame_take; [exact Hf|done|]. rewrite <- (assoc_L (++)). rewrite (Permutation_app_comm [freeblock s1]).
    rewrite (assoc_L (++)). by rewrite Permutation_app_comm. }
  pose proof (with_indirect_snoc _ _ _ _ _ (freeblock s1) Hw Hl ltac:(lia)) as Hw'. cbv zeta in Hw'.
  split; [|..|done|done].
  - eapply with_indirect_addressed; [exact Hw'|]. pose proof (wi_range _ _ _ _ _ Hw). rewrite length_app. simpl. lia.
  - intros j b Hj. simpl. rewrite lookup_insert_ne.
    + apply (stored_snoc _ _ _ (freeblock s1) Hs); [done| |done]. apply (fr_fresh _ _ Hf). lia.
    + intros <-. pose proof (fr_nodup _ _ Hf2) as Hnd. apply list.NoDup_app in Hnd as (_ & Hd & _). apply (Hd ib); [|by apply list_elem_of_singleton].
      by eapply list_elem_of_lookup_2.
  - rewrite Eo. apply frame_write; [exact Hf2|]. apply elem_of_app. right. by apply list_elem_of_singleton.
Qed.

Lemma append_indirect s din c bs ib j :
  grown s din c bs ib -> (12 <= j < 268)%nat -> (length bs = j \/ length bs = S j)%nat -> (length c <= 1024 * length bs)%nat ->
  freeblock s + cost (S j) - cost (length bs) <= FSSIZE ->
  wp (append_block (Z.of_nat j) din) (appended s c j (length bs)) s.
Proof using.
  intros Hg Hj Hl Hc Hb. unfold append_block. destruct (Z.ltb_spec (Z.of_nat j) NDIRECT) as [?|_]; [unfold NDIRECT in *; lia|].
  assert (HS : cost (S j) = Z.of_nat j + 2) by (unfold cost; destruct (Nat.leb_spec (S j) 12); lia).
  apply wp_bind. eapply wp_conseq; [apply (append_get_indirect s din c bs ib Hg); [lia|]|].
  { intros Hle. unfold cost in Hb at 2. destruct (Nat.leb_spec (length bs) 12); lia. }
  intros din1 s1 (ib1 & it & Hw & Hf & Es & Ht & Hn & Efb). pose proof (frame_free _ _ Hf) as Hfb.
  assert (Hib : 46 <= ib1 < 2000).
  { pose proof (fr_pos _ _ Hf) as Hp. rewrite list.Forall_forall in Hp. specialize (Hp ib1). cbv beta in Hp.
    change nmeta with 46 in Hp. assert (ib1 ∈ bs ++ [ib1]) by (apply elem_of_app; right; by apply list_elem_of_singleton). specialize (Hp ltac:(done)). lia. }
  rewrite (wi_ib _ _ _ _ _ Hw), xint_small by lia. apply wp_bind. apply (wp_rsect _ it); [apply Hw|].
  replace (Z.of_nat j - NDIRECT) with (Z.of_nat (j - 12)) by (unfold NDIRECT; lia).
  rewrite (wi_entries _ _ _ _ _ Hw) by lia. replace (12 + (j - 12))%nat with j by lia.
  assert (Hs : stored (sectors s1) c bs) by (rewrite Es; apply Hg). destruct Hl as [Hl|Hl].
  - rewrite (lookup_ge_None_2 bs) by lia. change (default 0 None =? 0) with true. cbv iota.
    assert (Hs1 : freeblock s1 < FSSIZE) by (revert Hb Efb; unfold cost at 2; destruct (Nat.leb_spec (length bs) 12); lia).
    do 2 apply wp_bind. apply wp_next_block. apply wp_bind. apply wp_modify. apply wp_ret. apply wp_ret.
    rewrite (xint_small (freeblock s1)) by lia. rewrite <- Hl in *.
    pose proof (grown_snoc_indirect s1 din1 bs it ib1 c Hw Hf Hs ltac:(lia) Hc Hs1 Ht Hn) as Hg'. cbv zeta in Hg'.
    exists (bs ++ [freeblock s1]), ib1. cbn [fst snd]. split_and!; [exact Hg'| |rewrite length_app; simpl; lia|].
    + rewrite list_lookup_middle by done. f_equal.
      destruct (entry_set it (length bs - 12) (freeblock s1)) as [_ He]; [apply Hw|lia|lia|].
      rewrite He, decide_True by done || lia. by rewrite xint_small by lia.
    + simpl. unfold FSSIZE in *. rewrite u32_small by lia. rewrite Efb, HS. unfold cost. destruct (Nat.leb_spec (length bs) 12); lia.
  - destruct (lookup_lt_is_Some_2 bs j) as [b Eb]; [lia|]. rewrite Eb. change (default 0 (Some ?x)) with x.
    assert (Hb0 : 46 <= b < 2000). { eapply grown_pos; [exact Hg|]. apply elem_of_app. left. by eapply list_elem_of_lookup_2. }
    destruct (Z.eqb_spec b 0); [lia|]. apply wp_bind. apply wp_ret. apply wp_ret. exists bs, ib1.
    cbn [fst snd]. rewrite (wi_entries _ _ _ _ _ Hw) by lia. replace (12 + (j - 12))%nat with j by lia. rewrite Eb.
    change (default 0 (Some ?x)) with x. rewrite xint_small by lia. split_and!; [|done|done|].
    + split; [by eapply with_indirect_addressed; [|lia]|done| |done|done]. unfold owned.
      destruct (Nat.leb_spec (length bs) 12); [lia|done].
    + rewrite Efb, Hl. destruct (Nat.leb_spec (S j) 12); lia.
Qed.

(** Data in the last block. *)
Lemma grown_write s din c bs ib j x q :
  grown s din c bs ib -> bs !! j = Some x -> length bs = S j ->
  (1024 * j <= length c)%nat -> (length c + length q <= 1024 * S j)%nat ->
  grown (mk_image (<[x := chunk (c ++ q) j]> (sectors s)) (freeinode s) (freeblock s)) din (c ++ q) bs ib.
Proof using.
  intros [Ha Hs Hf Ht Hn] Hx Hl Hc Hq. pose proof (fr_nodup _ _ Hf) as Hnd.
  assert (Hxb : x ∈ bs) by (by eapply list_elem_of_lookup_2). split; [| |apply frame_write; [done|]|done|done].
  - destruct Ha as [H1 H2 H3 H4 H5]. split; try done. unfold indirect_ok, owned in *. destruct (Nat.leb_spec (length bs) 12); [done|].
    destruct H5 as (it & Hit & ?). exists it. split; [|done]. simpl. rewrite lookup_insert_ne; [done|]. intros <-.
    apply list.NoDup_app in Hnd as (_ & Hd & _). by apply (Hd x), list_elem_of_singleton.
  - intros k b Hk. simpl. destruct (decide (k = j)) as [->|Hne].
    + rewrite Hx in Hk. injection Hk as <-. by rewrite lookup_insert_eq.
    + rewrite lookup_insert_ne.
      * rewrite (Hs _ _ Hk). f_equal. symmetry. apply chunk_app_before. apply lookup_lt_Some in Hk. lia.
      * intros <-. apply Hne. apply list.NoDup_app in Hnd as (Hnd & _). by eapply NoDup_lookup.
  - apply elem_of_app. by left.
Qed.

Lemma append_block_ok s din c bs ib j :
  grown s din c bs ib -> (j < 268)%nat -> (length bs = j \/ length bs = S j)%nat -> (length c <= 1024 * length bs)%nat ->
  freeblock s + cost (S j) - cost (length bs) <= FSSIZE ->
  wp (append_block (Z.of_nat j) din) (appended s c j (length bs)) s.
Proof using.
  intros. destruct (decide (j < 12)%nat); [by eapply append_direct|eapply append_indirect; eauto; lia].
Qed.

Section loop.
Context (c0 p0 : list Z).
Definition total_blocks : nat := blocks_for (length c0 + length p0).

(** What is written so far, what is left, and where. *)
Record appending (g : list Z * list Z * Z) (st : list Z * Z * list Z) (s : image) : Prop := {
  ap_data : g.1.1 ++ st.1.1 = c0 ++ p0;
  ap_off : st.1.2 = Z.of_nat (length g.1.1);
  ap_grown : grown s st.2 g.1.1 g.1.2 g.2;
  ap_blocks : length g.1.2 = blocks_for (length g.1.1);
  ap_free : freeblock s = fb0 + cost (blocks_for (length g.1.1)) - cost (blocks_for (length c0))
}.

Context (Hmax : (length c0 + length p0 <= 1024 * 268)%nat)
  (Hfree : fb0 + cost total_blocks - cost (blocks_for (length c0)) <= FSSIZE).

Lemma append_step_ok g st s : appending g st s ->
  wp (append_step st) (fun r s' =>
    match r with
    | inl st' => exists g', appending g' st' s' /\ 0 <= Z.of_nat (length (c0 ++ p0)) - Z.of_nat (length g'.1.1) <
                                              Z.of_nat (length (c0 ++ p0)) - Z.of_nat (length g.1.1)
    | inr r => appending g ([], r.1, r.2) s'
    end) s.
Proof using Hmax Hfree.
  destruct g as [[c bs] ib], st as [[p off] din]. intros [Hd Ho Hg Hbl Hfb]. simpl in Hd, Ho, Hg, Hbl, Hfb.
  assert (Hlen : (length c + length p = length c0 + length p0)%nat) by (rewrite <- !length_app; by rewrite Hd).
  unfold append_step. cbn [fst snd]. destruct (Z.ltb_spec 0 (Z.of_nat (length p))) as [Hp|Hp].
  2: { apply wp_ret. destruct p; [|simpl in Hp; lia]. by split. }
  set (j := (length c / 1024)%nat). assert (Hj : (1024 * j <= length c < 1024 * S j)%nat).
  { pose proof (Nat.div_mod (length c) 1024 ltac:(done)). pose proof (Nat.mod_upper_bound (length c) 1024 ltac:(done)). unfold j. lia. }
  assert (Ej : off / BSIZE = Z.of_nat j) by (subst off; unfold j; rewrite Nat2Z.inj_div; done). rewrite Ej.
  destruct (Z.ltb_spec (Z.of_nat j) MAXFILE) as [_|Hm]; [|change MAXFILE with 268 in Hm; lia]. cbn [negb].
  pose proof (blocks_for_spec (length c)) as Hbs.
  assert (Hbt : (S j <= total_blocks)%nat) by (unfold total_blocks; pose proof (blocks_for_spec (length c0 + length p0)); lia).
  apply wp_bind. eapply wp_conseq; [apply (append_block_ok s din c bs ib j Hg)|]; [lia|lia|lia|rewrite Hbl; pose proof (cost_mono _ _ Hbt); lia|].
  intros [x din'] s' (bs' & ib' & Hg' & Hx & Hl' & Hfb'). cbn [fst snd] in *.
  set (n1 := Z.min _ _). apply wp_bind. apply (wp_rsect _ (chunk c j)); [by apply (gr_stored _ _ _ _ _ Hg')|]. apply wp_bind. apply wp_modify.
  set (q := take (Z.to_nat n1) p). assert (Hn1 : 0 < n1 <= Z.of_nat (length p) /\ n1 <= 1024 * (Z.of_nat j + 1) - off) by (unfold n1, BSIZE; lia).
  assert (Hq : length q = Z.to_nat n1) by (unfold q; rewrite length_take; lia).
  replace (off - Z.of_nat j * BSIZE) with (Z.of_nat (length c - 1024 * j)) by (unfold BSIZE; lia).
  rewrite chunk_put by lia. apply wp_ret. exists (c ++ q, bs', ib'). cbn [fst snd]. rewrite !length_app, Hq.
  assert (Hbf : blocks_for (length c + Z.to_nat n1) = S j) by (apply blocks_for_unique; lia).
  split; [split; cbn [fst snd]|lia].
  - rewrite <- (assoc_L (++)). unfold q. by rewrite take_drop.
  - rewrite length_app, Hq. rewrite u32_small by lia. lia.
  - apply grown_write; [done|done|done|lia|lia].
  - by rewrite length_app, Hq, Hbf.
  - simpl. rewrite length_app, Hq, Hbf, Hfb', Hfb, Hbl. lia.
Qed.

Lemma append_loop_ok din bs ib s :
  grown s din c0 bs ib -> length bs = blocks_for (length c0) -> freeblock s = fb0 ->
  wp (while append_step (p0, Z.of_nat (length c0), din)) (fun r s' =>
    exists bs' ib', grown s' r.2 (c0 ++ p0) bs' ib' /\ length bs' = total_blocks /\
      r.1 = Z.of_nat (length (c0 ++ p0)) /\ freeblock s' = fb0 + cost total_blocks - cost (blocks_for (length c0))) s.
Proof using Hmax Hfree.
  intros Hg Hbl Hfb.
  eapply (wp_while_ghost _ appending (fun g => Z.of_nat (length (c0 ++ p0)) - Z.of_nat (length g.1.1)) _ (c0, bs, ib)).
  - intros g l w Ha. eapply wp_conseq; [apply (append_step_ok g l w Ha)|]. intros [l'|r] w' H.
    + exact H.
    + destruct H as [Hd Ho Hgr Hb Hf]. destruct g as [[c bs'] ib']. cbn [fst snd] in *. rewrite app_nil_r in Hd. subst c.
      exists bs', ib'. unfold total_blocks. rewrite <- length_app. done.
  - split; cbn [fst snd]; [done|done|done|done|lia].
  - cbn [fst snd]. rewrite length_app. lia.
Qed.
End loop.
End grow.

(** ** The whole image

    [l] is what the image is to hold: the type and the content of the inodes
    1, 2, ...; [bsl] their blocks. *)

Record file_ok (sec : gmap Z (list Z)) (din : list Z) (f : Z * list Z) (own : list Z * Z) : Prop := {
  fo_addr : addressed sec din own.1 own.2;
  fo_stored : stored sec f.2 own.1;
  fo_blocks : length own.1 = blocks_for (length f.2);
  fo_nodup : NoDup (owned own.1 own.2);
  fo_type : din_type din = f.1;
  fo_nlink : din_nlink din = 1;
  fo_size : din_size din = Z.of_nat (length f.2);
  fo_max : (length f.2 <= 1024 * 268)%nat;
  fo_raw : data_get 4 din 8 = Z.of_nat (length f.2)
}.
Definition used (l : list (Z * list Z)) : Z := foldr (fun f n => cost (blocks_for (length f.2)) + n) nmeta l.

Record fs_ok (l : list (Z * list Z)) (s : image) (bsl : list (list Z * Z)) : Prop := {
  fs_len : length bsl = length l;
  fs_count : Z.of_nat (length l) < NINODES;
  fs_freeinode : freeinode s = Z.of_nat (length l) + 1;
  fs_freeblock : freeblock s = used l;
  fs_bound : used l <= FSSIZE;
  fs_inodes : inode_blocks_ok (sectors s);
  fs_files : forall i f own, l !! i = Some f -> bsl !! i = Some own ->
    file_ok (sectors s) (inode_at (sectors s) (Z.of_nat i + 1)) f own;
  fs_range : forall i own b, bsl !! i = Some own -> b ∈ owned own.1 own.2 -> nmeta <= b < used l;
  fs_disjoint : forall i k own own' b, bsl !! i = Some own -> bsl !! k = Some own' ->
    b ∈ owned own.1 own.2 -> b ∈ owned own'.1 own'.2 -> i = k;
  fs_fresh : forall b, used l <= b < FSSIZE -> sectors s !! b = Some zeroes;
  fs_boot : sectors s !! 0 = Some zeroes;
  fs_log : sectors s !! 2 = Some zeroes;
  fs_super : sectors s !! 1 = Some (data_put (sb_bytes the_sb) 0 zeroes)
}.

Lemma cost_nonneg k : 0 <= cost k.
Proof. unfold cost. destruct (k <=? 12)%nat; lia. Qed.
Lemma used_cons f l : used (f :: l) = cost (blocks_for (length f.2)) + used l.
Proof. done. Qed.
Lemma used_ge l : 46 <= used l.
Proof. induction l as [|f l IH]; [done|]. rewrite used_cons. pose proof (cost_nonneg (blocks_for (length f.2))). lia. Qed.
Lemma used_insert l i f f' : l !! i = Some f ->
  used (<[i := f']> l) = used l - cost (blocks_for (length f.2)) + cost (blocks_for (length f'.2)).
Proof.
  revert i. induction l as [|g l IH]; intros [|i] H; [done|done| |].
  - injection H as ->. change (<[0%nat := f']> (f :: l)) with (f' :: l). rewrite !used_cons. lia.
  - change (<[S i := f']> (g :: l)) with (g :: <[i := f']> l). rewrite !used_cons, (IH i) by done. lia.
Qed.
Lemma used_snoc l f : used (l ++ [f]) = used l + cost (blocks_for (length f.2)).
Proof. induction l as [|g l IH]; simpl app; rewrite !used_cons; [lia|]. rewrite IH. lia. Qed.

Lemma inode_at_ext sec sec' inum : sec' !! IBLOCK inum the_sb = sec !! IBLOCK inum the_sb -> inode_at sec' inum = inode_at sec inum.
Proof. intros H. unfold inode_at, sector. by rewrite H. Qed.
Lemma put_inode_other sec inum din b : 0 <= inum < NINODES -> 45 <= b \/ b < 32 -> put_inode sec inum din !! b = sec !! b.
Proof. intros Hi Hb. destruct (IBLOCK_range inum Hi). unfold put_inode. rewrite lookup_insert_ne; [done|lia]. Qed.

Lemma file_ok_frame sec sec' din f own :
  (forall b, b ∈ owned own.1 own.2 -> sec' !! b = sec !! b) -> file_ok sec din f own -> file_ok sec' din f own.
Proof.
  intros Hf []. split; try done; [by eapply addressed_frame|by eapply stored_frame].
Qed.

Lemma size_fields din n i : length din = 64%nat -> 0 <= n < 2 ^ 32 -> 0 <= i < 13 ->
  length (set_din_size n din) = 64%nat /\ din_type (set_din_size n din) = din_type din /\
  din_nlink (set_din_size n din) = din_nlink din /\ din_size (set_din_size n din) = n /\
  din_addr (set_din_size n din) i = din_addr din i.
Proof.
  intros Hl Hn Hi. unfold set_din_size, din_type, din_nlink, din_size, din_addr. rewrite (xint_small n) by done.
  split_and!; [rewrite length_data_set; lia|apply data_get_set_ne; lia..| |apply data_get_set_ne; lia].
  rewrite data_get_set_eq by lia. rewrite Z.mod_small by done. by apply xint_small.
Qed.
Lemma raw_size din n : length din = 64%nat -> 0 <= n < 2 ^ 32 -> data_get 4 (set_din_size n din) 8 = n.
Proof. intros Hl Hn. unfold set_din_size. rewrite (xint_small n) by done. rewrite data_get_set_eq by lia. by apply Z.mod_small. Qed.
Lemma addressed_size sec din bs ib n : addressed sec din bs ib -> 0 <= n < 2 ^ 32 -> addressed sec (set_din_size n din) bs ib.
Proof.
  intros [H1 H2 H3 H4 H5] Hn. split; [by apply (size_fields din n 0)|done| | |done].
  - intros i Hi. destruct (size_fields din n (Z.of_nat i)) as (_ & _ & _ & _ & ->); [done|done|lia|by apply H3].
  - destruct (size_fields din n NDIRECT) as (_ & _ & _ & _ & ->); [done|done|by unfold NDIRECT|done].
Qed.

Section replace.
Context (l : list (Z * list Z)) (s : image) (bsl : list (list Z * Z)) (Hfs : fs_ok l s bsl).
Context (i : nat) (ty : Z) (c : list Z) (own : list Z * Z) (Hi : l !! i = Some (ty, c)) (Ho : bsl !! i = Some own).

Lemma inum_range k f : l !! k = Some f -> 0 <= Z.of_nat k + 1 < NINODES.
Proof using Hfs.
  intros H. apply lookup_lt_Some in H. pose proof (fs_count _ _ _ Hfs). pose proof (fs_len _ _ _ Hfs).
  assert (Z.of_nat (length l) < NINODES) by done. lia.
Qed.

(** The blocks of inodes and of other files are out of reach. *)
Lemma frame_outside s1 own1 b :
  frame (sectors s) (freeinode s) (freeblock s) (owned own.1 own.2) s1 own1 ->
  b < used l -> b ∉ owned own.1 own.2 -> sectors s1 !! b = sectors s !! b.
Proof using Hfs.
  intros Hf Hb Hn. apply (fr_rest _ _ _ _ _ _ Hf); [done|]. by rewrite (fs_freeblock _ _ _ Hfs).
Qed.
Lemma low_not_owned b : b < 46 -> b ∉ owned own.1 own.2.
Proof using Hfs Ho. intros Hb Hin. pose proof (fs_range _ _ _ Hfs _ _ _ Ho Hin) as [? _]. change nmeta with 46 in *. lia. Qed.

(** The file has grown to [c1]; its inode is written last. *)
Context (s1 : image) (din1 c1 bs1 : list Z) (ib1 : Z)
  (Hg : grown (sectors s) (freeinode s) (freeblock s) ty 1 (owned own.1 own.2) s1 din1 c1 bs1 ib1)
  (Hbl : length bs1 = blocks_for (length c1)) (Hmax : (length c1 <= 1024 * 268)%nat)
  (Hfb : freeblock s1 = used (<[i := (ty, c1)]> l)).
Definition new_inode : list Z := set_din_size (Z.of_nat (length c1)) din1.
Definition new_sectors : gmap Z (list Z) := put_inode (sectors s1) (Z.of_nat i + 1) new_inode.

Lemma grown_low b : b < 46 -> sectors s1 !! b = sectors s !! b.
Proof using Hfs Hi Ho Hg Hbl Hmax Hfb.
  intros Hb. pose proof (used_ge l). apply (frame_outside s1 _ b (gr_frame _ _ _ _ _ _ _ _ _ _ _ Hg)); [lia|by apply low_not_owned].
Qed.
Lemma grown_inodes : inode_blocks_ok (sectors s1).
Proof using Hfs Hi Ho Hg Hbl Hmax Hfb.
  intros k Hk. destruct (IBLOCK_range k Hk). rewrite grown_low by lia. by apply (fs_inodes _ _ _ Hfs).
Qed.
Lemma grown_own b : b ∈ owned bs1 ib1 -> 46 <= b < freeblock s1 /\ (b ∈ owned own.1 own.2 \/ used l <= b).
Proof using Hfs Hi Ho Hg Hbl Hmax Hfb.
  intros Hb. destruct (gr_frame _ _ _ _ _ _ _ _ _ _ _ Hg) as [H1 H2 _ _ _ _ _ _].
  rewrite list.Forall_forall in H1, H2. specialize (H1 _ Hb). specialize (H2 _ Hb). cbv beta in H1, H2.
  rewrite (fs_freeblock _ _ _ Hfs) in H1. change nmeta with 46 in H2. destruct H1; [auto|]. split; [done|]. right. lia.
Qed.
Lemma other_own k own' b : k <> i -> bsl !! k = Some own' -> b ∈ owned own'.1 own'.2 ->
  46 <= b < used l /\ (b ∉ owned own.1 own.2) /\ b ∉ owned bs1 ib1.
Proof using Hfs Hi Ho Hg Hbl Hmax Hfb.
  intros Hne Hk Hb. pose proof (fs_range _ _ _ Hfs _ _ _ Hk Hb) as Hr. change nmeta with 46 in Hr.
  assert (Hno : b ∉ owned own.1 own.2) by (intros Hb'; exact (Hne (fs_disjoint _ _ _ Hfs _ _ _ _ _ Hk Ho Hb Hb'))).
  split_and!; [lia|lia|done|]. intros Hb'. destruct (grown_own b Hb') as [_ [?|?]]; [done|lia].
Qed.
Lemma new_inode_ok : length new_inode = 64%nat.
Proof using Hfs Hi Ho Hg Hbl Hmax Hfb. apply (size_fields _ _ 0); [|lia|lia]. apply (gr_addr _ _ _ _ _ _ _ _ _ _ _ Hg). Qed.
Lemma new_sectors_above b : 46 <= b -> new_sectors !! b = sectors s1 !! b.
Proof using Hfs Hi Ho Hg Hbl Hmax Hfb. intros Hb. apply put_inode_other; [by eapply inum_range|lia]. Qed.

Lemma replaced_file : file_ok new_sectors (inode_at new_sectors (Z.of_nat i + 1)) (ty, c1) (bs1, ib1).
Proof using Hfs Hi Ho Hg Hbl Hmax Hfb.
  unfold new_sectors at 2. rewrite inode_at_put_eq; [|exact grown_inodes|by eapply inum_range|exact new_inode_ok].
  apply (file_ok_frame (sectors s1)); [intros b Hb; apply new_sectors_above; by apply grown_own|].
  destruct Hg as [Ha Hs Hf Hty Hnl]. destruct (size_fields din1 (Z.of_nat (length c1)) 0) as (_ & Ht2 & Hn2 & Hz2 & _); [apply Ha|lia|lia|].
  split; cbn [fst snd]; [apply addressed_size; [done|lia]|done|done|apply Hf|unfold new_inode; congruence|unfold new_inode; congruence|done|done|apply raw_size; [apply Ha|lia]].
Qed.
Lemma kept_file k f own' : k <> i -> l !! k = Some f -> bsl !! k = Some own' ->
  file_ok new_sectors (inode_at new_sectors (Z.of_nat k + 1)) f own'.
Proof using Hfs Hi Ho Hg Hbl Hmax Hfb.
  intros Hne Hk Hk'. unfold new_sectors at 2.
  rewrite inode_at_put_ne; [|exact grown_inodes|by eapply inum_range|by eapply inum_range|lia|exact new_inode_ok].
  rewrite (inode_at_ext (sectors s)).
  - apply (file_ok_frame (sectors s)); [|by apply (fs_files _ _ _ Hfs)]. intros b Hb.
    destruct (other_own _ _ _ Hne Hk' Hb) as (? & ? & _). rewrite new_sectors_above by lia.
    apply (frame_outside _ _ b (gr_frame _ _ _ _ _ _ _ _ _ _ _ Hg)); [lia|done].
  - destruct (IBLOCK_range _ (inum_range _ _ Hk)). apply grown_low. lia.
Qed.

Lemma fs_replace : fs_ok (<[i := (ty, c1)]> l) (mk_image new_sectors (freeinode s1) (freeblock s1)) (<[i := (bs1, ib1)]> bsl).
Proof using Hfs Hi Ho Hg Hbl Hmax Hfb.
  pose proof (gr_frame _ _ _ _ _ _ _ _ _ _ _ Hg) as Hf. pose proof (inum_range _ _ Hi) as Hin.
  assert (Hil : (i < length bsl)%nat) by (by eapply lookup_lt_Some). assert (Hil' : (i < length l)%nat) by (by eapply lookup_lt_Some).
  assert (Hbsl : forall k own', <[i := (bs1, ib1)]> bsl !! k = Some own' -> k = i /\ own' = (bs1, ib1) \/ k <> i /\ bsl !! k = Some own').
  { intros k own' Hk. destruct (decide (k = i)) as [->|Hne]; [left|right]; split; try done.
    - rewrite list_lookup_insert_eq in Hk by done. by injection Hk as <-.
    - by rewrite list_lookup_insert_ne in Hk by done. }
  assert (Hle : used l <= freeblock s1) by (rewrite <- (fs_freeblock _ _ _ Hfs); apply Hf). split; simpl; rewrite ?length_insert.
  1-2: apply Hfs.
  - rewrite (fr_inodes _ _ _ _ _ _ Hf). apply Hfs.
  - exact Hfb.
  - rewrite <- Hfb. apply Hf.
  - apply inode_blocks_put; [exact grown_inodes|done|exact new_inode_ok].
  - intros k f own' Hk Hk'. destruct (Hbsl _ _ Hk') as [[-> ->]|[Hne Hk2]].
    + rewrite list_lookup_insert_eq in Hk by done. injection Hk as <-. exact replaced_file.
    + rewrite list_lookup_insert_ne in Hk by done. by apply kept_file.
  - intros k own' b Hk Hb. rewrite <- Hfb. change nmeta with 46. destruct (Hbsl _ _ Hk) as [[-> ->]|[Hne Hk2]].
    + by apply grown_own.
    + destruct (other_own _ _ _ Hne Hk2 Hb). lia.
  - intros k k' own1 own2 b Hk Hk' Hb Hb'. destruct (Hbsl _ _ Hk) as [[-> ->]|[Hne Hk2]], (Hbsl _ _ Hk') as [[-> ->]|[Hne' Hk2']].
    + done.
    + exfalso. by destruct (other_own _ _ _ Hne' Hk2' Hb') as (_ & _ & []).
    + exfalso. by destruct (other_own _ _ _ Hne Hk2 Hb) as (_ & _ & []).
    + by eapply (fs_disjoint _ _ _ Hfs).
  - intros b Hb. rewrite <- Hfb in Hb. pose proof (used_ge l). rewrite new_sectors_above by lia. by apply (fr_fresh _ _ _ _ _ _ Hf).
  - unfold new_sectors. rewrite put_inode_other, grown_low by lia. apply (fs_boot _ _ _ Hfs).
  - unfold new_sectors. rewrite put_inode_other, grown_low by lia. apply (fs_log _ _ _ Hfs).
  - unfold new_sectors. rewrite put_inode_other, grown_low by lia. apply (fs_super _ _ _ Hfs).
Qed.
End replace.

Lemma iappend_ok l s bsl i ty c p :
  fs_ok l s bsl -> l !! i = Some (ty, c) -> (length c + length p <= 1024 * 268)%nat ->
  used (<[i := (ty, c ++ p)]> l) <= FSSIZE ->
  wp (iappend (Z.of_nat i + 1) p) (fun _ s' => exists bsl', fs_ok (<[i := (ty, c ++ p)]> l) s' bsl') s.
Proof.
  intros Hfs Hi Hmax Hu. pose proof (inum_range _ _ _ Hfs _ _ Hi) as Hin.
  destruct (lookup_lt_is_Some_2 bsl i) as [own Ho]; [rewrite (fs_len _ _ _ Hfs); by eapply lookup_lt_Some|].
  destruct (fs_files _ _ _ Hfs _ _ _ Hi Ho) as [Ha Hs Hbl Hnd Ht Hn Hz _ _]. cbn [fst snd] in *.
  rewrite (used_insert _ _ _ _ Hi) in Hu. cbn [snd] in Hu. rewrite length_app in Hu. pose proof (used_ge l).
  unfold iappend. apply wp_bind. apply wp_rinode; [apply (fs_inodes _ _ _ Hfs)|done|]. rewrite Hz. apply wp_bind.
  eapply wp_conseq.
  - apply (append_loop_ok (sectors s) (freeinode s) (freeblock s) ty 1 (owned own.1 own.2) c p Hmax) with (bs := own.1) (ib := own.2);
      [unfold total_blocks; rewrite (fs_freeblock _ _ _ Hfs); lia| |done|done].
    split; [done|done| |done|done]. rewrite (fs_freeblock _ _ _ Hfs).
    split; rewrite ?(fs_freeblock _ _ _ Hfs); [|..|done|change nmeta with 46; lia|apply (fs_bound _ _ _ Hfs)|done].
    + apply list.Forall_forall. by left.
    + apply list.Forall_forall. intros b Hb. by eapply (fs_range _ _ _ Hfs).
    + done.
    + apply (fs_fresh _ _ _ Hfs).
  - intros [off din1] s1 (bs1 & ib1 & Hg & Hl1 & -> & Hfb). cbn [fst snd]. unfold total_blocks in *. rewrite <- length_app in *.
    apply wp_winode; [|done|].
    { intros k Hk. destruct (IBLOCK_range k Hk). pose proof (gr_frame _ _ _ _ _ _ _ _ _ _ _ Hg) as Hf.
      rewrite (frame_outside l s bsl Hfs own s1 _ _ Hf); [by apply (fs_inodes _ _ _ Hfs)|lia|].
      eapply (low_not_owned l s bsl Hfs i own Ho). lia. }
    eexists. apply (fs_replace l s bsl Hfs i ty c own Hi Ho s1 din1 (c ++ p) bs1 ib1 Hg Hl1); [lia|].
    rewrite (used_insert _ _ _ _ Hi), Hfb, (fs_freeblock _ _ _ Hfs). simpl. lia.
Qed.

(** The inode [ialloc] writes. *)
Definition fresh_inode (ty : Z) : list Z := set_din_size 0 (data_set 2 1 6 (data_set 2 ty 0 (replicate 64 0))).
Lemma fresh_inode_fields ty : 0 <= ty < 2 ^ 16 ->
  length (fresh_inode ty) = 64%nat /\ din_type (fresh_inode ty) = ty /\ din_nlink (fresh_inode ty) = 1 /\
  (din_size (fresh_inode ty) = 0 /\ data_get 4 (fresh_inode ty) 8 = 0) /\ forall i, 0 <= i < 13 -> din_addr (fresh_inode ty) i = 0.
Proof.
  intros Hty. unfold fresh_inode. set (d1 := data_set 2 1 6 _).
  assert (Hd1 : length d1 = 64%nat) by (unfold d1; rewrite !length_data_set by (rewrite ?length_data_set, ?length_replicate; simpl; lia); done).
  destruct (size_fields d1 0 0) as (E1 & -> & -> & -> & _); [done|done|done|]. split_and!; [done| | |done|by apply raw_size|].
  - unfold din_type, d1. rewrite data_get_set_ne, data_get_set_eq by (rewrite ?length_data_set, ?length_replicate; simpl; lia).
    by apply Z.mod_small.
  - unfold din_nlink, d1. by rewrite data_get_set_eq by (rewrite ?length_data_set, ?length_replicate; simpl; lia).
  - intros i Hi. destruct (size_fields d1 0 i) as (_ & _ & _ & _ & ->); [done|done|done|].
    unfold din_addr, d1. rewrite !data_get_set_ne by (rewrite ?length_data_set, ?length_replicate; simpl; lia).
    unfold data_get. rewrite drop_replicate, take_replicate. by replace (Nat.min _ _) with 4%nat by lia.
Qed.

Lemma ialloc_ok l s bsl ty :
  fs_ok l s bsl -> Z.of_nat (length l) + 1 < NINODES -> 0 <= ty < 2 ^ 16 ->
  wp (ialloc ty) (fun inum s' => inum = Z.of_nat (length l) + 1 /\ exists bsl', fs_ok (l ++ [(ty, [])]) s' bsl') s.
Proof.
  intros Hfs Hn Hty. unfold ialloc. apply wp_bind. apply wp_gets. apply wp_bind. apply wp_modify.
  rewrite (fs_freeinode _ _ _ Hfs), (xshort_small ty) by done. change (xshort 1) with 1. fold (fresh_inode ty). apply wp_bind.
  pose proof (fresh_inode_fields ty Hty) as Hd. set (din := fresh_inode ty) in *.
  clearbody din. destruct Hd as (Hl & Ht & Hnl & [Hz Hraw] & Haddr).
  assert (Hin : 0 <= Z.of_nat (length l) + 1 < NINODES) by lia.
  apply wp_winode; [apply (fs_inodes _ _ _ Hfs)|done|]. apply wp_ret. split; [done|]. exists (bsl ++ [([], 0)]).
  pose proof (used_ge l). pose proof (fs_len _ _ _ Hfs) as Hlen.
  assert (Hus : used (l ++ [(ty, [])]) = used l) by (rewrite used_snoc; change (cost (blocks_for (length (ty, @nil Z).2))) with 0; lia).
  assert (Hown : forall k own, (bsl ++ [([], 0)]) !! k = Some own -> (k < length l)%nat /\ bsl !! k = Some own \/
     k = length l /\ own = ([], 0)).
  { intros k own Hk. apply lookup_snoc_Some in Hk as [[? ?]|[-> <-]]; [left|right]; rewrite Hlen in *; done. }
  assert (Hnil : forall k own b, (bsl ++ [([], 0)]) !! k = Some own -> b ∈ owned own.1 own.2 -> bsl !! k = Some own).
  { intros k own b Hk Hb. destruct (Hown k own Hk) as [[_ ?]|[_ ->]]; [done|]. by apply elem_of_nil in Hb. }
  split; rewrite ?Hus; simpl.
  - rewrite !length_app. simpl. lia.
  - rewrite length_app. simpl. lia.
  - rewrite length_app. simpl. unfold NINODES in *. rewrite u32_small by lia. lia.
  - apply Hfs.
  - apply Hfs.
  - apply inode_blocks_put; [apply (fs_inodes _ _ _ Hfs)|done|done].
  - intros k f own Hk Hk'. destruct (Hown k own Hk') as [[Hlt Hb]|[-> ->]].
    + rewrite lookup_app_l in Hk by done.
      rewrite inode_at_put_ne; [|apply (fs_inodes _ _ _ Hfs)|done|by eapply inum_range|lia|done].
      apply (file_ok_frame (sectors s)); [|by apply (fs_files _ _ _ Hfs)]. intros b Hbo. apply put_inode_other; [done|].
      pose proof (fs_range _ _ _ Hfs _ _ _ Hb Hbo) as [? _]. change nmeta with 46 in *. lia.
    + rewrite list_lookup_middle in Hk by done. injection Hk as <-. rewrite inode_at_put_eq by (done || apply (fs_inodes _ _ _ Hfs)).
      split; cbn [fst snd length]; try done; [|constructor|lia]. split; [done|simpl; lia| |by apply Haddr|done].
      intros i Hi. by apply Haddr; lia.
  - intros k own b Hk Hb. eapply (fs_range _ _ _ Hfs); [by eapply Hnil|done].
  - intros k k' own own' b Hk Hk' Hb Hb'. eapply (fs_disjoint _ _ _ Hfs); [by eapply (Hnil k)|by eapply (Hnil k')|done|done].
  - intros b Hb. rewrite put_inode_other by (done || lia). by apply (fs_fresh _ _ _ Hfs).
  - rewrite put_inode_other by (done || lia). apply (fs_boot _ _ _ Hfs).
  - rewrite put_inode_other by (done || lia). apply (fs_log _ _ _ Hfs).
  - rewrite put_inode_other by (done || lia). apply (fs_super _ _ _ Hfs).
Qed.

(** ** mkfs *)

(** The root directory of an image with files of these names, and what the
    inodes of an image are to hold. A file is its argument and what the calls
    of [read] return of it. *)
Definition root_entries (names : list (list Z)) : list Z :=
  dirent 1 (bytes_of ".") ++ dirent 1 (bytes_of "..") ++ concat (imap (fun i n => dirent (Z.of_nat i + 2) n) names).
Definition a_file (f : list Z * list (list Z)) : Z * list Z := (T_FILE, concat f.2).
Definition contents (files : list (list Z * list (list Z))) : list (Z * list Z) :=
  (T_DIR, root_entries ((fun f => shortname f.1) <$> files)) :: (a_file <$> files).

(** Arguments [mkfs] takes: no slash in the name, no file too long, enough
    inodes and blocks. *)
Record fits (files : list (list Z * list (list Z))) : Prop := {
  ft_names : Forall (fun f => slash ∉ (if bool_decide (take 5 f.1 = bytes_of "user/") then drop 5 f.1 else f.1)) files;
  ft_sizes : Forall (fun f => (length (concat f.2) <= 1024 * 268)%nat) files;
  ft_inodes : Z.of_nat (length files) + 1 < NINODES;
  ft_blocks : used (contents files) <= FSSIZE
}.

Lemma length_dirent inum name : length (dirent inum name) = 16%nat.
Proof. unfold dirent. rewrite !length_app, length_le_bytes, length_replicate, length_take. unfold DIRSIZ. lia. Qed.
Lemma root_snoc names n : root_entries (names ++ [n]) = root_entries names ++ dirent (Z.of_nat (length names) + 2) n.
Proof.
  unfold root_entries. rewrite imap_app, concat_app, !(assoc_L (++)). f_equal.
  cbn [imap concat]. unfold compose. by rewrite app_nil_r, Nat.add_0_r.
Qed.
Lemma length_root names : length (root_entries names) = (32 + 16 * length names)%nat.
Proof.
  induction names as [|n names IH] using rev_ind; [done|]. rewrite root_snoc, !length_app, IH, length_dirent. simpl. lia.
Qed.

Lemma contents_snoc files f : contents (files ++ [f]) =
  (T_DIR, root_entries ((fun f => shortname f.1) <$> files) ++ dirent (Z.of_nat (length files) + 2) (shortname f.1)) :: (a_file <$> files) ++ [a_file f].
Proof. unfold contents. rewrite !fmap_app. simpl. rewrite root_snoc, length_fmap. done. Qed.
Lemma used_contents files : used (contents files) = cost (blocks_for (32 + 16 * length files)) + used (a_file <$> files).
Proof. unfold contents. rewrite used_cons. cbn [snd]. by rewrite length_root, length_fmap. Qed.

Lemma blocks_for_mono m n : (m <= n)%nat -> (blocks_for m <= blocks_for n)%nat.
Proof. intros H. unfold blocks_for. apply Nat.Div0.div_le_mono. lia. Qed.

Lemma used_prefix files1 files2 : used (contents files1) <= used (contents (files1 ++ files2)).
Proof.
  rewrite !used_contents, fmap_app, length_app.
  assert (cost (blocks_for (32 + 16 * length files1)) <= cost (blocks_for (32 + 16 * (length files1 + length files2))))
    by (apply cost_mono, blocks_for_mono; lia).
  assert (forall l l', used l <= used (l ++ l')); [|pose proof (H0 (a_file <$> files1) (a_file <$> files2)); lia].
  clear. intros l l'. induction l' as [|f l' IH] using rev_ind; [by rewrite app_nil_r|].
  rewrite (assoc_L (++)), used_snoc. pose proof (cost_nonneg (blocks_for (length f.2))). lia.
Qed.

(** A file of the command line. *)
Section add_file.
Context (files : list (list Z * list (list Z))) (f : list Z * list (list Z)).
Context (Hname : slash ∉ (if bool_decide (take 5 f.1 = bytes_of "user/") then drop 5 f.1 else f.1))
  (Hsize : (length (concat f.2) <= 1024 * 268)%nat) (Hinodes : Z.of_nat (length files) + 2 < NINODES)
  (Hblocks : used (contents (files ++ [f])) <= FSSIZE).

(** The contents while the file is read, with [c] read so far. *)
Definition partly (c : list Z) : list (Z * list Z) :=
  ((T_DIR, root_entries ((fun f => shortname f.1) <$> files) ++ dirent (Z.of_nat (length files) + 2) (shortname f.1)) :: (a_file <$> files))
  ++ [(T_FILE, c)].
Lemma partly_used c : (length c <= length (concat f.2))%nat -> used (partly c) <= FSSIZE.
Proof using Hblocks.
  clear Hname Hsize Hinodes. intros Hc. etrans; [|exact Hblocks]. rewrite contents_snoc. change (?x :: ?l ++ [a_file f]) with ((x :: l) ++ [a_file f]).
  unfold partly. rewrite !used_snoc. cbn [snd a_file]. pose proof (cost_mono _ _ (blocks_for_mono _ _ Hc)). lia.
Qed.

Lemma reads_ok s bsl : fs_ok (partly []) s bsl ->
  wp (for_all f.2 (iappend (Z.of_nat (length files) + 2))) (fun _ s' => exists bsl', fs_ok (contents (files ++ [f])) s' bsl') s.
Proof using Hsize Hblocks.
  intros Hfs.
  apply (wp_for_all _ (fun ps s => exists c bsl, c ++ concat ps = concat f.2 /\ fs_ok (partly c) s bsl)).
  - intros p ps s1 (c & bsl1 & Hc & Hok). assert (Hl : length (contents files) = S (length files)) by (simpl; by rewrite length_fmap).
    assert (Hlen : (length c + length p <= length (concat f.2))%nat) by (rewrite <- Hc; simpl; rewrite !length_app; lia).
    assert (Hi : <[S (length files) := (T_FILE, c ++ p)]> (partly c) = partly (c ++ p)).
    { unfold partly. rewrite insert_app_r_alt by (simpl; rewrite length_fmap; lia). simpl. by rewrite length_fmap, Nat.sub_diag. }
    replace (Z.of_nat (length files) + 2) with (Z.of_nat (S (length files)) + 1) by lia.
    eapply wp_conseq; [apply (iappend_ok _ _ _ (S (length files)) T_FILE c p Hok)|].
    + unfold partly. rewrite lookup_app_r by (simpl; rewrite length_fmap; lia). simpl. by rewrite length_fmap, Nat.sub_diag.
    + lia.
    + rewrite Hi. apply partly_used. rewrite length_app. lia.
    + rewrite Hi. intros _ s2 [bsl2 Hok2]. exists (c ++ p), bsl2. split; [|done]. rewrite <- Hc. simpl. by rewrite (assoc_L (++)).
  - intros s1 (c & bsl1 & Hc & Hok). exists bsl1. rewrite app_nil_r in Hc. subst c. by rewrite contents_snoc.
  - exists [], bsl. done.
Qed.

Lemma add_file_ok s bsl : fs_ok (contents files) s bsl ->
  wp (add_file ROOTINO f.1 (Some f.2)) (fun _ s' => exists bsl', fs_ok (contents (files ++ [f])) s' bsl') s.
Proof using Hname Hsize Hinodes Hblocks.
  intros Hfs. unfold add_file. cbv zeta. rewrite (bool_decide_eq_false_2 _ Hname). apply wp_bind.
  assert (Hl : length (contents files) = S (length files)) by (simpl; by rewrite length_fmap).
  eapply wp_conseq; [apply (ialloc_ok _ _ _ T_FILE Hfs); [rewrite Hl; lia|done]|].
  intros inum s1 (-> & bsl1 & Hfs1). rewrite Hl. apply wp_bind.
  replace (Z.of_nat (S (length files)) + 1) with (Z.of_nat (length files) + 2) by lia.
  set (de := dirent _ _). set (root := root_entries ((fun f => shortname f.1) <$> files)).
  assert (Hp : <[0%nat := (T_DIR, root ++ de)]> (contents files ++ [(T_FILE, [])]) = partly []) by done.
  eapply wp_conseq; [apply (iappend_ok _ _ _ 0 T_DIR root de Hfs1)|].
  - done.
  - unfold root. rewrite length_root, length_fmap. unfold de. rewrite length_dirent. unfold NINODES in *. lia.
  - rewrite Hp. apply partly_used. simpl. lia.
  - rewrite Hp. intros _ s2 [bsl2 Hfs2]. by eapply reads_ok.
Qed.
End add_file.

(** ** The bitmap *)

Lemma bit_testbit x k : 0 <= k -> bit x (Z.shiftl 1 k) = Z.testbit x k.
Proof.
  intros Hk. unfold bit, nz. rewrite Z.shiftl_1_l. destruct (Z.testbit x k) eqn:E.
  - destruct (Z.eqb_spec (Z.land x (2 ^ k)) 0) as [E0|]; [|done]. exfalso.
    assert (H : Z.testbit (Z.land x (2 ^ k)) k = true) by (by rewrite Z.land_spec, E, Z.pow2_bits_true).
    by rewrite E0, Z.bits_0 in H.
  - assert (Z.land x (2 ^ k) = 0) as ->; [|done]. apply Z.bits_inj_0. intros n. rewrite Z.land_spec, Z.pow2_bits_eqb by done.
    destruct (Z.eqb_spec k n) as [<-|]; [by rewrite E|by rewrite andb_false_r].
Qed.

Lemma set_bit_spec buf n b : length buf = 1024%nat -> 0 <= n < 8192 -> 0 <= b < 8192 ->
  length (set_bit buf n) = 1024%nat /\
  Z.testbit (data_byte (set_bit buf n) (b / 8)) (b mod 8) = (b =? n) || Z.testbit (data_byte buf (b / 8)) (b mod 8).
Proof.
  intros Hl Hn Hb. unfold set_bit. split; [by rewrite length_insert|].
  pose proof (Z.div_mod n 8 ltac:(done)). pose proof (Z.div_mod b 8 ltac:(done)).
  pose proof (Z.mod_pos_bound n 8 ltac:(done)). pose proof (Z.mod_pos_bound b 8 ltac:(done)).
  unfold data_byte at 1. destruct (decide (b / 8 = n / 8)) as [E|E].
  - rewrite E, list_lookup_insert_eq by lia. cbn [default from_option id]. unfold u8.
    rewrite Z.mod_pow2_bits_low, Z.lor_spec, Z.shiftl_1_l, Z.pow2_bits_eqb by lia.
    destruct (Z.eqb_spec b n), (Z.eqb_spec (n mod 8) (b mod 8)); try lia; by rewrite ?orb_true_r, ?orb_false_r.
  - rewrite list_lookup_insert_ne by lia. destruct (Z.eqb_spec b n); [subst; done|done].
Qed.

Lemma bitmap_spec u b : 0 <= u <= 8192 -> 0 <= b < 8192 -> bit (data_byte (bitmap u) (b / 8)) (bitmask b) = (b <? u).
Proof.
  intros Hu Hb. unfold bitmask. rewrite bit_testbit by (apply Z.mod_pos_bound; done).
  enough (H : forall n, Z.of_nat n <= 8192 -> length (bitmap (Z.of_nat n)) = 1024%nat /\ forall b, 0 <= b < 8192 ->
    Z.testbit (data_byte (bitmap (Z.of_nat n)) (b / 8)) (b mod 8) = (b <? Z.of_nat n)).
  { destruct (H (Z.to_nat u)) as [_ Hbit]; [lia|]. rewrite Z2Nat.id in Hbit by lia. by apply Hbit. }
  clear. intros n. induction n as [|n IH]; intros Hn.
  - split; [done|]. intros b Hb. unfold bitmap, data_byte. simpl. unfold zeroes. change (Z.to_nat BSIZE) with 1024%nat.
    rewrite lookup_replicate_2 by (pose proof (Z.div_mod b 8 ltac:(done)); pose proof (Z.mod_pos_bound b 8 ltac:(done)); lia).
    simpl. rewrite Z.bits_0. symmetry. apply Z.ltb_ge. lia.
  - destruct IH as [Hl Hbit]; [lia|].
    assert (E : bitmap (Z.of_nat (S n)) = set_bit (bitmap (Z.of_nat n)) (Z.of_nat n))
      by (unfold bitmap; by rewrite seqZ_S, foldl_app).
    rewrite E. split; [apply (set_bit_spec _ _ 0); [done|lia|lia]|]. intros b Hb.
    rewrite (proj2 (set_bit_spec _ (Z.of_nat n) b Hl ltac:(lia) Hb)), Hbit by done.
    destruct (Z.eqb_spec b (Z.of_nat n)), (Z.ltb_spec b (Z.of_nat n)), (Z.ltb_spec b (Z.of_nat (S n))); done || lia.
Qed.

(** ** The image *)

(** The end of [main]: the size of the root directory is rounded up to a block
    more than it fills whole, which may add a block that is not there. *)
Definition rounded (n : nat) : nat := S (n / 1024).

(** The image [sec] holds [files]. *)
Record holds_files (sec : gmap Z (list Z)) (files : list (list Z * list (list Z))) : Prop := {
  hf_super : sb_of (sector sec 1) = the_sb;
  hf_log : sector sec 2 = zeroes;
  hf_root : din_type (inode_at sec ROOTINO) = T_DIR /\ din_nlink (inode_at sec ROOTINO) = 1 /\
    exists pad, file_bytes sec (inode_at sec ROOTINO) = root_entries ((fun f => shortname f.1) <$> files) ++ replicate pad 0;
  hf_files : forall i f, files !! i = Some f ->
    let din := inode_at sec (Z.of_nat i + 2) in din_type din = T_FILE /\ din_nlink din = 1 /\ file_bytes sec din = concat f.2;
  hf_sizes : forall i f, contents files !! i = Some f ->
    data_get 4 (inode_at sec (Z.of_nat i + 1)) 8 = Z.of_nat (if decide (i = 0%nat) then 1024 * rounded (length f.2) else length f.2);
  hf_sectors : forall i f j, contents files !! i = Some f -> (j < blocks_for (length f.2))%nat ->
    sector sec (file_block sec (inode_at sec (Z.of_nat i + 1)) j) = chunk f.2 j;
  hf_blocks : forall i f, contents files !! i = Some f ->
    let own := file_owns sec (inode_at sec (Z.of_nat i + 1)) (length f.2) in
    NoDup own /\ Forall (fun b => nmeta <= b < used (contents files)) own;
  hf_disjoint : forall i k f g b, contents files !! i = Some f -> contents files !! k = Some g ->
    b ∈ file_owns sec (inode_at sec (Z.of_nat i + 1)) (length f.2) ->
    b ∈ file_owns sec (inode_at sec (Z.of_nat k + 1)) (length g.2) -> i = k;
  hf_bitmap : forall b, 0 <= b < BPB ->
    bit (data_byte (sector sec (BBLOCK b the_sb)) (b / 8)) (bitmask b) = (b <? used (contents files))
}.

Lemma file_bytes_rounded sec din c bs ib :
  addressed sec din bs ib -> stored sec c bs -> length bs = blocks_for (length c) -> (length c < 1024 * 12)%nat ->
  sec !! 0 = Some zeroes ->
  file_bytes sec (set_din_size (Z.of_nat (1024 * rounded (length c))) din) =
  c ++ replicate (1024 * rounded (length c) - length c) 0.
Proof.
  intros Ha Hs Hl Hc H0. unfold file_bytes. set (m := rounded (length c)).
  assert (Hm : (1024 * m - 1024 <= length c < 1024 * m)%nat /\ (m <= 12)%nat).
  { unfold m, rounded. pose proof (Nat.div_mod (length c) 1024 ltac:(done)).
    pose proof (Nat.mod_upper_bound (length c) 1024 ltac:(done)). lia. }
  destruct (size_fields din (Z.of_nat (1024 * m)) 0) as (_ & _ & _ & -> & _); [apply Ha|lia|lia|]. rewrite Nat2Z.id.
  assert (Hbm : blocks_for (1024 * m) = m) by (apply blocks_for_unique; lia). rewrite Hbm.
  pose proof (blocks_for_spec (length c)) as Hbs.
  assert (Ha' : addressed sec (set_din_size (Z.of_nat (1024 * m)) din) bs ib) by (apply addressed_size; [done|lia]).
  set (din' := set_din_size _ _) in *. clearbody din'.
  assert (E : (fun j => sector sec (file_block sec din' j)) <$> seq 0 m = chunk c <$> seq 0 m).
  { apply list_fmap_ext. intros k j Hk. apply lookup_seq in Hk as [-> Hk]. simpl. destruct (bs !! k) as [b|] eqn:Eb.
    - rewrite (addressed_block _ _ _ _ _ _ Ha' Eb). unfold sector. by rewrite (Hs _ _ Eb).
    - apply lookup_ge_None_1 in Eb as Hge. unfold file_block. destruct (Nat.ltb_spec k 12); [|lia].
      rewrite (ad_direct _ _ _ _ Ha') by done. rewrite Eb. simpl (default 0 None). unfold sector. rewrite H0.
      by rewrite chunk_after by lia. }
  rewrite E, concat_chunks by lia. apply take_ge. rewrite length_app, length_replicate. lia.
Qed.

Section finish.
Context (files : list (list Z * list (list Z))) (s : image) (bsl : list (list Z * Z)) (Hfs : fs_ok (contents files) s bsl).
Definition root : list Z := root_entries ((fun f => shortname f.1) <$> files).
Definition root_inode : list Z := set_din_size (Z.of_nat (1024 * rounded (length root))) (inode_at (sectors s) ROOTINO).
Definition final : gmap Z (list Z) := <[45 := bitmap (used (contents files))]> (put_inode (sectors s) ROOTINO root_inode).

Lemma root_small : (length root <= 3200)%nat /\ (rounded (length root) <= 4)%nat.
Proof using Hfs.
  pose proof (fs_count _ _ _ Hfs) as H. unfold contents, NINODES in H. simpl in H. rewrite length_fmap in H.
  assert (Hl : (length root <= 3200)%nat) by (unfold root; rewrite length_root, length_fmap; lia). split; [done|].
  unfold rounded. pose proof (Nat.div_mod (length root) 1024 ltac:(done)).
  pose proof (Nat.mod_upper_bound (length root) 1024 ltac:(done)). lia.
Qed.
Lemma final_blocks b : 46 <= b \/ b < 32 -> final !! b = sectors s !! b.
Proof using.
  intros Hb. unfold final. rewrite lookup_insert_ne by lia. apply put_inode_other; [done|lia].
Qed.
Lemma final_inode k f own : contents files !! k = Some f -> bsl !! k = Some own ->
  k <> 0%nat -> file_ok final (inode_at final (Z.of_nat k + 1)) f own.
Proof using Hfs.
  intros Hf Ho Hk. pose proof (inum_range _ _ _ Hfs _ _ Hf) as Hin. destruct (IBLOCK_range _ Hin).
  assert (E : inode_at final (Z.of_nat k + 1) = inode_at (sectors s) (Z.of_nat k + 1)).
  { unfold final. rewrite (inode_at_ext (put_inode (sectors s) ROOTINO root_inode)) by (apply lookup_insert_ne; lia).
    unfold root_inode. rewrite inode_at_put_ne; [done|apply Hfs|done|done|unfold ROOTINO; lia|].
    pose proof root_small. apply (size_fields _ _ 0); [|lia|lia]. by apply length_inode_at; [apply Hfs|]. }
  rewrite E. apply (file_ok_frame (sectors s)); [|by apply (fs_files _ _ _ Hfs)]. intros b Hb. apply final_blocks.
  pose proof (fs_range _ _ _ Hfs _ _ _ Ho Hb) as [? _]. change nmeta with 46 in *. lia.
Qed.

Lemma final_root : inode_at final ROOTINO = root_inode.
Proof using Hfs.
  unfold final. rewrite (inode_at_ext (put_inode (sectors s) ROOTINO root_inode)) by (apply lookup_insert_ne; done).
  pose proof root_small. apply inode_at_put_eq; [apply Hfs|done|]. unfold root_inode. apply (size_fields _ _ 0); [|lia|lia].
  by apply length_inode_at; [apply Hfs|].
Qed.
Lemma root_file own : bsl !! 0%nat = Some own -> file_ok final (inode_at (sectors s) ROOTINO) (T_DIR, root) own.
Proof using Hfs.
  intros Ho. apply (file_ok_frame (sectors s)); [|by apply (fs_files _ _ _ Hfs 0%nat)]. intros b Hb. apply final_blocks.
  pose proof (fs_range _ _ _ Hfs _ _ _ Ho Hb) as [? _]. change nmeta with 46 in *. lia.
Qed.
Lemma final_addressed k f own : contents files !! k = Some f -> bsl !! k = Some own ->
  addressed final (inode_at final (Z.of_nat k + 1)) own.1 own.2 /\ NoDup (owned own.1 own.2) /\ length own.1 = blocks_for (length f.2).
Proof using Hfs.
  intros Hf Ho. destruct k as [|k].
  - injection Hf as <-. destruct (root_file own Ho) as [Ha _ Hb Hn _ _ _ _ _]. split_and!; [|done|done].
    change (Z.of_nat 0 + 1) with ROOTINO. rewrite final_root. apply addressed_size; [done|]. pose proof root_small. lia.
  - destruct (final_inode _ _ _ Hf Ho ltac:(done)). done.
Qed.
Lemma final_owns k f : contents files !! k = Some f ->
  exists own, bsl !! k = Some own /\ NoDup (owned own.1 own.2) /\
    file_owns final (inode_at final (Z.of_nat k + 1)) (length f.2) = owned own.1 own.2.
Proof using Hfs.
  intros Hf. destruct (lookup_lt_is_Some_2 bsl k) as [own Ho]; [rewrite (fs_len _ _ _ Hfs); by eapply lookup_lt_Some|].
  destruct (final_addressed _ _ _ Hf Ho) as (Ha & Hn & Hb). exists own. split_and!; [done|done|]. by apply addressed_owns.
Qed.

Lemma final_sectors k f j : contents files !! k = Some f -> (j < blocks_for (length f.2))%nat ->
  sector final (file_block final (inode_at final (Z.of_nat k + 1)) j) = chunk f.2 j.
Proof using Hfs.
  intros Hf Hj. destruct (lookup_lt_is_Some_2 bsl k) as [own Ho]; [rewrite (fs_len _ _ _ Hfs); by eapply lookup_lt_Some|].
  destruct (final_addressed _ _ _ Hf Ho) as (Ha & _ & Hb). rewrite <- Hb in Hj. destruct (lookup_lt_is_Some_2 own.1 j Hj) as [b Eb].
  assert (Hs : stored final f.2 own.1).
  { destruct k as [|k]; [injection Hf as <-; exact (fo_stored _ _ _ _ (root_file own Ho))|].
    exact (fo_stored _ _ _ _ (final_inode _ _ _ Hf Ho ltac:(done))). }
  rewrite (addressed_block _ _ _ _ _ _ Ha Eb). unfold sector. by rewrite (Hs _ _ Eb).
Qed.
Lemma final_sizes k f : contents files !! k = Some f ->
  data_get 4 (inode_at final (Z.of_nat k + 1)) 8 = Z.of_nat (if decide (k = 0%nat) then 1024 * rounded (length f.2) else length f.2).
Proof using Hfs.
  intros Hf. destruct (lookup_lt_is_Some_2 bsl k) as [own Ho]; [rewrite (fs_len _ _ _ Hfs); by eapply lookup_lt_Some|].
  case_decide as Hk; [|exact (fo_raw _ _ _ _ (final_inode _ _ _ Hf Ho Hk))]. subst k. injection Hf as <-.
  change (Z.of_nat 0 + 1) with ROOTINO. rewrite final_root. pose proof root_small. apply raw_size; [apply (root_file own Ho)|]. cbn [snd]. fold root. lia.
Qed.

Lemma final_holds : holds_files final files.
Proof using Hfs.
  split; [| | | |exact final_sizes|exact final_sectors|..].
  - unfold sector. rewrite final_blocks by lia. rewrite (fs_super _ _ _ Hfs). done.
  - unfold sector. rewrite final_blocks by lia. rewrite (fs_log _ _ _ Hfs). done.
  - destruct (lookup_lt_is_Some_2 bsl 0) as [own Ho]; [rewrite (fs_len _ _ _ Hfs); simpl; lia|].
    destruct (root_file own Ho) as [Ha Hs Hb _ Ht Hnl _ _ _]. cbn [fst snd] in *. pose proof root_small.
    rewrite final_root. unfold root_inode. split_and!; [| |eexists; apply (file_bytes_rounded _ _ root own.1 own.2); [done|done|done|lia|]].
    + destruct (size_fields (inode_at (sectors s) ROOTINO) (Z.of_nat (1024 * rounded (length root))) 0) as (_ & -> & _); [apply Ha|lia|lia|done].
    + destruct (size_fields (inode_at (sectors s) ROOTINO) (Z.of_nat (1024 * rounded (length root))) 0) as (_ & _ & -> & _); [apply Ha|lia|lia|done].
    + rewrite final_blocks by lia. apply (fs_boot _ _ _ Hfs).
  - intros i f Hf. assert (Hc : contents files !! S i = Some (a_file f)) by (simpl; by rewrite list_lookup_fmap, Hf).
    destruct (lookup_lt_is_Some_2 bsl (S i)) as [own Ho]; [rewrite (fs_len _ _ _ Hfs); by eapply lookup_lt_Some|].
    replace (Z.of_nat i + 2) with (Z.of_nat (S i) + 1) by lia.
    destruct (final_inode _ _ _ Hc Ho ltac:(done)) as [Ha Hs Hb _ Ht Hn Hz _ _]. cbn [fst snd a_file] in *.
    split_and!; [done|done|by eapply file_bytes_stored].
  - intros i f Hf. destruct (final_owns _ _ Hf) as (own & Ho & Hn & ->). split; [done|]. apply list.Forall_forall.
    intros b Hb. by eapply (fs_range _ _ _ Hfs).
  - intros i k f g b Hf Hg Hb Hb'. destruct (final_owns _ _ Hf) as (own & Ho & _ & E). destruct (final_owns _ _ Hg) as (own' & Ho' & _ & E').
    rewrite E in Hb. rewrite E' in Hb'. by eapply (fs_disjoint _ _ _ Hfs).
  - intros b Hb. change BPB with 8192 in Hb. unfold BBLOCK. change BPB with 8192. rewrite Z.div_small by done.
    change (u32 (0 + sb_bmapstart the_sb)) with 45. unfold final, sector. rewrite lookup_insert_eq. simpl (default [] _).
    pose proof (fs_bound _ _ _ Hfs). pose proof (used_ge (contents files)). unfold FSSIZE in *. apply bitmap_spec; lia.
Qed.

Lemma finish_ok :
  wp (let! din := rinode ROOTINO in
      let off := (din_size din / BSIZE + 1) * BSIZE in
      do! winode ROOTINO (set_din_size off din) in
      let! used := gets freeblock in
      balloc used) (fun _ s' => holds_files (sectors s') files) s.
Proof using Hfs.
  apply wp_bind. apply wp_rinode; [apply Hfs|done|]. cbv zeta.
  destruct (lookup_lt_is_Some_2 bsl 0) as [own Ho]; [rewrite (fs_len _ _ _ Hfs); simpl; lia|].
  rewrite (fo_size _ _ _ _ (root_file own Ho)). cbn [snd].
  replace ((Z.of_nat (length root) / BSIZE + 1) * BSIZE) with (Z.of_nat (1024 * rounded (length root))).
  2: { unfold rounded, BSIZE. pose proof (Nat2Z.inj_div (length root) 1024). lia. }
  apply wp_bind. apply wp_winode; [apply Hfs|done|]. apply wp_bind. apply wp_gets. simpl (freeblock _).
  rewrite (fs_freeblock _ _ _ Hfs). unfold balloc. pose proof (fs_bound _ _ _ Hfs). unfold FSSIZE in *.
  destruct (Z.ltb_spec (used (contents files)) (BSIZE * 8)); [|unfold BSIZE in *; lia]. cbn [negb].
  apply wp_modify. exact final_holds.
Qed.
End finish.

(** The empty image, and the root directory with its first two entries. *)
Lemma start_ok (K : M image unit) Q s :
  (forall s1, fs_ok [] s1 [] -> wp K Q s1) ->
  wp (do! modify (fun s => mk_image (sectors s) 1 nmeta) in
      do! for_all (seqZ 0 FSSIZE) (fun i => wsect i zeroes) in
      do! wsect 1 (data_put (sb_bytes the_sb) 0 zeroes) in K) Q s.
Proof.
  intros HQ. apply wp_bind. apply wp_modify. apply wp_bind.
  apply (wp_for_all _ (fun rest s => exists k, 0 <= k <= FSSIZE /\ rest = seqZ k (FSSIZE - k) /\ freeinode s = 1 /\ freeblock s = nmeta /\
    forall b, 0 <= b < k -> sectors s !! b = Some zeroes)).
  - intros b bs s1 (k & Hk & Hb & Hi & Hf & Hz). destruct (decide (k < FSSIZE)).
    + rewrite seqZ_cons in Hb by lia. injection Hb as -> ->. apply wp_modify. exists (k + 1). simpl.
      split_and!; [lia|lia|f_equal; lia|done|done|]. intros b Hb. destruct (decide (b = k)) as [->|]; [by rewrite lookup_insert_eq|].
      rewrite lookup_insert_ne by done. apply Hz. lia.
    + by rewrite seqZ_nil in Hb by lia.
  - intros s1 (k & Hk & Hb & Hi & Hf & Hz). assert (k = FSSIZE) as ->.
    { destruct (decide (k = FSSIZE)); [done|]. rewrite seqZ_cons in Hb by lia. done. }
    apply wp_bind. apply wp_modify. apply HQ. unfold FSSIZE in *.
    assert (H2 : forall b, 2 <= b < 2000 -> <[1 := data_put (sb_bytes the_sb) 0 zeroes]> (sectors s1) !! b = Some zeroes)
      by (intros b ?; rewrite lookup_insert_ne by lia; apply Hz; lia).
    split; simpl; try done.
    + intros inum Hin. destruct (IBLOCK_range inum Hin). exists zeroes. split; [|done]. apply H2. lia.
    + intros b Hb'. apply H2. change nmeta with 46 in Hb'. unfold FSSIZE in Hb'. lia.
    + rewrite lookup_insert_ne by done. by apply Hz.
    + by apply H2.
    + by rewrite lookup_insert_eq.
  - exists 0. split_and!; try done. intros b ?. lia.
Qed.

Lemma root_ok s bsl (K : M image unit) Q :
  fs_ok [(T_DIR, [])] s bsl -> (forall s1 bsl1, fs_ok (contents []) s1 bsl1 -> wp K Q s1) ->
  wp (do! iappend ROOTINO (dirent ROOTINO (bytes_of ".")) in
      do! iappend ROOTINO (dirent ROOTINO (bytes_of "..")) in K) Q s.
Proof.
  intros H HK. assert (Hu : forall c, (length c <= 1024)%nat -> used [(T_DIR, c)] <= FSSIZE).
  { intros c Hc. rewrite used_cons. cbn [snd]. pose proof (cost_mono _ _ (blocks_for_mono _ _ Hc)) as Hm.
    change (cost (blocks_for 1024)) with 1 in Hm. change (used []) with 46. unfold FSSIZE. lia. }
  set (d1 := dirent ROOTINO (bytes_of ".")). set (d2 := dirent ROOTINO (bytes_of "..")).
  assert (H1 : length d1 = 16%nat) by apply length_dirent. assert (H2 : length d2 = 16%nat) by apply length_dirent.
  apply wp_bind. eapply wp_conseq; [apply (iappend_ok _ _ _ 0 T_DIR [] d1 H); [done|cbn [length]; lia|apply (Hu d1); lia]|].
  intros _ s1 [bsl1 Hs1]. apply wp_bind. eapply wp_conseq.
  { apply (iappend_ok _ _ _ 0 T_DIR d1 d2 Hs1); [done|lia|apply (Hu (d1 ++ d2)); rewrite length_app; lia]. }
  intros _ s2 [bsl2 Hs2]. eapply HK. unfold contents, root_entries. cbn [fmap list_fmap imap concat]. rewrite app_nil_r. exact Hs2.
Qed.

Lemma mkfs_wp files s : fits files ->
  wp (mkfs ((fun f => (f.1, Some f.2)) <$> files)) (fun _ s' => holds_files (sectors s') files) s.
Proof.
  intros [Hn Hs Hi Hb]. unfold mkfs. apply start_ok. intros s1 H1. apply wp_bind.
  eapply wp_conseq; [apply (ialloc_ok _ _ _ T_DIR H1); done|]. intros inum s2 (-> & bsl2 & H2).
  change (Z.of_nat (length []) + 1) with ROOTINO. rewrite Z.eqb_refl. cbn [negb].
  eapply root_ok; [exact H2|]. intros s3 bsl3 H3. apply wp_bind.
  apply (wp_for_all _ (fun rest s => exists files1 files2 bsl, files = files1 ++ files2 /\
    rest = (fun f => (f.1, Some f.2)) <$> files2 /\ fs_ok (contents files1) s bsl)).
  - intros x xs s4 (files1 & [|f files2] & bsl & -> & E & H4); [done|]. injection E as -> ->. cbn [fst snd].
    rewrite cons_middle, (assoc_L (++)) in Hb. apply Forall_app in Hn as [_ Hn]. apply Forall_app in Hs as [_ Hs].
    apply list.Forall_cons in Hn as [Hn _]. apply list.Forall_cons in Hs as [Hs _].
    eapply wp_conseq; [apply (add_file_ok files1 f Hn Hs) with (bsl := bsl); [|pose proof (used_prefix (files1 ++ [f]) files2); lia|done]|].
    + rewrite length_app in Hi. simpl in Hi. lia.
    + intros _ s5 [bsl5 H5]. exists (files1 ++ [f]), files2, bsl5. by rewrite <- (assoc_L (++)).
  - intros s4 (files1 & files2 & bsl & -> & E & H4). destruct files2; [|done]. rewrite app_nil_r. by eapply finish_ok.
  - by exists [], files, bsl3.
Qed.

(** [C12] The image holds the files: on arguments that fit, [mkfs] returns
    without a failed assertion, whatever pieces [read] delivers and whatever
    the image file held before, and on the image the super block is the one the
    kernel reads, the root directory lists [.], [..] and every file under its
    short name and inode, each inode holds exactly its file's bytes through its
    direct and indirect blocks, no block belongs to two files or twice to one,
    and the bitmap marks exactly the blocks before the first free one, which
    are the metadata and the blocks of the files. *)
Theorem mkfs_image_holds_files files s :
  fits files ->
  exists s', mkfs ((fun f => (f.1, Some f.2)) <$> files) s = Ret tt s' /\ holds_files (sectors s') files.
Proof.
  intros Hf. assert (H : wp (mkfs ((fun f => (f.1, Some f.2)) <$> files)) (fun _ s' => holds_files (sectors s') files) s) by exact (mkfs_wp files s Hf).
  apply wp_inv in H as ([] & s' & E & H). eauto.
Qed.

(** Two files, one read in two pieces. *)
Module MkfsSample.
Definition sample : list (list Z * list (list Z)) :=
  [(bytes_of "user/_cat", [bytes_of "first "; bytes_of "second"]); (bytes_of "README", [])].

Lemma mkfs_image_holds_files_witness :
  exists s', mkfs ((fun f => (f.1, Some f.2)) <$> sample) (mk_image ∅ 0 0) = Ret tt s' /\ holds_files (sectors s') sample.
Proof.
  apply (mkfs_image_holds_files sample (mk_image ∅ 0 0)). split.
  - apply (bool_decide_unpack _). vm_compute. exact I.
  - unfold sample. apply Forall_cons; [|apply Forall_cons; [|constructor]]; cbn [snd]; [change (length _) with 12%nat|change (length _) with 0%nat]; lia.
  - done.
  - vm_compute. discriminate.
Defined.
End MkfsSample.
