(* ===== verification/FsRead.v ===== *)
(** * Reading files

    What the reading half of [kernel/fs.c] does on the contents [V] that the
    buffer cache stands for: the block map of an inode, [readi], [ilock] and
    the inode table, [dirlookup], and the resolution of path names. *)

From S2P Require Import Prelude Riscv Memory Machine Spinlock Kalloc Vm Kernel Klock KSample Cstring Printf Proc Sched ProcSpec.
From S2P Require Import Sleeplock SleepSpec Bio Lru BioSpec Log LogSpec Fs.

(** One of the pieces, all of length [n], of a list. *)
Lemma slice_concat {A} (ls : list (list A)) n t d :
  Forall (fun l => length l = n) ls -> ls !! t = Some d -> take n (drop (n * t) (concat ls)) = d.
Proof.
  intros Hl. revert t. induction Hl as [|l ls El _ IH]; intros [|t] Hd; [done|done|..]; simpl in Hd; cbn [concat].
  - injection Hd as ->. rewrite Nat.mul_0_r, drop_0, take_app_le, take_ge by lia. done.
  - rewrite <- (IH t Hd). replace (n * S t)%nat with (length l + n * t)%nat by lia. by rewrite drop_app_add.
Qed.

(** ** The bytes of a file *)

(** The block of bytes [1024 j ...] of an inode, 0 when there is none. *)
Definition iblock (V : Z -> list Z) (ip : inode) (j : nat) : Z :=
  if (j <? 12)%nat then default 0 (i_addrs ip !! j)
  else data_get 4 (V (default 0 (i_addrs ip !! 12%nat))) (4 * (Z.of_nat j - NDIRECT)).
Definition mapped (V : Z -> list Z) (ip : inode) (j : nat) : Prop :=
  (j < 268)%nat /\ iblock V ip j <> 0 /\ ((12 <= j)%nat -> default 0 (i_addrs ip !! 12%nat) <> 0) /\
  length (V (iblock V ip j)) = 1024%nat.

Definition ibyte (V : Z -> list Z) (ip : inode) (o : nat) : Z :=
  default 0 (V (iblock V ip (o / 1024)) !! (o mod 1024)%nat).
Definition ibytes (V : Z -> list Z) (ip : inode) (off n : nat) : list Z := ibyte V ip <$> seq off n.

Lemma length_ibytes V ip off n : length (ibytes V ip off n) = n.
Proof. unfold ibytes. by rewrite length_fmap, length_seq. Qed.
Lemma ibytes_app V ip off n m : ibytes V ip off (n + m) = ibytes V ip off n ++ ibytes V ip (off + n) m.
Proof. unfold ibytes. by rewrite seq_app, fmap_app. Qed.

(** A part of one block. *)
Lemma ibytes_block V ip off n :
  length (V (iblock V ip (off / 1024))) = 1024%nat -> (off mod 1024 + n <= 1024)%nat ->
  take n (drop (off mod 1024) (V (iblock V ip (off / 1024)))) = ibytes V ip off n.
Proof.
  intros Hl Hn. pose proof (Nat.div_mod off 1024 ltac:(done)) as Hd. apply list_eq. intros i. unfold ibytes. rewrite list_lookup_fmap.
  destruct (decide (i < n)%nat) as [Hi|Hi].
  - rewrite lookup_take_lt, lookup_drop, lookup_seq_lt by done. cbn [fmap option_fmap option_map]. unfold ibyte.
    assert (E : ((off + i) / 1024 = off / 1024 /\ (off + i) mod 1024 = off mod 1024 + i)%nat).
    { replace (off + i)%nat with (off mod 1024 + i + (off / 1024) * 1024)%nat by lia.
      rewrite Nat.div_add, Nat.Div0.mod_add by lia. rewrite Nat.div_small, Nat.mod_small by lia. lia. }
    destruct E as [-> ->].
    destruct (lookup_lt_is_Some_2 (V (iblock V ip (off / 1024))) (off mod 1024 + i)) as [x ->]; [lia|]. done.
  - rewrite lookup_take_ge, lookup_seq_ge by lia. done.
Qed.

(** ** Accesses *)

Lemma get_inode_eq i k ip : inodes k !! i = Some ip -> get_inode i k = Ret ip k.
Proof. intros E. unfold get_inode, idx_get. by rewrite E. Qed.
Lemma wp_get_inode i k ip Q : inodes k !! i = Some ip -> Q ip k -> wp (get_inode i) Q k.
Proof. intros E HQ. eapply wp_eq; [by apply get_inode_eq|done]. Qed.
Lemma wp_addr_get i bn k ip a Q : inodes k !! i = Some ip -> 0 <= bn -> i_addrs ip !! Z.to_nat bn = Some a -> Q a k -> wp (addr_get i bn) Q k.
Proof.
  intros E H0 Ha HQ. apply wp_bind. eapply wp_get_inode; [done|]. unfold wp, arr_get. destruct (Z.ltb_spec bn 0); [lia|]. by rewrite Ha.
Qed.

Section read.
Context {KI : KernelImage} {C : Config} {D : BlockDevice} {DL : Disk}.
Context (me : nat) (pid dev : Z) (P dirty : gset Z) (V : Z -> list Z).
Context (Hroom : (size P < NBUF)%nat) (Hdirty : dirty ⊆ P).

#[local] Notation cache := (cache me pid dev).
#[local] Notation went := (went me pid dev).

(** Nothing but the cache moved. *)
Definition looked (k k' : kernel) : Prop := went k ∅ P dirty V [] k'.

Lemma looked_refl k : cache ∅ P dirty V k -> looked k k.
Proof using. apply went_refl. Qed.
Lemma looked_trans k1 k2 k3 : looked k1 k2 -> looked k2 k3 -> looked k1 k3.
Proof using. intros H1 H2. exact (went_trans H1 H2). Qed.
Lemma looked_cache k k' : looked k k' -> cache ∅ P dirty V k'.
Proof using. by intros []. Qed.
Lemma looked_inodes k k' : looked k k' -> inodes k' = inodes k /\ ksb k' = ksb k.
Proof using. intros [_ [E _] _]. unfold others in E. by injection E. Qed.

(** With block [n] in buffer [b]. *)
Definition holding (k : kernel) (b : nat) (n : Z) (k' : kernel) : Prop := went k {[b := n]} P dirty V [] k'.

Lemma open_block n k :
  cache ∅ P dirty V k -> wp (bread dev n) (fun b k' => holding k b n k') k.
Proof using Hroom DL.
  intros Hc. eapply wp_conseq; [apply (bread_ok Hc n)|].
  - intros i. by rewrite lookup_empty.
  - right. rewrite map_size_empty. lia.
  - by intros b k1 [_ W1].
Qed.
Lemma held_data k b n k' : holding k b n k' -> exists x, get_buf b k' = Ret x k' /\ b_data x = V n.
Proof using.
  intros W. destruct (get_held (we_cache W) b n) as (x & Ex & _ & Ed); [apply lookup_singleton_eq|eauto].
Qed.
Lemma close_block k b n k' : holding k b n k' -> wp (brelse b) (fun _ k2 => looked k k2) k'.
Proof using DL Hdirty.
  intros W. eapply wp_conseq; [apply (brelse_ok (we_cache W) b n); [apply lookup_singleton_eq|set_solver +Hdirty]|cbv beta].
  intros _ k2 W2. pose proof (went_trans W W2) as W3. rewrite delete_singleton_eq in W3. exact W3.
Qed.
Lemma holding_inodes k b n k' : holding k b n k' -> inodes k' = inodes k /\ ksb k' = ksb k.
Proof using. intros [_ [E _] _]. unfold others in E. by injection E. Qed.

(** [bmap] on a block that is there. *)
Lemma bmap_ok i ip j k :
  cache ∅ P dirty V k -> inodes k !! i = Some ip -> i_dev ip = dev -> length (i_addrs ip) = 13%nat -> mapped V ip j ->
  wp (bmap i (Z.of_nat j)) (fun a k' => a = iblock V ip j /\ looked k k') k.
Proof using Hroom DL Hdirty.
  intros Hc Hi Hdev Hla (Hj & Hnz & Hind & _). unfold bmap. apply wp_bind. eapply wp_get_inode; [done|].
  unfold iblock in *. destruct (Nat.ltb_spec j 12) as [Hd|Hd].
  - destruct (Z.ltb_spec (Z.of_nat j) NDIRECT) as [_|?]; [|unfold NDIRECT in *; lia].
    destruct (lookup_lt_is_Some_2 (i_addrs ip) j) as [a Ea]; [lia|]. rewrite Ea in *. change (default 0 (Some a)) with a in *.
    apply wp_bind. eapply wp_addr_get; [done|lia|by rewrite Nat2Z.id|]. destruct (Z.eqb_spec a 0); [contradiction|].
    apply wp_ret. split; [done|by apply looked_refl].
  - destruct (Z.ltb_spec (Z.of_nat j) NDIRECT) as [?|_]; [unfold NDIRECT in *; lia|].
    destruct (Z.ltb_spec (Z.of_nat j - NDIRECT) NINDIRECT) as [_|Hx]; [|change NINDIRECT with 256 in Hx; unfold NDIRECT in *; lia].
    specialize (Hind Hd). destruct (lookup_lt_is_Some_2 (i_addrs ip) 12) as [a Ea]; [lia|]. rewrite Ea in *.
    change (default 0 (Some a)) with a in *. apply wp_bind. eapply wp_addr_get; [done|done|done|].
    destruct (Z.eqb_spec a 0) as [|Ha]; [contradiction|]. apply wp_bind. apply wp_ret. destruct (Z.eqb_spec a 0) as [|_]; [contradiction|]. rewrite Hdev.
    apply wp_bind. eapply wp_conseq; [by apply open_block|]. intros b k1 W1. destruct (held_data _ _ _ _ W1) as (x & Ex & Ed).
    apply wp_bind. eapply wp_eq; [exact Ex|]. rewrite Ed. destruct (Z.eqb_spec (data_get 4 (V a) (4 * (Z.of_nat j - NDIRECT))) 0); [contradiction|].
    apply wp_bind. apply wp_ret. apply wp_bind. eapply wp_conseq; [eapply close_block; exact W1|cbv beta].
    intros _ k2 L2. apply wp_ret. exact (conj eq_refl L2).
Qed.

Lemma holding_touch k b n k' : holding k b n k' -> holding k b n (upd_mach touch k').
Proof using. intros [Hc Hf Hd]. split; [by apply cache_touch|done|done]. Qed.

Lemma copyout_obj k b n k' bs Q : holding k b n k' -> Q 0 (upd_mach touch k') -> wp (either_copyout DObj bs) Q k'.
Proof using.
  intros W HQ. unfold either_copyout. apply wp_bind. eapply wp_eq; [apply myproc_eq|exact HQ].
  apply (th_table _ _ _ (ca_thread _ _ _ _ _ _ _ _ (we_cache W))).
Qed.

(** One round of [readi]'s loop. *)
Section readi.
Context (i : nat) (ip : inode) (k : kernel) (off n : nat).
Context (Hc : cache ∅ P dirty V k) (Hi : inodes k !! i = Some ip) (Hdev : i_dev ip = dev) (Hla : length (i_addrs ip) = 13%nat).
Context (Hmap : forall j, (off / 1024 <= j)%nat -> (1024 * j < off + n)%nat -> mapped V ip j) (Hmax : Z.of_nat (off + n) < 2 ^ 31).

Definition readi_step (st : Z * Z * dest * list Z) : M kernel (Z * Z * dest * list Z + Z * list Z) :=
  let '(tot, off, dst, out) := st in
  if tot <? Z.of_nat n then
    let! addr := bmap i (off / BSIZE) in
    if addr =? 0 then ret (inr (s32 tot, out)) else
    let! ip := get_inode i in
    let! bp := bread (i_dev ip) addr in
    let m := Z.min (Z.of_nat n - tot) (BSIZE - off mod BSIZE) in
    let! x := get_buf bp in
    let chunk := take (Z.to_nat m) (drop (Z.to_nat (off mod BSIZE)) (b_data x)) in
    let! r := either_copyout dst chunk in
    do! brelse bp in
    if r =? -1 then ret (inr (-1, out)) else
    ret (inl (tot + m, u32 (off + m), dest_add dst m, out ++ chunk))
  else ret (inr (s32 tot, out)).

Definition reading (t : nat) (st : Z * Z * dest * list Z) (k' : kernel) : Prop :=
  (t <= n)%nat /\ st = (Z.of_nat t, Z.of_nat (off + t), DObj, ibytes V ip off t) /\ looked k k'.

Lemma readi_step_ok t st k1 : reading t st k1 -> wp (readi_step st) (fun r k2 =>
  match r with
  | inl st' => exists t', reading t' st' k2 /\ 0 <= Z.of_nat n - Z.of_nat t' < Z.of_nat n - Z.of_nat t
  | inr x => x = (Z.of_nat n, ibytes V ip off n) /\ looked k k2
  end) k1.
Proof using Hroom DL Hdirty Hi Hdev Hla Hmap Hmax.
  intros (Ht & -> & L1). unfold readi_step. destruct (Z.ltb_spec (Z.of_nat t) (Z.of_nat n)) as [Hlt|Hge].
  2: { apply wp_ret. assert (t = n) as -> by lia. rewrite s32_small by lia. done. }
  pose proof (looked_cache _ _ L1) as C1. destruct (looked_inodes _ _ L1) as [I1 _].
  set (o := (off + t)%nat). pose proof (Nat.div_mod o 1024 ltac:(done)) as Hdm. pose proof (Nat.mod_upper_bound o 1024 ltac:(done)) as Hmb.
  assert (Eo : Z.of_nat o / BSIZE = Z.of_nat (o / 1024)) by (unfold BSIZE; by rewrite Nat2Z.inj_div).
  assert (Em : Z.of_nat o mod BSIZE = Z.of_nat (o mod 1024)) by (unfold BSIZE; by rewrite Nat2Z.inj_mod).
  rewrite Eo, Em. assert (Hm : mapped V ip (o / 1024)).
  { apply Hmap; [apply Nat.Div0.div_le_mono; unfold o; lia|]. unfold o in *. lia. }
  apply wp_bind. eapply wp_conseq; [apply (bmap_ok i ip (o / 1024) k1); [done|by rewrite I1|done..]|].
  intros a k2 [-> L2]. destruct (Z.eqb_spec (iblock V ip (o / 1024)) 0) as [Ez|_]; [destruct Hm as (_ & Hnz & _); contradiction|].
  destruct (looked_inodes _ _ L2) as [I2 _]. apply wp_bind. eapply wp_get_inode; [by rewrite I2, I1|]. rewrite Hdev.
  apply wp_bind. eapply wp_conseq; [apply open_block; by eapply looked_cache|]. intros b k3 W3.
  destruct (held_data _ _ _ _ W3) as (x & Ex & Ed). set (m := Z.min _ _). apply wp_bind. eapply wp_eq; [exact Ex|]. rewrite Ed, Nat2Z.id.
  assert (Hmr : 0 < m <= Z.of_nat n - Z.of_nat t /\ (o mod 1024 + Z.to_nat m <= 1024)%nat) by (unfold m, BSIZE; lia).
  rewrite ibytes_block by (apply Hm || lia). apply wp_bind. eapply copyout_obj; [exact W3|].
  apply wp_bind. eapply wp_conseq; [eapply close_block; exact (holding_touch _ _ _ _ W3)|cbv beta]. intros _ k4 L4. cbn [Z.eqb].
  apply wp_ret. exists (t + Z.to_nat m)%nat. split; [|lia]. split_and!; [lia| |].
  - unfold dest_add. rewrite ibytes_app. rewrite u32_small by (unfold o; lia). repeat f_equal; unfold o; lia.
  - exact (looked_trans _ _ _ L1 (looked_trans _ _ _ L2 L4)).
Qed.
End readi.

(** [readi] into a kernel object. *)
Lemma readi_ok i ip k (off n m : nat) :
  cache ∅ P dirty V k -> inodes k !! i = Some ip -> i_dev ip = dev -> length (i_addrs ip) = 13%nat ->
  Z.of_nat off <= i_size ip < 2 ^ 31 -> Z.of_nat (off + n) < 2 ^ 32 -> m = Nat.min n (Z.to_nat (i_size ip) - off) ->
  (forall j, (off / 1024 <= j)%nat -> (1024 * j < off + m)%nat -> mapped V ip j) ->
  wp (readi i DObj (Z.of_nat off) (Z.of_nat n)) (fun r k' => r = (Z.of_nat m, ibytes V ip off m) /\ looked k k') k.
Proof using Hroom DL Hdirty.
  intros Hc Hi Hdev Hla Hoff Hn Hm Hmap. unfold readi. apply wp_bind. eapply wp_get_inode; [done|].
  rewrite u32_small by lia. destruct (Z.ltb_spec (i_size ip) (Z.of_nat off)); [lia|].
  destruct (Z.ltb_spec (Z.of_nat off + Z.of_nat n) (Z.of_nat off)); [lia|]. cbn [orb].
  replace (if i_size ip <? Z.of_nat off + Z.of_nat n then u32 (i_size ip - Z.of_nat off) else Z.of_nat n) with (Z.of_nat m).
  2: { destruct (Z.ltb_spec (i_size ip) (Z.of_nat off + Z.of_nat n)); [rewrite u32_small by lia|]; lia. }
  apply (wp_while_ghost (readi_step i m) (reading ip k off m) (fun t => Z.of_nat m - Z.of_nat t) _ 0%nat).
  - intros t st k1 Hr. apply (readi_step_ok i ip k off m Hi Hdev Hla Hmap); [lia|done].
  - split_and!; [lia| |by apply looked_refl]. by rewrite Nat.add_0_r.
  - lia.
Qed.
End read.
