(* ===== verification/Inodes.v ===== *)
(** * The inode table

    The table of in-memory inodes as a multiset of references: [iget] adds one
    reference to an inode number, [iput] takes one away, [ilock] makes the
    fields those of the disk. *)

From stdpp Require Import gmultiset.
From S2P Require Import Prelude Riscv Memory Machine Spinlock Kalloc Vm Kernel Klock KSample Cstring Printf Proc Sched ProcSpec.
From S2P Require Import Sleeplock SleepSpec Bio Lru BioSpec Log LogSpec Fs FsRead.

(** Everything but the harts, the locks, the scheduling of the processes, the
    buffers and the inodes. *)
Definition rest (k : kernel) :=
  ((mem (mach k), freelist (mach k), count (mach k), view <$> procs k),
   (nextpid k, initproc k, ticks k, rng k, first k, kernel_pagetable k),
   (ksb k, files k, pipes k, klog k, kdisk k), (kcons k, kuart k, pr_locking k, panicked k, devsw_console k),
   (kvdisk k, csrs k, kplic k, started k)).

(** The fields of an inode as the disk has them. *)
Definition loaded (V : Z -> list Z) (sb : superblock) (ip : inode) : inode :=
  load_dinode (V (IBLOCK (i_inum ip) sb)) (dip_off (i_inum ip)) ip.

Lemma insert_cases {A} (T : list A) i x : (i < length T)%nat ->
  forall j y, <[i := x]> T !! j = Some y -> j = i /\ y = x \/ j <> i /\ T !! j = Some y.
Proof. intros Hi j y [(-> & -> & _)|[? ?]]%list_lookup_insert_Some; [by left|right; split; [congruence|done]]. Qed.

Section itable.
Context (dev : Z) (pid : Z) (V : Z -> list Z) (sb : superblock).

(** [R] are the references, [L] the indices whose sleep lock is held. *)
Record itable (R : gmultiset Z) (L : gset nat) (T : list inode) : Prop := mk_itable {
  it_len : length T = NINODE;
  it_ref i ip : T !! i = Some ip -> i_ref ip <> 0 ->
    i_dev ip = dev /\ 0 <= i_inum ip < 2 ^ 32 /\ i_inum ip ∈ R /\ i_ref ip = Z.of_nat (multiplicity (i_inum ip) R);
  it_all n : n ∈ R -> exists i ip, T !! i = Some ip /\ i_ref ip <> 0 /\ i_inum ip = n;
  it_uniq i j ip jp : T !! i = Some ip -> T !! j = Some jp -> i_ref ip <> 0 -> i_ref jp <> 0 -> i_inum ip = i_inum jp -> i = j;
  it_lock i ip : T !! i = Some ip -> i_lock ip = if decide (i ∈ L) then mk_sleeplock true pid else mk_sleeplock false 0;
  it_disk i ip : T !! i = Some ip -> i_ref ip <> 0 -> i_valid ip = true -> loaded V sb ip = ip
}.

Context (R : gmultiset Z) (L : gset nat) (T : list inode) (HT : itable R L T).

(** Replacing an entry by one with the same lock. *)
Lemma itable_insert R' i ip ip' :
  T !! i = Some ip -> i_lock ip' = i_lock ip ->
  (i_ref ip' <> 0 -> i_dev ip' = dev /\ 0 <= i_inum ip' < 2 ^ 32 /\ i_inum ip' ∈ R' /\
     i_ref ip' = Z.of_nat (multiplicity (i_inum ip') R') /\ (i_valid ip' = true -> loaded V sb ip' = ip')) ->
  (forall j jp, j <> i -> T !! j = Some jp -> i_ref jp <> 0 ->
     (i_ref ip' <> 0 -> i_inum jp <> i_inum ip') /\ i_inum jp ∈ R' /\ multiplicity (i_inum jp) R' = multiplicity (i_inum jp) R) ->
  (forall n, n ∈ R' -> (i_ref ip' <> 0 /\ i_inum ip' = n) \/ exists j jp, j <> i /\ T !! j = Some jp /\ i_ref jp <> 0 /\ i_inum jp = n) ->
  itable R' L (<[i := ip']> T).
Proof using HT.
  intros Hi Hlk Hnew Hoth Hall. pose proof (lookup_lt_Some _ _ _ Hi) as Hlt.
  pose proof (insert_cases T i ip' Hlt) as Hcase.
  split.
  - rewrite length_insert. apply HT.
  - intros j jp [[-> ->]|[Hne Hj]]%Hcase Hr; [by destruct (Hnew Hr) as (?&?&?&?&_)|].
    destruct (it_ref _ _ _ HT _ _ Hj Hr) as (? & ? & _ & E). destruct (Hoth _ _ Hne Hj Hr) as (_ & ? & ->). done.
  - intros n [[Hr E]|(j & jp & Hne & Hj & Hr & E)]%Hall.
    + exists i, ip'. by rewrite list_lookup_insert_eq.
    + exists j, jp. by rewrite list_lookup_insert_ne.
  - intros j1 j2 p1 p2 [[-> ->]|[N1 H1]]%Hcase [[-> ->]|[N2 H2]]%Hcase R1 R2 E; [done|..].
    + by destruct (Hoth _ _ N2 H2 R2) as [[] _].
    + by destruct (Hoth _ _ N1 H1 R1) as [[] _].
    + by eapply HT.
  - intros j jp [[-> ->]|[Hne Hj]]%Hcase; [rewrite Hlk|]; by apply HT.
  - intros j jp [[-> ->]|[Hne Hj]]%Hcase Hr; [by apply Hnew|by apply (it_disk _ _ _ HT j)].
Qed.

Lemma in_multiplicity n (X : gmultiset Z) : n ∈ X <-> multiplicity n X <> 0%nat.
Proof using. rewrite elem_of_multiplicity. lia. Qed.

(** A change of the count of an entry in use. *)
Lemma itable_count R' i ip f :
  T !! i = Some ip -> i_ref ip <> 0 -> f (i_ref ip) = Z.of_nat (multiplicity (i_inum ip) R') ->
  (forall m, m <> i_inum ip -> multiplicity m R' = multiplicity m R) ->
  itable R' L (<[i := upd_i_ref f ip]> T).
Proof using HT.
  intros Hi Hr Hf Hoth. destruct (it_ref _ _ _ HT i ip Hi Hr) as (Hd & Hn & Hin & _).
  apply (itable_insert R' i ip); [done|done|..].
  - simpl. rewrite Hf. intros Hnz. split_and!; [done|lia|lia| |done|].
    + apply in_multiplicity. lia.
    + intros Hv. transitivity (upd_i_ref f (loaded V sb ip)); [done|]. by rewrite (it_disk _ _ _ HT i ip).
  - intros j jp Hne Hj Hrj. destruct (it_ref _ _ _ HT j jp Hj Hrj) as (_ & _ & Hinj & _).
    assert (Hnn : i_inum jp <> i_inum ip) by (intros E; by apply Hne, (it_uniq _ _ _ HT j i jp ip)).
    split_and!; [done| |by apply Hoth]. apply in_multiplicity. rewrite Hoth by done. by apply in_multiplicity.
  - intros m Hm%in_multiplicity. destruct (decide (m = i_inum ip)) as [->|Hnm]; [left; simpl; rewrite Hf; lia|right].
    rewrite Hoth in Hm by done. apply in_multiplicity in Hm. destruct (it_all _ _ _ HT m Hm) as (j & jp & Hj & Hrj & <-).
    exists j, jp. split_and!; [|done..]. intros ->. rewrite Hi in Hj. by injection Hj as ->.
Qed.
(** A free entry taken for [n]. *)
Lemma itable_take n i ip ip' :
  T !! i = Some ip -> i_ref ip = 0 -> n ∉ R -> 0 <= n < 2 ^ 32 ->
  i_lock ip' = i_lock ip -> i_dev ip' = dev -> i_inum ip' = n -> i_ref ip' = 1 -> i_valid ip' = false ->
  itable (R ⊎ {[+ n +]}) L (<[i := ip']> T).
Proof using HT.
  intros Hi Hr Hn Hrange El Ed En Er Ev. assert (Hmn : multiplicity n R = 0%nat) by (by apply not_elem_of_multiplicity).
  apply (itable_insert _ i ip); [done|done|..].
  - intros _. rewrite En, Er, Ev, multiplicity_disj_union, multiplicity_singleton_eq, Hmn. split_and!; [done|lia|lia| |done|done].
    apply in_multiplicity. rewrite multiplicity_disj_union, multiplicity_singleton_eq. lia.
  - intros j jp Hne Hj Hrj. destruct (it_ref _ _ _ HT j jp Hj Hrj) as (_ & _ & Hin & _).
    assert (Hnn : i_inum jp <> n) by (intros E; by rewrite E in Hin). split_and!; [congruence| |].
    + apply in_multiplicity. rewrite multiplicity_disj_union. apply in_multiplicity in Hin. lia.
    + rewrite multiplicity_disj_union, multiplicity_singleton_ne by done. lia.
  - intros m Hm%gmultiset_elem_of_disj_union. destruct Hm as [Hm|Hm].
    + right. destruct (it_all _ _ _ HT m Hm) as (j & jp & Hj & Hrj & <-). exists j, jp. split_and!; [|done..].
      intros ->. rewrite Hi in Hj. by injection Hj as ->.
    + apply gmultiset_elem_of_singleton in Hm as ->. left. rewrite Er. done.
Qed.
End itable.

Lemma multiplicity_size (x : Z) (X : gmultiset Z) : (multiplicity x X <= size X)%nat.
Proof.
  assert (H : multiplicity x X *: {[+ x +]} ⊆ X).
  { intros y. rewrite multiplicity_scalar_mul, multiplicity_singleton. case_decide as E; [subst|]; lia. }
  apply gmultiset_subseteq_size in H. rewrite gmultiset_size_scalar_mul, gmultiset_size_singleton in H. lia.
Qed.

(** The entries in use keep everything but their count. *)
Definition same_inode (ip ip' : inode) : Prop := upd_i_ref (set 0) ip = upd_i_ref (set 0) ip'.
Definition stable (T T' : list inode) : Prop :=
  forall j jp, T !! j = Some jp -> i_ref jp <> 0 -> exists jp', T' !! j = Some jp' /\ same_inode jp jp'.

#[export] Instance same_inode_equiv : Equivalence same_inode.
Proof. unfold same_inode. split; [by intros ?|by intros ?? ->|by intros ??? -> ->]. Qed.
Lemma stable_refl T : stable T T.
Proof. intros j jp Hj _. by exists jp. Qed.
Lemma stable_insert T i ip ip' : T !! i = Some ip -> (i_ref ip <> 0 -> same_inode ip ip') -> stable T (<[i := ip']> T).
Proof.
  intros Hi Hs j jp Hj Hr. destruct (decide (j = i)) as [->|]; [|exists jp; by rewrite list_lookup_insert_ne].
  rewrite Hi in Hj. injection Hj as ->. exists ip'. rewrite list_lookup_insert_eq by (by eapply lookup_lt_Some). auto.
Qed.

Section state.
Context {KI : KernelImage} {C : Config} {D : BlockDevice} {DL : Disk}.
Context (me : nat) (pid dev : Z) (P dirty : gset Z) (V : Z -> list Z) (sb : superblock).

Record fs_state (R : gmultiset Z) (L : gset nat) (k : kernel) : Prop := mk_fs_state {
  fs_cache : cache me pid dev ∅ P dirty V k;
  fs_sb : ksb k = sb;
  fs_table : itable dev pid V sb R L (inodes k)
}.

Lemma cache_inodes H f k : cache me pid dev H P dirty V k -> cache me pid dev H P dirty V (upd_inodes f k).
Proof using.
  intros Hc. apply (cache_thread me pid dev H P dirty V k); try done. by apply (thread_ext _ _ k), (ca_thread _ _ _ _ _ _ _ _ Hc).
Qed.

(** A new entry in a critical section of the table. *)
Lemma fs_state_table R L R' L' k T' :
  fs_state R L k -> itable dev pid V sb R' L' T' -> fs_state R' L' (upd_inodes (fun _ => T') (upd_mach touch k)).
Proof using. intros [Hc Hs _] HT. split; [by apply cache_inodes, cache_touch|done|done]. Qed.

Lemma itable_ready R L k : fs_state R L k -> ready (mach k) LkItable.
Proof using. intros [Hc _ _]. apply (th_ready me pid); [apply Hc|fs_lock]. Qed.

Section iget.
Context (R : gmultiset Z) (L : gset nat) (k : kernel) (Hk : fs_state R L k) (n : Z) (Hn : 0 <= n < 2 ^ 32).
Context (Hsize : Z.of_nat (size R) < 2 ^ 31 - 1).

Definition iget_hit (ip : inode) : bool := (0 <? i_ref ip) && (i_dev ip =? dev) && (i_inum ip =? n).
Definition iget_new (ip : inode) : inode :=
  upd_i_valid (set false) (upd_i_ref (set 1) (upd_i_inum (set n) (upd_i_dev (set dev) ip))).

Lemma table_ref i ip : inodes k !! i = Some ip -> 0 <= i_ref ip < 2 ^ 31 - 1.
Proof using Hk Hsize.
  intros Hi. destruct (decide (i_ref ip = 0)) as [->|Hr]; [lia|].
  destruct (it_ref _ _ _ _ _ _ _ (fs_table _ _ _ Hk) i ip Hi Hr) as (_ & _ & _ & ->).
  pose proof (multiplicity_size (i_inum ip) R). lia.
Qed.

(** The table after [iget], at the entry [i]. *)
Definition got (i : nat) (T' : list inode) : Prop :=
  exists ip ip', inodes k !! i = Some ip /\ T' = <[i := ip']> (inodes k) /\ i_inum ip' = n /\ i_ref ip' <> 0 /\
    (i_ref ip <> 0 -> same_inode ip ip') /\ itable dev pid V sb (R ⊎ {[+ n +]}) L T'.

Lemma got_hit i ip : inodes k !! i = Some ip -> iget_hit ip = true ->
  got i (<[i := upd_i_ref (fun r => s32 (r + 1)) ip]> (inodes k)).
Proof using Hk Hn Hsize.
  intros Hi Hh. unfold iget_hit in Hh. zbool. pose proof (table_ref i ip Hi) as Hr. pose proof (fs_table _ _ _ Hk) as HT.
  destruct (it_ref _ _ _ _ _ _ _ HT i ip Hi) as (Hd & _ & Hin & Em); [lia|].
  exists ip, (upd_i_ref (fun r => s32 (r + 1)) ip). split_and!; [done|done|done|simpl; rewrite s32_small; lia|done|].
  apply (itable_count dev pid V sb R L (inodes k) HT); [done|lia| |].
  - rewrite s32_small by lia. rewrite multiplicity_disj_union, H0, multiplicity_singleton_eq. rewrite Em, H0. lia.
  - intros m Hm. rewrite multiplicity_disj_union, multiplicity_singleton_ne by congruence. lia.
Qed.
Lemma no_hit : (forall j jp, inodes k !! j = Some jp -> iget_hit jp = false) -> n ∉ R.
Proof using Hk Hsize.
  intros Hall Hin. pose proof (fs_table _ _ _ Hk) as HT. destruct (it_all _ _ _ _ _ _ _ HT n Hin) as (j & jp & Hj & Hrj & En).
  specialize (Hall j jp Hj). unfold iget_hit in Hall. pose proof (table_ref j jp Hj).
  destruct (it_ref _ _ _ _ _ _ _ HT j jp Hj Hrj) as (Ed & _).
  destruct (Z.ltb_spec 0 (i_ref jp)), (Z.eqb_spec (i_dev jp) dev), (Z.eqb_spec (i_inum jp) n); simpl in Hall; done || lia.
Qed.
Lemma got_new i ip : inodes k !! i = Some ip -> i_ref ip = 0 -> (forall j jp, inodes k !! j = Some jp -> iget_hit jp = false) ->
  got i (<[i := iget_new ip]> (inodes k)).
Proof using Hk Hn Hsize.
  intros Hi Hr Hall. pose proof (fs_table _ _ _ Hk) as HT. exists ip, (iget_new ip). split_and!; [done|done|done|done|done|].
  apply (itable_take dev pid V sb R L (inodes k) HT n i ip); try done. by apply no_hit.
Qed.

(** With fewer inodes in use than entries, one is free. *)
Lemma some_free : (size (dom R) < NINODE)%nat -> exists i ip, inodes k !! i = Some ip /\ i_ref ip = 0.
Proof using Hk.
  intros Hsz. pose proof (fs_table _ _ _ Hk) as HT.
  destruct (list_find (fun ip => i_ref ip = 0) (inodes k)) as [[i ip]|] eqn:E.
  { apply list_find_Some in E as (? & ? & _). eauto. }
  apply list_find_None in E. rewrite list.Forall_forall in E. exfalso.
  assert (Hnd : NoDup (i_inum <$> inodes k)).
  { apply NoDup_alt. intros i j m Hi Hj. rewrite list_lookup_fmap in Hi, Hj. apply fmap_Some in Hi as (ip & Hi & ->).
    apply fmap_Some in Hj as (jp & Hj & Ej).
    apply (it_uniq _ _ _ _ _ _ _ HT i j ip jp); try done; apply E; by eapply list_elem_of_lookup_2. }
  assert (Hsub : list_to_set (i_inum <$> inodes k) ⊆ dom R).
  { intros m Hm%elem_of_list_to_set. apply list_elem_of_fmap in Hm as (ip & -> & Hip). apply list_elem_of_lookup in Hip as [i Hi].
    apply gmultiset_elem_of_dom. apply (it_ref _ _ _ _ _ _ _ HT i ip Hi). apply E. by eapply list_elem_of_lookup_2. }
  apply subseteq_size in Hsub. rewrite size_list_to_set, length_fmap, (it_len _ _ _ _ _ _ _ HT) in Hsub by done. lia.
Qed.

(** The loop of [iget] over the entries, under the lock. *)
Definition iget_body (i : nat) (empty : option nat) : M kernel (option nat + nat) :=
  let! ip := get_inode i in
  if (0 <? i_ref ip) && (i_dev ip =? dev) && (i_inum ip =? n) then
    do! upd_inode i (upd_i_ref (fun r => s32 (r + 1))) in
    do! lift (release LkItable) in
    ret (inr i)
  else
    ret (inl (match empty with None => if i_ref ip =? 0 then Some i else None | Some e => Some e end)).

Definition iget_done (i : nat) (k' : kernel) : Prop := exists T', got i T' /\ k' = upd_inodes (fun _ => T') (upd_mach touch k).

Lemma iget_release i T' (k1 : kernel) Q :
  got i T' -> k1 = upd_inodes (fun _ => T') (upd_mach (acquired LkItable) k) ->
  (forall k2, iget_done i k2 -> Q tt k2) -> wp (lift (release LkItable)) Q k1.
Proof using Hk.
  intros Hg -> HQ. eapply wp_eq; [apply (krelease_eq k); [by eapply itable_ready|done]|]. apply HQ. exists T'. done.
Qed.

Lemma iget_loop : wp (for_each all_inodes None iget_body) (fun r k' =>
  match r with
  | inr i => iget_done i k'
  | inl e => k' = upd_mach (acquired LkItable) k /\ (forall j jp, inodes k !! j = Some jp -> iget_hit jp = false) /\
      match e with
      | None => forall j jp, inodes k !! j = Some jp -> i_ref jp <> 0
      | Some i => exists ip, inodes k !! i = Some ip /\ i_ref ip = 0
      end
  end) (upd_mach (acquired LkItable) k).
Proof using Hk Hn Hsize.
  pose proof (it_len _ _ _ _ _ _ _ (fs_table _ _ _ Hk)) as Hl.
  apply (wp_for_each _ (fun rest e k' => exists j, rest = seq j (NINODE - j) /\ (j <= NINODE)%nat /\ k' = upd_mach (acquired LkItable) k /\
    (forall i ip, (i < j)%nat -> inodes k !! i = Some ip -> iget_hit ip = false) /\
    match e with
    | None => forall i ip, (i < j)%nat -> inodes k !! i = Some ip -> i_ref ip <> 0
    | Some i => exists ip, inodes k !! i = Some ip /\ i_ref ip = 0
    end)).
  - intros i is_ e k1 (j & Es & Hj & -> & Hh & He). destruct (NINODE - j)%nat as [|m] eqn:Em; [done|]. injection Es as -> ->.
    destruct (lookup_lt_is_Some_2 (inodes k) j) as [ip Hip]; [lia|]. unfold iget_body. apply wp_bind. eapply wp_get_inode; [exact Hip|].
    fold (iget_hit ip). destruct (iget_hit ip) eqn:Eh.
    + apply wp_bind. eapply wp_idx_upd; [exact Hip|]. apply wp_bind.
      eapply iget_release; [by apply got_hit|done|]. intros k2 Hd. apply wp_ret. exact Hd.
    + apply wp_ret. exists (S j). replace (NINODE - S j)%nat with m by lia. split_and!; [done|lia|done| |].
      * intros i ip' Hi Hi'. destruct (decide (i = j)) as [->|]; [congruence|]. apply (Hh i); [lia|done].
      * destruct e as [e|]; [done|]. destruct (Z.eqb_spec (i_ref ip) 0); [eauto|].
        intros i ip' Hi Hi'. destruct (decide (i = j)) as [->|]; [congruence|]. apply (He i); [lia|done].
  - intros e k1 (j & Es & Hj & -> & Hh & He). destruct (NINODE - j)%nat eqn:Em; [|done]. assert (j = NINODE) as -> by lia.
    assert (Hlt : forall i ip, inodes k !! i = Some ip -> (i < NINODE)%nat) by (intros i ip Hi%lookup_lt_Some; lia).
    split_and!; [done|intros i ip Hi; by eapply Hh; [eapply Hlt|]|]. destruct e; [done|]. intros i ip Hi. by eapply He; [eapply Hlt|].
  - exists 0%nat. split_and!; [done|unfold NINODE; lia|done|by intros; lia|by intros; lia].
Qed.

Lemma iget_ok : n ∈ R \/ (size (dom R) < NINODE)%nat -> wp (iget dev n) iget_done k.
Proof using Hk Hn Hsize.
  intros Hroom. unfold iget. apply wp_bind. eapply wp_eq; [apply kacquire_eq, (itable_ready R L k Hk)|].
  apply wp_bind. eapply wp_conseq; [exact iget_loop|]. intros [e|i] k1; [|by intros Hd; apply wp_ret].
  intros (-> & Hno & He). destruct e as [i|].
  - destruct He as (ip & Hi & Hr). apply wp_bind. eapply wp_idx_upd; [exact Hi|]. apply wp_bind.
    eapply iget_release; [by apply got_new|done|]. intros k2 Hd. apply wp_ret. exact Hd.
  - exfalso. destruct Hroom as [Hin|Hsz].
    + by apply no_hit in Hno.
    + destruct (some_free Hsz) as (i & ip & Hi & Hr). by apply (He i ip Hi).
Qed.
End iget.

(** ** Locking an inode *)

Lemma went_rest k H ws k' : went me pid dev k H P dirty V ws k' -> ws = [] -> rest k' = rest k /\ inodes k' = inodes k.
Proof using.
  intros [_ [Eo El] Ed] ->. rewrite <- no_writes in Ed. unfold others in Eo. unfold rest. rewrite El, Ed. by injection Eo as -> -> -> -> -> -> -> -> -> -> -> -> -> -> -> -> -> -> -> -> -> -> ->.
Qed.

(** Entry [i] of the table is [ip] and its lock is held. *)
Lemma itable_relock R L T i ip ip' (L' : gset nat) :
  itable dev pid V sb R L T -> T !! i = Some ip -> i_ref ip' = i_ref ip -> i_dev ip' = i_dev ip -> i_inum ip' = i_inum ip ->
  (i_ref ip <> 0 -> i_valid ip' = true -> loaded V sb ip' = ip') ->
  i_lock ip' = (if decide (i ∈ L') then mk_sleeplock true pid else mk_sleeplock false 0) ->
  (forall j, j <> i -> j ∈ L' <-> j ∈ L) -> itable dev pid V sb R L' (<[i := ip']> T).
Proof using.
  intros HT Hi Er Ed En Hd Hlk HL. pose proof (lookup_lt_Some _ _ _ Hi) as Hlt.
  pose proof (insert_cases T i ip' Hlt) as Hcase.
  split.
  - rewrite length_insert. apply HT.
  - intros j jp [[-> ->]|[Hne Hj]]%Hcase; [rewrite Er, Ed, En|]; by eapply HT.
  - intros n (j & jp & Hj & Hr & <-)%(it_all _ _ _ _ _ _ _ HT). destruct (decide (j = i)) as [->|].
    + rewrite Hi in Hj. injection Hj as ->. exists i, ip'. rewrite list_lookup_insert_eq by done. by rewrite Er.
    + exists j, jp. by rewrite list_lookup_insert_ne.
  - intros j1 j2 p1 p2 [[-> ->]|[N1 H1]]%Hcase [[-> ->]|[N2 H2]]%Hcase; [done|rewrite Er, En..|]; by eapply HT.
  - intros j jp [[-> ->]|[Hne Hj]]%Hcase; [done|]. rewrite (it_lock _ _ _ _ _ _ _ HT j jp Hj).
    destruct (HL j Hne). by repeat case_decide; try tauto.
  - intros j jp [[-> ->]|[Hne Hj]]%Hcase; [rewrite Er; auto|by eapply HT].
Qed.

(** Entry [i] holds a reference to inode [n]. *)
Definition entry (k : kernel) (i : nat) (n : Z) : Prop :=
  exists ip, inodes k !! i = Some ip /\ i_ref ip <> 0 /\ i_inum ip = n.

(** From [k] to a state with references [R] and locks [L], every entry with a
    reference left where it was. *)
Record moved (k : kernel) (R : gmultiset Z) (L : gset nat) (k' : kernel) : Prop := mk_moved {
  mv_state : fs_state R L k';
  mv_rest : rest k' = rest k;
  mv_entry j m : entry k j m -> m ∈ R -> entry k' j m
}.
Lemma moved_trans k1 k2 k3 R1 R2 L1 L2 :
  moved k1 R1 L1 k2 -> moved k2 R2 L2 k3 -> (forall m, m ∈ R2 -> m ∈ R1) -> moved k1 R2 L2 k3.
Proof using. intros [S1 T1 E1] [S2 T2 E2] H. split; [done|congruence|auto]. Qed.
Lemma moved_looked k R L k' : fs_state R L k -> looked me pid dev P dirty V k k' -> moved k R L k'.
Proof using.
  intros [Hc Hs HT] W. destruct (went_rest _ _ _ _ W eq_refl) as [HR HI]. destruct (looked_inodes _ _ _ _ _ _ _ _ W) as [_ Hb].
  split; [split; [apply W|congruence|by rewrite HI]|done|]. intros j m (ip & ? & ?) _. exists ip. by rewrite HI.
Qed.
(** One entry changed. *)
Lemma moved_insert k R L k' i ip ip' :
  fs_state R L k' -> rest k' = rest k -> inodes k !! i = Some ip -> inodes k' = <[i := ip']> (inodes k) ->
  (i_ref ip <> 0 -> i_inum ip ∈ R -> i_inum ip' = i_inum ip /\ i_ref ip' <> 0) -> moved k R L k'.
Proof using.
  intros HS HR Hi HI Hn. split; [done|done|]. intros j m (jp & Hj & Hr & <-) Hm. unfold entry. rewrite HI.
  destruct (decide (j = i)) as [->|]; [|exists jp; by rewrite list_lookup_insert_ne].
  rewrite Hi in Hj. injection Hj as ->. destruct (Hn Hr Hm). exists ip'. rewrite list_lookup_insert_eq; [done|by eapply lookup_lt_Some].
Qed.

Lemma entry_ref R L k i n : fs_state R L k -> entry k i n -> n ∈ R /\ 0 <= n < 2 ^ 32.
Proof using. intros Hk (ip & Hi & Hr & <-). by destruct (it_ref _ _ _ _ _ _ _ (fs_table _ _ _ Hk) i ip Hi Hr) as (_ & ? & ? & _). Qed.
Lemma moved_more R L k1 k2 k3 R1 R2 L1 L2 :
  fs_state R L k1 -> moved k1 R1 L1 k2 -> moved k2 R2 L2 k3 -> (forall m, m ∈ R -> m ∈ R1) -> moved k1 R2 L2 k3.
Proof using.
  intros Hk [S1 T1 E1] [S2 T2 E2] H. split; [done|congruence|]. intros j m Hj Hm. apply E2; [|done]. apply E1; [done|].
  apply H. by destruct (entry_ref _ _ _ _ _ Hk Hj).
Qed.
Lemma rest_sb k k' : rest k' = rest k -> ksb k' = ksb k.
Proof using. unfold rest. intros E. by injection E. Qed.

(** An inode on the disk. *)
Definition dino (n : Z) : inode := loaded V sb (mk_inode dev n 1 (mk_sleeplock true pid) true 0 0 0 0 0 []).

(** An inode under its lock, as [ilock] leaves it. *)
Record locked_inode (n : Z) (ip : inode) : Prop := {
  li_ref : i_ref ip <> 0;
  li_valid : i_valid ip = true;
  li_inum : i_inum ip = n;
  li_same : same_inode ip (dino n)
}.
Lemma locked_is n ip : i_ref ip <> 0 -> i_dev ip = dev -> i_inum ip = n -> i_lock ip = mk_sleeplock true pid -> i_valid ip = true ->
  loaded V sb ip = ip -> locked_inode n ip.
Proof using.
  intros H1 H2 H3 H4 H5 H6. split; [done..|]. rewrite <- H6. unfold dino, same_inode, loaded, load_dinode, upd_i_ref. simpl.
  by rewrite H2, H3, H4, H5.
Qed.

(** Taking a lock that is free. *)
Lemma lock_eq R L i ip k : fs_state R L k -> inodes k !! i = Some ip -> i ∉ L ->
  acquiresleep (SlInode i) k = Ret tt (upd_inodes (<[i := upd_i_lock (set (mk_sleeplock true pid)) ip]>) (upd_mach touch k)).
Proof using.
  intros [Hc Hs HT] Hi HL. pose proof (it_lock _ _ _ _ _ _ _ HT i ip Hi) as Hlk. rewrite decide_False in Hlk by done.
  rewrite (acquiresleep_eq me pid k (ca_thread _ _ _ _ _ _ _ _ Hc) (SlInode i) (i_lock ip)).
  - cbn [sl_write]. unfold upd_inodes. cbn [inodes upd_mach]. by rewrite (alter_lookup _ _ i ip).
  - simpl. rewrite <- (it_len _ _ _ _ _ _ _ HT). by eapply lookup_lt_Some.
  - simpl. by rewrite Hi.
  - by rewrite Hlk.
Qed.

(** The entry [i] after locking it, its fields as on the disk. *)
Lemma moved_locked R L k k' i ip ip' :
  fs_state R L k -> inodes k !! i = Some ip -> i_ref ip <> 0 -> cache me pid dev ∅ P dirty V k' -> rest k' = rest k ->
  inodes k' = <[i := ip']> (inodes k) -> i_lock ip' = mk_sleeplock true pid -> i_ref ip' = i_ref ip -> i_dev ip' = i_dev ip ->
  i_inum ip' = i_inum ip -> i_valid ip' = true -> loaded V sb ip' = ip' ->
  moved k R ({[i]} ∪ L) k' /\ exists x, inodes k' !! i = Some x /\ locked_inode (i_inum ip) x.
Proof using.
  intros [Hc Hs HT] Hi Hr Hc' HR HI E1 E2 E3 E4 E5 E6. pose proof (lookup_lt_Some _ _ _ Hi) as Hlt.
  destruct (it_ref _ _ _ _ _ _ _ HT i ip Hi Hr) as (Hd & _). split.
  - apply (moved_insert k R _ k' i ip ip'); try done; [|by rewrite E2, E4].
    split; [done|by rewrite (rest_sb _ _ HR)|]. rewrite HI.
    apply (itable_relock R L _ i ip); try done; [rewrite decide_True by set_solver +; done|set_solver +].
  - exists ip'. rewrite HI, list_lookup_insert_eq by done. split; [done|]. apply locked_is; [by rewrite E2|by rewrite E3|done..].
Qed.

(** [iunlock] by the holder. *)
Lemma iunlock_ok R L i n k :
  fs_state R L k -> entry k i n -> i ∈ L -> Z.of_nat (size R) < 2 ^ 31 - 1 ->
  wp (iunlock (Some i)) (fun _ k' => moved k R (L ∖ {[i]}) k') k.
Proof using.
  intros Hk (ip & Hi & Hr & <-) HL Hsz. pose proof (table_ref R L k Hk Hsz i ip Hi) as Hrange. pose proof (lookup_lt_Some _ _ _ Hi) as Hlt.
  destruct (id Hk) as [Hc Hs HT]. pose proof (it_lock _ _ _ _ _ _ _ HT i ip Hi) as Hlk. rewrite decide_True in Hlk by done.
  pose proof (ca_thread _ _ _ _ _ _ _ _ Hc) as Ht. assert (Hok : sl_ok (SlInode i)) by (simpl; by rewrite <- (it_len _ _ _ _ _ _ _ HT)).
  assert (Hrd : sl_read (SlInode i) k = Some (mk_sleeplock true pid)) by (simpl; by rewrite Hi, <- Hlk).
  unfold iunlock. apply wp_bind. eapply wp_eq; [by apply (holdingsleep_eq me pid k Ht (SlInode i) (mk_sleeplock true pid))|].
  cbn [sl_locked sl_pid andb]. rewrite Z.eqb_refl. cbn [negb]. apply wp_bind. eapply wp_get_inode; [exact Hi|].
  destruct (Z.ltb_spec (i_ref ip) 1); [lia|].
  eapply wp_eq; [apply (releasesleep_eq me pid (upd_mach touch k) (thread_touch _ _ _ Ht) (SlInode i) (mk_sleeplock true pid)); [done|by rewrite sl_read_upd_mach]|].
  set (ip1 := upd_i_lock (set (mk_sleeplock false 0)) ip). set (k' := woke _ _ _ _).
  assert (HI : inodes k' = <[i := ip1]> (inodes k)) by (simpl; by rewrite (alter_lookup _ _ i ip)).
  apply (moved_insert k R _ k' i ip ip1); try done. 2: { unfold rest, k'. by rewrite view_woke. } split; [|done|].
  - apply (cache_thread me pid dev ∅ P dirty V k); try done. apply thread_woke. apply (thread_ext _ _ (upd_mach touch (upd_mach touch k))); [done|done|].
    by do 2 apply thread_touch.
  - rewrite HI. apply (itable_relock R L _ i ip); try done.
    + intros _ Hv. transitivity (upd_i_lock (set (mk_sleeplock false 0)) (loaded V sb ip)); [done|]. by rewrite (it_disk _ _ _ _ _ _ _ HT i ip Hi Hr).
    + by rewrite decide_False by set_solver +.
    + set_solver +.
Qed.

(** A change of one count in a critical section. *)
Lemma count_ok R L i n k f R' :
  fs_state R L k -> entry k i n ->
  (forall ip, inodes k !! i = Some ip -> i_ref ip <> 0 -> i_inum ip = n -> f (i_ref ip) = Z.of_nat (multiplicity n R')) ->
  (forall m, m <> n -> multiplicity m R' = multiplicity m R) ->
  wp (upd_inode i (upd_i_ref f)) (fun _ => wp (lift (release LkItable)) (fun _ k' => moved k R' L k')) (upd_mach (acquired LkItable) k).
Proof using.
  intros Hk (ip & Hi & Hr & En) Hf Hoth. specialize (Hf ip Hi Hr En). eapply wp_idx_upd; [exact Hi|].
  eapply wp_eq; [apply (krelease_eq k); [by eapply itable_ready|done]|].
  set (k' := upd_mach _ _). assert (HI : inodes k' = <[i := upd_i_ref f ip]> (inodes k)) by done.
  apply (moved_insert k R' L k' i ip (upd_i_ref f ip)); try done.
  - apply (fs_state_table R L R' L k _ Hk). subst n. by apply (itable_count dev pid V sb R L (inodes k) (fs_table _ _ _ Hk) R' i ip).
  - intros _ Hin%in_multiplicity. split; [done|]. simpl. rewrite Hf. subst n. lia.
Qed.

Lemma idup_ok R L i n k :
  fs_state R L k -> entry k i n -> Z.of_nat (size R) < 2 ^ 31 - 1 ->
  wp (idup i) (fun r k' => r = i /\ moved k (R ⊎ {[+ n +]}) L k') k.
Proof using.
  intros Hk He Hsz. unfold idup. apply wp_bind. eapply wp_eq; [apply kacquire_eq, (itable_ready R L k Hk)|].
  apply wp_bind. eapply wp_conseq; [apply (count_ok R L i n k _ (R ⊎ {[+ n +]})); [done|done|..]|cbv beta].
  - intros ip Hi Hr En. pose proof (table_ref R L k Hk Hsz i ip Hi) as Hb.
    destruct (it_ref _ _ _ _ _ _ _ (fs_table _ _ _ Hk) i ip Hi Hr) as (_ & _ & _ & Em). rewrite s32_small by lia.
    rewrite multiplicity_disj_union, multiplicity_singleton_eq. subst n. lia.
  - intros m Hm. rewrite multiplicity_disj_union, multiplicity_singleton_ne by done. lia.
  - intros _ k1 H1. apply wp_bind. eapply wp_conseq; [exact H1|cbv beta]. intros _ k2 H2. by apply wp_ret.
Qed.

(** [iput] that does not free the inode. *)
Lemma iput_ok R L i n k :
  fs_state R L k -> entry k i n -> Z.of_nat (size R) < 2 ^ 31 - 1 -> multiplicity n R <> 1%nat \/ i_nlink (dino n) <> 0 ->
  wp (iput i) (fun _ k' => moved k (R ∖ {[+ n +]}) L k') k.
Proof using.
  intros Hk He Hsz Hkeep. destruct (id He) as (ip & Hi & Hr & En).
  destruct (it_ref _ _ _ _ _ _ _ (fs_table _ _ _ Hk) i ip Hi Hr) as (Hd & _ & _ & Em).
  unfold iput. apply wp_bind. eapply wp_eq; [apply kacquire_eq, (itable_ready R L k Hk)|].
  apply wp_bind. eapply wp_get_inode; [exact Hi|].
  replace ((i_ref ip =? 1) && i_valid ip && (i_nlink ip =? 0)) with false.
  2: { destruct (i_valid ip) eqn:Ev; [|by rewrite andb_false_r]. rewrite andb_true_r.
       pose proof (it_disk _ _ _ _ _ _ _ (fs_table _ _ _ Hk) i ip Hi Hr Ev) as Eld.
       assert (Enl : i_nlink ip = i_nlink (dino n)) by (rewrite <- Eld; subst n; done). rewrite Enl.
       destruct (Z.eqb_spec (i_ref ip) 1), (Z.eqb_spec (i_nlink (dino n)) 0); try done. subst n. destruct Hkeep; [lia|done]. }
  cbn [when]. apply wp_bind, wp_ret, wp_bind. eapply wp_conseq; [apply (count_ok R L i n k _ (R ∖ {[+ n +]})); [done|done|..]|cbv beta].
  - intros ip' Hi' _ _. rewrite Hi in Hi'. injection Hi' as <-. pose proof (table_ref R L k Hk Hsz i ip Hi) as Hb.
    rewrite s32_small by lia. rewrite multiplicity_difference, multiplicity_singleton_eq. subst n. lia.
  - intros m Hm. rewrite multiplicity_difference, multiplicity_singleton_ne by done. lia.
  - intros _ k1 H1. exact H1.
Qed.

Lemma iunlockput_ok R L i n k :
  fs_state R L k -> entry k i n -> i ∈ L -> Z.of_nat (size R) < 2 ^ 31 - 1 -> multiplicity n R <> 1%nat \/ i_nlink (dino n) <> 0 ->
  wp (iunlockput i) (fun _ k' => moved k (R ∖ {[+ n +]}) (L ∖ {[i]}) k') k.
Proof using.
  intros Hk He HL Hsz Hkeep. apply wp_bind. eapply wp_conseq; [by eapply iunlock_ok|cbv beta]. intros _ k1 M1.
  destruct (entry_ref _ _ _ _ _ Hk He) as [Hin _].
  eapply wp_conseq; [apply (iput_ok R (L ∖ {[i]}) i n); [exact (mv_state _ _ _ _ M1)|exact (mv_entry _ _ _ _ M1 i n He Hin)|done|done]|cbv beta]. intros _ k2 M2.
  apply (moved_trans k k1 k2 _ _ _ _ M1 M2). intros m Hm. apply in_multiplicity. apply in_multiplicity in Hm.
  rewrite multiplicity_difference in Hm. lia.
Qed.

(** [iget] as a move. *)
Lemma iget_moved R L n k :
  fs_state R L k -> 0 <= n < 2 ^ 32 -> Z.of_nat (size R) < 2 ^ 31 - 1 -> n ∈ R \/ (size (dom R) < NINODE)%nat ->
  wp (iget dev n) (fun i k' => moved k (R ⊎ {[+ n +]}) L k' /\ entry k' i n) k.
Proof using.
  intros Hk Hn Hsz Hroom. eapply wp_conseq; [by eapply iget_ok|cbv beta].
  intros i k' (T' & (ip & ip' & Hi & -> & En & Hr & Hs & HT) & ->). split.
  - eapply (moved_insert k _ L _ i ip ip'); [by apply (fs_state_table R L)|done|done|done|].
    intros Hr0 _. specialize (Hs Hr0). split; [|done]. unfold same_inode in Hs. by injection Hs.
  - exists ip'. simpl. rewrite list_lookup_insert_eq by (by eapply lookup_lt_Some). done.
Qed.

Context (Hroom : (size P < NBUF)%nat) (Hdirty : dirty ⊆ P).

(** Filling in the fields from the disk. *)
Lemma fill_inode i ip k :
  cache me pid dev ∅ P dirty V k -> ksb k = sb -> inodes k !! i = Some ip -> i_dev ip = dev -> i_type (loaded V sb ip) <> 0 ->
  wp (let! s := gets ksb in
      let! bp := bread (i_dev ip) (IBLOCK (i_inum ip) s) in
      let! b := get_buf bp in
      do! upd_inode i (load_dinode (b_data b) (dip_off (i_inum ip))) in
      do! brelse bp in
      do! upd_inode i (upd_i_valid (set true)) in
      let! x := get_inode i in
      if i_type x =? 0 then panic "ilock: no type" else ret tt)
    (fun _ k' => cache me pid dev ∅ P dirty V k' /\ rest k' = rest k /\
       inodes k' = <[i := upd_i_valid (set true) (loaded V sb ip)]> (inodes k)) k.
Proof using Hroom Hdirty DL.
  intros Hc Hs Hi Hd Hty. pose proof (lookup_lt_Some _ _ _ Hi) as Hlt. apply wp_bind, wp_gets. rewrite Hs, Hd. apply wp_bind.
  eapply wp_conseq; [by apply (open_block me pid dev P dirty V Hroom)|cbv beta]. intros b k1 W1.
  destruct (went_rest _ _ _ _ W1 eq_refl) as [R1 I1]. destruct (held_data _ _ _ _ _ _ _ _ _ _ W1) as (x & Ex & Ed).
  apply wp_bind. eapply wp_eq; [exact Ex|]. rewrite Ed. apply wp_bind. eapply wp_idx_upd; [by rewrite I1|].
  set (k2 := upd_inodes _ k1). assert (C2 : cache me pid dev {[b := IBLOCK (i_inum ip) sb]} P dirty V k2) by (apply cache_inodes, W1).
  apply wp_bind. eapply wp_conseq; [apply (brelse_ok C2 b (IBLOCK (i_inum ip) sb)); [apply lookup_singleton_eq|set_solver +Hdirty]|cbv beta].
  rewrite delete_singleton_eq. intros _ k3 W3. destruct (went_rest _ _ _ _ W3 eq_refl) as [R3 I3].
  assert (E3 : inodes k3 !! i = Some (loaded V sb ip)).
  { rewrite I3. simpl. rewrite list_lookup_insert_eq by (by rewrite I1). done. }
  apply wp_bind. eapply wp_idx_upd; [exact E3|]. apply wp_bind. eapply wp_get_inode.
  { simpl. rewrite list_lookup_insert_eq; [reflexivity|]. by eapply lookup_lt_Some. }
  change (i_type (upd_i_valid _ ?x)) with (i_type x). rewrite (proj2 (Z.eqb_neq _ _) Hty). apply wp_ret. cbv beta. split_and!.
  - apply cache_inodes, W3.
  - transitivity (rest k3); [done|]. rewrite R3. transitivity (rest k1); [done|exact R1].
  - simpl. rewrite I3. simpl. rewrite I1. by rewrite list_insert_insert_eq.
Qed.

(** [ilock] on an inode whose lock is free. *)
Lemma ilock_ok R L i n k :
  fs_state R L k -> entry k i n -> i ∉ L -> Z.of_nat (size R) < 2 ^ 31 - 1 -> i_type (dino n) <> 0 ->
  wp (ilock (Some i)) (fun _ k' => moved k R ({[i]} ∪ L) k' /\ exists ip, inodes k' !! i = Some ip /\ locked_inode n ip) k.
Proof using Hroom Hdirty DL.
  intros Hk (ip & Hi & Hr & <-) HL Hsz Hty. pose proof (table_ref R L k Hk Hsz i ip Hi) as Hrange. pose proof (lookup_lt_Some _ _ _ Hi) as Hlt.
  destruct (id Hk) as [Hc Hs HT]. destruct (it_ref _ _ _ _ _ _ _ HT i ip Hi Hr) as (Hd & _).
  unfold ilock. apply wp_bind. eapply wp_get_inode; [exact Hi|]. destruct (Z.ltb_spec (i_ref ip) 1); [lia|].
  apply wp_bind. eapply wp_eq; [by apply (lock_eq R L i ip)|].
  set (ip1 := upd_i_lock (set (mk_sleeplock true pid)) ip). set (k1 := upd_inodes (<[i := ip1]>) (upd_mach touch k)).
  assert (C1 : cache me pid dev ∅ P dirty V k1) by (by apply cache_inodes, cache_touch).
  assert (I1 : inodes k1 !! i = Some ip1) by (simpl; by rewrite list_lookup_insert_eq).
  apply wp_bind. eapply wp_get_inode; [exact I1|].
  destruct (i_valid ip1) eqn:Ev; cbn [negb when].
  - apply wp_ret. apply (moved_locked R L k k1 i ip ip1); try done.
    transitivity (upd_i_lock (set (mk_sleeplock true pid)) (loaded V sb ip)); [done|]. by rewrite (it_disk _ _ _ _ _ _ _ HT i ip Hi Hr).
  - eapply wp_conseq; [by apply (fill_inode i ip1 k1)|cbv beta]. intros _ k2 (C2 & R2 & I2).
    apply (moved_locked R L k k2 i ip (upd_i_valid (set true) (loaded V sb ip1))); try done.
    rewrite I2. simpl. by rewrite list_insert_insert_eq.
Qed.

End state.
