(* ===== verification/FsPath.v ===== *)
(** * Directories and paths

    [dirlookup] as the first matching entry of a directory's content, and
    [namex] as the resolution of a path on the content of the disk: the kernel
    finds the inode the path names, takes one reference to it and gives back
    every other reference and lock it took on the way. *)

From stdpp Require Import gmultiset.
From S2P Require Import Prelude Riscv Memory Machine Spinlock Kalloc Vm Kernel Klock KSample Cstring Printf Proc Sched ProcSpec.
From S2P Require Import Sleeplock SleepSpec Bio Lru BioSpec Log LogSpec Fs FsRead Inodes.

(** ** Names *)

Definition is_byte (c : Z) : Prop := 0 <= c < 256.

(** A name as [skipelem] leaves it: terminated, or [DIRSIZ] long. *)
Definition elem_ok (name : list Z) : Prop :=
  Forall is_byte name /\ (length name <= DIRSIZ)%nat /\ (length name = DIRSIZ \/ 0 ∈ name).

Lemma strncmp_total p q n :
  (n <= length p)%nat \/ 0 ∈ p -> (n <= length q)%nat \/ 0 ∈ q -> exists r, strncmp p q n = Some r.
Proof.
  revert p q. induction n as [|n IH]; intros p q Hp Hq; simpl; [eauto|].
  destruct p as [|a p]; [destruct Hp as [Hp|Hp]; [simpl in Hp; lia|by apply not_elem_of_nil in Hp]|].
  destruct q as [|b q]; [destruct Hq as [Hq|Hq]; [simpl in Hq; lia|by apply not_elem_of_nil in Hq]|].
  unfold nz. destruct (Z.eqb_spec a 0) as [->|Ha]; simpl; [eauto|]. destruct (Z.eqb_spec a b) as [<-|]; [|eauto].
  apply IH; [destruct Hp as [Hp|Hp]|destruct Hq as [Hq|Hq]]; simpl in *; try (left; lia); right; by apply elem_of_cons in Hp as [?|?] || apply elem_of_cons in Hq as [?|?].
Qed.
Lemma cstr_length s : (length (cstr s) <= length s)%nat.
Proof. induction s as [|c s IH]; simpl; [done|]. destruct (c =? 0); simpl; lia. Qed.

Lemma namecmp_ok name t :
  elem_ok name -> Forall is_byte t -> length t = DIRSIZ -> exists r, namecmp name t = Some r /\ (r = 0 <-> cstr name = cstr t).
Proof.
  intros (Hb & Hl & Hz) Ht Hlt. destruct (strncmp_total name t DIRSIZ) as [r Er]; [destruct Hz; [left; lia|by right]|left; lia|].
  exists r. split; [done|]. rewrite (strncmp_eq name t DIRSIZ r Hb Ht Er).
  pose proof (cstr_length name). pose proof (cstr_length t). by rewrite !take_ge by lia.
Qed.

Lemma skip_slashes_suffix path : exists pre, path = pre ++ skip_slashes path.
Proof.
  induction path as [|c path [pre IH]]; simpl; [by exists []|].
  destruct (c =? slash); [exists (c :: pre); simpl; by rewrite <- IH|by exists []].
Qed.
Lemma path_elem_app path : let '(s, r) := path_elem path in path = s ++ r /\ 0 ∉ s /\ (hd 0 path <> 0 -> hd 0 path <> slash -> s <> []).
Proof.
  induction path as [|c path IH]; simpl; [split_and!; [done|set_solver|done]|]. unfold nz.
  destruct (Z.eqb_spec c slash) as [->|H1]; simpl; [split_and!; [done|set_solver|done]|].
  destruct (Z.eqb_spec c 0) as [->|H2]; simpl; [split_and!; [done|set_solver|done]|].
  destruct (path_elem path) as [s r]. destruct IH as (-> & H & _). split_and!; [done|set_solver|done].
Qed.

(** The rest is shorter and the name is one. *)
Lemma skipelem_ok path path' name :
  Forall is_byte path -> skipelem path = Some (path', name) ->
  (length path' < length path)%nat /\ Forall is_byte path' /\ elem_ok name.
Proof.
  intros Hb. unfold skipelem. destruct (skip_slashes_suffix path) as [pre Epre].
  assert (Hns : hd 0 (skip_slashes path) <> slash).
  { clear. induction path as [|c path IH]; simpl; [done|]. by destruct (Z.eqb_spec c slash). }
  set (p1 := skip_slashes path) in *. destruct (Z.eqb_spec (hd 0 p1) 0) as [|Hnz]; [done|].
  pose proof (path_elem_app p1) as Hp. destruct (path_elem p1) as [s r]. destruct Hp as (Ep & H0 & Hne).
  destruct (skip_slashes_suffix r) as [pre2 Er]. rewrite Epre, Ep in Hb.
  apply list.Forall_app in Hb as [_ [Hs Hr]%list.Forall_app]. specialize (Hne Hnz Hns).
  set (nm := if (DIRSIZ <=? length s)%nat then _ else _). intros E. injection E as <- <-. split_and!.
  - apply (f_equal length) in Epre, Ep, Er. rewrite length_app in Epre, Ep, Er. destruct s; [done|simpl in Ep; lia].
  - rewrite Er in Hr. by apply list.Forall_app in Hr as [_ ?].
  - unfold nm, elem_ok. destruct (Nat.leb_spec DIRSIZ (length s)) as [Hl|Hl].
    + split_and!; [by apply list.Forall_take|rewrite length_take; lia|left; rewrite length_take; lia].
    + split_and!; [apply list.Forall_app; split; [done|by repeat constructor]|rewrite length_app; simpl; lia|right; set_solver].
Qed.

(** ** Directories *)

Section directory.
Context (V : Z -> list Z) (ip : inode) (name : list Z).

(** The [t]-th entry, and whether it is the one of [name]. *)
Definition dent (t : nat) : list Z := ibytes V ip (16 * t) 16.
Definition dents : list (list Z) := dent <$> seq 0 (Z.to_nat (i_size ip) / 16).
Definition names (de : list Z) : Prop := de_inum de <> 0 /\ cstr name = cstr (de_name de).
#[export] Instance names_dec de : Decision (names de) := _.
(** The first entry of [name]. *)
Definition dir_find : option (nat * list Z) := list_find names dents.

(** The blocks of the entries up to the one of [name] are there. *)
Record readable : Prop := mk_readable {
  rd_size : 0 <= i_size ip < 2 ^ 31 - 16 /\ i_size ip mod 16 = 0;
  rd_mapped t : (t < length dents)%nat -> Forall (fun de => ~ names de) (take t dents) ->
    mapped V ip (t / 64) /\ Forall is_byte (dent t)
}.

Lemma length_dents : length dents = (Z.to_nat (i_size ip) / 16)%nat.
Proof. unfold dents. by rewrite length_fmap, length_seq. Qed.
Lemma dents_lookup t : (t < length dents)%nat -> dents !! t = Some (dent t).
Proof. rewrite length_dents. intros H. unfold dents. rewrite list_lookup_fmap, lookup_seq_lt by done. done. Qed.
Lemma take_dents t : (t < length dents)%nat -> take (S t) dents = take t dents ++ [dent t].
Proof. intros H. by apply take_S_r, dents_lookup. Qed.
Lemma length_dent t : length (dent t) = 16%nat.
Proof. apply length_ibytes. Qed.
(** The entry found is the first one. *)
Lemma dir_find_here t : (t < length dents)%nat -> Forall (fun de => ~ names de) (take t dents) -> names (dent t) -> dir_find = Some (t, dent t).
Proof.
  intros Ht Hpre Hn. apply list_find_Some. split_and!; [by apply dents_lookup|done|]. intros j y Hj Hlt.
  eapply (list.Forall_lookup_1 _ _ _ _ Hpre). rewrite lookup_take_lt by done. exact Hj.
Qed.
Lemma dir_find_none : Forall (fun de => ~ names de) (take (length dents) dents) -> dir_find = None.
Proof. rewrite take_ge by done. intros H. by apply list_find_None. Qed.
End directory.

(** A directory is its size and its blocks. *)
Lemma dents_ext V ip ip' : i_size ip' = i_size ip -> i_addrs ip' = i_addrs ip -> dents V ip' = dents V ip.
Proof. intros E1 E2. unfold dents, dent, ibytes, ibyte, iblock. by rewrite E1, E2. Qed.
Lemma readable_ext V ip ip' name : i_size ip' = i_size ip -> i_addrs ip' = i_addrs ip -> readable V ip name -> readable V ip' name.
Proof.
  intros E1 E2 [H1 H2]. split; [by rewrite E1|]. rewrite (dents_ext V ip ip' E1 E2). intros t Ht Hp.
  specialize (H2 t Ht Hp). unfold mapped, dent, ibytes, ibyte, iblock in *. by rewrite E2.
Qed.

Lemma data_get2_range data off : Forall is_byte data -> 0 <= data_get 2 data off < 65536.
Proof.
  intros Hb. unfold data_get. apply (list.Forall_drop _ (Z.to_nat off)) in Hb. unfold is_byte in Hb.
  destruct (drop (Z.to_nat off) data) as [|a [|b l]]; simpl; decompose_Forall_hyps; lia.
Qed.

(** ** Resolving a path on the disk *)

Section resolve.
Context (V : Z -> list Z) (sb : superblock).

Definition on_disk (n : Z) : inode := loaded V sb (mk_inode 0 n 0 (mk_sleeplock false 0) false 0 0 0 0 0 []).

(** The inode [path] names from the directory [n], or its parent, and the last
    name. *)
Fixpoint resolve (parent : bool) (fuel : nat) (n : Z) (path name : list Z) : option (Z * list Z) :=
  match fuel with
  | O => None
  | S fuel =>
      match skipelem path with
      | None => if parent then None else Some (n, name)
      | Some (path, name) =>
          if negb (i_type (on_disk n) =? T_DIR) then None else
          if parent && (hd 0 path =? 0) then Some (n, name) else
          match dir_find V (on_disk n) name with
          | None => None
          | Some (_, de) => resolve parent fuel (de_inum de) path name
          end
      end
  end.
Definition resolved (parent : bool) (n : Z) (path : list Z) : option (Z * list Z) := resolve parent (S (length path)) n path [].

(** The inodes on the way are allocated and linked, and the directories can be
    read as far as the name looked up. *)
Fixpoint walkable (parent : bool) (fuel : nat) (n : Z) (path : list Z) : Prop :=
  match fuel with
  | O => True
  | S fuel =>
      i_type (on_disk n) <> 0 /\ i_nlink (on_disk n) <> 0 /\
      match skipelem path with
      | None => True
      | Some (path, name) =>
          i_type (on_disk n) = T_DIR -> parent && (hd 0 path =? 0) = false ->
          readable V (on_disk n) name /\
          match dir_find V (on_disk n) name with
          | None => True
          | Some (_, de) => walkable parent fuel (de_inum de) path
          end
      end
  end.
End resolve.

Lemma size_more (R : gmultiset Z) n : Z.of_nat (size R) < 2 ^ 31 - 3 -> (size (dom R) + 2 <= NINODE)%nat ->
  Z.of_nat (size (R ⊎ {[+ n +]})) < 2 ^ 31 - 2 /\ (size (dom (R ⊎ {[+ n +]})) < NINODE)%nat.
Proof.
  intros Hsz Hfree. rewrite gmultiset_size_disj_union, gmultiset_size_singleton. split; [lia|].
  assert (dom (R ⊎ {[+ n +]}) ⊆ dom R ∪ {[n]}) as Hd%subseteq_size.
  { intros m. rewrite gmultiset_elem_of_dom, gmultiset_elem_of_disj_union, gmultiset_elem_of_singleton, elem_of_union, gmultiset_elem_of_dom. set_solver +. }
  rewrite size_union_alt in Hd. pose proof (subseteq_size ({[n]} ∖ dom R) {[n]} ltac:(set_solver +)) as Hs. rewrite size_singleton in Hs. lia.
Qed.

Lemma disj_union_difference_same (X Y : gmultiset Z) : (X ⊎ Y) ∖ Y = X.
Proof. multiset_solver. Qed.
Lemma disj_union_swap (X Y Z' : gmultiset Z) : X ⊎ Y ⊎ Z' = X ⊎ Z' ⊎ Y.
Proof. multiset_solver. Qed.

(** ** Looking up a name *)

Section lookup.
Context {KI : KernelImage} {C : Config} {D : BlockDevice} {DL : Disk}.
Context (me : nat) (pid dev : Z) (P dirty : gset Z) (V : Z -> list Z) (sb : superblock).
Context (Hroom : (size P < NBUF)%nat) (Hdirty : dirty ⊆ P).

#[local] Notation fs_state := (fs_state me pid dev P dirty V sb).
#[local] Notation moved := (moved me pid dev P dirty V sb).
#[local] Notation looked := (looked me pid dev P dirty V).

Lemma locked_eq n ip : locked_inode pid dev V sb n ip -> ip = upd_i_ref (set (i_ref ip)) (dino pid dev V sb n).
Proof using.
  intros [_ _ _ Hs]. unfold same_inode in Hs. destruct ip. unfold upd_i_ref in *. simpl in *. by injection Hs as -> -> -> -> -> -> -> -> -> ->.
Qed.

Section scan.
Context (R : gmultiset Z) (L : gset nat) (k : kernel) (Hk : fs_state R L k) (dp : nat) (ip : inode) (name : list Z).
Context (Hi : inodes k !! dp = Some ip) (Hd : i_dev ip = dev) (Hla : length (i_addrs ip) = 13%nat).
Context (Hname : elem_ok name) (Hread : readable V ip name).
Context (Hsz : Z.of_nat (size R) < 2 ^ 31 - 1) (Hfree : (size (dom R) < NINODE)%nat).

Definition dirlookup_step (off : Z) : M kernel (Z + option (nat * Z)) :=
  let! d := get_inode dp in
  if off <? i_size d then
    let! r := readi dp DObj off DIRENT_SIZE in
    let '(r, de) := r in
    if negb (r =? DIRENT_SIZE) then panic "dirlookup read" else
    if de_inum de =? 0 then ret (inl (u32 (off + DIRENT_SIZE))) else
    match namecmp name (de_name de) with
    | None => undef "namecmp"
    | Some c =>
        if c =? 0 then
          let! d := get_inode dp in
          let! ip := iget (i_dev d) (de_inum de) in
          ret (inr (Some (ip, off)))
        else ret (inl (u32 (off + DIRENT_SIZE)))
    end
  else ret (inr None).

Definition found (r : option (nat * Z)) (k' : kernel) : Prop :=
  match dir_find V ip name with
  | None => r = None /\ moved k R L k'
  | Some (t, de) => exists i, r = Some (i, 16 * Z.of_nat t) /\ moved k (R ⊎ {[+ de_inum de +]}) L k' /\ entry k' i (de_inum de)
  end.
Definition scanning (t : nat) (off : Z) (k' : kernel) : Prop :=
  off = 16 * Z.of_nat t /\ (t <= length (dents V ip))%nat /\ Forall (fun de => ~ names name de) (take t (dents V ip)) /\ looked k k'.

Lemma read_dent t k1 : (t < length (dents V ip))%nat -> Forall (fun de => ~ names name de) (take t (dents V ip)) -> looked k k1 ->
  wp (readi dp DObj (16 * Z.of_nat t) DIRENT_SIZE) (fun r k' => r = (16, dent V ip t) /\ looked k k') k1.
Proof using Hroom Hdirty DL Hi Hd Hla Hread Hfree.
  intros Ht Hpre L1. destruct (looked_inodes _ _ _ _ _ _ _ _ L1) as [I1 _]. destruct Hread as [[Hs Hm16] Hmap].
  pose proof (length_dents V ip) as Hn. pose proof (Nat.div_mod (Z.to_nat (i_size ip)) 16 ltac:(done)) as Hdm.
  pose proof (Nat.div_mod t 64 ltac:(done)) as Hdt. pose proof (Nat.mod_upper_bound t 64 ltac:(done)) as Hmt.
  replace (16 * Z.of_nat t) with (Z.of_nat (16 * t)) by lia. change DIRENT_SIZE with (Z.of_nat 16).
  eapply wp_conseq; [apply (readi_ok me pid dev P dirty V Hroom Hdirty dp ip k1 (16 * t) 16 16)|cbv beta].
  - exact (looked_cache _ _ _ _ _ _ _ _ L1).
  - by rewrite I1.
  - done.
  - done.
  - lia.
  - lia.
  - lia.
  - intros j Hj1 Hj2. replace j with (t / 64)%nat; [by apply Hmap|].
    assert ((16 * t) / 1024 = t / 64)%nat as E by (change 1024%nat with (16 * 64)%nat; apply Nat.Div0.div_mul_cancel_l; done).
    rewrite E in Hj1. lia.
  - intros r k2 [-> L2]. split; [done|]. exact (looked_trans _ _ _ _ _ _ _ _ _ L1 L2).
Qed.

Lemma dirlookup_step_ok t off k1 : scanning t off k1 -> wp (dirlookup_step off) (fun r k2 =>
  match r with
  | inl off' => exists t', scanning t' off' k2 /\ 0 <= Z.of_nat (length (dents V ip)) - Z.of_nat t' < Z.of_nat (length (dents V ip)) - Z.of_nat t
  | inr x => found x k2
  end) k1.
Proof using Hroom Hdirty DL  Hk Hi Hd Hla Hname Hread Hsz Hfree.
  intros (-> & Ht & Hpre & L1). unfold dirlookup_step. destruct (looked_inodes _ _ _ _ _ _ _ _ L1) as [I1 _].
  pose proof (length_dents V ip) as Hn. pose proof (Nat.div_mod (Z.to_nat (i_size ip)) 16 ltac:(done)) as Hdm.
  destruct (rd_size _ _ _ Hread) as [Hs Hm16].
  assert (Hz : (Z.to_nat (i_size ip) mod 16 = 0)%nat) by (apply Nat2Z.inj; rewrite Nat2Z.inj_mod, Z2Nat.id; lia).
  apply wp_bind. eapply wp_get_inode; [by rewrite I1|]. destruct (Z.ltb_spec (16 * Z.of_nat t) (i_size ip)) as [Hlt|Hge].
  2: { apply wp_ret. unfold found. assert (t = length (dents V ip)) as -> by lia. rewrite dir_find_none by done. split; [done|by apply moved_looked]. }
  assert (Ht' : (t < length (dents V ip))%nat) by lia.
  apply wp_bind. eapply wp_conseq; [by apply read_dent|cbv beta]. intros r k2 [-> L2]. cbn [Z.eqb Pos.eqb negb DIRENT_SIZE].
  assert (Hnext : ~ names name (dent V ip t) -> exists t', scanning t' (u32 (16 * Z.of_nat t + 16)) k2 /\
     0 <= Z.of_nat (length (dents V ip)) - Z.of_nat t' < Z.of_nat (length (dents V ip)) - Z.of_nat t).
  { intros Hno. exists (S t). split; [|lia]. rewrite u32_small by lia. split_and!; [lia|lia| |done].
    rewrite take_dents by done. apply list.Forall_app. split; [done|by repeat constructor]. }
  destruct (Z.eqb_spec (de_inum (dent V ip t)) 0) as [Ez|Hnz]; [apply wp_ret; apply Hnext; by intros [? _]|].
  destruct (rd_mapped _ _ _ Hread t Ht' Hpre) as [_ Hdb]. assert (Hdl : length (de_name (dent V ip t)) = DIRSIZ) by (unfold de_name; by rewrite length_drop, length_dent).
  destruct (namecmp_ok name (de_name (dent V ip t)) Hname) as (r & -> & Hr); [by apply list.Forall_drop|done|].
  destruct (Z.eqb_spec r 0) as [Er|Er]; [|apply wp_ret; apply Hnext; intros [_ ?]; tauto].
  destruct (looked_inodes _ _ _ _ _ _ _ _ L2) as [I2 _]. apply wp_bind. eapply wp_get_inode; [by rewrite I2|]. rewrite Hd.
  pose proof (data_get2_range (dent V ip t) 0 Hdb) as Hrange. apply wp_bind.
  pose proof (moved_looked _ _ _ _ _ _ _ _ _ _ _ Hk L2) as M2.
  eapply wp_conseq; [apply (iget_moved me pid dev P dirty V sb R L); [apply M2|unfold de_inum; lia|done|by right]|cbv beta].
  intros i k3 [M3 He]. apply wp_ret. unfold found. rewrite (dir_find_here _ _ _ t Ht' Hpre) by exact (conj Hnz (proj1 Hr Er)). exists i. split_and!; [done| |done].
  by apply (moved_more _ _ _ _ _ _ _ _ _ _ _ _ _ _ _ _ Hk M2 M3).
Qed.

Lemma dirlookup_ok : i_type ip = T_DIR -> wp (dirlookup dp name) found k.
Proof using Hroom Hdirty DL  Hk Hi Hd Hla Hname Hread Hsz Hfree.
  intros Hty. unfold dirlookup. apply wp_bind. eapply wp_get_inode; [done|]. rewrite Hty, Z.eqb_refl. cbn [negb].
  apply (wp_while_ghost dirlookup_step scanning (fun t => Z.of_nat (length (dents V ip)) - Z.of_nat t) _ 0%nat).
  - exact dirlookup_step_ok.
  - split_and!; [done|lia|by constructor|by apply looked_refl, Hk].
  - pose proof (length_dents V ip). pose proof (Nat.div_mod (Z.to_nat (i_size ip)) 16 ltac:(done)).
    destruct (rd_size _ _ _ Hread). lia.
Qed.
End scan.

(** ** The walk of [namex] *)

Section walk.
Context (R : gmultiset Z) (k : kernel) (Hk : fs_state R ∅ k) (parent : bool).
Context (Hsz : Z.of_nat (size R) < 2 ^ 31 - 3) (Hfree : (size (dom R) + 2 <= NINODE)%nat).

Definition namex_step (st : nat * list Z * list Z) : M kernel (nat * list Z * list Z + option (nat * list Z)) :=
  let '(ip, path, name) := st in
  match skipelem path with
  | None =>
      if parent then do! iput ip in ret (inr None)
      else ret (inr (Some (ip, name)))
  | Some (path, name) =>
      do! ilock (Some ip) in
      let! x := get_inode ip in
      if negb (i_type x =? T_DIR) then do! iunlockput ip in ret (inr None) else
      if parent && (hd 0 path =? 0) then
        do! iunlock (Some ip) in ret (inr (Some (ip, name)))
      else
      let! r := dirlookup ip name in
      match r with
      | None => do! iunlockput ip in ret (inr None)
      | Some (next, _) => do! iunlockput ip in ret (inl (next, path, name))
      end
  end.

(** One reference more, to the inode found. *)
Definition walked (o : option (Z * list Z)) (r : option (nat * list Z)) (k' : kernel) : Prop :=
  match o with
  | None => r = None /\ moved k R ∅ k'
  | Some (n, name) => exists i, r = Some (i, name) /\ moved k (R ⊎ {[+ n +]}) ∅ k' /\ entry k' i n
  end.
Definition walking (o : option (Z * list Z)) (fuel : nat) (st : nat * list Z * list Z) (k' : kernel) : Prop :=
  let '(i, path, name) := st in
  exists n, moved k (R ⊎ {[+ n +]}) ∅ k' /\ entry k' i n /\ (length path < fuel)%nat /\ Forall is_byte path /\
    walkable V sb parent fuel n path /\ resolve V sb parent fuel n path name = o.

(** Giving back the directory the walk leaves. *)
Lemma leave_ok i n R' k1 :
  moved k (R' ⊎ {[+ n +]}) ({[i]} ∪ ∅) k1 -> entry k1 i n -> Z.of_nat (size R') < 2 ^ 31 - 2 -> i_nlink (on_disk V sb n) <> 0 ->
  wp (iunlockput i) (fun _ k' => moved k R' ∅ k' /\ forall j m, entry k1 j m -> m ∈ R' -> entry k' j m) k1.
Proof using Hfree Hroom Hsz.
  intros M1 He Hsz' Hnl. eapply wp_conseq; [apply (iunlockput_ok me pid dev P dirty V sb (R' ⊎ {[+ n +]}) ({[i]} ∪ ∅) i n)|cbv beta].
  - apply M1.
  - done.
  - set_solver +.
  - rewrite gmultiset_size_disj_union, gmultiset_size_singleton. lia.
  - by right.
  - intros _ k2 M2. rewrite disj_union_difference_same in M2.
    replace (({[i]} ∪ ∅) ∖ {[i]}) with (∅ : gset nat) in M2 by set_solver +. split; [|apply M2].
    apply (moved_trans _ _ _ _ _ _ _ _ _ _ _ _ _ _ M1 M2). intros m Hm. apply gmultiset_elem_of_disj_union. by left.
Qed.

(** The directory at the head of the path, locked. *)
Section descend.
Context (o : option (Z * list Z)) (fuel : nat) (n : Z) (i : nat) (path name : list Z) (k1 : kernel) (ip : inode).
Context (M1 : moved k (R ⊎ {[+ n +]}) ({[i]} ∪ ∅) k1) (Hi : inodes k1 !! i = Some ip) (Hip : locked_inode pid dev V sb n ip).
Context (Hnl : i_nlink (on_disk V sb n) <> 0) (Hel : elem_ok name) (Hpath : Forall is_byte path) (Hfuel : (length path < fuel)%nat).
Context (Hdir : i_type (on_disk V sb n) = T_DIR) (Hgo : parent && (hd 0 path =? 0) = false).
Context (Hw : readable V (on_disk V sb n) name /\
  match dir_find V (on_disk V sb n) name with None => True | Some (_, de) => walkable V sb parent fuel (de_inum de) path end).
Context (Ho : match dir_find V (on_disk V sb n) name with None => None | Some (_, de) => resolve V sb parent fuel (de_inum de) path name end = o).

Lemma locked_entry : entry k1 i n.
Proof using Hi Hip. exists ip. split_and!; [done|apply Hip|apply Hip]. Qed.

Lemma descend_ok :
  wp (let! r := dirlookup i name in
      match r with
      | None => do! iunlockput i in ret (inr None)
      | Some (next, _) => do! iunlockput i in ret (inl (next, path, name))
      end) (fun r k2 => match r with inl st => walking o fuel st k2 | inr x => walked o x k2 end) k1.
Proof using All.
  destruct (size_more R n Hsz Hfree) as [Hsz1 Hfree1]. pose proof (locked_eq n ip Hip) as Eip. pose proof locked_entry as He.
  destruct Hw as [Hrd Hwalk]. pose proof (mv_state _ _ _ _ _ _ _ _ _ _ _ M1) as HS1.
  apply wp_bind. eapply wp_conseq; [apply (dirlookup_ok (R ⊎ {[+ n +]}) ({[i]} ∪ ∅) k1 HS1 i ip name Hi)|cbv beta].
  - by rewrite Eip.
  - by rewrite Eip.
  - done.
  - apply (readable_ext V (on_disk V sb n)); [by rewrite Eip|by rewrite Eip|exact Hrd].
  - lia.
  - done.
  - by rewrite Eip.
  - intros r k2 Hf. unfold found in Hf.
    replace (dir_find V ip name) with (dir_find V (on_disk V sb n) name) in Hf by (unfold dir_find; by rewrite (dents_ext V (on_disk V sb n) ip) by (by rewrite Eip)).
    destruct (dir_find V (on_disk V sb n) name) as [[t de]|].
    + destruct Hf as (j & -> & M2 & Hj). rewrite disj_union_swap in M2. apply wp_bind.
      assert (M12 : moved k (R ⊎ {[+ de_inum de +]} ⊎ {[+ n +]}) ({[i]} ∪ ∅) k2).
      { apply (moved_more _ _ _ _ _ _ _ _ _ _ _ _ _ _ _ _ Hk M1 M2). intros m Hm. apply gmultiset_elem_of_disj_union. by left. }
      eapply wp_conseq; [apply (leave_ok i n (R ⊎ {[+ de_inum de +]}) k2 M12); [|apply size_more; done|done]|cbv beta].
      * apply M2; [done|]. apply gmultiset_elem_of_disj_union. right. by apply gmultiset_elem_of_singleton.
      * intros _ k3 [M3 He3]. apply wp_ret. exists (de_inum de). split_and!; [done| |done|done|done|done].
        apply He3; [done|]. apply gmultiset_elem_of_disj_union. right. by apply gmultiset_elem_of_singleton.
    + destruct Hf as [-> M2]. apply wp_bind. pose proof (moved_trans _ _ _ _ _ _ _ _ _ _ _ _ _ _ M1 M2 (fun _ H => H)) as M12.
      eapply wp_conseq; [apply (leave_ok i n R k2 M12); [|lia|done]|cbv beta].
      * apply M2; [done|]. apply gmultiset_elem_of_disj_union. right. by apply gmultiset_elem_of_singleton.
      * intros _ k3 [M3 _]. apply wp_ret. rewrite <- Ho. split; done.
Qed.
End descend.

Lemma namex_step_ok o fuel st k1 : walking o fuel st k1 -> wp (namex_step st) (fun r k2 =>
  match r with inl st' => exists fuel', walking o fuel' st' k2 /\ 0 <= Z.of_nat fuel' < Z.of_nat fuel | inr x => walked o x k2 end) k1.
Proof using KI C Hroom Hdirty DL  Hk Hsz Hfree.
  destruct st as [[i path] name]. intros (n & M1 & He & Hf & Hb & Hw & Ho). destruct fuel as [|fuel]; [lia|].
  destruct Hw as (Hty & Hnl & Hw). cbn [resolve] in Ho. destruct (size_more R n Hsz Hfree) as [Hsz1 Hfree1].
  unfold namex_step. destruct (skipelem path) as [[path' name']|] eqn:Es.
  - destruct (skipelem_ok _ _ _ Hb Es) as (Hlt & Hb' & Hel).
    apply wp_bind. eapply wp_conseq; [apply (ilock_ok me pid dev P dirty V sb Hroom Hdirty (R ⊎ {[+ n +]}) ∅ i n); [apply M1|done|set_solver +|lia|done]|cbv beta].
    intros _ k2 (M2 & ip & Hi & Hip). pose proof (moved_trans _ _ _ _ _ _ _ _ _ _ _ _ _ _ M1 M2 (fun _ H => H)) as M12.
    pose proof (locked_eq n ip Hip) as Eip. assert (He2 : entry k2 i n) by (by eapply locked_entry).
    apply wp_bind. eapply wp_get_inode; [exact Hi|]. assert (i_type ip = i_type (on_disk V sb n)) as -> by (by rewrite Eip).
    destruct (Z.eqb_spec (i_type (on_disk V sb n)) T_DIR) as [Hdir|Hdir]; cbn [negb] in *.
    + destruct (parent && (hd 0 path' =? 0)) eqn:Ep.
      * apply wp_bind. eapply wp_conseq; [apply (iunlock_ok me pid dev P dirty V sb (R ⊎ {[+ n +]}) ({[i]} ∪ ∅) i n); [apply M2|done|set_solver +|lia]|cbv beta].
        intros _ k3 M3. apply wp_ret. rewrite <- Ho. exists i. split_and!; [done| |].
        -- replace (({[i]} ∪ ∅) ∖ {[i]}) with (∅ : gset nat) in M3 by set_solver +.
           exact (moved_trans _ _ _ _ _ _ _ _ _ _ _ _ _ _ M12 M3 (fun _ H => H)).
        -- apply M3; [done|]. apply gmultiset_elem_of_disj_union. right. by apply gmultiset_elem_of_singleton.
      * eapply wp_conseq; [apply (descend_ok o fuel n i path' name' k2 ip M12 Hi Hip Hnl Hel Hb'); [lia|done|done|by apply Hw|exact Ho]|cbv beta].
        intros [st'|x] k3 H3; [|exact H3]. exists fuel. split; [exact H3|lia].
    + apply wp_bind. eapply wp_conseq; [apply (leave_ok i n R k2 M12 He2); [lia|done]|cbv beta].
      intros _ k3 [M3 _]. apply wp_ret. rewrite <- Ho. split; [done|exact M3].
  - destruct parent eqn:Epar.
    + apply wp_bind. eapply wp_conseq; [apply (iput_ok me pid dev P dirty V sb (R ⊎ {[+ n +]}) ∅ i n); [apply M1|done|lia|by right]|cbv beta].
      intros _ k2 M2. apply wp_ret. rewrite <- Ho. split; [done|]. rewrite disj_union_difference_same in M2.
      apply (moved_trans _ _ _ _ _ _ _ _ _ _ _ _ _ _ M1 M2). intros m Hm. apply gmultiset_elem_of_disj_union. by left.
    + apply wp_ret. rewrite <- Ho. exists i. split_and!; [done|exact M1|exact He].
Qed.

(** Where a walk of [path] starts. *)
Definition starts (path : list Z) (n : Z) : Prop :=
  if hd 0 path =? slash then dev = ROOTDEV /\ n = ROOTINO
  else exists p c, procs k !! me = Some p /\ p_cwd p = Some c /\ entry k c n.

Lemma walk_start_ok path n : starts path n ->
  wp (if hd 0 path =? slash then iget ROOTDEV ROOTINO
      else let! me := myproc1 in
           let! p := get_proc me in
           let! cwd := deref (p_cwd p) in
           idup cwd) (fun i k' => moved k (R ⊎ {[+ n +]}) ∅ k' /\ entry k' i n) k.
Proof using Hk Hsz Hfree Hroom.
  unfold starts. destruct (hd 0 path =? slash).
  - intros [<- ->]. apply (iget_moved me pid dev P dirty V sb R ∅ ROOTINO k Hk); [unfold ROOTINO; lia|lia|right; lia].
  - intros (p & c & Hp & Hc & He). pose proof (ca_thread _ _ _ _ _ _ _ _ (fs_cache _ _ _ _ _ _ _ _ _ _ Hk)) as Ht.
    apply wp_bind. unfold myproc1. apply wp_bind. eapply wp_eq; [apply myproc_eq, (th_table _ _ _ Ht)|].
    rewrite (th_me _ _ _ Ht). eapply wp_eq; [reflexivity|]. apply wp_bind. eapply wp_eq; [unfold get_proc, idx_get; cbn [procs upd_mach]; by rewrite Hp|].
    rewrite Hc. apply wp_bind. eapply wp_eq; [reflexivity|].
    assert (Hk1 : fs_state R ∅ (upd_mach touch k)) by (destruct Hk as [H1 H2 H3]; split; [by apply cache_touch|done|done]).
    eapply wp_conseq; [apply (idup_ok me pid dev P dirty V sb R ∅ c n); [done|done|lia]|cbv beta].
    intros r k2 [-> M2]. split; [split; [apply M2|apply M2|apply M2]|]. apply M2; [done|].
    apply gmultiset_elem_of_disj_union. right. by apply gmultiset_elem_of_singleton.
Qed.

Lemma namex_ok path n :
  Forall is_byte path -> Z.of_nat (length path) < 2 ^ 32 -> starts path n -> walkable V sb parent (S (length path)) n path ->
  wp (namex path parent) (walked (resolved V sb parent n path)) k.
Proof using KI C Hroom Hdirty DL  Hk Hsz Hfree.
  intros Hb Hl Hst Hw. apply wp_bind. eapply wp_conseq; [by apply walk_start_ok|cbv beta]. intros i k1 [M1 He].
  apply (wp_while_ghost namex_step (walking (resolved V sb parent n path)) Z.of_nat _ (S (length path))).
  - intros fuel st k2. apply namex_step_ok.
  - exists n. split_and!; [done|done|lia|done|done|done].
  - lia.
Qed.

(** [C4] Path resolution: on inodes that are allocated and linked, [namex]
    returns, without a panic, exactly what resolving the path on the content of
    the disk gives, an absolute path from the root and any other from the
    current directory: the first entry of each name, compared on its first 14
    characters, and no inode where the name is missing or an element is not a
    directory. It keeps one reference to the inode it returns, gives back all
    the others it took, holds no lock, and leaves the disk, the log and every
    other reference as they were. *)
Theorem namex_resolves path n :
  Forall is_byte path -> Z.of_nat (length path) < 2 ^ 32 -> starts path n -> walkable V sb parent (S (length path)) n path ->
  exists r k', namex path parent k = Ret r k' /\ walked (resolved V sb parent n path) r k'.
Proof using KI C Hroom Hdirty DL Hk Hsz Hfree.
  intros Hb Hl Hst Hw. destruct (wp_inv _ _ _ (namex_ok path n Hb Hl Hst Hw)) as (r & k' & E & H). by exists r, k'.
Qed.
End walk.
End lookup.
