(* ===== verification/FsMkfs.v ===== *)
(** * The kernel on an image of mkfs

    The components of the file system together: the kernel starts on the image
    [mkfs] builds, reads the super block and recovers the log, resolves the
    path of a file and reads the file through the inode and its blocks. *)

From stdpp Require Import gmultiset.
From S2P Require Import Mkfs MkfsSpec.
From S2P Require Import Prelude Riscv Memory Machine Spinlock Kalloc Vm Kernel Klock KSample Cstring Printf Proc Sched ProcSpec.
From S2P Require Import Sleeplock SleepSpec Bio Lru BioSpec Log LogSpec LogSafe Fs FsRead Inodes FsPath FsSample.

Lemma data_get_sub n data o x m : 0 <= o -> 0 <= x -> (Z.to_nat x + n <= m)%nat ->
  data_get n (take m (drop (Z.to_nat o) data)) x = data_get n data (o + x).
Proof.
  intros Ho Hx Hm. unfold data_get. f_equal. rewrite skipn_firstn_comm, take_take, drop_drop. rewrite Z2Nat.inj_add by done.
  f_equal. lia.
Qed.

(** ** The entries of the root directory *)

(** The characters of a name. *)
Definition is_char (c : Z) : Prop := 0 < c < 256.

Lemma cstr_chars s t : Forall (fun c => c <> 0) s -> cstr (s ++ t) = s ++ cstr t.
Proof. induction 1 as [|c s Hc _ IH]; [done|]. simpl. rewrite IH. by destruct (Z.eqb_spec c 0). Qed.
Lemma cstr_zeros n : cstr (replicate n 0) = [].
Proof. by destruct n. Qed.
Lemma char_nonzero s : Forall is_char s -> Forall (fun c => c <> 0) s.
Proof. apply Forall_impl. unfold is_char. lia. Qed.
Lemma char_byte s : Forall is_char s -> Forall is_byte s.
Proof. apply Forall_impl. unfold is_char, is_byte. lia. Qed.

Lemma le_bytes_byte n v : Forall is_byte (le_bytes n v).
Proof.
  revert v. induction n as [|n IH]; intros v; simpl; [constructor|]. constructor; [|apply IH]. apply Z.mod_pos_bound. done.
Qed.

Lemma dirent_fields n nm : 0 <= n < 2 ^ 16 -> Forall is_char nm ->
  de_inum (dirent n nm) = n /\ cstr (de_name (dirent n nm)) = take DIRSIZ nm /\ Forall is_byte (dirent n nm).
Proof.
  intros Hn Hc. unfold dirent. rewrite xshort_small by done. pose proof (length_le_bytes 2 n) as Hl.
  pose proof (list.Forall_take _ DIRSIZ _ Hc) as Ht. split_and!.
  - unfold de_inum, data_get. change (Z.to_nat 0) with 0%nat. rewrite drop_0, take_app_le, take_ge by lia. rewrite le_val_bytes. by apply Z.mod_small.
  - unfold de_name. rewrite drop_app_le, drop_ge, app_nil_l by lia. rewrite cstr_chars, cstr_zeros by (by apply char_nonzero). apply app_nil_r.
  - repeat (apply list.Forall_app; split); [apply le_bytes_byte|by apply char_byte|]. apply list.Forall_replicate. done.
Qed.

Definition root_list (names : list (list Z)) : list (list Z) :=
  dirent 1 (bytes_of ".") :: dirent 1 (bytes_of "..") :: imap (fun i n => dirent (Z.of_nat i + 2) n) names.
Lemma root_list_length names : Forall (fun d => length d = 16%nat) (root_list names) /\ length (root_list names) = (2 + length names)%nat.
Proof.
  split; [|unfold root_list; simpl; by rewrite length_imap].
  apply list.Forall_forall. intros d Hd. unfold root_list in Hd. rewrite !elem_of_cons, list_elem_of_lookup in Hd.
  destruct Hd as [->|[->|[i Hi]]]; [apply length_dirent..|]. rewrite list_lookup_imap in Hi. apply fmap_Some in Hi as (? & _ & ->). apply length_dirent.
Qed.
Lemma root_list_entry names i nm : names !! i = Some nm -> root_list names !! S (S i) = Some (dirent (Z.of_nat i + 2) nm).
Proof. intros H. simpl. by rewrite list_lookup_imap, H. Qed.

(** ** What the kernel sees of an image *)

Section image.
Context (sec : gmap Z (list Z)) (files : list (list Z * list (list Z))) (Hh : holds_files sec files) (Hfit : fits files).
(** The log header, block 2, may have been written. *)
Context (V : Z -> list Z) (HV : forall b, b <> 2 -> V b = sector sec b).

#[local] Notation disk := (on_disk V the_sb).

Lemma disk_fields n : 0 <= n < NINODES ->
  let din := inode_at sec n in
  i_type (disk n) = s16 (din_type din) /\ i_nlink (disk n) = s16 (din_nlink din) /\ i_size (disk n) = data_get 4 din 8 /\
  length (i_addrs (disk n)) = 13%nat /\ forall j, (j < 13)%nat -> i_addrs (disk n) !! j = Some (din_addr din (Z.of_nat j)).
Proof using HV.
  intros Hn din. destruct (IBLOCK_range n Hn) as [Eb Hb]. unfold on_disk, loaded, load_dinode. cbn [i_inum i_type i_nlink i_size i_addrs].
  rewrite HV by lia. unfold dip_off. set (o := DINODE_SIZE * (n mod IPB)).
  assert (Ho : 0 <= o) by (unfold o; pose proof (Z.mod_pos_bound n IPB eq_refl); unfold DINODE_SIZE; lia).
  assert (Hg : forall w x, 0 <= x -> (Z.to_nat x + w <= 64)%nat -> data_get w (sector sec (IBLOCK n the_sb)) (o + x) = data_get w din x).
  { intros w x Hx Hw. unfold din, inode_at. fold o. by rewrite data_get_sub. }
  split_and!; [unfold din_type; rewrite <- Hg by (simpl; lia); done|unfold din_nlink; rewrite <- Hg by (simpl; lia); done|rewrite <- Hg by (simpl; lia); done|done|].
  intros j Hj. rewrite list_lookup_fmap, lookup_seqZ_lt by (unfold NDIRECT; lia). simpl. f_equal. unfold din_addr. rewrite <- Hg by lia.
  f_equal. lia.
Qed.

Section file.
Context (i : nat) (f : Z * list Z) (Hi : contents files !! i = Some f).

Lemma contents_range : 0 <= Z.of_nat i + 1 < NINODES.
Proof using Hfit Hi.
  apply lookup_lt_Some in Hi. unfold contents in Hi. simpl in Hi. rewrite length_fmap in Hi. pose proof (ft_inodes _ Hfit). lia.
Qed.
Lemma contents_size : (length f.2 <= 1024 * 268)%nat.
Proof using Hfit Hi.
  pose proof (ft_inodes _ Hfit) as Hn. destruct i as [|i']; simpl in Hi.
  - injection Hi as <-. cbn [snd]. rewrite length_root, length_fmap. unfold NINODES in Hn. lia.
  - rewrite list_lookup_fmap in Hi. apply fmap_Some in Hi as (g & Hg & ->).
    exact (list.Forall_lookup_1 _ _ _ _ (ft_sizes _ Hfit) Hg).
Qed.

Lemma owns_range b : b ∈ file_owns sec (inode_at sec (Z.of_nat i + 1)) (length f.2) -> 46 <= b.
Proof using Hh Hi.
  intros Hb. destruct (hf_blocks _ _ Hh i f Hi) as [_ Hr]. rewrite list.Forall_forall in Hr.
  destruct (Hr b Hb) as [Hl _]. exact Hl.
Qed.

Lemma disk_block j : (j < blocks_for (length f.2))%nat ->
  mapped V (disk (Z.of_nat i + 1)) j /\ V (iblock V (disk (Z.of_nat i + 1)) j) = chunk f.2 j.
Proof using Hh Hfit HV Hi.
  intros Hj. destruct (disk_fields _ contents_range) as (_ & _ & _ & Hla & Ha). set (ip := disk _) in *. set (din := inode_at _ _) in *.
  pose proof (blocks_for_spec (length f.2)) as Hbs. pose proof contents_size as Hcs.
  assert (Hown : 46 <= file_block sec din j).
  { apply owns_range. apply elem_of_app. left. apply list_elem_of_fmap. exists j. split; [done|]. apply elem_of_seq. lia. }
  assert (Hind : (12 <= j)%nat -> 46 <= din_addr din NDIRECT).
  { intros H12. apply owns_range. apply elem_of_app. right. destruct (Nat.ltb_spec 12 (blocks_for (length f.2))); [|lia].
    by apply list_elem_of_singleton. }
  assert (E : iblock V ip j = file_block sec din j).
  { unfold iblock, file_block. destruct (Nat.ltb_spec j 12) as [Hd|Hd]; [by rewrite Ha by lia|].
    rewrite (Ha 12%nat) by lia. change (default 0 (Some ?x)) with x. change (Z.of_nat 12) with NDIRECT. rewrite HV; [done|]. specialize (Hind Hd). lia. }
  assert (Ev : V (iblock V ip j) = chunk f.2 j) by (rewrite E, HV by lia; by apply (hf_sectors _ _ Hh i f j)).
  split; [|done]. split_and!; [lia|rewrite E; lia| |rewrite Ev; apply length_chunk].
  intros H12. rewrite (Ha 12%nat) by lia. change (default 0 (Some ?x)) with x. change (Z.of_nat 12) with NDIRECT. specialize (Hind H12). lia.
Qed.

(** The bytes the kernel reads. *)
Lemma disk_bytes off n : (off + n <= length f.2)%nat -> ibytes V (disk (Z.of_nat i + 1)) off n = take n (drop off f.2).
Proof using Hh Hfit HV Hi.
  intros Hn. apply list_eq. intros x. unfold ibytes. rewrite list_lookup_fmap. destruct (decide (x < n)%nat) as [Hx|Hx].
  - rewrite lookup_seq_lt, lookup_take_lt, lookup_drop by done. cbn [fmap option_fmap option_map]. unfold ibyte.
    set (o := (off + x)%nat). pose proof (Nat.div_mod o 1024 ltac:(done)) as Hdm. pose proof (Nat.mod_upper_bound o 1024 ltac:(done)) as Hmb.
    pose proof (blocks_for_spec (length f.2)) as Hbs. assert (o < length f.2)%nat by (unfold o; lia).
    destruct (disk_block (o / 1024)) as [_ ->]; [lia|]. rewrite chunk_lookup, decide_True by lia.
    replace (1024 * (o / 1024) + o mod 1024)%nat with o by lia.
    destruct (lookup_lt_is_Some_2 f.2 o) as [c ->]; done.
  - rewrite lookup_seq_ge, lookup_take_ge by lia. done.
Qed.
End file.

(** File [i] is the first one of its name. *)
Record reachable (i : nat) (f : list Z * list (list Z)) : Prop := mk_reachable {
  rn_file : files !! i = Some f;
  rn_chars : Forall (fun g => Forall is_char (shortname g.1)) files;
  rn_name : shortname f.1 ∉ [[]; bytes_of "."; bytes_of ".."];
  rn_first j g : (j < i)%nat -> files !! j = Some g -> take DIRSIZ (shortname g.1) <> take DIRSIZ (shortname f.1)
}.

#[local] Notation short := (fun f : list Z * list (list Z) => shortname f.1).

Lemma root_dent t d : root_list (short <$> files) !! t = Some d -> dent V (disk ROOTINO) t = d.
Proof using Hh Hfit HV.
  intros Hd. destruct (root_list_length (short <$> files)) as [Hl Hn]. rewrite length_fmap in Hn.
  pose proof (lookup_lt_Some _ _ _ Hd) as Ht. unfold dent. change ROOTINO with (Z.of_nat 0 + 1).
  rewrite (disk_bytes 0 (T_DIR, root_entries (short <$> files))) by (done || cbn [snd]; rewrite length_root, length_fmap; lia).
  by apply (slice_concat (root_list (short <$> files)) 16 t d Hl).
Qed.

Lemma disk_root : i_type (disk ROOTINO) = T_DIR /\ i_nlink (disk ROOTINO) = 1 /\
  i_size (disk ROOTINO) = Z.of_nat (1024 * rounded (32 + 16 * length files)).
Proof using Hh HV.
  destruct (disk_fields ROOTINO) as (-> & -> & -> & _); [done|]. destruct (hf_root _ _ Hh) as (-> & -> & _). split_and!; [done|done|].
  pose proof (hf_sizes _ _ Hh 0%nat _ eq_refl) as E. rewrite decide_True in E by done. change (Z.of_nat 0 + 1) with ROOTINO in E. rewrite E. cbn [snd].
  by rewrite length_root, length_fmap.
Qed.

Section found.
Context (i : nat) (f : list Z * list (list Z)) (Hr : reachable i f) (name : list Z) (Hn : cstr name = take DIRSIZ (shortname f.1)).

(** The entries before the one of the file are others, the one is its. *)
Lemma root_entry t : (t <= S (S i))%nat -> exists d, root_list (short <$> files) !! t = Some d /\ Forall is_byte d /\
  (if decide (t = S (S i)) then names name d /\ de_inum d = Z.of_nat i + 2 else ~ names name d).
Proof using Hfit Hr Hn.
  intros Ht. destruct Hr as [Hf Hc Hnm Hfst]. pose proof (lookup_lt_Some _ _ _ Hf) as Hlt. pose proof (ft_inodes _ Hfit) as Hin. unfold NINODES in Hin.
  assert (Hdot : forall d, d = bytes_of "." \/ d = bytes_of ".." -> Forall is_char d /\ take DIRSIZ d = d /\ take DIRSIZ (shortname f.1) <> d).
  { intros d Hd. split_and!; [by destruct Hd as [->| ->]; repeat constructor|by destruct Hd as [->| ->]|].
    intros E. apply Hnm. assert (length (take DIRSIZ (shortname f.1)) < 14)%nat by (rewrite E; destruct Hd as [->| ->]; simpl; lia).
    rewrite length_take in *. rewrite take_ge in E by (unfold DIRSIZ in *; lia). rewrite E. set_solver +Hd. }
  destruct t as [|[|t]].
  - destruct (Hdot (bytes_of ".")) as (H1 & H2 & H3); [by left|]. destruct (dirent_fields 1 (bytes_of ".") ltac:(done) H1) as (F1 & F2 & F3).
    eexists. split_and!; [reflexivity|exact F3|]. rewrite decide_False by lia. intros [_ E]. rewrite Hn, F2, H2 in E. done.
  - destruct (Hdot (bytes_of "..")) as (H1 & H2 & H3); [by right|]. destruct (dirent_fields 1 (bytes_of "..") ltac:(done) H1) as (F1 & F2 & F3).
    eexists. split_and!; [reflexivity|exact F3|]. rewrite decide_False by lia. intros [_ E]. rewrite Hn, F2, H2 in E. done.
  - destruct (lookup_lt_is_Some_2 files t) as [g Hg]; [lia|].
    pose proof (list.Forall_lookup_1 _ _ _ _ Hc Hg) as Hgc. cbv beta in Hgc.
    destruct (dirent_fields (Z.of_nat t + 2) (shortname g.1) ltac:(lia) Hgc) as (F1 & F2 & F3).
    eexists. split_and!; [apply root_list_entry; by rewrite list_lookup_fmap, Hg|done|]. case_decide as E.
    + injection E as ->. rewrite Hf in Hg. injection Hg as ->. split; [|done]. split; [rewrite F1; lia|by rewrite F2].
    + intros [_ E']. rewrite Hn, F2 in E'. by apply (Hfst t g); [lia|done|].
Qed.

Lemma root_take t : (t <= S (S i))%nat -> Forall (fun de => ~ names name de) (take t (dents V (disk ROOTINO))).
Proof using Hh Hfit HV Hr Hn.
  intros Ht. apply list.Forall_lookup_2. intros x de Hx. apply lookup_take_Some in Hx as [Hx Hxt].
  rewrite dents_lookup in Hx by (by eapply lookup_lt_Some). injection Hx as <-.
  destruct (root_entry x) as (d & Hd & _ & Hno); [lia|]. rewrite decide_False in Hno by lia. by rewrite (root_dent x d Hd).
Qed.
Lemma root_room : (S (S i) < length (dents V (disk ROOTINO)))%nat /\ (rounded (32 + 16 * length files) <= 4)%nat.
Proof using Hh Hfit HV Hr.
  rewrite length_dents. destruct disk_root as (_ & _ & ->). rewrite Nat2Z.id. pose proof (lookup_lt_Some _ _ _ (rn_file _ _ Hr)) as Hlt.
  unfold rounded. set (n := (32 + 16 * length files)%nat). pose proof (Nat.div_mod n 1024 ltac:(done)). pose proof (Nat.mod_upper_bound n 1024 ltac:(done)).
  pose proof (ft_inodes _ Hfit) as Hin. unfold NINODES in Hin. split; [|lia].
  replace (1024 * S (n / 1024))%nat with ((64 * S (n / 1024)) * 16)%nat by lia. rewrite Nat.div_mul by done. lia.
Qed.

Lemma root_find : exists d, dir_find V (disk ROOTINO) name = Some (S (S i), d) /\ de_inum d = Z.of_nat i + 2.
Proof using Hh Hfit HV Hr Hn.
  destruct (root_entry (S (S i)) (le_n _)) as (d & Hd & _ & Hnm). rewrite decide_True in Hnm by done. destruct Hnm as [Hnm En].
  exists d. split; [|done]. rewrite <- (root_dent _ _ Hd). apply dir_find_here; [apply root_room|by apply root_take|by rewrite (root_dent _ _ Hd)].
Qed.

Lemma root_readable : readable V (disk ROOTINO) name.
Proof using Hh Hfit HV Hr Hn.
  destruct root_room as [Hrm Hr4]. split.
  - destruct disk_root as (_ & _ & ->). split; [lia|]. rewrite Nat2Z.inj_mul. change (Z.of_nat 1024) with (64 * 16).
    rewrite <- Z.mul_assoc, (Z.mul_comm 16), Z.mul_assoc. apply Z.mod_mul. done.
  - intros t Ht Hpre. assert (Hti : (t <= S (S i))%nat).
    { destruct (decide (t <= S (S i))%nat) as [|Hgt]; [done|]. exfalso.
      destruct (root_entry (S (S i)) (le_n _)) as (d & Hd & _ & Hnm). rewrite decide_True in Hnm by done.
      apply (list.Forall_lookup_1 _ _ (S (S i)) d Hpre); [|apply Hnm].
      rewrite lookup_take_lt by lia. rewrite dents_lookup by done. by rewrite (root_dent _ _ Hd). }
    destruct (root_entry t Hti) as (d & Hd & Hb & _). rewrite (root_dent _ _ Hd). split; [|done].
    change ROOTINO with (Z.of_nat 0 + 1). apply (disk_block 0 (T_DIR, root_entries (short <$> files))); [done|]. cbn [snd]. rewrite length_root, length_fmap.
    pose proof (lookup_lt_Some _ _ _ (rn_file _ _ Hr)) as Hlt.
    pose proof (blocks_for_spec (32 + 16 * length files)). pose proof (Nat.div_mod t 64 ltac:(done)). lia.
Qed.
End found.
End image.

(** ** The path of a file *)

Lemma path_elem_name nm r : Forall is_char nm -> slash ∉ nm -> path_elem (nm ++ 0 :: r) = (nm, 0 :: r).
Proof.
  induction 1 as [|c nm Hc _ IH]; intros Hs; [done|]. apply not_elem_of_cons in Hs as [H1 H2]. simpl. rewrite IH by done. unfold nz, is_char in *.
  destruct (Z.eqb_spec c slash); [congruence|]. destruct (Z.eqb_spec c 0); [lia|done].
Qed.

Lemma shortname_slash arg : slash ∉ (if bool_decide (take 5 arg = bytes_of "user/") then drop 5 arg else arg) -> slash ∉ shortname arg.
Proof.
  intros H. unfold shortname. set (s := if bool_decide _ then _ else _) in *. clearbody s. destruct s as [|c s]; [done|].
  apply not_elem_of_cons in H as [H1 H2]. destruct (c =? 95); [done|]. by apply not_elem_of_cons.
Qed.

Definition path_of (arg : list Z) : list Z := slash :: shortname arg ++ [0].
(** The name as [skipelem] stores it. *)
Definition elem_of_name (nm : list Z) : list Z := if (DIRSIZ <=? length nm)%nat then take DIRSIZ nm else nm ++ [0].

Lemma elem_cstr nm : Forall is_char nm -> cstr (elem_of_name nm) = take DIRSIZ nm.
Proof.
  intros Hc. unfold elem_of_name. destruct (Nat.leb_spec DIRSIZ (length nm)).
  - rewrite <- (app_nil_r (take DIRSIZ nm)) at 1. rewrite cstr_chars; [apply app_nil_r|]. by apply char_nonzero, list.Forall_take.
  - rewrite cstr_chars by (by apply char_nonzero). rewrite app_nil_r. by rewrite take_ge by lia.
Qed.
Lemma skipelem_path arg : Forall is_char (shortname arg) -> slash ∉ shortname arg -> shortname arg <> [] ->
  skipelem (path_of arg) = Some ([0], elem_of_name (shortname arg)).
Proof.
  intros Hc Hs Hne. unfold skipelem, path_of. cbn [skip_slashes]. rewrite Z.eqb_refl.
  assert (E : skip_slashes (shortname arg ++ [0]) = shortname arg ++ [0] /\ (hd 0 (shortname arg ++ [0]) =? 0) = false).
  { destruct (shortname arg) as [|c nm]; [done|]. apply not_elem_of_cons in Hs as [Hs _]. inversion Hc as [|?? H _]; subst. unfold is_char in H. simpl.
    destruct (Z.eqb_spec c slash); [congruence|]. split; [done|]. destruct (Z.eqb_spec c 0); [lia|done]. }
  destruct E as [-> ->]. by rewrite path_elem_name.
Qed.
Lemma skipelem_end : skipelem [0] = None.
Proof. done. Qed.

Section found_path.
Context (sec : gmap Z (list Z)) (files : list (list Z * list (list Z))) (Hh : holds_files sec files) (Hfit : fits files).
Context (V : Z -> list Z) (HV : forall b, b <> 2 -> V b = sector sec b).
Context (i : nat) (f : list Z * list (list Z)) (Hr : reachable files i f).

#[local] Notation disk := (on_disk V the_sb).

Lemma name_ok : Forall is_char (shortname f.1) /\ slash ∉ shortname f.1 /\ shortname f.1 <> [].
Proof using Hfit Hr.
  destruct Hr as [Hf Hc Hn _]. split_and!.
  - exact (list.Forall_lookup_1 _ _ _ _ Hc Hf).
  - apply shortname_slash. exact (list.Forall_lookup_1 _ _ _ _ (ft_names _ Hfit) Hf).
  - intros E. apply Hn. rewrite E. left.
Qed.

Lemma disk_file : let ip := disk (Z.of_nat i + 2) in
  i_type ip = T_FILE /\ i_nlink ip = 1 /\ i_size ip = Z.of_nat (length (concat f.2)) /\ length (i_addrs ip) = 13%nat.
Proof using Hh Hfit HV Hr.
  intros ip. pose proof (rn_file _ _ _ Hr) as Hf. destruct (hf_files _ _ Hh i f Hf) as (Ht & Hn & _).
  assert (Hc : contents files !! S i = Some (a_file f)) by (simpl; by rewrite list_lookup_fmap, Hf).
  pose proof (contents_range files Hfit (S i) _ Hc) as Hin. pose proof (hf_sizes _ _ Hh (S i) _ Hc) as Hz. rewrite decide_False in Hz by done.
  replace (Z.of_nat (S i) + 1) with (Z.of_nat i + 2) in * by lia.
  destruct (disk_fields sec V HV _ Hin) as (E1 & E2 & E3 & E4 & _). unfold ip. rewrite E1, E2, E3, Ht, Hn, Hz. done.
Qed.

Lemma path_walkable : walkable V the_sb false (S (length (path_of f.1))) ROOTINO (path_of f.1) /\
  resolved V the_sb false ROOTINO (path_of f.1) = Some (Z.of_nat i + 2, elem_of_name (shortname f.1)).
Proof using Hh Hfit HV Hr.
  destruct name_ok as (Hc & Hs & Hne). pose proof (elem_cstr _ Hc) as Ec. set (nm := elem_of_name _) in *.
  destruct (root_find sec files Hh Hfit V HV i f Hr nm Ec) as (d & Hd & En).
  destruct (disk_root sec files Hh V HV) as (T1 & N1 & _). destruct disk_file as (T2 & N2 & _).
  assert (Hl : exists n, length (path_of f.1) = S n) by (simpl; eauto). destruct Hl as [n Hl].
  unfold resolved. rewrite Hl. cbn [walkable resolve]. rewrite skipelem_path by done. fold nm. rewrite T1, N1, Hd, En.
  rewrite skipelem_end, T2, N2. split; [|done]. split_and!; [done|done|]. intros _ _. split; [|done].
  by apply (root_readable sec files Hh Hfit V HV i f Hr).
Qed.
End found_path.

(** ** Starting the kernel *)

Lemma no_pins : (size (∅ : gset Z) < NBUF)%nat.
Proof. rewrite size_empty. unfold NBUF. lia. Qed.
Lemma no_dirt : (∅ : gset Z) ⊆ ∅.
Proof. done. Qed.

Section boot.
Context {KI : KernelImage} {C : Config} {D : BlockDevice} {DL : Disk}.
Context (me : nat) (pid : Z).

#[local] Notation cache := (cache me pid ROOTDEV).

(** A kernel whose disk is [img], with nothing cached yet, at the first process's
    call of [fsinit]. *)
Record fresh_kernel (img : Z -> list Z) (k : kernel) : Prop := mk_fresh_kernel {
  fk_cache : cache ∅ ∅ ∅ img k;
  fk_log : length (lh_block (l_lh (klog k))) = Z.to_nat LOGSIZE;
  fk_inodes : length (inodes k) = NINODE /\ Forall (fun ip => i_ref ip = 0 /\ i_lock ip = mk_sleeplock false 0) (inodes k)
}.

Lemma initlog_lock k : thread me pid k -> lift (initlock LkLog) k = Ret tt k.
Proof using.
  intros Ht. pose proof (th_locks _ _ _ Ht LkLog ltac:(fs_lock)) as Hf. unfold free in Hf.
  erewrite lift_eq by reflexivity. f_equal. unfold set_locks. rewrite insert_id by exact Hf. by destruct k as [[]].
Qed.

Lemma cache_ksb V f k : cache ∅ ∅ ∅ V k -> cache ∅ ∅ ∅ V (upd_ksb f k).
Proof using.
  intros Hc. apply (cache_thread me pid ROOTDEV ∅ ∅ ∅ V k); try done. by apply (thread_ext _ _ k), (ca_thread _ _ _ _ _ _ _ _ Hc).
Qed.

Lemma readsb_ok V k : cache ∅ ∅ ∅ V k ->
  wp (readsb ROOTDEV) (fun s k' => s = sb_of (V 1) /\ looked me pid ROOTDEV ∅ ∅ V k k') k.
Proof using DL.
  intros Hc. unfold readsb. apply wp_bind.
  eapply wp_conseq; [by apply (open_block me pid ROOTDEV ∅ ∅ V no_pins)|cbv beta]. intros b k1 W1.
  destruct (held_data _ _ _ _ _ _ _ _ _ _ W1) as (x & Ex & Ed). apply wp_bind. eapply wp_eq; [exact Ex|].
  apply wp_bind. eapply wp_conseq; [eapply (close_block me pid ROOTDEV ∅ ∅ V no_dirt); exact W1|cbv beta]. intros _ k2 L2. apply wp_ret. by rewrite Ed.
Qed.

Section fsinit.
Context (V : Z -> list Z) (Hsb : sb_of (V 1) = the_sb) (Hlog : V 2 = zeroes).

Lemma empty_log : recoverable 2 30 V.
Proof using Hlog.
  assert (E : head_n (V 2) = 0) by (by rewrite Hlog). split; [by rewrite Hlog|by rewrite E|].
  unfold head_blocks. rewrite E. by apply targets_nil.
Qed.

Lemma fsinit_ok k : cache ∅ ∅ ∅ V k -> length (lh_block (l_lh (klog k))) = Z.to_nat LOGSIZE ->
  wp (fsinit ROOTDEV) (fun _ k' => exists V', cache ∅ ∅ ∅ V' k' /\ (forall b, b <> 2 -> V' b = V b) /\ ksb k' = the_sb /\
    inodes k' = inodes k /\ logged ROOTDEV 2 [] (klog k')) k.
Proof using DL Hsb Hlog.
  intros Hc Hl. unfold fsinit. apply wp_bind. eapply wp_conseq; [by apply readsb_ok|cbv beta]. intros s k1 [-> L1]. rewrite Hsb.
  destruct (looked_inodes _ _ _ _ _ _ _ _ L1) as [I1 _]. apply wp_bind, wp_modify. change (sb_magic the_sb =? FSMAGIC) with true. cbn [negb].
  unfold initlog. set (k2 := upd_ksb _ k1).
  assert (C2 : cache ∅ ∅ ∅ V k2).
  { apply cache_ksb. exact (looked_cache _ _ _ _ _ _ _ _ L1). }
  apply wp_bind. eapply wp_eq; [apply initlog_lock, (ca_thread _ _ _ _ _ _ _ _ C2)|]. apply wp_bind, wp_modify.
  set (k3 := upd_klog _ k2). assert (C3 : cache ∅ ∅ ∅ V k3) by (by apply cache_klog).
  assert (L3 : length (lh_block (l_lh (klog k3))) = Z.to_nat LOGSIZE).
  { change (lh_block (l_lh (klog k3))) with (lh_block (l_lh (klog k1))). destruct L1 as [_ [_ ->] _]. done. }
  eapply wp_conseq; [apply (recover_from_log_ok me pid ROOTDEV 2 30 ltac:(done) ltac:(done) ltac:(done) V k3); [done|done|done|done|exact empty_log]|cbv beta].
  intros _ k4 (C4 & O4 & _ & Lg4). exists (disk_after V (recover_writes 2 V)). unfold others in O4. split_and!; [done| | | |done].
  - intros b Hb. unfold recover_writes, head_blocks. replace (head_n (V 2)) with 0 by (by rewrite Hlog). simpl. by rewrite decide_False by congruence.
  - by injection O4.
  - injection O4. intros. by rewrite <- I1.
Qed.
End fsinit.

(** Reading a file from its path, as [exec] does with a program. *)
Definition read_file (path : list Z) : M kernel (option (list Z)) :=
  let! o := namei path in
  match o with
  | None => ret None
  | Some i =>
      do! ilock (Some i) in
      let! ip := get_inode i in
      let! r := readi i DObj 0 (i_size ip) in
      do! iunlockput i in
      ret (Some (snd r))
  end.

Lemma empty_table V k : length (inodes k) = NINODE -> Forall (fun ip => i_ref ip = 0 /\ i_lock ip = mk_sleeplock false 0) (inodes k) ->
  itable ROOTDEV pid V the_sb ∅ ∅ (inodes k).
Proof using.
  intros Hl Hf. assert (H0 : forall i ip, inodes k !! i = Some ip -> i_ref ip = 0 /\ i_lock ip = mk_sleeplock false 0).
  { intros i ip Hi. exact (list.Forall_lookup_1 _ _ _ _ Hf Hi). }
  split; [done|..].
  - intros i ip Hi Hr. by destruct (H0 i ip Hi).
  - intros n Hn. by apply gmultiset_not_elem_of_empty in Hn.
  - intros i j ip jp Hi _ Hr. by destruct (H0 i ip Hi).
  - intros i ip Hi. rewrite decide_False by set_solver +. by apply (H0 i ip).
  - intros i ip Hi Hr. by destruct (H0 i ip Hi).
Qed.

Lemma fs_state_fresh img k : fresh_kernel img k -> fs_state me pid ROOTDEV ∅ ∅ img the_sb ∅ ∅ (upd_ksb (set the_sb) k).
Proof using. intros [Hc _ [Hl Hi]]. split; [by apply cache_ksb|done|by apply (empty_table img k)]. Qed.

Section read.
Context (sec : gmap Z (list Z)) (files : list (list Z * list (list Z))) (Hh : holds_files sec files) (Hfit : fits files).
Context (V : Z -> list Z) (HV : forall b, b <> 2 -> V b = sector sec b).
Context (i : nat) (f : list Z * list (list Z)) (Hr : reachable files i f).

#[local] Notation fs_state := (fs_state me pid ROOTDEV ∅ ∅ V the_sb).
#[local] Notation moved := (moved me pid ROOTDEV ∅ ∅ V the_sb).

Lemma namei_finds k : fs_state ∅ ∅ k -> Z.of_nat (length f.1) < 2 ^ 31 ->
  wp (namei (path_of f.1)) (fun o k' => exists j, o = Some j /\ fs_state {[+ Z.of_nat i + 2 +]} ∅ k' /\ entry k' j (Z.of_nat i + 2)) k.
Proof using KI Hh Hfit HV Hr DL.
  intros Hk Hlen. destruct (path_walkable sec files Hh Hfit V HV i f Hr) as [Hw Eres]. destruct (name_ok files Hfit i f Hr) as (Hc & _).
  unfold namei. apply wp_bind.
  eapply wp_conseq; [apply (namex_ok me pid ROOTDEV ∅ ∅ V the_sb no_pins no_dirt ∅ k Hk false) with (n := ROOTINO)|cbv beta].
  - rewrite gmultiset_size_empty. lia.
  - change (dom (∅ : gmultiset Z)) with (∅ : gset Z). rewrite size_empty. unfold NINODE. lia.
  - unfold path_of. constructor; [done|]. apply list.Forall_app. split; [by apply char_byte|by repeat constructor].
  - assert (length (shortname f.1) <= length f.1)%nat.
    { unfold shortname. set (s := if bool_decide _ then _ else _). assert (length s <= length f.1)%nat by (unfold s; case_bool_decide; rewrite ?length_drop; lia).
      clearbody s. destruct s as [|c s]; simpl in *; [lia|]. destruct (c =? 95); simpl; lia. }
    unfold path_of. simpl. rewrite length_app. simpl. lia.
  - unfold starts, path_of. cbn [hd]. by rewrite Z.eqb_refl.
  - done.
  - rewrite Eres. intros r k1 (j & -> & M1 & He). apply wp_ret. exists j. rewrite gmultiset_disj_union_left_id in M1. by destruct M1.
Qed.

Lemma read_file_ok k : fs_state ∅ ∅ k -> Z.of_nat (length f.1) < 2 ^ 31 ->
  wp (read_file (path_of f.1)) (fun r k' => r = Some (concat f.2) /\ fs_state ∅ ∅ k') k.
Proof using KI Hh Hfit HV Hr DL.
  intros Hk Hlen. unfold read_file. apply wp_bind. eapply wp_conseq; [by apply namei_finds|cbv beta]. intros o k1 (j & -> & S1 & He).
  set (n := Z.of_nat i + 2) in *. destruct (disk_file sec files Hh Hfit V HV i f Hr) as (T2 & N2 & Z2 & A2).
  assert (Hsz : Z.of_nat (size ({[+ n +]} : gmultiset Z)) < 2 ^ 31 - 1) by (by rewrite gmultiset_size_singleton).
  apply wp_bind. eapply wp_conseq; [apply (ilock_ok me pid ROOTDEV ∅ ∅ V the_sb no_pins no_dirt {[+ n +]} ∅ j n k1); [done|done|set_solver +|done|]|cbv beta].
  { change (i_type (dino _ _ _ _ ?x)) with (i_type (on_disk V the_sb x)). unfold n. by rewrite T2. }
  intros _ k2 (M2 & ip & Hi & Hip). pose proof (locked_eq pid ROOTDEV V the_sb n ip Hip) as Eip. apply wp_bind. eapply wp_get_inode; [exact Hi|].
  assert (E1 : i_size ip = Z.of_nat (length (concat f.2))) by (rewrite Eip; exact Z2). rewrite E1.
  assert (Hc : contents files !! S i = Some (a_file f)) by (simpl; by rewrite list_lookup_fmap, (rn_file _ _ _ Hr)).
  pose proof (contents_size files Hfit (S i) _ Hc) as Hmax. cbn [snd a_file] in Hmax.
  assert (Hn : Z.of_nat (S i) + 1 = n) by (unfold n; lia).
  pose proof (mv_state _ _ _ _ _ _ _ _ _ _ _ M2) as S2.
  apply wp_bind. eapply wp_conseq; [apply (readi_ok me pid ROOTDEV ∅ ∅ V no_pins no_dirt j ip k2 0 (length (concat f.2)) (length (concat f.2)))|cbv beta].
  - apply S2.
  - done.
  - by rewrite Eip.
  - by rewrite Eip.
  - lia.
  - lia.
  - rewrite E1. lia.
  - intros b _ Hb. pose proof (blocks_for_spec (length (concat f.2))).
    destruct (disk_block sec files Hh Hfit V HV (S i) _ Hc b) as [Hm _]; [cbn [snd a_file]; lia|]. rewrite Hn in Hm. by rewrite Eip.
  - intros r k3 [-> L3]. pose proof (moved_looked _ _ _ _ _ _ _ _ _ _ _ S2 L3) as M3.
    assert (He3 : entry k3 j n) by (apply M3; [apply M2; [done|by apply gmultiset_elem_of_singleton]|by apply gmultiset_elem_of_singleton]).
    apply wp_bind. eapply wp_conseq; [apply (iunlockput_ok me pid ROOTDEV ∅ ∅ V the_sb {[+ n +]} ({[j]} ∪ ∅) j n k3)|cbv beta].
    + apply M3.
    + done.
    + set_solver +.
    + done.
    + right. change (i_nlink (dino _ _ _ _ ?x)) with (i_nlink (on_disk V the_sb x)). unfold n. by rewrite N2.
    + intros _ k4 M4. apply wp_ret. split.
      * cbn [snd]. pose proof (disk_bytes sec files Hh Hfit V HV (S i) _ Hc 0 (length (concat f.2)) (le_n _)) as Eb.
        rewrite Hn in Eb. cbn [snd a_file] in Eb. rewrite drop_0, take_ge in Eb by done. f_equal.
        transitivity (ibytes V (on_disk V the_sb n) 0 (length (concat f.2))); [rewrite Eip; reflexivity|exact Eb].
      * destruct M4 as [S4 _ _]. replace (({[+ n +]} : gmultiset Z) ∖ {[+ n +]}) with (∅ : gmultiset Z) in S4 by (by rewrite gmultiset_difference_diag).
        by replace (({[j]} ∪ ∅) ∖ {[j]}) with (∅ : gset nat) in S4 by set_solver +.
Qed.
End read.

(** [C3] The kernel reads back what [mkfs] stored: on arguments that fit, mkfs
    builds an image on which a freshly started kernel, with any disk driver
    that keeps its promise, reads the super block, recovers the log, resolves
    the path of a file, the first one of its name, through the root directory
    and the inode cache, and reads exactly the bytes the file had, however
    [read] delivered them to mkfs; afterwards no inode is locked or
    referenced. *)
Theorem mkfs_kernel_roundtrip files i f s :
  fits files -> reachable files i f -> Z.of_nat (length f.1) < 2 ^ 31 ->
  exists s', mkfs ((fun g => (g.1, Some g.2)) <$> files) s = Ret tt s' /\
    forall k, fresh_kernel (sector (sectors s')) k ->
      exists V k', (do! fsinit ROOTDEV in read_file (path_of f.1)) k = Ret (Some (concat f.2)) k' /\
        fs_state me pid ROOTDEV ∅ ∅ V the_sb ∅ ∅ k'.
Proof using KI DL.
  intros Hfit Hr Hlen. destruct (wp_inv _ _ _ (mkfs_wp files s Hfit)) as ([] & s' & Es & Hh). exists s'. split; [exact Es|].
  intros k [Hc Hl [Hi1 Hi2]].
  assert (H : wp (do! fsinit ROOTDEV in read_file (path_of f.1)) (fun r k' => exists V, r = Some (concat f.2) /\
    fs_state me pid ROOTDEV ∅ ∅ V the_sb ∅ ∅ k') k).
  { apply wp_bind. eapply wp_conseq; [apply (fsinit_ok (sector (sectors s'))); [apply Hh|apply Hh|exact Hc|exact Hl]|cbv beta].
    intros _ k1 (V & C1 & HV & Hsb & HI & _). eapply wp_conseq.
    - apply (read_file_ok (sectors s') files Hh Hfit V HV i f Hr); [|exact Hlen].
      split; [done|done|]. apply empty_table; by rewrite HI.
    - cbv beta. intros r k2 [-> S2]. by exists V. }
  destruct (wp_inv _ _ _ H) as (r & k' & E & V & -> & S'). by exists V, k'.
Qed.
End boot.

(** The kernel of the sample runs on the image of two files. *)
Module FsMkfsSample.
Import FsSample.

Lemma fresh0 img : fresh_kernel 0 1 img (kernel0 img).
Proof.
  split; [apply cache0|done|]. split; [done|]. apply list.Forall_replicate. done.
Qed.

(** The kernel after [fsinit], on an image that holds the two files. *)
Definition kernel1 (img : Z -> list Z) : kernel := upd_ksb (set the_sb) (kernel0 img).
Lemma fs_state1 img : fs_state 0 1 1 ∅ ∅ img the_sb ∅ ∅ (kernel1 img).
Proof. exact (fs_state_fresh 0 1 img (kernel0 img) (fresh0 img)). Qed.
Lemma sample_fits : fits MkfsSample.sample.
Proof.
  split.
  - apply (bool_decide_unpack _). vm_compute. exact I.
  - unfold MkfsSample.sample. apply list.Forall_cons; split; [|apply list.Forall_cons; split; [|constructor]]; cbn [snd]; [change (length _) with 12%nat|change (length _) with 0%nat]; lia.
  - done.
  - vm_compute. discriminate.
Qed.
Lemma sample_reachable : reachable MkfsSample.sample 0 (bytes_of "user/_cat", [bytes_of "first "; bytes_of "second"]).
Proof.
  split; [done| | |intros j g Hj; lia].
  - unfold is_char. apply (bool_decide_unpack _). vm_compute. exact I.
  - apply (bool_decide_unpack _). vm_compute. exact I.
Qed.

Lemma namex_resolves_witness :
  exists s', mkfs ((fun g => (g.1, Some g.2)) <$> MkfsSample.sample) (mk_image ∅ 0 0) = Ret tt s' /\
    exists i k', namex (path_of (bytes_of "user/_cat")) false (kernel1 (sector (sectors s'))) = Ret (Some (i, bytes_of "cat" ++ [0])) k' /\
      entry k' i 2.
Proof.
  destruct (wp_inv _ _ _ (mkfs_wp MkfsSample.sample (mk_image ∅ 0 0) sample_fits)) as ([] & s' & Es & Hh).
  exists s'. split; [exact Es|]. set (V := sector (sectors s')).
  destruct (path_walkable _ _ Hh sample_fits V (fun _ _ => eq_refl) _ _ sample_reachable) as [Hw Er]. cbn [fst] in Hw, Er.
  destruct (namex_resolves 0 1 1 ∅ ∅ V the_sb no_pins no_dirt ∅ (kernel1 V) (fs_state1 V) false) with (path := path_of (bytes_of "user/_cat")) (n := ROOTINO)
    as (r & k' & E & H).
  - done.
  - change (dom (∅ : gmultiset Z)) with (∅ : gset Z). rewrite size_empty. unfold NINODE. lia.
  - apply (bool_decide_unpack _). vm_compute. exact I.
  - done.
  - exact (conj eq_refl eq_refl).
  - exact Hw.
  - rewrite Er in H. destruct H as (i & -> & _ & He). exists i, k'. split; [exact E|exact He].
Defined.

Lemma mkfs_kernel_roundtrip_witness :
  exists s', mkfs ((fun g => (g.1, Some g.2)) <$> MkfsSample.sample) (mk_image ∅ 0 0) = Ret tt s' /\
    exists k', (do! fsinit ROOTDEV in read_file (path_of (bytes_of "user/_cat"))) (kernel0 (sector (sectors s'))) =
      Ret (Some (bytes_of "first second")) k'.
Proof.
  destruct (mkfs_kernel_roundtrip 0 1 MkfsSample.sample 0 (bytes_of "user/_cat", [bytes_of "first "; bytes_of "second"]) (mk_image ∅ 0 0))
    as (s' & Es & Hk).
  - exact sample_fits.
  - exact sample_reachable.
  - done.
  - exists s'. split; [exact Es|]. destruct (Hk _ (fresh0 _)) as (V & k' & E & _). exists k'. exact E.
Defined.
End FsMkfsSample.
