(* ===== verification/FsWrite.v ===== *)
(** * Writing files

    [balloc], [bmap], [writei] and [iupdate] inside a transaction, on the
    content of the disk: the blocks a file owns, the bitmap, and the bytes of
    the file before and after. *)

From S2P Require Import Prelude Riscv Memory Machine Spinlock Kalloc Vm Kernel Klock KSample Cstring Printf Proc Sched ProcSpec.
From S2P Require Import Sleeplock SleepSpec Bio Lru BioSpec Log LogSpec LogSafe Fs FsRead.

(** Everything but the harts, the locks, the scheduling of the processes, the
    buffers, the inodes and what [log_write] changes. *)
Definition outer (k : kernel) :=
  ((mem (mach k), freelist (mach k), count (mach k), view <$> procs k),
   (nextpid k, initproc k, ticks k, rng k, first k, kernel_pagetable k),
   (ksb k, files k, pipes k, kdisk k, l_outstanding (klog k), l_committing (klog k)),
   (kcons k, kuart k, pr_locking k, panicked k, devsw_console k),
   (kvdisk k, csrs k, kplic k, started k)).
Definition same (k k' : kernel) : Prop := outer k' = outer k /\ inodes k' = inodes k.
Lemma outer_ksb k k' : outer k' = outer k -> ksb k' = ksb k.
Proof. intros E. by injection E. Qed.
#[export] Instance same_preorder : PreOrder same.
Proof. split; [by intros ?|]. intros ??? [] []. split; congruence. Qed.

Lemma others_same k k' :
  others k' = others k -> kdisk k' = kdisk k -> l_outstanding (klog k') = l_outstanding (klog k) ->
  l_committing (klog k') = l_committing (klog k) -> same k k'.
Proof.
  intros E1 E2 E3 E4. unfold others in E1. unfold same, outer. rewrite E2, E3, E4.
  by injection E1 as -> -> -> -> -> -> -> -> -> -> -> -> -> -> -> -> -> -> -> -> -> -> ->.
Qed.

(** ** Bits of a block *)

Lemma testbit_bit x k : 0 <= k -> bit x (Z.shiftl 1 k) = Z.testbit x k.
Proof.
  intros Hk. unfold bit, nz. rewrite Z.shiftl_1_l. destruct (Z.testbit x k) eqn:E.
  - destruct (Z.eqb_spec (Z.land x (2 ^ k)) 0) as [E0|]; [|done]. exfalso.
    assert (H : Z.testbit (Z.land x (2 ^ k)) k = true) by (by rewrite Z.land_spec, E, Z.pow2_bits_true). by rewrite E0, Z.bits_0 in H.
  - destruct (Z.eqb_spec (Z.land x (2 ^ k)) 0) as [|E0]; [done|]. exfalso. apply E0. apply Z.bits_inj'. intros m Hm.
    rewrite Z.land_spec, Z.bits_0. destruct (decide (m = k)) as [->|]; [by rewrite E|]. rewrite Z.pow2_bits_false by lia. apply andb_false_r.
Qed.

(** Bit [b] of a bitmap block, and setting it. *)
Definition map_bit (d : list Z) (b : Z) : bool := bit (data_byte d (b / 8)) (bitmask b).
Definition map_set (d : list Z) (b : Z) : list Z := alter (fun v => Z.lor v (bitmask b)) (Z.to_nat (b / 8)) d.

Lemma map_set_bit d a c : length d = 1024%nat -> 0 <= a < 8192 -> 0 <= c < 8192 -> map_bit (map_set d a) c = (c =? a) || map_bit d c.
Proof.
  intros Hl Ha Hc. unfold map_bit, map_set, bitmask, data_byte.
  pose proof (Z.div_mod a 8 ltac:(done)) as Da. pose proof (Z.mod_pos_bound a 8 ltac:(done)) as Ma.
  pose proof (Z.div_mod c 8 ltac:(done)) as Dc. pose proof (Z.mod_pos_bound c 8 ltac:(done)) as Mc.
  rewrite !testbit_bit by lia. destruct (decide (a / 8 = c / 8)) as [E|E].
  - rewrite E, list_lookup_alter_eq. destruct (lookup_lt_is_Some_2 d (Z.to_nat (c / 8))) as [v Ev]; [lia|]. rewrite Ev. simpl.
    rewrite Z.lor_spec, Z.shiftl_1_l. destruct (Z.eqb_spec c a) as [->|Hne].
    + rewrite Z.pow2_bits_true by lia. by rewrite orb_true_r.
    + rewrite Z.pow2_bits_false by lia. by rewrite orb_false_r.
  - rewrite list_lookup_alter_ne by lia. destruct (Z.eqb_spec c a) as [->|]; [done|done].
Qed.
Lemma length_map_set d a : length (map_set d a) = length d.
Proof. apply length_alter. Qed.

(** Taking one element out of those that satisfy a predicate. *)
Section filter.
Context {A} (P P' : A -> Prop) `{DP : !forall x, Decision (P x), DP' : !forall x, Decision (P' x)}.
Lemma filter_same l : (forall c, c ∈ l -> P' c <-> P c) -> length (filter P l) = length (filter P' l).
Proof using.
  induction l as [|x l IH]; intros E; [done|]. rewrite !filter_cons. destruct (E x ltac:(left)) as [E1 E2].
  specialize (IH (fun c Hc => E c (list_elem_of_further _ _ _ Hc))). repeat case_decide; simpl; tauto || lia.
Qed.
Lemma filter_take_one l a : NoDup l -> a ∈ l -> P a -> (forall c, c ∈ l -> P' c <-> P c /\ c <> a) -> length (filter P l) = S (length (filter P' l)).
Proof using.
  induction 1 as [|x l Hx _ IH]; intros Ha HP E; [by apply not_elem_of_nil in Ha|]. rewrite !filter_cons.
  destruct (E x ltac:(left)) as [E1 E2]. apply elem_of_cons in Ha as [->|Ha].
  - rewrite decide_True by done. rewrite decide_False by tauto. cbn [length]. f_equal. apply filter_same. intros c Hc.
    rewrite E by (by right). split; [tauto|]. intros ?. split; [done|]. by intros ->.
  - specialize (IH Ha HP (fun c Hc => E c (list_elem_of_further _ _ _ Hc))). assert (x <> a) by (by intros ->). repeat case_decide; simpl; tauto || lia.
Qed.
End filter.

(** ** The blocks of the log *)

Definition miss (bs : list Z) (n : Z) : nat := if decide (n ∈ bs) then 0 else 1.
Lemma length_absorbed bs n : length (absorbed bs n) = (length bs + miss bs n)%nat.
Proof. unfold absorbed, miss. case_decide; [lia|]. rewrite length_app. done. Qed.
Lemma elem_absorbed bs n m : m ∈ absorbed bs n <-> m = n \/ m ∈ bs.
Proof. unfold absorbed. case_decide; [naive_solver|]. rewrite elem_of_app, list_elem_of_singleton. tauto. Qed.
Lemma miss_absorbed bs n m : miss (absorbed bs n) m = if decide (m = n) then 0%nat else miss bs m.
Proof. unfold miss. pose proof (elem_absorbed bs n m). repeat case_decide; tauto || done. Qed.
Lemma absorbed_in bs n : n ∈ bs -> absorbed bs n = bs.
Proof. intros H. unfold absorbed. by rewrite decide_True. Qed.
Lemma miss_le bs n : (miss bs n <= 1)%nat.
Proof. unfold miss. case_decide; lia. Qed.
Lemma miss_in bs n : n ∈ bs -> miss bs n = 0%nat.
Proof. intros H. unfold miss. by rewrite decide_True. Qed.

Section write.
Context {KI : KernelImage} {C : Config} {D : BlockDevice} {DL : Disk}.
Context (me : nat) (pid dev start size : Z).
Context (Hstart : 0 <= start) (Hsize : 1 <= size <= LOGSIZE) (Hend : start + size < 2 ^ 31).

#[local] Notation txn := (txn me pid dev start size).
#[local] Notation in_op := (in_op size).
#[local] Notation in_log := (in_log start size).

(** ** A block in a transaction *)

(** Inside an operation, with the blocks [bs] in the log and the buffers [H]
    held; all the changes are to blocks in the log. *)
Record op (H : gmap nat Z) (bs : list Z) (V : Z -> list Z) (k : kernel) : Prop := mk_op {
  op_txn : txn H bs (list_to_set bs) V k;
  op_in : in_op k
}.
(** The buffer of block [n] has been changed and not yet logged. *)
Record changed (H : gmap nat Z) (bs : list Z) (n : Z) (V : Z -> list Z) (k : kernel) : Prop := mk_changed {
  ch_txn : txn H bs ({[n]} ∪ list_to_set bs) V k;
  ch_in : in_op k
}.
(** There is room for one more block in the log. *)
Definition room (bs : list Z) : Prop := Z.of_nat (length bs) < size - 1.

Lemma went_same k H P d V k' : went me pid dev k H P d V [] k' -> same k k'.
Proof using. intros [_ [E G] Ed]. rewrite <- no_writes in Ed. by apply others_same; rewrite ?G. Qed.
Lemma same_in_op k k' : in_op k -> same k k' -> l_size (klog k') = l_size (klog k) -> in_op k'.
Proof using. intros [H1 H2] [E _] H3. unfold outer in E. injection E. intros. split; congruence. Qed.

Lemma room_size bs : room bs -> (base.size (list_to_set bs : gset Z) < 29)%nat.
Proof using Hsize.
  intros Hr. unfold room in Hr. change LOGSIZE with 30 in Hsize. assert (Hb : (base.size (list_to_set bs : gset Z) <= length bs)%nat); [|lia].
  clear. induction bs as [|b bs IH]; [done|]. rewrite list_to_set_cons. cbn [length]. rewrite size_union_alt, size_singleton.
  pose proof (subseteq_size (list_to_set bs ∖ {[b]}) (list_to_set bs : gset Z) ltac:(set_solver +)). lia.
Qed.

Lemma op_bread H bs V k n :
  op H bs V k -> (forall i, H !! i <> Some n) -> (base.size H <= 1)%nat -> room bs ->
  wp (bread dev n) (fun b k' => H !! b = None /\ op (<[b := n]> H) bs V k' /\ same k k') k.
Proof using Hsize DL.
  intros [Ht Hi] Hn HH Hr. pose proof (room_size bs Hr). eapply wp_conseq; [apply (bread_ok (tx_cache _ _ _ _ _ _ _ _ _ _ Ht) n Hn); right; unfold NBUF; lia|cbv beta].
  intros b k' [Hb W]. split_and!; [done| |by eapply went_same]. split; [by eapply went_txn|].
  eapply same_in_op; [done|by eapply went_same|]. by destruct W as [_ [_ ->] _].
Qed.

Lemma op_data H bs V k b n : op H bs V k -> H !! b = Some n -> exists x, get_buf b k = Ret x k /\ b_data x = V n.
Proof using.
  intros [Ht _] Hb. destruct (get_held (tx_cache _ _ _ _ _ _ _ _ _ _ Ht) b n Hb) as (x & E & _ & Ed). eauto.
Qed.

Lemma op_brelse H bs V k b n : op H bs V k -> H !! b = Some n ->
  wp (brelse b) (fun _ k' => op (delete b H) bs V k' /\ same k k') k.
Proof using DL.
  intros [Ht Hi] Hb. eapply wp_conseq; [apply (brelse_ok (tx_cache _ _ _ _ _ _ _ _ _ _ Ht) b n Hb); done|cbv beta].
  intros _ k' W. split; [|by eapply went_same]. split; [by eapply went_txn|].
  eapply same_in_op; [done|by eapply went_same|]. by destruct W as [_ [_ ->] _].
Qed.

Lemma op_change H bs V k b n f d :
  op H bs V k -> H !! b = Some n -> ~ in_log n -> f (V n) = d ->
  wp (upd_buf b (upd_b_data f)) (fun _ k' => changed H bs n (fupd V n d) k' /\ same k k') k.
Proof using Hsize DL.
  intros [Ht Hi] Hb Hn Hf. eapply wp_conseq; [apply (set_data_ok (tx_cache _ _ _ _ _ _ _ _ _ _ Ht) b n d Hb); intros x Hx; simpl; by rewrite Hx|cbv beta].
  intros _ k' W. split; [|by eapply went_same]. split.
  - eapply went_txn; [done|exact W|]. apply fupd_ne. intros ->. apply Hn. unfold LogSpec.in_log. lia.
  - eapply same_in_op; [done|by eapply went_same|]. by destruct W as [_ [_ ->] _].
Qed.

Lemma op_log_write H bs V k b n :
  changed H bs n V k -> H !! b = Some n -> 0 <= n < 2 ^ 32 -> ~ in_log n -> room bs ->
  wp (log_write b) (fun _ k' => op H (absorbed bs n) V k' /\ same k k') k.
Proof using Hsize DL.
  intros [Ht [Hi1 Hi2]] Hb Hn Hnl Hr.
  eapply wp_conseq; [apply (log_write_ok me pid dev start size Hsize H bs _ V k b n Ht Hb Hn Hnl Hi1 Hr Hi2)|cbv beta].
  intros _ k' (T & E1 & E2 & E3 & E4 & E5). split; [|by apply others_same]. split; [by rewrite absorbed_set|]. split; [done|by rewrite E3].
Qed.
Lemma op_bzero H bs V k n :
  op H bs V k -> (forall i, H !! i <> Some n) -> (base.size H <= 1)%nat -> room bs -> 0 <= n < 2 ^ 32 -> ~ in_log n ->
  wp (bzero dev n) (fun _ k' => op H (absorbed bs n) (fupd V n (replicate 1024 0)) k' /\ same k k') k.
Proof using Hsize DL.
  intros Ho Hh HH Hr Hn Hl. unfold bzero. rewrite u32_small by done.
  apply wp_bind. eapply wp_conseq; [by apply (op_bread H bs V k n)|cbv beta]. intros b k1 (Hb & O1 & S1).
  assert (Hl1 : <[b := n]> H !! b = Some n) by apply lookup_insert_eq.
  apply wp_bind. eapply wp_conseq; [by eapply (op_change _ _ _ k1 b n)|cbv beta]. intros _ k2 [O2 S2].
  apply wp_bind. eapply wp_conseq; [by eapply (op_log_write _ _ _ k2 b n)|cbv beta]. intros _ k3 [O3 S3].
  eapply wp_conseq; [by eapply (op_brelse _ _ _ k3 b n)|cbv beta]. intros _ k4 [O4 S4].
  rewrite delete_insert_id in O4 by done. split; [done|]. by rewrite S1, S2, S3.
Qed.

(** ** Allocating a block *)

Section disk.
Context (sb : superblock).
#[local] Notation bm := (sb_bmapstart sb).

(** One bitmap block, after the log; the data blocks follow it. *)
Record layout : Prop := mk_layout {
  ly_size : sb_size sb <= BPB;
  ly_bm : start + size <= bm < sb_size sb
}.
Context (HL : layout).

Definition used (V : Z -> list Z) (b : Z) : bool := map_bit (V bm) b.
Definition free_blocks (V : Z -> list Z) : list Z := filter (fun b => used V b = false) (seqZ 0 (sb_size sb)).
(** The blocks up to the bitmap are marked as used. *)
Record bitmap_ok (V : Z -> list Z) : Prop := mk_bitmap_ok {
  bo_len : length (V bm) = 1024%nat;
  bo_meta b : 0 <= b <= bm -> used V b = true
}.

(** The disk after block [a] is taken. *)
Definition taken (V : Z -> list Z) (a : Z) : Z -> list Z := fupd (fupd V bm (map_set (V bm) a)) a (replicate 1024 0).
Definition first_free (V : Z -> list Z) (a : Z) : Prop :=
  0 <= a < sb_size sb /\ used V a = false /\ forall b, 0 <= b < a -> used V b = true.

Lemma free_first V : free_blocks V <> [] -> exists a, first_free V a.
Proof using.
  intros Hf. destruct (list_find (fun b => used V b = false) (seqZ 0 (sb_size sb))) as [[i a]|] eqn:E.
  - apply list_find_Some in E as (Hi & Hu & Hlt). apply lookup_seqZ in Hi as [-> Hi]. exists (0 + Z.of_nat i). split_and!; [lia|lia|done|].
    intros b Hb. specialize (Hlt (Z.to_nat b) b). rewrite lookup_seqZ in Hlt. destruct (used V b); [done|]. exfalso. apply Hlt; [lia|lia|done].
  - apply list_find_None in E. exfalso. apply Hf. unfold free_blocks. destruct (filter _ _) as [|b l] eqn:Ef; [done|].
    assert (Hb : b ∈ filter (fun b => used V b = false) (seqZ 0 (sb_size sb))) by (rewrite Ef; left).
    apply list_elem_of_filter in Hb as [Hb1 Hb2]. rewrite list.Forall_forall in E. by destruct (E b Hb2).
Qed.

Section taken.
Context (V : Z -> list Z) (a : Z) (HV : bitmap_ok V) (Ha : first_free V a).
Lemma first_data : 0 <= bm < a /\ a < sb_size sb <= 8192.
Proof using Hstart Hsize HL HV Ha.
  destruct Ha as (H1 & H2 & _). destruct HL as [L1 L2]. change BPB with 8192 in L1. split; [|lia].
  destruct (decide (a <= bm)) as [Hle|]; [|lia]. by rewrite (bo_meta V HV a) in H2 by lia.
Qed.
Lemma used_taken b : 0 <= b < 8192 -> used (taken V a) b = (b =? a) || used V b.
Proof using Hstart Hsize HL HV Ha.
  intros Hb. destruct first_data. unfold used, taken. rewrite (fupd_ne _ a) by lia. rewrite fupd_eq.
  apply map_set_bit; [apply HV|lia|done].
Qed.
Lemma taken_ok : bitmap_ok (taken V a).
Proof using Hstart Hsize HL HV Ha.
  destruct first_data as [H1 H2]. pose proof (ly_bm HL) as Hb. split.
  - unfold taken. rewrite (fupd_ne _ a) by lia. rewrite fupd_eq, length_map_set. apply HV.
  - intros b Hbr. rewrite used_taken by lia. rewrite (bo_meta V HV b Hbr). apply orb_true_r.
Qed.
Lemma taken_free : length (free_blocks V) = S (length (free_blocks (taken V a))).
Proof using Hstart Hsize HL HV Ha.
  destruct first_data as [H1 H2]. pose proof (ly_bm HL) as Hb. apply (filter_take_one _ _ _ a).
  - apply NoDup_seqZ.
  - apply elem_of_seqZ. lia.
  - apply Ha.
  - intros c Hc. apply elem_of_seqZ in Hc. rewrite used_taken by lia. destruct (Z.eqb_spec c a); simpl; naive_solver.
Qed.
Lemma taken_other b : b <> bm -> b <> a -> taken V a b = V b.
Proof using. intros H1 H2. unfold taken. rewrite !fupd_ne by done. done. Qed.
Lemma taken_new : taken V a a = replicate 1024 0.
Proof using. apply fupd_eq. Qed.
End taken.

Lemma block_range b : bm <= b < sb_size sb -> 0 <= b < 2 ^ 32 /\ ~ in_log b.
Proof using Hstart Hsize HL. intros Hb. destruct HL as [L1 L2]. change BPB with 8192 in L1. unfold LogSpec.in_log. lia. Qed.

(** The search through the bitmap, with its block in buffer [bp]. *)
Section balloc.
Context (H : gmap nat Z) (bs : list Z) (V : Z -> list Z) (k : kernel) (Ho : op H bs V k) (Hsb : ksb k = sb).
Context (HV : bitmap_ok V) (a : Z) (Ha : first_free V a) (HH : (base.size H <= 1)%nat).
Context (Hbm : forall i, H !! i <> Some bm) (Hha : forall i, H !! i <> Some a) (Hr1 : room bs) (Hr2 : room (absorbed bs bm)).

Definition balloc_body (bp : nat) (bi : Z) (_ : unit) : M kernel (unit + Z) :=
  let! x := get_buf bp in
  let m := bitmask bi in
  if negb (bit (data_byte (b_data x) (bi / 8)) m) then
    do! upd_buf bp (upd_b_data (alter (fun v => Z.lor v m) (Z.to_nat (bi / 8)))) in
    do! log_write bp in
    do! brelse bp in
    do! bzero dev (0 + bi) in
    ret (inr (0 + bi))
  else ret (inl tt).

Definition allocated (k' : kernel) : Prop := op H (absorbed (absorbed bs bm) a) (taken V a) k' /\ same k k'.

Lemma balloc_found bp k1 : H !! bp = None -> op (<[bp := bm]> H) bs V k1 -> same k k1 ->
  wp (balloc_body bp a tt) (fun r k' => r = inr a /\ allocated k') k1.
Proof using Hstart Hsize DL HL HV Ha HH Hbm Hha Hr1 Hr2.
  intros Hbp O1 S1. pose proof (first_data V a HV Ha) as Hd. destruct (block_range bm) as [Hm1 Hm2]; [lia|]. destruct (block_range a) as [Ha1 Ha2]; [lia|].
  assert (Hl1 : <[bp := bm]> H !! bp = Some bm) by apply lookup_insert_eq.
  destruct (op_data _ _ _ _ bp bm O1 Hl1) as (x & Ex & Ed). unfold balloc_body. apply wp_bind. eapply wp_eq; [exact Ex|]. rewrite Ed. fold (map_bit (V bm) a).
  destruct Ha as (_ & Hu & _). unfold used in Hu. rewrite Hu. cbn [negb].
  apply wp_bind. eapply wp_conseq; [by eapply (op_change _ bs V k1 bp bm)|cbv beta]. intros _ k2 [O2 S2].
  apply wp_bind. eapply wp_conseq; [by eapply (op_log_write _ bs _ k2 bp bm)|cbv beta]. intros _ k3 [O3 S3].
  apply wp_bind. eapply wp_conseq; [by eapply (op_brelse _ _ _ k3 bp bm)|cbv beta]. intros _ k4 [O4 S4].
  rewrite delete_insert_id in O4 by done. rewrite Z.add_0_l. apply wp_bind. eapply wp_conseq; [by eapply (op_bzero H _ _ k4 a)|cbv beta].
  intros _ k5 [O5 S5]. apply wp_ret. split; [done|]. split; [exact O5|]. by rewrite S1, S2, S3, S4.
Qed.

Lemma balloc_scan bp k1 : H !! bp = None -> op (<[bp := bm]> H) bs V k1 -> same k k1 ->
  wp (for_each (seqZ 0 (sb_size sb)) tt (balloc_body bp)) (fun r k' => r = inr a /\ allocated k') k1.
Proof using Hstart Hsize DL HL HV Ha HH Hbm Hha Hr1 Hr2.
  intros Hbp O1 S1. pose proof (first_data V a HV Ha) as Hd.
  apply (wp_for_each _ (fun rest _ k' => exists c, 0 <= c <= a /\ rest = seqZ c (sb_size sb - c) /\ k' = k1)).
  - intros bi l [] k' (c & Hc & El & ->). rewrite seqZ_cons in El by lia. injection El as -> ->. destruct (decide (c = a)) as [->|Hne].
    + eapply wp_conseq; [by apply balloc_found|cbv beta]. intros r k' [-> Hk']. done.
    + assert (Hl1 : <[bp := bm]> H !! bp = Some bm) by apply lookup_insert_eq.
      destruct (op_data _ _ _ _ bp bm O1 Hl1) as (x & Ex & Ed). unfold balloc_body. apply wp_bind. eapply wp_eq; [exact Ex|]. rewrite Ed. fold (map_bit (V bm) c).
      destruct Ha as (_ & _ & Hu). specialize (Hu c ltac:(lia)). unfold used in Hu. rewrite Hu. cbn [negb]. apply wp_ret.
      exists (c + 1). split_and!; [lia|lia| |done]. f_equal; lia.
  - intros [] k' (c & Hc & El & _). rewrite seqZ_cons in El by lia. done.
  - exists 0. split_and!; [lia|lia|by rewrite Z.sub_0_r|done].
Qed.

Lemma balloc_ok : wp (balloc dev) (fun r k' => r = a /\ allocated k') k.
Proof using Hstart Hsize DL HL Ho Hsb HV Ha HH Hbm Hha Hr1 Hr2.
  pose proof (first_data V a HV Ha) as Hd. unfold balloc. apply wp_bind, wp_gets. rewrite Hsb. apply wp_bind.
  eapply wp_conseq.
  - apply (wp_while_ghost _ (fun (_ : unit) b k' => b = 0 /\ k' = k) (fun _ => 1) (fun r k' => r = Some a /\ allocated k') tt); [|done|done].
    intros [] b k' [-> ->]. destruct (Z.ltb_spec 0 (sb_size sb)); [|lia].
    assert (Eb : BBLOCK 0 sb = bm) by (unfold BBLOCK; rewrite Z.div_0_l by done; apply u32_small; lia). rewrite Eb.
    apply wp_bind. eapply wp_conseq; [by apply (op_bread H bs V k bm)|cbv beta]. intros bp k1 (Hbp & O1 & S1).
    apply wp_bind. rewrite Z.sub_0_r, Z.min_r by (destruct HL; done). eapply wp_conseq; [by apply (balloc_scan bp k1)|cbv beta].
    intros r k2 [-> Hk2]. apply wp_ret. done.
  - cbv beta. intros r k' [-> Hk']. apply wp_ret. done.
Qed.
End balloc.

(** ** The blocks of a file *)

(** The data blocks [B] of an inode and its indirect block [ib], 0 if it has
    none. *)
Definition owned (B : list Z) (ib : Z) : list Z := B ++ (if decide (ib = 0) then [] else [ib]).
Record file_at (V : Z -> list Z) (ip : inode) (B : list Z) (ib : Z) : Prop := mk_file_at {
  fa_len : length (i_addrs ip) = 13%nat;
  fa_max : (length B <= 268)%nat;
  fa_direct j : (j < 12)%nat -> i_addrs ip !! j = Some (default 0 (B !! j));
  fa_ib : i_addrs ip !! 12%nat = Some ib;
  fa_none : (12 < length B)%nat -> ib <> 0;
  fa_ind j : ib <> 0 -> (j < 256)%nat -> data_get 4 (V ib) (4 * Z.of_nat j) = default 0 (B !! (12 + j)%nat);
  fa_nodup : NoDup (owned B ib);
  fa_own b : b ∈ owned B ib -> bm < b < sb_size sb /\ used V b = true /\ length (V b) = 1024%nat
}.

Lemma ib_owned B ib : ib <> 0 -> ib ∈ owned B ib.
Proof using. intros H. unfold owned. rewrite decide_False by done. apply elem_of_app. right. by apply list_elem_of_singleton. Qed.
Lemma block_owned B ib j b : B !! j = Some b -> b ∈ owned B ib.
Proof using. intros H. apply elem_of_app. left. by eapply list_elem_of_lookup_2. Qed.

Lemma file_iblock V ip B ib j : file_at V ip B ib -> (j < length B)%nat -> iblock V ip j = default 0 (B !! j).
Proof using.
  intros F Hj. pose proof (fa_max _ _ _ _ F). unfold iblock. destruct (Nat.ltb_spec j 12) as [Hd|Hd]; [by rewrite (fa_direct _ _ _ _ F)|].
  rewrite (fa_ib _ _ _ _ F). change (default 0 (Some ib)) with ib. replace (Z.of_nat j - NDIRECT) with (Z.of_nat (j - 12)) by (unfold NDIRECT; lia).
  rewrite (fa_ind _ _ _ _ F) by (lia || (apply (fa_none _ _ _ _ F); lia)). f_equal. f_equal. lia.
Qed.

(** A change that keeps the indirect block, the sizes and the bits. *)
Lemma file_at_ext V V' ip B ib :
  file_at V ip B ib -> (ib <> 0 -> V' ib = V ib) -> (forall b, b ∈ owned B ib -> used V' b = true /\ length (V' b) = 1024%nat) -> file_at V' ip B ib.
Proof using.
  intros [F1 F2 F3 F4 F5 F6 F7 F8] Hi Ho. split; try done.
  - intros j Hib Hj. rewrite Hi by done. by apply F6.
  - intros b Hb. destruct (F8 b Hb) as (? & _). destruct (Ho b Hb). done.
Qed.

Section grow.
Context (V : Z -> list Z) (ip : inode) (B : list Z) (ib a : Z) (HV : bitmap_ok V) (F : file_at V ip B ib) (Ha : first_free V a).

Lemma fresh_not_owned : a ∉ owned B ib.
Proof using F Ha. intros Hb. destruct (fa_own _ _ _ _ F a Hb) as (_ & Hu & _). destruct Ha as (_ & Hu' & _). congruence. Qed.
Lemma taken_owned b : b ∈ owned B ib -> taken V a b = V b /\ used (taken V a) b = true.
Proof using Hstart Hsize HL HV F Ha.
  intros Hb. destruct (fa_own _ _ _ _ F b Hb) as (Hr & Hu & _). pose proof (first_data V a HV Ha). split.
  - apply taken_other; [lia|]. intros ->. by apply fresh_not_owned.
  - rewrite (used_taken V a HV Ha) by lia. rewrite Hu. apply orb_true_r.
Qed.
Lemma taken_fresh : bm < a < sb_size sb /\ used (taken V a) a = true /\ length (taken V a a) = 1024%nat.
Proof using Hstart Hsize HL HV Ha.
  pose proof (first_data V a HV Ha). split_and!; [lia|lia| |by rewrite taken_new].
  rewrite (used_taken V a HV Ha) by lia. by rewrite Z.eqb_refl.
Qed.
Lemma file_taken : file_at (taken V a) ip B ib.
Proof using Hstart Hsize HL HV F Ha.
  apply (file_at_ext V); [done|intros Hib; by apply taken_owned, ib_owned|]. intros b Hb. destruct (taken_owned b Hb) as [-> Hu].
  split; [done|]. apply (fa_own _ _ _ _ F b Hb).
Qed.
Lemma owned_snoc_split : NoDup (owned (B ++ [a]) ib) /\ (forall b, b ∈ owned (B ++ [a]) ib <-> b = a \/ b ∈ owned B ib).
Proof using F Ha.
  assert (Hp : owned (B ++ [a]) ib ≡ₚ a :: owned B ib) by (unfold owned; rewrite <- (assoc_L (++)); symmetry; apply Permutation_middle).
  split.
  - rewrite Hp. apply list.NoDup_cons. split; [exact fresh_not_owned|apply (fa_nodup _ _ _ _ F)].
  - intros b. rewrite Hp. apply elem_of_cons.
Qed.

(** A direct block. *)
Lemma grow_direct : (length B < 12)%nat -> file_at (taken V a) (upd_i_addrs (<[length B := a]>) ip) (B ++ [a]) ib.
Proof using Hstart Hsize HL HV F Ha.
  intros Hl. destruct file_taken as [F1 F2 F3 F4 F5 F6 F7 F8]. destruct owned_snoc_split as [Hnd Hel]. pose proof taken_fresh. split; cbn [i_addrs upd_i_addrs].
  - by rewrite length_insert.
  - rewrite length_app. simpl. lia.
  - intros j Hj. destruct (decide (j = length B)) as [->|Hne].
    + rewrite list_lookup_insert_eq by lia. by rewrite list_lookup_middle.
    + rewrite list_lookup_insert_ne by done. rewrite F3 by done. f_equal. f_equal. destruct (decide (j < length B)%nat); [by rewrite lookup_app_l|].
      rewrite !lookup_ge_None_2; [done|rewrite length_app; simpl; lia|lia].
  - by rewrite list_lookup_insert_ne by lia.
  - rewrite length_app. simpl. intros ?. apply F5. lia.
  - intros j Hib Hj. rewrite F6 by done. rewrite !lookup_ge_None_2; [done|rewrite length_app; simpl; lia|lia].
  - done.
  - intros b [->|Hb]%Hel; [done|by apply F8].
Qed.

(** An indirect block. *)
Lemma zeros_get j : (j < 256)%nat -> data_get 4 (replicate 1024 0) (4 * Z.of_nat j) = 0.
Proof using. intros Hj. unfold data_get. rewrite drop_replicate, take_replicate. by replace (Nat.min _ _) with 4%nat by lia. Qed.
Lemma grow_indirect : ib = 0 -> length B = 12%nat -> file_at (taken V a) (upd_i_addrs (<[12%nat := a]>) ip) B a.
Proof using Hstart Hsize HL HV F Ha.
  intros Hib Hl. destruct file_taken as [F1 F2 F3 F4 F5 F6 F7 F8]. pose proof taken_fresh as (Hf & Hu & Hln). pose proof fresh_not_owned as Hno.
  assert (Ho : owned B ib = B) by (unfold owned; rewrite decide_True by done; apply app_nil_r). rewrite Ho in *.
  pose proof (first_data V a HV Ha). assert (Ho' : owned B a = B ++ [a]) by (unfold owned; by rewrite decide_False by lia).
  split; cbn [i_addrs upd_i_addrs].
  - by rewrite length_insert.
  - done.
  - intros j Hj. rewrite list_lookup_insert_ne by lia. by apply F3.
  - apply list_lookup_insert_eq. lia.
  - lia.
  - intros j _ Hj. rewrite taken_new, zeros_get by done. by rewrite lookup_ge_None_2 by lia.
  - rewrite Ho'. apply list.NoDup_app. split_and!; [done| |apply NoDup_singleton]. intros x Hx ->%list_elem_of_singleton. done.
  - rewrite Ho'. intros b [Hb| ->%list_elem_of_singleton]%elem_of_app; [by apply F8|done].
Qed.

(** A block through the indirect block. *)
Definition entered (V : Z -> list Z) : Z -> list Z :=
  fupd (taken V a) ib (data_set 4 a (4 * (Z.of_nat (length B) - NDIRECT)) (V ib)).
Lemma entered_used b : ib <> 0 -> used (entered V) b = used (taken V a) b.
Proof using Hstart Hsize HL HV F Ha.
  intros Hib. unfold used, entered. rewrite fupd_ne; [done|]. destruct (fa_own _ _ _ _ F ib (ib_owned B ib Hib)). lia.
Qed.
Lemma grow_entry : ib <> 0 -> (12 <= length B < 268)%nat -> file_at (entered V) ip (B ++ [a]) ib.
Proof using Hstart Hsize HL HV F Ha.
  intros Hib Hl. pose proof (ib_owned B ib Hib) as Hio. destruct (fa_own _ _ _ _ F ib Hio) as (Hir & _ & Hil). pose proof (first_data V a HV Ha) as Hfd.
  destruct owned_snoc_split as [Hnd Hel]. pose proof taken_fresh as (Hf & Hu & Hln). pose proof fresh_not_owned as Hno.
  pose proof F as [F1 F2 F3 F4 F5 F6 F7 F8]. split.
  - done.
  - rewrite length_app. simpl. lia.
  - intros j Hj. rewrite F3 by done. by rewrite lookup_app_l by lia.
  - done.
  - done.
  - intros j _ Hj. unfold entered. rewrite fupd_eq.
    replace (Z.of_nat (length B) - NDIRECT) with (Z.of_nat (length B - 12)) by (unfold NDIRECT; lia).
    destruct (decide (j = length B - 12)%nat) as [->|Hne].
    + rewrite data_get_set_eq by lia. replace (12 + (length B - 12))%nat with (length B) by lia. rewrite list_lookup_middle by done.
      simpl. apply Z.mod_small. lia.
    + rewrite data_get_set_ne by lia. rewrite F6 by done. f_equal. destruct (decide (12 + j < length B)%nat); [by rewrite lookup_app_l|].
      rewrite !lookup_ge_None_2; [done|rewrite length_app; simpl; lia|lia].
  - done.
  - intros b Hb. rewrite entered_used by done. unfold entered. apply Hel in Hb as [->|Hb].
    + rewrite fupd_ne; [done|]. by intros ->.
    + destruct (taken_owned b Hb) as [Et Eu]. destruct (F8 b Hb) as (Hr & _ & Hlb). split_and!; [lia|lia|done|].
      destruct (decide (ib = b)) as [<-|Hne]; [rewrite fupd_eq, length_data_set by (unfold NDIRECT; lia); done|]. rewrite fupd_ne by done. by rewrite Et.
Qed.
End grow.

(** ** Growing a file *)

(** What a file write works on: the log, the disk, the inode and its blocks. *)
Record wstate := mk_wstate { w_bs : list Z; w_V : Z -> list Z; w_ip : inode; w_B : list Z; w_ib : Z }.

(** The blocks that are or will be in the log for this file, and the blocks that
    can still be taken for data. *)
Definition load (w : wstate) : nat := length (w_bs w) + miss (w_bs w) bm + (if decide (w_ib w = 0) then 1 else miss (w_bs w) (w_ib w)).
Definition spare (w : wstate) : nat := length (free_blocks (w_V w)) + (if decide (w_ib w = 0) then 0 else 1).

Section grow_file.
Context (k0 : kernel) (i : nat) (ip0 : inode) (Hi0 : inodes k0 !! i = Some ip0) (Hdev : i_dev ip0 = dev) (Hsb : ksb k0 = sb).

Record writing (w : wstate) (k : kernel) : Prop := mk_writing {
  wr_op : op ∅ (w_bs w) (w_V w) k;
  wr_file : file_at (w_V w) (w_ip w) (w_B w) (w_ib w);
  wr_bitmap : bitmap_ok (w_V w);
  wr_outer : outer k = outer k0;
  wr_inodes : inodes k = <[i := w_ip w]> (inodes k0);
  wr_ip : exists l, w_ip w = upd_i_addrs (fun _ => l) ip0
}.

(** From [w] to [w'] the file has grown and no other file has changed. *)
Record follows (w w' : wstate) : Prop := mk_follows {
  fo_blocks : w_B w `prefix_of` w_B w';
  fo_ib : w_ib w <> 0 -> w_ib w' = w_ib w;
  fo_used b : 0 <= b < 8192 -> used (w_V w) b = true -> used (w_V w') b = true;
  fo_new b : b ∈ owned (w_B w') (w_ib w') -> b ∈ owned (w_B w) (w_ib w) \/ 0 <= b < 8192 /\ used (w_V w) b = false;
  fo_keep b : 0 <= b < 8192 -> used (w_V w) b = true -> b <> bm -> b ∉ owned (w_B w) (w_ib w) -> w_V w' b = w_V w b
}.
#[export] Instance follows_preorder : PreOrder follows.
Proof using.
  split.
  - intros w. split; auto.
  - intros w1 w2 w3 [A1 A2 A3 A4 A5] [B1 B2 B3 B4 B5]. split.
    + by transitivity (w_B w2).
    + intros H. rewrite B2; [by apply A2|]. by rewrite A2.
    + auto.
    + intros b Hb. destruct (B4 b Hb) as [Hb2|[Hr Hu]]; [by apply A4|]. right. split; [done|]. destruct (used (w_V w1) b) eqn:E; [|done].
      rewrite A3 in Hu; done.
    + intros b Hr Hu Hbm Hno. rewrite B5; [by apply A5|done|by apply A3|done|]. intros [Hb|[_ Hu']]%A4; [done|congruence].
Qed.

Lemma op_inodes H bs V f k : op H bs V k -> op H bs V (upd_inodes f k).
Proof using.
  intros [[Hc Hl Ht Hn H0] [I1 I2]]. split; [|by split]. split; try done.
  apply (cache_thread me pid dev H _ _ V k); try done. by apply (thread_ext _ _ k), (ca_thread _ _ _ _ _ _ _ _ Hc).
Qed.

Lemma writing_inode w k : writing w k -> inodes k !! i = Some (w_ip w) /\ i_dev (w_ip w) = dev /\ ksb k = sb.
Proof using Hi0 Hdev Hsb.
  intros [_ _ _ Ho Hi [l El]]. rewrite Hi, list_lookup_insert_eq by (by eapply lookup_lt_Some). split_and!; [done|by rewrite El|].
  by rewrite <- Hsb, (outer_ksb _ _ Ho).
Qed.
Lemma load_room w : Z.of_nat (load w) <= size - 2 -> room (w_bs w) /\ room (absorbed (w_bs w) bm).
Proof using. unfold load, room. rewrite length_absorbed. intros H. destruct (decide (w_ib w = 0)); lia. Qed.

(** Only the inode and the log have moved. *)
Lemma writing_step w k k1 w' :
  writing w k -> outer k1 = outer k -> inodes k1 = <[i := w_ip w']> (inodes k) -> op ∅ (w_bs w') (w_V w') k1 ->
  file_at (w_V w') (w_ip w') (w_B w') (w_ib w') -> bitmap_ok (w_V w') -> (exists l, w_ip w' = upd_i_addrs (fun _ => l) (w_ip w)) -> writing w' k1.
Proof using.
  intros [_ _ _ Ho Hi [l El]] E1 E2 O1 F1 B1 [l' El']. split; [done|done|done|by rewrite E1|by rewrite E2, Hi, list_insert_insert_eq|].
  exists l'. by rewrite El', El.
Qed.

(** Taking block [a] for the file. *)
Lemma taken_follows w a B' ib' :
  bitmap_ok (w_V w) -> first_free (w_V w) a -> w_B w `prefix_of` B' -> (w_ib w <> 0 -> ib' = w_ib w) ->
  (forall b, b ∈ owned B' ib' -> b = a \/ b ∈ owned (w_B w) (w_ib w)) ->
  forall bs' ip' V', (forall b, b <> w_ib w \/ w_ib w = 0 -> V' b = taken (w_V w) a b) ->
  (forall b, used V' b = used (taken (w_V w) a) b) ->
  (w_ib w <> 0 -> w_ib w ∈ owned (w_B w) (w_ib w)) ->
  follows w (mk_wstate bs' V' ip' B' ib').
Proof using Hstart Hsize HL.
  intros HV Ha Hp Hib Hel bs' ip' V' HV' Hus Hio. pose proof (first_data _ a HV Ha) as Hfd. split; cbn [w_B w_ib w_V].
  - done.
  - done.
  - intros b Hr Hu. rewrite Hus, (used_taken _ a HV Ha), Hu by done. apply orb_true_r.
  - intros b [->|Hb]%Hel; [right|by left]. split; [lia|]. apply Ha.
  - intros b Hr Hu Hbm Hno. rewrite HV'.
    + apply taken_other; [done|]. intros ->. destruct Ha as (_ & Hu' & _). congruence.
    + destruct (decide (w_ib w = 0)); [by right|left]. intros ->. by apply Hno, Hio.
Qed.

(** The three ways a block is taken. *)
Definition logged2 (w : wstate) (a : Z) : list Z := absorbed (absorbed (w_bs w) bm) a.
Definition new_direct (w : wstate) (a : Z) : wstate :=
  mk_wstate (logged2 w a) (taken (w_V w) a) (upd_i_addrs (<[length (w_B w) := a]>) (w_ip w)) (w_B w ++ [a]) (w_ib w).
Definition new_indirect (w : wstate) (a : Z) : wstate :=
  mk_wstate (logged2 w a) (taken (w_V w) a) (upd_i_addrs (<[12%nat := a]>) (w_ip w)) (w_B w) a.
Definition new_entry (w : wstate) (a : Z) : wstate :=
  mk_wstate (absorbed (logged2 w a) (w_ib w)) (entered (w_B w) (w_ib w) a (w_V w)) (w_ip w) (w_B w ++ [a]) (w_ib w).
(** With block [a] in the log. *)
Definition logged_block (w : wstate) (a : Z) : wstate := mk_wstate (absorbed (w_bs w) a) (w_V w) (w_ip w) (w_B w) (w_ib w).

(** [bmap] of block [j] gives [a]. *)
Record mapped_to (w : wstate) (j : nat) (a : Z) (w' : wstate) : Prop := mk_mapped_to {
  mt_follows : follows w w';
  mt_block : w_B w' !! j = Some a;
  mt_len : length (w_B w') = Nat.max (length (w_B w)) (S j);
  mt_data b : b ∈ w_B w -> w_V w' b = w_V w b;
  mt_zero : j = length (w_B w) -> w_V w' a = replicate 1024 0;
  mt_load : (load (logged_block w' a) <= S (load w))%nat;
  mt_spare : (spare w + length (w_B w) <= spare w' + length (w_B w'))%nat
}.

Section take.
Context (w : wstate) (a : Z) (HV : bitmap_ok (w_V w)) (F : file_at (w_V w) (w_ip w) (w_B w) (w_ib w)) (Ha : first_free (w_V w) a).

Lemma logged2_miss : miss (logged2 w a) bm = 0%nat /\ miss (logged2 w a) a = 0%nat /\
  (length (logged2 w a) <= length (w_bs w) + miss (w_bs w) bm + 1)%nat /\ forall m, (miss (logged2 w a) m <= miss (w_bs w) m)%nat.
Proof using.
  unfold logged2. split_and!.
  - apply miss_in. rewrite !elem_absorbed. auto.
  - apply miss_in. rewrite !elem_absorbed. auto.
  - rewrite !length_absorbed. pose proof (miss_le (absorbed (w_bs w) bm) a). lia.
  - intros m. rewrite !miss_absorbed. repeat case_decide; lia.
Qed.
Lemma data_not_ib b : b ∈ w_B w -> b <> w_ib w \/ w_ib w = 0.
Proof using F.
  intros Hb. destruct (decide (w_ib w = 0)); [by right|left]. intros ->. pose proof (fa_nodup _ _ _ _ F) as Hn. unfold owned in Hn.
  rewrite decide_False in Hn by done. apply list.NoDup_app in Hn as (_ & Hd & _). apply (Hd _ Hb). by apply list_elem_of_singleton.
Qed.
Lemma data_taken b : b ∈ w_B w -> taken (w_V w) a b = w_V w b.
Proof using Hstart Hsize HL HV F Ha.
  intros Hb. apply (taken_owned _ _ _ _ _ HV F Ha). apply elem_of_app. by left.
Qed.

Lemma new_direct_ok : mapped_to w (length (w_B w)) a (new_direct w a).
Proof using Hstart Hsize HL HV F Ha.
  destruct logged2_miss as (M1 & M2 & M3 & M4). split.
  - apply (taken_follows w a); try done; [by apply prefix_app_r| |by apply ib_owned].
    intros b Hb. by apply (owned_snoc_split _ _ _ _ _ F Ha).
  - by apply list_lookup_middle.
  - cbn [w_B new_direct]. rewrite length_app. simpl. lia.
  - exact data_taken.
  - intros _. apply taken_new.
  - unfold load, logged_block. cbn [w_bs w_ib new_direct]. rewrite (absorbed_in (logged2 w a)) by (unfold logged2; apply elem_absorbed; by left).
    rewrite M1. pose proof (M4 (w_ib w)). case_decide; lia.
  - unfold spare. cbn [w_V w_ib w_B new_direct]. rewrite (taken_free _ a HV Ha), length_app. simpl. lia.
Qed.

Lemma new_indirect_ok : w_ib w = 0 -> length (w_B w) = 12%nat ->
  follows w (new_indirect w a) /\ (load (new_indirect w a) <= load w)%nat /\ spare (new_indirect w a) = spare w /\ a <> 0.
Proof using Hstart Hsize HL HV F Ha.
  intros Hib Hl. destruct logged2_miss as (M1 & M2 & M3 & M4). pose proof (first_data _ a HV Ha) as Hfd. split_and!.
  - apply (taken_follows w a); try done. intros b Hb. unfold owned in *. rewrite decide_False in Hb by lia. rewrite decide_True by done.
    apply elem_of_app in Hb as [Hb| ->%list_elem_of_singleton]; [right|by left]. apply elem_of_app. by left.
  - unfold load. cbn [w_bs w_ib new_indirect]. rewrite M1, M2, Hib. rewrite decide_False by lia. rewrite decide_True by done. lia.
  - unfold spare. cbn [w_V w_ib new_indirect]. rewrite Hib, decide_False, decide_True by lia. rewrite (taken_free _ a HV Ha). lia.
  - lia.
Qed.

Lemma new_entry_ok : w_ib w <> 0 -> (12 <= length (w_B w) < 268)%nat -> mapped_to w (length (w_B w)) a (new_entry w a).
Proof using Hstart Hsize HL HV F Ha.
  intros Hib Hl. destruct logged2_miss as (M1 & M2 & M3 & M4). split.
  - apply (taken_follows w a); try done; [by apply prefix_app_r| | | |by intros _; apply ib_owned].
    + intros b Hb. by apply (owned_snoc_split _ _ _ _ _ F Ha).
    + intros b [Hb|]; [|done]. cbn [w_V new_entry]. unfold entered. by apply fupd_ne.
    + intros b. by apply (entered_used _ _ _ _ _ HV F Ha).
  - by apply list_lookup_middle.
  - cbn [w_B new_entry]. rewrite length_app. simpl. lia.
  - intros b Hb. cbn [w_V new_entry]. unfold entered. destruct (data_not_ib b Hb); [|done]. rewrite fupd_ne by done. by apply data_taken.
  - intros _. cbn [w_V new_entry]. unfold entered. rewrite fupd_ne; [apply taken_new|].
    intros E. apply (fresh_not_owned _ _ _ _ _ F Ha). rewrite <- E. by apply ib_owned.
  - unfold load, logged_block. cbn [w_bs w_ib new_entry]. rewrite (absorbed_in (absorbed (logged2 w a) (w_ib w)) a) by (unfold logged2; rewrite !elem_absorbed; auto).
    rewrite !miss_absorbed, length_absorbed, M1. pose proof (M4 (w_ib w)). repeat case_decide; congruence || lia.
  - unfold spare. cbn [w_V w_ib w_B new_entry]. rewrite decide_False, length_app by done. rewrite (taken_free _ a HV Ha).
    replace (free_blocks (entered (w_B w) (w_ib w) a (w_V w))) with (free_blocks (taken (w_V w) a)); [simpl; lia|].
    unfold free_blocks. apply list_filter_iff. intros b. by rewrite (entered_used _ _ _ _ _ HV F Ha).
Qed.
End take.

Lemma present_ok w j a : file_at (w_V w) (w_ip w) (w_B w) (w_ib w) -> w_B w !! j = Some a -> mapped_to w j a w.
Proof using.
  intros F Hj. pose proof (lookup_lt_Some _ _ _ Hj). split; [done|done|lia|done|lia| |lia].
  unfold load, logged_block. cbn [w_bs w_ib]. rewrite !miss_absorbed, length_absorbed. pose proof (miss_le (w_bs w) a). repeat case_decide; lia.
Qed.
Lemma writing_same w k k' : writing w k -> op ∅ (w_bs w) (w_V w) k' -> same k k' -> writing w k'.
Proof using. intros [H1 H2 H3 H4 H5 H6] Ho [E1 E2]. split; [done|done|done|by rewrite E1|by rewrite E2|done]. Qed.

Lemma addr_set_ok w k (j : nat) v Q : inodes k !! i = Some (w_ip w) -> (j < 13)%nat -> length (i_addrs (w_ip w)) = 13%nat ->
  Q tt (upd_inodes (<[i := upd_i_addrs (<[j := v]>) (w_ip w)]>) k) -> wp (addr_set i (Z.of_nat j) v) Q k.
Proof using.
  intros Hi Hj Hl HQ. unfold addr_set. apply wp_bind. destruct (lookup_lt_is_Some_2 (i_addrs (w_ip w)) j) as [x Hx]; [lia|].
  eapply wp_addr_get; [exact Hi|lia|by rewrite Nat2Z.id|]. eapply wp_idx_upd; [exact Hi|]. by rewrite Nat2Z.id.
Qed.

(** [balloc] for a file. *)
Lemma file_balloc w k H a : op H (w_bs w) (w_V w) k -> ksb k = sb -> bitmap_ok (w_V w) -> first_free (w_V w) a -> Z.of_nat (load w) <= size - 2 ->
  (base.size H <= 1)%nat -> (forall j b, H !! j = Some b -> used (w_V w) b = true /\ b <> bm) ->
  wp (balloc dev) (fun r k' => r = a /\ op H (logged2 w a) (taken (w_V w) a) k' /\ same k k') k.
Proof using Hstart Hsize DL HL.
  intros Ho Hs HV Ha Hl HH Hheld. destruct (load_room w Hl) as [R1 R2].
  apply (balloc_ok H (w_bs w) (w_V w) k Ho Hs HV a Ha HH); [|..|done|done].
  - intros j Hj. by destruct (Hheld j _ Hj).
  - intros j Hj. destruct (Hheld j _ Hj) as [Hu _]. destruct Ha as (_ & Hu' & _). congruence.
Qed.
Lemma spare_free w : (2 <= spare w)%nat -> exists a, first_free (w_V w) a.
Proof using. unfold spare. intros H. apply free_first. intros E. rewrite E in H. simpl in H. case_decide; lia. Qed.

Lemma bmap_direct w k j : writing w k -> (j <= length (w_B w))%nat -> (j < 12)%nat -> (j = length (w_B w) -> 2 <= spare w)%nat ->
  Z.of_nat (load w) + 1 <= size - 2 ->
  wp (let! addr := addr_get i (Z.of_nat j) in
      if addr =? 0 then
        let! addr := balloc (i_dev (w_ip w)) in
        if addr =? 0 then ret 0 else
        do! addr_set i (Z.of_nat j) addr in ret addr
      else ret addr) (fun a k' => exists w', writing w' k' /\ mapped_to w j a w') k.
Proof using Hstart Hsize DL HL Hi0 Hdev Hsb.
  intros Hw Hj H12 Hsp Hld. destruct (writing_inode w k Hw) as (Hi & Hd & Hs). destruct (id Hw) as [Ho F HV E1 E2 E3].
  apply wp_bind. eapply wp_addr_get; [exact Hi|lia|rewrite Nat2Z.id; by apply (fa_direct _ _ _ _ F)|].
  destruct (w_B w !! j) as [b|] eqn:Ej.
  - change (default 0 (Some b)) with b. destruct (fa_own _ _ _ _ F b (block_owned _ _ _ _ Ej)) as (Hb & _). pose proof (ly_bm HL).
    destruct (Z.eqb_spec b 0); [lia|]. apply wp_ret. exists w. split; [done|by apply present_ok].
  - apply lookup_ge_None_1 in Ej. assert (j = length (w_B w)) as -> by lia. destruct (spare_free w (Hsp eq_refl)) as [a Ha].
    pose proof (first_data _ a HV Ha) as Hfd. cbn [default]. rewrite Hd. apply wp_bind.
    eapply wp_conseq; [apply (file_balloc w k ∅ a Ho Hs HV Ha); [lia|rewrite map_size_empty; lia|done]|cbv beta].
    intros r k1 (-> & O1 & S1 & I1). destruct (Z.eqb_spec a 0); [lia|]. apply wp_bind.
    apply (addr_set_ok w); [by rewrite I1|lia|apply F|]. apply wp_ret. exists (new_direct w a). split; [|by apply new_direct_ok].
    apply (writing_step w k); [done|done|simpl; by rewrite I1|by apply op_inodes|by apply grow_direct|by apply taken_ok|by eexists].
Qed.

Lemma bmap_indirect w k : writing w k -> (12 <= length (w_B w))%nat -> (length (w_B w) = 12 -> 2 <= spare w)%nat -> Z.of_nat (load w) <= size - 2 ->
  wp (if w_ib w =? 0 then
        let! addr := balloc (i_dev (w_ip w)) in
        if addr =? 0 then ret 0 else
        do! addr_set i NDIRECT addr in ret addr
      else ret (w_ib w)) (fun a k' => exists w', writing w' k' /\ a = w_ib w' /\ w_ib w' <> 0 /\ follows w w' /\ w_B w' = w_B w /\
        i_dev (w_ip w') = dev /\ (forall b, b ∈ w_B w -> w_V w' b = w_V w b) /\ (load w' <= load w)%nat /\ spare w' = spare w) k.
Proof using Hstart Hsize DL HL Hi0 Hdev Hsb.
  intros Hw H12 Hsp Hld. destruct (writing_inode w k Hw) as (Hi & Hd & Hs). destruct (id Hw) as [Ho F HV E1 E2 E3].
  destruct (Z.eqb_spec (w_ib w) 0) as [Hib|Hib].
  - assert (Hl : length (w_B w) = 12%nat) by (destruct (decide (12 < length (w_B w))%nat) as [H|]; [by destruct (fa_none _ _ _ _ F H)|lia]).
    destruct (spare_free w (Hsp Hl)) as [a Ha]. rewrite Hd. apply wp_bind.
    eapply wp_conseq; [apply (file_balloc w k ∅ a Ho Hs HV Ha Hld); [rewrite map_size_empty; lia|done]|cbv beta].
    intros r k1 (-> & O1 & S1 & I1). destruct (new_indirect_ok w a HV F Ha Hib Hl) as (G1 & G2 & G3 & G4). destruct (Z.eqb_spec a 0); [done|]. apply wp_bind.
    change NDIRECT with (Z.of_nat 12). apply (addr_set_ok w); [by rewrite I1|lia|apply F|]. apply wp_ret. exists (new_indirect w a). split_and!; try done.
    + apply (writing_step w k); [done|done|simpl; by rewrite I1|by apply op_inodes|by apply (grow_indirect _ _ _ _ _ HV F Ha)|by apply taken_ok|by eexists].
    + intros b Hb. by apply data_taken.
  - apply wp_ret. by exists w.
Qed.

Lemma bmap_entry w k j : writing w k -> w_ib w <> 0 -> (12 <= j < 268)%nat -> (j <= length (w_B w))%nat -> (j = length (w_B w) -> 2 <= spare w)%nat ->
  Z.of_nat (load w) + 1 <= size - 2 ->
  wp (let! bp := bread dev (w_ib w) in
      let! x := get_buf bp in
      let addr := data_get 4 (b_data x) (4 * (Z.of_nat j - NDIRECT)) in
      let! addr :=
        (if addr =? 0 then
           let! addr := balloc dev in
           do! when (nz addr)
             (do! upd_buf bp (upd_b_data (data_set 4 addr (4 * (Z.of_nat j - NDIRECT)))) in log_write bp) in
           ret addr
         else ret addr) in
      do! brelse bp in
      ret addr) (fun a k' => exists w', writing w' k' /\ mapped_to w j a w') k.
Proof using Hstart Hsize DL HL Hi0 Hdev Hsb.
  intros Hw Hib Hj Hjl Hsp Hld. destruct (writing_inode w k Hw) as (Hi & Hd & Hs). destruct (id Hw) as [Ho F HV E1 E2 E3].
  destruct (load_room w) as [R1 R2]; [lia|]. destruct (fa_own _ _ _ _ F _ (ib_owned _ _ Hib)) as (Hir & Hiu & Hil). pose proof (ly_bm HL) as Hbm.
  apply wp_bind. eapply wp_conseq; [apply (op_bread ∅ (w_bs w) (w_V w) k (w_ib w) Ho); [done|rewrite map_size_empty; lia|done]|cbv beta].
  intros bp k1 (_ & O1 & S1). set (H1 := <[bp := w_ib w]> (∅ : gmap nat Z)) in *. assert (Hbp : H1 !! bp = Some (w_ib w)) by apply lookup_insert_eq.
  assert (Hdel : delete bp H1 = ∅) by (unfold H1; by rewrite delete_insert_id).
  destruct (op_data _ _ _ _ bp _ O1 Hbp) as (x & Ex & Ed). apply wp_bind. eapply wp_eq; [exact Ex|]. rewrite Ed.
  replace (Z.of_nat j - NDIRECT) with (Z.of_nat (j - 12)) by (unfold NDIRECT; lia).
  rewrite (fa_ind _ _ _ _ F (j - 12)) by (done || lia). replace (12 + (j - 12))%nat with j by lia. apply wp_bind. destruct (w_B w !! j) as [b|] eqn:Ej.
  - change (default 0 (Some b)) with b. destruct (fa_own _ _ _ _ F b (block_owned _ _ _ _ Ej)) as (Hb & _).
    destruct (Z.eqb_spec b 0); [lia|]. apply wp_ret, wp_bind.
    eapply wp_conseq; [apply (op_brelse _ _ _ k1 bp _ O1 Hbp)|cbv beta]. intros _ k2 [O2 S2]. rewrite Hdel in O2. apply wp_ret.
    exists w. split; [|by apply present_ok]. apply (writing_same w k); [done|done|]. by rewrite S1.
  - apply lookup_ge_None_1 in Ej. assert (j = length (w_B w)) as -> by lia. destruct (spare_free w (Hsp eq_refl)) as [a Ha].
    pose proof (first_data _ a HV Ha) as Hfd. cbn [default Z.eqb]. apply wp_bind. destruct S1 as [S1 I1].
    eapply wp_conseq; [apply (file_balloc w k1 H1 a O1); [|done|done|lia| |]|cbv beta].
    { unfold outer in S1. injection S1. intros. congruence. }
    { unfold H1. by rewrite insert_empty, map_size_singleton. }
    { intros y b Hy. unfold H1 in Hy. rewrite lookup_insert in Hy. case_decide; [injection Hy as <-; split; [done|lia]|done]. }
    intros r k2 (-> & O2 & S2 & I2). unfold nz. destruct (Z.eqb_spec a 0); [lia|]. cbn [negb when]. apply wp_bind, wp_bind.
    eapply wp_conseq; [eapply (op_change _ _ _ k2 bp (w_ib w)); [exact O2|exact Hbp|apply block_range; lia|reflexivity]|cbv beta]. intros _ k3 [O3 S3].
    destruct (logged2_miss w a) as (M1 & _ & M3 & _).
    eapply wp_conseq; [apply (op_log_write _ _ _ k3 bp (w_ib w) O3 Hbp); [lia|apply block_range; lia|unfold room, load in *; lia]|cbv beta]. intros _ k4 [O4 S4].
    apply wp_ret, wp_bind. eapply wp_conseq; [apply (op_brelse _ _ _ k4 bp _ O4 Hbp)|cbv beta]. intros _ k5 [O5 S5]. rewrite Hdel in O5. apply wp_ret.
    exists (new_entry w a). split; [|apply new_entry_ok; done || lia].
    destruct (transitivity S3 (transitivity S4 S5)) as [T1 T2].
    apply (writing_step w k); [done|congruence| | |apply (grow_entry _ _ _ _ _ HV F Ha); done || lia| |].
    + rewrite T2, I2, I1, E2. cbn [w_ip new_entry]. by rewrite list_insert_insert_eq.
    + cbn [w_bs w_V new_entry]. unfold entered. rewrite (proj1 (taken_owned _ _ _ _ _ HV F Ha _ (ib_owned _ _ Hib))) in O5.
      replace (Z.of_nat (length (w_B w)) - NDIRECT) with (Z.of_nat (length (w_B w) - 12)) by (unfold NDIRECT; lia). exact O5.
    + destruct (taken_ok _ a HV Ha) as [B1 B2]. split; cbn [w_V new_entry].
      * unfold entered. by rewrite fupd_ne by lia.
      * intros b Hb. rewrite (entered_used _ _ _ _ _ HV F Ha) by done. by apply B2.
    + exists (i_addrs (w_ip w)). cbn [w_ip new_entry]. by destruct (w_ip w).
Qed.

Lemma bmap_grows w k j : writing w k -> (j <= length (w_B w))%nat -> (j < 268)%nat -> (j = length (w_B w) -> 2 <= spare w)%nat ->
  Z.of_nat (load w) + 1 <= size - 2 -> wp (bmap i (Z.of_nat j)) (fun a k' => exists w', writing w' k' /\ mapped_to w j a w') k.
Proof using Hstart Hsize DL HL Hi0 Hdev Hsb.
  intros Hw Hjl Hj Hsp Hld. destruct (writing_inode w k Hw) as (Hi & Hd & Hs). destruct (id Hw) as [Ho F HV E1 E2 E3].
  unfold bmap. apply wp_bind. eapply wp_get_inode; [exact Hi|]. destruct (Z.ltb_spec (Z.of_nat j) NDIRECT) as [H12|H12]; unfold NDIRECT in H12.
  - apply bmap_direct; done || lia.
  - destruct (Z.ltb_spec (Z.of_nat j - NDIRECT) NINDIRECT) as [_|Hge]; [|change NINDIRECT with 256 in Hge; unfold NDIRECT in Hge; lia].
    apply wp_bind. eapply wp_addr_get; [exact Hi|done|exact (fa_ib _ _ _ _ F)|]. apply wp_bind.
    eapply wp_conseq; [apply (bmap_indirect w k Hw); [lia|intros ?; apply Hsp; lia|lia]|cbv beta].
    intros a k1 (w1 & W1 & -> & Hib & F1 & EB & Hd1 & HD1 & L1 & S1). destruct (Z.eqb_spec (w_ib w1) 0); [done|]. rewrite Hd.
    eapply wp_conseq; [apply (bmap_entry w1 k1 j W1 Hib); [lia|by rewrite EB|rewrite EB, S1; done|lia]|cbv beta].
    intros a k2 (w2 & W2 & [G1 G2 G3 G4 G5 G6 G7]). exists w2. split; [done|]. rewrite EB in *. split; [by transitivity w1|done|done| |done|lia|lia].
    intros b Hb. rewrite G4 by done. by apply HD1.
Qed.
End grow_file.
End disk.
End write.
