(* ===== verification/FsFile.v ===== *)
(** * File writes

    [writei] inside a transaction: the file has the new bytes where they were
    written and the old ones elsewhere, its inode on the disk says so, no block
    of another file has changed, and the log has room for everything. *)

From S2P Require Import Prelude Riscv Memory Machine Spinlock Kalloc Vm Kernel Klock KSample Cstring Printf Proc Sched ProcSpec.
From S2P Require Import Sleeplock SleepSpec Bio Lru BioSpec Log LogSpec LogSafe Fs FsRead Inodes FsWrite.

(** ** An inode on the disk *)

Lemma data_get_app_r n l1 l2 x : 0 <= x -> data_get n (l1 ++ l2) (Z.of_nat (length l1) + x) = data_get n l2 x.
Proof. intros Hx. unfold data_get. rewrite Z2Nat.inj_add, Nat2Z.id by lia. by rewrite drop_app_add. Qed.
Lemma data_get_head n v r : data_get n (le_bytes n v ++ r) 0 = v mod 256 ^ Z.of_nat n.
Proof.
  unfold data_get. change (Z.to_nat 0) with 0%nat. rewrite drop_0. pose proof (length_le_bytes n v).
  rewrite take_app_le, take_ge by lia. apply le_val_bytes.
Qed.
Lemma data_get_put n bs off d x : 0 <= off -> 0 <= x -> (Z.to_nat x + n <= length bs)%nat -> (Z.to_nat off + length bs <= length d)%nat ->
  data_get n (data_put bs off d) (off + x) = data_get n bs x.
Proof.
  intros Ho Hx Hn Hl. unfold data_get, data_put. f_equal.
  assert (Et : length (take (Z.to_nat off) d) = Z.to_nat off) by (rewrite length_take; lia).
  rewrite Z2Nat.inj_add by lia. rewrite <- Et at 1. rewrite drop_app_add, drop_app_le by lia. rewrite take_app_le; [done|]. rewrite length_drop. lia.
Qed.
Lemma data_get_piece l j v : l !! j = Some v -> data_get 4 (concat (map (le_bytes 4) l)) (4 * Z.of_nat j) = v mod 2 ^ 32.
Proof.
  intros Hj. unfold data_get. replace (Z.to_nat (4 * Z.of_nat j)) with (4 * j)%nat by lia.
  rewrite (slice_concat (map (le_bytes 4) l) 4 j (le_bytes 4 v)).
  - apply le_val_bytes.
  - apply list.Forall_forall. intros x Hx. apply list_elem_of_fmap in Hx as (y & -> & _). apply length_le_bytes.
  - by rewrite list_lookup_fmap, Hj.
Qed.

(** The fields of an inode are in the range of their types. *)
Record fields_ok (ip : inode) : Prop := mk_fields_ok {
  fd_short : Forall (fun v => - 2 ^ 15 <= v < 2 ^ 15) [i_type ip; i_major ip; i_minor ip; i_nlink ip];
  fd_size : 0 <= i_size ip < 2 ^ 32;
  fd_addrs : length (i_addrs ip) = 13%nat /\ Forall (fun v => 0 <= v < 2 ^ 32) (i_addrs ip)
}.

Lemma s16_mod v : - 2 ^ 15 <= v < 2 ^ 15 -> s16 (v mod 256 ^ Z.of_nat 2) = v.
Proof. intros Hv. unfold s16. change (256 ^ Z.of_nat 2) with (2 ^ 16). rewrite Z.add_mod_idemp_l by done. rewrite Z.mod_small; lia. Qed.

Lemma length_dinode ip : length (i_addrs ip) = 13%nat -> length (dinode_bytes ip) = 64%nat.
Proof.
  intros Hl. assert (H : forall l, length (concat (map (le_bytes 4) l)) = (4 * length l)%nat).
  { clear. intros l. induction l as [|x l IH]; [done|]. cbn [map concat]. rewrite length_app, length_le_bytes, IH. simpl. lia. }
  unfold dinode_bytes. rewrite !length_app, !length_le_bytes, H, Hl. done.
Qed.

(** Storing one inode leaves the others of its block. *)
Lemma load_dinode_other l o1 o2 d ip :
  0 <= o1 -> 0 <= o2 -> o1 + 64 <= o2 \/ o2 + 64 <= o1 -> length l = 64%nat -> (Z.to_nat o2 + 64 <= length d)%nat ->
  load_dinode (data_put l o2 d) o1 ip = load_dinode d o1 ip.
Proof.
  intros H1 H2 Ho Hl Hd. assert (E : forall n x, 0 <= x -> x + Z.of_nat n <= 64 -> data_get n (data_put l o2 d) (o1 + x) = data_get n d (o1 + x)).
  { intros n x Hx Hn. apply data_get_put_ne; rewrite ?Hl; lia. }
  unfold load_dinode. rewrite !E by lia. f_equal. apply map_ext_in. intros j Hj. apply list_elem_of_In, elem_of_seqZ in Hj. unfold NDIRECT in Hj.
  rewrite <- Z.add_assoc. apply E; lia.
Qed.

(** [iupdate] and the reading of an inode are inverse. *)
Lemma dinode_roundtrip ip off d :
  fields_ok ip -> 0 <= off -> (Z.to_nat off + 64 <= length d)%nat -> load_dinode (data_put (dinode_bytes ip) off d) off ip = ip.
Proof.
  intros [Hs Hz [Hl Ha]] Ho Hd. apply list.Forall_cons in Hs as [S1 [S2 [S3 [S4 _]%list.Forall_cons]%list.Forall_cons]%list.Forall_cons].
  pose proof (length_dinode ip Hl) as Hlen.
  assert (Hg : forall n x, 0 <= x -> (Z.to_nat x + n <= 64)%nat -> data_get n (data_put (dinode_bytes ip) off d) (off + x) = data_get n (dinode_bytes ip) x).
  { intros n x Hx Hn. apply data_get_put; lia. }
  unfold load_dinode. destruct ip as [dv inum rf lk vl ty mj mn nl sz ad]. cbn [i_dev i_inum i_ref i_lock i_valid i_type i_major i_minor i_nlink i_size i_addrs] in *.
  set (bytes := dinode_bytes _) in *.
  assert (E0 : data_get 2 bytes 0 = ty mod 256 ^ Z.of_nat 2) by apply data_get_head.
  assert (E2 : data_get 2 bytes 2 = mj mod 256 ^ Z.of_nat 2) by (etransitivity; [exact (data_get_app_r 2 (le_bytes 2 ty) _ 0 ltac:(done))|apply data_get_head]).
  assert (E4 : data_get 2 bytes 4 = mn mod 256 ^ Z.of_nat 2).
  { etransitivity; [exact (data_get_app_r 2 (le_bytes 2 ty) _ 2 ltac:(done))|].
    etransitivity; [exact (data_get_app_r 2 (le_bytes 2 mj) _ 0 ltac:(done))|apply data_get_head]. }
  assert (E6 : data_get 2 bytes 6 = nl mod 256 ^ Z.of_nat 2).
  { etransitivity; [exact (data_get_app_r 2 (le_bytes 2 ty) _ 4 ltac:(done))|]. etransitivity; [exact (data_get_app_r 2 (le_bytes 2 mj) _ 2 ltac:(done))|].
    etransitivity; [exact (data_get_app_r 2 (le_bytes 2 mn) _ 0 ltac:(done))|apply data_get_head]. }
  set (pre := le_bytes 2 ty ++ le_bytes 2 mj ++ le_bytes 2 mn ++ le_bytes 2 nl).
  assert (Eb : bytes = pre ++ le_bytes 4 sz ++ concat (map (le_bytes 4) ad)) by (unfold bytes, pre, dinode_bytes; by rewrite <- !(assoc_L (++))).
  assert (E8 : data_get 4 bytes 8 = sz).
  { rewrite Eb. etransitivity; [exact (data_get_app_r 4 pre _ 0 ltac:(done))|]. rewrite data_get_head. apply Z.mod_small. done. }
  rewrite !Hg by (simpl; lia). rewrite E0, E2, E4, E6, E8, !s16_mod by done. f_equal.
  apply list_eq. intros j. rewrite list_lookup_fmap. destruct (decide (j < 13)%nat) as [Hj|Hj].
  - rewrite lookup_seqZ_lt by (unfold NDIRECT; lia). destruct (lookup_lt_is_Some_2 ad j) as [v Ev]; [lia|]. rewrite Ev. simpl. f_equal.
    replace (off + 12 + 4 * (0 + Z.of_nat j)) with (off + (12 + 4 * Z.of_nat j)) by lia. rewrite Hg by lia. rewrite Eb.
    replace (12 + 4 * Z.of_nat j) with (Z.of_nat (length pre) + (Z.of_nat (length (le_bytes 4 sz)) + 4 * Z.of_nat j))
      by (unfold pre; rewrite !length_app, !length_le_bytes; lia).
    rewrite !data_get_app_r by lia.
    rewrite (data_get_piece ad j v Ev). apply Z.mod_small. by apply (list.Forall_lookup_1 _ _ _ _ Ha Ev).
  - rewrite lookup_seqZ_ge by (unfold NDIRECT; lia). symmetry. apply lookup_ge_None_2. lia.
Qed.

(** ** The bytes of a file by its blocks *)

Definition fbyte (w : wstate) (o : nat) : Z := default 0 (w_V w (default 0 (w_B w !! (o / 1024)%nat)) !! (o mod 1024)%nat).

Section write.
Context {KI : KernelImage} {C : Config} {D : BlockDevice} {DL : Disk}.
Context (me : nat) (pid dev start size : Z).
Context (Hstart : 0 <= start) (Hsize : 1 <= size <= LOGSIZE) (Hend : start + size < 2 ^ 31).
Context (sb : superblock) (HL : layout start size sb).
Context (k0 : kernel) (i : nat) (ip0 : inode) (Hi0 : inodes k0 !! i = Some ip0) (Hdev : i_dev ip0 = dev) (Hsb : ksb k0 = sb).

#[local] Notation op := (op me pid dev start size).
#[local] Notation writing := (writing me pid dev start size sb k0 i ip0).
#[local] Notation follows := (follows sb).
#[local] Notation mapped_to := (mapped_to sb).
#[local] Notation bm := (sb_bmapstart sb).

Lemma op_touch H bs V k : op H bs V k -> op H bs V (upd_mach touch k).
Proof using. intros [[Hc Hl Ht Hn H0] [I1 I2]]. split; [|by split]. split; try done. by apply cache_touch. Qed.

(** Bytes [d] stored at [o], within the block [a] of [o]. *)
Definition stored_block (w : wstate) (a : Z) (o : nat) (d : list Z) : wstate :=
  mk_wstate (absorbed (w_bs w) a) (fupd (w_V w) a (data_put d (Z.of_nat (o mod 1024)) (w_V w a))) (w_ip w) (w_B w) (w_ib w).

Section store.
Context (w : wstate) (o : nat) (a : Z) (d : list Z).
Context (F : file_at sb (w_V w) (w_ip w) (w_B w) (w_ib w)) (HV : bitmap_ok sb (w_V w)).
Context (Ha : w_B w !! (o / 1024)%nat = Some a) (Hd : (o mod 1024 + length d <= 1024)%nat).

Lemma store_range : bm < a /\ length (w_V w a) = 1024%nat /\ (a <> w_ib w \/ w_ib w = 0).
Proof using F Ha Hd.
  destruct (fa_own _ _ _ _ _ F a (block_owned _ _ _ _ Ha)) as (H1 & _ & H2). split_and!; [lia|done|].
  eapply data_not_ib; [exact F|]. by eapply list_elem_of_lookup_2.
Qed.
Lemma store_used b : used sb (w_V (stored_block w a o d)) b = used sb (w_V w) b.
Proof using F Ha Hd. destruct store_range. unfold used. simpl. by rewrite fupd_ne by lia. Qed.
Lemma store_file : file_at sb (w_V (stored_block w a o d)) (w_ip w) (w_B w) (w_ib w).
Proof using F Ha Hd.
  destruct store_range as (H1 & H2 & H3). apply (file_at_ext _ (w_V w)); [done| |].
  - intros Hib. simpl. apply fupd_ne. by destruct H3.
  - intros b Hb. rewrite store_used. destruct (fa_own _ _ _ _ _ F b Hb) as (_ & Hu & Hl). split; [done|]. simpl.
    destruct (decide (a = b)) as [<-|]; [|by rewrite fupd_ne]. rewrite fupd_eq, length_data_put; [done|]. rewrite Nat2Z.id, Hl. done.
Qed.
Lemma store_bitmap : bitmap_ok sb (w_V (stored_block w a o d)).
Proof using F Ha Hd HV.
  destruct HV as [B1 B2]. destruct store_range. split; [simpl; by rewrite fupd_ne by lia|]. intros b Hb. rewrite store_used. by apply B2.
Qed.
Lemma store_follows : follows w (stored_block w a o d).
Proof using F Ha Hd.
  split; [done|done|by intros b _; rewrite store_used|by left|]. intros b _ _ _ Hno. simpl. apply fupd_ne. intros <-. apply Hno. by eapply block_owned.
Qed.
(** The bytes afterwards. *)
Lemma store_bytes x : (x / 1024 < length (w_B w))%nat ->
  fbyte (stored_block w a o d) x = if decide (o <= x < o + length d)%nat then default 0 (d !! (x - o)%nat) else fbyte w x.
Proof using F Ha Hd.
  intros Hx. destruct store_range as (H1 & H2 & _). unfold fbyte. cbn [w_V w_B stored_block].
  pose proof (Nat.div_mod x 1024 ltac:(done)) as Dx. pose proof (Nat.mod_upper_bound x 1024 ltac:(done)) as Mx.
  pose proof (Nat.div_mod o 1024 ltac:(done)) as Do. pose proof (Nat.mod_upper_bound o 1024 ltac:(done)) as Mo.
  destruct (lookup_lt_is_Some_2 (w_B w) (x / 1024) Hx) as [b Eb]. rewrite Eb. change (default 0 (Some b)) with b.
  destruct (decide (x / 1024 = o / 1024)%nat) as [E|E].
  - rewrite E, Ha in Eb. injection Eb as <-. rewrite fupd_eq, data_put_lookup by (rewrite ?Nat2Z.id, ?H2; lia). rewrite Nat2Z.id.
    destruct (decide (o <= x < o + length d)%nat) as [Hr|Hr].
    + rewrite decide_True by lia. do 2 f_equal. lia.
    + by rewrite decide_False by lia.
  - rewrite fupd_ne.
    + destruct (decide (o <= x < o + length d)%nat) as [Hr|Hr]; [|done]. exfalso. apply E. nia.
    + intros <-. apply E. pose proof (fa_nodup _ _ _ _ _ F) as Hn. unfold owned in Hn. apply list.NoDup_app in Hn as [Hn _].
      by eapply NoDup_lookup.
Qed.
End store.

(** A step of [bmap] keeps the bytes of the blocks the file had. *)
Lemma mapped_bytes w j a w' x : mapped_to w j a w' -> (x / 1024 < length (w_B w))%nat -> fbyte w' x = fbyte w x.
Proof using.
  intros M Hx. unfold fbyte. destruct (lookup_lt_is_Some_2 (w_B w) (x / 1024) Hx) as [b Eb].
  rewrite (prefix_lookup_Some _ _ _ _ Eb (fo_blocks _ _ _ (mt_follows _ _ _ _ _ M))), Eb. change (default 0 (Some b)) with b.
  rewrite (mt_data _ _ _ _ _ M); [done|]. by eapply list_elem_of_lookup_2.
Qed.

(** Reading the source [sr] gives the bytes [l]. *)
Record supplies (sr : source) (l : list Z) : Prop := mk_supplies {
  su_zero : src_add sr 0 = sr;
  su_read (t m : nat) H bs V k : (0 < m)%nat -> (t + m <= length l)%nat -> op H bs V k -> outer k = outer k0 ->
    wp (either_copyin (src_add sr (Z.of_nat t)) (Z.of_nat m)) (fun r k' => r = (0, take m (drop t l)) /\ op H bs V k' /\ same k k') k
}.
Lemma src_add_add sr (t m : nat) : src_add (src_add sr (Z.of_nat t)) (Z.of_nat m) = src_add sr (Z.of_nat (t + m)).
Proof using.
  destruct sr as [va|l]; simpl; f_equal.
  - rewrite Nat2Z.inj_add, Z.add_assoc. unfold u64. by rewrite Zplus_mod_idemp_l.
  - by rewrite !Nat2Z.id, drop_drop.
Qed.
Lemma op_thread H bs V k : op H bs V k -> thread me pid k.
Proof using. intros Ho. apply (ca_thread _ _ _ _ _ _ _ _ (tx_cache _ _ _ _ _ _ _ _ _ _ (op_txn _ _ _ _ _ _ _ _ _ Ho))). Qed.

(** An object of the kernel. *)
Lemma supplies_obj l : supplies (SObj l) l.
Proof using.
  split; [done|]. intros t m H bs V k _ _ Ho _. unfold either_copyin. apply wp_bind. eapply wp_eq; [apply myproc_eq, (th_table _ _ _ (op_thread _ _ _ _ Ho))|].
  simpl. rewrite !Nat2Z.id. apply wp_ret. split_and!; [done|by apply op_touch|done].
Qed.

(** Storing a chunk of the source in block [a]. *)
Lemma chunk_ok {A E} w k (o : nat) (a : Z) sr l (t m : nat) (x : A) (e : E) :
  writing w k -> w_B w !! (o / 1024)%nat = Some a -> (o mod 1024 + m <= 1024)%nat -> supplies sr l -> (0 < m)%nat -> (t + m <= length l)%nat ->
  room size (w_bs w) ->
  wp (let! ip := get_inode i in
      let! bp := bread (i_dev ip) a in
      let! r := either_copyin (src_add sr (Z.of_nat t)) (Z.of_nat m) in
      let '(r, bs) := r in
      do! upd_buf bp (upd_b_data (data_put bs (Z.of_nat (o mod 1024)))) in
      if r =? -1 then do! brelse bp in ret (inr e) else
      do! log_write bp in
      do! brelse bp in
      ret (inl x)) (fun r k' => r = inl x /\ writing (stored_block w a o (take m (drop t l))) k') k.
Proof using Hstart Hsize DL HL Hi0 Hdev Hsb.
  intros W Ha Ho Hsr Hm0 Hm Hr. destruct (writing_inode _ _ _ _ _ _ _ _ _ Hi0 Hdev Hsb w k W) as (Hi1 & Hd1 & _).
  pose proof (wr_file _ _ _ _ _ _ _ _ _ _ _ W) as F. destruct (fa_own _ _ _ _ _ F a (block_owned _ _ _ _ Ha)) as (Har & Hau & Hal).
  destruct (block_range start size Hstart Hsize sb HL a) as [Ha1 Ha2]; [lia|].
  apply wp_bind. eapply wp_get_inode; [exact Hi1|]. rewrite Hd1. apply wp_bind.
  eapply wp_conseq; [apply (op_bread me pid dev start size Hsize ∅ _ _ k a (wr_op _ _ _ _ _ _ _ _ _ _ _ W)); [done|rewrite map_size_empty; lia|done]|cbv beta].
  intros bp k1 (_ & O1 & S1). set (H1 := <[bp := a]> (∅ : gmap nat Z)) in *. assert (Hbp : H1 !! bp = Some a) by apply lookup_insert_eq.
  assert (Hdel : delete bp H1 = ∅) by (unfold H1; by rewrite delete_insert_id).
  apply wp_bind. eapply wp_conseq; [apply (su_read _ _ Hsr t m _ _ _ k1 Hm0 Hm O1); rewrite (proj1 S1); apply W|cbv beta]. intros ? k2 (-> & O2 & S2).
  apply wp_bind. eapply wp_conseq; [eapply (op_change me pid dev start size Hsize _ _ _ k2 bp a); [exact O2|exact Hbp|done|reflexivity]|cbv beta]. intros _ k3 [O3 S3].
  cbn [Z.eqb]. apply wp_bind. eapply wp_conseq; [apply (op_log_write me pid dev start size Hsize _ _ _ k3 bp a O3 Hbp Ha1 Ha2 Hr)|cbv beta]. intros _ k4 [O4 S4].
  apply wp_bind. eapply wp_conseq; [apply (op_brelse _ _ _ _ _ _ _ _ k4 bp a O4 Hbp)|cbv beta]. intros _ k5 [O5 S5]. rewrite Hdel in O5. apply wp_ret. split; [done|].
  assert (S15 : same k k5) by (by rewrite S1, S2, S3, S4). destruct S15 as [T1 T2]. pose proof (wr_bitmap _ _ _ _ _ _ _ _ _ _ _ W) as HV.
  assert (Hdl : (o mod 1024 + length (take m (drop t l)) <= 1024)%nat) by (rewrite length_take; lia).
  eapply writing_step; [exact W|exact T1| |exact O5|exact (store_file w o a (take m (drop t l)) F Ha Hdl)|exact (store_bitmap w o a (take m (drop t l)) F HV Ha Hdl)|].
  - rewrite T2, (wr_inodes _ _ _ _ _ _ _ _ _ _ _ W). cbn [w_ip stored_block]. by rewrite list_insert_insert_eq.
  - exists (i_addrs (w_ip w)). cbn [w_ip stored_block]. by destruct (w_ip w).
Qed.

(** ** The loop of writei *)

Section writei.
Context (w0 : wstate) (src : list Z) (off : nat).
Definition span (t : nat) : nat := if decide (t = 0%nat) then 0 else (off + t + 1023) / 1024 - off / 1024.

Lemma span_step t m : (0 < m)%nat -> t = 0%nat \/ ((off + t) mod 1024 = 0)%nat -> (m <= 1024 - (off + t) mod 1024)%nat -> span (t + m) = S (span t).
Proof using.
  intros Hm Ht Hle. unfold span. rewrite decide_False by lia.
  pose proof (Nat.div_mod off 1024 ltac:(done)) as D1. pose proof (Nat.mod_upper_bound off 1024 ltac:(done)) as M1.
  pose proof (Nat.div_mod (off + t) 1024 ltac:(done)) as D2. pose proof (Nat.mod_upper_bound (off + t) 1024 ltac:(done)) as M2.
  assert (E : ((off + (t + m) + 1023) / 1024 = S ((off + t) / 1024))%nat).
  { symmetry. apply (Nat.div_unique _ _ _ ((off + t) mod 1024 + m - 1)); lia. }
  rewrite E. case_decide as Ht0; [subst t; rewrite Nat.add_0_r; lia|]. destruct Ht as [|Ht]; [done|].
  assert (E2 : ((off + t + 1023) / 1024 = (off + t) / 1024)%nat) by (symmetry; apply (Nat.div_unique _ _ _ 1023); lia).
  rewrite E2. assert (off / 1024 <= (off + t) / 1024)%nat by (apply Nat.Div0.div_le_mono; lia). lia.
Qed.
Lemma span_mono t t' : (t <= t')%nat -> (span t <= span t')%nat.
Proof using. intros H. unfold span. repeat case_decide; [lia..|]. pose proof (Nat.Div0.div_le_mono (off + t + 1023) (off + t' + 1023) 1024 ltac:(lia)). lia. Qed.

Record at_step (t : nat) (w : wstate) (k : kernel) : Prop := mk_at_step {
  as_writing : writing w k;
  as_follows : follows w0 w;
  as_t : (t <= length src)%nat;
  as_cover : (off + t <= 1024 * length (w_B w))%nat;
  as_block : (t < length src)%nat -> t = 0%nat \/ ((off + t) mod 1024 = 0)%nat;
  as_bytes x : (x / 1024 < length (w_B w0))%nat \/ (off <= x < off + t)%nat ->
    fbyte w x = if decide (off <= x < off + t)%nat then default 0 (src !! (x - off)%nat) else fbyte w0 x;
  as_load : (load sb w <= load sb w0 + span t)%nat;
  as_spare : (spare sb w0 + length (w_B w0) <= spare sb w + length (w_B w))%nat
}.

(** One chunk. *)
Lemma at_store t w k w1 k1 a m :
  at_step t w k -> mapped_to w ((off + t) / 1024) a w1 -> (t < length src)%nat -> m = Nat.min (length src - t) (1024 - (off + t) mod 1024) ->
  file_at sb (w_V w1) (w_ip w1) (w_B w1) (w_ib w1) ->
  writing (stored_block w1 a (off + t) (take m (drop t src))) k1 -> at_step (t + m) (stored_block w1 a (off + t) (take m (drop t src))) k1.
Proof using.
  intros A M Ht Hm F1 W1. set (o := (off + t)%nat) in *. set (d := take m (drop t src)) in *.
  pose proof (Nat.div_mod o 1024 ltac:(done)) as Do. pose proof (Nat.mod_upper_bound o 1024 ltac:(done)) as Mo.
  assert (Hd : length d = m) by (unfold d; rewrite length_take, length_drop; lia).
  pose proof (mt_block _ _ _ _ _ M) as Ha. pose proof (mt_len _ _ _ _ _ M) as Hl1. pose proof (span_step t m ltac:(lia) (as_block _ _ _ A Ht) ltac:(unfold o in *; lia)) as Hsp.
  pose proof (prefix_length _ _ (fo_blocks _ _ _ (as_follows _ _ _ A))) as Hl0.
  split; [done| |lia| | | | |].
  - transitivity w; [apply A|]. transitivity w1; [apply M|]. apply store_follows; [done|done|]. rewrite Hd. lia.
  - cbn [w_B stored_block]. rewrite Hl1. lia.
  - intros Hlt. right. assert (m = 1024 - o mod 1024)%nat as Em by lia. replace (off + (t + m))%nat with (1024 * S (o / 1024))%nat by (unfold o in *; lia).
    rewrite Nat.mul_comm. apply Nat.Div0.mod_mul.
  - intros x Hx. rewrite (store_bytes w1 o a d F1 Ha) by (rewrite ?Hd, ?Hl1; pose proof (Nat.div_mod x 1024 ltac:(done)); unfold o in *; lia).
    rewrite Hd. destruct (decide (o <= x < o + m)%nat) as [Hr|Hr].
    + rewrite decide_True by (unfold o in *; lia). unfold d. rewrite lookup_take_lt, lookup_drop by lia. do 2 f_equal. unfold o in *. lia.
    + assert (Hx' : (x / 1024 < length (w_B w0))%nat \/ (off <= x < off + t)%nat) by (unfold o in *; lia).
      rewrite (mapped_bytes w _ a w1 x M) by (pose proof (as_cover _ _ _ A); pose proof (Nat.div_mod x 1024 ltac:(done)); lia).
      rewrite (as_bytes _ _ _ A x Hx'). repeat case_decide; unfold o in *; done || lia.
  - change (load sb (stored_block w1 a o d)) with (load sb (logged_block w1 a)). pose proof (mt_load _ _ _ _ _ M). pose proof (as_load _ _ _ A). lia.
  - assert (E : spare sb (stored_block w1 a o d) = spare sb w1).
    { unfold spare. cbn [w_ib stored_block]. f_equal. f_equal. unfold free_blocks. apply list_filter_iff. intros b.
      rewrite store_used; [done|done|done|]. rewrite Hd. lia. }
    rewrite E. cbn [w_B stored_block]. pose proof (mt_spare _ _ _ _ _ M). pose proof (as_spare _ _ _ A). lia.
Qed.
Context (Hw0 : writing w0 k0) (Hoff : (off <= 1024 * length (w_B w0))%nat) (Hmax : (off + length src <= 268 * 1024)%nat).
Context (Hload : Z.of_nat (load sb w0 + span (length src)) <= size - 2) (Hspare : ((off + length src + 1023) / 1024 + 1 <= spare sb w0 + length (w_B w0))%nat).
Context (sr : source) (Hsr : supplies sr src).

Lemma at_start : at_step 0 w0 k0.
Proof using Hw0 Hoff Hmax Hload Hspare. split; try done; try lia. intros x [Hx|Hx]; [|lia]. by rewrite decide_False by lia. Qed.

Definition writei_step (n : Z) (st : Z * Z * source) : M kernel (Z * Z * source + Z * Z) :=
  let '(tot, off, src) := st in
  if tot <? n then
    let! addr := bmap i (off / BSIZE) in
    if addr =? 0 then ret (inr (tot, off)) else
    let! ip := get_inode i in
    let! bp := bread (i_dev ip) addr in
    let m := Z.min (n - tot) (BSIZE - off mod BSIZE) in
    let! r := either_copyin src m in
    let '(r, bs) := r in
    do! upd_buf bp (upd_b_data (data_put bs (off mod BSIZE))) in
    if r =? -1 then do! brelse bp in ret (inr (tot, off)) else
    do! log_write bp in
    do! brelse bp in
    ret (inl (tot + m, u32 (off + m), src_add src m))
  else ret (inr (tot, off)).

Definition step_state (t : nat) : Z * Z * source := (Z.of_nat t, Z.of_nat (off + t), src_add sr (Z.of_nat t)).

Lemma writei_step_ok t w k : at_step t w k -> (t < length src)%nat -> wp (writei_step (Z.of_nat (length src)) (step_state t)) (fun r k' =>
  exists t' w', r = inl (step_state t') /\ (t < t')%nat /\ at_step t' w' k') k.
Proof using Hstart Hsize DL HL Hi0 Hdev Hsb Hw0 Hoff Hmax Hload Hspare Hsr.
  intros A Ht. pose proof (as_writing _ _ _ A) as W. set (o := (off + t)%nat).
  pose proof (Nat.div_mod o 1024 ltac:(done)) as Do. pose proof (Nat.mod_upper_bound o 1024 ltac:(done)) as Mo.
  set (m := Nat.min (length src - t) (1024 - o mod 1024)). pose proof (span_step t m ltac:(unfold m; lia) (as_block _ _ _ A Ht) ltac:(unfold m, o in *; lia)) as Hsp.
  pose proof (span_mono (t + m) (length src) ltac:(unfold m; lia)) as Hsm. pose proof (as_load _ _ _ A) as Hld. pose proof (as_spare _ _ _ A) as Hspr.
  pose proof (as_cover _ _ _ A) as Hcov. assert (Hceil : (S (o / 1024) <= (off + length src + 1023) / 1024)%nat) by (apply Nat.div_le_lower_bound; unfold o in *; lia).
  unfold writei_step, step_state. destruct (Z.ltb_spec (Z.of_nat t) (Z.of_nat (length src))); [|lia]. fold o.
  assert (Eo : Z.of_nat o / BSIZE = Z.of_nat (o / 1024)) by (unfold BSIZE; by rewrite Nat2Z.inj_div).
  assert (Em : Z.of_nat o mod BSIZE = Z.of_nat (o mod 1024)) by (unfold BSIZE; by rewrite Nat2Z.inj_mod). rewrite Eo, Em.
  apply wp_bind. eapply wp_conseq; [apply (bmap_grows me pid dev start size Hstart Hsize sb HL k0 i ip0 Hi0 Hdev Hsb w k (o / 1024) W); unfold o in *; lia|cbv beta].
  intros a k1 (w1 & W1 & M1). pose proof (wr_file _ _ _ _ _ _ _ _ _ _ _ W1) as F1. pose proof (mt_block _ _ _ _ _ M1) as Ha.
  destruct (fa_own _ _ _ _ _ F1 a (block_owned _ _ _ _ Ha)) as (Har & _). pose proof (ly_bm _ _ _ HL) as Hbm.
  destruct (Z.eqb_spec a 0); [lia|].
  assert (Hr : room size (w_bs w1)).
  { pose proof (mt_load _ _ _ _ _ M1) as Hl1. unfold load in Hl1. cbn [w_bs logged_block] in Hl1. rewrite length_absorbed in Hl1. unfold room, load in *. lia. }
  replace (Z.min (Z.of_nat (length src) - Z.of_nat t) (BSIZE - Z.of_nat (o mod 1024))) with (Z.of_nat m) by (unfold m, BSIZE; lia).
  assert (Es : (Z.of_nat t + Z.of_nat m, u32 (Z.of_nat o + Z.of_nat m), src_add (src_add sr (Z.of_nat t)) (Z.of_nat m)) = step_state (t + m)).
  { unfold step_state. rewrite src_add_add, u32_small by (unfold m, o in *; lia). unfold o. repeat f_equal; lia. }
  rewrite Es. eapply wp_conseq; [apply (chunk_ok w1 k1 o a sr src t m (step_state (t + m)) _ W1 Ha); [unfold m; lia|done|unfold m; lia|unfold m; lia|done]|cbv beta].
  intros r k2 [-> W2]. exists (t + m)%nat. eexists. split_and!; [done|unfold m; lia|].
  by eapply at_store.
Qed.

Lemma writei_loop : wp (while (writei_step (Z.of_nat (length src))) (step_state 0))
  (fun r k => r = (Z.of_nat (length src), Z.of_nat (off + length src)) /\ exists w, at_step (length src) w k) k0.
Proof using Hstart Hsize DL HL Hi0 Hdev Hsb Hw0 Hoff Hmax Hload Hspare Hsr.
  apply (wp_while_ghost _ (fun t st k => st = step_state t /\ exists w, at_step t w k) (fun t => Z.of_nat (length src) - Z.of_nat t) _ 0%nat).
  - intros t st k (-> & w & A). pose proof (as_t _ _ _ A) as Ht. destruct (decide (t < length src)%nat) as [Hlt|Hge].
    + eapply wp_conseq; [by apply (writei_step_ok t w)|cbv beta]. intros r k' (t' & w' & -> & Htt & A'). exists t'. pose proof (as_t _ _ _ A').
      split; [by eauto|lia].
    + assert (t = length src) as -> by lia. unfold writei_step, step_state. rewrite Z.ltb_irrefl. apply wp_ret. split; [done|by exists w].
  - split; [done|]. exists w0. exact at_start.
  - lia.
Qed.
End writei.

(** ** iupdate *)

Lemma iupdate_ok bs V ip k :
  let n := IBLOCK (i_inum ip) sb in
  op ∅ bs V k -> ksb k = sb -> inodes k !! i = Some ip -> i_dev ip = dev -> start + size <= n < bm -> room size bs ->
  wp (iupdate i) (fun _ k' => op ∅ (absorbed bs n) (fupd V n (data_put (dinode_bytes ip) (dip_off (i_inum ip)) (V n))) k' /\ same k k') k.
Proof using Hstart Hsize DL HL.
  intros n Ho Hs Hi Hd Hn Hr. pose proof (ly_bm _ _ _ HL) as Hbm. pose proof (ly_size _ _ _ HL) as Hsz. change BPB with 8192 in Hsz.
  assert (Hnl : ~ in_log start size n) by (unfold in_log; lia).
  unfold iupdate. apply wp_bind, wp_gets. rewrite Hs. apply wp_bind. eapply wp_get_inode; [exact Hi|]. rewrite Hd. fold n. apply wp_bind.
  eapply wp_conseq; [apply (op_bread me pid dev start size Hsize ∅ _ _ k n Ho); [done|rewrite map_size_empty; lia|done]|cbv beta].
  intros bp k1 (_ & O1 & S1). set (H1 := <[bp := n]> (∅ : gmap nat Z)) in *. assert (Hbp : H1 !! bp = Some n) by apply lookup_insert_eq.
  assert (Hdel : delete bp H1 = ∅) by (unfold H1; by rewrite delete_insert_id).
  apply wp_bind. eapply wp_conseq; [eapply (op_change me pid dev start size Hsize _ _ _ k1 bp n); [exact O1|exact Hbp|done|reflexivity]|cbv beta]. intros _ k3 [O3 S3].
  apply wp_bind. eapply wp_conseq; [apply (op_log_write me pid dev start size Hsize _ _ _ k3 bp n O3 Hbp); [lia|done|done]|cbv beta]. intros _ k4 [O4 S4].
  eapply wp_conseq; [apply (op_brelse _ _ _ _ _ _ _ _ k4 bp n O4 Hbp)|cbv beta]. intros _ k5 [O5 S5]. rewrite Hdel in O5. split; [done|]. by rewrite S1, S3, S4.
Qed.

(** ** writei *)

Lemma short_fields V ip : loaded V sb ip = ip -> Forall (fun v => - 2 ^ 15 <= v < 2 ^ 15) [i_type ip; i_major ip; i_minor ip; i_nlink ip].
Proof using.
  intros <-. assert (H16 : forall v, - 2 ^ 15 <= s16 v < 2 ^ 15) by (intros v; unfold s16; pose proof (Z.mod_pos_bound (v + 2 ^ 15) (2 ^ 16) ltac:(done)); lia).
  unfold loaded, load_dinode. cbn [i_type i_major i_minor i_nlink]. repeat (apply list.Forall_cons; split; [apply H16|]). constructor.
Qed.
Lemma addr_fields V ip B ib : file_at sb V ip B ib -> Forall (fun v => 0 <= v < 2 ^ 32) (i_addrs ip).
Proof using Hstart Hsize HL.
  intros F. pose proof (ly_bm _ _ _ HL). pose proof (ly_size _ _ _ HL) as H8. change BPB with 8192 in H8. apply list.Forall_lookup_2. intros j v Hv.
  pose proof (lookup_lt_Some _ _ _ Hv) as Hj. rewrite (fa_len _ _ _ _ _ F) in Hj. destruct (decide (j < 12)%nat) as [Hd|Hd].
  - rewrite (fa_direct _ _ _ _ _ F j Hd) in Hv. injection Hv as <-. destruct (B !! j) as [b|] eqn:Eb; simpl; [|lia].
    destruct (fa_own _ _ _ _ _ F b (block_owned _ _ _ _ Eb)). lia.
  - assert (j = 12%nat) as -> by lia. rewrite (fa_ib _ _ _ _ _ F) in Hv. injection Hv as <-. destruct (decide (ib = 0)) as [->|Hib]; [lia|].
    destruct (fa_own _ _ _ _ _ F ib (ib_owned _ _ Hib)). lia.
Qed.
Lemma dip_range n : 0 <= dip_off n <= 960.
Proof using. unfold dip_off. change IPB with 16. unfold DINODE_SIZE. pose proof (Z.mod_pos_bound n 16 ltac:(done)). lia. Qed.

Section result.
Context (w0 : wstate) (src : list Z) (off : nat).
#[local] Notation ino := (IBLOCK (i_inum ip0) sb).

(** The file after the bytes [src] are written at [off]. *)
Record written (w : wstate) (k : kernel) : Prop := mk_written {
  wn_op : op ∅ (w_bs w) (w_V w) k;
  wn_file : file_at sb (w_V w) (w_ip w) (w_B w) (w_ib w);
  wn_bitmap : bitmap_ok sb (w_V w);
  wn_outer : outer k = outer k0;
  wn_inodes : inodes k = <[i := w_ip w]> (inodes k0);
  wn_ip : exists l, w_ip w = upd_i_size (set (Z.max (i_size ip0) (Z.of_nat (off + length src)))) (upd_i_addrs (fun _ => l) ip0);
  wn_disk : loaded (w_V w) sb (w_ip w) = w_ip w;
  wn_cover : i_size (w_ip w) <= Z.of_nat (1024 * length (w_B w));
  wn_bytes x : Z.of_nat x < i_size (w_ip w) ->
    fbyte w x = if decide (off <= x < off + length src)%nat then default 0 (src !! (x - off)%nat) else fbyte w0 x;
  wn_ino : w_V w ino = data_put (dinode_bytes (w_ip w)) (dip_off (i_inum ip0)) (w_V w0 ino);
  wn_spare : (spare sb w0 + length (w_B w0) <= spare sb w + length (w_B w))%nat;
  wn_used b : 0 <= b < 8192 -> used sb (w_V w0) b = true -> used sb (w_V w) b = true;
  wn_new b : b ∈ owned (w_B w) (w_ib w) -> b ∈ owned (w_B w0) (w_ib w0) \/ 0 <= b < 8192 /\ used sb (w_V w0) b = false;
  wn_keep b : 0 <= b < 8192 -> used sb (w_V w0) b = true -> b <> bm -> b <> ino -> b ∉ owned (w_B w0) (w_ib w0) -> w_V w b = w_V w0 b;
  wn_log : (length (w_bs w) <= load sb w0 + span off (length src) + 1)%nat
}.

Context (Hw0 : writing w0 k0) (Hsz : Z.of_nat off <= i_size ip0 <= Z.of_nat (1024 * length (w_B w0))) (Hmax : (off + length src <= 268 * 1024)%nat).
Context (Hload : Z.of_nat (load sb w0 + span off (length src)) <= size - 2) (Hspare : ((off + length src + 1023) / 1024 + 1 <= spare sb w0 + length (w_B w0))%nat).
Context (Hino : start + size <= ino < bm) (Hlen : length (w_V w0 ino) = 1024%nat) (Hdisk : loaded (w_V w0) sb ip0 = ip0).


(** The state after the loop, with the inode on the disk. *)
Definition updated (w : wstate) : wstate :=
  let ip := upd_i_size (set (Z.max (i_size ip0) (Z.of_nat (off + length src)))) (w_ip w) in
  mk_wstate (absorbed (w_bs w) ino) (fupd (w_V w) ino (data_put (dinode_bytes ip) (dip_off (i_inum ip0)) (w_V w ino))) ip (w_B w) (w_ib w).

Lemma updated_ok w k k' : at_step w0 src off (length src) w k ->
  op ∅ (w_bs (updated w)) (w_V (updated w)) k' -> outer k' = outer k0 -> inodes k' = <[i := w_ip (updated w)]> (inodes k0) -> written (updated w) k'.
Proof using Hstart Hsize HL Hi0 Hw0 Hsz Hmax Hload Hspare Hino Hlen Hdisk.
  intros A Ho Eo Ei. destruct A as [W Fo _ Hcov _ Hby Hld Hspr]. pose proof (wr_file _ _ _ _ _ _ _ _ _ _ _ W) as F. pose proof (wr_bitmap _ _ _ _ _ _ _ _ _ _ _ W) as [B1 B2].
  destruct (wr_ip _ _ _ _ _ _ _ _ _ _ _ W) as [l El]. pose proof (ly_bm _ _ _ HL) as Hbm. pose proof (ly_size _ _ _ HL) as H8. change BPB with 8192 in H8.
  pose proof (prefix_length _ _ (fo_blocks _ _ _ Fo)) as Hpl. set (sz := Z.max (i_size ip0) (Z.of_nat (off + length src))) in *.
  assert (Hnw : ino ∉ owned (w_B w) (w_ib w)) by (intros Hb; destruct (fa_own _ _ _ _ _ F _ Hb); lia).
  assert (Hus : forall b, used sb (w_V (updated w)) b = used sb (w_V w) b) by (intros b; unfold used, updated; cbn [w_V]; by rewrite fupd_ne by lia).
  pose proof (fa_max _ _ _ _ _ F) as Hfm.
  assert (Esz : i_size (w_ip (updated w)) = sz) by done.
  assert (Hfd : fields_ok (w_ip (updated w))).
  { split; [|rewrite Esz; lia|split; [apply (fa_len _ _ _ _ _ F)|exact (addr_fields _ _ _ _ F)]]. unfold updated. cbn [w_ip i_type i_major i_minor i_nlink upd_i_size]. rewrite El. exact (short_fields (w_V w0) ip0 Hdisk). }
  assert (HV0 : w_V w ino = w_V w0 ino).
  { pose proof (wr_bitmap _ _ _ _ _ _ _ _ _ _ _ Hw0) as [_ B20]. pose proof (wr_file _ _ _ _ _ _ _ _ _ _ _ Hw0) as F0.
    apply (fo_keep _ _ _ Fo); [lia|apply B20; lia|lia|]. intros Hb. destruct (fa_own _ _ _ _ _ F0 _ Hb). lia. }
  split; [exact Ho| | |exact Eo|exact Ei| | | | | | | | | |].
  - destruct F as [F1 F2 F3 F4 F5 F6 F7 F8]. split; try done.
    + intros j Hib Hj. cbn [w_V w_ib updated]. rewrite fupd_ne; [by apply F6|]. intros E. apply Hnw. rewrite E. by apply ib_owned.
    + intros b Hb. rewrite Hus. cbn [w_V updated]. rewrite fupd_ne by (intros E; apply Hnw; by rewrite E). by apply F8.
  - split; [cbn [w_V updated]; by rewrite fupd_ne by lia|]. intros b Hb. rewrite Hus. by apply B2.
  - exists l. cbn. by rewrite El.
  - unfold loaded. cbn [w_V w_ip updated]. assert (En : i_inum (w_ip w) = i_inum ip0) by (by rewrite El). cbn [i_inum upd_i_size]. rewrite En, fupd_eq.
    apply dinode_roundtrip; [exact Hfd|apply dip_range|]. rewrite HV0, Hlen. pose proof (dip_range (i_inum ip0)). lia.
  - rewrite Esz. cbn [w_B updated]. lia.
  - intros x Hx. rewrite Esz in Hx. assert (Ex : fbyte (updated w) x = fbyte w x).
    { unfold fbyte. cbn [w_V w_B updated]. destruct (w_B w !! (x / 1024)%nat) as [b|] eqn:Eb.
      - change (default 0 (Some b)) with b. rewrite fupd_ne; [done|]. intros E. apply Hnw. rewrite E. by eapply block_owned.
      - apply lookup_ge_None_1 in Eb. pose proof (Nat.div_mod x 1024 ltac:(done)). lia. }
    rewrite Ex. apply Hby. pose proof (Nat.div_mod x 1024 ltac:(done)). lia.
  - cbn [w_V updated]. by rewrite fupd_eq, HV0.
  - assert (E : free_blocks sb (w_V (updated w)) = free_blocks sb (w_V w)) by (apply list_filter_iff; intros b; by rewrite Hus).
    unfold spare in *. rewrite E. exact Hspr.
  - intros b Hb Hu. rewrite Hus. by apply (fo_used _ _ _ Fo).
  - apply (fo_new _ _ _ Fo).
  - intros b Hb Hu H1 H2 H3. cbn [w_V updated]. rewrite fupd_ne by done. by apply (fo_keep _ _ _ Fo).
  - cbn [w_bs updated]. rewrite length_absorbed. pose proof (miss_le (w_bs w) ino). unfold load in Hld at 1. lia.
Qed.

Lemma writei_ok sr : supplies sr src -> wp (writei i sr (Z.of_nat off) (Z.of_nat (length src)))
  (fun r k => r = Z.of_nat (length src) /\ exists w, written w k) k0.
Proof using Hstart Hsize DL HL Hi0 Hdev Hsb Hw0 Hsz Hmax Hload Hspare Hino Hlen Hdisk.
  intros Hsr. assert (Hoff : (off <= 1024 * length (w_B w0))%nat) by lia.
  unfold writei. apply wp_bind. eapply wp_get_inode; [exact Hi0|]. rewrite u32_small by lia.
  destruct (Z.ltb_spec (i_size ip0) (Z.of_nat off)); [lia|]. destruct (Z.ltb_spec (Z.of_nat off + Z.of_nat (length src)) (Z.of_nat off)); [lia|]. cbn [orb].
  change (MAXFILE * BSIZE) with (Z.of_nat (268 * 1024)). destruct (Z.ltb_spec (Z.of_nat (268 * 1024)) (Z.of_nat off + Z.of_nat (length src))); [lia|].
  apply wp_bind. pose proof (writei_loop w0 src off Hw0 Hoff Hmax Hload Hspare sr Hsr) as Hloop. unfold step_state in Hloop. change (Z.of_nat 0) with 0 in Hloop. rewrite Nat.add_0_r, (su_zero _ _ Hsr) in Hloop.
  eapply wp_conseq; [exact Hloop|cbv beta]. intros r k (-> & w & A). pose proof (as_writing _ _ _ _ _ _ A) as W.
  destruct (writing_inode _ _ _ _ _ _ _ _ _ Hi0 Hdev Hsb w k W) as (Hi & Hd & Hs). destruct (wr_ip _ _ _ _ _ _ _ _ _ _ _ W) as [l El].
  assert (Esz : i_size (w_ip w) = i_size ip0) by (by rewrite El). assert (En : i_inum (w_ip w) = i_inum ip0) by (by rewrite El).
  apply wp_bind. eapply wp_get_inode; [exact Hi|]. rewrite Esz. apply wp_bind.
  set (k1 := if i_size ip0 <? Z.of_nat (off + length src) then upd_inodes (<[i := upd_i_size (set (Z.of_nat (off + length src))) (w_ip w)]>) k else k).
  assert (Hk1 : op ∅ (w_bs w) (w_V w) k1 /\ outer k1 = outer k0 /\ inodes k1 = <[i := w_ip (updated w)]> (inodes k0)).
  { pose proof (wr_op _ _ _ _ _ _ _ _ _ _ _ W) as Ho. pose proof (wr_outer _ _ _ _ _ _ _ _ _ _ _ W) as Eo. pose proof (wr_inodes _ _ _ _ _ _ _ _ _ _ _ W) as Ei.
    unfold k1, updated. cbn [w_ip]. destruct (Z.ltb_spec (i_size ip0) (Z.of_nat (off + length src))).
    - split_and!; [by apply op_inodes|done|]. simpl. rewrite Ei, list_insert_insert_eq. rewrite Z.max_r by lia. done.
    - split_and!; [done|done|]. rewrite Ei, Z.max_l by lia. rewrite <- Esz. by destruct (w_ip w). }
  destruct Hk1 as (O1 & Eo1 & Ei1).
  assert (Hwhen : wp (when (i_size ip0 <? Z.of_nat (off + length src)) (upd_inode i (upd_i_size (set (Z.of_nat (off + length src)))))) (fun _ k' => k' = k1) k).
  { unfold k1. destruct (i_size ip0 <? Z.of_nat (off + length src)); cbn [when]; [|by apply wp_ret]. eapply wp_idx_upd; [exact Hi|done]. }
  eapply wp_conseq; [exact Hwhen|cbv beta]. intros _ k2 ->. apply wp_bind.
  pose proof (as_load _ _ _ _ _ _ A) as Hld. pose proof (lookup_lt_Some _ _ _ Hi0) as Hlt.
  eapply wp_conseq; [apply (iupdate_ok (w_bs w) (w_V w) (w_ip (updated w)) k1 O1)|cbv beta].
  - by rewrite <- Hsb, (outer_ksb _ _ Eo1).
  - rewrite Ei1. by apply list_lookup_insert_eq.
  - exact Hd.
  - change (i_inum (w_ip (updated w))) with (i_inum (w_ip w)). by rewrite En.
  - unfold room, load in *. lia.
  - intros _ k3 [O3 [T1 T2]]. apply wp_ret. rewrite s32_small by lia. split; [done|]. exists (updated w).
    change (i_inum (w_ip (updated w))) with (i_inum (w_ip w)) in O3. rewrite En in O3.
    apply (updated_ok w k); [done|exact O3|by rewrite T1|by rewrite T2, Ei1].
Qed.
End result.
End write.
