(* ===== verification/FileWrite.v ===== *)
(** * Writing a file from user memory

    [filewrite] on a file of the disk: the bytes of the process reach the file,
    one transaction for each chunk, and a crash at any point leaves the file
    with a prefix of the chunks. *)

From stdpp Require Import gmultiset.
From S2P Require Import Prelude Riscv Memory Machine Spinlock Kalloc Vm PageTable VmWalk VmMap VmUser VmCow VmCopy VmSample Kernel Klock KSample Cstring Printf Proc Sched ProcSpec.
From S2P Require Import Sleeplock SleepSpec Bio Lru BioSpec FsSample Log LogSpec LogSafe Fs Uart Console Pipe File FsRead Inodes FsPath FsWrite FsFile.

(** ** User memory *)

Lemma ubytes_ext `{KernelImage} s s' T va n : mem s' = mem s -> ubytes s' T va n = ubytes s T va n.
Proof. intros E. unfold ubytes, ubyte, user_addr, pa_at. by rewrite E. Qed.
Lemma length_ubytes `{KernelImage} s T va n : length (ubytes s T va n) = Z.to_nat n.
Proof. unfold ubytes. by rewrite length_fmap, length_seqZ. Qed.
Lemma ubytes_slice `{KernelImage} s T va n (t m : nat) : 0 <= n -> Z.of_nat (t + m) <= n ->
  take m (drop t (ubytes s T va n)) = ubytes s T (va + Z.of_nat t) (Z.of_nat m).
Proof.
  intros Hn Hm. replace n with (Z.of_nat t + (Z.of_nat m + (n - Z.of_nat (t + m)))) by lia.
  rewrite !ubytes_app by lia. rewrite drop_app_length'; [|by rewrite length_ubytes, Nat2Z.id]. by rewrite take_app_length' by (by rewrite length_ubytes, Nat2Z.id).
Qed.
Lemma PGROUNDDOWN_mono a b : a <= b -> PGROUNDDOWN a <= PGROUNDDOWN b.
Proof. intros H. rewrite !PGROUNDDOWN_eq. unfold PGSIZE. dlia. Qed.

Section user.
Context {KI : KernelImage} (me : nat).

(** The process [me] can read [n] bytes at [va]. *)
Record user_buf (T : ptree) (va n : Z) (k : kernel) : Prop := mk_user_buf {
  ub_vm : vm_ok (mach k) T;
  ub_table : exists p, procs k !! me = Some p /\ p_pagetable p = pt_root T;
  ub_range : 0 <= va /\ va + n <= MAXVA;
  ub_pages a : vpage (PGROUNDDOWN va) (va + n) a -> VmCopy.readable (mach k) T a = true /\ kpage (pa_at (mach k) T a)
}.

(** What the file system leaves to the processes. *)
Definition owns (k : kernel) := (mem (mach k), freelist (mach k), count (mach k), view <$> procs k).
Lemma outer_owns k k' : outer k' = outer k -> owns k' = owns k.
Proof using. intros E. exact (f_equal (fun o => o.1.1.1.1) E). Qed.
Lemma rest_owns k k' : rest k' = rest k -> owns k' = owns k.
Proof using. intros E. exact (f_equal (fun o => o.1.1.1.1) E). Qed.
Lemma others_owns k k' : others k' = others k -> owns k' = owns k.
Proof using. intros E. exact (f_equal (fun o => o.1.1.1.1) E). Qed.

Lemma user_buf_ext T va n k k' : owns k' = owns k -> user_buf T va n k -> user_buf T va n k'.
Proof using.
  unfold owns. intros [= E1 E2 E3 E4] [[H1 H1'] (p & Hp & H2) H3 H4].
  assert (Er : forall q, Kalloc.refs (mach k') q = Kalloc.refs (mach k) q) by (intros q; unfold Kalloc.refs; by rewrite E3). split; [|..|done|].
  - split; [by rewrite E1|]. intros q Hq. rewrite Er. by apply H1'.
  - assert (Hv : (view <$> procs k') !! me = Some (view p)) by (by rewrite E4, list_lookup_fmap, Hp).
    rewrite list_lookup_fmap in Hv. apply fmap_Some in Hv as (p' & Hp' & Hv). exists p'. split; [done|]. rewrite <- H2. by injection Hv.
  - intros a Ha. unfold VmCopy.readable, pa_at in *. rewrite E1. by apply H4.
Qed.
Lemma user_buf_sub T va n k (t m : nat) : user_buf T va n k -> Z.of_nat (t + m) <= n -> user_buf T (va + Z.of_nat t) (Z.of_nat m) k.
Proof using.
  intros [H1 H2 H3 H4] Hm. split; [done|done|lia|]. intros a [Ha Hr]. apply H4. split; [done|].
  pose proof (PGROUNDDOWN_mono va (va + Z.of_nat t) ltac:(lia)). lia.
Qed.

Lemma copyin_user T va n k : user_buf T va n k -> 0 < n -> copyin (pt_root T) va n (mach k) = Ret (0, ubytes (mach k) T va n) (mach k).
Proof using.
  intros [H1 _ H3 H4] Hn. destruct (copyin_ok (mach k) T va n) as (r & bs & E & [(-> & -> & _)|(_ & a & Ha & Hr)]); [done|lia|lia|lia|by intros; apply H4|done|].
  by rewrite (proj1 (H4 a Ha)) in Hr.
Qed.
End user.

(** ** The bytes of a file on the disk *)

Definition fcontent (V : Z -> list Z) (sb : superblock) (n : Z) : list Z :=
  let ip := on_disk V sb n in ibytes V ip 0 (Z.to_nat (i_size ip)).

(** [src] stored at [off] of [old]. *)
Definition overwrite (old : list Z) (off : nat) (src : list Z) : list Z := take off old ++ src ++ drop (off + length src) old.

Lemma overwrite_nil old off : overwrite old off [] = old.
Proof. unfold overwrite. simpl. rewrite Nat.add_0_r. apply take_drop. Qed.
Lemma length_overwrite old off src : (off <= length old)%nat -> length (overwrite old off src) = Nat.max (length old) (off + length src).
Proof. intros H. unfold overwrite. rewrite !length_app, length_take, length_drop. lia. Qed.
Lemma overwrite_app old off l1 l2 : (off <= length old)%nat ->
  overwrite (overwrite old off l1) (off + length l1) l2 = overwrite old off (l1 ++ l2).
Proof.
  intros H. unfold overwrite at 1 3. assert (E1 : length (take off old) = off) by (rewrite length_take; lia).
  assert (E2 : take (off + length l1) (overwrite old off l1) = take off old ++ l1).
  { unfold overwrite. rewrite app_assoc, take_app_length'; [done|]. rewrite length_app. lia. }
  rewrite E2, <- !app_assoc. do 3 f_equal. unfold overwrite. rewrite length_app, app_assoc, drop_app_ge by (rewrite length_app; lia).
  rewrite drop_drop. f_equal. rewrite length_app. lia.
Qed.

Lemma overwrite_lookup old off src x : (off <= length old)%nat -> (x < Nat.max (length old) (off + length src))%nat ->
  overwrite old off src !! x = if decide (off <= x < off + length src)%nat then src !! (x - off)%nat else old !! x.
Proof.
  intros Ho Hx. unfold overwrite. assert (Et : length (take off old) = off) by (rewrite length_take; lia). case_decide as Hd.
  - rewrite lookup_app_r, lookup_app_l by lia. by rewrite Et.
  - destruct (decide (x < off)%nat).
    + rewrite lookup_app_l, lookup_take_lt by lia. done.
    + rewrite lookup_app_r, lookup_app_r, lookup_drop by lia. f_equal. lia.
Qed.

Section content.
Context (start size : Z) (sb : superblock) (HL : layout start size sb) (Hstart : 0 <= start) (Hsize : 1 <= size <= LOGSIZE).
#[local] Notation bm := (sb_bmapstart sb).
#[local] Notation in_log := (in_log start size).

(** Inode [n] is in use on the disk, with the data blocks [B] and the indirect
    block [ib]. *)
Record disk_file (V : Z -> list Z) (n : Z) (B : list Z) (ib : Z) : Prop := mk_disk_file {
  df_file : file_at sb V (on_disk V sb n) B ib;
  df_size : i_size (on_disk V sb n) <= Z.of_nat (1024 * length B);
  df_type : i_type (on_disk V sb n) <> 0;
  df_ino : start + size <= IBLOCK n sb < bm;
  df_len : length (V (IBLOCK n sb)) = 1024%nat
}.

Lemma file_at_addrs V ip ip' B ib : i_addrs ip' = i_addrs ip -> file_at sb V ip B ib -> file_at sb V ip' B ib.
Proof using. intros E [H1 H2 H3 H4 H5 H6 H7 H8]. split; rewrite ?E; done. Qed.

Lemma file_bytes bs V ip B ib : file_at sb V ip B ib -> i_size ip <= Z.of_nat (1024 * length B) ->
  ibytes V ip 0 (Z.to_nat (i_size ip)) = fbyte (mk_wstate bs V ip B ib) <$> seq 0 (Z.to_nat (i_size ip)).
Proof using.
  intros F Hz. unfold ibytes. apply list_fmap_ext. intros x ? [-> Hx]%lookup_seq. rewrite Nat.add_0_l. unfold ibyte, fbyte. cbn [w_V w_B].
  rewrite (file_iblock _ _ _ _ _ _ F); [done|]. pose proof (Nat.div_mod x 1024 ltac:(done)). lia.
Qed.

Lemma fbytes_ext V V' ip B ib : i_size ip <= Z.of_nat (1024 * length B) -> (forall b, b ∈ owned B ib -> V' b = V b) ->
  fbyte (mk_wstate [] V' ip B ib) <$> seq 0 (Z.to_nat (i_size ip)) = fbyte (mk_wstate [] V ip B ib) <$> seq 0 (Z.to_nat (i_size ip)).
Proof using.
  intros Hz Eb. apply list_fmap_ext. intros x ? [-> Hx]%lookup_seq. rewrite Nat.add_0_l. unfold fbyte. cbn [w_V w_B].
  destruct (lookup_lt_is_Some_2 B (x / 1024)) as [b Hb]; [pose proof (Nat.div_mod x 1024 ltac:(done)); lia|]. rewrite Hb. simpl. by rewrite (Eb b) by (by eapply block_owned).
Qed.

(** The bytes of a file that was written to. *)
Lemma bytes_overwrite (f f' : nat -> Z) (sz sz' off : nat) src :
  (off <= sz)%nat -> sz' = Nat.max sz (off + length src) ->
  (forall x, (x < sz')%nat -> f' x = if decide (off <= x < off + length src)%nat then default 0 (src !! (x - off)%nat) else f x) ->
  f' <$> seq 0 sz' = overwrite (f <$> seq 0 sz) off src.
Proof using.
  intros Ho Hz Hf. assert (El : length (f <$> seq 0 sz) = sz) by (by rewrite length_fmap, length_seq). apply list_eq. intros x. destruct (decide (x < sz')%nat) as [Hx|Hx].
  - rewrite overwrite_lookup by (rewrite El; lia). rewrite list_lookup_fmap, lookup_seq_lt by done. simpl. rewrite (Hf x Hx).
    case_decide as Hd; [|rewrite list_lookup_fmap, lookup_seq_lt by lia; done]. destruct (lookup_lt_is_Some_2 src (x - off)) as [v ->]; [lia|done].
  - rewrite !lookup_ge_None_2; [done|rewrite length_overwrite; lia|rewrite length_fmap, length_seq; lia].
Qed.

(** The log is not part of a file. *)
Lemma disk_file_ext V V' n B ib : (forall b, ~ in_log b -> V' b = V b) -> disk_file V n B ib ->
  disk_file V' n B ib /\ fcontent V' sb n = fcontent V sb n.
Proof using HL Hstart Hsize.
  intros E [F Hz Ht Hi Hl]. pose proof (ly_bm _ _ _ HL). assert (Ei : V' (IBLOCK n sb) = V (IBLOCK n sb)) by (apply E; unfold LogSpec.in_log; lia).
  assert (Eo : on_disk V' sb n = on_disk V sb n) by (unfold on_disk, loaded; cbn [i_inum]; by rewrite Ei).
  assert (Eb : forall b, b ∈ owned B ib -> V' b = V b) by (intros b Hb; apply E; destruct (fa_own _ _ _ _ _ F b Hb); unfold LogSpec.in_log; lia).
  assert (F' : file_at sb V' (on_disk V sb n) B ib).
  { apply (file_at_ext _ V); [done|intros Hib; by apply Eb, ib_owned|]. intros b Hb. destruct (fa_own _ _ _ _ _ F b Hb) as (Hr & Hu & Hlb).
    rewrite Eb by done. split; [|done]. unfold used. rewrite E; [done|unfold LogSpec.in_log; lia]. }
  split; [split; rewrite ?Eo, ?Ei; done|]. unfold fcontent. rewrite Eo.
  rewrite (file_bytes [] V' _ B ib F' Hz), (file_bytes [] V _ B ib F Hz). by apply (fbytes_ext V V' _ B ib).
Qed.
Lemma bitmap_ext V V' : (forall b, ~ in_log b -> V' b = V b) -> bitmap_ok sb V -> bitmap_ok sb V'.
Proof using HL Hstart Hsize.
  intros E [B1 B2]. pose proof (ly_bm _ _ _ HL). assert (Eb : V' bm = V bm) by (apply E; unfold LogSpec.in_log; lia).
  split; [by rewrite Eb|]. intros b Hb. unfold used. rewrite Eb. by apply B2.
Qed.

(** ** What a write leaves alone *)

(** Inode [m] is in the inode blocks. *)
Definition inode_in (m : Z) : Prop := 0 <= m < 2 ^ 32 /\ start + size <= IBLOCK m sb < bm.

Lemma slot_apart m n : inode_in m -> inode_in n -> m <> n -> IBLOCK m sb = IBLOCK n sb -> dip_off m + 64 <= dip_off n \/ dip_off n + 64 <= dip_off m.
Proof using.
  intros [Hm _] [Hn _] Hne E. unfold IBLOCK, dip_off, u32, DINODE_SIZE in *. change IPB with 16 in *. set (s := sb_inodestart sb) in *.
  pose proof (Z.div_mod m 16 ltac:(done)). pose proof (Z.div_mod n 16 ltac:(done)). pose proof (Z.mod_pos_bound m 16 ltac:(done)). pose proof (Z.mod_pos_bound n 16 ltac:(done)).
  pose proof (Z.div_mod (m / 16 + s) (2 ^ 32) ltac:(done)). pose proof (Z.div_mod (n / 16 + s) (2 ^ 32) ltac:(done)). nia.
Qed.

(** From [V] to [V'] only inode [n] and its blocks, [own] and then [own'], have
    changed. *)
Record kept (n : Z) (V : Z -> list Z) (own : list Z) (V' : Z -> list Z) (own' : list Z) : Prop := mk_kept {
  kp_used b : 0 <= b < 8192 -> used sb V b = true -> used sb V' b = true;
  kp_own b : b ∈ own' -> b ∈ own \/ 0 <= b < 8192 /\ used sb V b = false;
  kp_block b : 0 <= b < 8192 -> used sb V b = true -> b <> bm -> b <> IBLOCK n sb -> b ∉ own -> ~ in_log b -> V' b = V b;
  kp_inode m ip : inode_in m -> m <> n -> IBLOCK m sb = IBLOCK n sb ->
    load_dinode (V' (IBLOCK n sb)) (dip_off m) ip = load_dinode (V (IBLOCK n sb)) (dip_off m) ip;
  kp_len : length (V' (IBLOCK n sb)) = length (V (IBLOCK n sb))
}.

Lemma kept_refl n V own : kept n V own V own.
Proof using. split; auto. Qed.
Lemma kept_trans n V1 own1 V2 own2 V3 own3 : kept n V1 own1 V2 own2 -> kept n V2 own2 V3 own3 -> kept n V1 own1 V3 own3.
Proof using.
  intros [A1 A2 A3 A4 A5] [B1 B2 B3 B4 B5]. split.
  - auto.
  - intros b [Hb|[Hr Hu]]%B2; [by apply A2|right]. split; [done|]. destruct (used sb V1 b) eqn:E; [|done]. by rewrite A1 in Hu.
  - intros b Hr Hu H1 H2 H3 H4. rewrite B3; try done; [by apply A3|by apply A1|]. intros [Hb|[_ Hu']]%A2; [done|congruence].
  - intros m ip Hm Hn E. rewrite B4 by done. by apply A4.
  - by rewrite B5.
Qed.
(** The log is left out. *)
Lemma kept_ext n V own V' own' V2 : inode_in n -> (forall b, ~ in_log b -> V2 b = V' b) -> kept n V own V' own' -> kept n V own V2 own'.
Proof using HL Hstart Hsize.
  intros [_ Hn] E [A1 A2 A3 A4 A5]. pose proof (ly_bm _ _ _ HL) as Hbm. assert (Eb : V2 bm = V' bm) by (apply E; unfold LogSpec.in_log; lia).
  assert (Ei : V2 (IBLOCK n sb) = V' (IBLOCK n sb)) by (apply E; unfold LogSpec.in_log; lia). split.
  - intros b Hr Hu. unfold used in *. rewrite Eb. by apply A1.
  - done.
  - intros b H1 H2 H3 H4 H5 H6. rewrite E by done. by apply A3.
  - intros m ip Hm Hmn Em. rewrite Ei. by apply A4.
  - by rewrite Ei.
Qed.

Section kept.
Context (n : Z) (V : Z -> list Z) (own : list Z) (V' : Z -> list Z) (own' : list Z) (HK : kept n V own V' own').
Context (HV : bitmap_ok sb V) (Hown : forall b, b ∈ own -> bm < b) (Hni : inode_in n).

Lemma kept_loaded ip : inode_in (i_inum ip) -> i_inum ip <> n -> loaded V' sb ip = loaded V sb ip.
Proof using HL Hstart Hsize HK HV Hown.
  intros Hm Hn. destruct (id Hm) as [_ Hb]. pose proof (ly_bm _ _ _ HL). pose proof (ly_size _ _ _ HL) as H8. change BPB with 8192 in H8. unfold loaded.
  destruct (decide (IBLOCK (i_inum ip) sb = IBLOCK n sb)) as [E|E]; [rewrite E; by apply (kp_inode _ _ _ _ _ HK)|].
  rewrite (kp_block _ _ _ _ _ HK); [done|lia|apply HV; lia|lia|done| |unfold LogSpec.in_log; lia]. intros Hi%Hown. lia.
Qed.

Lemma kept_len m : inode_in m -> length (V' (IBLOCK m sb)) = length (V (IBLOCK m sb)).
Proof using HL Hstart Hsize HK HV Hown.
  intros [_ Hb]. pose proof (ly_bm _ _ _ HL). pose proof (ly_size _ _ _ HL) as H8. change BPB with 8192 in H8.
  destruct (decide (IBLOCK m sb = IBLOCK n sb)) as [->|E]; [apply HK|].
  rewrite (kp_block _ _ _ _ _ HK); [done|lia|apply HV; lia|lia|done| |unfold LogSpec.in_log; lia]. intros Hi%Hown. lia.
Qed.

(** Every other file keeps its bytes. *)
Lemma kept_other_file m B ib : inode_in m -> m <> n -> disk_file V m B ib -> (forall b, b ∈ owned B ib -> b ∉ own) ->
  disk_file V' m B ib /\ fcontent V' sb m = fcontent V sb m.
Proof using HL Hstart Hsize HK HV Hown Hni.
  intros Hm Hn [F Hz Ht Hi Hl] Hd. pose proof (ly_bm _ _ _ HL). pose proof (ly_size _ _ _ HL) as H8. change BPB with 8192 in H8.
  assert (Eo : on_disk V' sb m = on_disk V sb m) by (by apply kept_loaded).
  assert (Eb : forall b, b ∈ owned B ib -> V' b = V b).
  { intros b Hb. destruct (fa_own _ _ _ _ _ F b Hb) as (Hr & Hu & _). apply (kp_block _ _ _ _ _ HK); [lia|done|lia| |by apply Hd|unfold LogSpec.in_log; lia].
    intros ->. destruct Hni. lia. }
  assert (F' : file_at sb V' (on_disk V sb m) B ib).
  { apply (file_at_ext _ V); [done|intros Hib; by apply Eb, ib_owned|]. intros b Hb. destruct (fa_own _ _ _ _ _ F b Hb) as (Hr & Hu & Hlb).
    rewrite Eb by done. split; [apply (kp_used _ _ _ _ _ HK); [lia|done]|done]. }
  split; [split; rewrite ?Eo; try done; by rewrite kept_len|]. unfold fcontent. rewrite Eo.
  rewrite (file_bytes [] V' _ B ib F' Hz), (file_bytes [] V _ B ib F Hz). by apply (fbytes_ext V V' _ B ib).
Qed.
End kept.
End content.

Section filewrite.
Context {KI : KernelImage} {C : Config} {D : BlockDevice} {DL : Disk}.
Context (me : nat) (pid dev start size : Z).
Context (Hstart : 0 <= start) (Hsize : 1 <= size <= LOGSIZE) (Hend : start + size < 2 ^ 31).
Context (sb : superblock) (HL : layout start size sb).
#[local] Notation bm := (sb_bmapstart sb).
#[local] Notation txn := (txn me pid dev start size).
#[local] Notation op := (op me pid dev start size).
#[local] Notation inode_in := (inode_in start size sb).
#[local] Notation kept := (kept start size sb).
#[local] Notation disk_file := (disk_file start size sb).

Lemma supplies_user T va n k0 : user_buf me T va n k0 -> 0 <= n -> supplies me pid dev start size k0 (SUser va) (ubytes (mach k0) T va n).
Proof using.
  intros Hu Hn. destruct (ub_range _ _ _ _ _ Hu) as [Hva Hmax]. rewrite MAXVA_pow in Hmax. split.
  - simpl. f_equal. rewrite Z.add_0_r. apply u64_small. lia.
  - intros t m H bs V k Hm Hl Ho Eo. rewrite length_ubytes in Hl. pose proof (op_thread _ _ _ _ _ _ _ _ _ Ho) as Ht.
    simpl. rewrite u64_small by lia. rewrite ubytes_slice by lia.
    assert (Ew : owns (upd_mach touch k) = owns k0) by (transitivity (owns k); [done|by apply outer_owns]).
    pose proof (user_buf_ext me _ _ _ _ _ Ew (user_buf_sub me T va n k0 t m Hu ltac:(lia))) as Hb. destruct (ub_table _ _ _ _ _ Hb) as (p & Hp & Ep).
    unfold either_copyin. apply wp_bind. eapply wp_eq; [apply myproc_eq, (th_table _ _ _ Ht)|]. rewrite (th_me _ _ _ Ht).
    apply wp_bind. eapply wp_eq; [reflexivity|]. apply wp_bind. eapply wp_idx_get; [exact Hp|]. rewrite Ep.
    eapply wp_eq; [apply lift_eq, (copyin_user me _ _ _ _ Hb); lia|]. rewrite upd_mach_mach. split_and!; [|by apply op_touch|done].
    f_equal. apply ubytes_ext. unfold owns in Ew. by injection Ew.
Qed.

(** ** The file system between operations *)

Record idle (V : Z -> list Z) (R : gmultiset Z) (L : gset nat) (k : kernel) : Prop := mk_idle {
  id_fs : fs_state me pid dev ∅ ∅ V sb R L k;
  id_txn : txn ∅ [] ∅ V k;
  id_out : l_outstanding (klog k) = 0;
  id_com : l_committing (klog k) = false;
  id_size : l_size (klog k) = size;
  id_refs m : m ∈ R -> inode_in m;
  id_count : Z.of_nat (base.size R) < 2 ^ 31 - 1
}.

(** The inode table after inode [n] was written. *)
Lemma itable_written V R L T i ip0 ip n own V' own' :
  itable dev pid V sb R L T -> T !! i = Some ip0 -> i_inum ip0 = n -> i_ref ip0 <> 0 -> kept n V own V' own' ->
  bitmap_ok sb V -> (forall b, b ∈ own -> bm < b) -> (forall m, m ∈ R -> inode_in m) ->
  i_ref ip = i_ref ip0 -> i_dev ip = i_dev ip0 -> i_inum ip = n -> i_lock ip = i_lock ip0 -> loaded V' sb ip = ip ->
  itable dev pid V' sb R L (<[i := ip]> T).
Proof using Hstart Hsize HL.
  intros HT Hi En Hr HK HV Hown HR E1 E2 E3 E4 E5. pose proof (insert_cases T i ip (lookup_lt_Some _ _ _ Hi)) as Hcase. destruct (id HT) as [T1 T2 T3 T4 T5 T6]. split.
  - by rewrite length_insert.
  - intros j jp [[-> ->]|[Hne Hj]]%Hcase; [rewrite E1, E2, E3, <- En; by apply (T2 i)|by apply (T2 j)].
  - intros m (j & jp & Hj & Hrj & <-)%T3. destruct (decide (j = i)) as [->|Hne].
    + rewrite Hi in Hj. injection Hj as ->. exists i, ip. rewrite list_lookup_insert_eq by (by eapply lookup_lt_Some). by rewrite E1, E3.
    + exists j, jp. by rewrite list_lookup_insert_ne.
  - intros j1 j2 p1 p2 [[-> ->]|[N1 H1]]%Hcase [[-> ->]|[N2 H2]]%Hcase R1 R2 E; [done|..].
    + apply (T4 i j2 ip0 p2); [done..|by rewrite <- E1|done|by rewrite En, <- E3].
    + apply (T4 j1 i p1 ip0); [done..|by rewrite <- E1|by rewrite En, <- E3].
    + by apply (T4 j1 j2 p1 p2).
  - intros j jp [[-> ->]|[Hne Hj]]%Hcase; [rewrite E4; by apply T5|by apply T5].
  - intros j jp [[-> ->]|[Hne Hj]]%Hcase Hrj Hv; [done|]. destruct (T2 j jp Hj Hrj) as (_ & _ & Hin & _).
    rewrite (kept_loaded start size sb HL Hstart Hsize n V own V' own' HK HV Hown) by (by apply HR || (intros E; apply Hne; apply (T4 j i jp ip0); congruence)).
    by apply (T6 j).
Qed.

Lemma written_kept k0 i ip0 w0 src off w k :
  written me pid dev start size sb k0 i ip0 w0 src off w k -> inode_in (i_inum ip0) -> length (w_V w0 (IBLOCK (i_inum ip0) sb)) = 1024%nat ->
  kept (i_inum ip0) (w_V w0) (owned (w_B w0) (w_ib w0)) (w_V w) (owned (w_B w) (w_ib w)).
Proof using Hstart Hsize.
  intros W Hn Hl. pose proof (dip_range (i_inum ip0)) as Hd.
  assert (Hb : length (dinode_bytes (w_ip w)) = 64%nat) by (apply length_dinode, (fa_len _ _ _ _ _ (wn_file _ _ _ _ _ _ _ _ _ _ _ _ _ _ W))).
  split; [apply W|apply W|intros b H1 H2 H3 H4 H5 _; by apply W|..].
  - intros m ip Hm Hne E. rewrite (wn_ino _ _ _ _ _ _ _ _ _ _ _ _ _ _ W). pose proof (dip_range m). apply load_dinode_other; [lia|lia|by apply (slot_apart start size sb)|done|lia].
  - rewrite (wn_ino _ _ _ _ _ _ _ _ _ _ _ _ _ _ W). apply length_data_put. lia.
Qed.

(** ** One chunk *)

(** The blocks a file can have, the indirect block included when it has none. *)
Definition capacity (V : Z -> list Z) (B : list Z) (ib : Z) : nat := length (free_blocks sb V) + (if decide (ib = 0) then 0 else 1) + length B.

(** Between chunks: the open file [fi] is at [off] of inode [n]. *)
Record stage (fi i : nat) (f : file) (n : Z) (R : gmultiset Z) (L : gset nat) (off : nat) (V : Z -> list Z) (B : list Z) (ib : Z) (k : kernel) : Prop := mk_stage {
  sg_idle : idle V R L k;
  sg_entry : entry k i n;
  sg_disk : disk_file V n B ib;
  sg_bitmap : bitmap_ok sb V;
  sg_file : files k !! fi = Some (upd_f_off (set (Z.of_nat off)) f);
  sg_off : Z.of_nat off <= i_size (on_disk V sb n)
}.

Section inside.
Context (i : nat) (n : Z) (R : gmultiset Z) (L : gset nat).

(** The state in which [writei] runs. *)
Record inside (bs : list Z) (V : Z -> list Z) (k : kernel) : Prop := mk_inside {
  in_fs : fs_state me pid dev (list_to_set bs) (list_to_set bs) V sb R ({[i]} ∪ L) k;
  in_txn : op ∅ bs V k;
  in_one : l_outstanding (klog k) = 1;
  in_com : l_committing (klog k) = false
}.

Lemma enter_ok V k : idle V R L k -> entry k i n -> i ∉ L -> i_type (on_disk V sb n) <> 0 ->
  wp begin_op (fun _ => wp (ilock (Some i)) (fun _ k' => inside [] V k' /\ owns k' = owns k /\ files k' = files k /\ kdisk k' = kdisk k /\ l_size (klog k') = size /\
    exists ip, inodes k' !! i = Some ip /\ locked_inode pid dev V sb n ip)) k.
Proof using Hsize DL.
  intros [Hf Ht Ho Hc Hz HR HS] He HiL Hty.
  eapply wp_conseq; [apply (begin_op_ok me pid dev start size [] ∅ V k Ht Hc); rewrite Ho; [lia|unfold LOGSIZE, MAXOPBLOCKS; simpl; lia]|cbv beta].
  intros _ k1 (T1 & O1 & I1 & D1 & G1). assert (F1 : fs_state me pid dev ∅ ∅ V sb R L k1).
  { destruct Hf as [_ F2 F3]. split; [apply T1| |by rewrite I1]. rewrite <- F2. unfold others in O1. by injection O1. }
  assert (He1 : entry k1 i n) by (destruct He as (ip & Hi & ?); exists ip; by rewrite I1).
  eapply wp_conseq; [apply (ilock_ok me pid dev ∅ ∅ V sb); [rewrite size_empty; unfold NBUF; lia|done|exact F1|exact He1|done|done|exact Hty]|cbv beta].
  intros _ k2 [[F2 R2 _] Hip]. assert (G2 : klog k2 = upd_l_outstanding (fun n => n + 1) (klog k)) by (rewrite <- G1; unfold rest in R2; by injection R2).
  split_and!; [|by rewrite (rest_owns _ _ R2); apply others_owns| | |by rewrite G2|done].
  - split; [done| |by rewrite G2; simpl; rewrite Ho|by rewrite G2]. split; [|split; rewrite G2; [done|simpl; rewrite Ho; lia]].
    destruct T1 as [_ L1 T2 T3 T4]. split; [apply F2| |done..]. rewrite <- G1 in G2. by rewrite G2.
  - transitivity (files k1); [unfold rest in R2; by injection R2|unfold others in O1; by injection O1].
  - rewrite <- D1. unfold rest in R2. by injection R2.
Qed.

(** The inodes are outside the log. *)
Lemma loaded_ext V V' ip : inode_in (i_inum ip) -> (forall b, ~ in_log start size b -> V' b = V b) -> loaded V' sb ip = loaded V sb ip.
Proof using Hstart Hsize. intros [_ Hb] E. unfold loaded. rewrite E; [done|]. unfold in_log. lia. Qed.
Lemma itable_ext V V' T LL : itable dev pid V sb R LL T -> (forall m, m ∈ R -> inode_in m) -> (forall b, ~ in_log start size b -> V' b = V b) ->
  itable dev pid V' sb R LL T.
Proof using Hstart Hsize.
  intros [T1 T2 T3 T4 T5 T6] HR E. split; try done. intros j jp Hj Hr Hv. destruct (T2 j jp Hj Hr) as (_ & _ & Hin & _).
  rewrite (loaded_ext V V') by auto. by apply (T6 j).
Qed.

Lemma exit_ok bs V k : inside bs V k -> l_size (klog k) = size -> entry k i n -> i ∉ L -> (forall m, m ∈ R -> inode_in m) -> Z.of_nat (base.size R) < 2 ^ 31 - 1 ->
  wp (iunlock (Some i)) (fun _ => wp end_op (fun _ k' => idle (disk_after V (end_writes start V bs)) R L k' /\ entry k' i n /\ owns k' = owns k /\ files k' = files k /\
    kdisk k' = upd_d_writes (app (end_writes start V bs)) (kdisk k))) k.
Proof using Hstart Hsize Hend DL.
  intros [Hf [Ht _] Ho Hc] Hz He HiL HR HS.
  eapply wp_conseq; [apply (iunlock_ok me pid dev _ _ V sb R _ i n k Hf He); [set_solver +|done]|cbv beta]. intros _ k1 [F1 R1 E1].
  assert (G1 : klog k1 = klog k) by (unfold rest in R1; by injection R1). assert (D1 : kdisk k1 = kdisk k) by (unfold rest in R1; by injection R1).
  assert (T1 : txn ∅ bs (list_to_set bs) V k1) by (destruct Ht as [_ L1 T2 T3 T4]; split; [apply F1|by rewrite G1|done..]).
  destruct (entry_ref _ _ _ _ _ _ _ _ _ _ _ _ Hf He) as [HnR _]. pose proof (E1 i n He HnR) as He1.
  eapply wp_conseq; [apply (end_op_ok me pid dev start size Hstart Hsize Hend bs _ V k1 T1); [done|by rewrite G1|by rewrite G1]|cbv beta].
  intros _ k2 (C2 & D2 & L2 & O2 & M2 & Z2 & X2). pose proof (end_final me pid dev start size Hsize bs _ V k1 T1) as Hfin.
  assert (I2 : inodes k2 = inodes k1) by (unfold others in X2; by injection X2). assert (EL : ({[i]} ∪ L) ∖ {[i]} = L) by (apply set_eq; set_solver +HiL).
  split_and!; [|destruct He1 as (ip & Hi & ?); exists ip; by rewrite I2|by rewrite (others_owns _ _ X2); apply rest_owns| |by rewrite D2, D1].
  - split; [|by apply (end_idle me pid dev start size Hsize bs _ V k1 T1)|done|done|by rewrite Z2, G1|done|done].
    destruct F1 as [_ F2 F3]. rewrite EL in F3. split; [done|rewrite <- F2; unfold others in X2; by injection X2|]. rewrite I2. by apply (itable_ext V).
  - transitivity (files k1); [unfold others in X2; by injection X2|unfold rest in R1; by injection R1].
Qed.

(** An inode in memory that is as on the disk. *)
Lemma loaded_fields V ip : loaded V sb ip = ip -> i_inum ip = n ->
  i_addrs ip = i_addrs (on_disk V sb n) /\ i_size ip = i_size (on_disk V sb n) /\ i_type ip = i_type (on_disk V sb n).
Proof using. intros E <-. split_and!; rewrite <- E at 1; done. Qed.

(** What a write of [src] at [off] has done to the disk. *)
Record wrote (src : list Z) (off : nat) (V : Z -> list Z) (B : list Z) (ib : Z) (V' : Z -> list Z) (B' : list Z) (ib' : Z) : Prop := mk_wrote {
  wt_disk : disk_file V' n B' ib';
  wt_bitmap : bitmap_ok sb V';
  wt_kept : kept n V (owned B ib) V' (owned B' ib');
  wt_bytes : fcontent V' sb n = overwrite (fcontent V sb n) off src;
  wt_capacity : (capacity V B ib <= capacity V' B' ib')%nat
}.

Section writei.
Context (V : Z -> list Z) (B : list Z) (ib : Z) (k : kernel) (ip : inode) (src : list Z) (off : nat).
Context (H8 : 8 <= size) (HI : inside [] V k) (Hls : l_size (klog k) = size) (Hi : inodes k !! i = Some ip) (Hlk : locked_inode pid dev V sb n ip).
Context (HD : disk_file V n B ib) (HV : bitmap_ok sb V) (HR : forall m, m ∈ R -> inode_in m).
Context (Hoff : Z.of_nat off <= i_size (on_disk V sb n)) (Hmax : (off + length src <= 268 * 1024)%nat) (Hlen : (0 < length src <= 3072)%nat).
Context (Hcap : ((off + length src + 1023) / 1024 + 1 <= capacity V B ib)%nat).

Let w0 : wstate := mk_wstate [] V ip B ib.

Lemma inside_loaded : loaded V sb ip = ip /\ i_inum ip = n /\ i_ref ip <> 0 /\ i_dev ip = dev /\ inode_in n.
Proof using HI Hi Hlk HR.
  destruct Hlk as [L1 L2 L3 L4]. destruct (it_ref _ _ _ _ _ _ _ (fs_table _ _ _ _ _ _ _ _ _ _ (in_fs _ _ _ HI)) i ip Hi L1) as (Hd & _ & Hn & _).
  split_and!; try done; [|by apply HR; rewrite <- L3]. by apply (it_disk _ _ _ _ _ _ _ (fs_table _ _ _ _ _ _ _ _ _ _ (in_fs _ _ _ HI)) i ip).
Qed.
Lemma inside_writing : writing me pid dev start size sb k i ip w0 k.
Proof using HI Hi Hlk HD HV HR.
  destruct inside_loaded as (E & En & _). destruct (loaded_fields V ip E En) as (Ea & _). split; try done.
  - apply HI.
  - apply (file_at_addrs sb V (on_disk V sb n)); [done|apply HD].
  - symmetry. by apply list_insert_id.
  - exists (i_addrs ip). cbn. by destruct ip.
Qed.
Lemma inside_load : Z.of_nat (load sb w0 + span off (length src)) <= size - 2.
Proof using H8 Hlen.
  clear Hmax Hcap. assert (Hs : (span off (length src) <= 4)%nat).
  { unfold span. rewrite decide_False by lia. pose proof (Nat.div_mod off 1024 ltac:(done)). pose proof (Nat.mod_upper_bound off 1024 ltac:(done)).
    pose proof (Nat.div_mod (off + length src + 1023) 1024 ltac:(done)). pose proof (Nat.mod_upper_bound (off + length src + 1023) 1024 ltac:(done)). lia. }
  unfold load. cbn [w_bs w_ib w0 length]. pose proof (miss_le [] bm). pose proof (miss_le [] ib). case_decide; lia.
Qed.

Lemma written_inside w k' : written me pid dev start size sb k i ip w0 src off w k' ->
  inside (w_bs w) (w_V w) k' /\ entry k' i n /\ wrote src off V B ib (w_V w) (w_B w) (w_ib w).
Proof using Hstart Hsize HL HI Hi Hlk HD HV HR Hoff.
  clear Hmax Hlen Hcap. intros W. destruct inside_loaded as (E & En & Hr & Hdv & Hnin). destruct (loaded_fields V ip E En) as (Ea & Es & Ety).
  destruct (wn_ip _ _ _ _ _ _ _ _ _ _ _ _ _ _ W) as [l El]. pose proof (lookup_lt_Some _ _ _ Hi) as Hlt.
  assert (En' : i_inum (w_ip w) = n) by (by rewrite El). pose proof (wn_disk _ _ _ _ _ _ _ _ _ _ _ _ _ _ W) as E'.
  destruct (loaded_fields (w_V w) (w_ip w) E' En') as (Ea' & Es' & Ety'). pose proof (df_len _ _ _ _ _ _ _ HD) as Hl.
  pose proof (written_kept k i ip w0 src off w k' W ltac:(by rewrite En) ltac:(by rewrite En)) as HK. rewrite En in HK. cbn [w_V w_B w_ib w0] in HK.
  pose proof (wn_outer _ _ _ _ _ _ _ _ _ _ _ _ _ _ W) as Ho. destruct (id HI) as [F0 _ O1 M1].
  assert (HI' : inodes k' !! i = Some (w_ip w)) by (rewrite (wn_inodes _ _ _ _ _ _ _ _ _ _ _ _ _ _ W); by apply list_lookup_insert_eq).
  split_and!; [|exists (w_ip w); by rewrite El in *|].
  - split; [|apply W|rewrite <- O1; unfold outer in Ho; by injection Ho|rewrite <- M1; unfold outer in Ho; by injection Ho].
    split; [apply (op_txn _ _ _ _ _ _ _ _ _ (wn_op _ _ _ _ _ _ _ _ _ _ _ _ _ _ W))|by rewrite (outer_ksb _ _ Ho); apply F0|].
    rewrite (wn_inodes _ _ _ _ _ _ _ _ _ _ _ _ _ _ W). eapply (itable_written V); [apply F0|exact Hi|done|done|exact HK|done| |done|by rewrite El..|done].
    intros b Hb. by apply (fa_own _ _ _ _ _ (df_file _ _ _ _ _ _ _ HD)).
  - pose proof (file_at_addrs sb _ _ _ _ _ (eq_sym Ea') (wn_file _ _ _ _ _ _ _ _ _ _ _ _ _ _ W)) as F'. pose proof (wn_cover _ _ _ _ _ _ _ _ _ _ _ _ _ _ W) as Hcv.
    split; [|apply W|done| |pose proof (wn_spare _ _ _ _ _ _ _ _ _ _ _ _ _ _ W) as Hsp; exact Hsp].
    + split; [done|by rewrite <- Es'|rewrite <- Ety', El; cbn; rewrite Ety; apply HD|apply HD|by rewrite (kp_len _ _ _ _ _ _ _ _ HK)].
    + unfold fcontent. rewrite (file_bytes sb (w_bs w) (w_V w) _ (w_B w) (w_ib w) F') by (by rewrite <- Es').
      rewrite (file_bytes sb [] V _ B ib (df_file _ _ _ _ _ _ _ HD)) by apply HD. rewrite <- Es', <- Es in *.
      assert (Ez : i_size (w_ip w) = Z.max (i_size ip) (Z.of_nat (off + length src))) by (by rewrite El). apply bytes_overwrite; [lia|lia|].
      intros x Hx. exact (wn_bytes _ _ _ _ _ _ _ _ _ _ _ _ _ _ W x ltac:(lia)).
Qed.

Lemma write_inside sr : supplies me pid dev start size k sr src ->
  wp (writei i sr (Z.of_nat off) (Z.of_nat (length src))) (fun r k' => r = Z.of_nat (length src) /\ outer k' = outer k /\ l_size (klog k') = size /\ entry k' i n /\
    exists bs V' B' ib', inside bs V' k' /\ wrote src off V B ib V' B' ib') k.
Proof using Hstart Hsize HL DL H8 HI Hi Hlk HD HV HR Hoff Hmax Hlen Hcap.
  intros Hsr. destruct inside_loaded as (E & En & Hr & Hdv & Hnin). destruct (loaded_fields V ip E En) as (Ea & Es & Ety).
  eapply wp_conseq; [apply (writei_ok me pid dev start size Hstart Hsize sb HL k i ip Hi Hdv (fs_sb _ _ _ _ _ _ _ _ _ _ (in_fs _ _ _ HI)) w0 src off inside_writing)|cbv beta].
  - rewrite Es. split; [done|apply HD].
  - done.
  - exact inside_load.
  - exact Hcap.
  - rewrite En. exact (df_ino _ _ _ _ _ _ _ HD).
  - rewrite En. exact (df_len _ _ _ _ _ _ _ HD).
  - done.
  - done.
  - intros r k' (-> & w & W). destruct (written_inside w k' W) as (HI' & He & Hw). split_and!; [done|apply W| |done|by eauto 10].
    apply (io_size _ _ (op_in _ _ _ _ _ _ _ _ _ (in_txn _ _ _ HI'))).
Qed.
End writei.

Lemma wrote_ext src off V B ib V' B' ib' V2 : inode_in n -> (forall b, ~ in_log start size b -> V2 b = V' b) ->
  wrote src off V B ib V' B' ib' -> wrote src off V B ib V2 B' ib'.
Proof using Hstart Hsize HL.
  intros Hn E [W1 W2 W3 W4 W5]. destruct (disk_file_ext start size sb HL Hstart Hsize V' V2 n B' ib' E W1) as [D2 C2].
  split; [done|by apply (bitmap_ext start size sb HL Hstart Hsize V')|by apply (kept_ext start size sb HL Hstart Hsize n V (owned B ib) V')|by rewrite C2|].
  unfold capacity, free_blocks, used in *. pose proof (ly_bm _ _ _ HL). rewrite (E bm) by (unfold in_log; lia). done.
Qed.
End inside.

(** ** Crashes *)

(** Wherever the machine stops between [k] and [k'], recovery gives a disk
    that is [Good]. *)
Definition passes (Good : (Z -> list Z) -> Prop) (k k' : kernel) : Prop :=
  exists ws, kdisk k' = upd_d_writes (app ws) (kdisk k) /\
    forall ws2 ws1, ws = ws2 ++ ws1 -> exists W, recovers_to start size (disk_after (block_on k) ws1) W /\ Good W.

Lemma block_on_app k k' ws b : kdisk k' = upd_d_writes (app ws) (kdisk k) -> block_on k' b = disk_after (block_on k) ws b.
Proof using. intros E. unfold block_on. rewrite E. apply disk_after_app. Qed.

Lemma passes_trans Good k1 k2 k3 : passes Good k1 k2 -> passes Good k2 k3 -> passes Good k1 k3.
Proof using.
  intros (wa & Ea & Ha) (wb & Eb & Hb). exists (wb ++ wa). split.
  - rewrite Eb, Ea. unfold upd_d_writes. simpl. by rewrite app_assoc.
  - intros ws2 ws1 E. symmetry in E. apply suffix_app_or in E as [(p & -> & E)|[s' E]]; [|by eapply Ha].
    destruct (Hb ws2 p (eq_sym E)) as (W & HW & HG). exists W. split; [|done]. apply (recovers_ext start size (disk_after (block_on k2) p)); [|done].
    intros b. rewrite disk_after_app. apply disk_after_ext. by apply block_on_app.
Qed.
Lemma passes_mono (G1 G2 : (Z -> list Z) -> Prop) k k' : (forall W, G1 W -> G2 W) -> passes G1 k k' -> passes G2 k k'.
Proof using. intros HG (ws & E & H). exists ws. split; [done|]. intros ws2 ws1 Ew. destruct (H ws2 ws1 Ew) as (W & ? & ?). eauto. Qed.

(** ** The loop of filewrite *)

Section loop.
Context (fi i : nat) (f : file) (n : Z) (R : gmultiset Z) (L : gset nat) (va N : Z).
Context (H8 : 8 <= size) (Hip : f_ip f = Some i) (HiL : i ∉ L).

Definition filewrite_step (c : Z) : M kernel (Z + Z) :=
  if c <? N then
    let n1 := if filewrite_max <? N - c then filewrite_max else N - c in
    do! begin_op in
    do! ilock (f_ip f) in
    let! ip := deref (f_ip f) in
    let! f' := get_file fi in
    let! r := writei ip (SUser (u64 (va + c))) (f_off f') n1 in
    do! when (0 <? r) (upd_file fi (upd_f_off (fun o => u32 (o + r)))) in
    do! iunlock (f_ip f) in
    do! end_op in
    if negb (r =? n1) then ret (inr c) else ret (inl (c + r))
  else ret (inr c).

(** Agreement outside the log. *)
Definition agree (V W : Z -> list Z) : Prop := forall b, ~ in_log start size b -> W b = V b.

(** The state inside the transaction with the new offset. *)
Lemma inside_files bs V g k : inside i R L bs V k -> inside i R L bs V (upd_files g k).
Proof using.
  intros [[F1 F2 F3] [[T1 T2 T3 T4 T5] [I1 I2]] O1 M1]. assert (Hc : forall P d, cache me pid dev ∅ P d V k -> cache me pid dev ∅ P d V (upd_files g k)).
  { intros P d Hc. apply (cache_thread me pid dev ∅ P d V k); try done. by apply (thread_ext _ _ k), (ca_thread _ _ _ _ _ _ _ _ Hc). }
  split; [by split; [apply Hc|..]| |done|done]. split; [by split; [apply Hc|..]|by split].
Qed.

Lemma step_ok (c off : nat) src V B ib k :
  stage fi i f n R L off V B ib k -> inode_in n -> (0 < length src <= 3072)%nat ->
  Z.of_nat (length src) = (if filewrite_max <? N - Z.of_nat c then filewrite_max else N - Z.of_nat c) ->
  (forall k', owns k' = owns k -> supplies me pid dev start size k' (SUser (u64 (va + Z.of_nat c))) src) ->
  (off + length src <= 268 * 1024)%nat -> ((off + length src + 1023) / 1024 + 1 <= capacity V B ib)%nat ->
  wp (filewrite_step (Z.of_nat c)) (fun r k' => r = inl (Z.of_nat (c + length src)) /\ owns k' = owns k /\
    exists V' B' ib', stage fi i f n R L (off + length src) V' B' ib' k' /\ wrote n src off V B ib V' B' ib' /\
      files k' = <[fi := upd_f_off (set (Z.of_nat (off + length src))) f]> (files k) /\ passes (fun W => agree V W \/ agree V' W) k k') k.
Proof using Hstart Hsize Hend HL DL H8 Hip HiL.
  intros [HId He HD HV Hfi Hoff] Hn Hlen El Hsup Hmax Hcap. unfold filewrite_step. change filewrite_max with 3072 in *.
  destruct (Z.ltb_spec (Z.of_nat c) N) as [_|Hge]; [|destruct (Z.ltb_spec 3072 (N - Z.of_nat c)); lia]. rewrite <- El, Hip.
  apply wp_bind. eapply wp_conseq; [apply (enter_ok i n R L V k HId He HiL (df_type _ _ _ _ _ _ _ HD))|cbv beta]. intros _ k1 Hlock.
  apply wp_bind. eapply wp_conseq; [exact Hlock|cbv beta]. clear Hlock. intros _ k2 (I2 & W2 & F2 & D2 & Z2 & ip & Hi2 & Hlk).
  apply wp_bind. eapply wp_eq; [reflexivity|]. apply wp_bind. eapply wp_idx_get; [rewrite F2; exact Hfi|]. cbn [f_off upd_f_off set]. apply wp_bind.
  eapply wp_conseq; [apply (write_inside i n R L V B ib k2 ip src off H8 I2 Hi2 Hlk HD HV (id_refs _ _ _ _ HId) Hoff Hmax Hlen Hcap); by apply Hsup|cbv beta].
  intros r k3 (-> & O3 & Z3 & E3 & bs & V' & B' & ib' & I3 & Wr). destruct (Z.ltb_spec 0 (Z.of_nat (length src))) as [_|]; [|lia]. cbn [when].
  assert (F3 : files k3 = files k) by (rewrite <- F2; unfold outer in O3; by injection O3). assert (D3 : kdisk k3 = kdisk k) by (rewrite <- D2; unfold outer in O3; by injection O3).
  assert (W3 : owns k3 = owns k) by (rewrite <- W2; by apply outer_owns).
  apply wp_bind. eapply wp_idx_upd; [rewrite F3; exact Hfi|]. set (k4 := upd_files _ k3).
  set (f4 := upd_f_off (fun o => u32 (o + Z.of_nat (length src))) (upd_f_off (set (Z.of_nat off)) f)) in *.
  assert (Ef4 : f4 = upd_f_off (set (Z.of_nat (off + length src))) f).
  { unfold f4, upd_f_off, set. cbn. rewrite u32_small by lia. by rewrite Nat2Z.inj_add. }
  apply wp_bind. eapply wp_conseq; [apply (exit_ok i n R L bs V' k4 (inside_files bs V' _ k3 I3) Z3 E3 HiL (id_refs _ _ _ _ HId) (id_count _ _ _ _ HId))|cbv beta].
  intros _ k5 Hend_op. apply wp_bind. eapply wp_conseq; [exact Hend_op|cbv beta]. clear Hend_op. intros _ k6 (I6 & E6 & W6 & F6 & D6).
  rewrite Z.eqb_refl. cbn [negb]. apply wp_ret. change (kdisk k4) with (kdisk k3) in D6. rewrite D3 in D6.
  assert (T3 : txn ∅ bs (list_to_set bs) V' k4) by apply (inside_files bs V' _ k3 I3).
  pose proof (end_final me pid dev start size Hsize bs _ V' k4 T3) as Hfin. set (V2 := disk_after V' (end_writes start V' bs)) in *.
  pose proof (wrote_ext n src off V B ib V' B' ib' V2 Hn Hfin Wr) as Wr2.
  assert (E64 : files k6 = <[fi := upd_f_off (set (Z.of_nat (off + length src))) f]> (files k)) by (rewrite F6; unfold k4; cbn; by rewrite F3, Ef4).
  split_and!; [f_equal; lia|by rewrite W6; exact W3|]. exists V2, B', ib'. split_and!; [|done|done|].
  - split; [done|done|apply Wr2|apply Wr2|rewrite E64; apply list_lookup_insert_eq; by eapply lookup_lt_Some|].
    pose proof (f_equal length (wt_bytes _ _ _ _ _ _ _ _ _ Wr2)) as Hl. unfold fcontent in Hl. rewrite length_overwrite, !length_ibytes in Hl by (rewrite length_ibytes; lia). lia.
  - exists (end_writes start V' bs). split; [done|]. intros ws2 ws1 Ew.
    assert (Eb : forall b, block_on k4 b = block_on k b) by (intros b; unfold block_on, k4; cbn; by rewrite D3).
    destruct (end_op_states me pid dev start size Hstart Hsize Hend bs _ V' k4 T3 ltac:(done) ws2 ws1 Ew) as [Hr|Hr]; eexists; (split; [eapply (recovers_ext start size); [|exact Hr]; intros b; by apply disk_after_ext|]).
    + left. intros b _. rewrite Eb. symmetry. apply (ca_clean _ _ _ _ _ _ _ _ (tx_cache _ _ _ _ _ _ _ _ _ _ (id_txn _ _ _ _ HId))). set_solver +.
    + right. intros b Hb. by rewrite Hfin.
Qed.

(** A disk with the first [t] bytes of [src] in file [n], and every other file
    as it was. *)
Record partly (V : Z -> list Z) (B : list Z) (ib : Z) (src : list Z) (off t : nat) (W : Z -> list Z) (B' : list Z) (ib' : Z) : Prop := mk_partly {
  py_disk : disk_file W n B' ib';
  py_kept : kept n V (owned B ib) W (owned B' ib');
  py_bytes : fcontent W sb n = overwrite (fcontent V sb n) off (take t src)
}.
(** The ends of the chunks of [filewrite]. *)
Definition chunk_end (len t : nat) : Prop := (t <= len)%nat /\ (t = len \/ t mod 3072 = 0)%nat.
Definition some_chunks (V : Z -> list Z) (B : list Z) (ib : Z) (src : list Z) (off : nat) (W : Z -> list Z) : Prop :=
  exists t B' ib', chunk_end (length src) t /\ partly V B ib src off t W B' ib'.

Lemma partly_ext V B ib src off t W B' ib' W2 : inode_in n -> agree W W2 -> partly V B ib src off t W B' ib' -> partly V B ib src off t W2 B' ib'.
Proof using Hstart Hsize HL.
  intros Hn E [H1 H2 H3]. destruct (disk_file_ext start size sb HL Hstart Hsize W W2 n B' ib' E H1) as [D2 C2].
  split; [done|by apply (kept_ext start size sb HL Hstart Hsize n V (owned B ib) W)|by rewrite C2].
Qed.
Lemma partly_more V B ib src off t V1 B1 ib1 m V2 B2 ib2 :
  partly V B ib src off t V1 B1 ib1 -> wrote n (take m (drop t src)) (off + t) V1 B1 ib1 V2 B2 ib2 -> (off <= length (fcontent V sb n))%nat -> (t <= length src)%nat ->
  partly V B ib src off (t + m) V2 B2 ib2.
Proof using.
  intros [P1 P2 P3] [W1 W2 W3 W4 W5] Hoff Ht. split; [done|by eapply kept_trans|]. rewrite W4, P3.
  replace (off + t)%nat with (off + length (take t src))%nat by (rewrite length_take; lia). rewrite overwrite_app by done. by rewrite <- take_take_drop.
Qed.
End loop.

Section run.
Context (fi i : nat) (f : file) (n : Z) (R : gmultiset Z) (L : gset nat) (H8 : 8 <= size) (Hip : f_ip f = Some i) (HiL : i ∉ L).
Context (T : ptree) (va : Z) (len off : nat) (V : Z -> list Z) (B : list Z) (ib : Z) (k : kernel).
Context (HS : stage fi i f n R L off V B ib k) (Hub : user_buf me T va (Z.of_nat len) k).
Context (Hmax : (off + len <= 268 * 1024)%nat) (Hcap : ((off + len + 1023) / 1024 + 1 <= capacity V B ib)%nat).
#[local] Notation src := (ubytes (mach k) T va (Z.of_nat len)).

Record at_chunk (c : nat) (k' : kernel) : Prop := mk_at_chunk {
  ac_end : chunk_end len c;
  ac_owns : owns k' = owns k;
  ac_state : exists V' B' ib', stage fi i f n R L (off + c) V' B' ib' k' /\ partly n V B ib src off c V' B' ib' /\ (capacity V B ib <= capacity V' B' ib')%nat;
  ac_files : files k' = <[fi := upd_f_off (set (Z.of_nat (off + c))) f]> (files k);
  ac_passes : passes (some_chunks n V B ib src off) k k'
}.

Lemma run_inode : inode_in n.
Proof using HS. apply (id_refs _ _ _ _ (sg_idle _ _ _ _ _ _ _ _ _ _ _ HS)). eapply entry_ref; [apply HS|apply HS]. Qed.
Lemma run_off : (off <= length (fcontent V sb n))%nat.
Proof using HS. clear Hmax Hcap. unfold fcontent. rewrite length_ibytes. pose proof (sg_off _ _ _ _ _ _ _ _ _ _ _ HS). lia. Qed.
Lemma run_src : length src = len.
Proof using. rewrite length_ubytes. apply Nat2Z.id. Qed.

(** The bytes of a chunk. *)
Lemma chunk_supplies c m k1 : owns k1 = owns k -> (c + m <= len)%nat -> supplies me pid dev start size k1 (SUser (u64 (va + Z.of_nat c))) (take m (drop c src)).
Proof using Hub.
  clear Hmax Hcap. intros Ew Hm. pose proof (ub_range _ _ _ _ _ Hub) as Hr. rewrite MAXVA_pow in Hr. rewrite u64_small, ubytes_slice by lia.
  pose proof (user_buf_ext me _ _ _ _ _ Ew (user_buf_sub me _ _ _ _ c m Hub ltac:(lia))) as Hb. pose proof (supplies_user _ _ _ _ Hb ltac:(lia)) as Hs.
  rewrite (ubytes_ext (mach k)) in Hs; [done|]. unfold owns in Ew. by injection Ew.
Qed.

Lemma at_chunk_step c k1 : at_chunk c k1 -> (c < len)%nat -> wp (filewrite_step fi f va (Z.of_nat len) (Z.of_nat c)) (fun r k2 =>
  exists c', r = inl (Z.of_nat c') /\ (c < c')%nat /\ at_chunk c' k2) k1.
Proof using Hstart Hsize Hend HL DL H8 Hip HiL HS Hub Hmax Hcap.
  intros [[Hc Hm] Ew (V1 & B1 & ib1 & S1 & P1 & C1) F1 Hp] Hlt. set (m := Nat.min 3072 (len - c)). pose proof run_inode as Hn. pose proof run_src as Hls.
  assert (Em : length (take m (drop c src)) = m) by (rewrite length_take, length_drop; unfold m; lia).
  assert (Hd : ((off + c + m + 1023) / 1024 <= (off + len + 1023) / 1024)%nat) by (apply Nat.Div0.div_le_mono; unfold m; lia).
  eapply wp_conseq; [apply (step_ok fi i f n R L va (Z.of_nat len) H8 Hip HiL c (off + c) (take m (drop c src)) V1 B1 ib1 k1 S1 Hn)|cbv beta].
  - rewrite Em. unfold m. lia.
  - rewrite Em. change filewrite_max with 3072. unfold m. destruct (Z.ltb_spec 3072 (Z.of_nat len - Z.of_nat c)); lia.
  - intros k2 E2. apply chunk_supplies; [congruence|unfold m; lia].
  - rewrite Em. unfold m. lia.
  - rewrite Em. lia.
  - rewrite Em. intros r k2 (-> & W2 & V2 & B2 & ib2 & S2 & Wr & F2 & Hp2).
    pose proof (partly_more n V B ib src off c V1 B1 ib1 m V2 B2 ib2 P1 Wr run_off ltac:(lia)) as P2.
    assert (Hend' : chunk_end len (c + m)).
    { split; [unfold m; lia|]. destruct Hm as [|Hm]; [lia|]. unfold m. destruct (decide (len - c <= 3072)%nat); [left; lia|right].
      rewrite Nat.min_l by lia. rewrite <- Nat.Div0.add_mod_idemp_l, Hm. done. }
    exists (c + m)%nat. split_and!; [done|unfold m; lia|]. split; [done|congruence| |by rewrite F2, F1, list_insert_insert_eq, Nat.add_assoc|].
    + exists V2, B2, ib2. rewrite Nat.add_assoc. split_and!; [done|done|]. pose proof (wt_capacity _ _ _ _ _ _ _ _ _ Wr). lia.
    + eapply passes_trans; [exact Hp|]. eapply passes_mono; [|exact Hp2]. intros W [HW|HW]; [exists c, B1, ib1|exists (c + m)%nat, B2, ib2]; rewrite Hls; (split; [done|by eapply partly_ext]).
Qed.

Lemma filewrite_run : f_type f = FD_INODE -> f_writable f = true -> wp (filewrite fi va (Z.of_nat len)) (fun r k' => r = Z.of_nat len /\ at_chunk len k') k.
Proof using Hstart Hsize Hend HL DL H8 Hip HiL HS Hub Hmax Hcap.
  intros Ht Hw. unfold filewrite. apply wp_bind. eapply wp_idx_get; [apply HS|]. cbn [f_writable f_type f_ip upd_f_off]. rewrite Hw, Ht. cbn [negb]. apply wp_bind.
  apply (wp_while_ghost _ (fun c st k' => st = Z.of_nat c /\ at_chunk c k') (fun c => Z.of_nat len - Z.of_nat c) _ 0%nat).
  - intros c st k1 [-> A]. pose proof (proj1 (ac_end _ _ A)) as Hc. destruct (decide (c < len)%nat) as [Hlt|Hge].
    + eapply wp_conseq; [exact (at_chunk_step c k1 A Hlt)|cbv beta]. intros r k2 (c' & -> & Hcc & A'). exists c'. pose proof (proj1 (ac_end _ _ A')). split; [done|lia].
    + assert (c = len) as -> by lia. rewrite Z.ltb_irrefl. apply wp_ret. apply wp_ret. by rewrite Z.eqb_refl.
  - split; [done|]. assert (E0 : upd_f_off (set (Z.of_nat (off + 0))) f = upd_f_off (set (Z.of_nat off)) f) by (by rewrite Nat.add_0_r).
    assert (P0 : partly n V B ib src off 0 V B ib) by (split; [apply HS|apply kept_refl|by rewrite overwrite_nil]).
    split; [split; [lia|by right]|done|exists V, B, ib; rewrite Nat.add_0_r; by split_and!|rewrite E0; symmetry; apply list_insert_id, HS|].
    exists []. split; [by destruct (kdisk k)|]. intros ws2 ws1 [_ ->]%eq_sym%app_eq_nil. exists V. split; [|exists 0%nat, B, ib; split; [split; [lia|by right]|done]].
    pose proof (id_txn _ _ _ _ (sg_idle _ _ _ _ _ _ _ _ _ _ _ HS)) as HT. destruct (end_op_states me pid dev start size Hstart Hsize Hend [] ∅ V k HT ltac:(done) [] []) as [Hr|Hr]; [done| |exact Hr].
    destruct Hr as [Hr1 Hr2]. split; [done|]. intros b Hb. rewrite Hr2 by done. symmetry. apply (ca_clean _ _ _ _ _ _ _ _ (tx_cache _ _ _ _ _ _ _ _ _ _ HT)). set_solver +.
  - pose proof Hmax. lia.
Qed.
End run.

(** ** Writes are atomic by chunk *)

(** File [m] has none of the blocks of [n]. *)
Definition other_file (n : Z) (V : Z -> list Z) (own : list Z) (m : Z) : Prop :=
  m <> n /\ inode_in m /\ exists Bm ibm, disk_file V m Bm ibm /\ forall b, b ∈ owned Bm ibm -> b ∉ own.

Lemma partly_other n V B ib src off t W B' ib' m :
  partly n V B ib src off t W B' ib' -> inode_in n -> bitmap_ok sb V -> disk_file V n B ib -> other_file n V (owned B ib) m -> fcontent W sb m = fcontent V sb m.
Proof using Hstart Hsize HL.
  intros [_ HK _] Hn HV HD (Hne & Hm & Bm & ibm & HDm & Hdis).
  apply (kept_other_file start size sb HL Hstart Hsize n V (owned B ib) W (owned B' ib') HK HV) with (B := Bm) (ib := ibm); try done.
  intros b Hb. by apply (fa_own _ _ _ _ _ (df_file _ _ _ _ _ _ _ HD)).
Qed.

(** [C2] [filewrite] on a file of the disk stores the bytes of the process at
    the offset of the file, moves the offset and returns their number; every
    other file keeps its bytes. If the machine stops at any point, and again any
    number of times during recovery, the file recovery leaves has the bytes up to
    the end of one of the chunks of [filewrite], and every other file is intact.
    A write of at most one chunk is atomic. *)
Theorem filewrite_crash_safe fi i f n R L T va len off V B ib k :
  8 <= size -> stage fi i f n R L off V B ib k -> f_type f = FD_INODE -> f_writable f = true -> f_ip f = Some i -> i ∉ L ->
  user_buf me T va (Z.of_nat len) k -> (off + len <= 268 * 1024)%nat -> ((off + len + 1023) / 1024 + 1 <= capacity V B ib)%nat ->
  let src := ubytes (mach k) T va (Z.of_nat len) in
  exists k' V' B' ib', filewrite fi va (Z.of_nat len) k = Ret (Z.of_nat len) k' /\ stage fi i f n R L (off + len) V' B' ib' k' /\
    fcontent V' sb n = overwrite (fcontent V sb n) off src /\ owns k' = owns k /\
    (forall m, other_file n V (owned B ib) m -> fcontent V' sb m = fcontent V sb m) /\
    forall ws2 ws1 d kb, d_writes (kdisk k') = ws2 ++ ws1 ++ d_writes (kdisk k) ->
      rtc (crash_in_recovery me pid dev start) (disk_after (block_on k) ws1) d -> booted me pid dev start d kb ->
      exists kr t, recover_from_log kb = Ret tt kr /\ chunk_end len t /\
        fcontent (block_on kr) sb n = overwrite (fcontent V sb n) off (take t src) /\
        forall m, other_file n V (owned B ib) m -> fcontent (block_on kr) sb m = fcontent V sb m.
Proof using Hstart Hsize Hend HL DL.
  intros H8 HS Ht Hw Hip HiL Hub Hmax Hcap src. pose proof (run_inode fi i f n R L off V B ib k HS) as Hn. pose proof (run_src T va len k) as Hls.
  destruct (wp_inv _ _ _ (filewrite_run fi i f n R L H8 Hip HiL T va len off V B ib k HS Hub Hmax Hcap Ht Hw)) as (r & k' & E & -> & [_ Ew (V' & B' & ib' & S' & P' & _) _ (ws & Ed & Hp)]).
  exists k', V', B', ib'. pose proof (py_bytes _ _ _ _ _ _ _ _ _ _ P') as Eb. rewrite take_ge in Eb by lia.
  split_and!; [done|done|done|done|intros m Hm; by eapply partly_other; [exact P'|done|apply HS|apply HS|]|].
  intros ws2 ws1 d kb Ews Hrt Hbt. rewrite Ed in Ews. cbn [d_writes upd_d_writes] in Ews. rewrite app_assoc in Ews. apply app_inv_tail in Ews.
  destruct (Hp ws2 ws1 Ews) as (W & HW & t & B1 & ib1 & Hc & P1). rewrite Hls in Hc.
  destruct (recovers_boot me pid dev start size Hstart Hsize Hend _ W d kb HW Hrt Hbt) as (kr & Er & Hkr).
  pose proof (partly_ext n V B ib src off t W B1 ib1 (block_on kr) Hn Hkr P1) as P2.
  exists kr, t. split_and!; [done|done|apply P2|]. intros m Hm. by eapply partly_other; [exact P2|done|apply HS|apply HS|].
Qed.
End filewrite.

(** ** A sample disk with one file *)

Module FileSample.
Import FsSample.

(** Two blocks before the log of 30, one inode block, the bitmap, and a file of
    five bytes, inode 1, in block 34. *)
Definition sb : superblock := mk_superblock 0x10203040 200 166 16 30 2 32 33.
Definition pad (l : list Z) : list Z := l ++ replicate (1024 - length l) 0.
Definition dinode1 : inode := mk_inode 0 1 0 (mk_sleeplock false 0) false T_FILE 0 0 1 5 (34 :: replicate 12 0).
Definition image (b : Z) : list Z :=
  if b =? 32 then pad (replicate 64 0 ++ dinode_bytes dinode1)
  else if b =? 33 then pad [255; 255; 255; 255; 7]
  else if b =? 34 then pad (bytes_of "hello")
  else pad [].

Definition file1 : file := mk_file FD_INODE 1 true true 0 (Some 0%nat) 3 0.
Definition inode1 : inode := mk_inode 1 1 1 (mk_sleeplock false 0) false 0 0 0 0 0 (replicate 13 0).

(** The process of [k] gets the page table and the memory of [s]; inode 1 is
    open, as file 0. *)
Definition opened (s : machine) (k : kernel) : kernel :=
  upd_klog (upd_l_outstanding (set 0)) (upd_files (<[0%nat := file1]>) (upd_inodes (<[0%nat := inode1]>) (upd_ksb (set sb)
    (upd_procs (alter (upd_p_pagetable (set (pt_root VmSample.T))) 0%nat)
      (upd_mach (fun m => mk_machine (tp m) (cpus m) (locks m) (mem s) (freelist s) (count s)) k))))).
Definition kernel2 : kernel := opened VmSample.parent (kernel0 image).

Lemma thread_opened s k : thread 0 1 k -> thread 0 1 (opened s k).
Proof.
  intros [H1 [Hlen Hc Hl] (p & Hp & Hpid) H4]. split; [done| | |done].
  - split; [by rewrite <- Hlen; apply length_alter|done|done].
  - exists (upd_p_pagetable (set (pt_root VmSample.T)) p). split; [|done]. cbn. by rewrite list_lookup_alter_eq, Hp.
Qed.
Lemma cache_opened s k V : cache 0 1 1 ∅ ∅ ∅ V k -> cache 0 1 1 ∅ ∅ ∅ V (opened s k).
Proof. intros Hc. apply (cache_thread 0 1 1 ∅ ∅ ∅ V k); try done. apply thread_opened, Hc. Qed.

Lemma used_image b : 0 <= b <= 34 -> used sb image b = true.
Proof.
  assert (H : forallb (used sb image) (seqZ 0 35) = true) by (vm_compute; reflexivity).
  intros Hb. apply (proj1 (forallb_forall _ _) H). apply list_elem_of_In, elem_of_seqZ. lia.
Qed.
Lemma disk_image : on_disk image sb 1 = mk_inode 0 1 0 (mk_sleeplock false 0) false T_FILE 0 0 1 5 (34 :: replicate 12 0).
Proof. vm_compute. reflexivity. Qed.
Lemma file_image : file_at sb image (on_disk image sb 1) [34] 0.
Proof.
  rewrite disk_image. split; cbn [i_addrs].
  - done.
  - simpl. lia.
  - intros j Hj. destruct j as [|j]; [done|]. change (replicate 12 0 !! j = Some 0). by rewrite lookup_replicate_2 by lia.
  - done.
  - simpl. lia.
  - done.
  - apply NoDup_singleton.
  - intros b Hb. apply list_elem_of_singleton in Hb as ->. split; [done|]. split; [apply used_image; lia|]. vm_compute. reflexivity.
Qed.
Lemma disk_file_image : disk_file 2 30 sb image 1 [34] 0.
Proof. split; [exact file_image|rewrite disk_image; simpl; lia|by rewrite disk_image|vm_compute; done|vm_compute; reflexivity]. Qed.
Lemma inode_in_1 : inode_in 2 30 sb 1.
Proof. split; [lia|vm_compute; done]. Qed.

Lemma idle_opened s k : cache 0 1 1 ∅ ∅ ∅ image k -> inodes k = inodes kernel_bss -> klog k = klog (kernel0 image) ->
  idle 0 1 1 2 30 sb image {[+ 1 +]} ∅ (opened s k).
Proof.
  intros Hc Hi Hg. pose proof (cache_opened s k image Hc) as Hc'. split.
  - split; [done|done|]. change (inodes (opened s k)) with (<[0%nat := inode1]> (inodes k)). rewrite Hi.
    assert (T0 : itable 1 1 image sb ∅ ∅ (inodes kernel_bss)).
    { assert (H0 : forall i ip, inodes kernel_bss !! i = Some ip -> i_ref ip = 0 /\ i_lock ip = mk_sleeplock false 0) by (intros i ip [-> _]%lookup_replicate; done).
      split; [done|intros i ip H Hr; by destruct (H0 i ip H)|intros n Hn; by apply gmultiset_not_elem_of_empty in Hn|intros i j ip jp H _ Hr; by destruct (H0 i ip H)| |intros i ip H Hr; by destruct (H0 i ip H)].
      intros i ip H. rewrite decide_False by set_solver +. by apply (H0 i). }
    rewrite <- (left_id_L ∅ (⊎) {[+ 1 +]}). eapply (itable_take 1 1 image sb ∅ ∅ _ T0 1 0%nat); [reflexivity|reflexivity|apply gmultiset_not_elem_of_empty|lia|reflexivity..].
  - split; [done| |apply (targets_nil 2 30); unfold LOGSIZE, MAXOPBLOCKS; lia|vm_compute; reflexivity|vm_compute; reflexivity].
    change (klog (opened s k)) with (upd_l_outstanding (set 0) (klog k)). rewrite Hg. by split.
  - done.
  - change (l_committing (klog k) = false). by rewrite Hg.
  - change (l_size (klog k) = 30). by rewrite Hg.
  - intros m ->%gmultiset_elem_of_singleton. exact inode_in_1.
  - rewrite gmultiset_size_singleton. lia.
Qed.

Lemma stage2 : stage 0 1 1 2 30 sb 0 0 file1 1 {[+ 1 +]} ∅ 3 image [34] 0 kernel2.
Proof.
  split.
  - apply idle_opened; [apply cache0|reflexivity|reflexivity].
  - exists inode1. split; [reflexivity|]. split; [done|reflexivity].
  - exact disk_file_image.
  - split; [vm_compute; reflexivity|]. intros b Hb. apply used_image. change (sb_bmapstart sb) with 33 in Hb. lia.
  - reflexivity.
  - rewrite disk_image. simpl. lia.
Qed.

Lemma user_opened s T va n k p :
  vm_ok s T -> pt_root T = pt_root VmSample.T -> procs k !! 0%nat = Some p -> 0 <= va -> va + n <= MAXVA ->
  (forall a, vpage (PGROUNDDOWN va) (va + n) a -> VmCopy.readable s T a = true /\ kpage (pa_at s T a)) -> user_buf 0 T va n (opened s k).
Proof.
  intros Hvm Hr Hp Hva Hmax Hpg. split; [exact Hvm| |done|exact Hpg].
  exists (upd_p_pagetable (set (pt_root VmSample.T)) p). split; [|done]. cbn. by rewrite list_lookup_alter_eq, Hp.
Qed.
Lemma user2 : user_buf 0 VmSample.T 0x1ffe (Z.of_nat 4000) kernel2.
Proof.
  eapply user_opened; [exact VmSample.vm_parent|reflexivity|reflexivity|lia|rewrite MAXVA_pow; lia|].
  intros a [Ha Hr]. change (PGROUNDDOWN 0x1ffe) with 0x1000 in Hr. unfold page_aligned, PGSIZE in Ha.
  assert (a = 0x1000 \/ a = 0x2000) as [-> | ->] by (pose proof (Z.div_mod a 4096 ltac:(done)); lia); (split; [vm_compute; reflexivity|apply kpageb_ok; vm_compute; reflexivity]).
Qed.

Lemma filewrite_crash_safe_witness :
  let src := ubytes (mach kernel2) VmSample.T 0x1ffe (Z.of_nat 4000) in
  exists k' V' B' ib', filewrite 0 0x1ffe (Z.of_nat 4000) kernel2 = Ret (Z.of_nat 4000) k' /\ stage 0 1 1 2 30 sb 0 0 file1 1 {[+ 1 +]} ∅ (3 + 4000) V' B' ib' k' /\
    fcontent V' sb 1 = overwrite (fcontent image sb 1) 3 src /\ owns k' = owns kernel2 /\
    (forall m, other_file 2 30 sb 1 image (owned [34] 0) m -> fcontent V' sb m = fcontent image sb m) /\
    forall ws2 ws1 d kb, d_writes (kdisk k') = ws2 ++ ws1 ++ d_writes (kdisk kernel2) ->
      rtc (crash_in_recovery 0 1 1 2) (disk_after (block_on kernel2) ws1) d -> booted 0 1 1 2 d kb ->
      exists kr t, recover_from_log kb = Ret tt kr /\ chunk_end 4000 t /\
        fcontent (block_on kr) sb 1 = overwrite (fcontent image sb 1) 3 (take t src) /\
        forall m, other_file 2 30 sb 1 image (owned [34] 0) m -> fcontent (block_on kr) sb m = fcontent image sb m.
Proof.
  refine (filewrite_crash_safe 0 1 1 2 30 _ _ _ sb _ 0 0 file1 1 {[+ 1 +]} ∅ VmSample.T 0x1ffe 4000 3 image [34] 0 kernel2 _ stage2 eq_refl eq_refl eq_refl _ user2 _ _).
  - lia.
  - unfold LOGSIZE, MAXOPBLOCKS. lia.
  - lia.
  - split; [vm_compute; discriminate|split; [vm_compute; discriminate|vm_compute; reflexivity]].
  - lia.
  - apply not_elem_of_empty.
  - apply (bool_decide_unpack _). vm_compute. exact I.
  - apply (bool_decide_unpack _). vm_compute. exact I.
Defined.
End FileSample.
