(* ===== verification/Asm.v ===== *)
(** * The assembly of the kernel and of the user library

    The instructions [kernel/trampoline.S], [kernel/kernelvec.S],
    [kernel/swtch.S], [kernel/entry.S], [user/initcode.S] and the stubs
    [user/usys.pl] prints are written with, as an interpreter over the
    registers, the control registers the code touches and the bytes of
    physical memory, and the routines themselves, instruction by instruction.
    Every access, the fetch of the instruction included, is translated by the
    hardware's three-level walk of the table [satp] points to, so that code
    which changes [satp] goes on only if both tables map it. The translation
    caches are not modelled: a walk reads the memory of the moment, which is
    what the [sfence.vma] instructions around the writes of [satp] ask for. *)

From S2P Require Import Prelude Riscv Memory.

(** ** Machine *)

Inductive reg :=
  | Ra | Sp | Gp | Tp | T0 | T1 | T2 | S0 | S1
  | A0 | A1 | A2 | A3 | A4 | A5 | A6 | A7
  | S2 | S3 | S4 | S5 | S6 | S7 | S8 | S9 | S10 | S11
  | T3 | T4 | T5 | T6.
#[export] Instance reg_eq_dec : EqDecision reg.
Proof. solve_decision. Defined.

(** The control registers of [kernel/riscv.h]. Each holds what was last written
    to it: the registers that are views of one another ([sstatus] of [mstatus],
    [sie] of [mie]) are kept apart, as the kernel sets disjoint bits of them. *)
Inductive creg :=
  | Mhartid | Mstatus | Mepc | Sstatus | Sip | Sie | Mie | Sepc | Medeleg | Mideleg | Stvec | Mtvec
  | Pmpcfg0 | Pmpaddr0 | Satp | Mscratch | Sscratch | Scause | Stval | Mcounteren | Time.
#[export] Instance creg_eq_dec : EqDecision creg.
Proof. solve_decision. Defined.

Inductive mode := Supervisor | Machine_mode.

Record hart := mk_hart {
  h_mode : mode;
  h_reg : reg -> Z;
  h_csr : creg -> Z;
  h_mem : memory
}.

Definition upd_reg (r : reg) (v : Z) (g : reg -> Z) : reg -> Z :=
  fun r' => if decide (r' = r) then v else g r'.
Definition set_reg (r : reg) (v : Z) (h : hart) : hart :=
  mk_hart (h_mode h) (upd_reg r v (h_reg h)) (h_csr h) (h_mem h).
Definition set_csr (c : creg) (v : Z) (h : hart) : hart :=
  mk_hart (h_mode h) (h_reg h) (fun c' => if decide (c' = c) then v else h_csr h c') (h_mem h).
Definition set_mem (m : memory) (h : hart) : hart :=
  mk_hart (h_mode h) (h_reg h) (h_csr h) m.

(** ** Address translation

    The Sv39 walk of the privileged architecture, for accesses of supervisor
    mode with [sstatus.SUM] clear: an entry that is not valid, is writable but
    not readable or has a reserved bit set is a fault; an entry that is
    readable or executable is a leaf, of a page of [2^(12+9*level)] bytes,
    which has to grant the access and not to be a user page. *)
Fixpoint sv39 (m : memory) (level : nat) (table va want : Z) : option Z :=
  let pte := load64 m (table + 8 * PX (Z.of_nat level) va) in
  if negb (bit pte PTE_V) || (negb (bit pte PTE_R) && bit pte PTE_W) || (2 ^ 54 <=? pte) then None
  else if bit pte PTE_R || bit pte PTE_X then
    let size := 2 ^ PXSHIFT (Z.of_nat level) in
    if bit pte want && negb (bit pte PTE_U) && (PTE2PA pte mod size =? 0)
    then Some (PTE2PA pte + va mod size) else None
  else match level with O => None | S level' => sv39 m level' (PTE2PA pte) va want end.

(** Bits 63 to 39 of an address repeat bit 38. *)
Definition canonical (va : Z) : bool :=
  ((0 <=? va) && (va <? 2 ^ 38)) || ((2 ^ 64 - 2 ^ 38 <=? va) && (va <? 2 ^ 64)).

Definition satp_mode (satp : Z) : Z := Z.shiftr satp 60.
Definition satp_root (satp : Z) : Z := Z.shiftl (Z.land satp (Z.ones 44)) 12.

Definition translate (md : mode) (m : memory) (satp va want : Z) : option Z :=
  match md with
  | Machine_mode => Some va
  | Supervisor =>
      if satp_mode satp =? 0 then Some va
      else if (satp_mode satp =? 8) && canonical va then sv39 m 2 (satp_root satp) va want
      else None
  end.
Definition access (h : hart) (va want : Z) : option Z :=
  translate (h_mode h) (h_mem h) (h_csr h Satp) va want.

(** ** Instructions

    [LA] and [CALL] carry the address of their symbol; [CALL] also the address
    it leaves in [ra]. *)
Inductive instr :=
  | SD (rs : reg) (off : Z) (base : reg)
  | LD (rd : reg) (off : Z) (base : reg)
  | LI (rd : reg) (imm : Z)
  | LA (rd : reg) (symbol : Z)
  | ADDI (rd rs : reg) (imm : Z)
  | ADD (rd rs1 rs2 : reg)
  | MUL (rd rs1 rs2 : reg)
  | CSRR (rd : reg) (c : creg)
  | CSRW (c : creg) (rs : reg)
  | CSRRW (rd : reg) (c : creg) (rs : reg)
  | SFENCE_VMA
  | J (target : Z)
  | JR (rs : reg)
  | CALL (target back : Z)
  | RET
  | ECALL
  | SRET
  | MRET.

(** Where control goes after an instruction. *)
Inductive flow := Next | Goto (pc : Z) | Ecall | Sret | Mret.

(** 64-bit loads and stores; the kernel relies on no misaligned access. *)
Definition load (h : hart) (va : Z) : option Z :=
  if va mod 8 =? 0 then load64 (h_mem h) <$> access h va PTE_R else None.
Definition store (h : hart) (va v : Z) : option hart :=
  if va mod 8 =? 0 then
    (fun pa => set_mem (store64 (h_mem h) pa v) h) <$> access h va PTE_W
  else None.

Definition step (i : instr) (h : hart) : option (flow * hart) :=
  let x := h_reg h in
  match i with
  | SD rs off base => pair Next <$> store h (u64 (x base + off)) (x rs)
  | LD rd off base => (fun v => (Next, set_reg rd v h)) <$> load h (u64 (x base + off))
  | LI rd imm => Some (Next, set_reg rd (u64 imm) h)
  | LA rd symbol => Some (Next, set_reg rd symbol h)
  | ADDI rd rs imm => Some (Next, set_reg rd (u64 (x rs + imm)) h)
  | ADD rd rs1 rs2 => Some (Next, set_reg rd (u64 (x rs1 + x rs2)) h)
  | MUL rd rs1 rs2 => Some (Next, set_reg rd (u64 (x rs1 * x rs2)) h)
  | CSRR rd c => Some (Next, set_reg rd (h_csr h c) h)
  | CSRW c rs => Some (Next, set_csr c (x rs) h)
  | CSRRW rd c rs => Some (Next, set_reg rd (h_csr h c) (set_csr c (x rs) h))
  | SFENCE_VMA => Some (Next, h)
  | J target => Some (Goto target, h)
  | JR rs => Some (Goto (x rs), h)
  | CALL target back => Some (Goto target, set_reg Ra back h)
  | RET => Some (Goto (x Ra), h)
  | ECALL => Some (Ecall, h)
  | SRET => Some (Sret, h)
  | MRET => Some (Mret, h)
  end.

(** Straight-line execution of a routine in the page that is at the virtual
    address [cva] and holds the physical page [cpa], up to the first transfer
    of control: where it goes, the instructions left and the hart. [None] is
    a fault. *)
Fixpoint run (cva cpa : Z) (code : list instr) (h : hart) : option (flow * list instr * hart) :=
  match code with
  | [] => Some (Next, [], h)
  | i :: code' =>
      match access h cva PTE_X with
      | Some pa =>
          if pa =? cpa then
            match step i h with
            | Some (Next, h') => run cva cpa code' h'
            | Some (f, h') => Some (f, code', h')
            | None => None
            end
          else None
      | None => None
      end
  end.

(** ** [kernel/trampoline.S] *)

Definition uservec_code : list instr :=
  [ CSRW Sscratch A0;
    LI A0 TRAPFRAME;
    SD Ra 40 A0;
    SD Sp 48 A0;
    SD Gp 56 A0;
    SD Tp 64 A0;
    SD T0 72 A0;
    SD T1 80 A0;
    SD T2 88 A0;
    SD S0 96 A0;
    SD S1 104 A0;
    SD A1 120 A0;
    SD A2 128 A0;
    SD A3 136 A0;
    SD A4 144 A0;
    SD A5 152 A0;
    SD A6 160 A0;
    SD A7 168 A0;
    SD S2 176 A0;
    SD S3 184 A0;
    SD S4 192 A0;
    SD S5 200 A0;
    SD S6 208 A0;
    SD S7 216 A0;
    SD S8 224 A0;
    SD S9 232 A0;
    SD S10 240 A0;
    SD S11 248 A0;
    SD T3 256 A0;
    SD T4 264 A0;
    SD T5 272 A0;
    SD T6 280 A0;
    CSRR T0 Sscratch;
    SD T0 112 A0;
    LD Sp 8 A0;
    LD Tp 32 A0;
    LD T0 16 A0;
    LD T1 0 A0;
    SFENCE_VMA;
    CSRW Satp T1;
    SFENCE_VMA;
    JR T0 ].

Definition userret_code : list instr :=
  [ SFENCE_VMA;
    CSRW Satp A0;
    SFENCE_VMA;
    LI A0 TRAPFRAME;
    LD Ra 40 A0;
    LD Sp 48 A0;
    LD Gp 56 A0;
    LD Tp 64 A0;
    LD T0 72 A0;
    LD T1 80 A0;
    LD T2 88 A0;
    LD S0 96 A0;
    LD S1 104 A0;
    LD A1 120 A0;
    LD A2 128 A0;
    LD A3 136 A0;
    LD A4 144 A0;
    LD A5 152 A0;
    LD A6 160 A0;
    LD A7 168 A0;
    LD S2 176 A0;
    LD S3 184 A0;
    LD S4 192 A0;
    LD S5 200 A0;
    LD S6 208 A0;
    LD S7 216 A0;
    LD S8 224 A0;
    LD S9 232 A0;
    LD S10 240 A0;
    LD S11 248 A0;
    LD T3 256 A0;
    LD T4 264 A0;
    LD T5 272 A0;
    LD T6 280 A0;
    LD A0 112 A0;
    SRET ].

(** ** [kernel/kernelvec.S] *)

Definition kernelvec_code (kerneltrap back : Z) : list instr :=
  [ ADDI Sp Sp (-256);
    SD Ra 0 Sp;
    SD Sp 8 Sp;
    SD Gp 16 Sp;
    SD Tp 24 Sp;
    SD T0 32 Sp;
    SD T1 40 Sp;
    SD T2 48 Sp;
    SD S0 56 Sp;
    SD S1 64 Sp;
    SD A0 72 Sp;
    SD A1 80 Sp;
    SD A2 88 Sp;
    SD A3 96 Sp;
    SD A4 104 Sp;
    SD A5 112 Sp;
    SD A6 120 Sp;
    SD A7 128 Sp;
    SD S2 136 Sp;
    SD S3 144 Sp;
    SD S4 152 Sp;
    SD S5 160 Sp;
    SD S6 168 Sp;
    SD S7 176 Sp;
    SD S8 184 Sp;
    SD S9 192 Sp;
    SD S10 200 Sp;
    SD S11 208 Sp;
    SD T3 216 Sp;
    SD T4 224 Sp;
    SD T5 232 Sp;
    SD T6 240 Sp;
    CALL kerneltrap back;
    LD Ra 0 Sp;
    LD Sp 8 Sp;
    LD Gp 16 Sp;
    LD T0 32 Sp;
    LD T1 40 Sp;
    LD T2 48 Sp;
    LD S0 56 Sp;
    LD S1 64 Sp;
    LD A0 72 Sp;
    LD A1 80 Sp;
    LD A2 88 Sp;
    LD A3 96 Sp;
    LD A4 104 Sp;
    LD A5 112 Sp;
    LD A6 120 Sp;
    LD A7 128 Sp;
    LD S2 136 Sp;
    LD S3 144 Sp;
    LD S4 152 Sp;
    LD S5 160 Sp;
    LD S6 168 Sp;
    LD S7 176 Sp;
    LD S8 184 Sp;
    LD S9 192 Sp;
    LD S10 200 Sp;
    LD S11 208 Sp;
    LD T3 216 Sp;
    LD T4 224 Sp;
    LD T5 232 Sp;
    LD T6 240 Sp;
    ADDI Sp Sp 256;
    SRET ].

Definition timervec_code : list instr :=
  [ CSRRW A0 Mscratch A0;
    SD A1 0 A0;
    SD A2 8 A0;
    SD A3 16 A0;
    LD A1 24 A0;                (* CLINT_MTIMECMP(hart) *)
    LD A2 32 A0;                (* interval *)
    LD A3 0 A1;
    ADD A3 A3 A2;
    SD A3 0 A1;
    LI A1 2;
    CSRW Sip A1;
    LD A3 16 A0;
    LD A2 8 A0;
    LD A1 0 A0;
    CSRRW A0 Mscratch A0;
    MRET ].

(** ** [kernel/swtch.S] *)

Definition swtch_code : list instr :=
  [ SD Ra 0 A0;
    SD Sp 8 A0;
    SD S0 16 A0;
    SD S1 24 A0;
    SD S2 32 A0;
    SD S3 40 A0;
    SD S4 48 A0;
    SD S5 56 A0;
    SD S6 64 A0;
    SD S7 72 A0;
    SD S8 80 A0;
    SD S9 88 A0;
    SD S10 96 A0;
    SD S11 104 A0;
    LD Ra 0 A1;
    LD Sp 8 A1;
    LD S0 16 A1;
    LD S1 24 A1;
    LD S2 32 A1;
    LD S3 40 A1;
    LD S4 48 A1;
    LD S5 56 A1;
    LD S6 64 A1;
    LD S7 72 A1;
    LD S8 80 A1;
    LD S9 88 A1;
    LD S10 96 A1;
    LD S11 104 A1;
    RET ].

(** ** [kernel/entry.S] *)

Definition entry_code (stack0 start spin : Z) : list instr :=
  [ LA Sp stack0;
    LI A0 (1024 * 4);
    CSRR A1 Mhartid;
    ADDI A1 A1 1;
    MUL A0 A0 A1;
    ADD Sp Sp A0;
    CALL start spin ].
Definition spin_code (spin : Z) : list instr := [ J spin ].

(** ** [user/initcode.S] *)

Definition start_code (init argv : Z) : list instr :=
  [ LA A0 init;
    LA A1 argv;
    LI A7 7;                    (* SYS_exec *)
    ECALL ].
(** [jal exit] leaves the address after it in [ra]. *)
Definition exit_code (exit back : Z) : list instr :=
  [ LI A7 2;                    (* SYS_exit *)
    ECALL;
    CALL exit back ].

(** ** [user/usys.pl] *)

(** The stub [entry] prints for a call, and the calls it is printed for, with
    the numbers of [kernel/syscall.h]. *)
Definition usys_entry (number : Z) : list instr :=
  [ LI A7 number;
    ECALL;
    RET ].
Definition usys : list (string * Z) :=
  [ ("fork", 1); ("exit", 2); ("wait", 3); ("pipe", 4); ("read", 5); ("write", 16);
    ("close", 21); ("kill", 6); ("exec", 7); ("open", 15); ("mknod", 17); ("unlink", 18);
    ("fstat", 8); ("link", 19); ("mkdir", 20); ("chdir", 9); ("dup", 10); ("getpid", 11);
    ("sbrk", 12); ("sleep", 13); ("uptime", 14); ("trace", 22); ("setpriority", 24);
    ("waitx", 26); ("sigalarm", 23); ("sigreturn", 27) ]%string.

(** ** Encoding

    The instructions of [user/initcode.S] as the words of the instruction set;
    [la] is the pair [auipc], [addi] relative to the place of the first. *)
Definition reg_no (r : reg) : Z :=
  match r with Ra => 1 | A0 => 10 | A1 => 11 | A7 => 17 | _ => 0 end.
Definition word (w : Z) : list Z :=
  [w mod 256; w / 256 mod 256; w / 65536 mod 256; w / 16777216 mod 256].
Definition addi_word (rd rs imm : Z) : Z := Z.shiftl imm 20 + Z.shiftl rs 15 + Z.shiftl rd 7 + 0x13.
Definition auipc_word (rd imm : Z) : Z := Z.shiftl imm 12 + Z.shiftl rd 7 + 0x17.
Definition jal_word (rd off : Z) : Z :=
  let o := off mod 2 ^ 21 in
  Z.shiftl (Z.shiftr o 20) 31 + Z.shiftl (Z.land (Z.shiftr o 1) 0x3FF) 21 +
  Z.shiftl (Z.land (Z.shiftr o 11) 1) 20 + Z.shiftl (Z.land (Z.shiftr o 12) 0xFF) 12 +
  Z.shiftl rd 7 + 0x6F.
Definition encode (pc : Z) (i : instr) : list Z :=
  match i with
  | LA rd symbol => word (auipc_word (reg_no rd) 0) ++ word (addi_word (reg_no rd) (reg_no rd) (symbol - pc))
  | LI rd imm => word (addi_word (reg_no rd) 0 imm)
  | ECALL => word 0x73
  | CALL target _ => word (jal_word (reg_no Ra) (target - pc))
  | _ => []
  end.
Fixpoint assemble (pc : Z) (code : list instr) : list Z :=
  match code with
  | [] => []
  | i :: code' => let bs := encode pc i in bs ++ assemble (pc + Z.of_nat (length bs)) code'
  end.
