(* ===== verification/AsmSpec.v ===== *)
(** * Saving and restoring registers

    What the routines of [Asm.v] do to the registers and to memory: the trap
    entry and exit of the trampoline across a change of page table, the trap
    entry of the kernel, the timer interrupt, the switch of contexts and the
    entry of a hart. The page tables are the trees of [PageTable.v]; the
    hardware's walk finds the entry the kernel's [walk] finds. *)

From S2P Require Import Prelude Riscv Memory Machine Spinlock Kalloc Vm PageTable VmWalk VmMap VmSample Cstring ProcFs Trap Asm.

(** ** The hardware walk *)

Lemma MAKE_SATP_eq p : 0 <= p < 2 ^ 56 -> MAKE_SATP p = 8 * 2 ^ 60 + p / PGSIZE.
Proof.
  intros Hp. unfold MAKE_SATP, SATP_SV39. rewrite Z.shiftr_div_pow2 by lia.
  change (2 ^ 12) with PGSIZE. apply lor_shiftl_add; [lia|].
  unfold PGSIZE. dlia.
Qed.
Lemma satp_root_MAKE p : 0 <= p < 2 ^ 56 -> page_aligned p -> satp_root (MAKE_SATP p) = p.
Proof.
  intros Hp Ha. rewrite MAKE_SATP_eq by done. unfold satp_root. rewrite Z.land_ones by lia.
  rewrite Z.shiftl_mul_pow2 by lia. unfold page_aligned, PGSIZE in *.
  change (2 ^ 44) with 17592186044416. change (8 * 2 ^ 60) with 9223372036854775808.
  change (2 ^ 56) with 72057594037927936 in Hp. change (2 ^ 12) with 4096. dlia.
Qed.
Lemma satp_mode_MAKE p : 0 <= p < 2 ^ 56 -> satp_mode (MAKE_SATP p) = 8.
Proof.
  intros Hp. rewrite MAKE_SATP_eq by done. unfold satp_mode. rewrite Z.shiftr_div_pow2 by lia.
  unfold PGSIZE. change (2 ^ 56) with 72057594037927936 in Hp.
  change (2 ^ 60) with 1152921504606846976. dlia.
Qed.

(** A leaf of a page: the flags allow the access and are not those of a user
    page. *)
Definition grants (f want : Z) : bool :=
  bit f PTE_V && bit f PTE_R && bit f want && negb (bit f PTE_U).

Lemma bit_mk pa f x :
  0 <= pa < 2 ^ 56 -> 0 <= f < 1024 -> Z.land x 0x3FF = x -> bit (Z.lor (PA2PTE pa) f) x = bit f x.
Proof.
  intros Hpa Hf Hx. unfold bit. rewrite <- (land_PTE_FLAGS _ x) by done.
  by rewrite PTE_FLAGS_mk.
Qed.
Lemma mk_pte_54 pa f :
  0 <= pa < 2 ^ 56 -> 0 <= f < 1024 -> (2 ^ 54 <=? Z.lor (PA2PTE pa) f) = false.
Proof.
  intros Hpa Hf. rewrite mk_pte_eq by done. apply Z.leb_gt. unfold PGSIZE.
  change (2 ^ 56) with 72057594037927936 in Hpa. change (2 ^ 54) with 18014398509481984. dlia.
Qed.

Section walks.
Context {KI : KernelImage}.

Lemma sv39_inner m level table va want q :
  kpage q -> load64 m (table + 8 * PX (Z.of_nat (S level)) va) = inner (Some q) ->
  sv39 m (S level) table va want = sv39 m level q va want.
Proof.
  intros Hq Hpte. destruct (kpage_pa q Hq) as [Hr Ha]. cbn [sv39]. rewrite Hpte. cbn [inner].
  rewrite !bit_mk, mk_pte_54, PTE2PA_mk by done. done.
Qed.

Lemma sv39_leaf m table va want pa f :
  load64 m (table + 8 * PX 0 va) = Z.lor (PA2PTE pa) f ->
  0 <= pa < 2 ^ 56 -> page_aligned pa -> 0 <= f < 1024 -> Z.land want 0x3FF = want ->
  grants f want = true ->
  sv39 m 0 table va want = Some (pa + va mod PGSIZE).
Proof.
  intros Hpte Hpa Hal Hf Hw Hg. apply andb_prop in Hg as [Hg Hu]. apply andb_prop in Hg as [Hg Hg'].
  apply andb_prop in Hg as [Hv Hr]. apply negb_true_iff in Hu.
  cbn [sv39]. change (Z.of_nat 0) with 0. rewrite Hpte, !bit_mk, mk_pte_54, PTE2PA_mk by done.
  rewrite Hv, Hr, Hg', Hu. cbn -[Z.modulo PXSHIFT Z.pow]. change (2 ^ PXSHIFT 0) with PGSIZE.
  unfold page_aligned in Hal. by rewrite Hal.
Qed.

(** The hardware finds the entry of the tree. *)
Lemma sv39_tree m T va want pa f :
  pt_ok m T -> 0 <= va < MAXVA -> pte_at m T va = Z.lor (PA2PTE pa) f ->
  0 <= pa < 2 ^ 56 -> page_aligned pa -> 0 <= f < 1024 -> Z.land want 0x3FF = want ->
  grants f want = true ->
  sv39 m 2 (pt_root T) va want = Some (pa + va mod PGSIZE).
Proof.
  intros Hok Hva Hpte Hpa Hal Hf Hw Hg. unfold pte_at in Hpte.
  destruct (pt_l0 T !! _) as [q|] eqn:E0.
  2: { exfalso. assert (Hz : bit (Z.lor (PA2PTE pa) f) PTE_V = false) by by rewrite <- Hpte.
       rewrite bit_mk in Hz by done. unfold grants in Hg. by rewrite Hz in Hg. }
  destruct (po_dom0 _ _ Hok _ _ _ E0) as [[p E1] _].
  rewrite (sv39_inner _ 1 _ _ _ p).
  - rewrite (sv39_inner _ 0 _ _ _ q).
    + by apply (sv39_leaf _ _ _ _ _ f).
    + apply (po_page _ _ Hok). right; right; eauto.
    + rewrite <- E0. apply (po_ent1 _ _ Hok); [done|]. by apply PX_idx.
  - apply (po_page _ _ Hok). right; left; eauto.
  - rewrite <- E1. apply (po_ent2 _ _ Hok). by apply PX_idx.
Qed.

Lemma translate_tree m T va want pa f :
  pt_ok m T -> 0 <= va < MAXVA -> pte_at m T va = Z.lor (PA2PTE pa) f ->
  0 <= pa < 2 ^ 56 -> page_aligned pa -> 0 <= f < 1024 -> Z.land want 0x3FF = want ->
  grants f want = true ->
  translate Supervisor m (MAKE_SATP (pt_root T)) va want = Some (pa + va mod PGSIZE).
Proof.
  intros Hok Hva Hpte Hpa Hal Hf Hw Hg.
  destruct (kpage_pa (pt_root T)) as [Hr Ha]; [apply (po_page _ _ Hok); by left|].
  unfold translate. rewrite satp_mode_MAKE, satp_root_MAKE by done. simpl.
  unfold canonical. rewrite MAXVA_pow in Hva.
  destruct (Z.leb_spec 0 va), (Z.ltb_spec va (2 ^ 38)); try lia. simpl.
  by apply (sv39_tree _ _ _ _ _ f).
Qed.
End walks.

(** ** Areas of memory

    [keeps lo n m m']: [m'] differs from [m] only in [lo, lo+n). An [area]
    is a stretch of [n] bytes the running code may read and write: the data
    is at the virtual address [va] and the physical address [pa], the code at
    [cva] and [cpa], and no change of the area itself changes that. *)
Definition keeps (lo n : Z) (m m' : memory) : Prop :=
  forall a, ~ (lo <= a < lo + n) -> mget m' a = mget m a.

Lemma keeps_refl lo n m : keeps lo n m m.
Proof. by intros a Ha. Qed.
Lemma keeps_trans lo n m m' m'' : keeps lo n m m' -> keeps lo n m' m'' -> keeps lo n m m''.
Proof. intros H H' a Ha. by rewrite H', H. Qed.
Lemma keeps_store lo n m o v : 0 <= o -> o + 8 <= n -> keeps lo n m (store64 m (lo + o) v).
Proof. intros Ho Hn a Ha. apply mget_store64_ne. lia. Qed.
Lemma keeps_load64 lo n m m' a :
  keeps lo n m m' -> a + 8 <= lo \/ lo + n <= a -> load64 m' a = load64 m a.
Proof. intros H Ha. apply load_le_ext. intros b Hb. apply H. lia. Qed.

Record area (md : mode) (satp : Z) (m : memory) (cva cpa va pa n : Z) : Prop := mk_area {
  ar_code m' : keeps pa n m m' -> translate md m' satp cva PTE_X = Some cpa;
  ar_data m' i want : keeps pa n m m' -> 0 <= i < n -> want = PTE_R \/ want = PTE_W ->
    translate md m' satp (va + i) want = Some (pa + i);
  ar_aligned : va mod 8 = 0;
  ar_range : 0 <= va /\ va + n <= 2 ^ 64
}.
Definition area_of (h : hart) : Z -> Z -> Z -> Z -> Z -> Prop :=
  area (h_mode h) (h_csr h Satp) (h_mem h).

Lemma area_keeps md satp m m' cva cpa va pa n :
  area md satp m cva cpa va pa n -> keeps pa n m m' -> area md satp m' cva cpa va pa n.
Proof. intros [Hc Hd Ha Hr] Hk. split; [| |done..]; eauto using keeps_trans. Qed.

Section area.
Context {KI : KernelImage}.

(** A page of the tree that is not one of its tables is an area. *)
Lemma area_tree m T cva cpa va pa fc fd :
  pt_ok m T -> 0 <= cva < MAXVA -> 0 <= va < MAXVA -> page_aligned cva -> page_aligned va ->
  pte_at m T cva = Z.lor (PA2PTE cpa) fc -> pte_at m T va = Z.lor (PA2PTE pa) fd ->
  0 <= cpa < 2 ^ 56 -> page_aligned cpa -> kpage pa -> ~ pt_page T pa ->
  0 <= fc < 1024 -> 0 <= fd < 1024 ->
  grants fc PTE_X = true -> grants fd PTE_R && grants fd PTE_W = true ->
  area Supervisor (MAKE_SATP (pt_root T)) m cva cpa va pa PGSIZE.
Proof.
  intros Hok Hcva Hva Hca Hda Hc Hd Hcpa Hcal Hpa Hnt Hfc Hfd Hx Hrw.
  destruct (kpage_pa pa Hpa) as [Hpr Hpal]. apply andb_prop in Hrw as [Hr Hw].
  assert (Hkeep : forall m', keeps pa PGSIZE m m' -> pt_ok m' T /\ forall a, pte_at m' T a = pte_at m T a).
  { intros m' Hk. apply pt_ok_ext; [done|]. intros p a Hp Ha. apply Hk. intros Hin. apply Hnt.
    rewrite (kpage_disj pa p a); [done| |by apply (po_page _ _ Hok)| |done]; [done|].
    unfold in_page. lia. }
  unfold page_aligned in *. split.
  - intros m' [Hok' He]%Hkeep. rewrite (translate_tree m' T cva PTE_X cpa fc); try done.
    + rewrite Hca. f_equal. lia.
    + by rewrite He.
  - intros m' i want [Hok' He]%Hkeep Hi Hwant.
    assert (Hp : pte_at m' T (va + i) = pte_at m' T va).
    { apply pte_at_page; [| |unfold same_page]; rewrite ?MAXVA_pow in *; unfold PGSIZE in *; dlia. }
    rewrite (translate_tree m' T (va + i) want pa fd); try done.
    + f_equal. rewrite Z.add_mod, Hda, Z.add_0_l, Z.mod_mod, Z.mod_small; unfold PGSIZE in *; lia.
    + rewrite MAXVA_pow in *. unfold PGSIZE in *. dlia.
    + by rewrite Hp, He.
    + by destruct Hwant as [-> | ->].
    + by destruct Hwant as [-> | ->].
  - unfold PGSIZE in *. dlia.
  - rewrite MAXVA_pow in *. unfold PGSIZE in *. dlia.
Qed.
End area.

(** In machine mode every area of memory is one. *)
Lemma area_machine satp m cva va n :
  va mod 8 = 0 -> 0 <= va -> va + n <= 2 ^ 64 -> area Machine_mode satp m cva cva va va n.
Proof. intros. by split. Qed.

(** A part of an area. *)
Lemma area_sub md satp m cva cpa va pa n o n' :
  area md satp m cva cpa va pa n -> 0 <= o -> o mod 8 = 0 -> 0 <= n' -> o + n' <= n ->
  area md satp m cva cpa (va + o) (pa + o) n'.
Proof.
  intros [Hc Hd Ha Hr] Ho Hal Hn Hon.
  assert (Hk : forall m', keeps (pa + o) n' m m' -> keeps pa n m m') by (intros m' H a Hi; apply H; lia).
  split; [eauto| |dlia|lia]. intros m' i want H Hi Hw.
  replace (va + o + i) with (va + (o + i)) by lia. rewrite (Hd _ _ _ (Hk _ H)) by (done || lia).
  f_equal. lia.
Qed.

(** ** Sequences of stores and loads *)

Definition saves (l : list (reg * Z)) (base : reg) : list instr :=
  map (fun ro => SD ro.1 ro.2 base) l.
Definition loads (l : list (reg * Z)) (base : reg) : list instr :=
  map (fun ro => LD ro.1 ro.2 base) l.

Definition save_regs (l : list (reg * Z)) (g : reg -> Z) (pa : Z) (m : memory) : memory :=
  fold_left (fun m ro => store64 m (pa + ro.2) (g ro.1)) l m.
Definition load_regs (l : list (reg * Z)) (m : memory) (pa : Z) (g : reg -> Z) : reg -> Z :=
  fold_left (fun g ro => upd_reg ro.1 (load64 m (pa + ro.2)) g) l g.
Definition set_regs (g : reg -> Z) (h : hart) : hart := mk_hart (h_mode h) g (h_csr h) (h_mem h).

(** Slots of eight bytes in an area of [n] bytes. *)
Definition slot_in (n o : Z) : bool := (0 <=? o) && (o + 8 <=? n) && (o mod 8 =? 0).
Definition slots (n : Z) (l : list (reg * Z)) : bool := forallb (fun ro => slot_in n ro.2) l.

Lemma slot_in_spec n o : slot_in n o = true -> 0 <= o /\ o + 8 <= n /\ o mod 8 = 0.
Proof. unfold slot_in. rewrite !andb_true_iff. lia. Qed.

Lemma step_SD h cva cpa va pa n rs o base :
  area_of h cva cpa va pa n -> h_reg h base = va -> slot_in n o = true ->
  step (SD rs o base) h = Some (Next, set_mem (store64 (h_mem h) (pa + o) (h_reg h rs)) h).
Proof.
  intros [_ Hd Ha Hr] Hb (Ho & Hn & Hal)%slot_in_spec. cbn [step]. unfold store, access.
  rewrite Hb, u64_small by lia. replace ((va + o) mod 8) with 0 by dlia. cbn -[Z.add].
  rewrite Hd; [done|apply keeps_refl|lia|by right].
Qed.
Lemma step_LD h cva cpa va pa n rd o base :
  area_of h cva cpa va pa n -> h_reg h base = va -> slot_in n o = true ->
  step (LD rd o base) h = Some (Next, set_reg rd (load64 (h_mem h) (pa + o)) h).
Proof.
  intros [_ Hd Ha Hr] Hb (Ho & Hn & Hal)%slot_in_spec. cbn [step]. unfold load, access.
  rewrite Hb, u64_small by lia. replace ((va + o) mod 8) with 0 by dlia. cbn -[Z.add].
  rewrite Hd; [done|apply keeps_refl|lia|by left].
Qed.

Lemma run_next cva cpa i code h h' :
  access h cva PTE_X = Some cpa -> step i h = Some (Next, h') ->
  run cva cpa (i :: code) h = run cva cpa code h'.
Proof. intros Ha Hs. cbn [run]. by rewrite Ha, Z.eqb_refl, Hs. Qed.
Lemma run_jump cva cpa i code h f h' :
  access h cva PTE_X = Some cpa -> step i h = Some (f, h') -> f <> Next ->
  run cva cpa (i :: code) h = Some (f, code, h').
Proof. intros Ha Hs Hf. cbn [run]. rewrite Ha, Z.eqb_refl, Hs. by destruct f. Qed.
Lemma area_fetch h cva cpa va pa n : area_of h cva cpa va pa n -> access h cva PTE_X = Some cpa.
Proof. intros H. apply H, keeps_refl. Qed.

(** Slots in [lo, hi). *)
Definition between (lo hi : Z) (l : list (reg * Z)) : bool :=
  forallb (fun ro => (lo <=? ro.2) && (ro.2 + 8 <=? hi)) l.

Lemma keeps_save_regs l g pa lo hi m :
  between lo hi l = true -> keeps (pa + lo) (hi - lo) m (save_regs l g pa m).
Proof.
  revert m. induction l as [|[r o] l IH]; intros m; simpl; [intros; apply keeps_refl|].
  rewrite !andb_true_iff. intros [Ho Hl].
  eapply keeps_trans; [|by apply IH]. replace (pa + o) with (pa + lo + (o - lo)) by lia.
  apply keeps_store; lia.
Qed.

Lemma run_saves cva cpa va pa n base l code h :
  area_of h cva cpa va pa n -> h_reg h base = va -> slots n l = true ->
  run cva cpa (saves l base ++ code) h =
  run cva cpa code (set_mem (save_regs l (h_reg h) pa (h_mem h)) h).
Proof.
  revert h. induction l as [|[r o] l IH]; intros h Ha Hb Hl; [by destruct h|].
  simpl in Hl. apply andb_prop in Hl as [Ho Hl]. cbn [saves map app].
  erewrite run_next; [|by eapply area_fetch|by eapply step_SD].
  rewrite IH; [done| |done..]. apply slot_in_spec in Ho as (?&?&?).
  eapply area_keeps; [done|]. by apply keeps_store.
Qed.

Lemma run_loads cva cpa va pa n base l code h :
  area_of h cva cpa va pa n -> h_reg h base = va -> slots n l = true ->
  (forall o, (base, o) ∈ l -> load64 (h_mem h) (pa + o) = va) ->
  run cva cpa (loads l base ++ code) h =
  run cva cpa code (set_regs (load_regs l (h_mem h) pa (h_reg h)) h).
Proof.
  revert h. induction l as [|[r o] l IH]; intros h Ha Hb Hl Hbase; [by destruct h|].
  simpl in Hl. apply andb_prop in Hl as [Ho Hl]. cbn [loads map app].
  erewrite run_next; [|by eapply area_fetch|by eapply step_LD].
  rewrite IH; [done|done| |done|].
  - cbn. unfold upd_reg. case_decide as E; [|done]. apply Hbase. rewrite E. by left.
  - intros o' Ho'. apply Hbase. by right.
Qed.

Lemma save_regs_other l g pa n m o :
  slots n l = true -> o mod 8 = 0 -> o ∉ l.*2 -> load64 (save_regs l g pa m) (pa + o) = load64 m (pa + o).
Proof.
  revert m. induction l as [|[r o'] l IH]; intros m; [done|].
  simpl. intros [Ho Hl]%andb_prop Hal Hni. apply not_elem_of_cons in Hni as [Hne Hni].
  rewrite IH by done. apply load_store64_ne. apply slot_in_spec in Ho as (?&?&?). dlia.
Qed.
Lemma save_regs_get l g pa n m r o :
  slots n l = true -> NoDup l.*2 -> (r, o) ∈ l -> load64 (save_regs l g pa m) (pa + o) = u64 (g r).
Proof.
  revert m. induction l as [|[r' o'] l IH]; intros m; [by intros _ _ ?%elem_of_nil|].
  intros Hs Hnd Hin. assert (Hl : slots n l = true) by (simpl in Hs; by apply andb_prop in Hs as [_ ?]).
  apply list.NoDup_cons in Hnd as [Hni Hnd]. apply elem_of_cons in Hin as [[= -> ->]|Hin].
  - change (load64 (save_regs l g pa (store64 m (pa + o') (g r'))) (pa + o') = u64 (g r')).
    erewrite save_regs_other; [apply load_store64|done| |done].
    simpl in Hs. apply andb_prop in Hs as [?%slot_in_spec _]. lia.
  - by apply IH.
Qed.

Lemma load_regs_other l m pa g r : r ∉ l.*1 -> load_regs l m pa g r = g r.
Proof.
  revert g. induction l as [|[r' o'] l IH]; intros g; [done|].
  intros [Hne Hni]%not_elem_of_cons.
  change (load_regs l m pa (upd_reg r' (load64 m (pa + o')) g) r = g r). rewrite IH by done.
  unfold upd_reg. by rewrite decide_False.
Qed.
Lemma load_regs_get l m pa g r o :
  NoDup l.*1 -> (r, o) ∈ l -> load_regs l m pa g r = load64 m (pa + o).
Proof.
  revert g. induction l as [|[r' o'] l IH]; intros g; [by intros _ ?%elem_of_nil|].
  intros [Hni Hnd]%list.NoDup_cons [[= -> ->]|Hin]%elem_of_cons; [|by apply IH].
  change (load_regs l m pa (upd_reg r' (load64 m (pa + o')) g) r' = load64 m (pa + o')).
  rewrite load_regs_other by done. unfold upd_reg. by rewrite decide_True.
Qed.
Lemma slot_unique (l : list (reg * Z)) r o o' : NoDup l.*1 -> (r, o) ∈ l -> (r, o') ∈ l -> o = o'.
Proof.
  induction l as [|[r' o''] l IH]; [by intros _ ?%elem_of_nil|]. intros [Hni Hnd]%list.NoDup_cons.
  assert (Hf : forall x, (r', x) ∈ l -> False) by (intros x Hx; apply Hni, list_elem_of_fmap; by exists (r', x)).
  intros [[= -> ->]|H]%elem_of_cons [E|H']%elem_of_cons; [congruence|by apply Hf in H'| |by apply IH].
  injection E as -> ->. by apply Hf in H.
Qed.

(** ** The trampoline *)

(** Where [struct trapframe] keeps a register. *)
Definition tf_slot (r : reg) : Z :=
  match r with
  | Ra => 40 | Sp => 48 | Gp => 56 | Tp => 64 | T0 => 72 | T1 => 80 | T2 => 88 | S0 => 96 | S1 => 104
  | A0 => 112 | A1 => 120 | A2 => 128 | A3 => 136 | A4 => 144 | A5 => 152 | A6 => 160 | A7 => 168
  | S2 => 176 | S3 => 184 | S4 => 192 | S5 => 200 | S6 => 208 | S7 => 216 | S8 => 224 | S9 => 232
  | S10 => 240 | S11 => 248 | T3 => 256 | T4 => 264 | T5 => 272 | T6 => 280
  end.

Definition regs_but_a0 : list reg :=
  [Ra; Sp; Gp; Tp; T0; T1; T2; S0; S1; A1; A2; A3; A4; A5; A6; A7;
   S2; S3; S4; S5; S6; S7; S8; S9; S10; S11; T3; T4; T5; T6].
Definition tf_regs : list (reg * Z) := map (fun r => (r, tf_slot r)) regs_but_a0.

Definition regs_ok (h : hart) : Prop := forall r, 0 <= h_reg h r < 2 ^ 64.

(** Closed facts about the tables of slots. *)
Ltac closed := apply (bool_decide_unpack _); vm_compute; exact I.

Lemma tf_regs_slots : slots PGSIZE tf_regs = true.
Proof. reflexivity. Qed.
Lemma tf_regs_nodup1 : NoDup tf_regs.*1.
Proof. closed. Qed.
Lemma tf_regs_nodup2 : NoDup tf_regs.*2.
Proof. closed. Qed.
Lemma tf_regs_in r : r <> A0 -> (r, tf_slot r) ∈ tf_regs.
Proof. intros. destruct r; try done; closed. Qed.

Section trampoline.
Context {KI : KernelImage}.

(** The mappings [proc_pagetable] and [kvmmake] make: the trampoline page in
    both tables, the trapframe in the user's, none of them a table. *)
Record tramp_view (m : memory) (T K : ptree) (tf : Z) : Prop := mk_tramp_view {
  tv_user : pt_ok m T;
  tv_kernel : pt_ok m K;
  tv_page : kpage tf;
  tv_outT : ~ pt_page T tf;
  tv_outK : ~ pt_page K tf;
  tv_code : pte_at m T TRAMPOLINE = mk_pte trampoline (Z.lor PTE_R PTE_X);
  tv_data : pte_at m T TRAPFRAME = mk_pte tf (Z.lor PTE_R PTE_W);
  tv_kcode : pte_at m K TRAMPOLINE = mk_pte trampoline (Z.lor PTE_R PTE_X)
}.

Lemma trampoline_pa : 0 <= trampoline < 2 ^ 56 /\ page_aligned trampoline.
Proof.
  pose proof trampoline_range. pose proof trampoline_aligned.
  unfold page_aligned, PHYSTOP, KERNBASE in *. split; [lia|done].
Qed.

Lemma tramp_area m T K tf :
  tramp_view m T K tf ->
  area Supervisor (MAKE_SATP (pt_root T)) m TRAMPOLINE trampoline TRAPFRAME tf PGSIZE.
Proof.
  intros V. destruct trampoline_pa as [Hp Ha].
  pose proof (tv_code _ _ _ _ V) as Hc. pose proof (tv_data _ _ _ _ V) as Hd.
  unfold mk_pte in *. rewrite <- Z.lor_assoc in Hc, Hd.
  eapply area_tree; try exact Hc; try exact Hd; try done; by destruct V.
Qed.

(** The code of the trampoline is mapped by the kernel's table too, whatever
    happens to the trapframe. *)
Lemma tramp_kernel m m' T K tf :
  tramp_view m T K tf -> keeps tf PGSIZE m m' ->
  translate Supervisor m' (MAKE_SATP (pt_root K)) TRAMPOLINE PTE_X = Some trampoline.
Proof.
  intros V Hk. destruct trampoline_pa as [Hp Ha].
  destruct (pt_ok_ext m m' K (tv_kernel _ _ _ _ V)) as [Hok He].
  { intros p a Hpp Hin. apply Hk. intros Hr. apply (tv_outK _ _ _ _ V).
    rewrite (kpage_disj tf p a); [done|apply (tv_page _ _ _ _ V)|by apply (po_page _ _ (tv_kernel _ _ _ _ V))|by unfold in_page|done]. }
  pose proof (tv_kcode _ _ _ _ V) as Hc. unfold mk_pte in Hc. rewrite <- Z.lor_assoc in Hc.
  rewrite (translate_tree m' K TRAMPOLINE PTE_X trampoline (Z.lor (Z.lor PTE_R PTE_X) PTE_V) Hok); [|done|by rewrite He, Hc|done..].
  f_equal. replace (TRAMPOLINE mod PGSIZE) with 0 by done. lia.
Qed.

(** What [uservec] leaves behind: the registers of the user in the trapframe,
    the stack, the hart and the page table of the kernel in place. *)
Record entered (h h' : hart) (tf : Z) : Prop := mk_entered {
  en_mode : h_mode h' = Supervisor;
  en_regs r : load64 (h_mem h') (tf + tf_slot r) = h_reg h r;
  en_sp : h_reg h' Sp = load64 (h_mem h) (tf + TF_kernel_sp);
  en_tp : h_reg h' Tp = load64 (h_mem h) (tf + TF_kernel_hartid);
  en_satp : h_csr h' Satp = load64 (h_mem h) (tf + TF_kernel_satp);
  en_mem : keeps (tf + 40) 248 (h_mem h) (h_mem h')
}.

Lemma uservec_split :
  uservec_code = CSRW Sscratch A0 :: LI A0 TRAPFRAME :: saves tf_regs A0 ++
    CSRR T0 Sscratch :: SD T0 112 A0 :: loads [(Sp, 8); (Tp, 32); (T0, 16); (T1, 0)] A0 ++
    [SFENCE_VMA; CSRW Satp T1; SFENCE_VMA; JR T0].
Proof. reflexivity. Qed.
Lemma userret_split :
  userret_code = SFENCE_VMA :: CSRW Satp A0 :: SFENCE_VMA :: LI A0 TRAPFRAME ::
    loads tf_regs A0 ++ [LD A0 112 A0; SRET].
Proof. reflexivity. Qed.

(** The memory [uservec] leaves. *)
Definition saved_user (h : hart) (tf : Z) : memory :=
  store64 (save_regs tf_regs (h_reg h) tf (h_mem h)) (tf + 112) (h_reg h A0).

Lemma saved_user_keeps h tf : keeps (tf + 40) 248 (h_mem h) (saved_user h tf).
Proof.
  apply (keeps_trans _ _ _ (save_regs tf_regs (h_reg h) tf (h_mem h))).
  - by apply (keeps_save_regs _ _ _ 40 288).
  - unfold saved_user. replace (tf + 112) with (tf + 40 + 72) by lia. apply keeps_store; lia.
Qed.
Lemma saved_user_get h tf r :
  regs_ok h -> load64 (saved_user h tf) (tf + tf_slot r) = h_reg h r.
Proof.
  intros Hr. rewrite <- (u64_small (h_reg h r)) by apply Hr. unfold saved_user.
  destruct (decide (r = A0)) as [->|Hne]; [apply load_store64|].
  rewrite load_store64_ne by (destruct r; simpl; try done; lia).
  eapply save_regs_get; [exact tf_regs_slots|exact tf_regs_nodup2|by apply tf_regs_in].
Qed.
Lemma saved_user_low h tf o :
  0 <= o <= 32 -> load64 (saved_user h tf) (tf + o) = load64 (h_mem h) (tf + o).
Proof. intros Ho. eapply keeps_load64; [apply saved_user_keeps|lia]. Qed.
Lemma saved_user_page h tf : keeps tf PGSIZE (h_mem h) (saved_user h tf).
Proof. intros a Ha. apply saved_user_keeps. unfold PGSIZE in Ha. lia. Qed.

Section uservec.
Variable (h : hart) (T K : ptree) (tf : Z).
Hypothesis Hmode : h_mode h = Supervisor.
Hypothesis Hsatp : h_csr h Satp = MAKE_SATP (pt_root T).
Hypothesis V : tramp_view (h_mem h) T K tf.

(** A hart with the page table of the user and the trapframe in memory. *)
Lemma user_area g :
  h_mode g = h_mode h -> h_csr g Satp = h_csr h Satp -> keeps tf PGSIZE (h_mem h) (h_mem g) ->
  area_of g TRAMPOLINE trampoline TRAPFRAME tf PGSIZE.
Proof using V Hmode Hsatp.
  intros Em Es Hk. unfold area_of. rewrite Em, Hmode, Es, Hsatp.
  eapply area_keeps; [by eapply tramp_area|done].
Qed.
Lemma user_fetch g :
  h_mode g = h_mode h -> h_csr g Satp = h_csr h Satp -> keeps tf PGSIZE (h_mem h) (h_mem g) ->
  access g TRAMPOLINE PTE_X = Some trampoline.
Proof using V Hmode Hsatp. intros. eapply area_fetch. by apply user_area. Qed.
Lemma kernel_fetch g :
  h_mode g = h_mode h -> h_csr g Satp = MAKE_SATP (pt_root K) -> keeps tf PGSIZE (h_mem h) (h_mem g) ->
  access g TRAMPOLINE PTE_X = Some trampoline.
Proof using V Hmode.
  intros Em Es Hk. unfold access. rewrite Em, Hmode, Es. by eapply tramp_kernel.
Qed.

Definition tf_top : list (reg * Z) := [(Sp, 8); (Tp, 32); (T0, 16); (T1, 0)].

(** The hart after the loads at the end of [uservec]. *)
Definition uservec_loaded : hart :=
  mk_hart (h_mode h)
    (load_regs tf_top (saved_user h tf) tf
       (upd_reg T0 (h_reg h A0) (upd_reg A0 (u64 TRAPFRAME) (h_reg h))))
    (fun c => if decide (c = Sscratch) then h_reg h A0 else h_csr h c) (saved_user h tf).

Lemma save_regs_agree l g g' pa m :
  (forall r, r ∈ l.*1 -> g r = g' r) -> save_regs l g pa m = save_regs l g' pa m.
Proof.
  revert m. induction l as [|[r o] l IH]; intros m Hg; [done|]. unfold save_regs in *. simpl.
  rewrite (Hg r) by by left. apply IH. intros r' Hr. apply Hg. by right.
Qed.

Lemma uservec_saves :
  run TRAMPOLINE trampoline uservec_code h =
  run TRAMPOLINE trampoline [SFENCE_VMA; CSRW Satp T1; SFENCE_VMA; JR T0] uservec_loaded.
Proof using V Hmode Hsatp.
  rewrite uservec_split.
  erewrite run_next; [|by apply user_fetch, keeps_refl|reflexivity].
  erewrite run_next; [|by apply user_fetch, keeps_refl|reflexivity].
  erewrite run_saves; [|by apply user_area, keeps_refl|reflexivity|exact tf_regs_slots].
  assert (Hk : keeps tf PGSIZE (h_mem h) (save_regs tf_regs (h_reg h) tf (h_mem h))).
  { replace tf with (tf + 0) at 1 by lia. by apply (keeps_save_regs _ _ _ 0 PGSIZE). }
  cbn [h_mem h_reg set_reg set_csr set_mem].
  rewrite (save_regs_agree _ _ (h_reg h)) by (intros r Hr; unfold upd_reg; rewrite decide_False;
    [done|intros ->; revert Hr; closed]).
  erewrite run_next; [|by apply user_fetch|reflexivity].
  erewrite run_next; [|by apply user_fetch|by eapply step_SD; [by apply user_area| |]].
  erewrite run_loads; [|by apply user_area, saved_user_page|reflexivity..|].
  - reflexivity.
  - intros o Ho. exfalso. revert Ho. closed.
Qed.

Lemma tf_top_get r o : (r, o) ∈ tf_top -> h_reg uservec_loaded r = load64 (h_mem h) (tf + o).
Proof.
  intros Hin. cbn [uservec_loaded h_reg]. erewrite load_regs_get; [|closed|done].
  apply saved_user_low. assert (Ho : o ∈ tf_top.*2) by (apply list_elem_of_fmap; by exists (r, o)).
  cbn in Ho. rewrite !elem_of_cons, elem_of_nil in Ho. lia.
Qed.

Lemma uservec_enters :
  regs_ok h -> load64 (h_mem h) (tf + TF_kernel_satp) = MAKE_SATP (pt_root K) ->
  exists h',
    run TRAMPOLINE trampoline uservec_code h =
      Some (Goto (load64 (h_mem h) (tf + TF_kernel_trap)), [], h') /\
    entered h h' tf.
Proof using V Hmode Hsatp.
  intros Hregs HK. rewrite uservec_saves.
  assert (E1 : h_reg uservec_loaded T1 = MAKE_SATP (pt_root K)).
  { rewrite <- HK. apply tf_top_get. closed. }
  assert (E0 : h_reg uservec_loaded T0 = load64 (h_mem h) (tf + TF_kernel_trap)).
  { apply tf_top_get. closed. }
  erewrite run_next; [|by apply user_fetch, saved_user_page|reflexivity].
  erewrite run_next; [|by apply user_fetch, saved_user_page|reflexivity].
  assert (Hf : access (set_csr Satp (h_reg uservec_loaded T1) uservec_loaded) TRAMPOLINE PTE_X = Some trampoline)
    by (apply kernel_fetch; [done|exact E1|apply saved_user_page]).
  erewrite run_next; [|exact Hf|reflexivity].
  erewrite run_jump; [|exact Hf|reflexivity|done]. eexists. split.
  - do 3 f_equal. cbn [set_csr h_reg]. by rewrite E0.
  - split.
    + done.
    + intros r. by apply saved_user_get.
    + cbn [set_csr h_reg]. apply tf_top_get. closed.
    + cbn [set_csr h_reg]. apply tf_top_get. closed.
    + cbn [set_csr h_csr]. rewrite decide_True by done. apply tf_top_get. closed.
    + apply saved_user_keeps.
Qed.
End uservec.

(** [userret], entered with the page table of the kernel and the [satp] of the
    user in [a0]. *)
Lemma userret_leaves h T K tf :
  h_mode h = Supervisor -> h_csr h Satp = MAKE_SATP (pt_root K) ->
  h_reg h A0 = MAKE_SATP (pt_root T) -> tramp_view (h_mem h) T K tf ->
  exists h',
    run TRAMPOLINE trampoline userret_code h = Some (Sret, [], h') /\
    h_mem h' = h_mem h /\ h_csr h' Satp = MAKE_SATP (pt_root T) /\
    forall r, h_reg h' r = load64 (h_mem h) (tf + tf_slot r).
Proof.
  intros Hm Hs Ha V. rewrite userret_split.
  assert (Hf : access h TRAMPOLINE PTE_X = Some trampoline)
    by (eapply kernel_fetch; [exact Hm|exact V|done|exact Hs|apply keeps_refl]).
  assert (Hu : forall g, area_of (mk_hart (h_mode h) g (h_csr (set_csr Satp (h_reg h A0) h)) (h_mem h))
      TRAMPOLINE trampoline TRAPFRAME tf PGSIZE).
  { intros g. apply (user_area (set_csr Satp (h_reg h A0) h) T K); [done| |done..|apply keeps_refl].
    cbn. by rewrite decide_True. }
  do 2 (erewrite run_next; [|exact Hf|reflexivity]).
  do 2 (erewrite run_next; [|eapply area_fetch, Hu|reflexivity]).
  erewrite run_loads; [|apply Hu|reflexivity|exact tf_regs_slots|].
  2: { intros o Ho%(list_elem_of_fmap_2 fst). exfalso. revert Ho. closed. }
  set (g := load_regs tf_regs _ _ _).
  assert (Hg : g A0 = TRAPFRAME) by (unfold g; rewrite load_regs_other; [reflexivity|closed]).
  erewrite run_next; [|eapply area_fetch, Hu|by eapply step_LD; [apply Hu|exact Hg|reflexivity]].
  erewrite run_jump; [|eapply area_fetch, Hu|reflexivity|done].
  eexists. split; [reflexivity|]. split_and!; [done| |].
  - cbn. by rewrite decide_True.
  - intros r. cbn [set_reg h_reg]. unfold upd_reg. case_decide as E; [by subst r|].
    unfold g. apply load_regs_get; [exact tf_regs_nodup1|by apply tf_regs_in].
Qed.

(** [C5] A trap from user space saves and restores every register. [uservec],
    run with the page table of the user, survives the switch to the page table
    of the kernel, jumps to the trap handler of the trapframe with the kernel
    stack, the hart number and the page table of the trapframe in place, and
    leaves all 31 registers of the user in the trapframe and the rest of
    memory as it was. [userret], run with the page table of the kernel, whatever
    the kernel did in between, leaves to user space with the page table it is
    given and exactly the 31 registers the trapframe then holds. *)
Theorem trap_saves_and_restores h T K tf :
  h_mode h = Supervisor -> h_csr h Satp = MAKE_SATP (pt_root T) ->
  tramp_view (h_mem h) T K tf -> regs_ok h ->
  load64 (h_mem h) (tf + TF_kernel_satp) = MAKE_SATP (pt_root K) ->
  exists h1,
    run TRAMPOLINE trampoline uservec_code h =
      Some (Goto (load64 (h_mem h) (tf + TF_kernel_trap)), [], h1) /\
    entered h h1 tf /\
    forall h2, h_mode h2 = Supervisor -> h_csr h2 Satp = MAKE_SATP (pt_root K) ->
      h_reg h2 A0 = MAKE_SATP (pt_root T) -> tramp_view (h_mem h2) T K tf ->
      exists h3,
        run TRAMPOLINE trampoline userret_code h2 = Some (Sret, [], h3) /\
        h_mem h3 = h_mem h2 /\ h_csr h3 Satp = h_csr h Satp /\
        (forall r, h_reg h3 r = load64 (h_mem h2) (tf + tf_slot r)) /\
        ((forall r, load64 (h_mem h2) (tf + tf_slot r) = load64 (h_mem h1) (tf + tf_slot r)) ->
         forall r, h_reg h3 r = h_reg h r).
Proof.
  intros Hm Hs V Hr HK. destruct (uservec_enters h T K tf Hm Hs V Hr HK) as (h1 & E1 & En).
  exists h1. split_and!; [done..|]. intros h2 Hm2 Hs2 Ha2 V2.
  destruct (userret_leaves h2 T K tf Hm2 Hs2 Ha2 V2) as (h3 & E3 & Em & Es & Hg).
  exists h3. split_and!; [done|done|congruence|done|].
  intros Hsame r. rewrite Hg, Hsame. apply (en_regs _ _ _ En).
Qed.
End trampoline.

(** ** Traps from the kernel *)

(** Where [kernelvec] keeps a register on the stack. *)
Definition kv_slot (r : reg) : Z :=
  match r with
  | Ra => 0 | Sp => 8 | Gp => 16 | Tp => 24 | T0 => 32 | T1 => 40 | T2 => 48 | S0 => 56 | S1 => 64
  | A0 => 72 | A1 => 80 | A2 => 88 | A3 => 96 | A4 => 104 | A5 => 112 | A6 => 120 | A7 => 128
  | S2 => 136 | S3 => 144 | S4 => 152 | S5 => 160 | S6 => 168 | S7 => 176 | S8 => 184 | S9 => 192
  | S10 => 200 | S11 => 208 | T3 => 216 | T4 => 224 | T5 => 232 | T6 => 240
  end.
Definition all_regs : list reg :=
  [Ra; Sp; Gp; Tp; T0; T1; T2; S0; S1; A0; A1; A2; A3; A4; A5; A6; A7;
   S2; S3; S4; S5; S6; S7; S8; S9; S10; S11; T3; T4; T5; T6].
Definition kv_regs : list (reg * Z) := map (fun r => (r, kv_slot r)) all_regs.
Definition kv_back : list (reg * Z) := list_filter (fun ro => ro.1 <> Tp) _ kv_regs.

Definition kernelvec_rest : list instr := loads kv_back Sp ++ [ADDI Sp Sp 256; SRET].

Lemma kernelvec_split kerneltrap back :
  kernelvec_code kerneltrap back =
  ADDI Sp Sp (-256) :: saves kv_regs Sp ++ CALL kerneltrap back :: kernelvec_rest.
Proof. reflexivity. Qed.

Lemma kv_regs_slots : slots 256 kv_regs = true.
Proof. reflexivity. Qed.
Lemma kv_regs_in r : (r, kv_slot r) ∈ kv_regs.
Proof. destruct r; closed. Qed.
Lemma kv_back_in r : r <> Tp -> (r, kv_slot r) ∈ kv_back.
Proof. intros. destruct r; try done; closed. Qed.

Lemma agree_on_load64 a n m m' o :
  agree_on a n m m' -> 0 <= o -> o + 8 <= Z.of_nat n -> load64 m' (a + o) = load64 m (a + o).
Proof. intros H Ho Hn. symmetry. apply load_le_ext. intros b Hb. apply H. lia. Qed.

(** The registers [kernelvec] saves: those of the interrupted code, with the
    stack pointer moved. *)
Definition kv_saved (h : hart) : reg -> Z := upd_reg Sp (h_reg h Sp - 256) (h_reg h).

Lemma kernelvec_saves h cva cpa pa kerneltrap back :
  regs_ok h -> area_of h cva cpa (h_reg h Sp - 256) pa 256 ->
  run cva cpa (kernelvec_code kerneltrap back) h =
  Some (Goto kerneltrap, kernelvec_rest,
    mk_hart (h_mode h) (upd_reg Ra back (kv_saved h)) (h_csr h)
      (save_regs kv_regs (kv_saved h) pa (h_mem h))).
Proof.
  intros Hr Ha. pose proof (Hr Sp) as Hsp. pose proof (ar_range _ _ _ _ _ _ _ _ Ha) as Hrng.
  rewrite kernelvec_split. erewrite run_next; [|by eapply area_fetch|].
  2: { cbn [step]. replace (h_reg h Sp + -256) with (h_reg h Sp - 256) by lia.
       rewrite u64_small by lia. reflexivity. }
  erewrite run_saves; [|exact Ha|reflexivity|exact kv_regs_slots].
  apply run_jump; [|done..]. eapply (area_fetch (set_mem _ _)), area_keeps; [exact Ha|].
  cbn [h_mem set_reg]. replace pa with (pa + 0) at 1 by lia. by apply (keeps_save_regs _ _ _ 0 256).
Qed.

Lemma kernelvec_returns h cva cpa va pa :
  h_reg h Sp = va -> area_of h cva cpa va pa 256 -> load64 (h_mem h) (pa + kv_slot Sp) = va ->
  run cva cpa kernelvec_rest h =
  Some (Sret, [], mk_hart (h_mode h)
    (upd_reg Sp (u64 (va + 256)) (load_regs kv_back (h_mem h) pa (h_reg h))) (h_csr h) (h_mem h)).
Proof.
  intros Hs Ha Hb. unfold kernelvec_rest.
  erewrite run_loads; [|exact Ha|exact Hs|reflexivity|].
  2: { intros o Ho. by rewrite (slot_unique kv_back Sp o (kv_slot Sp)) by (done || closed). }
  erewrite run_next; [|eapply (area_fetch (set_regs _ _)), Ha|reflexivity].
  erewrite run_jump; [|eapply (area_fetch (set_reg _ _ (set_regs _ _))), Ha|reflexivity|done].
  cbn [h_reg set_regs set_reg h_mode h_csr h_mem].
  rewrite (load_regs_get kv_back _ _ _ Sp (kv_slot Sp)) by closed. by rewrite Hb.
Qed.

(** [C19] A trap in the kernel is transparent to the interrupted code.
    [kernelvec] saves the registers in 256 bytes below the stack pointer and
    calls [kerneltrap]; if that returns with the stack pointer and those bytes
    as it found them, whatever else it did, and even on another hart, the rest
    of [kernelvec] returns from the trap with every register the interrupted
    code had, except [tp], which keeps the value of the hart it returns on. *)
Theorem kernel_trap_transparent h cva cpa pa kerneltrap back :
  regs_ok h -> area_of h cva cpa (h_reg h Sp - 256) pa 256 ->
  exists rest h1,
    run cva cpa (kernelvec_code kerneltrap back) h = Some (Goto kerneltrap, rest, h1) /\
    h_reg h1 Sp = h_reg h Sp - 256 /\ h_reg h1 Ra = back /\
    h_mode h1 = h_mode h /\ h_csr h1 = h_csr h /\ keeps pa 256 (h_mem h) (h_mem h1) /\
    forall h2, h_reg h2 Sp = h_reg h1 Sp -> area_of h2 cva cpa (h_reg h Sp - 256) pa 256 ->
      agree_on pa 256 (h_mem h1) (h_mem h2) ->
      exists h3,
        run cva cpa rest h2 = Some (Sret, [], h3) /\ h_mem h3 = h_mem h2 /\ h_csr h3 = h_csr h2 /\
        (forall r, r <> Tp -> h_reg h3 r = h_reg h r) /\ h_reg h3 Tp = h_reg h2 Tp.
Proof.
  intros Hr Ha. pose proof (Hr Sp) as Hsp. pose proof (ar_range _ _ _ _ _ _ _ _ Ha) as Hrng.
  eexists _, _. split; [by apply kernelvec_saves|]. split_and!; [done..| |].
  { cbn [h_mem]. replace pa with (pa + 0) at 1 by lia. by apply (keeps_save_regs _ _ _ 0 256). }
  intros h2 Hs2 Ha2 Hm2. cbn [h_mem h_reg] in *.
  assert (Hg : forall r, load64 (h_mem h2) (pa + kv_slot r) = u64 (kv_saved h r)).
  { intros r. erewrite agree_on_load64; [|exact Hm2|destruct r; done..].
    eapply save_regs_get; [exact kv_regs_slots|closed|apply kv_regs_in]. }
  eexists. split.
  { apply (kernelvec_returns _ _ _ (h_reg h Sp - 256)); [exact Hs2|exact Ha2|].
    rewrite Hg. apply u64_small. cbn. lia. }
  split_and!; [done|done| |].
  - intros r Hne. cbn [h_reg]. unfold upd_reg. case_decide as E.
    + subst r. replace (h_reg h Sp - 256 + 256) with (h_reg h Sp) by lia. by apply u64_small.
    + rewrite (load_regs_get _ _ _ _ r (kv_slot r)); [|closed|by apply kv_back_in].
      rewrite Hg. unfold kv_saved, upd_reg. rewrite decide_False by done. by apply u64_small.
  - cbn [h_reg]. unfold upd_reg. rewrite decide_False by done. apply load_regs_other. closed.
Qed.

(** ** Switching contexts *)

(** Where [struct context] keeps a register, and the registers it keeps. *)
Definition ctx_slot (r : reg) : Z :=
  match r with
  | Ra => 0 | Sp => 8 | S0 => 16 | S1 => 24 | S2 => 32 | S3 => 40 | S4 => 48 | S5 => 56
  | S6 => 64 | S7 => 72 | S8 => 80 | S9 => 88 | S10 => 96 | S11 => 104 | _ => 0
  end.
Definition callee_saved : list reg := [Ra; Sp; S0; S1; S2; S3; S4; S5; S6; S7; S8; S9; S10; S11].
Definition ctx_regs : list (reg * Z) := map (fun r => (r, ctx_slot r)) callee_saved.

Lemma swtch_split : swtch_code = saves ctx_regs A0 ++ loads ctx_regs A1 ++ [RET].
Proof. reflexivity. Qed.
Lemma ctx_regs_slots : slots 112 ctx_regs = true.
Proof. reflexivity. Qed.
Lemma ctx_regs_in r : r ∈ callee_saved -> (r, ctx_slot r) ∈ ctx_regs.
Proof. intros Hr. apply list_elem_of_fmap. eauto. Qed.

(** A call of [swtch(old, new)]: the two contexts are kernel data, which the
    kernel maps where it is, and do not overlap. *)
Record swtch_call (h : hart) (cva cpa old new : Z) : Prop := mk_swtch_call {
  sw_a0 : h_reg h A0 = old;
  sw_a1 : h_reg h A1 = new;
  sw_disj : old + 112 <= new \/ new + 112 <= old;
  sw_old : area_of h cva cpa old old 112;
  sw_new m' : keeps old 112 (h_mem h) m' ->
    area (h_mode h) (h_csr h Satp) m' cva cpa new new 112
}.

Lemma swtch_runs h cva cpa old new :
  swtch_call h cva cpa old new ->
  let m1 := save_regs ctx_regs (h_reg h) old (h_mem h) in
  run cva cpa swtch_code h =
  Some (Goto (load64 (h_mem h) (new + ctx_slot Ra)), [],
    mk_hart (h_mode h) (load_regs ctx_regs (h_mem h) new (h_reg h)) (h_csr h) m1).
Proof.
  intros [E0 E1 Hd Ho Hn] m1. rewrite swtch_split.
  assert (Hk : keeps old 112 (h_mem h) m1).
  { replace old with (old + 0) at 1 by lia. by apply (keeps_save_regs _ _ _ 0 112). }
  erewrite run_saves; [|exact Ho|exact E0|exact ctx_regs_slots]. fold m1.
  erewrite run_loads; [|by apply Hn|exact E1|exact ctx_regs_slots|].
  2: { intros o Ho'%(list_elem_of_fmap_2 fst). exfalso. revert Ho'. closed. }
  erewrite run_jump; [|eapply (area_fetch (set_regs _ (set_mem _ _))); by apply Hn|reflexivity|done].
  cbn [set_regs set_mem h_reg h_mem h_mode h_csr].
  assert (Hsame : load_regs ctx_regs m1 new (h_reg h) = load_regs ctx_regs (h_mem h) new (h_reg h)).
  { unfold load_regs, ctx_regs, callee_saved. cbn [map fold_left fst snd ctx_slot].
    by rewrite !(keeps_load64 _ _ _ _ _ Hk) by lia. }
  rewrite Hsame. by rewrite (load_regs_get _ _ _ _ Ra (ctx_slot Ra)) by closed.
Qed.

(** [C18] [swtch] suspends a thread and resumes it where it was.
    [swtch(old, new)] goes on at the return address [new] holds, with the
    callee-saved registers of [new], the other registers and all memory but
    [old] unchanged; and a later [swtch] to [old], by any thread on any hart,
    returns to where the first call was made from, with the callee-saved
    registers, the stack pointer among them, the caller had then, as long as
    nothing wrote to [old] in between. *)
Theorem swtch_resumes h cva cpa old new :
  regs_ok h -> swtch_call h cva cpa old new ->
  exists h1,
    run cva cpa swtch_code h = Some (Goto (load64 (h_mem h) new), [], h1) /\
    (forall r, r ∈ callee_saved -> h_reg h1 r = load64 (h_mem h) (new + ctx_slot r)) /\
    (forall r, r ∉ callee_saved -> h_reg h1 r = h_reg h r) /\
    h_csr h1 = h_csr h /\ keeps old 112 (h_mem h) (h_mem h1) /\
    forall h2 from, swtch_call h2 cva cpa from old -> agree_on old 112 (h_mem h1) (h_mem h2) ->
      exists h3,
        run cva cpa swtch_code h2 = Some (Goto (h_reg h Ra), [], h3) /\
        forall r, r ∈ callee_saved -> h_reg h3 r = h_reg h r.
Proof.
  intros Hr Hc. eexists. split.
  { rewrite (swtch_runs _ _ _ _ _ Hc). cbn [ctx_slot]. by rewrite Z.add_0_r. }
  cbn [h_reg h_csr h_mem]. split_and!.
  - intros r Hin. apply load_regs_get; [closed|by apply ctx_regs_in].
  - intros r Hni. by apply load_regs_other.
  - done.
  - replace old with (old + 0) at 1 by lia. by apply (keeps_save_regs _ _ _ 0 112).
  - intros h2 from Hc2 Hm2.
    assert (Hg : forall r, r ∈ callee_saved -> load64 (h_mem h2) (old + ctx_slot r) = h_reg h r).
    { intros r Hin. erewrite agree_on_load64; [|exact Hm2|destruct r; done..].
      rewrite (save_regs_get ctx_regs _ _ 112 _ r); [by apply u64_small|done|closed|by apply ctx_regs_in]. }
    eexists. split; [rewrite (swtch_runs _ _ _ _ _ Hc2), (Hg Ra) by closed; reflexivity|].
    intros r Hin. cbn [h_reg]. rewrite <- (Hg r Hin). apply load_regs_get; [closed|by apply ctx_regs_in].
Qed.

(** ** The timer interrupt *)

(** [start]'s [timer_scratch]: three words to save registers in, the address of
    the hart's compare register and the interval. *)
Definition scratch_regs : list (reg * Z) := [(A1, 0); (A2, 8); (A3, 16)].

Lemma timervec_split :
  timervec_code = CSRRW A0 Mscratch A0 :: saves scratch_regs A0 ++
    loads [(A1, 24); (A2, 32)] A0 ++ LD A3 0 A1 :: ADD A3 A3 A2 :: SD A3 0 A1 :: LI A1 2 ::
    CSRW Sip A1 :: loads [(A3, 16); (A2, 8); (A1, 0)] A0 ++ [CSRRW A0 Mscratch A0; MRET].
Proof. reflexivity. Qed.

Lemma machine_area g cva va n :
  h_mode g = Machine_mode -> va mod 8 = 0 -> 0 <= va -> va + n <= 2 ^ 64 -> area_of g cva cva va va n.
Proof. intros Hm. unfold area_of. rewrite Hm. by apply area_machine. Qed.
Lemma machine_fetch g cva : h_mode g = Machine_mode -> access g cva PTE_X = Some cva.
Proof. intros Hm. unfold access. by rewrite Hm. Qed.

(** The timer interrupt of machine mode changes no register of the code it
    interrupts: it moves the compare register by the interval, raises the
    software interrupt the kernel's [devintr] expects, and writes to its own
    scratch words only. *)
Theorem timervec_transparent h cva :
  let scratch := h_csr h Mscratch in
  let cmp := load64 (h_mem h) (scratch + 24) in
  h_mode h = Machine_mode -> regs_ok h ->
  scratch mod 8 = 0 -> 0 <= scratch -> scratch + 40 <= 2 ^ 64 ->
  cmp mod 8 = 0 -> cmp + 8 <= 2 ^ 64 -> cmp + 8 <= scratch \/ scratch + 40 <= cmp ->
  exists h1,
    run cva cva timervec_code h = Some (Mret, [], h1) /\
    (forall r, h_reg h1 r = h_reg h r) /\ h_csr h1 Mscratch = scratch /\ h_csr h1 Sip = 2 /\
    h_csr h1 Satp = h_csr h Satp /\
    load64 (h_mem h1) cmp = u64 (load64 (h_mem h) cmp + load64 (h_mem h) (scratch + 32)) /\
    forall a, ~ (scratch <= a < scratch + 24) -> ~ (cmp <= a < cmp + 8) ->
      mget (h_mem h1) a = mget (h_mem h) a.
Proof.
  intros scratch cmp Hm Hr Hal Hlo Hhi Hcal Hchi Hd. rewrite timervec_split.
  pose proof (load64_range (h_mem h) (scratch + 24)) as Hcr. fold cmp in Hcr.
  assert (Hs : forall g, h_mode g = Machine_mode -> area_of g cva cva scratch scratch 40)
    by (intros; by apply machine_area).
  assert (Hc : forall g, h_mode g = Machine_mode -> area_of g cva cva cmp cmp 8)
    by (intros; apply machine_area; [done|done|apply Hcr|done]).
  erewrite run_next; [|by apply machine_fetch|reflexivity].
  erewrite run_saves; [|by apply Hs|reflexivity..].
  set (m1 := save_regs _ _ _ _).
  assert (Hk : keeps scratch 24 (h_mem h) m1).
  { replace scratch with (scratch + 0) by lia. by apply (keeps_save_regs _ _ _ 0 24). }
  erewrite run_loads; [|by apply Hs|reflexivity..|intros o Ho; exfalso; revert Ho; closed].
  cbn [set_mem set_reg set_csr set_regs h_mem h_reg h_mode h_csr load_regs fold_left fst snd].
  fold scratch. rewrite !(keeps_load64 _ _ _ _ _ Hk) by lia. fold cmp.
  erewrite run_next; [|by apply machine_fetch|by eapply step_LD; [by apply Hc|reflexivity..]].
  erewrite run_next; [|by apply machine_fetch|reflexivity].
  erewrite run_next; [|by apply machine_fetch|by eapply step_SD; [by apply Hc|reflexivity..]].
  do 2 (erewrite run_next; [|by apply machine_fetch|reflexivity]).
  erewrite run_loads; [|by apply Hs|reflexivity..|intros o Ho; exfalso; revert Ho; closed].
  erewrite run_next; [|by apply machine_fetch|reflexivity].
  erewrite run_jump; [|by apply machine_fetch|reflexivity|done].
  eexists. split; [reflexivity|].
  cbn [set_mem set_reg set_csr set_regs h_mem h_reg h_mode h_csr].
  rewrite !Z.add_0_r. rewrite !(keeps_load64 _ _ _ _ cmp Hk) by lia.
  assert (Hm1 : forall r o, (r, o) ∈ scratch_regs -> forall v,
    load64 (store64 m1 cmp v) (scratch + o) = h_reg h r).
  { intros r o Ho v. assert (Hr0 : r <> A0).
    { intros ->. apply (list_elem_of_fmap_2 fst) in Ho. revert Ho. closed. }
    rewrite load_store64_ne.
    - unfold m1. cbn [set_reg set_csr h_reg h_mem]. rewrite (save_regs_get _ _ _ 40 _ r); [|done|closed|done].
      unfold upd_reg. rewrite decide_False by done. by apply u64_small.
    - apply (list_elem_of_fmap_2 snd) in Ho. cbn in Ho. rewrite !elem_of_cons, elem_of_nil in Ho. lia. }
  split_and!; [|reflexivity..| |].
  - intros r. unfold upd_reg at 1. case_decide as E; [by subst r|].
    destruct (decide (r ∈ scratch_regs.*1)) as [Hin|Hni].
    + apply list_elem_of_fmap in Hin as ([r' o] & -> & Hin).
      erewrite load_regs_get; [by apply Hm1|closed|].
      unfold scratch_regs in Hin. set_solver +Hin.
    + cbn in Hni. rewrite !not_elem_of_cons in Hni. destruct Hni as (H1 & H2 & H3 & _).
      rewrite load_regs_other by (cbn; set_solver +H1 H2 H3).
      unfold upd_reg. by rewrite !decide_False.
  - rewrite load_store64. apply u64_small, u64_range.
  - intros a Ha Hca. rewrite mget_store64_ne by done. by apply Hk.
Qed.

(** ** The entry of a hart *)

(** Every hart starts on a stack of its own: [_entry] calls [start] with the
    stack pointer at the end of the page of [stack0] the hart number selects. *)
Theorem entry_stack h cva stack0 start spin :
  h_mode h = Machine_mode -> 0 <= h_csr h Mhartid < Z.of_nat NCPU ->
  0 <= stack0 -> stack0 + 4096 * Z.of_nat NCPU < 2 ^ 64 ->
  exists h1,
    run cva cva (entry_code stack0 start spin) h = Some (Goto start, [], h1) /\
    h_reg h1 Sp = stack0 + 4096 * h_csr h Mhartid + 4096 /\ h_reg h1 Ra = spin /\ h_mem h1 = h_mem h /\ h_csr h1 = h_csr h.
Proof.
  intros Hm Hid Hlo Hhi. unfold entry_code, NCPU in *.
  do 6 (erewrite run_next; [|by apply machine_fetch|reflexivity]).
  erewrite run_jump; [|by apply machine_fetch|reflexivity|done].
  eexists. split; [reflexivity|]. cbn [h_reg h_csr h_mem set_reg].
  split_and!; [|reflexivity..]. unfold upd_reg.
  repeat first [rewrite decide_True by done|rewrite decide_False by done].
  change (u64 (1024 * 4)) with 4096. change (Z.of_nat 8) with 8 in *.
  rewrite (u64_small (_ + 1)), (u64_small (_ * _)), u64_small; lia.
Qed.

(** ** The first user program and the stubs *)

(** The array [initcode] of [proc.c] is [user/initcode.S] assembled at 0, with
    [init] at 0x24 and [argv] right after the string, at 0x2b. *)
Theorem initcode_assembled :
  initcode = assemble 0 (start_code 0x24 0x2b ++ exit_code 0x18 0x24) ++
    bytes_of "/init" ++ [0; 0] ++ word 0x24 ++ word 0 ++ [0].
Proof. vm_compute. reflexivity. Qed.

(** A stub of [usys.pl] enters the kernel with the number of its call in [a7]
    and nothing else changed, and returns to its caller when the kernel comes
    back. *)
Theorem usys_calls h cva cpa number :
  access h cva PTE_X = Some cpa -> 0 <= number < 2 ^ 64 ->
  run cva cpa (usys_entry number) h = Some (Ecall, [RET], set_reg A7 number h) /\
  forall h', access h' cva PTE_X = Some cpa -> run cva cpa [RET] h' = Some (Goto (h_reg h' Ra), [], h').
Proof.
  intros Ha Hn. split.
  - unfold usys_entry. erewrite run_next; [|done|reflexivity]. rewrite (u64_small number) by done.
    by apply run_jump.
  - intros h' Ha'. by apply run_jump.
Qed.

(** The stubs use the numbers of the kernel: the name the kernel has for the
    number of a stub is the name of the stub. The only call without a stub is
    [settickets]. *)
Theorem usys_numbers :
  Forall (fun call => fst <$> syscall_info !! Z.to_nat (call.2 - 1) = Some call.1) usys /\
  forall number, 1 <= number <= 27 -> number ∈ usys.*2 \/ number = 25.
Proof.
  split; [closed|].
  assert (H : Forall (fun n => n ∈ usys.*2 \/ n = 25) (seqZ 1 27)) by closed.
  intros number Hn. rewrite list.Forall_forall in H. apply H, elem_of_seqZ. lia.
Qed.

(** ** Witnesses *)

Module AsmSample.
Import VmSample.

(** Two page tables, a trapframe, a kernel stack and a page of contexts: the
    user's table is made of the pages 0 to 2, the kernel's of 3 to 5 and 8, 9
    and 11; the trapframe is page 6, the stack 7 and the contexts are in 10. *)
Definition U : ptree := mk_ptree (pg 0) {[255 := pg 1]} {[(255, 511) := pg 2]}.
Definition K : ptree :=
  mk_ptree (pg 3) {[255 := pg 4; 2 := pg 8]} {[(255, 511) := pg 5; (2, 0) := pg 9; (2, 1) := pg 11]}.
Definition tf : Z := pg 6.
Definition stack : Z := pg 7.
Definition contexts : Z := pg 10.
Definition RX : Z := Z.lor PTE_R PTE_X.
Definition RW : Z := Z.lor PTE_R PTE_W.

Definition words : list (Z * Z) :=
  [ (pg 0 + 8 * 255, inner (Some (pg 1))); (pg 1 + 8 * 511, inner (Some (pg 2)));
    (pg 2 + 8 * 510, mk_pte tf RW); (pg 2 + 8 * 511, mk_pte trampoline RX);
    (pg 3 + 8 * 255, inner (Some (pg 4))); (pg 3 + 8 * 2, inner (Some (pg 8)));
    (pg 4 + 8 * 511, inner (Some (pg 5)));
    (pg 8, inner (Some (pg 9))); (pg 8 + 8, inner (Some (pg 11)));
    (pg 5 + 8 * 511, mk_pte trampoline RX); (pg 5 + 8 * 509, mk_pte stack RW);
    (pg 9 + 8 * 2, mk_pte 0x80002000 RX); (pg 9 + 8 * 6, mk_pte 0x80006000 RX);
    (pg 11 + 8 * 0x5a, mk_pte contexts RW);
    (tf + TF_kernel_satp, MAKE_SATP (pg 3)); (tf + TF_kernel_sp, KSTACK 0 + PGSIZE);
    (tf + TF_kernel_trap, 0x80002a00); (tf + TF_kernel_hartid, 1);
    (contexts + 112, 0x80001234); (contexts + 120, 0x3fffffc000) ].
Definition mem0 : memory := fold_left (fun m w => store64 m w.1 w.2) words ∅.
Definition satp (T : ptree) (c : creg) : Z := if decide (c = Satp) then MAKE_SATP (pt_root T) else 0.
Definition regs0 (r : reg) : Z := 0x1000 + tf_slot r.

Lemma view0 : tramp_view mem0 U K tf.
Proof.
  split.
  - apply pt_check_ok. vm_compute. reflexivity.
  - apply pt_check_ok. vm_compute. reflexivity.
  - apply kpageb_ok. vm_compute. reflexivity.
  - intros Hp%tree_pages_spec. revert Hp. closed.
  - intros Hp%tree_pages_spec. revert Hp. closed.
  - vm_compute. reflexivity.
  - vm_compute. reflexivity.
  - vm_compute. reflexivity.
Qed.
Lemma regs0_ok md cs m : regs_ok (mk_hart md regs0 cs m).
Proof. intros r. destruct r; vm_compute; split; discriminate || reflexivity. Qed.

(** A trap of the user program, and the return to it. *)
Definition user_hart : hart := mk_hart Supervisor regs0 (satp U) mem0.
Definition return_hart : hart :=
  mk_hart Supervisor (upd_reg A0 (MAKE_SATP (pt_root U)) regs0) (satp K) mem0.

Lemma trap_saves_and_restores_witness :
  exists h1,
    run TRAMPOLINE trampoline uservec_code user_hart = Some (Goto 0x80002a00, [], h1) /\
    entered user_hart h1 tf /\
    exists h3, run TRAMPOLINE trampoline userret_code return_hart = Some (Sret, [], h3) /\
      forall r, h_reg h3 r = load64 mem0 (tf + tf_slot r).
Proof.
  destruct (trap_saves_and_restores user_hart U K tf) as (h1 & E1 & En & H2).
  - reflexivity.
  - reflexivity.
  - exact view0.
  - apply regs0_ok.
  - vm_compute. reflexivity.
  - exists h1. split; [|split; [exact En|]].
    + assert (Hp : load64 (h_mem user_hart) (tf + TF_kernel_trap) = 0x80002a00) by (vm_compute; reflexivity).
      rewrite Hp in E1. exact E1.
    + destruct (H2 return_hart) as (h3 & E3 & _ & _ & Hr & _); [reflexivity..|exact view0|].
      exists h3. split; [exact E3|exact Hr].
Defined.

Definition kernel_hart : hart :=
  mk_hart Supervisor (upd_reg Sp (KSTACK 0 + PGSIZE - 1024) regs0) (satp K) mem0.

Lemma kernel_page cva cpa va pa fc fd :
  pte_at mem0 K cva = mk_pte cpa fc -> pte_at mem0 K va = mk_pte pa fd -> fc = RX -> fd = RW ->
  0 <= cva < MAXVA -> 0 <= va < MAXVA -> page_aligned cva -> page_aligned va ->
  0 <= cpa < 2 ^ 56 -> page_aligned cpa -> kpage pa -> ~ pt_page K pa ->
  area Supervisor (MAKE_SATP (pt_root K)) mem0 cva cpa va pa PGSIZE.
Proof.
  intros Hc Hd -> -> ? ? ? ? ? ? ? ?. unfold mk_pte in *. rewrite <- Z.lor_assoc in Hc, Hd.
  eapply area_tree; try exact Hc; try exact Hd; try done. apply (tv_kernel _ _ _ _ view0).
Qed.

Lemma stack_area :
  area Supervisor (MAKE_SATP (pt_root K)) mem0 0x80006000 0x80006000 (KSTACK 0) stack PGSIZE.
Proof.
  apply (kernel_page _ _ _ _ RX RW); try (vm_compute; done).
  intros Hp%tree_pages_spec. revert Hp. closed.
Qed.
Lemma contexts_area :
  area Supervisor (MAKE_SATP (pt_root K)) mem0 0x80002000 0x80002000 contexts contexts PGSIZE.
Proof.
  apply (kernel_page _ _ _ _ RX RW); try (vm_compute; done).
  intros Hp%tree_pages_spec. revert Hp. closed.
Qed.

Lemma kernel_trap_transparent_witness :
  exists rest h1,
    run 0x80006000 0x80006000 (kernelvec_code 0x80002b00 0x80006810) kernel_hart =
      Some (Goto 0x80002b00, rest, h1) /\
    exists h3, run 0x80006000 0x80006000 rest h1 = Some (Sret, [], h3) /\
      forall r, r <> Tp -> h_reg h3 r = h_reg kernel_hart r.
Proof.
  assert (Ha : area_of kernel_hart 0x80006000 0x80006000 (h_reg kernel_hart Sp - 256) (stack + 2816) 256)
    by (apply (area_sub _ _ _ _ _ _ _ _ 2816 256 stack_area); vm_compute; (done || discriminate)).
  destruct (kernel_trap_transparent kernel_hart 0x80006000 0x80006000 (stack + 2816) 0x80002b00 0x80006810)
    as (rest & h1 & E1 & Hs & Hra & Em & Ec & Hk & H2).
  - intros r. destruct r; vm_compute; split; discriminate || reflexivity.
  - exact Ha.
  - exists rest, h1. split; [exact E1|].
    destruct (H2 h1) as (h3 & E3 & _ & _ & Hr & _); [reflexivity| |by intros ??|].
    + unfold area_of. rewrite Em, Ec. exact (area_keeps _ _ _ _ _ _ _ _ _ Ha Hk).
    + exists h3. split; [exact E3|exact Hr].
Defined.
Definition switch_hart (old new : Z) (m : memory) : hart :=
  mk_hart Supervisor (upd_reg A1 new (upd_reg A0 old regs0)) (satp K) m.

Lemma switch_call m i j :
  keeps contexts PGSIZE mem0 m -> 0 <= i < 30 -> 0 <= j < 30 -> i <> j ->
  swtch_call (switch_hart (contexts + 112 * i) (contexts + 112 * j) m) 0x80002000 0x80002000
    (contexts + 112 * i) (contexts + 112 * j).
Proof.
  intros Hk Hi Hj Hij.
  assert (Ha : forall m' k, keeps contexts PGSIZE mem0 m' -> 0 <= k < 30 ->
    area Supervisor (MAKE_SATP (pt_root K)) m' 0x80002000 0x80002000 (contexts + 112 * k) (contexts + 112 * k) 112).
  { intros m' k Hm Hk'. apply (area_sub _ _ _ _ _ _ _ PGSIZE); [|unfold PGSIZE; dlia..].
    exact (area_keeps _ _ _ _ _ _ _ _ _ contexts_area Hm). }
  split.
  - reflexivity.
  - reflexivity.
  - lia.
  - by apply Ha.
  - intros m' Hm. apply Ha; [|done]. eapply keeps_trans; [exact Hk|].
    intros a Hna. apply Hm. unfold PGSIZE in Hna. lia.
Qed.

(** The thread of context 0 switches to context 1, and is resumed by a thread
    that saves itself in context 2. *)
Lemma swtch_resumes_witness :
  exists h1,
    run 0x80002000 0x80002000 swtch_code (switch_hart (contexts + 112 * 0) (contexts + 112 * 1) mem0) =
      Some (Goto 0x80001234, [], h1) /\
    exists h3,
      run 0x80002000 0x80002000 swtch_code (switch_hart (contexts + 112 * 2) (contexts + 112 * 0) (h_mem h1)) =
        Some (Goto (regs0 Ra), [], h3) /\
      forall r, r ∈ callee_saved -> h_reg h3 r = regs0 r.
Proof.
  destruct (swtch_resumes (switch_hart (contexts + 112 * 0) (contexts + 112 * 1) mem0) 0x80002000 0x80002000
    (contexts + 112 * 0) (contexts + 112 * 1)) as (h1 & E1 & _ & _ & _ & Hk & H2).
  - intros r. destruct r; vm_compute; split; discriminate || reflexivity.
  - apply switch_call; [apply keeps_refl|lia..].
  - exists h1. split.
    + assert (Hp : load64 mem0 (contexts + 112 * 1) = 0x80001234) by (vm_compute; reflexivity).
      cbn [switch_hart h_mem] in E1. rewrite Hp in E1. exact E1.
    + destruct (H2 (switch_hart (contexts + 112 * 2) (contexts + 112 * 0) (h_mem h1)) (contexts + 112 * 2))
        as (h3 & E3 & Hr).
      * apply switch_call; [|lia..]. intros a Ha. apply Hk. unfold PGSIZE in Ha. lia.
      * intros b _. reflexivity.
      * exists h3. split; [exact E3|]. intros r Hin. rewrite Hr by exact Hin.
        destruct r; first [reflexivity|exfalso; revert Hin; closed].
Defined.
End AsmSample.
