(* ===== verification/Hart.v ===== *)
(** * Control registers and the start of a hart

    The accessors of [kernel/riscv.h] as functions on the hart of [Asm.v],
    [start] and [timerinit] of [kernel/start.c] written with them, and what a
    hart is when it enters [main]: on its own stack, in supervisor mode, with
    a timer that [timervec] keeps going. *)

From S2P Require Import Prelude Riscv Memory Asm AsmSpec Boot.

(** ** [kernel/riscv.h] *)

Definition r_mhartid (h : hart) : Z := h_csr h Mhartid.
Definition r_mstatus (h : hart) : Z := h_csr h Mstatus.
Definition w_mstatus (x : Z) : hart -> hart := set_csr Mstatus x.
Definition w_mepc (x : Z) : hart -> hart := set_csr Mepc x.
Definition r_sstatus (h : hart) : Z := h_csr h Sstatus.
Definition w_sstatus (x : Z) : hart -> hart := set_csr Sstatus x.
Definition r_sip (h : hart) : Z := h_csr h Sip.
Definition w_sip (x : Z) : hart -> hart := set_csr Sip x.
Definition r_sie (h : hart) : Z := h_csr h Sie.
Definition w_sie (x : Z) : hart -> hart := set_csr Sie x.
Definition r_mie (h : hart) : Z := h_csr h Mie.
Definition w_mie (x : Z) : hart -> hart := set_csr Mie x.
Definition w_sepc (x : Z) : hart -> hart := set_csr Sepc x.
Definition r_sepc (h : hart) : Z := h_csr h Sepc.
Definition r_medeleg (h : hart) : Z := h_csr h Medeleg.
Definition w_medeleg (x : Z) : hart -> hart := set_csr Medeleg x.
Definition r_mideleg (h : hart) : Z := h_csr h Mideleg.
Definition w_mideleg (x : Z) : hart -> hart := set_csr Mideleg x.
Definition w_stvec (x : Z) : hart -> hart := set_csr Stvec x.
Definition r_stvec (h : hart) : Z := h_csr h Stvec.
Definition w_mtvec (x : Z) : hart -> hart := set_csr Mtvec x.
Definition w_pmpcfg0 (x : Z) : hart -> hart := set_csr Pmpcfg0 x.
Definition w_pmpaddr0 (x : Z) : hart -> hart := set_csr Pmpaddr0 x.
Definition w_satp (x : Z) : hart -> hart := set_csr Satp x.
Definition r_satp (h : hart) : Z := h_csr h Satp.
Definition w_mscratch (x : Z) : hart -> hart := set_csr Mscratch x.
Definition r_scause (h : hart) : Z := h_csr h Scause.
Definition r_stval (h : hart) : Z := h_csr h Stval.
Definition w_mcounteren (x : Z) : hart -> hart := set_csr Mcounteren x.
Definition r_mcounteren (h : hart) : Z := h_csr h Mcounteren.
Definition r_time (h : hart) : Z := h_csr h Time.
Definition r_sp (h : hart) : Z := h_reg h Sp.
Definition r_tp (h : hart) : Z := h_reg h Tp.
Definition w_tp (x : Z) : hart -> hart := set_reg Tp x.
Definition r_ra (h : hart) : Z := h_reg h Ra.

(** [intr_on], [intr_off] and [intr_get] on the register; the kernel's model
    keeps the bit they set in the state of the hart ([Spinlock.v]). *)
Definition sie_on (h : hart) : hart := w_sstatus (Z.lor (r_sstatus h) SSTATUS_SIE) h.
Definition sie_off (h : hart) : hart := w_sstatus (Z.land (r_sstatus h) (Z.lnot SSTATUS_SIE)) h.
Definition sie_get (h : hart) : bool := bit (r_sstatus h) SSTATUS_SIE.

(** ** [kernel/start.c] *)

Section start.
Context {SI : StartImage}.

Definition timerinit_hart (h : hart) : hart :=
  let id := s32 (r_mhartid h) in
  let interval := 1000000 in
  let h := set_mem (store64 (h_mem h) (CLINT_MTIMECMP id) (load64 (h_mem h) CLINT_MTIME + interval)) h in
  let scratch := timer_scratch_addr + 40 * id in
  let h := set_mem (store64 (h_mem h) (scratch + 24) (CLINT_MTIMECMP id)) h in
  let h := set_mem (store64 (h_mem h) (scratch + 32) interval) h in
  let h := w_mscratch scratch h in
  let h := w_mtvec timervec h in
  let h := w_mstatus (Z.lor (r_mstatus h) MSTATUS_MIE) h in
  w_mie (Z.lor (r_mie h) MIE_MTIE) h.

Definition start_hart (h : hart) : hart :=
  let x := r_mstatus h in
  let x := Z.land x (Z.lnot MSTATUS_MPP_MASK) in
  let x := Z.lor x MSTATUS_MPP_S in
  let h := w_mstatus x h in
  let h := w_mepc main_addr h in
  let h := w_satp 0 h in
  let h := w_medeleg 0xffff h in
  let h := w_mideleg 0xffff h in
  let h := w_sie (Z.lor (Z.lor (Z.lor (r_sie h) SIE_SEIE) SIE_STIE) SIE_SSIE) h in
  let h := w_pmpaddr0 0x3fffffffffffff h in
  let h := w_pmpcfg0 0xf h in
  let h := timerinit_hart h in
  let id := s32 (r_mhartid h) in
  w_tp id h.
End start.

(** ** Facts *)

Lemma csr_same c v h : h_csr (set_csr c v h) c = v.
Proof. cbn. by rewrite decide_True. Qed.
Lemma csr_other c c' v h : c <> c' -> h_csr (set_csr c v h) c' = h_csr h c'.
Proof. intros. cbn. by rewrite decide_False by congruence. Qed.

(** Reading a register after a sequence of writes. *)
Ltac csr :=
  repeat first [ rewrite csr_same
               | rewrite csr_other by discriminate
               | progress cbn [set_mem set_reg h_csr h_mem h_mode] ].

(** Interrupts are on after [sie_on], off after [sie_off], and neither touches
    another bit of [sstatus]. *)
Theorem sie_bits h :
  sie_get (sie_on h) = true /\ sie_get (sie_off h) = false /\
  forall n, n <> 1 -> 0 <= n ->
    Z.testbit (r_sstatus (sie_on h)) n = Z.testbit (r_sstatus h) n /\
    Z.testbit (r_sstatus (sie_off h)) n = Z.testbit (r_sstatus h) n.
Proof.
  unfold sie_get, sie_on, sie_off, r_sstatus, w_sstatus. csr.
  assert (Hb : forall n, 0 <= n -> Z.testbit SSTATUS_SIE n = (n =? 1)).
  { intros n Hn. change SSTATUS_SIE with (2 ^ 1). rewrite Z.pow2_bits_eqb by lia. apply Z.eqb_sym. }
  split_and!.
  - unfold bit. replace (Z.land _ SSTATUS_SIE) with SSTATUS_SIE; [done|].
    apply Z.bits_inj'. intros n Hn. rewrite Z.land_spec, Z.lor_spec, Hb by done.
    destruct (n =? 1); [by rewrite orb_true_r|by rewrite andb_false_r].
  - unfold bit. rewrite <- Z.land_assoc, (Z.land_comm (Z.lnot _)), Z.land_lnot_diag. by rewrite Z.land_0_r.
  - intros n Hn Hp. rewrite Z.lor_spec, Z.land_spec, Z.lnot_spec, Hb by done.
    destruct (Z.eqb_spec n 1); [done|]. by rewrite orb_false_r, andb_true_r.
Qed.

Section boot.
Context {SI : StartImage}.

(** [start] on the registers of [Boot.v] and on a hart write the same values. *)
Definition same_regs (r : mregs) (h : hart) : Prop :=
  mstatus r = h_csr h Mstatus /\ mepc r = h_csr h Mepc /\ msatp r = h_csr h Satp /\
  medeleg r = h_csr h Medeleg /\ mideleg r = h_csr h Mideleg /\ msie r = h_csr h Sie /\
  pmpaddr0 r = h_csr h Pmpaddr0 /\ pmpcfg0 r = h_csr h Pmpcfg0 /\ mscratch r = h_csr h Mscratch /\
  mtvec r = h_csr h Mtvec /\ mie r = h_csr h Mie /\ mtp r = h_reg h Tp.

Theorem start_same_regs r h :
  same_regs r h -> 0 <= h_csr h Mhartid < Z.of_nat NCPU ->
  same_regs (start (h_csr h Mhartid) r) (start_hart h).
Proof.
  intros (E1 & E2 & E3 & E4 & E5 & E6 & E7 & E8 & E9 & E10 & E11 & E12) Hid.
  assert (Hs : s32 (h_csr h Mhartid) = h_csr h Mhartid) by (apply s32_small; unfold NCPU in Hid; lia).
  unfold same_regs, start, start_hart, timerinit, timerinit_hart, r_mhartid, r_mstatus, r_sie, r_mie,
    w_mstatus, w_mepc, w_satp, w_medeleg, w_mideleg, w_sie, w_pmpaddr0, w_pmpcfg0, w_mscratch, w_mtvec, w_mie, w_tp.
  cbn [mstatus mepc msatp medeleg mideleg msie pmpaddr0 pmpcfg0 mscratch mtvec mie mtp].
  csr. rewrite !Hs, E1, E6, E11. split_and!; done.
Qed.

(** The memory [start] leaves: the compare register and two words of the
    hart's scratch area. *)
Definition scratch_of (id : Z) : Z := timer_scratch_addr + 40 * id.

Hypothesis scratch_aligned : timer_scratch_addr mod 8 = 0.
Hypothesis scratch_range : KERNBASE <= timer_scratch_addr /\ timer_scratch_addr + 40 * Z.of_nat NCPU <= PHYSTOP.

Lemma scratch_ok id :
  0 <= id < Z.of_nat NCPU ->
  scratch_of id mod 8 = 0 /\ KERNBASE <= scratch_of id /\ scratch_of id + 40 <= PHYSTOP /\
  CLINT_MTIMECMP id mod 8 = 0 /\ 0 <= CLINT_MTIMECMP id /\ CLINT_MTIMECMP id + 8 <= KERNBASE.
Proof using scratch_aligned scratch_range.
  unfold scratch_of, CLINT_MTIMECMP, CLINT, KERNBASE, NCPU in *. intros Hid. split_and!; dlia.
Qed.

Lemma start_hart_mem h :
  let id := s32 (h_csr h Mhartid) in
  h_mem (start_hart h) =
  store64 (store64 (store64 (h_mem h) (CLINT_MTIMECMP id) (load64 (h_mem h) CLINT_MTIME + 1000000))
    (scratch_of id + 24) (CLINT_MTIMECMP id)) (scratch_of id + 32) 1000000.
Proof. reflexivity. Qed.
Lemma start_hart_mstatus h :
  h_csr (start_hart h) Mstatus =
  Z.lor (Z.lor (Z.land (h_csr h Mstatus) (Z.lnot MSTATUS_MPP_MASK)) MSTATUS_MPP_S) MSTATUS_MIE.
Proof. reflexivity. Qed.
Lemma start_hart_mie h : h_csr (start_hart h) Mie = Z.lor (h_csr h Mie) MIE_MTIE.
Proof. reflexivity. Qed.

Lemma bit_lor x f : nz f = true -> bit (Z.lor x f) f = true.
Proof.
  intros Hf. unfold bit. replace (Z.land (Z.lor x f) f) with f; [done|].
  apply Z.bits_inj'. intros n Hn. rewrite Z.land_spec, Z.lor_spec.
  destruct (Z.testbit f n); [by rewrite orb_true_r|by rewrite andb_false_r].
Qed.

(** What [start] leaves for [main] and for [timervec]. *)
Record started (h h' : hart) : Prop := mk_started {
  sd_mepc : h_csr h' Mepc = main_addr;
  sd_satp : h_csr h' Satp = 0;
  sd_mtvec : h_csr h' Mtvec = timervec;
  sd_mscratch : h_csr h' Mscratch = scratch_of (h_csr h Mhartid);
  sd_tp : h_reg h' Tp = h_csr h Mhartid;
  sd_sp : h_reg h' Sp = h_reg h Sp;
  sd_mpp : Z.land (h_csr h' Mstatus) MSTATUS_MPP_MASK = MSTATUS_MPP_S;
  sd_mie : bit (h_csr h' Mstatus) MSTATUS_MIE = true;
  sd_mtie : bit (h_csr h' Mie) MIE_MTIE = true;
  sd_cmp : load64 (h_mem h') (CLINT_MTIMECMP (h_csr h Mhartid)) = u64 (load64 (h_mem h) CLINT_MTIME + 1000000);
  sd_word3 : load64 (h_mem h') (scratch_of (h_csr h Mhartid) + 24) = CLINT_MTIMECMP (h_csr h Mhartid);
  sd_word4 : load64 (h_mem h') (scratch_of (h_csr h Mhartid) + 32) = 1000000
}.

Lemma start_hart_ok h : 0 <= h_csr h Mhartid < Z.of_nat NCPU -> started h (start_hart h).
Proof using scratch_aligned scratch_range.
  intros Hid. destruct (scratch_ok _ Hid) as (Ha & Hlo & Hhi & Hca & Hc0 & Hc1).
  assert (Hs : s32 (h_csr h Mhartid) = h_csr h Mhartid) by (apply s32_small; unfold NCPU in Hid; lia).
  assert (Hcmp : u64 (CLINT_MTIMECMP (h_csr h Mhartid)) = CLINT_MTIMECMP (h_csr h Mhartid))
    by (apply u64_small; unfold KERNBASE in Hc1; lia).
  split.
  - reflexivity.
  - reflexivity.
  - reflexivity.
  - rewrite <- Hs. reflexivity.
  - rewrite <- Hs. reflexivity.
  - reflexivity.
  - rewrite start_hart_mstatus, !Z.land_lor_distr_l, <- Z.land_assoc, (Z.land_comm (Z.lnot _)).
    by rewrite Z.land_lnot_diag, Z.land_0_r.
  - rewrite start_hart_mstatus. by apply bit_lor.
  - rewrite start_hart_mie. by apply bit_lor.
  - rewrite start_hart_mem, Hs, !load_store64_ne by lia. by rewrite load_store64.
  - rewrite start_hart_mem, Hs, load_store64_ne by lia. by rewrite load_store64.
  - rewrite start_hart_mem, Hs, load_store64. reflexivity.
Qed.

(** [C20] Every hart boots onto its own stack with a running timer. [_entry]
    calls [start] with the stack pointer at the end of the hart's page of
    [stack0]; [start] leaves for [main] in supervisor mode with paging off, the
    hart number in [tp] and the timer armed one interval ahead; and whenever the
    timer interrupts the hart from then on, [timervec] changes no register of
    the code it interrupts, moves the compare register of this hart by the
    interval and raises the kernel's software interrupt. *)
Theorem boot_arms_timer h cva stack0 start_addr spin :
  h_mode h = Machine_mode -> 0 <= h_csr h Mhartid < Z.of_nat NCPU ->
  0 <= stack0 -> stack0 + 4096 * Z.of_nat NCPU < 2 ^ 64 ->
  exists h1,
    run cva cva (entry_code stack0 start_addr spin) h = Some (Goto start_addr, [], h1) /\
    h_reg h1 Sp = stack0 + 4096 * h_csr h Mhartid + 4096 /\
    started h1 (start_hart h1) /\ h_csr h1 Mhartid = h_csr h Mhartid /\
    forall h2 tva, h_mode h2 = Machine_mode -> regs_ok h2 ->
      h_csr h2 Mscratch = h_csr (start_hart h1) Mscratch ->
      load64 (h_mem h2) (h_csr h2 Mscratch + 24) = load64 (h_mem (start_hart h1)) (h_csr h2 Mscratch + 24) ->
      load64 (h_mem h2) (h_csr h2 Mscratch + 32) = load64 (h_mem (start_hart h1)) (h_csr h2 Mscratch + 32) ->
      exists h3, run tva tva timervec_code h2 = Some (Mret, [], h3) /\
        (forall r, h_reg h3 r = h_reg h2 r) /\ h_csr h3 Mscratch = h_csr h2 Mscratch /\ h_csr h3 Sip = 2 /\
        load64 (h_mem h3) (CLINT_MTIMECMP (h_csr h Mhartid)) =
          u64 (load64 (h_mem h2) (CLINT_MTIMECMP (h_csr h Mhartid)) + 1000000).
Proof using scratch_aligned scratch_range.
  intros Hm Hid Hlo Hhi. destruct (entry_stack h cva stack0 start_addr spin Hm Hid Hlo Hhi) as (h1 & E & Hsp & _ & _ & Hcs).
  exists h1. assert (Hid1 : h_csr h1 Mhartid = h_csr h Mhartid) by (by rewrite Hcs).
  pose proof (start_hart_ok h1 ltac:(by rewrite Hid1)) as S. split_and!; [done|done|done|done|].
  intros h2 tva Hm2 Hr2 Hsc H3 H4. rewrite (sd_mscratch _ _ S), Hid1 in Hsc.
  rewrite Hsc, <- Hid1, (sd_word3 _ _ S) in H3. rewrite Hsc, <- Hid1, (sd_word4 _ _ S) in H4. rewrite Hid1 in H3, H4.
  destruct (scratch_ok _ Hid) as (Ha & Hl & Hh & Hca & Hc0 & Hc1).
  destruct (timervec_transparent h2 tva) as (h3 & E3 & Hregs & Hms & Hsip & _ & Hcmp & _);
    rewrite ?Hsc, ?H3; try done; try (unfold PHYSTOP, KERNBASE in *; lia).
  exists h3. rewrite Hsc, H3, H4 in Hcmp. rewrite Hsc in Hms. split_and!; congruence || done.
Qed.
End boot.

(** ** Hart 3 with the addresses of [kernel/kernel.sym] *)

Module HartSample.
#[export] Instance start_sym : StartImage :=
  {| main_addr := 0x80001052; timervec := 0x80006850; timer_scratch_addr := 0x80008c40 |}.

Definition hart3 : hart :=
  mk_hart Machine_mode (fun _ => 0) (fun c => if decide (c = Mhartid) then 3 else 0) ∅.

Lemma boot_arms_timer_witness :
  exists h1,
    run 0x80000000 0x80000000 (entry_code 0x80008d80 0x8000008e 0x8000001a) hart3 =
      Some (Goto 0x8000008e, [], h1) /\
    h_reg h1 Sp = 0x8000cd80 /\ started h1 (start_hart h1) /\
    exists h3, run 0x80006000 0x80006000 timervec_code
        (mk_hart Machine_mode (fun _ => 5) (h_csr (start_hart h1)) (h_mem (start_hart h1))) = Some (Mret, [], h3) /\
      forall r, h_reg h3 r = 5.
Proof.
  assert (Ha : timer_scratch_addr mod 8 = 0) by reflexivity.
  assert (Hr : KERNBASE <= timer_scratch_addr /\ timer_scratch_addr + 40 * Z.of_nat NCPU <= PHYSTOP)
    by (split; vm_compute; discriminate).
  destruct (boot_arms_timer Ha Hr hart3 0x80000000 0x80008d80 0x8000008e 0x8000001a)
    as (h1 & E & Hsp & Hst & _ & Ht); [reflexivity|split; vm_compute; (discriminate || reflexivity)|lia|reflexivity|].
  exists h1. split; [exact E|]. split; [rewrite Hsp; reflexivity|]. split; [exact Hst|].
  revert Ht. generalize (start_hart h1) as hs. intros hs Ht.
  destruct (Ht (mk_hart Machine_mode (fun _ => 5) (h_csr hs) (h_mem hs)) 0x80006000)
    as (h3 & E3 & Hregs & _); [reflexivity|intros r; cbn [h_reg]; lia|cbn [h_mem h_csr]; reflexivity..|].
  exists h3. split; [exact E3|exact Hregs].
Defined.
End HartSample.
