(* ===== verification/Utest.v ===== *)
(** * The interface the test programs use

    The programs that test the kernel read and write memory they got from
    [sbrk], and pass addresses of their choice to system calls, so that they
    see more of their process than the typed calls of [User.v] show. The class
    [Process] adds this: loads and stores, which fault when the page is not
    mapped, the stack pointer, and the calls that take a pointer, with the
    pointer. A fault ends the process the way the kernel's [usertrap] does,
    with [exit(-1)]. *)

From Stdlib Require Import Ascii.
From S2P Require Import Prelude Cstring User Ulib.

(** A pointer argument: the address of bytes the program set up, without the
    NUL that ends them, or an address. *)
Inductive uptr := Bytes (s : list Z) | At (a : Z).

Class Process (W : Type) := {
  pr_load : nat -> Z -> M W (option Z);        (* an unsigned integer of n bytes *)
  pr_store : nat -> Z -> Z -> M W bool;
  pr_sp : M W Z;
  pr_write : Z -> Z -> Z -> M W Z;
  pr_read : Z -> Z -> Z -> M W Z;
  pr_open : Z -> Z -> M W Z;
  pr_unlink : Z -> M W Z;
  pr_link : uptr -> uptr -> M W Z;
  pr_exec : uptr -> list uptr -> M W bool;
  pr_pipe : Z -> M W Z
}.

Section calls.
Context {W : Type} `{OS W}.

(** ** The calls with literal strings *)

Definition fork : U W Z := sys os_fork.
Definition wait : U W (Z * Z) := sys os_wait.
Definition pipe : U W (Z * (Z * Z)) := sys os_pipe.
Definition write (fd : Z) (bs : list Z) : U W Z := sys (os_write fd bs).
Definition puts (fd : Z) (s : string) : U W Z := sys (os_write fd (bytes_of s)).
Definition read (fd n : Z) : U W (Z * list Z) := sys (os_read fd n).
Definition close (fd : Z) : U W Z := sys (os_close fd).
Definition kill (pid : Z) : U W Z := sys (os_kill pid).
Definition open_file (path : list Z) (flags : Z) : U W Z := sys (os_open path flags).
Definition open (path : string) (flags : Z) : U W Z := open_file (bytes_of path) flags.
Definition unlink_file (path : list Z) : U W Z := sys (os_unlink path).
Definition unlink (path : string) : U W Z := unlink_file (bytes_of path).
Definition link_file (old new : list Z) : U W Z := sys (os_link old new).
Definition link (old new : string) : U W Z := link_file (bytes_of old) (bytes_of new).
Definition mkdir (path : string) : U W Z := sys (os_mkdir (bytes_of path)).
Definition chdir (path : string) : U W Z := sys (os_chdir (bytes_of path)).
Definition dup (fd : Z) : U W Z := sys (os_dup fd).
(** An address, all ones when the call fails. *)
Definition sbrk (n : Z) : U W Z := let? a := sys (os_sbrk n) in done (u64 a).
Definition sleep (n : Z) : U W Z := sys (os_sleep n).
Definition getpid : U W Z := sys os_getpid.
Definition creat (path : string) : U W Z := open path (Z.lor O_CREATE O_RDWR).

(** What [wait(&st)] leaves in a variable that held [st]. *)
Definition status_or (st : Z) (r : Z * Z) : Z := if fst r <? 0 then st else snd r.

(** [printf(...); exit(status);] *)
Definition die {A} (status : Z) (fmt : string) (ap : list varg) : U W A :=
  do? printf fmt ap in exit status.
(** [if(c){ printf(...); exit(1); }] *)
Definition fail_if (c : bool) (fmt : string) (ap : list varg) : U W unit :=
  uwhen c (die 1 fmt ap).

(** A loop over a list with an accumulator. *)
Fixpoint folds {A B} (xs : list A) (acc : B) (body : A -> B -> U W B) : U W B :=
  match xs with
  | [] => done acc
  | x :: xs' => let? acc := body x acc in folds xs' acc body
  end.
(** [m] for its effect. *)
Definition ignore {A} (m : U W A) : U W unit := do? m in done tt.
(** [n] times. *)
Definition times (n : Z) (body : U W unit) : U W unit := every (seqZ 0 n) (fun _ => body).

(** A loop that nothing but the kernel ends. *)
Definition forever {A} (body : U W unit) : U W A :=
  loop (fun _ : unit => do? body in done (inl tt)) tt.
End calls.

Section memory.
Context {W : Type} `{OS W} `{Process W}.

Definition peek (n : nat) (a : Z) : U W Z :=
  let! r := pr_load n a in
  match r with Some v => done v | None => exit (-1) end.
Definition poke (n : nat) (a v : Z) : U W unit :=
  let! ok := pr_store n a v in
  if ok then done tt else exit (-1).

(** [for(q = p; q < top; q += step)] over addresses. *)
Definition stride (p top step : Z) (body : Z -> U W unit) : U W unit :=
  loop (fun q => if q <? top then do? body q in done (inl (q + step)) else done (inr tt)) p.

(** [exec] with pointers of the caller's choice; it returns only to fail. *)
Definition exec_at (path : uptr) (argv : list uptr) : U W Z :=
  let! gone := pr_exec path argv in
  if gone then ret (Became [] []) else done (-1).
End memory.

(** [sbrk]'s error, the pointer [0xffffffffffffffff]. *)
Definition MINUS1 : Z := 2 ^ 64 - 1.

(** A double quote, for the formats that print one. *)
Definition quote : string := String (ascii_of_nat 34) EmptyString.
