(* ===== verification/Grind.v ===== *)
(** * grind ([user/grind.c])

    The program that runs random system calls in parallel for ever: its random
    numbers, which are those of Park and Miller's minimal standard generator,
    computed without leaving 32 bits, and the calls it makes. The state of a
    process is the seed [rand_next], the open descriptor [fd] and the static
    buffer. *)

From S2P Require Import Prelude Cstring User Ulib Utest.

(** ** Random numbers *)

(** The result and the new [*ctx]. [long] is 64 bits wide, [%] and [/] on
    [unsigned long] and on positive [long] are those of [Z]. *)
Definition do_rand (ctx : Z) : Z :=
  let x := ctx mod 0x7ffffffe + 1 in
  let hi := x / 127773 in
  let lo := x mod 127773 in
  let x := 16807 * lo - 2836 * hi in
  let x := if x <? 0 then x + 0x7fffffff else x in
  x - 1.

(** [rand]: the number drawn and the new seed. *)
Definition rand (rand_next : Z) : Z * Z := let x := do_rand rand_next in (s32 x, x).

Section grind.
Context {W : Type} `{OS W}.

(** [close(open(path, O_CREATE|O_RDWR))] *)
Definition touch (path : string) : U W unit :=
  let? fd := creat path in do? close fd in done tt.
Definition try_ (m : U W Z) : U W unit := do? m in done tt.

(** [pid = fork(); if(pid == 0){ child } else if(pid < 0){ die }] *)
Definition grind_fork (child : U W unit) : U W Z :=
  let? pid := fork in
  do? uwhen (pid =? 0) child in
  do? uwhen (pid <? 0) (die 1 (line "grind: fork failed") []) in
  done pid.

(** ** The actions of [go] *)

Definition go_chdir : U W unit :=
  let? r := chdir "grindir" in
  fail_if (negb (r =? 0)) (line "grind: chdir grindir failed") [].

(** 19: three processes write to and read from one pipe. *)
Definition go_pipe : U W unit :=
  let? r := pipe in
  do? fail_if (fst r <? 0) (line "grind: pipe failed") [] in
  let '(rd, wr) := snd r in
  do? grind_fork
    (do? try_ fork in
     do? try_ fork in
     let? n := puts wr "x" in
     do? uwhen (negb (n =? 1)) (printf (line "grind: pipe write failed") []) in
     let? n := read rd 1 in
     do? uwhen (negb (fst n =? 1)) (printf (line "grind: pipe read failed") []) in
     exit 0) in
  do? close rd in
  do? close wr in
  do? wait in
  done tt.

(** 21: a file that can always be created. *)
Definition go_create : U W unit :=
  do? unlink "c" in
  let? fd1 := creat "c" in
  do? fail_if (fd1 <? 0) (line "grind: create c failed") [] in
  let? n := puts fd1 "x" in
  do? fail_if (negb (n =? 1)) (line "grind: write c failed") [] in
  let? r := sys (os_fstat fd1) in
  do? fail_if (negb (fst r =? 0)) (line "grind: fstat failed") [] in
  let st := snd r in
  do? fail_if (negb (st_size st =? 1)) (line "grind: fstat reports wrong size %d") [AInt (s32 (st_size st))] in
  do? fail_if (200 <? st_ino st) (line "grind: fstat reports crazy i-number %d") [AInt (s32 (st_ino st))] in
  do? close fd1 in
  do? unlink "c" in
  done tt.

(** [fprintf(2, ...); exit(status);] *)
Definition die2 {A} (status : Z) (fmt : string) : U W A :=
  do? fprintf 2 (line fmt) [] in exit status.

Definition go_echo (aa bb : Z * Z) : U W unit :=
  do? close (fst bb) in
  do? close (snd bb) in
  do? close (fst aa) in
  do? close 1 in
  let? r := dup (snd aa) in
  do? uwhen (negb (r =? 1)) (die2 1 "grind: dup failed") in
  do? close (snd aa) in
  do? exec (bytes_of "grindir/../echo") [bytes_of "echo"; bytes_of "hi"] in
  die2 2 "grind: echo: not found".
Definition go_cat (aa bb : Z * Z) : U W unit :=
  do? close (snd aa) in
  do? close (fst bb) in
  do? close 0 in
  let? r := dup (fst aa) in
  do? uwhen (negb (r =? 0)) (die2 4 "grind: dup failed") in
  do? close (fst aa) in
  do? close 1 in
  let? r := dup (snd bb) in
  do? uwhen (negb (r =? 1)) (die2 5 "grind: dup failed") in
  do? close (snd bb) in
  do? exec (bytes_of "/cat") [bytes_of "cat"] in
  die2 6 "grind: cat: not found".

(** 22: [echo hi | cat], whose output is read back byte by byte into a zeroed
    [buf[4]]. The statuses are those the two [wait]s store. *)
Definition go_pipeline : U W unit :=
  let? ra := pipe in
  do? uwhen (fst ra <? 0) (die2 1 "grind: pipe failed") in
  let? rb := pipe in
  do? uwhen (fst rb <? 0) (die2 1 "grind: pipe failed") in
  let aa := snd ra in
  let bb := snd rb in
  let? pid1 := fork in
  do? uwhen (pid1 =? 0) (go_echo aa bb) in
  do? uwhen (pid1 <? 0) (die2 3 "grind: fork failed") in
  let? pid2 := fork in
  do? uwhen (pid2 =? 0) (go_cat aa bb) in
  do? uwhen (pid2 <? 0) (die2 7 "grind: fork failed") in
  do? close (fst aa) in
  do? close (snd aa) in
  do? close (snd bb) in
  let? r0 := read (fst bb) 1 in
  let buf := buf_store (replicate 4 0) 0 (snd r0) in
  let? r1 := read (fst bb) 1 in
  let buf := buf_store buf 1 (snd r1) in
  let? r2 := read (fst bb) 1 in
  let buf := buf_store buf 2 (snd r2) in
  do? close (fst bb) in
  let? w1 := wait in
  let? w2 := wait in
  let? c := valid "strcmp" (strcmp buf (bytes_of (line "hi") ++ [0])) in
  fail_if (negb (snd w1 =? 0) || negb (snd w2 =? 0) || negb (c =? 0))
    (line ("grind: exec pipeline failed %d %d " +:+ quote +:+ "%s" +:+ quote))
    [AInt (snd w1); AInt (snd w2); AStr (Some (cstr buf))].

(** The variables of [go]. *)
Record grinder := mk_grinder { g_fd : Z; g_buf : list Z; g_rand : Z; g_iters : Z }.

(** One action; the descriptor and the buffer it leaves. *)
Definition go_action (what break0 : Z) (fd : Z) (buf : list Z) : U W (Z * list Z) :=
  let same (m : U W unit) : U W (Z * list Z) := do? m in done (fd, buf) in
  match what with
  | 1 => same (touch "grindir/../a")
  | 2 => same (touch "grindir/../grindir/../b")
  | 3 => same (try_ (unlink "grindir/../a"))
  | 4 => same (do? go_chdir in do? unlink "../b" in try_ (chdir "/"))
  | 5 => do? close fd in let? fd := creat "/grindir/../a" in done (fd, buf)
  | 6 => do? close fd in let? fd := creat "/./grindir/./../b" in done (fd, buf)
  | 7 => same (try_ (write fd buf))
  | 8 => let? r := read fd 999 in done (fd, buf_store buf 0 (snd r))
  | 9 => same (do? mkdir "grindir/../a" in do? touch "a/../a/./a" in try_ (unlink "a/a"))
  | 10 => same (do? mkdir "/../b" in do? touch "grindir/../b/b" in try_ (unlink "b/b"))
  | 11 => same (do? unlink "b" in try_ (link "../grindir/./../a" "../b"))
  | 12 => same (do? unlink "../grindir/../a" in try_ (link ".././b" "/grindir/../a"))
  | 13 => same (do? grind_fork (exit 0) in do? wait in done tt)
  | 14 => same (do? grind_fork (do? fork in do? fork in exit 0) in do? wait in done tt)
  | 15 => same (try_ (sbrk 6011))
  | 16 => same (let? a := sbrk 0 in
      uwhen (break0 <? a) (let? a := sbrk 0 in try_ (sbrk (s32 (- (a - break0))))))
  | 17 => same (
      let? pid := grind_fork (do? touch "a" in exit 0) in
      let? r := chdir "../grindir/.." in
      do? fail_if (negb (r =? 0)) (line "grind: chdir failed") [] in
      do? kill pid in do? wait in done tt)
  | 18 => same (do? grind_fork (let? pid := getpid in do? kill pid in exit 0) in do? wait in done tt)
  | 19 => same go_pipe
  | 20 => same (
      do? grind_fork
        (do? unlink "a" in do? mkdir "a" in do? chdir "a" in do? unlink "../a" in
         do? creat "x" in do? unlink "x" in exit 0) in
      do? wait in done tt)
  | 21 => same go_create
  | 22 => same go_pipeline
  | _ => done (fd, buf)
  end.

(** One iteration: the mark on the console every 500 iterations, a random
    number, the action it selects. [%] truncates, but the numbers are not
    negative. *)
Definition go_iter (which_child : bool) (break0 : Z) (g : grinder) : U W grinder :=
  let iters := u64 (g_iters g + 1) in
  do? uwhen (iters mod 500 =? 0) (try_ (puts 1 (if which_child then "B" else "A"))) in
  let '(x, seed) := rand (g_rand g) in
  let? r := go_action (Z.rem x 23) break0 (g_fd g) (g_buf g) in
  done (mk_grinder (fst r) (snd r) seed iters).

Definition go (which_child : bool) (rand_next : Z) : U W unit :=
  let? break0 := sbrk 0 in
  do? mkdir "grindir" in
  do? go_chdir in
  do? chdir "/" in
  loop (fun g => let? g := go_iter which_child break0 g in done (inl g))
    (mk_grinder (-1) (replicate 999 0) rand_next 0).

Definition iter (rand_next : Z) : U W unit :=
  do? unlink "a" in
  do? unlink "b" in
  let? pid1 := fork in
  do? fail_if (pid1 <? 0) (line "grind: fork failed") [] in
  do? uwhen (pid1 =? 0) (do? go false (Z.lxor rand_next 31) in exit 0) in
  let? pid2 := fork in
  do? fail_if (pid2 <? 0) (line "grind: fork failed") [] in
  do? uwhen (pid2 =? 0) (do? go true (Z.lxor rand_next 7177) in exit 0) in
  let? r := wait in
  do? uwhen (negb (status_or (-1) r =? 0)) (do? kill pid1 in do? kill pid2 in done tt) in
  do? wait in
  exit 0.

Definition grind_main : U W unit :=
  loop (fun rand_next =>
    let? pid := fork in
    do? uwhen (pid =? 0) (do? iter rand_next in exit 0) in
    do? uwhen (0 <? pid) (do? wait in done tt) in
    do? sleep 20 in
    done (inl (u64 (rand_next + 1)))) 1.
End grind.

(** ** The generator *)

(** Schrage's decomposition computes the product of the minimal standard
    generator modulo the Mersenne prime [2^31 - 1]. *)
Lemma do_rand_eq ctx : do_rand ctx = 16807 * (ctx mod 0x7ffffffe + 1) mod 0x7fffffff - 1.
Proof.
  unfold do_rand. pose proof (Z.mod_pos_bound ctx 0x7ffffffe ltac:(lia)) as Hx.
  set (x := ctx mod 0x7ffffffe + 1). assert (Hb : 1 <= x <= 0x7ffffffe) by (unfold x; lia). clearbody x.
  pose proof (Z.div_mod x 127773 ltac:(lia)) as Hd.
  pose proof (Z.mod_pos_bound x 127773 ltac:(lia)) as Hlo.
  set (hi := x / 127773) in *. set (lo := x mod 127773) in *. clearbody hi lo.
  f_equal. destruct (Z.ltb_spec (16807 * lo - 2836 * hi) 0).
  - apply (Z.mod_unique_pos _ _ (hi - 1)); lia.
  - apply (Z.mod_unique_pos _ _ hi); lia.
Qed.

(** The generator is a permutation of its range: 16807 has the inverse
    1407677000 modulo [2^31 - 1]. *)
Definition rand_back (y : Z) : Z := 1407677000 * (y + 1) mod 0x7fffffff - 1.

Lemma mul_mod_inverse a b m x : 0 < m -> (b * a) mod m = 1 -> 0 <= x < m -> (b * ((a * x) mod m)) mod m = x.
Proof.
  intros Hm Hab Hx. rewrite Z.mul_mod_idemp_r, Z.mul_assoc by lia.
  rewrite <- Z.mul_mod_idemp_l, Hab by lia. rewrite Z.mul_1_l. by apply Z.mod_small.
Qed.

(** [C22] [do_rand] is Park and Miller's generator: for every seed it returns
    [16807 * x mod (2^31 - 1)], shifted to [0, 2^31 - 3], every product on the
    way fits in 32 bits, and on its range it is a permutation, so that a run of
    numbers never falls into a cycle it did not start in. *)
Theorem do_rand_park_miller ctx :
  let x := ctx mod 0x7ffffffe + 1 in
  do_rand ctx = 16807 * x mod 0x7fffffff - 1 /\
  0 <= do_rand ctx <= 0x7ffffffd /\
  0 <= 16807 * (x mod 127773) < 2 ^ 31 /\ 0 <= 2836 * (x / 127773) < 2 ^ 31 /\
  rand_back (do_rand ctx) = ctx mod 0x7ffffffe.
Proof.
  intros x. pose proof (Z.mod_pos_bound ctx 0x7ffffffe ltac:(lia)) as Hx.
  assert (Hb : 1 <= x <= 0x7ffffffe) by (unfold x; lia).
  pose proof (do_rand_eq ctx) as E. fold x in E.
  assert (Hinv : 1407677000 * ((16807 * x) mod 0x7fffffff) mod 0x7fffffff = x)
    by (apply mul_mod_inverse; [lia|reflexivity|lia]).
  pose proof (Z.mod_pos_bound (16807 * x) 0x7fffffff ltac:(lia)).
  assert (Hnz : 16807 * x mod 0x7fffffff <> 0) by (intros E0; rewrite E0, Z.mul_0_r, Z.mod_0_l in Hinv; lia).
  split_and!; [exact E|lia|lia| | | | |].
  - pose proof (Z.mod_pos_bound x 127773). lia.
  - pose proof (Z.mod_pos_bound x 127773). lia.
  - assert (0 <= x / 127773) by (apply Z.div_pos; lia). lia.
  - assert (x / 127773 < 16808) by (apply Z.div_lt_upper_bound; lia). lia.
  - unfold rand_back. rewrite E. replace (16807 * x mod 2147483647 - 1 + 1) with (16807 * x mod 2147483647) by lia.
    rewrite Hinv. unfold x. lia.
Qed.
