(* ===== verification/Utests.v ===== *)
(** * The smaller test programs

    [forktest], [stressfs], [schedulertest], [cowtest] and [alarmtest] of
    [user/], over the interface of [Utest.v]. What an alarm does to a loop is
    the behaviour of the kernel, a parameter: before an iteration the alarm may
    be due, and its handler then runs to its [sigreturn]. *)

From S2P Require Import Prelude Riscv Cstring User Ulib Utest.

(** The bytes of an [int] in memory, and back. *)
Definition int_bytes (i : Z) : list Z :=
  let w := u32 i in [w mod 256; w / 256 mod 256; w / 65536 mod 256; w / 16777216 mod 256].
Definition bytes_int (bs : list Z) : Z :=
  match bs with
  | b0 :: b1 :: b2 :: b3 :: _ => s32 (b0 + 256 * b1 + 65536 * b2 + 16777216 * b3)
  | _ => 0
  end.

(** ** [user/forktest.c] *)

Section forktest.
Context {W : Type} `{OS W}.

Definition print (s : string) : U W unit := do? puts 1 s in done tt.

(** [for(n=0; n<N; n++)] that stops at the first [fork] that fails; the child
    leaves at once. *)
Definition fork_one (n : Z) (_ : unit) : U W (unit + Z) :=
  let? pid := fork in
  if pid <? 0 then done (inr n) else
  do? uwhen (pid =? 0) (exit 0) in
  done (inl tt).
Definition forks (N : nat) : U W Z :=
  let? r := each (seqZ 0 (Z.of_nat N)) tt fork_one in
  done (match r with inl _ => Z.of_nat N | inr n => n end).

(** [for(; n > 0; n--) if(wait(0) < 0) { early }] *)
Definition waits (n : nat) (early : U W unit) : U W unit :=
  every (seq 0 n) (fun _ => let? r := wait in uwhen (fst r <? 0) early).

Definition forktest : U W unit :=
  do? print (line "fork test") in
  let? n := forks 1000 in
  do? uwhen (n =? 1000) (do? print (line "fork claimed to work N times!") in exit 1) in
  do? waits (Z.to_nat n) (do? print (line "wait stopped early") in exit 1) in
  let? r := wait in
  do? uwhen (negb (fst r =? -1)) (do? print (line "wait got too many") in exit 1) in
  print (line "fork test OK").

Definition forktest_main : U W unit := do? forktest in exit 0.

(** ** [user/stressfs.c] *)

(** [for(i = 0; i < 4; i++) if(fork() > 0) break;] *)
Definition stressfs_fork : U W Z :=
  let? r := each (seqZ 0 4) tt (fun i _ =>
    let? pid := fork in done (if 0 <? pid then inr i else inl tt)) in
  done (match r with inl _ => 4 | inr i => i end).

Definition stressfs_main : U W unit :=
  do? printf (line "stressfs starting") [] in
  let data := replicate 512 97 in
  let? i := stressfs_fork in
  do? printf (line "write %d") [AInt i] in
  let path := bytes_of "stressfs" ++ [48 + i] in
  let? fd := open_file path (Z.lor O_CREATE O_RDWR) in
  do? every (seqZ 0 20) (fun _ => do? write fd data in done tt) in
  do? close fd in
  do? printf (line "read") [] in
  let? fd := open_file path O_RDONLY in
  do? every (seqZ 0 20) (fun _ => do? read fd 512 in done tt) in
  do? close fd in
  do? wait in
  exit 0.

(** ** [user/schedulertest.c] *)

Definition NFORK : Z := 10.
Definition IO : Z := 5.

(** The ten billion iterations of the other children have no effect but time.
    [pbs]: the program is compiled for the priority scheduler. *)
Definition schedulertest_main (pbs : bool) : U W unit :=
  let? r := each (seqZ 0 NFORK) tt (fun n _ =>
    let? pid := fork in
    if pid <? 0 then done (inr n) else
    do? (if pid =? 0 then
           do? uwhen (n <? IO) (do? sleep 200 in done tt) in exit 0
         else uwhen pbs (do? sys (os_setpriority (60 - IO + n) pid) in done tt)) in
    done (inl tt)) in
  let n := match r with inl _ => NFORK | inr n => n end in
  let? t := each (R := unit) (seqZ 0 n) (0, 0) (fun _ t =>
    let? r := sys os_waitx in
    let '(_, wtime, rtime) := snd r in
    done (inl (if 0 <=? fst r then (s32 (fst t + rtime), s32 (snd t + wtime)) else t))) in
  let '(trtime, twtime) := match t with inl t => t | inr _ => (0, 0) end in
  do? printf (line "Average rtime %d,  wtime %d") [AInt (Z.quot trtime NFORK); AInt (Z.quot twtime NFORK)] in
  exit 0.
End forktest.

(** ** [user/cowtest.c] *)

Section cowtest.
Context {W : Type} `{OS W} `{Process W}.

Definition phys_size : Z := PHYSTOP - KERNBASE.

(** The pid is stored as an [int] at the start of every page, *)
Definition stamp (p top : Z) : U W unit :=
  stride p top 4096 (fun q => let? pid := getpid in poke 4 q (u32 pid)).
(** and found there. *)
Definition stamped (p top : Z) : U W unit :=
  stride p top 4096 (fun q =>
    let? v := peek 4 q in
    let? pid := getpid in
    uwhen (negb (s32 v =? pid)) (die (-1) (line "wrong content") [])).

Definition cow_sbrk (sz : Z) : U W Z :=
  let? p := sbrk sz in
  do? uwhen (p =? MINUS1) (die (-1) (line "sbrk(%d) failed") [AInt sz]) in
  done p.
Definition cow_unsbrk (sz : Z) : U W unit :=
  let? p := sbrk (- sz) in
  uwhen (p =? MINUS1) (die (-1) (line "sbrk(-%d) failed") [AInt sz]).

Definition simpletest : U W unit :=
  let sz := s32 (phys_size / 3 * 2) in
  do? printf "simple: " [] in
  let? p := cow_sbrk sz in
  do? stamp p (p + sz) in
  let? pid := fork in
  do? uwhen (pid <? 0) (die (-1) (line "fork() failed") []) in
  do? uwhen (pid =? 0) (exit 0) in
  do? wait in
  do? cow_unsbrk sz in
  printf (line "ok") [].

(** The first child of [threetest] and its child. *)
Definition three_child (p sz : Z) : U W unit :=
  let? pid2 := fork in
  do? uwhen (pid2 <? 0) (die (-1) "fork failed" []) in
  do? uwhen (pid2 =? 0)
    (do? stamp p (p + sz / 5 * 4) in
     do? stamped p (p + sz / 5 * 4) in
     exit (-1)) in
  do? stride p (p + sz / 2) 4096 (fun q => poke 4 q 9999) in
  exit 0.

Definition threetest : U W unit :=
  let sz := s32 (phys_size / 4) in
  do? printf "three: " [] in
  let? p := cow_sbrk sz in
  let? pid1 := fork in
  do? uwhen (pid1 <? 0) (die (-1) (line "fork failed") []) in
  do? uwhen (pid1 =? 0) (three_child p sz) in
  do? stamp p (p + sz) in
  do? wait in
  do? sleep 1 in
  do? stamped p (p + sz) in
  do? cow_unsbrk sz in
  printf (line "ok") [].

(** The child that reads an [int] from the pipe into the shared page. *)
Definition file_child (rd i : Z) (buf : list Z) : U W unit :=
  do? sleep 1 in
  let? r := read rd 4 in
  do? fail_if (negb (fst r =? 4)) (line "error: read failed") [] in
  let buf := buf_store buf 0 (snd r) in
  do? sleep 1 in
  let j := bytes_int buf in
  do? fail_if (negb (j =? i)) (line "error: read the wrong value") [] in
  exit 0.

Definition filetest : U W unit :=
  do? printf "file: " [] in
  let buf := buf_store (replicate 4096 0) 0 [99] in
  do? every (seqZ 0 4) (fun i =>
    let? r := pipe in
    do? uwhen (negb (fst r =? 0)) (die (-1) (line "pipe() failed") []) in
    let '(rd, wr) := snd r in
    let? pid := fork in
    do? uwhen (pid <? 0) (die (-1) (line "fork failed") []) in
    do? uwhen (pid =? 0) (file_child rd i buf) in
    let? n := write wr (int_bytes i) in
    uwhen (negb (n =? 4)) (die (-1) (line "error: write failed") [])) in
  do? each (R := unit) (seqZ 0 4) 0 (fun _ xstatus =>
    let? r := wait in
    let xstatus := status_or xstatus r in
    do? uwhen (negb (xstatus =? 0)) (exit 1) in
    done (inl xstatus)) in
  do? fail_if (negb (default 0 (buf !! 0%nat) =? 99)) (line "error: child overwrote parent") [] in
  printf (line "ok") [].

Definition cowtest_main : U W unit :=
  do? simpletest in
  do? simpletest in
  do? threetest in
  do? threetest in
  do? threetest in
  do? filetest in
  do? printf (line "ALL COW TESTS PASSED") [] in
  exit 0.
End cowtest.

(** ** [user/alarmtest.c] *)

(** [al_due]: the kernel calls the handler at this point. [al_delay v]: what
    [a0] holds after a loop it held [v] before. *)
Class Alarm (W : Type) := {
  al_due : M W bool;
  al_delay : Z -> M W Z
}.

Section alarmtest.
Context {W : Type} `{OS W} `{Alarm W}.
(** The addresses of the handlers. *)
Context (at_periodic at_slow_handler at_dummy_handler : Z).

Definition sigalarm (interval handler : Z) : U W unit :=
  do? sys (os_sigalarm interval handler) in done tt.
Definition sigreturn : U W unit := do? sys os_sigreturn in done tt.

(** A handler takes [count] and leaves a new one. *)
Definition periodic (count : Z) : U W Z :=
  let count := s32 (count + 1) in
  do? printf (line "alarm!") [] in
  do? sigreturn in
  done count.

(** [for(i = 0; i < n; i++)] interrupted by the alarm: [body] gets [i], [count]
    and the rest of the state, and leaves the loop with [inr]. The result is
    [i], [count] and that state. *)
Definition alarmed {A} (n : Z) (handler : Z -> U W Z) (body : Z -> Z -> A -> U W (A + A)) (count : Z) (a : A)
    : U W (Z * Z * A) :=
  loop (fun st =>
    let '(i, count, a) := st in
    if i <? n then
      let? due := sys al_due in
      let? count := (if due then handler count else done count) in
      let? r := body i count a in
      match r with
      | inl a => done (inl (i + 1, count, a))
      | inr a => done (inr (i, count, a))
      end
    else done (inr st)) (0, count, a).

(** The loop of [test0] and [test2]. *)
Definition dots (i count : Z) (_ : unit) : U W (unit + unit) :=
  do? uwhen (i mod 1000000 =? 0) (do? puts 2 "." in done tt) in
  done (if 0 <? count then inr tt else inl tt).

Definition test0 : U W unit :=
  do? printf (line "test0 start") [] in
  do? sigalarm 2 at_periodic in
  let? r := alarmed (1000 * 500000) periodic dots 0 tt in
  let count := snd (fst r) in
  do? sigalarm 0 0 in
  if 0 <? count then printf (line "test0 passed") []
  else printf (line (line "" +:+ "test0 failed: the kernel never called the alarm handler")) [].

Definition foo (i j : Z) : U W Z :=
  do? uwhen (i mod 2500000 =? 0) (do? puts 2 "." in done tt) in
  done (s32 (j + 1)).

Definition test1 : U W unit :=
  do? printf (line "test1 start") [] in
  do? sigalarm 2 at_periodic in
  let? r := alarmed 500000000 periodic (fun i count j =>
    if 10 <=? count then done (inr j) else let? j := foo i j in done (inl j)) 0 0 in
  let '(i, count, j) := r in
  if count <? 10 then printf (line (line "" +:+ "test1 failed: too few calls to the handler")) []
  else if negb (i =? j) then
    printf (line (line "" +:+ "test1 failed: foo() executed fewer times than it was called")) []
  else printf (line "test1 passed") [].

(** Up to its delay; a second call finds [count] above one. *)
Definition slow_enter (count : Z) : U W Z :=
  let count := s32 (count + 1) in
  do? printf (line "alarm!") [] in
  do? fail_if (1 <? count) (line "test2 failed: alarm handler called more than once") [] in
  done count.
(** During the delay the kernel may wrongly call the handler again. *)
Definition slow_handler (count : Z) : U W Z :=
  let? count := slow_enter count in
  let? r := alarmed (1000 * 500000) slow_enter (fun _ _ a => done (inl a)) count tt in
  do? sigalarm 0 0 in
  do? sigreturn in
  done (snd (fst r)).

Definition test2 : U W unit :=
  do? printf (line "test2 start") [] in
  let? pid := fork in
  do? uwhen (pid <? 0) (printf (line "test2: fork failed") []) in
  do? uwhen (pid =? 0)
    (do? sigalarm 2 at_slow_handler in
     let? r := alarmed (1000 * 500000) slow_handler dots 0 tt in
     do? fail_if (snd (fst r) =? 0) (line (line "" +:+ "test2 failed: alarm not called")) [] in
     exit 0) in
  let? r := wait in
  uwhen (snd r =? 0) (printf (line "test2 passed") []).

Definition dummy_handler (count : Z) : U W Z :=
  do? sigalarm 0 0 in
  do? sigreturn in
  done count.

Definition test3 : U W unit :=
  do? sigalarm 1 at_dummy_handler in
  do? printf (line "test3 start") [] in
  let? due := sys al_due in
  do? (if due then dummy_handler 0 else done 0) in
  let? a0 := sys (al_delay 0xac) in
  if negb (a0 =? 0xac) then printf (line "test3 failed: register a0 changed") []
  else printf (line "test3 passed") [].

Definition alarmtest_main : U W unit :=
  do? test0 in
  do? test1 in
  do? test2 in
  do? test3 in
  exit 0.
End alarmtest.

(** ** What [forktest] tells *)

(** A process table with room for [room] more processes, seen by a parent of
    [kids] children that have or will have exited: [fork] fails only when the
    table is full, [wait] only when there is no child. *)
Class ProcTable {W : Type} `{OS W} := {
  room : W -> nat;
  kids : W -> nat;
  console : W -> list Z;
  table_fork : forall w, wp os_fork (fun pid w' => console w' = console w /\
    match room w with
    | S n => 0 < pid /\ room w' = n /\ kids w' = S (kids w)
    | O => pid = -1 /\ room w' = O /\ kids w' = kids w
    end) w;
  table_wait : forall w, wp os_wait (fun r w' => console w' = console w /\
    match kids w with
    | S n => 0 < fst r /\ kids w' = n /\ room w' = S (room w)
    | O => fst r = -1 /\ kids w' = O /\ room w' = room w
    end) w;
  table_write : forall bs w, wp (os_write 1 bs) (fun _ w' =>
    console w' = console w ++ bs /\ room w' = room w /\ kids w' = kids w) w
}.

Section forkproof.
Context {W : Type} {HO : OS W} {PT : ProcTable}.

Lemma print_ok s w :
  uwp (print s) (fun _ w' => console w' = console w ++ bytes_of s /\ room w' = room w /\ kids w' = kids w) w.
Proof.
  apply uwp_then, uwp_sys. eapply wp_conseq; [apply table_write|]. intros ? w' H. by apply uwp_done.
Qed.

(** Up to [length l] forks: all of them, or as many as there was room for. *)
Lemma forks_each l w :
  uwp (each l tt fork_one) (fun r w' => 
    console w' = console w /\ (room w' + kids w' = room w + kids w)%nat /\
    ((r = inl tt /\ (length l <= room w)%nat /\ kids w' = (kids w + length l)%nat) \/
     (exists n, l !! room w = Some n /\ r = inr n /\ room w' = O))) w.
Proof.
  revert w. induction l as [|n l IH]; intros w; cbn [each].
  { apply uwp_done. split_and!; [done|done|]. left. split_and!; [done|simpl; lia|simpl; lia]. }
  apply uwp_then, uwp_then, uwp_sys. eapply wp_conseq; [apply table_fork|].
  intros pid w' [Hc Hp]. cbv beta. destruct (room w) as [|k] eqn:Er.
  - destruct Hp as (-> & Hr & Hk). apply uwp_done, uwp_done. split_and!; [done|lia|].
    right. by exists n.
  - destruct Hp as (Hpos & Hr & Hk). destruct (Z.ltb_spec pid 0); [lia|]. apply uwp_then.
    destruct (Z.eqb_spec pid 0); [lia|]. apply uwp_done, uwp_done. eapply uwp_conseq; [apply IH|].
    intros r w'' (Hc' & Hs & Hcase). split_and!; [congruence|lia|].
    destruct Hcase as [(-> & Hl & Hk')|(m & Hm & -> & Hr')].
    + left. split_and!; [done|simpl; lia|simpl; lia].
    + right. exists m. split_and!; [|done|done]. simpl. by rewrite <- Hr.
Qed.

Lemma forks_ok N w :
  uwp (forks N) (fun n w' => console w' = console w /\ n = Z.of_nat (Nat.min N (room w)) /\
    kids w' = (kids w + Nat.min N (room w))%nat /\ room w' = (room w - N)%nat) w.
Proof.
  apply uwp_then. eapply uwp_conseq; [apply forks_each|].
  intros r w' (Hc & Hs & Hcase). apply uwp_done. rewrite length_seqZ, Nat2Z.id in Hcase.
  destruct Hcase as [(-> & Hl & Hk)|(n & Hn & -> & Hr)]; [split_and!; lia || done|].
  apply lookup_seqZ in Hn as [-> Hn]. split_and!; lia || done.
Qed.

Lemma waits_ok n early w :
  (n <= kids w)%nat ->
  uwp (waits n early) (fun _ w' => console w' = console w /\ kids w' = (kids w - n)%nat /\
    room w' = (room w + n)%nat) w.
Proof.
  intros Hn. unfold waits.
  apply (uwp_every _ (fun l w' => console w' = console w /\ (length l <= kids w')%nat /\
    (kids w' + n = kids w + length l)%nat /\ (room w' + length l = room w + n)%nat)).
  - intros x l w1 (Hc & Hl & Hk & Hr). apply uwp_then, uwp_sys. eapply wp_conseq; [apply table_wait|].
    intros r w2 [Hc2 Hw]. destruct (kids w1) as [|k]; [simpl in Hl; lia|]. destruct Hw as (Hp & Hk2 & Hr2).
    destruct (Z.ltb_spec (fst r) 0); [lia|]. apply uwp_done. simpl in *. split_and!; [congruence|lia..].
  - intros w1 (Hc & _ & Hk & Hr). simpl in *. split_and!; [done|lia..].
  - rewrite length_seq. split_and!; [done|lia..].
Qed.

(** [forktest] decides whether the process table is bounded: started by a
    process without children on a kernel with room for fewer than 1000
    processes, it forks until the table is full, reaps every child, finds no
    other, says so, and leaves the table as it found it; with room for 1000 it
    reports a failure. *)
Theorem forktest_decides w :
  kids w = O ->
  ((room w < 1000)%nat -> uwp forktest (fun _ w' =>
     console w' = console w ++ bytes_of (line "fork test") ++ bytes_of (line "fork test OK") /\
     room w' = room w /\ kids w' = O) w) /\
  ((1000 <= room w)%nat -> wp forktest (fun r w' =>
     r = Exited 1 /\ console w' = console w ++ bytes_of (line "fork test") ++
       bytes_of (line "fork claimed to work N times!")) w).
Proof.
  intros Hk0. split; intros Hroom.
  - apply uwp_then. eapply uwp_conseq; [apply print_ok|]. intros _ w1 (Hc1 & Hr1 & Hk1).
    apply uwp_then. eapply uwp_conseq; [apply forks_ok|]. intros n w2 (Hc2 & -> & Hk2 & Hr2).
    apply uwp_then. destruct (Z.eqb_spec (Z.of_nat (1000 `min` room w1)) 1000); [lia|]. apply uwp_done.
    apply uwp_then. rewrite Nat2Z.id. eapply uwp_conseq; [apply waits_ok; lia|].
    intros _ w3 (Hc3 & Hk3 & Hr3). apply uwp_then, uwp_sys. eapply wp_conseq; [apply table_wait|].
    intros r w4 [Hc4 Hw]. replace (kids w3) with O in Hw by lia. destruct Hw as (Hp & Hk4 & Hr4).
    apply uwp_then. rewrite Hp. apply uwp_done. eapply uwp_conseq; [apply print_ok|].
    intros _ w5 (Hc5 & Hr5 & Hk5). split_and!; [|lia|lia].
    rewrite Hc5, Hc4, Hc3, Hc2, Hc1. by rewrite app_assoc.
  - unfold forktest. apply wp_bind. eapply wp_conseq; [apply print_ok|].
    intros [a| |] w1; [|done..]. intros (Hc1 & Hr1 & Hk1).
    apply wp_bind. eapply wp_conseq; [apply forks_ok|]. intros [n| |] w2; [|done..].
    intros (Hc2 & -> & Hk2 & Hr2). apply wp_bind.
    replace (Z.of_nat (1000 `min` room w1)) with 1000 by lia. apply wp_bind.
    eapply wp_conseq; [apply print_ok|]. intros [b| |] w3; [|done..]. intros (Hc3 & _ & _).
    split; [done|]. rewrite Hc3, Hc2, Hc1. by rewrite app_assoc.
Qed.
End forkproof.

(** ** A process table *)

Module TableSample.
Record ptable := mk_ptable { t_room : nat; t_kids : nat; t_out : list Z }.

#[export] Instance ptable_os : OS ptable := bare_os
  (fun t => match t_room t with
            | S n => Ret 7 (mk_ptable n (S (t_kids t)) (t_out t))
            | O => Ret (-1) t
            end)
  (fun t => match t_kids t with
            | S n => Ret (7, 0) (mk_ptable (S (t_room t)) n (t_out t))
            | O => Ret (-1, 0) t
            end)
  (fun fd bs t => if fd =? 1 then Ret (Z.of_nat (length bs)) (mk_ptable (t_room t) (t_kids t) (t_out t ++ bs))
                  else Ret (-1) t).
#[export] Program Instance ptable_table : ProcTable :=
  {| room := t_room; kids := t_kids; console := t_out |}.
Next Obligation.
  intros w. unfold wp. cbn. destruct (t_room w) eqn:E; cbn; split_and!; try done; lia.
Qed.
Next Obligation.
  intros w. unfold wp. cbn. destruct (t_kids w) eqn:E; cbn; split_and!; try done; lia.
Qed.
Next Obligation. intros bs w. unfold wp. by cbn. Qed.

(** A table of 64 with two processes running. *)
Lemma forktest_decides_witness :
  uwp forktest (fun _ w' =>
    console w' = bytes_of (line "fork test") ++ bytes_of (line "fork test OK") /\
    room w' = 62%nat /\ kids w' = O) (mk_ptable 62 0 []) /\
  wp forktest (fun r w' =>
    r = Exited 1 /\ console w' = bytes_of (line "fork test") ++ bytes_of (line "fork claimed to work N times!"))
    (mk_ptable 2000 0 []).
Proof.
  destruct (forktest_decides (mk_ptable 62 0 [])) as [Hok _]; [reflexivity|].
  destruct (forktest_decides (mk_ptable 2000 0 [])) as [_ Hfail]; [reflexivity|].
  split.
  - eapply uwp_conseq; [apply Hok; apply Nat.ltb_lt; reflexivity|]. intros u w' H. exact H.
  - eapply wp_conseq; [apply Hfail; apply Nat.leb_le; reflexivity|]. intros r w' H. exact H.
Defined.
End TableSample.
