(* ===== verification/UtestsFile.v ===== *)
(** * usertests: user pointers, files and processes

    The tests of [user/usertests.c] from [copyin] to [mem]. A test takes its
    name, which its messages start with. It runs in a process of its own, so
    that the global [buf] it finds is all zeros; the tests that use it thread
    it through. *)

From S2P Require Import Prelude Riscv Cstring User Ulib Umalloc Utest Utests.

Definition BSIZE : Z := 1024.
Definition MAXFILE : Z := 12 + BSIZE / 4.
Definition BUFSZ : Z := (MAXOPBLOCKS + 2) * BSIZE.
Definition buf0 : list Z := replicate (Z.to_nat BUFSZ) 0.

Definition CREATE_WR : Z := Z.lor O_CREATE O_WRONLY.
Definition CREATE_WR_TRUNC : Z := Z.lor CREATE_WR O_TRUNC.

Section quick.
Context {W : Type} `{OS W} `{Process W}.

(** [if(c){ printf("%s: msg\n", s, ...); exit(1); }] *)
Definition bad (s : list Z) (c : bool) (msg : string) (ap : list varg) : U W unit :=
  fail_if c (line ("%s: " +:+ msg)) (AStr (Some s) :: ap).
(** The same without the new line. *)
Definition bad_nonl (s : list Z) (c : bool) (msg : string) : U W unit :=
  fail_if c ("%s: " +:+ msg) [AStr (Some s)].
(** [pid = fork(); if(pid < 0){ ... exit(1); }] *)
Definition fork_ok (s : list Z) : U W Z :=
  let? pid := fork in do? bad s (pid <? 0) "fork failed" [] in done pid.
Definition fork_quiet : U W Z :=
  let? pid := fork in do? fail_if (pid <? 0) (line "fork failed") [] in done pid.
Definition pipe_ok : U W (Z * Z) :=
  let? r := pipe in do? fail_if (fst r <? 0) (line "pipe() failed") [] in done (snd r).
(** The byte [c + i] of a name. *)
Definition chr (c i : Z) : Z := u8 (c + i).

(** ** Pointers *)

Definition bad_addrs : list Z := [0x80000000; 0xffffffffffffffff].

Definition copyin (s : list Z) : U W unit :=
  every bad_addrs (fun addr =>
    let? fd := open "copyin1" CREATE_WR in
    do? fail_if (fd <? 0) (line "open(copyin1) failed") [] in
    let? n := sys (pr_write fd addr 8192) in
    do? fail_if (0 <=? n) (line "write(fd, %p, 8192) returned %d, not -1") [ALong addr; AInt n] in
    do? close fd in
    do? unlink "copyin1" in
    let? n := sys (pr_write 1 addr 8192) in
    do? fail_if (0 <? n) (line "write(1, %p, 8192) returned %d, not -1 or 0") [ALong addr; AInt n] in
    let? fds := pipe_ok in
    let? n := sys (pr_write (snd fds) addr 8192) in
    do? fail_if (0 <? n) (line "write(pipe, %p, 8192) returned %d, not -1 or 0") [ALong addr; AInt n] in
    do? close (fst fds) in
    ignore (close (snd fds))).

Definition copyout (s : list Z) : U W unit :=
  every bad_addrs (fun addr =>
    let? fd := open "README" 0 in
    do? fail_if (fd <? 0) (line "open(README) failed") [] in
    let? n := sys (pr_read fd addr 8192) in
    do? fail_if (0 <? n) (line "read(fd, %p, 8192) returned %d, not -1 or 0") [ALong addr; AInt n] in
    do? close fd in
    let? fds := pipe_ok in
    let? n := puts (snd fds) "x" in
    do? fail_if (negb (n =? 1)) (line "pipe write failed") [] in
    let? n := sys (pr_read (fst fds) addr 8192) in
    do? fail_if (0 <? n) (line "read(pipe, %p, 8192) returned %d, not -1 or 0") [ALong addr; AInt n] in
    do? close (fst fds) in
    ignore (close (snd fds))).

Definition copyinstr1 (s : list Z) : U W unit :=
  every bad_addrs (fun addr =>
    let? fd := sys (pr_open addr CREATE_WR) in
    fail_if (0 <=? fd) (line "open(%p) returned %d, not -1") [ALong addr; AInt fd]).

(** [exec] with strings returns only to fail. *)
Definition exec_fails (path : list Z) (argv : list (list Z)) : U W Z :=
  do? exec path argv in done (-1).

Definition copyinstr2 (s : list Z) : U W unit :=
  let b := replicate (Z.to_nat MAXPATH) 120 in
  let? r := unlink_file b in
  do? fail_if (negb (r =? -1)) (line "unlink(%s) returned %d, not -1") [AStr (Some b); AInt r] in
  let? fd := open_file b CREATE_WR in
  do? fail_if (negb (fd =? -1)) (line "open(%s) returned %d, not -1") [AStr (Some b); AInt fd] in
  let? r := link_file b b in
  do? fail_if (negb (r =? -1)) (line "link(%s, %s) returned %d, not -1") [AStr (Some b); AStr (Some b); AInt r] in
  let? r := exec_fails b [bytes_of "xx"] in
  do? fail_if (negb (r =? -1)) (line "exec(%s) returned %d, not -1") [AStr (Some b); AInt fd] in
  let? pid := fork_quiet in
  do? uwhen (pid =? 0)
    (let big := replicate (Z.to_nat PGSIZE) 120 in
     let? r := exec_fails (bytes_of "echo") [big; big; big] in
     do? fail_if (negb (r =? -1)) (line "exec(echo, BIG) returned %d, not -1") [AInt fd] in
     exit 747) in
  let? r := wait in
  fail_if (negb (status_or 0 r =? 747)) (line "exec(echo, BIG) succeeded, should have failed") [].

(** What [%s] prints for a string in memory: every byte up to the NUL, or up
    to a page that is not mapped. *)
Definition put_str_at (a : Z) : U W unit :=
  loop (fun a =>
    let? c := peek 1 a in
    if c =? 0 then done (inr tt) else do? putc 1 c in done (inl (a + 1))) a.

(** [if(ret != -1){ printf("name(%s) returned %d, not -1\n", b, ret); exit(1); }] *)
Definition not_refused (name : string) (b r shown : Z) : U W unit :=
  uwhen (negb (r =? -1))
    (do? printf (name +:+ "(") [] in
     do? put_str_at b in
     die 1 (line ") returned %d, not -1") [AInt shown]).

Definition copyinstr3 (s : list Z) : U W unit :=
  do? sbrk 8192 in
  let? top := sbrk 0 in
  do? uwhen (negb (top mod PGSIZE =? 0)) (ignore (sbrk (PGSIZE - top mod PGSIZE))) in
  let? top := sbrk 0 in
  do? fail_if (negb (top mod PGSIZE =? 0)) (line "oops") [] in
  let b := top - 1 in
  do? poke 1 b 120 in
  let? r := sys (pr_unlink b) in
  do? not_refused "unlink" b r r in
  let? fd := sys (pr_open b CREATE_WR) in
  do? not_refused "open" b fd fd in
  let? r := sys (pr_link (At b) (At b)) in
  do? uwhen (negb (r =? -1))
    (do? printf "link(" [] in do? put_str_at b in do? printf ", " [] in do? put_str_at b in
     die 1 (line ") returned %d, not -1") [AInt r]) in
  let? r := exec_at (At b) [Bytes (bytes_of "xx")] in
  not_refused "exec" b r fd.

Definition rwsbrk (s : list Z) : U W unit :=
  let? a := sbrk 8192 in
  do? fail_if (a =? MINUS1) (line "sbrk(rwsbrk) failed") [] in
  let? r := sbrk (-8192) in
  do? fail_if (r =? MINUS1) (line "sbrk(rwsbrk) shrink failed") [] in
  let? fd := open "rwsbrk" CREATE_WR in
  do? fail_if (fd <? 0) (line "open(rwsbrk) failed") [] in
  let? n := sys (pr_write fd (u64 (a + 4096)) 1024) in
  do? fail_if (0 <=? n) (line "write(fd, %p, 1024) returned %d, not -1") [ALong (u64 (a + 4096)); AInt n] in
  do? close fd in
  do? unlink "rwsbrk" in
  let? fd := open "README" O_RDONLY in
  do? fail_if (fd <? 0) (line "open(rwsbrk) failed") [] in
  let? n := sys (pr_read fd (u64 (a + 4096)) 10) in
  do? fail_if (0 <=? n) (line "read(fd, %p, 10) returned %d, not -1") [ALong (u64 (a + 4096)); AInt n] in
  do? close fd in
  exit 0.

(** ** [O_TRUNC] *)

(** [n = read(fd, buf, sizeof(buf)); if(n != want){ ... }] *)
Definition reads_count (s : list Z) (fd want : Z) (note : U W unit) : U W unit :=
  let? r := read fd 32 in
  uwhen (negb (fst r =? want))
    (do? note in die 1 (line "%s: read %d bytes, wanted %d") [AStr (Some s); AInt (fst r); AInt want]).

Definition truncate1 (s : list Z) : U W unit :=
  do? unlink "truncfile" in
  let? fd1 := open "truncfile" CREATE_WR_TRUNC in
  do? puts fd1 "abcd" in
  do? close fd1 in
  let? fd2 := open "truncfile" O_RDONLY in
  do? reads_count s fd2 4 (done tt) in
  let? fd1 := open "truncfile" (Z.lor O_WRONLY O_TRUNC) in
  let? fd3 := open "truncfile" O_RDONLY in
  do? reads_count s fd3 0 (printf (line "aaa fd3=%d") [AInt fd3]) in
  do? reads_count s fd2 0 (printf (line "bbb fd2=%d") [AInt fd2]) in
  do? puts fd1 "abcdef" in
  do? reads_count s fd3 6 (done tt) in
  do? reads_count s fd2 2 (done tt) in
  do? unlink "truncfile" in
  do? close fd1 in
  do? close fd2 in
  ignore (close fd3).

Definition truncate2 (s : list Z) : U W unit :=
  do? unlink "truncfile" in
  let? fd1 := open "truncfile" CREATE_WR_TRUNC in
  do? puts fd1 "abcd" in
  let? fd2 := open "truncfile" (Z.lor O_TRUNC O_WRONLY) in
  let? n := puts fd1 "x" in
  do? bad s (negb (n =? -1)) "write returned %d, expected -1" [AInt n] in
  do? unlink "truncfile" in
  do? close fd1 in
  ignore (close fd2).

Definition truncate3_child (s : list Z) : U W unit :=
  do? times 100
    (let? fd := open "truncfile" O_WRONLY in
     do? bad s (fd <? 0) "open failed" [] in
     let? n := puts fd "1234567890" in
     do? bad s (negb (n =? 10)) "write got %d, expected 10" [AInt n] in
     do? close fd in
     let? fd := open "truncfile" O_RDONLY in
     do? read fd 32 in
     ignore (close fd)) in
  exit 0.

Definition truncate3 (s : list Z) : U W unit :=
  let? fd := open "truncfile" CREATE_WR_TRUNC in
  do? close fd in
  let? pid := fork_ok s in
  do? uwhen (pid =? 0) (truncate3_child s) in
  do? times 150
    (let? fd := open "truncfile" CREATE_WR_TRUNC in
     do? bad s (fd <? 0) "open failed" [] in
     let? n := puts fd "xxx" in
     do? bad s (negb (n =? 3)) "write got %d, expected 3" [AInt n] in
     ignore (close fd)) in
  let? r := wait in
  do? unlink "truncfile" in
  exit (snd r).

(** ** Inodes *)

Definition iputtest (s : list Z) : U W unit :=
  let? r := mkdir "iputdir" in
  do? bad s (r <? 0) "mkdir failed" [] in
  let? r := chdir "iputdir" in
  do? bad s (r <? 0) "chdir iputdir failed" [] in
  let? r := unlink "../iputdir" in
  do? bad s (r <? 0) "unlink ../iputdir failed" [] in
  let? r := chdir "/" in
  bad s (r <? 0) "chdir / failed" [].

Definition exitiputtest (s : list Z) : U W unit :=
  let? pid := fork_ok s in
  do? uwhen (pid =? 0)
    (let? r := mkdir "iputdir" in
     do? bad s (r <? 0) "mkdir failed" [] in
     let? r := chdir "iputdir" in
     do? bad s (r <? 0) "child chdir failed" [] in
     let? r := unlink "../iputdir" in
     do? bad s (r <? 0) "unlink ../iputdir failed" [] in
     exit 0) in
  let? r := wait in
  exit (snd r).

Definition openiputtest (s : list Z) : U W unit :=
  let? r := mkdir "oidir" in
  do? bad s (r <? 0) "mkdir oidir failed" [] in
  let? pid := fork_ok s in
  do? uwhen (pid =? 0)
    (let? fd := open "oidir" O_RDWR in
     do? bad s (0 <=? fd) "open directory for write succeeded" [] in
     exit 0) in
  do? sleep 1 in
  let? r := unlink "oidir" in
  do? bad s (negb (r =? 0)) "unlink failed" [] in
  let? r := wait in
  exit (snd r).

(** ** Simple file system tests *)

Definition opentest (s : list Z) : U W unit :=
  let? fd := open "echo" 0 in
  do? bad s (fd <? 0) "open echo failed!" [] in
  do? close fd in
  let? fd := open "doesnotexist" 0 in
  bad s (0 <=? fd) "open doesnotexist succeeded!" [].

Definition writetest (s : list Z) : U W unit :=
  let? fd := creat "small" in
  do? bad s (fd <? 0) "error: creat small failed!" [] in
  do? every (seqZ 0 100) (fun i =>
    let? n := puts fd "aaaaaaaaaa" in
    do? bad s (negb (n =? 10)) "error: write aa %d new file failed" [AInt i] in
    let? n := puts fd "bbbbbbbbbb" in
    bad s (negb (n =? 10)) "error: write bb %d new file failed" [AInt i]) in
  do? close fd in
  let? fd := open "small" O_RDONLY in
  do? bad s (fd <? 0) "error: open small failed!" [] in
  let? r := read fd (100 * 10 * 2) in
  do? bad s (negb (fst r =? 100 * 10 * 2)) "read failed" [] in
  do? close fd in
  let? r := unlink "small" in
  bad s (r <? 0) "unlink small failed" [].

(** The loop that reads the big file back: [n] blocks so far. *)
Definition writebig_check (s : list Z) (fd : Z) (buf : list Z) : U W unit :=
  loop (fun st =>
    let '(n, buf) := st in
    let? r := read fd BSIZE in
    let i := fst r in
    let buf := buf_store buf 0 (snd r) in
    if i =? 0 then
      do? fail_if (n =? MAXFILE - 1) "%s: read only %d blocks from big" [AStr (Some s); AInt n] in
      done (inr tt)
    else
      do? bad s (negb (i =? BSIZE)) "read failed %d" [AInt i] in
      do? bad s (negb (bytes_int buf =? n)) "read content of block %d is %d" [AInt n; AInt (bytes_int buf)] in
      done (inl (n + 1, buf))) (0, buf).

Definition writebig (s : list Z) : U W unit :=
  let? fd := creat "big" in
  do? bad s (fd <? 0) "error: creat big failed!" [] in
  let? buf := folds (seqZ 0 MAXFILE) buf0 (fun i buf =>
    let buf := buf_store buf 0 (int_bytes i) in
    let? n := write fd (take (Z.to_nat BSIZE) buf) in
    do? bad s (negb (n =? BSIZE)) "error: write big file failed" [] in
    done buf) in
  do? close fd in
  let? fd := open "big" O_RDONLY in
  do? bad s (fd <? 0) "error: open big failed!" [] in
  do? writebig_check s fd buf in
  do? close fd in
  let? r := unlink "big" in
  bad s (r <? 0) "unlink big failed" [].

Definition createtest (s : list Z) : U W unit :=
  do? every (seqZ 0 52) (fun i =>
    let? fd := open_file [97; chr 48 i] (Z.lor O_CREATE O_RDWR) in ignore (close fd)) in
  every (seqZ 0 52) (fun i => ignore (unlink_file [97; chr 48 i])).

Definition dirtest (s : list Z) : U W unit :=
  let? r := mkdir "dir0" in
  do? bad s (r <? 0) "mkdir failed" [] in
  let? r := chdir "dir0" in
  do? bad s (r <? 0) "chdir dir0 failed" [] in
  let? r := chdir ".." in
  do? bad s (r <? 0) "chdir .. failed" [] in
  let? r := unlink "dir0" in
  bad s (r <? 0) "unlink dir0 failed" [].

Definition exectest (s : list Z) : U W unit :=
  do? unlink "echo-ok" in
  let? pid := fork_ok s in
  do? uwhen (pid =? 0)
    (do? close 1 in
     let? fd := open "echo-ok" CREATE_WR in
     do? bad s (fd <? 0) "create failed" [] in
     do? bad s (negb (fd =? 1)) "wrong fd" [] in
     let? r := exec_fails (bytes_of "echo") [bytes_of "echo"; bytes_of "OK"] in
     bad s (r <? 0) "exec echo failed" []) in
  let? r := wait in
  do? uwhen (negb (fst r =? pid)) (printf (line "%s: wait failed!") [AStr (Some s)]) in
  do? uwhen (negb (snd r =? 0)) (exit (snd r)) in
  let? fd := open "echo-ok" O_RDONLY in
  do? bad s (fd <? 0) "open failed" [] in
  let? r := read fd 2 in
  do? bad s (negb (fst r =? 2)) "read failed" [] in
  do? unlink "echo-ok" in
  let buf := snd r in
  if (default 0 (buf !! 0%nat) =? 79) && (default 0 (buf !! 1%nat) =? 75) then exit 0
  else die 1 (line "%s: wrong output") [AStr (Some s)].

(** ** Pipes and processes *)

(** The child of [pipe1]: five writes of the next 1033 values of a counter. *)
Definition pipe1_child (s : list Z) (wr : Z) : U W unit :=
  do? folds (seqZ 0 5) 0 (fun _ seq =>
    let? n := write wr (u8 <$> seqZ seq 1033) in
    do? bad s (negb (n =? 1033)) "pipe1 oops 1" [] in
    done (seq + 1033)) in
  exit 0.

(** Is every byte the next value of the counter? *)
Fixpoint in_sequence (bs : list Z) (seq : Z) : bool :=
  match bs with [] => true | b :: bs' => (b =? u8 seq) && in_sequence bs' (seq + 1) end.

(** The parent's loop: the total, or [None] when the data is wrong. *)
Definition pipe1_read (s : list Z) (rd : Z) : U W (option Z) :=
  loop (fun st =>
    let '(seq, total, cc) := st in
    let? r := read rd cc in
    let n := fst r in
    if 0 <? n then
      if negb (in_sequence (take (Z.to_nat n) (snd r)) seq) then
        do? printf (line "%s: pipe1 oops 2") [AStr (Some s)] in done (inr None)
      else
        let cc := cc * 2 in
        done (inl (seq + n, total + n, if BUFSZ <? cc then BUFSZ else cc))
    else done (inr (Some total))) (0, 0, 1).

(** The last message is given the total for its [%s]. *)
Definition pipe1 (s : list Z) : U W unit :=
  let? r := pipe in
  do? bad s (negb (fst r =? 0)) "pipe() failed" [] in
  let '(rd, wr) := snd r in
  let? pid := fork in
  if pid =? 0 then do? close rd in pipe1_child s wr
  else if 0 <? pid then
    do? close wr in
    let? total := pipe1_read s rd in
    match total with
    | None => done tt
    | Some total =>
        do? fail_if (negb (total =? 5 * 1033)) (line "%s: pipe1 oops 3 total %d") [AInt total] in
        do? close rd in
        let? r := wait in
        exit (snd r)
    end
  else die 1 (line "%s: fork() failed") [AStr (Some s)].

Definition killstatus (s : list Z) : U W unit :=
  do? times 100
    (let? pid1 := fork_ok s in
     do? uwhen (pid1 =? 0) (forever (ignore getpid)) in
     do? sleep 1 in
     do? kill pid1 in
     let? r := wait in
     bad s (negb (snd r =? -1)) "status should be -1" []) in
  exit 0.

Definition preempt (s : list Z) : U W unit :=
  let? pid1 := fork in
  do? bad_nonl s (pid1 <? 0) "fork failed" in
  do? uwhen (pid1 =? 0) (forever (done tt)) in
  let? pid2 := fork_ok s in
  do? uwhen (pid2 =? 0) (forever (done tt)) in
  let? p := pipe in
  let '(rd, wr) := snd p in
  let? pid3 := fork_ok s in
  do? uwhen (pid3 =? 0)
    (do? close rd in
     let? n := puts wr "x" in
     do? uwhen (negb (n =? 1)) (printf "%s: preempt write error" [AStr (Some s)]) in
     do? close wr in
     forever (done tt)) in
  do? close wr in
  let? r := read rd BUFSZ in
  if negb (fst r =? 1) then printf "%s: preempt read error" [AStr (Some s)] else
  do? close rd in
  do? printf "kill... " [] in
  do? kill pid1 in
  do? kill pid2 in
  do? kill pid3 in
  do? printf "wait... " [] in
  times 3 (ignore wait).

Definition exitwait (s : list Z) : U W unit :=
  every (seqZ 0 100) (fun i =>
    let? pid := fork_ok s in
    if negb (pid =? 0) then
      let? r := wait in
      do? bad s (negb (fst r =? pid)) "wait wrong pid" [] in
      bad s (negb (i =? snd r)) "wait wrong exit status" []
    else exit i).

Definition reparent (s : list Z) : U W unit :=
  let? master_pid := getpid in
  do? times 200
    (let? pid := fork_ok s in
     if negb (pid =? 0) then
       let? r := wait in bad s (negb (fst r =? pid)) "wait wrong pid" []
     else
       let? pid2 := fork in
       do? uwhen (pid2 <? 0) (do? kill master_pid in exit 1) in
       exit 0) in
  exit 0.

Definition twochildren (s : list Z) : U W unit :=
  times 1000
    (let? pid1 := fork_ok s in
     if pid1 =? 0 then exit 0 else
     let? pid2 := fork_ok s in
     if pid2 =? 0 then exit 0 else
     do? wait in ignore wait).

Definition forkfork (s : list Z) : U W unit :=
  do? times 2
    (let? pid := fork in
     do? bad_nonl s (pid <? 0) "fork failed" in
     uwhen (pid =? 0)
       (do? times 200
          (let? pid1 := fork in
           do? uwhen (pid1 <? 0) (exit 1) in
           do? uwhen (pid1 =? 0) (exit 0) in
           ignore wait) in
        exit 0)) in
  times 2 (let? r := wait in bad_nonl s (negb (snd r =? 0)) "fork in child failed").

Definition forkforkfork (s : list Z) : U W unit :=
  do? unlink "stopforking" in
  let? pid := fork in
  do? bad_nonl s (pid <? 0) "fork failed" in
  do? uwhen (pid =? 0)
    (forever
       (let? fd := open "stopforking" 0 in
        do? uwhen (0 <=? fd) (exit 0) in
        let? r := fork in
        uwhen (r <? 0) (let? fd := creat "stopforking" in ignore (close fd)))) in
  do? sleep 20 in
  let? fd := creat "stopforking" in
  do? close fd in
  do? wait in
  ignore (sleep 10).

Definition reparent2 (s : list Z) : U W unit :=
  do? times 800
    (let? pid1 := fork_quiet in
     do? uwhen (pid1 =? 0) (do? fork in do? fork in exit 0) in
     ignore wait) in
  exit 0.

(** ** The user allocator *)

(** Runs a computation on the allocator's state, which a process starts with
    empty, and forgets that state. *)
Fixpoint leave_heap {A} (r : res (heap W) A) : res W A :=
  match r with
  | Ret a h => Ret a (world h)
  | Panic msg h => Panic msg (world h)
  | Ub what h => Ub what (world h)
  | Spin h => Spin (world h)
  | Swtch h k => Swtch (world h) (fun w => leave_heap (k (mk_heap (h_ptr h) (h_size h) (freep h) w)))
  | Fuel h => Fuel (world h)
  end.
Definition with_heap {A} (m : M (heap W) A) : M W A := fun w => leave_heap (m (mk_heap ∅ ∅ 0 w)).
Definition on_world {A} (m : M W A) : M (heap W) A :=
  zoom world (fun w h => mk_heap (h_ptr h) (h_size h) (freep h) w) m.

(** The child of [mem], on the allocator: blocks of 10001 bytes, each holding
    the address of the one before, until there are no more; all freed again;
    and a large one. The result is its exit status. *)
Definition mem_child (base : Z) : U (heap W) unit :=
  let? m1 := loop (fun m1 =>
    let? m2 := sys (malloc base 10001) in
    if negb (m2 =? 0) then do? on_world (poke 8 m2 m1) in done (inl m2)
    else done (inr m1)) 0 in
  do? loop (fun m1 =>
    if negb (m1 =? 0) then
      let? m2 := on_world (peek 8 m1) in
      do? sys (Umalloc.free m1) in
      done (inl m2)
    else done (inr tt)) m1 in
  let? m1 := sys (malloc base (1024 * 20)) in
  do? uwhen (m1 =? 0) (on_world (die 1 (line "couldn't allocate mem?!!") [])) in
  do? sys (Umalloc.free m1) in
  exit 0.

(** [base] is where the allocator's static header lies. *)
Definition mem (base : Z) (s : list Z) : U W unit :=
  let? pid := fork in
  if pid =? 0 then with_heap (mem_child base)
  else
    let? r := wait in
    do? uwhen (snd r =? -1) (exit 0) in
    exit (snd r).
End quick.
