(* ===== verification/UtestsDir.v ===== *)
(** * usertests: shared files, directories and memory

    The tests of [user/usertests.c] from [sharedfd] to [badarg]. *)

From S2P Require Import Prelude Riscv Cstring User Ulib Umalloc Utest Utests UtestsFile.

Section quick2.
Context {W : Type} `{OS W} `{Process W}.

Definition RDWR_CREATE : Z := Z.lor O_CREATE O_RDWR.
(** [close(open(file, flags))] *)
Definition touch_file (path : list Z) (flags : Z) : U W unit :=
  let? fd := open_file path flags in ignore (close fd).

(** ** Sharing *)

(** The counts of 'c' and 'p' in the ten bytes of [buf]. *)
Definition count_cp (buf : list Z) (k : Z * Z) : Z * Z :=
  fold_left (fun k b => (if b =? 99 then fst k + 1 else fst k, if b =? 112 then snd k + 1 else snd k)) buf k.

Definition sharedfd_count (fd : Z) (buf : list Z) : U W (Z * Z) :=
  loop (fun st =>
    let '(buf, k) := st in
    let? r := read fd 10 in
    let buf := buf_store buf 0 (snd r) in
    if 0 <? fst r then done (inl (buf, count_cp buf k)) else done (inr k)) (buf, (0, 0)).

Definition sharedfd (s : list Z) : U W unit :=
  do? unlink "sharedfd" in
  let? fd := creat "sharedfd" in
  do? bad_nonl s (fd <? 0) "cannot open sharedfd for writing" in
  let? pid := fork in
  let buf := replicate 10 (if pid =? 0 then 99 else 112) in
  do? times 1000
    (let? n := write fd buf in bad s (negb (n =? 10)) "write sharedfd failed" []) in
  do? (if pid =? 0 then exit 0 else
       let? r := wait in uwhen (negb (snd r =? 0)) (exit (snd r))) in
  do? close fd in
  let? fd := open "sharedfd" 0 in
  do? bad s (fd <? 0) "cannot open sharedfd for reading" [] in
  let? k := sharedfd_count fd buf in
  do? close fd in
  do? unlink "sharedfd" in
  if (fst k =? 1000 * 10) && (snd k =? 1000 * 10) then exit 0
  else die 1 (line "%s: nc/np test fails") [AStr (Some s)].

Definition fourfiles_child (fname : list Z) (pi : Z) : U W unit :=
  let? fd := open_file fname RDWR_CREATE in
  do? fail_if (fd <? 0) (line "create failed") [] in
  let buf := replicate 500 (chr 48 pi) in
  do? times 12
    (let? n := write fd buf in fail_if (negb (n =? 500)) (line "write failed %d") [AInt n]) in
  exit 0.

(** The length of a file all of whose bytes are [c]. *)
Definition fourfiles_total (fd c : Z) : U W Z :=
  loop (fun total =>
    let? r := read fd BUFSZ in
    if 0 <? fst r then
      do? every (take (Z.to_nat (fst r)) (snd r)) (fun b => fail_if (negb (b =? c)) (line "wrong char") []) in
      done (inl (total + fst r))
    else done (inr total)) 0.

Definition fourfiles_name (i : Z) : list Z := [102; chr 48 i].

Definition fourfiles (s : list Z) : U W unit :=
  do? every (seqZ 0 4) (fun pi =>
    do? unlink_file (fourfiles_name pi) in
    let? pid := fork_quiet in
    uwhen (pid =? 0) (fourfiles_child (fourfiles_name pi) pi)) in
  do? times 4 (let? r := wait in uwhen (negb (snd r =? 0)) (exit (snd r))) in
  every (seqZ 0 4) (fun i =>
    let? fd := open_file (fourfiles_name i) 0 in
    let? total := fourfiles_total fd (chr 48 i) in
    do? close fd in
    do? fail_if (negb (total =? 12 * 500)) (line "wrong length %d") [AInt total] in
    ignore (unlink_file (fourfiles_name i))).

(** The file of child [pi] with number [i]. *)
Definition cd_name (pi i : Z) : list Z := [chr 112 pi; chr 48 i].

Definition createdelete_child (s : list Z) (pi : Z) : U W unit :=
  do? every (seqZ 0 20) (fun i =>
    let? fd := open_file (cd_name pi i) RDWR_CREATE in
    do? bad s (fd <? 0) "create failed" [] in
    do? close fd in
    uwhen ((0 <? i) && (i mod 2 =? 0))
      (let? r := unlink_file (cd_name pi (i / 2)) in bad s (r <? 0) "unlink failed" [])) in
  exit 0.

Definition createdelete_check (s : list Z) (i pi : Z) : U W unit :=
  let name := cd_name pi i in
  let? fd := open_file name 0 in
  do? (if ((i =? 0) || (10 <=? i)) && (fd <? 0) then
         die 1 (line "%s: oops createdelete %s didn't exist") [AStr (Some s); AStr (Some name)]
       else if (1 <=? i) && (i <? 10) && (0 <=? fd) then
         die 1 (line "%s: oops createdelete %s did exist") [AStr (Some s); AStr (Some name)]
       else done tt) in
  uwhen (0 <=? fd) (ignore (close fd)).

(** The name the clean-up uses for [i] and [pi]: both characters are made from
    [i]. *)
Definition cleanup_name (i pi : Z) : list Z := [chr 112 i; chr 48 i].

Definition createdelete (s : list Z) : U W unit :=
  do? every (seqZ 0 4) (fun pi =>
    let? pid := fork_quiet in uwhen (pid =? 0) (createdelete_child s pi)) in
  do? times 4 (let? r := wait in uwhen (negb (snd r =? 0)) (exit 1)) in
  do? every (seqZ 0 20) (fun i => every (seqZ 0 4) (fun pi => createdelete_check s i pi)) in
  every (seqZ 0 20) (fun i => every (seqZ 0 4) (fun pi => ignore (unlink_file (cleanup_name i pi)))).

(** ** Links *)

Definition unlinkread (s : list Z) : U W unit :=
  let? fd := creat "unlinkread" in
  do? bad s (fd <? 0) "create unlinkread failed" [] in
  do? puts fd "hello" in
  do? close fd in
  let? fd := open "unlinkread" O_RDWR in
  do? bad s (fd <? 0) "open unlinkread failed" [] in
  let? r := unlink "unlinkread" in
  do? bad s (negb (r =? 0)) "unlink unlinkread failed" [] in
  let? fd1 := creat "unlinkread" in
  do? puts fd1 "yyy" in
  do? close fd1 in
  let? r := read fd BUFSZ in
  do? bad_nonl s (negb (fst r =? 5)) "unlinkread read failed" in
  let buf := buf_store buf0 0 (snd r) in
  do? bad s (negb (default 0 (buf !! 0%nat) =? 104)) "unlinkread wrong data" [] in
  let? n := write fd (take 10 buf) in
  do? bad s (negb (n =? 10)) "unlinkread write failed" [] in
  do? close fd in
  ignore (unlink "unlinkread").

Definition linktest (s : list Z) : U W unit :=
  do? unlink "lf1" in
  do? unlink "lf2" in
  let? fd := creat "lf1" in
  do? bad s (fd <? 0) "create lf1 failed" [] in
  let? n := puts fd "hello" in
  do? bad s (negb (n =? 5)) "write lf1 failed" [] in
  do? close fd in
  let? r := link "lf1" "lf2" in
  do? bad s (r <? 0) "link lf1 lf2 failed" [] in
  do? unlink "lf1" in
  let? r := open "lf1" 0 in
  do? bad s (0 <=? r) "unlinked lf1 but it is still there!" [] in
  let? fd := open "lf2" 0 in
  do? bad s (fd <? 0) "open lf2 failed" [] in
  let? r := read fd BUFSZ in
  do? bad s (negb (fst r =? 5)) "read lf2 failed" [] in
  do? close fd in
  let? r := link "lf2" "lf2" in
  do? bad s (0 <=? r) "link lf2 lf2 succeeded! oops" [] in
  do? unlink "lf2" in
  let? r := link "lf2" "lf1" in
  do? bad s (0 <=? r) "link non-existent succeeded! oops" [] in
  let? r := link "." "lf1" in
  bad s (0 <=? r) "link . lf1 succeeded! oops" [].

Definition c_name (i : Z) : list Z := [67; chr 48 i].

(** Forty files made by two processes, by [link] or [open]. *)
Definition concreate_make (i : Z) : U W unit :=
  let file := c_name i in
  do? unlink_file file in
  let? pid := fork in
  do? (if negb (pid =? 0) && (i mod 3 =? 1) then ignore (link_file (bytes_of "C0") file)
       else if (pid =? 0) && (i mod 5 =? 1) then ignore (link_file (bytes_of "C0") file)
       else
         let? fd := open_file file RDWR_CREATE in
         do? fail_if (fd <? 0) (line "concreate create %s failed") [AStr (Some file)] in
         ignore (close fd)) in
  if pid =? 0 then exit 0 else
  let? r := wait in uwhen (negb (snd r =? 0)) (exit 1).

(** The directory read entry by entry: which of the files it lists and how
    many. [de] is the entry, two bytes of inode number and fourteen of name. *)
Definition concreate_list (s : list Z) (fd : Z) : U W Z :=
  loop (fun st =>
    let '(fa, n, de) := st in
    let? r := read fd 16 in
    let de := buf_store de 0 (snd r) in
    let name := drop 2 de in
    let at_ (i : nat) : Z := default 0 (name !! i) in
    if negb (0 <? fst r) then done (inr n) else
    if default 0 (de !! 0%nat) + 256 * default 0 (de !! 1%nat) =? 0 then done (inl (fa, n, de)) else
    if (at_ 0%nat =? 67) && (at_ 2%nat =? 0) then
      let i := at_ 1%nat - 48 in
      do? bad s ((i <? 0) || (40 <=? i)) "concreate weird file %s" [AStr (Some (cstr name))] in
      do? bad s (default false (fa !! Z.to_nat i)) "concreate duplicate file %s" [AStr (Some (cstr name))] in
      done (inl (<[Z.to_nat i := true]> fa, n + 1, de))
    else done (inl (fa, n, de))) (replicate 40 false, 0, replicate 16 0).

Definition concreate_remove (s : list Z) (i : Z) : U W unit :=
  let file := c_name i in
  let? pid := fork_ok s in
  do? (if ((i mod 3 =? 0) && (pid =? 0)) || ((i mod 3 =? 1) && negb (pid =? 0))
       then times 6 (touch_file file 0)
       else times 6 (ignore (unlink_file file))) in
  if pid =? 0 then exit 0 else ignore wait.

Definition concreate (s : list Z) : U W unit :=
  do? every (seqZ 0 40) concreate_make in
  let? fd := open "." 0 in
  let? n := concreate_list s fd in
  do? close fd in
  do? bad s (negb (n =? 40)) "concreate not enough files in directory listing" [] in
  every (seqZ 0 40) (concreate_remove s).

Definition linkunlink (s : list Z) : U W unit :=
  do? unlink "x" in
  let? pid := fork_ok s in
  do? folds (seqZ 0 100) (if negb (pid =? 0) then 1 else 97) (fun _ x =>
    let x := u32 (x * 1103515245 + 12345) in
    do? (if x mod 3 =? 0 then touch_file (bytes_of "x") (Z.lor O_RDWR O_CREATE)
         else if x mod 3 =? 1 then ignore (link "cat" "x")
         else ignore (unlink "x")) in
    done x) in
  if negb (pid =? 0) then ignore wait else exit 0.

(** ** Directories *)

(** [if(call != 0){ ... }], [if(call == 0){ ... }], [if(call < 0){ ... }] and
    [if(call >= 0){ ... }] with the message that goes with it. *)
Definition must (s : list Z) (call : U W Z) (msg : string) : U W unit :=
  let? r := call in bad s (negb (r =? 0)) msg [].
Definition must_not (s : list Z) (call : U W Z) (msg : string) : U W unit :=
  let? r := call in bad s (r =? 0) msg [].
Definition no_error (s : list Z) (call : U W Z) (msg : string) : U W unit :=
  let? r := call in bad s (r <? 0) msg [].
Definition an_error (s : list Z) (call : U W Z) (msg : string) : U W unit :=
  let? r := call in bad s (0 <=? r) msg [].
(** A file created with two bytes in it. *)
Definition create_with (s : list Z) (path : string) (msg text : string) : U W unit :=
  let? fd := creat path in
  do? bad s (fd <? 0) msg [] in
  do? puts fd text in
  ignore (close fd).

(** The first part of [subdir]: what exists. *)
Definition subdir_make (s : list Z) : U W unit :=
  do? unlink "ff" in
  do? must s (mkdir "dd") "mkdir dd failed" in
  do? create_with s "dd/ff" "create dd/ff failed" "ff" in
  do? an_error s (unlink "dd") "unlink dd (non-empty dir) succeeded!" in
  let? r := mkdir "/dd/dd" in
  do? fail_if (negb (r =? 0)) (line "subdir mkdir dd/dd failed") [] in
  do? create_with s "dd/dd/ff" "create dd/dd/ff failed" "FF" in
  let? fd := open "dd/dd/../ff" 0 in
  do? bad s (fd <? 0) "open dd/dd/../ff failed" [] in
  let? r := read fd BUFSZ in
  do? bad s (negb (fst r =? 2) || negb (default 0 (snd r !! 0%nat) =? 102)) "dd/dd/../ff wrong content" [] in
  do? close fd in
  let? r := link "dd/dd/ff" "dd/dd/ffff" in
  do? fail_if (negb (r =? 0)) (line "link dd/dd/ff dd/dd/ffff failed") [] in
  do? must s (unlink "dd/dd/ff") "unlink dd/dd/ff failed" in
  do? an_error s (open "dd/dd/ff" O_RDONLY) "open (unlinked) dd/dd/ff succeeded" in
  do? must s (chdir "dd") "chdir dd failed" in
  do? must s (chdir "dd/../../dd") "chdir dd/../../dd failed" in
  let? r := chdir "dd/../../../dd" in
  do? fail_if (negb (r =? 0)) (line "chdir dd/../../dd failed") [] in
  do? must s (chdir "./..") "chdir ./.. failed" in
  let? fd := open "dd/dd/ffff" 0 in
  do? bad s (fd <? 0) "open dd/dd/ffff failed" [] in
  let? r := read fd BUFSZ in
  do? bad s (negb (fst r =? 2)) "read dd/dd/ffff wrong len" [] in
  ignore (close fd).

(** The second part: what must be refused, and the removal. *)
Definition subdir_refuse (s : list Z) : U W unit :=
  do? an_error s (open "dd/dd/ff" O_RDONLY) "open (unlinked) dd/dd/ff succeeded!" in
  do? an_error s (creat "dd/ff/ff") "create dd/ff/ff succeeded!" in
  do? an_error s (creat "dd/xx/ff") "create dd/xx/ff succeeded!" in
  do? an_error s (open "dd" O_CREATE) "create dd succeeded!" in
  do? an_error s (open "dd" O_RDWR) "open dd rdwr succeeded!" in
  do? an_error s (open "dd" O_WRONLY) "open dd wronly succeeded!" in
  do? must_not s (link "dd/ff/ff" "dd/dd/xx") "link dd/ff/ff dd/dd/xx succeeded!" in
  do? must_not s (link "dd/xx/ff" "dd/dd/xx") "link dd/xx/ff dd/dd/xx succeeded!" in
  do? must_not s (link "dd/ff" "dd/dd/ffff") "link dd/ff dd/dd/ffff succeeded!" in
  do? must_not s (mkdir "dd/ff/ff") "mkdir dd/ff/ff succeeded!" in
  do? must_not s (mkdir "dd/xx/ff") "mkdir dd/xx/ff succeeded!" in
  do? must_not s (mkdir "dd/dd/ffff") "mkdir dd/dd/ffff succeeded!" in
  do? must_not s (unlink "dd/xx/ff") "unlink dd/xx/ff succeeded!" in
  do? must_not s (unlink "dd/ff/ff") "unlink dd/ff/ff succeeded!" in
  do? must_not s (chdir "dd/ff") "chdir dd/ff succeeded!" in
  do? must_not s (chdir "dd/xx") "chdir dd/xx succeeded!" in
  do? must s (unlink "dd/dd/ffff") "unlink dd/dd/ff failed" in
  do? must s (unlink "dd/ff") "unlink dd/ff failed" in
  do? must_not s (unlink "dd") "unlink non-empty dd succeeded!" in
  do? no_error s (unlink "dd/dd") "unlink dd/dd failed" in
  no_error s (unlink "dd") "unlink dd failed".

Definition subdir (s : list Z) : U W unit := do? subdir_make s in subdir_refuse s.

Definition bigwrite (s : list Z) : U W unit :=
  do? unlink "bigwrite" in
  stride 499 ((MAXOPBLOCKS + 2) * BSIZE) 471 (fun sz =>
    let? fd := creat "bigwrite" in
    do? bad s (fd <? 0) "cannot create bigwrite" [] in
    do? times 2
      (let? cc := write fd (take (Z.to_nat sz) buf0) in
       bad s (negb (cc =? sz)) "write(%d) ret %d" [AInt sz; AInt cc]) in
    do? close fd in
    ignore (unlink "bigwrite")).

(** Blocks of 300 bytes read back: [i] of them so far, [total] bytes. *)
Definition bigfile_check (s : list Z) (fd : Z) (buf : list Z) : U W Z :=
  loop (fun st =>
    let '(i, total, buf) := st in
    let? r := read fd (600 / 2) in
    let cc := fst r in
    let buf := buf_store buf 0 (snd r) in
    do? bad s (cc <? 0) "read bigfile failed" [] in
    if cc =? 0 then done (inr total) else
    do? bad s (negb (cc =? 600 / 2)) "short read bigfile" [] in
    do? bad s (negb (default 0 (buf !! 0%nat) =? i / 2) || negb (default 0 (buf !! Z.to_nat (600 / 2 - 1)) =? i / 2))
      "read bigfile wrong data" [] in
    done (inl (i + 1, total + cc, buf))) (0, 0, buf).

Definition bigfile (s : list Z) : U W unit :=
  do? unlink "bigfile.dat" in
  let? fd := creat "bigfile.dat" in
  do? bad_nonl s (fd <? 0) "cannot create bigfile" in
  let? buf := folds (seqZ 0 20) buf0 (fun i buf =>
    let buf := buf_store buf 0 (replicate 600 i) in
    let? n := write fd (take 600 buf) in
    do? bad s (negb (n =? 600)) "write bigfile failed" [] in
    done buf) in
  do? close fd in
  let? fd := open "bigfile.dat" 0 in
  do? bad s (fd <? 0) "cannot open bigfile" [] in
  let? total := bigfile_check s fd buf in
  do? close fd in
  do? bad s (negb (total =? 20 * 600)) "read bigfile wrong total" [] in
  ignore (unlink "bigfile.dat").

Definition fourteen (s : list Z) : U W unit :=
  do? must s (mkdir "12345678901234") "mkdir 12345678901234 failed" in
  do? must s (mkdir "12345678901234/123456789012345") "mkdir 12345678901234/123456789012345 failed" in
  let? fd := open "123456789012345/123456789012345/123456789012345" O_CREATE in
  do? bad s (fd <? 0) "create 123456789012345/123456789012345/123456789012345 failed" [] in
  do? close fd in
  let? fd := open "12345678901234/12345678901234/12345678901234" 0 in
  do? bad s (fd <? 0) "open 12345678901234/12345678901234/12345678901234 failed" [] in
  do? close fd in
  do? must_not s (mkdir "12345678901234/12345678901234") "mkdir 12345678901234/12345678901234 succeeded!" in
  do? must_not s (mkdir "123456789012345/12345678901234") "mkdir 12345678901234/123456789012345 succeeded!" in
  do? unlink "123456789012345/12345678901234" in
  do? unlink "12345678901234/12345678901234" in
  do? unlink "12345678901234/12345678901234/12345678901234" in
  do? unlink "123456789012345/123456789012345/123456789012345" in
  do? unlink "12345678901234/123456789012345" in
  ignore (unlink "12345678901234").

Definition rmdot (s : list Z) : U W unit :=
  do? must s (mkdir "dots") "mkdir dots failed" in
  do? must s (chdir "dots") "chdir dots failed" in
  do? must_not s (unlink ".") "rm . worked!" in
  do? must_not s (unlink "..") "rm .. worked!" in
  do? must s (chdir "/") "chdir / failed" in
  do? must_not s (unlink "dots/.") "unlink dots/. worked!" in
  do? must_not s (unlink "dots/..") "unlink dots/.. worked!" in
  must s (unlink "dots") "unlink dots failed!".

Definition dirfile (s : list Z) : U W unit :=
  let? fd := open "dirfile" O_CREATE in
  do? bad s (fd <? 0) "create dirfile failed" [] in
  do? close fd in
  do? must_not s (chdir "dirfile") "chdir dirfile succeeded!" in
  do? an_error s (open "dirfile/xx" 0) "create dirfile/xx succeeded!" in
  do? an_error s (open "dirfile/xx" O_CREATE) "create dirfile/xx succeeded!" in
  do? must_not s (mkdir "dirfile/xx") "mkdir dirfile/xx succeeded!" in
  do? must_not s (unlink "dirfile/xx") "unlink dirfile/xx succeeded!" in
  do? must_not s (link "README" "dirfile/xx") "link to dirfile/xx succeeded!" in
  do? must s (unlink "dirfile") "unlink dirfile failed!" in
  do? an_error s (open "." O_RDWR) "open . for writing succeeded!" in
  let? fd := open "." 0 in
  let? n := puts fd "x" in
  do? bad s (0 <? n) "write . succeeded!" [] in
  ignore (close fd).

Definition close_open (path : string) : U W unit :=
  let? fd := open path O_CREATE in uwhen (0 <=? fd) (ignore (close fd)).

Definition iref (s : list Z) : U W unit :=
  do? times (Z.of_nat NINODE + 1)
    (do? must s (mkdir "irefd") "mkdir irefd failed" in
     do? must s (chdir "irefd") "chdir irefd failed" in
     do? mkdir "" in
     do? link "README" "" in
     do? close_open "" in
     do? close_open "xx" in
     ignore (unlink "xx")) in
  do? times (Z.of_nat NINODE + 1) (do? chdir ".." in ignore (unlink "irefd")) in
  ignore (chdir "/").

(** The test of the same name as the program. *)
Definition forktest_user (s : list Z) : U W unit :=
  let? n := forks 1000 in
  do? bad s (n =? 0) "no fork at all!" [] in
  do? bad s (n =? 1000) "fork claimed to work 1000 times!" [] in
  do? waits (Z.to_nat n) (bad s true "wait stopped early" []) in
  let? r := wait in
  bad s (negb (fst r =? -1)) "wait got too many" [].

(** ** Memory *)

Definition TOOMUCH : Z := 1024 * 1024 * 1024.
Definition BIG : Z := 100 * 1024 * 1024.

(** [for(i = 0; i < 5000; i++)]: the break moves by one byte each time. *)
Definition sbrk_bytes (s : list Z) (a : Z) : U W Z :=
  folds (seqZ 0 5000) a (fun i a =>
    let? b := sbrk 1 in
    do? bad s (negb (b =? a)) "sbrk test failed %d %x %x" [AInt i; AInt (s32 a); AInt (s32 b)] in
    do? poke 1 b 1 in
    done (u64 (b + 1))).

Definition sbrkbasic (s : list Z) : U W unit :=
  let? pid := fork in
  do? fail_if (pid <? 0) (line "fork failed in sbrkbasic") [] in
  do? uwhen (pid =? 0)
    (let? a := sbrk TOOMUCH in
     do? uwhen (a =? MINUS1) (exit 0) in
     do? stride a (a + TOOMUCH) 4096 (fun b => poke 1 b 99) in
     exit 1) in
  let? r := wait in
  do? bad s (snd r =? 1) "too much memory allocated!" [] in
  let? a := sbrk 0 in
  let? a := sbrk_bytes s a in
  let? pid := fork in
  do? bad s (pid <? 0) "sbrk test fork failed" [] in
  do? sbrk 1 in
  let? c := sbrk 1 in
  do? bad s (negb (c =? u64 (a + 1))) "sbrk test failed post-fork" [] in
  do? uwhen (pid =? 0) (exit 0) in
  let? r := wait in
  exit (snd r).

(** [printf("%s: msg, a %x c %x\n", s, a, c)] *)
Definition bad_ac (s : list Z) (b : bool) (msg : string) (a c : Z) : U W unit :=
  bad s b (msg +:+ ", a %x c %x") [AInt (s32 a); AInt (s32 c)].

Definition sbrkmuch (s : list Z) : U W unit :=
  let? oldbrk := sbrk 0 in
  let? a := sbrk 0 in
  let amt := u64 (BIG - a) in
  let? p := sbrk (s32 amt) in
  do? bad s (negb (p =? a)) "sbrk test failed to grow big address space; enough phys mem?" [] in
  let? eee := sbrk 0 in
  do? stride a eee 4096 (fun pp => poke 1 pp 1) in
  let lastaddr := BIG - 1 in
  do? poke 1 lastaddr 99 in
  let? a := sbrk 0 in
  let? c := sbrk (- PGSIZE) in
  do? bad s (c =? MINUS1) "sbrk could not deallocate" [] in
  let? c := sbrk 0 in
  do? bad_ac s (negb (c =? u64 (a - PGSIZE))) "sbrk deallocation produced wrong address" a c in
  let? a := sbrk 0 in
  let? c := sbrk PGSIZE in
  let? wrong := (if negb (c =? a) then done true else let? d := sbrk 0 in done (negb (d =? u64 (a + PGSIZE)))) in
  do? bad_ac s wrong "sbrk re-allocation failed" a c in
  let? v := peek 1 lastaddr in
  do? bad s (v =? 99) "sbrk de-allocation didn't really deallocate" [] in
  let? a := sbrk 0 in
  let? d := sbrk 0 in
  let? c := sbrk (s32 (- (d - oldbrk))) in
  bad_ac s (negb (c =? a)) "sbrk downsize failed" a c.

(** The child is expected to be killed. *)
Definition expect_killed (s : list Z) (child : U W unit) : U W unit :=
  let? pid := fork_ok s in
  do? uwhen (pid =? 0) child in
  let? r := wait in
  uwhen (negb (snd r =? -1)) (exit 1).

Definition kernmem (s : list Z) : U W unit :=
  stride KERNBASE (KERNBASE + 2000000) 50000 (fun a =>
    expect_killed s
      (let? v := peek 1 a in
       die 1 (line "%s: oops could read %x = %x") [AStr (Some s); AInt (s32 a); AInt v])).

Definition MAXVAplus (s : list Z) : U W unit :=
  loop (fun a =>
    if negb (a =? 0) then
      do? expect_killed s
        (do? poke 1 a 99 in
         die 1 (line "%s: oops wrote %x") [AStr (Some s); AInt (s32 a)]) in
      done (inl (u64 (Z.shiftl a 1)))
    else done (inr tt)) MAXVA.

(** The ten children that allocate all they can; their pids. *)
Definition sbrkfail_forks (rd wr : Z) : U W (list Z) :=
  folds (seqZ 0 10) [] (fun _ pids =>
    let? pid := fork in
    do? uwhen (pid =? 0)
      (let? a := sbrk 0 in
       do? sbrk (s32 (u64 (BIG - a))) in
       do? puts wr "x" in
       forever (ignore (sleep 1000))) in
    do? uwhen (negb (pid =? -1)) (ignore (read rd 1)) in
    done (pids ++ [pid])).

Definition sbrkfail (s : list Z) : U W unit :=
  let? r := pipe in
  do? bad s (negb (fst r =? 0)) "pipe() failed" [] in
  let '(rd, wr) := snd r in
  let? pids := sbrkfail_forks rd wr in
  let? c := sbrk PGSIZE in
  do? every pids (fun pid => uwhen (negb (pid =? -1)) (do? kill pid in ignore wait)) in
  do? bad s (c =? MINUS1) "failed sbrk leaked memory" [] in
  let? pid := fork_ok s in
  do? uwhen (pid =? 0)
    (let? a := sbrk 0 in
     do? sbrk (10 * BIG) in
     let? n := loop (fun st =>
       let '(i, n) := st in
       if i <? 10 * BIG then let? v := peek 1 (a + i) in done (inl (i + PGSIZE, s32 (n + v)))
       else done (inr n)) (0, 0) in
     die 1 (line "%s: allocate a lot of memory succeeded %d") [AStr (Some s); AInt n]) in
  let? r := wait in
  uwhen (negb (snd r =? -1) && negb (snd r =? 2)) (exit 1).

Definition sbrkarg (s : list Z) : U W unit :=
  let? a := sbrk PGSIZE in
  let? fd := open "sbrk" CREATE_WR in
  do? unlink "sbrk" in
  do? bad s (fd <? 0) "open sbrk failed" [] in
  let? n := sys (pr_write fd a PGSIZE) in
  do? bad s (n <? 0) "write sbrk failed" [] in
  do? close fd in
  let? a := sbrk PGSIZE in
  let? r := sys (pr_pipe a) in
  bad s (negb (r =? 0)) "pipe() failed" [].

Definition validatetest (s : list Z) : U W unit :=
  stride 0 (1100 * 1024 + 1) PGSIZE (fun p =>
    let? r := sys (pr_link (Bytes (bytes_of "nosuchfile")) (At p)) in
    bad s (negb (r =? -1)) "link should not succeed" []).

(** [uninit] is where the array of that name lies. *)
Definition bsstest (uninit : Z) (s : list Z) : U W unit :=
  every (seqZ 0 10000) (fun i =>
    let? v := peek 1 (uninit + i) in bad s (negb (v =? 0)) "bss test failed" []).

Definition bigarg : list Z := bytes_of (line "bigargs test: failed") ++ replicate 199 32.

Definition bigargtest (s : list Z) : U W unit :=
  do? unlink "bigarg-ok" in
  let? pid := fork in
  do? (if pid =? 0 then
         do? exec (bytes_of "echo") (replicate (Z.to_nat (MAXARG - 1)) bigarg) in
         let? fd := open "bigarg-ok" O_CREATE in
         do? close fd in
         exit 0
       else bad s (pid <? 0) "bigargtest: fork failed" []) in
  let? r := wait in
  do? uwhen (negb (snd r =? 0)) (exit (snd r)) in
  let? fd := open "bigarg-ok" 0 in
  do? bad s (fd <? 0) "bigarg test failed!" [] in
  ignore (close fd).

(** The name [f] and four digits. *)
Definition f_name (n : Z) : list Z :=
  [102; chr 48 (n / 1000); chr 48 (n mod 1000 / 100); chr 48 (n mod 100 / 10); chr 48 (n mod 10)].

(** Files filled until one cannot be made or takes no byte: the number of the
    last one. *)
Definition fsfull_fill : U W Z :=
  loop (fun nfiles =>
    let name := f_name nfiles in
    do? printf (line "writing %s") [AStr (Some name)] in
    let? fd := open_file name RDWR_CREATE in
    if fd <? 0 then do? printf (line "open %s failed") [AStr (Some name)] in done (inr nfiles) else
    let? total := loop (fun total =>
      let? cc := write fd (take (Z.to_nat BSIZE) buf0) in
      if cc <? BSIZE then done (inr total) else done (inl (total + cc))) 0 in
    do? printf (line "wrote %d bytes") [AInt total] in
    do? close fd in
    if total =? 0 then done (inr nfiles) else done (inl (nfiles + 1))) 0.

Definition fsfull : U W unit :=
  do? printf (line "fsfull test") [] in
  let? nfiles := fsfull_fill in
  do? loop (fun nfiles =>
    if 0 <=? nfiles then do? unlink_file (f_name nfiles) in done (inl (nfiles - 1)) else done (inr tt)) nfiles in
  printf (line "fsfull test finished") [].

Definition argptest (s : list Z) : U W unit :=
  let? fd := open "init" O_RDONLY in
  do? bad s (fd <? 0) "open failed" [] in
  let? a := sbrk 0 in
  do? sys (pr_read fd (u64 (a - 1)) (-1)) in
  ignore (close fd).

(** [if(xstatus == -1) exit(0); else exit(xstatus);] *)
Definition exit_killed : U W unit :=
  let? r := wait in
  if snd r =? -1 then exit 0 else exit (snd r).

Definition stacktest (s : list Z) : U W unit :=
  let? pid := fork in
  do? (if pid =? 0 then
         let? sp := sys pr_sp in
         let? v := peek 1 (u64 (sp - PGSIZE)) in
         die 1 (line "%s: stacktest: read below stack %p") [AStr (Some s); ALong v]
       else bad s (pid <? 0) "fork failed" []) in
  exit_killed.

Definition textwrite (s : list Z) : U W unit :=
  let? pid := fork in
  do? (if pid =? 0 then do? poke 4 0 10 in exit 1 else bad s (pid <? 0) "fork failed" []) in
  exit_killed.

Definition pgbug (s : list Z) : U W unit :=
  let big := 0xeaeb0b5b00002f5e in
  do? exec_at (At big) [] in
  do? sys (pr_pipe big) in
  exit 0.

(** A child that moves its break; after the first one's [sbrk] it has no page
    left to run in, and the kernel ends it. *)
Definition sbrk_child (move : U W unit) : U W unit :=
  let? pid := fork_quiet in
  do? uwhen (pid =? 0) (do? move in exit 0) in
  ignore wait.

Definition sbrkbugs (s : list Z) : U W unit :=
  do? sbrk_child (let? a := sbrk 0 in let sz := s32 a in ignore (sbrk (s32 (- sz)))) in
  do? sbrk_child (let? a := sbrk 0 in let sz := s32 a in ignore (sbrk (s32 (- (sz - 3500))))) in
  do? sbrk_child
    (let? a := sbrk 0 in
     do? sbrk (s32 (10 * 4096 + 2048 - a)) in
     ignore (sbrk (-10))) in
  exit 0.

Definition sbrklast (s : list Z) : U W unit :=
  let? top := sbrk 0 in
  do? uwhen (negb (top mod 4096 =? 0)) (ignore (sbrk (4096 - top mod 4096))) in
  do? sbrk 4096 in
  do? sbrk 10 in
  do? sbrk (-20) in
  let? top := sbrk 0 in
  let p := u64 (top - 64) in
  do? poke 1 p 120 in
  do? poke 1 (p + 1) 0 in
  let? fd := sys (pr_open p (Z.lor O_RDWR O_CREATE)) in
  do? sys (pr_write fd p 1) in
  do? close fd in
  let? fd := sys (pr_open p O_RDWR) in
  do? poke 1 p 0 in
  do? sys (pr_read fd p 1) in
  let? v := peek 1 p in
  uwhen (negb (v =? 120)) (exit 1).

Definition sbrk8000 (s : list Z) : U W unit :=
  do? sbrk (s32 0x80000004) in
  let? top := sbrk 0 in
  let? v := peek 1 (u64 (top - 1)) in
  poke 1 (u64 (top - 1)) (u8 (v + 1)).

Definition badarg (s : list Z) : U W unit :=
  do? times 50000 (ignore (exec_at (Bytes (bytes_of "echo")) [At 0xffffffff])) in
  exit 0.
End quick2.

(** ** What [createdelete] leaves behind *)

(** A child leaves the files 0 and 10 to 19 ([createdelete_check] expects just
    these); the clean-up removes those whose two characters have the same
    number, which is the file 0 of the first child, and no other. *)
Theorem createdelete_leaves :
  Forall (fun pi => Forall (fun i =>
    cd_name pi i ∈ (seqZ 0 20 ≫= fun i => cleanup_name i <$> seqZ 0 4) <-> pi = 0 /\ i = 0)
    (0 :: seqZ 10 10)) (seqZ 0 4).
Proof. apply (bool_decide_unpack _). vm_compute. exact I. Qed.
