(* ===== verification/Usertests.v ===== *)
(** * usertests: the slow tests and the driver

    The tests of [user/usertests.c] that take long, the tables of tests, and
    the driver, which runs each test in a process of its own, reports on its
    exit status, and compares the number of free pages before and after. The
    theorems are about the driver: what it prints and returns is decided by the
    statuses of the children. *)

From S2P Require Import Prelude Riscv Cstring User Ulib Umalloc Utest Utests UtestsFile UtestsDir.

Section slow.
Context {W : Type} `{OS W} `{Process W}.

(** ** Slow tests *)

Definition x_name (i : Z) : list Z := [120; chr 48 (i / 64); chr 48 (i mod 64)].

Definition bigdir (s : list Z) : U W unit :=
  do? unlink "bd" in
  let? fd := open "bd" O_CREATE in
  do? bad s (fd <? 0) "bigdir create failed" [] in
  do? close fd in
  do? every (seqZ 0 500) (fun i =>
    let? r := link_file (bytes_of "bd") (x_name i) in
    bad s (negb (r =? 0)) "bigdir link(bd, %s) failed" [AStr (Some (x_name i))]) in
  do? unlink "bd" in
  every (seqZ 0 500) (fun i =>
    let? r := unlink_file (x_name i) in bad_nonl s (negb (r =? 0)) "bigdir unlink failed").

Definition manywrites_child (s : list Z) (ci : Z) : U W unit :=
  let name := [98; chr 97 ci] in
  do? unlink_file name in
  do? times 30
    (do? times (ci + 1)
       (let? fd := open_file name RDWR_CREATE in
        do? bad s (fd <? 0) "cannot create %s" [AStr (Some name)] in
        let? cc := write fd buf0 in
        do? bad s (negb (cc =? BUFSZ)) "write(%d) ret %d" [AInt BUFSZ; AInt cc] in
        ignore (close fd)) in
     ignore (unlink_file name)) in
  do? unlink_file name in
  exit 0.

Definition manywrites (s : list Z) : U W unit :=
  do? every (seqZ 0 4) (fun ci =>
    let? pid := fork_quiet in uwhen (pid =? 0) (manywrites_child s ci)) in
  do? times 4
    (let? r := wait in
     let st := status_or 0 r in uwhen (negb (st =? 0)) (exit st)) in
  exit 0.

Definition open_junk : U W Z :=
  let? fd := open "junk" CREATE_WR in
  do? fail_if (fd <? 0) (line "open junk failed") [] in
  done fd.

Definition badwrite (s : list Z) : U W unit :=
  do? unlink "junk" in
  do? times 600
    (let? fd := open_junk in
     do? sys (pr_write fd 0xffffffffff 1) in
     do? close fd in
     ignore (unlink "junk")) in
  let? fd := open_junk in
  let? n := puts fd "x" in
  do? fail_if (negb (n =? 1)) (line "write failed") [] in
  do? close fd in
  do? unlink "junk" in
  exit 0.

(** [while(1)]: a page at a time, its last byte written, [report] after each,
    until [sbrk] fails. *)
Definition grab_pages (report : U W unit) : U W unit :=
  loop (fun _ : unit =>
    let? a := sbrk 4096 in
    if a =? MINUS1 then done (inr tt) else
    do? poke 1 (a + 4096 - 1) 1 in
    do? report in
    done (inl tt)) tt.

Definition execout (s : list Z) : U W unit :=
  do? every (seqZ 0 15) (fun avail =>
    let? pid := fork_quiet in
    if pid =? 0 then
      do? grab_pages (done tt) in
      do? times avail (ignore (sbrk (-4096))) in
      do? close 1 in
      do? exec (bytes_of "echo") [bytes_of "echo"; bytes_of "x"] in
      exit 0
    else ignore wait) in
  exit 0.

Definition big_name (i : Z) : list Z := bytes_of "big" ++ [chr 48 i].
Definition zz_name (i : Z) : list Z := bytes_of "zz" ++ [chr 48 (i / 32); chr 48 (i mod 32)].
Definition CREATE_RDWR_TRUNC : Z := Z.lor RDWR_CREATE O_TRUNC.

(** Up to [MAXFILE] blocks; has a write failed? The file is closed when one
    has. [garbage] is what the uninitialised local holds. *)
Definition fill_file (garbage : list Z) (fd : Z) : U W bool :=
  let? r := each (seqZ 0 MAXFILE) tt (fun _ _ =>
    let? n := write fd garbage in
    if negb (n =? BSIZE) then do? close fd in done (inr tt) else done (inl tt)) in
  done (match r with inl _ => false | inr _ => true end).

(** Files until the disk is full; [fi] at the end. *)
Definition diskfull_fill (garbage s : list Z) : U W Z :=
  loop (fun fi =>
    let name := big_name fi in
    do? unlink_file name in
    let? fd := open_file name CREATE_RDWR_TRUNC in
    if fd <? 0 then
      do? printf (line "%s: could not create file %s") [AStr (Some s); AStr (Some name)] in
      done (inr fi)
    else
      let? full := fill_file garbage fd in
      do? close fd in
      done (if full then inr (fi + 1) else inl (fi + 1))) 0.

(** [for(i = 0; i < nzz; i++)] that makes files until one cannot be made. *)
Definition make_zz (nzz : Z) : U W unit :=
  ignore (each (seqZ 0 nzz) tt (fun i _ =>
    do? unlink_file (zz_name i) in
    let? fd := open_file (zz_name i) CREATE_RDWR_TRUNC in
    if fd <? 0 then done (inr tt) else do? close fd in done (inl tt))).

(** The message about [mkdir] has no argument for its [%s]. *)
Definition diskfull (garbage s : list Z) : U W unit :=
  do? unlink "diskfulldir" in
  let? fi := diskfull_fill garbage s in
  do? make_zz 128 in
  let? r := mkdir "diskfulldir" in
  do? uwhen (r =? 0) (printf (line "%s: mkdir(diskfulldir) unexpectedly succeeded!") []) in
  do? unlink "diskfulldir" in
  do? every (seqZ 0 128) (fun i => ignore (unlink_file (zz_name i))) in
  every (seqZ 0 fi) (fun i => ignore (unlink_file (big_name i))).

Definition outofinodes (s : list Z) : U W unit :=
  do? make_zz (32 * 32) in
  every (seqZ 0 (32 * 32)) (fun i => ignore (unlink_file (zz_name i))).

(** ** The tables *)

(** Where the linker put [uninit] and the allocator's header, and what an
    uninitialised local holds. *)
Context (uninit base : Z) (garbage : list Z).

(** [struct test]; the entry with a null name that ends the table is the end of
    the list. *)
Definition test : Type := ((list Z -> U W unit) * string).

Definition quicktests : list test :=
  [ (copyin, "copyin"); (copyout, "copyout"); (copyinstr1, "copyinstr1"); (copyinstr2, "copyinstr2");
    (copyinstr3, "copyinstr3"); (rwsbrk, "rwsbrk"); (truncate1, "truncate1"); (truncate2, "truncate2");
    (truncate3, "truncate3"); (openiputtest, "openiput"); (exitiputtest, "exitiput"); (iputtest, "iput");
    (opentest, "opentest"); (writetest, "writetest"); (writebig, "writebig"); (createtest, "createtest");
    (dirtest, "dirtest"); (exectest, "exectest"); (pipe1, "pipe1"); (killstatus, "killstatus");
    (preempt, "preempt"); (exitwait, "exitwait"); (reparent, "reparent"); (twochildren, "twochildren");
    (forkfork, "forkfork"); (forkforkfork, "forkforkfork"); (reparent2, "reparent2"); (mem base, "mem");
    (sharedfd, "sharedfd"); (fourfiles, "fourfiles"); (createdelete, "createdelete");
    (unlinkread, "unlinkread"); (linktest, "linktest"); (concreate, "concreate"); (linkunlink, "linkunlink");
    (subdir, "subdir"); (bigwrite, "bigwrite"); (bigfile, "bigfile"); (fourteen, "fourteen");
    (rmdot, "rmdot"); (dirfile, "dirfile"); (iref, "iref"); (forktest_user, "forktest");
    (sbrkbasic, "sbrkbasic"); (sbrkmuch, "sbrkmuch"); (kernmem, "kernmem"); (MAXVAplus, "MAXVAplus");
    (sbrkfail, "sbrkfail"); (sbrkarg, "sbrkarg"); (validatetest, "validatetest"); (bsstest uninit, "bsstest");
    (bigargtest, "bigargtest"); (argptest, "argptest"); (stacktest, "stacktest"); (textwrite, "textwrite");
    (pgbug, "pgbug"); (sbrkbugs, "sbrkbugs"); (sbrklast, "sbrklast"); (sbrk8000, "sbrk8000");
    (badarg, "badarg") ]%string.

Definition slowtests : list test :=
  [ (bigdir, "bigdir"); (manywrites, "manywrites"); (badwrite, "badwrite"); (execout, "execout");
    (diskfull garbage, "diskfull"); (outofinodes, "outofinodes") ]%string.

(** ** The driver *)

Definition run (f : list Z -> U W unit) (s : list Z) : U W bool :=
  do? printf "test %s: " [AStr (Some s)] in
  let? pid := fork in
  do? fail_if (pid <? 0) (line "runtest: fork error") [] in
  do? uwhen (pid =? 0) (do? f s in exit 0) in
  let? r := wait in
  let xstatus := snd r in
  do? (if negb (xstatus =? 0) then printf (line "FAILED") [] else printf (line "OK") []) in
  done (xstatus =? 0).

(** [(justone == 0) || strcmp(t->s, justone) == 0] *)
Definition selected (justone : option (list Z)) (s : list Z) : bool :=
  match justone with
  | None => true
  | Some one => bool_decide (strcmp (s ++ [0]) (one ++ [0]) = Some 0)
  end.

Fixpoint runtests (tests : list test) (justone : option (list Z)) : U W bool :=
  match tests with
  | [] => done false
  | (f, name) :: tests' =>
      let s := bytes_of name in
      if selected justone s then
        let? ok := run f s in
        if negb ok then do? printf (line "SOME TESTS FAILED") [] in done true
        else runtests tests' justone
      else runtests tests' justone
  end.

Definition countfree : U W Z :=
  let? r := pipe in
  do? fail_if (fst r <? 0) (line "pipe() failed in countfree()") [] in
  let '(rd, wr) := snd r in
  let? pid := fork in
  do? fail_if (pid <? 0) (line "fork failed in countfree()") [] in
  do? uwhen (pid =? 0)
    (do? close rd in
     do? grab_pages
       (let? n := puts wr "x" in
        fail_if (negb (n =? 1)) (line "write() failed in countfree()") []) in
     exit 0) in
  do? close wr in
  let? n := loop (fun n =>
    let? r := read rd 1 in
    do? fail_if (fst r <? 0) (line "read() failed in countfree()") [] in
    if fst r =? 0 then done (inr n) else done (inl (n + 1))) 0 in
  do? close rd in
  do? wait in
  done n.

(** One round of [do { ... } while(continuous)]; [Some] is [return]. *)
Definition drive_round (quick : bool) (continuous : Z) (justone : option (list Z)) : U W (option bool) :=
  let return_on (failed : bool) (k : U W (option bool)) : U W (option bool) :=
    if failed && negb (continuous =? 2) then done (Some true) else k in
  do? printf (line "usertests starting") [] in
  let? free0 := countfree in
  let? failed := runtests quicktests justone in
  return_on failed (
    let? failed := (if negb quick then
      do? uwhen (negb (bool_decide (is_Some justone))) (printf (line "usertests slow tests starting") []) in
      runtests slowtests justone else done false) in
    return_on failed (
      let? free1 := countfree in
      if free1 <? free0 then
        do? printf (line "FAILED -- lost some free pages %d (out of %d)") [AInt free1; AInt free0] in
        return_on true (done None)
      else done None)).
Definition drivetests (quick : bool) (continuous : Z) (justone : option (list Z)) : U W bool :=
  loop (fun _ : unit =>
    let? r := drive_round quick continuous justone in
    match r with
    | Some failed => done (inr failed)
    | None => if negb (continuous =? 0) then done (inl tt) else done (inr false)
    end) tt.

(** The command line, [None] when it is not one of the usage line. *)
Definition parse_args (argv : list (list Z)) : option (bool * Z * option (list Z)) :=
  match argv with
  | [_; a] =>
      if bool_decide (a = bytes_of "-q") then Some (true, 0, None)
      else if bool_decide (a = bytes_of "-c") then Some (false, 1, None)
      else if bool_decide (a = bytes_of "-C") then Some (false, 2, None)
      else if bool_decide (head a = Some 45) then None
      else Some (false, 0, Some a)
  | _ :: _ :: _ => None
  | _ => Some (false, 0, None)
  end.

Definition usertests_main (argv : list (list Z)) : U W unit :=
  match parse_args argv with
  | None => die 1 (line "Usage: usertests [-c] [-C] [-q] [testname]") []
  | Some (quick, continuous, justone) =>
      let? failed := drivetests quick continuous justone in
      do? uwhen failed (exit 1) in
      do? printf (line "ALL TESTS PASSED") [] in
      exit 0
  end.
End slow.
Arguments test W : clear implicits.

(** ** What the driver reports *)

(** The world of a driver whose tests end: [fork] succeeds, the statuses of the
    children to come are [verdicts], and descriptor 1 is [screen]. *)
Class Harness {W : Type} `{OS W} := {
  verdicts : W -> list Z;
  screen : W -> list Z;
  harness_fork : forall w, wp os_fork (fun pid w' =>
    0 < pid /\ verdicts w' = verdicts w /\ screen w' = screen w) w;
  harness_wait : forall w st rest, verdicts w = st :: rest -> wp os_wait (fun r w' =>
    snd r = st /\ verdicts w' = rest /\ screen w' = screen w) w;
  harness_write : forall bs w, wp (os_write 1 bs) (fun _ w' =>
    screen w' = screen w ++ bs /\ verdicts w' = verdicts w) w
}.

(** What is printed for the tests [names] that end with [sts]: a line each, up
    to the first that fails. *)
Fixpoint transcript (names : list (list Z)) (sts : list Z) : list Z :=
  match names, sts with
  | s :: names', st :: sts' =>
      bytes_of "test " ++ (u8 <$> s) ++ bytes_of ": " ++
      (if st =? 0 then bytes_of (line "OK") ++ transcript names' sts'
       else bytes_of (line "FAILED") ++ bytes_of (line "SOME TESTS FAILED"))
  | _, _ => []
  end.
(** How many of them are run. *)
Fixpoint runs (n : nat) (sts : list Z) : nat :=
  match n, sts with
  | S n', st :: sts' => S (if st =? 0 then runs n' sts' else O)
  | _, _ => O
  end.

Section driver.
Context {W : Type} {HO : OS W} {HH : Harness}.

Lemma put_ok fmt ap out w :
  format (bytes_of fmt) false ap = Some out ->
  uwp (printf fmt ap) (fun _ w' => screen w' = screen w ++ out /\ verdicts w' = verdicts w) w.
Proof. intros Hf. apply (printf_writes screen verdicts harness_write _ _ _ Hf). Qed.

Lemma run_reports (f : list Z -> U W unit) s w st rest :
  verdicts w = st :: rest ->
  uwp (run f s) (fun ok w' => ok = (st =? 0) /\ verdicts w' = rest /\
    screen w' = screen w ++ bytes_of "test " ++ (u8 <$> s) ++ bytes_of ": " ++
      bytes_of (line (if st =? 0 then "OK" else "FAILED"))) w.
Proof.
  intros Hv. apply uwp_then. eapply uwp_conseq; [apply put_ok; reflexivity|]. intros _ w1 [Hs1 Hv1].
  apply uwp_then, uwp_sys. eapply wp_conseq; [apply harness_fork|]. intros pid w2 (Hp & Hv2 & Hs2).
  apply uwp_then. destruct (Z.ltb_spec pid 0); [lia|]. apply uwp_done.
  apply uwp_then. destruct (Z.eqb_spec pid 0); [lia|]. apply uwp_done.
  apply uwp_then, uwp_sys. eapply wp_conseq; [apply (harness_wait _ st rest); congruence|].
  intros r w3 (Hr & Hv3 & Hs3). cbv zeta. rewrite Hr. apply uwp_then.
  assert (Hout : uwp (if negb (st =? 0) then printf (line "FAILED") [] else printf (line "OK") [])
    (fun _ w' => screen w' = screen w3 ++ bytes_of (line (if st =? 0 then "OK" else "FAILED")) /\ verdicts w' = verdicts w3) w3).
  { destruct (st =? 0); apply put_ok; reflexivity. }
  eapply uwp_conseq; [exact Hout|]. intros _ w4 [Hs4 Hv4]. apply uwp_done. split_and!; [done|congruence|].
  rewrite Hs4, Hs3, Hs2, Hs1. rewrite <- !app_assoc. simpl. rewrite <- app_assoc. done.
Qed.

(** The tests that are run, by name. *)
Definition chosen (tests : list (test W)) (justone : option (list Z)) : list (list Z) :=
  List.filter (selected justone) ((fun t => bytes_of t.2) <$> tests).

Lemma chosen_cons (t : test W) tests justone :
  chosen (t :: tests) justone =
  (if selected justone (bytes_of t.2) then [bytes_of t.2] else []) ++ chosen tests justone.
Proof. unfold chosen. cbn. by destruct (selected justone (bytes_of t.2)). Qed.

Lemma runtests_ok (tests : list (test W)) justone w :
  let names := chosen tests justone in
  (length names <= length (verdicts w))%nat ->
  uwp (runtests tests justone) (fun failed w' =>
    failed = negb (forallb (Z.eqb 0) (take (length names) (verdicts w))) /\
    screen w' = screen w ++ transcript names (verdicts w) /\
    verdicts w' = drop (runs (length names) (verdicts w)) (verdicts w)) w.
Proof.
  revert w. induction tests as [|[f name] tests IH]; intros w; cbv zeta.
  { intros _. apply uwp_done. cbn. by rewrite app_nil_r. }
  rewrite chosen_cons. cbn [runtests snd]. destruct (selected justone (bytes_of name)); [|apply IH].
  set (names := chosen tests justone) in *. cbn [app length]. intros Hl.
  destruct (verdicts w) as [|st rest] eqn:Hv; [simpl in Hl; lia|].
  apply uwp_then. eapply uwp_conseq; [by apply (run_reports _ _ _ st rest)|].
  intros ok w1 (-> & Hv1 & Hs1). cbn [take forallb transcript runs drop]. rewrite (Z.eqb_sym 0 st).
  destruct (st =? 0) eqn:Est; cbn [negb andb].
  - eapply uwp_conseq; [apply IH; rewrite Hv1; simpl in Hl; lia|]. rewrite Hv1.
    intros failed w2 (-> & Hs2 & Hv2). split_and!; [done| |done].
    rewrite Hs2, Hs1. by rewrite <- !app_assoc.
  - apply uwp_then. eapply uwp_conseq; [apply put_ok; reflexivity|]. intros _ w2 [Hs2 Hv2].
    apply uwp_done. split_and!; [done| |by rewrite Hv2].
    rewrite Hs2, Hs1. by rewrite <- !app_assoc.
Qed.


(** A name that is in no table selects no test: nothing is run, nothing
    printed, and no failure reported. *)
Lemma runtests_unknown (tests : list (test W)) one w :
  chosen tests (Some one) = [] -> runtests tests (Some one) w = Ret (Done false) w.
Proof.
  induction tests as [|[f name] tests IH]; intros Hc; [done|]. rewrite chosen_cons in Hc.
  cbn [runtests snd] in *. by destruct (selected (Some one) (bytes_of name)); [done|apply IH].
Qed.
End driver.

(** ** A run of the driver *)

Module HarnessSample.
Record bench := mk_bench { b_sts : list Z; b_out : list Z }.

#[export] Instance bench_os : OS bench := bare_os
  (ret 3)
  (fun b => match b_sts b with
            | st :: rest => Ret (3, st) (mk_bench rest (b_out b))
            | [] => Ret (-1, 0) b
            end)
  (fun fd bs b => if fd =? 1 then Ret (Z.of_nat (length bs)) (mk_bench (b_sts b) (b_out b ++ bs)) else Ret (-1) b).
#[export] Program Instance bench_harness : Harness := {| verdicts := b_sts; screen := b_out |}.
Next Obligation. by intros w. Qed.
Next Obligation. intros w st rest E. unfold wp. cbn. by rewrite E. Qed.
Next Obligation. intros bs w. by unfold wp. Qed.

Definition three : list (test bench) :=
  [(fun _ => exit 0, "first"); (fun _ => exit 1, "second"); (fun _ => exit 0, "third")]%string.

End HarnessSample.
